(* ===== verification/_CoqProject ===== *)
-Q . S2P
Prelude.v
GoStd.v
DotSplit.v
Value.v
Feature.v
Template.v
FeatureFacts.v
Render.v
TemplateFuncs.v
Assignment.v
Compute.v
Dispatch.v
Monad.v
Latest.v
World.v
Atomic.v
Queries.v
Fetch.v
Publisher.v
Deployer.v
Loop.v
DecisionStream.v
Status.v
Environment.v
Management.v
Receiver.v
ConfigStore.v
AssignmentStore.v
Winning.v
AuditTrail.v
ConfigForm.v
Chart.v
Http.v
Api.v
View.v
Catalog.v
History.v
Overview.v
Invariant.v
Preview.v
FeatureEnvs.v
ConfigItems.v
AssignmentRows.v
AssignmentCards.v
Labels.v
UiData.v
Listings.v
ChartVersions.v
FeaturePage.v
Operations.v
Pages.v
PageFacts.v
AuditView.v
TemplateTest.v
System.v
ConfigTable.v
EnvironmentPage.v
FeatureHeader.v
Agent.v
AgentLog.v
Versions.v
FeatureDetail.v
Messaging.v
EndToEnd.v
Fasitd.v
FasitdSystem.v
