(* ===== verification/Prelude.v ===== *)
(** * Fasit: a verification development

    Fasit rolls features (Helm charts with a Feature.yaml) out to the environments of
    tenants.  A feature version is assigned to environments by labels; a reconciler
    computes, for every assignment and matching environment, the Helm values and whether
    they must be deployed, hands instructions for the agents (naisd) to Pub/Sub and listens
    to their status messages.  Users change assignments, configuration, environments and
    switches through web pages, an HTTP API and a gRPC API.  This library translates the
    packages that carry that logic from Go (under src/internal) and proves what they
    promise.

    ** Parts, and the files that model them

    Foundations:
    - [Prelude] (this file): errors, outcomes of Go code (value, error, panic), folds over
      outcomes, a stable sort with its laws, finite runs of a step relation, automation.
    - [GoStd]: what the code uses of Go's strings and time packages, on byte strings.
    - [Monad]: state, error and panic for code with effects.  An error keeps the state
      reached, as in Go; [transaction] undoes.
    - [World]: the tables of internal/database/migrations, clock, identifiers, messages,
      and dbtx/dbtx.go.  [Atomic]: operations that change everything or nothing.

    Pure core:
    - [DotSplit] (feature/featureutil/dotsplit.go), [Value] (dynamic values), [Feature]
      (feature/model.go) and [FeatureFacts], its theorems: keys such as [a.b\.c], overlay
      of environment configuration on global configuration, nesting, required fields.
    - [Template] (feature/template_parser.go): the names a template reads;
      [TemplateFuncs] (feature/template_funcs.go): the functions it may call.
    - [Render] (feature/computed.go, RenderHelmValues of feature/queries.go): computed
      values and the final Helm values.
    - [Assignment] (reconciler/model.go, compute.go, featureassignment/queries.go): which
      assignments match an environment, which one wins.
    - [Compute] (reconciler/compute.go, model.go): the snapshot and [computeAction].
    - [Dispatch] (reconciler/compute.go): [computeActionsStream] with its goroutines.

    The server's operations:
    - [Latest]: a log and its current rows, generically; [Queries]
      (reconciler/reconcilersql, migrations 0093 and 0098): the reconciler's SQL.
    - [Fetch] (reconciler/fetch.go): reading a snapshot.
    - [Publisher] (message/publisher.go): handing messages to Pub/Sub; [Deployer]
      (deployer.go, multideployer.go, redeploy.go): carrying decisions out.
    - [Loop] (reconciler.go): a turn of the loop, timeouts.
    - [Status], [Overview] (status.go, recentdeploys.go, decisionlog.go): the state of a
      feature, read one at a time or for a whole environment.
    - [Environment] (internal/environment, internal/audit, internal/naisdstatus),
      [Receiver] (receiver.go, internal/message), [ConfigStore]
      (feature/queries_configurations.go, queries_disabled_features.go),
      [AssignmentStore] (internal/featureassignment, feature data of feature/queries.go),
      [Winning]: the API and the reconciler choose the same assignment.
    - [Catalog], [History], [Preview] (the rest of feature/queries.go): stored versions,
      deploy history, the values the next deploy will have.
    - [Chart] (FromChart of feature/model.go): what is read from a chart; [ChartVersions]
      (internal/helm/versions.go): the versions a registry has.
    - [AuditTrail] (internal/audit): reading the audit log.

    Its three interfaces:
    - [Management] (internal/environmentmanagement): the gRPC API of the Terraform
      provider.
    - [Http] (requests and replies) and [Api] (internal/api, internal/auth,
      internal/model): the HTTP API and who may use it.
    - [ConfigForm] (ui/components/config.go), [Pages] (the handlers under ui/pages that
      change something, ui/server/routes.go), [PageFacts] (what they guarantee),
      [FeatureEnvs] (ui/featureenvs), [ConfigItems] (the rows of the configuration tables)
      and [ConfigTable] (their cells, editors and form, and what a browser sends): the web
      pages that change something, and what their forms show.
    - [View] (ui/view, components/status.go), [AssignmentRows] and [AssignmentCards]
      (pages/features/feature_assignments.go), [Labels] (pages/labels,
      assignments/preview.go), [Listings] (the lists of assignments, environments and
      features), [UiData] (ui/uidata), [FeaturePage] (environment/helpers.go),
      [FeatureHeader] (environment/feature.go), [EnvironmentPage] (environment/environment.go),
      [Versions] and [FeatureDetail] (the pages of a feature, of its versions and of an
      assignment), [AuditView] (ui/auditview, pages/auditlog), [TemplateTest]
      (pages/templatetest): the pages that only show something, up to the texts, links and
      classes they put into the HTML.
    - [DecisionStream] (StreamDecisions of reconciler.go, pages/reconciler/stream.go): the
      decisions streamed to a page, with several requests at a time.

    Everything running together:
    - [Invariant] (the integrity of the tables, and a small program logic), [Operations]
      (every operation keeps it), [System] (the server as a transition system, which
      serves pages, both APIs and messages beside the reconcile loop).
    - [Agent], [AgentLog] (internal/naisd): the agent in an environment and its log.
    - [Messaging] (message/subscriber.go): receiving; [EndToEnd]: an instruction's way to the
      agent and its statuses' way back.
    - [Fasitd], [FasitdSystem] (internal/fasitd): the gRPC lane that shadows deploys, its
      operations and its sessions at work.

    They interact as the packages do.  A turn of the loop ([Loop.ComputeDesiredState],
    then [Loop.apply_results]) reads a snapshot ([Fetch.fetchSnapshot]) of the tables of
    [World.world], lets the pool of [Dispatch] compute decisions ([Compute.computeAction],
    which calls [Render.RenderHelmValues] and [Feature.MergeConfigs]), writes the decision
    log and hands deploys to a [Deployer.Deployer], which hands messages over and appends to
    the deploy log; a status message ([Receiver.handler]) appends to the same log, whose
    current rows the next snapshot reads.  Pages and APIs call the operations of
    [ConfigStore], [AssignmentStore], [Environment] and [Deployer].  Records, fields and
    functions carry the names of the source; SQL statements carry the name of their query
    (with [_query] where a Go function has the name too).

    ** Conventions

    An operation of the server is a function from a world to an outcome and a world.
    Every call that leaves the process first takes an entry of the world's fault script
    and fails with it when it is an error, so a theorem about all worlds is about every
    place and way of failing.  The field [World.published] lists the messages handed to the
    Pub/Sub client: the server does not wait for the broker, so whether one was delivered no
    theorem of the server says.  The rows of a log are in the order in which inserts
    reached it; tables with a key are finite maps.  A statement runs in the transaction
    of its context only if its package's querier looks there ([World.WithTx_undo]).
    A [range] over a Go map is an argument (the order in which it is visited) where the
    order can matter, and the order of [map_to_list] where a theorem shows it cannot or
    the result is a map or sorted again.  A UUID is a number; a time is in nanoseconds.
    Machine arithmetic is modelled where the code computes: the saturating
    [time.Time.Sub], [strconv.ParseInt] with its range.

    In [System] every request, message and timer tick is one step, as is the snapshot with
    the decisions computed from it; the reconcile loop is cut between computing, logging,
    handing over and recording, and other steps, failures and restarts come between.  The
    interleaving of the statements of two requests is not modelled.

    Code outside the repository is a parameter, in a class: [Render.External]
    (text/template with sprig, YAML, JSON, SHA-256), [Template.TemplateParse] (parse
    trees), [TemplateFuncs.TemplateText] (the text of dynamic values), [Fetch.FeatureCodec],
    [AssignmentStore.FeatureEncoder], [Preview.ObjectCodec], [ConfigStore.RawJson],
    [ConfigForm.FormJson], [Receiver.MessageCodec] and [Api.ApiCodec] (JSON and tokens),
    [Chart.ChartLoader] and [UiData.LogScan] (charts, the order of log lines that tie), plain
    arguments of the pages (the text of an instant, the registry's answers),
    [Queries.Postgres], [AuditTrail.PostgresText] and [History.Scan] (the order and text of
    JSONB, case folding, the order of rows that tie), [Pages.WebInput] (identifiers, URLs),
    [ConfigTable.Browser] (what a browser makes of a form),
    [Agent.AgentEnv] (Helm, Kubernetes).  The laws a theorem needs of them are its
    hypotheses ([Render.pure_templates], that JSONB is totally preordered,
    [EndToEnd.Encodes] and [Catalog.json_faithful]: decoding reads back what was encoded), and a witness instantiates
    them.  Interfaces inside the program are a class ([Assignment.Targeted], two copies of
    the selection of winners; [Latest.Logged], two logs) or a record of operations
    ([Deployer.Deployer]).

    ** What the theorems show

    - Deciding: the decision of [computeAction] on every branch ([computeAction_spec]),
      exactly one for every environment and winning feature ([one_decision_per_feature]),
      and none again for what is recorded as sent ([recorded_not_redeployed]).  The
      winner is the most specific match ([mostSpecificPerFeature_spec]), alike in the
      reconciler, the API ([WinningAssignment_agrees]), the environments of a feature
      ([LoadEnvironments_agrees]), its assignments ([overview_one_row]) and its page
      ([page_shows_row]); and what a target is said to match when it is entered is what it
      then matches ([preview_is_matched]).
    - Concurrency: every run of the pool ends and outputs the decisions of all tasks
      ([computeActionsStream_terminates]), also when requests for a stream of them compete
      ([stream_requests_served]); the agent's log lines arrive once and in order
      ([logger_delivers]); fasitd's commands are delivered once, sessions are exclusive and
      buffers bounded ([commands_delivered_once], [sessions_exclusive],
      [buffers_bounded]).
    - Helm values: overlay ([MergeConfigs_spec]), nesting ([MakeHelmConfigMap_correct]), the
      whole rendering ([RenderHelmValues_spec]); what is previewed is what is deployed
      ([preview_is_deployed]).
    - Deploying: exactly the instructions handed to Pub/Sub are logged
      ([pubSub_Deploy_logs_published]), delivered or not ([lost_publish_recorded]), status messages append to the log
      ([handlerHelm_appends]), the agent deploys what it was sent and reports it
      ([agent_handler_deploys]), and a healthy deploy is recorded as deployed
      ([healthy_deploy_completes]).
    - Logs: the maintained current rows refine the query they replaced
      ([deploy_current_refines]) and are what a snapshot reads ([fetchSnapshot_latest]);
      the history groups them ([ListRecentDeployInstructions_spec]).
    - The whole server: the tables keep their integrity in every reachable state
      ([reachable_wf]), every logged deploy was handed over ([deploys_were_published]), and a
      pending deploy can always be settled ([can_settle]).
    - Storage and pages: one active assignment of a feature for a target ([Create_spec]),
      the management API changes all or nothing ([manage_all_or_nothing]), a change made on
      a page triggers a reconciliation or nothing happened ([page_change_triggers]), what is
      switched off is not deployed ([switched_off_not_deployed]), declared secrets stay out
      of the audit log where they are stored by key ([declared_secret_hidden]), values have their declared type
      ([ParseConfigValue_typed]) and are shown alike everywhere ([display_parse],
      [compare_agrees_page]), what is typed into the table of a page is what is stored and
      shown ([bulk_edit_saves]), only valid tokens assign ([validateToken_sound]).
    - What pages show: the list of assignments says what the API says
      ([assignments_list_agrees]), the badge of an agent what the reconciler will do
      ([health_badge_honest]), a release can be uninstalled when nothing assigns it
      ([uninstall_offered]), the link to all activity finds it ([all_link_finds]), and more
      in the files: the statuses of an environment's features ([feature_rows_agree]), menus
      and popovers that fit ([page_consistent]), the banner of a replaced assignment ([banner_names_successor]), changes
      in the audit trail ([config_change_shown]), the tested template
      ([tester_shows_template]), the defaults of a chart ([FromChart_spec]).

    The theorems whose names end in a fault ([.._leaks_secret], [.._panics],
    [.._not_atomic], [.._drops_labels], [.._clash] and so on) are concrete runs that show
    behaviour one would not expect; the file of each says which code is concerned.

    ** Termination, bounds

    Recursion is structural or by [ofold] over lists.  Only [ChartVersions.list_pages],
    which follows the links a registry sends, takes fuel: one more than there are pages is
    enough ([ListChartVersions_spec]), and a registry whose links form a cycle is never left
    ([list_pages_loops]).  [Dispatch.pool_step] and [DecisionStream.stream_step] are
    relations, and their runs end because a measure decreases in every step.  Log lengths,
    channel capacities and the number of workers and requests are arbitrary.

    ** What is not modelled

    The endless loops of [Reconciler.Run] and the workers (a timer around one turn); locks
    other than [streamMu], metrics, tracing and log output; the download of charts, Helm's
    archives and YAML decoding; Google's Pub/Sub client, the Kubernetes and Helm clients of
    the agent, gRPC (with the generated code of internal/proto) and HTTP transports; start-up
    (cmd, contextloader), the migrations as such, and development tools (internal/fakeagent,
    cmd/setup_local_env).  Of the pages, elements, styles and scripts: the definitions end
    at the data the HTML is made of, where no condition depends on it any more.  The order
    in which tenants and environments were created is a parameter of their lists, because
    nothing else reads these times. *)

From Stdlib Require Export Ascii.
From stdpp Require Export base gmap sets list strings sorting pretty.
From Stdlib Require Export ZArith Lia.

(** ** Scopes and notations *)

Declare Scope go_scope.
Delimit Scope go_scope with go.
#[global] Open Scope go_scope.
#[global] Arguments String.append : simpl nomatch.

(** A UUID is its 128-bit value: [uuid.UUID.String] prints the bytes in order as
    fixed-width hexadecimal, so comparing two strings is comparing the numbers. *)
Abbreviation uuid := N (only parsing).
(** An instant ([time.Time]) and a [time.Duration], both in nanoseconds. *)
Abbreviation time := Z (only parsing).
Abbreviation duration := Z (only parsing).

(** ** Errors and outcomes of Go code *)

(** The error values the program builds or inspects.  [ErrWrap] and [ErrSuffix] are
    [fmt.Errorf] with the wrapped error last and first; [ErrSentinel] stands for the
    package-level [errors.New] values compared with [errors.Is]; [ErrUniqueViolation]
    and [ErrPg] for a [*pgconn.PgError] with code 23505 and with another code;
    [ErrConfigParse] is the UI's [*configParseError]; [ErrExternal] is any other error of
    code outside the repository. *)
Inductive error : Type :=
  | ErrString (msg : string)
  | ErrWrap (prefix : string) (inner : error)
  | ErrSuffix (inner : error) (suffix : string)
  | ErrSentinel (name : string)
  | ErrMissingRequiredFields (fields : list string)
  | ErrConfigParse (key : string) (inner : error)
  | ErrNoRows
  | ErrUniqueViolation
  | ErrPg (msg : string)
  | ErrExternal (msg : string).

#[global] Instance error_eq_dec : EqDecision error.
Proof. solve_decision. Defined.

(** google.golang.org/grpc/status.Error: a code and a message. *)
Definition grpc_error (code msg : string) : error := ErrWrap code (ErrString msg).

(** [errors.Is(err, target)]: the chain of wrapped errors contains the target. *)
Fixpoint errors_is (e target : error) : bool :=
  bool_decide (e = target) ||
  match e with
  | ErrWrap _ i | ErrSuffix i _ | ErrConfigParse _ i => errors_is i target
  | _ => false
  end.

(** [errors.As(err, **ErrMissingRequiredFields)]. *)
Fixpoint errors_as_missing (e : error) : option (list string) :=
  match e with
  | ErrMissingRequiredFields fs => Some fs
  | ErrWrap _ i | ErrSuffix i _ | ErrConfigParse _ i => errors_as_missing i
  | _ => None
  end.

(** [errors.As(err, **pgconn.PgError)]: is it one, and is its code 23505? *)
Fixpoint errors_as_pg (e : error) : option bool :=
  match e with
  | ErrUniqueViolation => Some true
  | ErrPg _ => Some false
  | ErrWrap _ i | ErrSuffix i _ | ErrConfigParse _ i => errors_as_pg i
  | _ => None
  end.

(** [errors.As(err, **configParseError)]. *)
Fixpoint errors_as_config_parse (e : error) : bool :=
  match e with
  | ErrConfigParse _ _ => true
  | ErrWrap _ i | ErrSuffix i _ => errors_as_config_parse i
  | _ => false
  end.

(** [err.Error()]. *)
Fixpoint error_msg (e : error) : string :=
  match e with
  | ErrString msg => msg
  | ErrWrap p i => p +:+ (": " +:+ error_msg i)
  | ErrSuffix i s => error_msg i +:+ (": " +:+ s)
  | ErrSentinel name => name
  | ErrMissingRequiredFields fs => "missing required fields: [" +:+ (String.concat " " fs +:+ "]")
  | ErrConfigParse key i => key +:+ (": invalid value format: " +:+ error_msg i)
  | ErrNoRows => "no rows in result set"
  | ErrUniqueViolation => "duplicate key value violates unique constraint"
  | ErrPg msg => msg
  | ErrExternal msg => msg
  end.

(** Go code returns, fails with an error, or panics. *)
Inductive outcome (A : Type) : Type :=
  | Ok (a : A)
  | Err (e : error)
  | Panic (msg : string).
Arguments Ok {_} _.
Arguments Err {_} _.
Arguments Panic {_} _.

#[global] Instance outcome_eq_dec {A} `{EqDecision A} : EqDecision (outcome A).
Proof. solve_decision. Defined.

Definition obind {A B} (m : outcome A) (f : A → outcome B) : outcome B :=
  match m with
  | Ok a => f a
  | Err e => Err e
  | Panic s => Panic s
  end.

Notation "'let!' x := m 'in' k" := (obind m (λ x, k))
  (at level 10, x pattern, m at level 100, k at level 200) : go_scope.

(** [fmt.Errorf("prefix: %w", err)] on the error path. *)
Definition wrap {A} (prefix : string) (m : outcome A) : outcome A :=
  match m with Err e => Err (ErrWrap prefix e) | _ => m end.

Definition fmap_ok {A B} (f : A → B) (m : outcome A) : outcome B := obind m (λ a, Ok (f a)).

Definition is_Ok {A} (m : outcome A) : bool :=
  match m with Ok _ => true | _ => false end.
Definition is_Panic {A} (m : outcome A) : bool :=
  match m with Panic _ => true | _ => false end.

Lemma obind_Ok {A B} (m : outcome A) (f : A → outcome B) b :
  obind m f = Ok b ↔ ∃ a, m = Ok a ∧ f a = Ok b.
Proof.
  destruct m; simpl; split; try (intros (? & ? & ?); congruence); try done; eauto.
Qed.

Lemma wrap_Ok {A} prefix (m : outcome A) a : wrap prefix m = Ok a ↔ m = Ok a.
Proof. by destruct m. Qed.

Lemma obind_assoc {A B C} (m : outcome A) (f : A → outcome B) (g : B → outcome C) :
  obind (obind m f) g = obind m (λ a, obind (f a) g).
Proof. by destruct m. Qed.

(** A loop whose body may fail, over a slice. *)
Fixpoint ofold {A S} (f : S → A → outcome S) (s : S) (l : list A) : outcome S :=
  match l with
  | [] => Ok s
  | x :: l' => let! s' := f s x in ofold f s' l'
  end.

Fixpoint omapM {A B} (f : A → outcome B) (l : list A) : outcome (list B) :=
  match l with
  | [] => Ok []
  | x :: l' => let! y := f x in let! ys := omapM f l' in Ok (y :: ys)
  end.

Lemma ofold_app {A S} (f : S → A → outcome S) s l1 l2 :
  ofold f s (l1 ++ l2) = let! s' := ofold f s l1 in ofold f s' l2.
Proof.
  revert s. induction l1 as [|x l1 IH]; intros s; simpl; [done|].
  destruct (f s x); simpl; auto.
Qed.

Lemma omapM_Forall2 {A B} (f : A → outcome B) l k :
  omapM f l = Ok k ↔ Forall2 (λ x y, f x = Ok y) l k.
Proof.
  revert k. induction l as [|x l IH]; intros k; simpl.
  - split; [intros [= <-]; constructor | by inversion 1].
  - rewrite obind_Ok. split.
    + intros (y & Hy & H). apply obind_Ok in H as (ys & Hys & [= <-]).
      constructor; [done|]. by apply IH.
    + inversion 1; subst. eexists; split; [done|].
      apply obind_Ok. eexists; split; [by apply IH|done].
Qed.

(** ** Stable insertion sort, for [slices.SortFunc] and [slices.SortStableFunc] *)

Section isort.
Context {A : Type} (leb : A → A → bool).

Fixpoint insert_by (x : A) (l : list A) : list A :=
  match l with
  | [] => [x]
  | y :: l' => if leb x y then x :: l else y :: insert_by x l'
  end.

(** Elements comparing equal keep their order: an element is inserted before
    the elements that followed it. *)
Fixpoint isort (l : list A) : list A :=
  match l with
  | [] => []
  | x :: l' => insert_by x (isort l')
  end.

Lemma insert_by_perm x l : insert_by x l ≡ₚ x :: l.
Proof.
  induction l as [|y l IH]; simpl; [done|].
  case_match; [done|]. rewrite IH. apply Permutation_swap.
Qed.

Lemma isort_perm l : isort l ≡ₚ l.
Proof. induction l as [|x l IH]; simpl; [done|]. by rewrite insert_by_perm, IH. Qed.

Lemma elem_of_isort x l : x ∈ isort l ↔ x ∈ l.
Proof. by rewrite isort_perm. Qed.

Lemma length_isort l : length (isort l) = length l.
Proof. by rewrite isort_perm. Qed.

Context (Htot : ∀ x y, leb x y = true ∨ leb y x = true)
        (Htrans : ∀ x y z, leb x y = true → leb y z = true → leb x z = true).

Let R x y := leb x y = true.

Lemma insert_by_sorted x l :
  StronglySorted R l → StronglySorted R (insert_by x l).
Proof.
  induction 1 as [|y l Hl IH Hy]; simpl; [by repeat constructor|].
  destruct (leb x y) eqn:E.
  - constructor; [by constructor|]. constructor; [done|].
    eapply Forall_impl; [exact Hy|]. intros z Hz. by eapply Htrans.
  - constructor; [done|]. rewrite insert_by_perm. constructor; [|done].
    destruct (Htot x y); [congruence|done].
Qed.

Lemma isort_sorted l : StronglySorted R (isort l).
Proof. induction l; simpl; [constructor|by apply insert_by_sorted]. Qed.

Lemma insert_by_filter (P : A → Prop) `{∀ x, Decision (P x)} x l :
  (∀ a b, P a → P b → leb a b = true) →
  filter P (insert_by x l) = filter P (x :: l).
Proof.
  intros HP. induction l as [|y l IH]; simpl; [done|].
  destruct (leb x y) eqn:E; [done|].
  rewrite !filter_cons. rewrite !filter_cons in IH.
  destruct (decide (P x)), (decide (P y)); rewrite ?IH; try done.
  by rewrite HP in E.
Qed.

(** Stability: elements that compare equal keep their relative order. *)
Lemma isort_stable (P : A → Prop) `{∀ x, Decision (P x)} l :
  (∀ a b, P a → P b → leb a b = true) →
  filter P (isort l) = filter P l.
Proof.
  intros HP. induction l as [|x l IH]; simpl; [done|].
  rewrite insert_by_filter by done. rewrite !filter_cons. by rewrite IH.
Qed.

(** Sorting and filtering commute. *)
Lemma insert_by_filter_sorted (P : A → Prop) `{∀ x, Decision (P x)} x l :
  StronglySorted R l →
  filter P (insert_by x l) = if decide (P x) then insert_by x (filter P l) else filter P l.
Proof.
  induction 1 as [|y l Hl IH Hy]; simpl; [by rewrite filter_cons|].
  destruct (leb x y) eqn:E.
  - rewrite filter_cons. destruct (decide (P x)); [|done].
    assert (Hall : Forall (R x) (filter P (y :: l))).
    { apply Forall_forall. intros z [_ Hz]%list_elem_of_filter.
      apply elem_of_cons in Hz as [->|Hz]; [done|]. rewrite Forall_forall in Hy.
      eapply Htrans; [done|by apply Hy]. }
    destruct (filter P (y :: l)) as [|z k]; [done|]. simpl.
    inversion Hall as [|? ? Hz]; subst. by rewrite Hz.
  - rewrite !filter_cons, IH. destruct (decide (P y)), (decide (P x)); simpl; try done.
    by rewrite E.
Qed.

Lemma isort_filter (P : A → Prop) `{∀ x, Decision (P x)} l :
  filter P (isort l) = isort (filter P l).
Proof.
  induction l as [|x l IH]; simpl; [done|].
  rewrite insert_by_filter_sorted by apply isort_sorted. rewrite filter_cons, IH.
  by destruct (decide (P x)).
Qed.

Context (Hanti : ∀ x y, leb x y = true → leb y x = true → x = y).

Lemma isort_unique l1 l2 : l1 ≡ₚ l2 → isort l1 = isort l2.
Proof.
  intros HP. apply (StronglySorted_unique_strong R).
  - intros ?? _ _ ??. by apply Hanti.
  - apply isort_sorted.
  - apply isort_sorted.
  - by rewrite !isort_perm.
Qed.
End isort.

(** ** Generic lemmas on lists and finite maps *)

(** The values a [range] over a Go map yields, in the order of the model. *)
Definition map_values {V} (m : gmap string V) : list V := (map_to_list m).*2.

Lemma elem_of_map_values {V} (m : gmap string V) v :
  v ∈ map_values m ↔ ∃ k, m !! k = Some v.
Proof.
  unfold map_values. rewrite list_elem_of_fmap. split.
  - intros ([k w] & -> & H). exists k. by apply elem_of_map_to_list in H.
  - intros [k H]. exists (k, v). by rewrite elem_of_map_to_list.
Qed.

Lemma NoDup_fmap_fst {K V} (l : list (K * V)) a b b' :
  NoDup l.*1 → (a, b) ∈ l → (a, b') ∈ l → b = b'.
Proof.
  induction l as [|[k v] l IH]; simpl; intros HN H1 H2; [by apply elem_of_nil in H1|].
  apply NoDup_cons in HN as [Hk HN].
  apply elem_of_cons in H1 as [E1|H1]; apply elem_of_cons in H2 as [E2|H2];
    simplify_eq; [done| | |by eapply IH]; destruct Hk; apply list_elem_of_fmap; by eexists (_, _).
Qed.

Lemma NoDup_fmap_inj_on {A B} (f : A → B) (l : list A) x y :
  NoDup (f <$> l) → x ∈ l → y ∈ l → f x = f y → x = y.
Proof.
  induction l as [|z l IH]; simpl; intros HN Hx Hy Hf; [by apply elem_of_nil in Hx|].
  apply NoDup_cons in HN as [Hz HN].
  apply elem_of_cons in Hx as [->|Hx]; apply elem_of_cons in Hy as [->|Hy];
    [done| | |by apply IH]; destruct Hz; apply list_elem_of_fmap; eauto.
Qed.

Lemma NoDup_fmap_filter {A B} (f : A → B) (P : A → Prop) `{∀ x, Decision (P x)} l :
  NoDup (f <$> l) → NoDup (f <$> filter P l).
Proof.
  induction l as [|x l IH]; [done|]. rewrite fmap_cons, NoDup_cons. intros [Hx Hl].
  rewrite filter_cons. destruct (decide (P x)); [|by apply IH].
  rewrite fmap_cons. apply NoDup_cons. split; [|by apply IH].
  intros (y & Hy & [_ Hin]%list_elem_of_filter)%list_elem_of_fmap.
  apply Hx, list_elem_of_fmap. by exists y.
Qed.

Lemma elem_of_concat {A} (x : A) ls : x ∈ concat ls ↔ ∃ l, x ∈ l ∧ l ∈ ls.
Proof.
  rewrite list_elem_of_In, in_concat. setoid_rewrite list_elem_of_In. naive_solver.
Qed.

Lemma StronglySorted_impl {A} (R R' : A → A → Prop) l :
  (∀ a b, R a b → R' a b) → StronglySorted R l → StronglySorted R' l.
Proof.
  intros Hi. induction 1 as [|a l Hl IH Ha]; constructor; [done|].
  eapply Forall_impl; [exact Ha|]. auto.
Qed.

Lemma filter_all {A} (P : A → Prop) `{∀ x, Decision (P x)} (l : list A) :
  (∀ x, x ∈ l → P x) → filter P l = l.
Proof.
  induction l as [|x l IH]; intros Hp; [done|]. rewrite filter_cons, decide_True.
  - f_equal. apply IH. intros y Hy. apply Hp. by right.
  - apply Hp. by left.
Qed.

Lemma filter_none {A} (P : A → Prop) `{∀ x, Decision (P x)} (l : list A) :
  (∀ x, x ∈ l → ¬ P x) → filter P l = [].
Proof.
  induction l as [|x l IH]; intros Hp; [done|]. rewrite filter_cons, decide_False.
  - apply IH. intros y Hy. apply Hp. by right.
  - apply Hp. by left.
Qed.

Lemma StronglySorted_sublist {A} (R : A → A → Prop) (l1 l2 : list A) :
  l1 `sublist_of` l2 → StronglySorted R l2 → StronglySorted R l1.
Proof.
  induction 1 as [|x l1 l2 Hs IH|x l1 l2 Hs IH]; intros H; [done|..];
    apply StronglySorted_inv in H as [H Hx]; [|by apply IH].
  constructor; [by apply IH|]. rewrite Forall_forall in Hx |- *. intros y Hy. apply Hx.
  by eapply sublist_subseteq.
Qed.

Lemma StronglySorted_rev {A} (R : A → A → Prop) l :
  StronglySorted R l → StronglySorted (λ a b, R b a) (rev l).
Proof.
  induction 1 as [|x l Hl IH Hx]; [constructor|]. cbn [rev]. apply StronglySorted_app_2; [|done|].
  - intros y z Hy Hz%list_elem_of_singleton. subst z. rewrite Forall_forall in Hx. apply Hx.
    apply list_elem_of_In, in_rev. by rewrite <-list_elem_of_In.
  - constructor; [constructor|done].
Qed.

Lemma StronglySorted_last {A} (R : A → A → Prop) l x y :
  StronglySorted R l → last l = Some x → y ∈ l → y = x ∨ R y x.
Proof.
  intros Hs (l' & ->)%last_Some [Hy|Hy%list_elem_of_singleton]%elem_of_app; [right|by left].
  eapply StronglySorted_app_1_elem_of; [done..|left].
Qed.

Lemma list_of_option {A} (l : list A) (o : option A) :
  NoDup l → (∀ x, x ∈ l ↔ o = Some x) → l = option_list o.
Proof.
  intros Hnd Hl. destruct o as [x|]; cbn [option_list].
  - destruct l as [|y [|z l]].
    + assert (x ∈ []) as ?%elem_of_nil by by apply Hl. done.
    + assert (y ∈ [y]) as [= ->]%Hl by left. done.
    + assert (y ∈ y :: z :: l) as [= <-]%Hl by left.
      assert (z ∈ x :: z :: l) as [= <-]%Hl by (right; left).
      apply NoDup_cons in Hnd as [Hn _]. destruct Hn. left.
  - destruct l as [|y l]; [done|]. assert (y ∈ y :: l) as ?%Hl by left. done.
Qed.

(** ** Transition systems *)

Section steps.
Context {S : Type} (step : S → S → Prop).

(** Zero, one or several steps. *)
Inductive steps : S → S → Prop :=
  | steps_refl s : steps s s
  | steps_cons s1 s2 s3 : step s1 s2 → steps s2 s3 → steps s1 s3.

Lemma steps_trans s1 s2 s3 : steps s1 s2 → steps s2 s3 → steps s1 s3.
Proof. induction 1; eauto using steps. Qed.

Lemma steps_one s1 s2 : step s1 s2 → steps s1 s2.
Proof. eauto using steps. Qed.

Lemma steps_invariant (I : S → Prop) :
  (∀ s s', I s → step s s' → I s') → ∀ s s', steps s s' → I s → I s'.
Proof. intros HI s s'. induction 1; eauto. Qed.
End steps.

(** ** Automation *)

Create HintDb fasit.
#[export] Hint Resolve steps_refl steps_one : fasit.

(** Splits the binds of a hypothesis [m = Ok r] into the results of its parts. *)
Ltac inv_ok :=
  repeat match goal with
  | H : obind _ _ = Ok _ |- _ =>
      apply obind_Ok in H; destruct H as (? & ? & H)
  | H : Ok _ = Ok _ |- _ => injection H as H; subst
  | H : Err _ = Ok _ |- _ => discriminate H
  | H : Panic _ = Ok _ |- _ => discriminate H
  end.

(** Case analysis on every [match] and [if] of the goal, with their equations. *)
Ltac cases := repeat case_match; simplify_eq/=; try done.
