(* ===== verification/GoStd.v ===== *)
(** * The part of the Go standard library the modelled code calls

    Functions of package [strings] on byte strings, [time.Time.Sub],
    [time.Duration] constants.  Strings are sequences of bytes, as Go's are;
    functions that the program only applies to ASCII text ([ToUpper], [ToLower],
    [TrimSpace]) act on ASCII letters and ASCII white space. *)

From S2P Require Export Prelude.


(** ** Package [strings] *)

Definition HasPrefix (s p : string) : bool := String.prefix p s.

Fixpoint str_rev_app (s acc : string) : string :=
  match s with
  | EmptyString => acc
  | String c s' => str_rev_app s' (String c acc)
  end.
Definition str_rev (s : string) : string := str_rev_app s "".

Definition HasSuffix (s p : string) : bool := String.prefix (str_rev p) (str_rev s).

(** [s[:len(s)-1]] *)
Fixpoint drop_last (s : string) : string :=
  match s with
  | EmptyString => EmptyString
  | String c EmptyString => EmptyString
  | String c s' => String c (drop_last s')
  end.

Definition TrimPrefix (s p : string) : string :=
  if HasPrefix s p then String.substring (String.length p) (String.length s - String.length p) s
  else s.

Definition TrimSuffix (s p : string) : string :=
  if HasSuffix s p then String.substring 0 (String.length s - String.length p) s else s.

(** [strings.Join(elems, sep)] *)
Definition Join (elems : list string) (sep : string) : string := String.concat sep elems.
#[global] Arguments Join : simpl never.

(** [strings.Split(s, sep)] for a one-byte separator. *)
Fixpoint split_char (sep : ascii) (s : string) : list string :=
  match s with
  | EmptyString => [""]
  | String c s' =>
      if bool_decide (c = sep) then "" :: split_char sep s'
      else match split_char sep s' with
           | w :: ws => String c w :: ws
           | [] => [String c ""]
           end
  end.

(** [strings.Cut(s, sep)] for a one-byte separator. *)
Fixpoint cut_char (sep : ascii) (s : string) : string * string * bool :=
  match s with
  | EmptyString => ("", "", false)
  | String c s' =>
      if bool_decide (c = sep) then ("", s', true)
      else let '(a, b, ok) := cut_char sep s' in (String c a, b, ok)
  end.

(** [strings.LastIndex(s, sep)] for a one-byte separator: the text before and
    after the last occurrence, [None] for index -1. *)
Fixpoint cut_last_char (sep : ascii) (s : string) : option (string * string) :=
  match s with
  | EmptyString => None
  | String c s' =>
      match cut_last_char sep s' with
      | Some (a, b) => Some (String c a, b)
      | None => if bool_decide (c = sep) then Some ("", s') else None
      end
  end.

(** [strings.ContainsRune] for a byte. *)
Fixpoint has_char (c : ascii) (s : string) : bool :=
  match s with
  | EmptyString => false
  | String d s' => bool_decide (c = d) || has_char c s'
  end.

Definition is_space (c : ascii) : bool :=
  let n := N_of_ascii c in ((9 <=? n) && (n <=? 13) || (n =? 32))%N.

(** [strings.Contains] *)
Fixpoint Contains (s sub : string) : bool :=
  String.prefix sub s || match s with EmptyString => false | String _ s' => Contains s' sub end.

(** [strings.Split] for a separator that is not empty; [skip] bytes of it are still to be
    passed over. *)
Fixpoint split_from (sep : string) (skip : nat) (s : string) : list string :=
  match s with
  | EmptyString => [""]
  | String c s' =>
      match skip with
      | S skip => split_from sep skip s'
      | O =>
          if String.prefix sep s then "" :: split_from sep (String.length sep - 1) s'
          else match split_from sep 0 s' with
               | w :: ws => String c w :: ws
               | [] => [String c ""]
               end
      end
  end.
Definition Split (s sep : string) : list string := split_from sep 0 s.

(** [strings.Fields]: the words between white space. *)
Fixpoint split_space (s : string) : list string :=
  match s with
  | EmptyString => [""]
  | String c s' =>
      if is_space c then "" :: split_space s'
      else match split_space s' with
           | w :: ws => String c w :: ws
           | [] => [String c ""]
           end
  end.
Definition Fields (s : string) : list string := filter (λ w, w ≠ "") (split_space s).

Fixpoint trim_left (s : string) : string :=
  match s with
  | String c s' => if is_space c then trim_left s' else s
  | EmptyString => EmptyString
  end.
Definition TrimSpace (s : string) : string :=
  str_rev (trim_left (str_rev (trim_left s))).

Definition ascii_upper (c : ascii) : ascii :=
  let n := N_of_ascii c in
  if ((97 <=? n) && (n <=? 122))%N then ascii_of_N (n - 32) else c.
Definition ascii_lower (c : ascii) : ascii :=
  let n := N_of_ascii c in
  if ((65 <=? n) && (n <=? 90))%N then ascii_of_N (n + 32) else c.
Fixpoint str_map (f : ascii → ascii) (s : string) : string :=
  match s with
  | EmptyString => EmptyString
  | String c s' => String (f c) (str_map f s')
  end.
(** A string between double quotes. *)
Definition json_quote (s : string) : string := String "034" (s +:+ String "034" "").

Definition ToUpper : string → string := str_map ascii_upper.
Definition ToLower : string → string := str_map ascii_lower.

(** ** Lemmas on strings *)

Lemma str_app_nil_r (s : string) : s +:+ "" = s.
Proof. induction s; simpl; congruence. Qed.

Lemma str_app_assoc (a b c : string) : (a +:+ b) +:+ c = a +:+ (b +:+ c).
Proof. induction a; simpl; congruence. Qed.

Lemma str_app_cons (a b : string) c : a +:+ String c b = (a +:+ String c "") +:+ b.
Proof. by rewrite str_app_assoc. Qed.

Lemma str_app_inj_l (a b c : string) : a +:+ b = a +:+ c → b = c.
Proof. induction a; simpl; intros; simplify_eq; auto. Qed.

Lemma str_length_app (a b : string) :
  String.length (a +:+ b) = (String.length a + String.length b)%nat.
Proof. induction a; simpl; congruence. Qed.

Lemma drop_last_snoc s c : drop_last (s +:+ String c "") = s.
Proof.
  induction s as [|d s IH]; [done|]. simpl.
  destruct (s +:+ String c "") eqn:E; [by destruct s|]. by rewrite IH.
Qed.

Lemma str_rev_app_spec s acc : str_rev_app s acc = str_rev s +:+ acc.
Proof.
  unfold str_rev. revert acc. induction s as [|c s IH]; intros acc; simpl; [done|].
  rewrite IH, (IH (String c "")). by rewrite str_app_assoc.
Qed.

Lemma str_rev_snoc s c : str_rev (s +:+ String c "") = String c (str_rev s).
Proof.
  induction s as [|d s IH]; [done|]. unfold str_rev. simpl.
  rewrite !str_rev_app_spec, IH. done.
Qed.

Lemma str_rev_involutive s : str_rev (str_rev s) = s.
Proof.
  induction s as [|c s IH]; [done|]. change (str_rev (String c s)) with (str_rev_app s (String c "")).
  rewrite str_rev_app_spec, str_rev_snoc. by rewrite IH.
Qed.

Lemma str_rev_app_distr a b : str_rev (a +:+ b) = str_rev b +:+ str_rev a.
Proof.
  induction a as [|c a IH]; [by rewrite str_app_nil_r|].
  unfold str_rev. cbn [String.append str_rev_app]. rewrite !(str_rev_app_spec _ (String c "")), IH.
  by rewrite str_app_assoc.
Qed.

Lemma str_prefix_cons a s b t :
  String.prefix (String a s) (String b t) = bool_decide (a = b) && String.prefix s t.
Proof.
  change (String.prefix (String a s) (String b t))
    with (if Ascii.ascii_dec a b then String.prefix s t else false).
  destruct (Ascii.ascii_dec a b);
    [by rewrite bool_decide_eq_true_2|by rewrite bool_decide_eq_false_2].
Qed.

Lemma HasSuffix_char s c d :
  HasSuffix (s +:+ String c "") (String d "") = bool_decide (d = c).
Proof.
  unfold HasSuffix. rewrite str_rev_snoc. change (str_rev (String d "")) with (String d "").
  rewrite str_prefix_cons. destruct (str_rev s); simpl; by rewrite andb_true_r.
Qed.

Lemma str_snoc_cases s : s = "" ∨ ∃ s' c, s = s' +:+ String c "".
Proof.
  induction s as [|c s [->|(s' & d & ->)]]; [by left|right|right].
  - by exists "", c.
  - by exists (String c s'), d.
Qed.

Lemma has_char_app c s1 s2 : has_char c (s1 +:+ s2) = has_char c s1 || has_char c s2.
Proof. induction s1; simpl; [done|]. by rewrite IHs1, orb_assoc. Qed.

Lemma Join_one x sep : Join [x] sep = x.
Proof. done. Qed.

Lemma Join_cons x y l sep : Join (x :: y :: l) sep = x +:+ sep +:+ Join (y :: l) sep.
Proof. done. Qed.

Lemma split_char_not_nil sep s : split_char sep s ≠ [].
Proof. destruct s; simpl; repeat case_match; done. Qed.

Lemma cut_char_here c a b : has_char c a = false → cut_char c (a +:+ String c b) = (a, b, true).
Proof.
  induction a as [|d a IH]; cbn [has_char cut_char].
  - intros _. cbn. by rewrite bool_decide_eq_true_2.
  - intros [Hd Ha]%orb_false_iff. apply bool_decide_eq_false in Hd. cbn.
    rewrite bool_decide_eq_false_2 by done. by rewrite IH.
Qed.

Lemma split_char_none sep s : has_char sep s = false → split_char sep s = [s].
Proof.
  induction s as [|c s IH]; [done|]. cbn [has_char split_char]. intros [Hc Hs]%orb_false_iff.
  apply bool_decide_eq_false in Hc. rewrite bool_decide_eq_false_2 by done. by rewrite IH.
Qed.

Lemma split_char_here sep a b :
  has_char sep a = false → split_char sep (a +:+ String sep b) = a :: split_char sep b.
Proof.
  induction a as [|c a IH]; cbn [has_char].
  - intros _. cbn. by rewrite bool_decide_eq_true_2.
  - intros [Hc Ha]%orb_false_iff. apply bool_decide_eq_false in Hc. cbn.
    rewrite bool_decide_eq_false_2 by done. by rewrite IH.
Qed.

Lemma cut_char_true sep s a b : cut_char sep s = (a, b, true) → s = a +:+ String sep b.
Proof.
  revert a b. induction s as [|c s IH]; intros a b; [done|]. cbn [cut_char].
  case_bool_decide as Hc; [by intros [= <- <-]; subst|].
  destruct (cut_char sep s) as [[x y] ok] eqn:E. intros [= <- <- ->]. by rewrite (IH _ _ eq_refl).
Qed.

Lemma cut_last_char_spec sep s a b :
  cut_last_char sep s = Some (a, b) → s = a +:+ String sep b ∧ has_char sep b = false.
Proof.
  revert a b. induction s as [|c s IH]; simpl; intros a b H; [done|].
  destruct (cut_last_char sep s) as [[a' b']|] eqn:E.
  - simplify_eq. destruct (IH _ _ eq_refl) as [-> Hb]. done.
  - case_bool_decide; simplify_eq. split; [done|].
    clear IH. induction b as [|d b IH]; simpl in *; [done|].
    destruct (cut_last_char sep b) as [[??]|]; [done|].
    case_bool_decide; [done|]. case_bool_decide; [congruence|]. simpl. by apply IH.
Qed.

Lemma cut_last_char_app sep a b :
  has_char sep b = false → cut_last_char sep (a +:+ String sep b) = Some (a, b).
Proof.
  intros Hb. assert (Hn : cut_last_char sep b = None).
  { induction b as [|d b IH]; simpl in *; [done|].
    apply orb_false_iff in Hb as [Hd Hb]. rewrite IH by done.
    rewrite bool_decide_eq_false in Hd. rewrite bool_decide_eq_false_2 by congruence. done. }
  induction a as [|c a IH]; simpl.
  - rewrite Hn. by rewrite bool_decide_eq_true_2.
  - by rewrite IH.
Qed.

Lemma str_prefix_app s t : String.prefix s (s +:+ t) = true.
Proof.
  induction s as [|c s IH]; [by destruct t|].
  change (String c s +:+ t) with (String c (s +:+ t)).
  by rewrite str_prefix_cons, bool_decide_eq_true_2, IH.
Qed.

Lemma substring_skip s t :
  String.substring (String.length s) (String.length t) (s +:+ t) = t.
Proof.
  induction s as [|c s IH]; simpl.
  - induction t as [|d t IH]; simpl; [done|by rewrite IH].
  - by destruct t.
Qed.

Lemma TrimPrefix_app p t : TrimPrefix (p +:+ t) p = t.
Proof.
  unfold TrimPrefix, HasPrefix. rewrite str_prefix_app, str_length_app.
  replace (String.length p + String.length t - String.length p)%nat
    with (String.length t) by lia.
  apply substring_skip.
Qed.

Lemma HasPrefix_app p s : HasPrefix s p = true → s = p +:+ TrimPrefix s p.
Proof.
  intros H. enough (∃ t, s = p +:+ t) as [t ->] by (by rewrite TrimPrefix_app).
  unfold HasPrefix in H. revert s H. induction p as [|c p IH]; intros s H; [by exists s|].
  destruct s as [|d s]; [done|]. rewrite str_prefix_cons in H. apply andb_prop in H as [Hc H].
  apply bool_decide_eq_true in Hc as <-. destruct (IH s H) as [t ->]. by exists t.
Qed.

Lemma ascii_lower_upper c : ascii_lower (ascii_upper c) = ascii_lower c.
Proof. by destruct c as [[] [] [] [] [] [] [] []]. Qed.

Lemma ToLower_ToUpper s : ToLower (ToUpper s) = ToLower s.
Proof. induction s as [|c s IH]; [done|]. cbn. by rewrite ascii_lower_upper, IH. Qed.

Lemma ascii_upper_idem c : ascii_upper (ascii_upper c) = ascii_upper c.
Proof. by destruct c as [[] [] [] [] [] [] [] []]. Qed.
Lemma ToUpper_idem s : ToUpper (ToUpper s) = ToUpper s.
Proof. induction s as [|c s IH]; [done|]. cbn. by rewrite ascii_upper_idem, IH. Qed.

(** ** Ordering of strings *)

Lemma leb_total s t : String.leb s t = true ∨ String.leb t s = true.
Proof. destruct (String.leb_total s t); auto. Qed.

Lemma leb_trans s t u :
  String.leb s t = true → String.leb t u = true → String.leb s u = true.
Proof.
  intros H1 H2. apply Is_true_true. apply Is_true_true in H1, H2.
  change (String.le s u). by etrans.
Qed.

(** [slices.Sort] and [sort.Strings]. *)
Definition sort_strings : list string → list string := isort String.leb.

Lemma sort_strings_unique l1 l2 : l1 ≡ₚ l2 → sort_strings l1 = sort_strings l2.
Proof.
  apply isort_unique;
    [apply leb_total | apply leb_trans | intros; by apply String.leb_antisym].
Qed.

Lemma elem_of_sort_strings x l : x ∈ sort_strings l ↔ x ∈ l.
Proof. apply elem_of_isort. Qed.

(** ** Package [time] *)

Definition Millisecond : duration := 1000000.
Definition Second : duration := 1000 * Millisecond.
Definition Minute : duration := 60 * Second.
Definition Hour : duration := 60 * Minute.

Definition max_int64 : Z := 2 ^ 63 - 1.
Definition min_int64 : Z := - 2 ^ 63.

(** The zero [time.Time], January 1 of year 1, in nanoseconds from the epoch. *)
Definition time_zero : time := -62135596800 * Second.

(** [t.Sub(u)] saturates at the bounds of [int64]. *)
Definition time_sub (t u : time) : duration := Z.max min_int64 (Z.min max_int64 (t - u)).
(** [time.Since(u)], at instant [now]. *)
Definition time_since (now u : time) : duration := time_sub now u.

Lemma time_since_le now u d :
  (min_int64 <= d < max_int64)%Z → (time_since now u <= d ↔ now - u <= d)%Z.
Proof. unfold time_since, time_sub. lia. Qed.
