(* ===== verification/DotSplit.v ===== *)
(** * internal/feature/featureutil/dotsplit.go

    Splitting a dotted configuration key, with [\.] for a dot inside a segment.
    Keys are byte strings; on valid UTF-8 (JSON and PostgreSQL text) the loop over
    runes of the source and the loop over bytes below agree, because [.] and [\]
    are single bytes that occur in no other character. *)

From S2P Require Export GoStd.

(** ** Model *)

(** The body of the loop of [SmartDotSplit]: [i] is the byte index, [prev] is
    [s[i-1]], [str] and [ret] are the variables of the source. *)
Fixpoint dot_loop (i : nat) (prev : option ascii) (s : string) (str : string)
    (ret : list string) : outcome (list string) :=
  match s with
  | EmptyString => Ok (ret ++ [str])
  | String ch s' =>
      if bool_decide (ch = "."%char) then
        if bool_decide (str = "") || bool_decide (i = 0%nat) then
          Err (ErrString ("invalid `.` on position " +:+ pretty i))
        else match prev with
        | Some p =>
            if bool_decide (p = "\"%char) then
              dot_loop (S i) (Some ch) s' (drop_last str +:+ ".") ret
            else dot_loop (S i) (Some ch) s' "" (ret ++ [str])
        | None => Panic "index out of range"
        end
      else dot_loop (S i) (Some ch) s' (str +:+ String ch "") ret
  end.

Definition SmartDotSplit (s : string) : outcome (list string) :=
  if HasSuffix s "." then Err (ErrString "cannot end with `.`")
  else if HasPrefix s "." then Err (ErrString "cannot start with `.`")
  else dot_loop 0 None s "" [].

(** ** Specification: the key of a path *)

(** A segment with its dots escaped. *)
Fixpoint esc (s : string) : string :=
  match s with
  | EmptyString => EmptyString
  | String c s' =>
      if bool_decide (c = "."%char) then String "\" (String "." (esc s'))
      else String c (esc s')
  end.

(** The key whose path is [segs]. *)
Definition dot_key (segs : list string) : string := Join (map esc segs) ".".

(** A segment that [dot_key] writes unambiguously: not empty, and no backslash. *)
Definition plain_seg (s : string) : bool :=
  bool_decide (s ≠ "") && negb (has_char "\" s).

(** ** Proofs *)

Lemma esc_app s t : esc (s +:+ t) = esc s +:+ esc t.
Proof. induction s as [|c s IH]; simpl; [done|]. case_bool_decide; simpl; by rewrite IH. Qed.

Lemma Join_snoc l x sep : l ≠ [] → Join (l ++ [x]) sep = Join l sep +:+ sep +:+ x.
Proof.
  intros Hl. induction l as [|y l IH]; [done|].
  destruct l as [|z l]; [done|].
  change ((y :: z :: l) ++ [x]) with (y :: z :: (l ++ [x])).
  rewrite !Join_cons. change (z :: l ++ [x]) with ((z :: l) ++ [x]).
  rewrite IH by done. by rewrite !str_app_assoc.
Qed.

(** The key read so far, when [ret] holds complete segments and [str] is the
    segment being read. *)
Definition read_key (ret : list string) (str : string) : string := dot_key (ret ++ [str]).

Lemma read_key_snoc ret str c :
  c ≠ "."%char → read_key ret (str +:+ String c "") = read_key ret str +:+ String c "".
Proof.
  intros Hc. unfold read_key, dot_key. rewrite !map_app. cbn [map].
  rewrite esc_app. simpl. rewrite bool_decide_eq_false_2 by done.
  destruct (decide (ret = [])) as [->|Hr]; [done|].
  rewrite !Join_snoc by (by destruct ret). by rewrite !str_app_assoc.
Qed.

Lemma read_key_dot ret str :
  read_key ret (str +:+ ".") = read_key ret str +:+ "\.".
Proof.
  unfold read_key, dot_key. rewrite !map_app. cbn [map].
  rewrite esc_app. simpl.
  destruct (decide (ret = [])) as [->|Hr]; [done|].
  rewrite !Join_snoc by (by destruct ret). by rewrite !str_app_assoc.
Qed.

Lemma read_key_sep ret str : read_key (ret ++ [str]) "" = read_key ret str +:+ ".".
Proof.
  unfold read_key, dot_key. rewrite !map_app. cbn [map esc].
  rewrite Join_snoc; [done|]. by destruct ret.
Qed.

(** What the loop maintains about the segment being read: it ends with the last
    byte of the input, unless that byte was a separator. *)
Definition str_tail (prev : option ascii) (str : string) : Prop :=
  str = "" ∨ ∃ s' p, prev = Some p ∧ str = s' +:+ String p "".

Lemma dot_loop_key i prev s str ret segs :
  str_tail prev str →
  dot_loop i prev s str ret = Ok segs →
  dot_key segs = read_key ret str +:+ s.
Proof.
  revert i prev str ret. induction s as [|ch s IH]; intros i prev str ret Ht H; simpl in H.
  - simplify_eq. by rewrite str_app_nil_r.
  - case_bool_decide as Hc; [subst ch|].
    + destruct (bool_decide (str = "") || bool_decide (i = 0%nat)) eqn:Ei; [done|].
      apply orb_false_iff in Ei as [Es _]. apply bool_decide_eq_false in Es.
      destruct Ht as [->|(s' & p & -> & ->)]; [done|].
      case_bool_decide as Hp; [subst p|].
      * apply IH in H; [|right; eexists _, _; done].
        rewrite H, drop_last_snoc, read_key_dot, read_key_snoc by done.
        by rewrite !str_app_assoc.
      * apply IH in H; [|by left]. rewrite H, read_key_sep. by rewrite !str_app_assoc.
    + apply IH in H; [|right; eexists _, _; done].
      rewrite H, read_key_snoc by done. by rewrite !str_app_assoc.
Qed.

Lemma SmartDotSplit_key s segs : SmartDotSplit s = Ok segs → dot_key segs = s.
Proof.
  unfold SmartDotSplit. do 2 (case_match; [done|]).
  intros Hs. apply dot_loop_key in Hs; [done|by left].
Qed.
#[export] Hint Resolve SmartDotSplit_key : fasit.

Lemma SmartDotSplit_inj_key s t segs :
  SmartDotSplit s = Ok segs → SmartDotSplit t = Ok segs → s = t.
Proof. intros <-%SmartDotSplit_key <-%SmartDotSplit_key. done. Qed.

(** Reading one escaped segment without backslashes. *)
Lemma dot_loop_seg i prev w s str ret :
  has_char "\" w = false → prev ≠ Some "\"%char →
  ∃ j prev', dot_loop i prev (esc w +:+ s) str ret = dot_loop j prev' s (str +:+ w) ret ∧
    prev' ≠ Some "\"%char ∧ (w = "" → j = i) ∧ (w ≠ "" → (0 < j)%nat) ∧
    (prev ≠ None ∨ w ≠ "" → prev' ≠ None) ∧ (i ≤ j)%nat.
Proof.
  revert i prev str. induction w as [|c w IH]; intros i prev str Hw Hp; simpl.
  - exists i, prev. rewrite str_app_nil_r. naive_solver lia.
  - simpl in Hw. apply orb_false_iff in Hw as [Hc Hw]. apply bool_decide_eq_false in Hc.
    case_bool_decide as Hd; [subst c|]; simpl.
    + rewrite bool_decide_eq_false_2 by (by destruct str).
      rewrite drop_last_snoc. simpl.
      destruct (IH (S (S i)) (Some "."%char) (str +:+ ".") Hw) as (j & p' & -> & ?);
        [done|].
      exists j, p'. rewrite str_app_assoc. naive_solver lia.
    + rewrite (bool_decide_eq_false_2 (c = _)) by done.
      destruct (IH (S i) (Some c) (str +:+ String c "") Hw) as (j & p' & -> & ?);
        [congruence|].
      exists j, p'. rewrite str_app_assoc. naive_solver lia.
Qed.

Lemma dot_loop_segs segs seg i prev ret :
  Forall (λ w, plain_seg w = true) (seg :: segs) → prev ≠ Some "\"%char →
  dot_loop i prev (dot_key (seg :: segs)) "" ret = Ok (ret ++ seg :: segs).
Proof.
  revert seg i prev ret. induction segs as [|seg' segs IH]; intros seg i prev ret HF Hp;
    inversion HF as [|?? H HF']; subst; unfold plain_seg in H;
    apply andb_true_iff in H as [Hne%bool_decide_eq_true Hb%negb_true_iff].
  - unfold dot_key. simpl. rewrite Join_one, <-(str_app_nil_r (esc seg)).
    destruct (dot_loop_seg i prev seg "" "" ret Hb Hp) as (j & p' & -> & _). done.
  - unfold dot_key. cbn [map]. rewrite Join_cons.
    destruct (dot_loop_seg i prev seg ("." +:+ Join (esc seg' :: map esc segs) ".") "" ret Hb Hp)
      as (j & p' & -> & Hp' & _ & Hj & Hn & _).
    simpl. rewrite !bool_decide_eq_false_2 by (done || naive_solver lia). simpl.
    destruct p' as [p|]; [|by destruct Hn; auto].
    rewrite bool_decide_eq_false_2 by congruence.
    change (Join (esc seg' :: map esc segs) ".") with (dot_key (seg' :: segs)).
    rewrite IH by done. by rewrite <-app_assoc.
Qed.

Lemma esc_nil w : esc w = "" → w = "".
Proof. destruct w; simpl; [done|]. by case_bool_decide. Qed.

Lemma dot_key_prefix seg segs :
  plain_seg seg = true → HasPrefix (dot_key (seg :: segs)) "." = false.
Proof.
  unfold plain_seg. intros [Hne%bool_decide_eq_true _]%andb_true_iff.
  destruct seg as [|c seg]; [done|]. unfold dot_key. cbn [map esc].
  assert (∀ d s, d ≠ "."%char → HasPrefix (String d s) "." = false) as Hd.
  { intros d s Hd. unfold HasPrefix. rewrite str_prefix_cons.
    by rewrite bool_decide_eq_false_2 by congruence. }
  destruct segs; cbn [map]; rewrite ?Join_cons; simpl;
    case_bool_decide; simpl; first [done | by apply Hd].
Qed.

Lemma esc_suffix w :
  w ≠ "" → HasSuffix (esc w) "." = HasSuffix w ".".
Proof.
  intros Hw. destruct (str_snoc_cases w) as [->|(w' & c & ->)]; [done|].
  rewrite esc_app. simpl. case_bool_decide as Hc.
  - subst c. rewrite (str_app_cons _ "."). by rewrite !HasSuffix_char.
  - by rewrite !HasSuffix_char.
Qed.

Lemma HasSuffix_app s t d :
  t ≠ "" → HasSuffix (s +:+ t) (String d "") = HasSuffix t (String d "").
Proof.
  intros Ht. destruct (str_snoc_cases t) as [->|(t' & c & ->)]; [done|].
  by rewrite <-str_app_assoc, !HasSuffix_char.
Qed.

Lemma dot_key_suffix segs w :
  w ≠ "" → HasSuffix (dot_key (segs ++ [w])) "." = HasSuffix w ".".
Proof.
  intros Hw. unfold dot_key. rewrite map_app. cbn [map].
  assert (esc w ≠ "") by (intros ?%esc_nil; done).
  destruct segs as [|s segs]; [by apply esc_suffix|].
  rewrite Join_snoc, !HasSuffix_app; [by apply esc_suffix|done| |done].
  by destruct (esc w).
Qed.

(** ** Properties *)

(** [SmartDotSplit] loses nothing: when it returns the segments of a key, the
    key is exactly those segments, each with its dots escaped, joined by dots. *)
Theorem SmartDotSplit_decodes s segs : SmartDotSplit s = Ok segs → dot_key segs = s.
Proof. apply SmartDotSplit_key. Qed.

Lemma SmartDotSplit_decodes_witness :
  SmartDotSplit "image\.tag.name" = Ok ["image.tag"; "name"] ∧
  dot_key ["image.tag"; "name"] = "image\.tag.name".
Proof.
  assert (H : SmartDotSplit "image\.tag.name" = Ok ["image.tag"; "name"]) by reflexivity.
  split; [exact H | exact (SmartDotSplit_decodes _ _ H)].
Defined.

(** Round trip: the key written from plain segments (not empty, without
    backslashes, the last one not ending in a dot) is split back into them. *)
Theorem SmartDotSplit_dot_key segs w :
  Forall (λ s, plain_seg s = true) (segs ++ [w]) → HasSuffix w "." = false →
  SmartDotSplit (dot_key (segs ++ [w])) = Ok (segs ++ [w]).
Proof.
  intros HF Hw. unfold SmartDotSplit.
  assert (w ≠ "") as Hne.
  { apply Forall_app in HF as [_ HF]. inversion HF as [|?? H]; subst.
    unfold plain_seg in H. by apply andb_true_iff in H as [?%bool_decide_eq_true _]. }
  rewrite dot_key_suffix, Hw by done.
  destruct (segs ++ [w]) as [|seg l] eqn:E; [by destruct segs|].
  rewrite dot_key_prefix by (by inversion HF). by rewrite dot_loop_segs.
Qed.

Lemma SmartDotSplit_dot_key_witness :
  SmartDotSplit (dot_key (["a.b"; "c"] ++ ["d"])) = Ok (["a.b"; "c"] ++ ["d"]).
Proof.
  apply SmartDotSplit_dot_key; [repeat (constructor; [reflexivity|]); constructor | reflexivity].
Defined.
