(* ===== verification/Value.v ===== *)
(** * Dynamic Go values ([any]) and nested maps

    The values that flow through Helm rendering: decoded JSON and YAML, raw JSON
    messages, and the nested [map[string]any] trees the code builds.  Numbers keep
    the text they were written with: the modelled code moves them and never
    computes with them. *)

From S2P Require Export GoStd.

Inductive gval : Type :=
  | VNil
  | VBool (b : bool)
  | VNum (repr : string)
  | VStr (s : string)
  | VRaw (json : string)                       (* json.RawMessage *)
  | VList (l : list gval)                      (* []any *)
  | VMap (m : gmap string gval)                (* map[string]any *)
  | VStrMap (m : gmap string string)           (* map[string]string *)
  | VAnyMap (l : list (gval * gval)).          (* map[any]any *)

Abbreviation gomap := (gmap string gval) (only parsing).

(** [v, ok := x.(map[string]any)] *)
Definition as_map (v : gval) : option gomap :=
  match v with VMap m => Some m | _ => None end.
(** [v, ok := x.(string)] *)
Definition as_str (v : gval) : option string :=
  match v with VStr s => Some s | _ => None end.

(** ** Paths in nested maps (specification) *)

(** The value at a path; [None] when the path leaves the tree of maps. *)
Fixpoint get_path (m : gomap) (path : list string) : option gval :=
  match path with
  | [] => None
  | [k] => m !! k
  | k :: ks =>
      match m !! k with
      | Some (VMap m') => get_path m' ks
      | _ => None
      end
  end.

Lemma get_path_cons m k ks :
  ks ≠ [] →
  get_path m (k :: ks) = match m !! k with Some (VMap m') => get_path m' ks | _ => None end.
Proof. by destruct ks. Qed.

(** Two paths neither of which is a prefix of the other. *)
Definition incomparable (p q : list string) : Prop := ¬ p `prefix_of` q ∧ ¬ q `prefix_of` p.

Lemma incomparable_sym p q : incomparable p q → incomparable q p.
Proof. unfold incomparable. tauto. Qed.

Lemma incomparable_cons k p q : incomparable (k :: p) (k :: q) ↔ incomparable p q.
Proof.
  unfold incomparable. split; intros [H1 H2]; split; intros H;
    [apply H1|apply H2|apply H1|apply H2];
    first [by apply prefix_cons | by eapply prefix_cons_inv_2].
Qed.

Lemma incomparable_ne k k' p q : k ≠ k' → incomparable (k :: p) (k' :: q).
Proof. intros Hk. split; intros H; by apply prefix_cons_inv_1 in H. Qed.

Lemma not_incomparable_nil p : ¬ incomparable [] p.
Proof. intros [H _]. apply H, prefix_nil. Qed.

Lemma not_incomparable_nil_r p : ¬ incomparable p [].
Proof. intros [_ H]. apply H, prefix_nil. Qed.
#[export] Hint Resolve incomparable_sym incomparable_ne : fasit.

#[global] Instance incomparable_dec p q : Decision (incomparable p q).
Proof. unfold incomparable. apply _. Defined.
