(* ===== verification/Feature.v ===== *)
(** * internal/feature/model.go (and the kinds of internal/environment/model.go)

    Features as their Feature.yaml declares them, configuration rows, the overlay
    of environment rows on global rows ([MergeConfigs]), the nesting of dotted keys
    ([MakeHelmConfigMap]) and the check of required fields ([ValidateFields]).

    Go maps are [gmap string _].  A [range] over a map visits it in an arbitrary
    order; where the source collects such a range into a slice the model uses the
    order of [map_to_list], and the theorems show that the result, once sorted, is
    the same for every order. *)

From S2P Require Export DotSplit Value.

(** ** Data *)

Abbreviation EnvironmentKind := string (only parsing).
Definition EnvironmentKindTenant : EnvironmentKind := "tenant".
Definition EnvironmentKindManagement : EnvironmentKind := "management".
Definition EnvironmentKindOnprem : EnvironmentKind := "onprem".
Definition AllEnvironmentKind : list EnvironmentKind :=
  [EnvironmentKindTenant; EnvironmentKindManagement; EnvironmentKindOnprem].
Definition EnvironmentKind_IsValid (e : EnvironmentKind) : bool :=
  bool_decide (e ∈ AllEnvironmentKind).

Record Config := { c_Type : string; c_Secret : bool }.
Record Computed := { Template : string }.
Record Value := {
  v_Description : string;
  v_DisplayName : string;
  v_Required : bool;
  v_Computed : option Computed;
  v_Config : option Config;
  v_IgnoreKind : list EnvironmentKind;
}.
Abbreviation Values := (gmap string Value) (only parsing).

Record Dependency := { AnyOf : list string; AllOf : list string }.

Record FeatureYAML := {
  Dependencies : list Dependency;
  EnvironmentKinds : list EnvironmentKind;
  Timeout : duration;
  f_Values : Values;
}.

Record Feature := {
  f_YAML : FeatureYAML;
  f_Name : string;
  f_Chart : string;
  f_Version : string;
  f_Description : string;
  f_Source : string;
  f_ValuesYAML : gmap string string;
  f_SpecVersion : string;
  f_TplDetails : string;
}.

(** Rows of configurations_global and configurations_environment
    (featuresql/models.go). *)
Record ConfigurationsGlobal := {
  cg_ID : uuid; cg_Feature : string; cg_Key : string; cg_Value : string;
  cg_Description : option string; cg_Secret : bool; cg_Created : time;
}.
Record ConfigurationsEnvironment := {
  ce_ID : uuid; ce_Feature : string; ce_Key : string; ce_Value : string;
  ce_Description : option string; ce_Secret : bool; ce_Created : time;
  ce_EnvironmentID : uuid;
}.

Record MergedConfigRow := {
  m_ID : uuid;
  m_Key : string;
  m_Value : string;
  m_Secret : bool;
  m_Created : time;
  m_EnvironmentID : option uuid;
}.

#[global] Instance MergedConfigRow_eq_dec : EqDecision MergedConfigRow.
Proof. solve_decision. Defined.

(** ** DeployStatus *)

Abbreviation DeployStatus := string (only parsing).
Definition DeployStatusUnknown : DeployStatus := "".
Definition DeployStatusSent : DeployStatus := "sent".
Definition DeployStatusInstalling : DeployStatus := "installing".
Definition DeployStatusDeployed : DeployStatus := "deployed".
Definition DeployStatusFailed : DeployStatus := "failed".

Definition DeployStatus_IsValid (r : DeployStatus) : bool :=
  bool_decide (r ∈ [DeployStatusUnknown; DeployStatusSent; DeployStatusInstalling;
                    DeployStatusDeployed; DeployStatusFailed]).
Definition IsInProgress (r : DeployStatus) : bool :=
  bool_decide (r = DeployStatusSent) || bool_decide (r = DeployStatusInstalling).

(** ** Overlaying configuration rows *)

(** A row passes the filter when no keys were given or its key is one of them
    ([len(keySet) > 0] in the source). *)
Definition key_included (includeKeys : list string) (k : string) : bool :=
  bool_decide (includeKeys = []) || bool_decide (k ∈ includeKeys).

Definition global_row (g : ConfigurationsGlobal) : MergedConfigRow :=
  {| m_ID := cg_ID g; m_Key := cg_Key g; m_Value := cg_Value g; m_Secret := cg_Secret g;
     m_Created := cg_Created g; m_EnvironmentID := None |}.
Definition env_row (e : ConfigurationsEnvironment) : MergedConfigRow :=
  {| m_ID := ce_ID e; m_Key := ce_Key e; m_Value := ce_Value e; m_Secret := ce_Secret e;
     m_Created := ce_Created e; m_EnvironmentID := Some (ce_EnvironmentID e) |}.

Definition row_leb (a b : MergedConfigRow) : bool := String.leb (m_Key a) (m_Key b).

Definition MergeConfigs (global : list ConfigurationsGlobal)
    (env : list ConfigurationsEnvironment) (includeKeys : list string) : list MergedConfigRow :=
  let m := foldl (λ m g, if key_included includeKeys (cg_Key g)
                         then <[cg_Key g := global_row g]> m else m) ∅ global in
  let m := foldl (λ m e, if key_included includeKeys (ce_Key e)
                         then <[ce_Key e := env_row e]> m else m) m env in
  isort row_leb (map_values m).

(** ** Nesting dotted keys *)

(** The prefixes [strings.Join(keys[:i], ".")] for [1 <= i < len(keys)]. *)
Definition strict_prefixes (keys : list string) : list string :=
  (λ i, Join (take i keys) ".") <$> seq 1 (length keys - 1).

(** The pre-scan of [MakeHelmConfigMap]. *)
Definition check_nestable (leaves : list string) (v : MergedConfigRow) : outcome unit :=
  let! keys := SmartDotSplit (m_Key v) in
  match list_find (.∈ leaves) (strict_prefixes keys) with
  | Some (_, prefix) => Err (ErrString ("key " +:+ (prefix +:+ " is not nestable")))
  | None => Ok tt
  end.

(** The inner loop: walk down from [parent], creating maps, and assign the leaf.
    The type assertion [e.(map[string]any)] panics on anything else. *)
Fixpoint set_path (keys : list string) (v : gval) (parent : gomap) : outcome gomap :=
  match keys with
  | [] => Ok parent
  | [key] => Ok (<[key := v]> parent)
  | key :: ks =>
      match parent !! key with
      | Some (VMap e) => let! e' := set_path ks v e in Ok (<[key := VMap e']> parent)
      | Some _ => Panic "interface conversion: interface {} is not map[string]interface {}"
      | None => let! f := set_path ks v ∅ in Ok (<[key := VMap f]> parent)
      end
  end.

Definition nest_row (val : gomap) (v : MergedConfigRow) : outcome gomap :=
  let! keys := SmartDotSplit (m_Key v) in set_path keys (VRaw (m_Value v)) val.

Definition MakeHelmConfigMap (vals : list MergedConfigRow) : outcome gomap :=
  let leaves := m_Key <$> vals in
  let! _ := ofold (λ _ v, check_nestable leaves v) tt vals in
  ofold nest_row ∅ vals.

(** ** Required fields *)

Definition RequiredFields (f : Feature) (envKind : EnvironmentKind) : list string :=
  fst <$> filter (λ kv, (envKind ∉ v_IgnoreKind kv.2) ∧ v_Required kv.2 = true)
            (map_to_list (f_Values (f_YAML f))).

(** The inner loop of [ValidateFields]: [true] when the field is appended to
    [missing].  A path component that is not a map is skipped ([continue]): the
    next component is looked up in the same parent. *)
Fixpoint field_missing (parent : gomap) (parts : list string) : bool :=
  match parts with
  | [] => false
  | part :: rest =>
      match parent !! part with
      | None | Some VNil => true
      | Some v =>
          match rest with
          | [] => false
          | _ => match v with
                 | VMap p => field_missing p rest
                 | _ => field_missing parent rest
                 end
          end
      end
  end.

Definition split_or_nil (field : string) : list string :=
  match SmartDotSplit field with Ok parts => parts | _ => [] end.

Definition ValidateFields (f : Feature) (envKind : EnvironmentKind)
    (values : list MergedConfigRow) (mp : gomap) : list string :=
  let requiredFields := RequiredFields f envKind in
  let missing := filter (λ field, (field ∉ m_Key <$> values) ∧
                           field_missing mp (split_or_nil field) = true) requiredFields in
  sort_strings missing.

Definition SecretKeys (f : Feature) : list string :=
  fst <$> filter (λ kv, (c_Secret <$> v_Config kv.2) = Some true)
            (map_to_list (f_Values (f_YAML f))).

(** The method [(v *Values) Computed]: the values that have a template. *)
Definition Values_Computed (v : Values) : Values :=
  filter (λ kv, is_Some (v_Computed kv.2)) v.

(** ** Dependencies *)

(** [(d *Dependency) FindMissing]; the loop over [AnyOf] accumulates the names not
    found and is reset by the first one found. *)
Fixpoint anyof_missing (features : list string) (acc anyOf : list string) : list string :=
  match anyOf with
  | [] => acc
  | f :: fs => if bool_decide (f ∈ features) then [] else anyof_missing features (acc ++ [f]) fs
  end.

Definition Dependency_FindMissing (d : Dependency) (features : list string) : list string :=
  (filter (.∉ features) (AllOf d)) ++ anyof_missing features [] (AnyOf d).

Definition FindMissing (ds : list Dependency) (features : list string) : list string :=
  concat ((λ dep, Dependency_FindMissing dep features) <$> ds).
