(* ===== verification/Template.v ===== *)
(** * internal/feature/template_parser.go: what a template mentions

    [ParseTemplateDetails] walks the parse tree of every computed value's template and
    collects the names it reads and the functions it calls.  Parsing a template and
    printing a node are text/template's, hence parameters ([TemplateParse]); the tree
    they work on is [node], with text/template/parse's constructors. *)

From S2P Require Export Feature.

(** text/template/parse, the node types the parser produces. *)
Inductive node :=
  | ListNode (nodes : list node)
  | NilListNode   (* a nil *ListNode: no else branch *)
  | ActionNode (pipe : node)
  | PipeNode (decl : list (list string)) (cmds : list node)
  | CommandNode (args : list node)
  | FieldNode (ident : list string)
  | IfNode (pipe lst elseList : node)
  | RangeNode (pipe lst elseList : node)
  | WithNode (pipe lst elseList : node)
  | IdentifierNode (ident : string)
  | VariableNode (ident : list string)
  | TemplateNode (name : string) (pipe : option node)
  | TextNode (text : string)
  | StringNode (quoted : string)
  | BoolNode (b : bool)
  | NumberNode (text : string)
  | DotNode
  | ChainNode (base : node) (fields : list string)
  | NilNode
  | ContinueNode
  | BreakNode
  | CommentNode (text : string).

Class TemplateParse := {
  template_Parse : string → outcome node;   (* template.New("tpl").Funcs(..).Parse, its Root *)
  node_String : node → string;
}.

Record FeatureTemplateDetails := {
  td_Management : list string; td_Env : list string; td_Envs : list string;
  td_All : list string; td_Functions : list string;
}.

Definition no_details : FeatureTemplateDetails :=
  {| td_Management := []; td_Env := []; td_Envs := []; td_All := []; td_Functions := [] |}.

(** ** Scopes *)

(** The innermost scope first; [None] is a scope whose map was never made. *)
Abbreviation scope := (list (option (gmap string (list string)))) (only parsing).

Fixpoint scope_Get (s : scope) (name : string) : list string :=
  match s with
  | [] => []
  | None :: _ => []
  | Some references :: root =>
      match references !! name with
      | Some ((_ :: _) as target) => target
      | _ => scope_Get root name
      end
  end.

(** A scope is only added to between [New] and the walk of its body. *)
Definition scope_New (s : scope) : scope := None :: s.

Definition scope_Add (s : scope) (name : string) (target : list string) : scope :=
  match s with
  | [] => []
  | r :: root => Some (<[name := target]> (default ∅ r)) :: root
  end.

(** [strings.Trim(s, ".")] and [strings.Split(.., ".")] *)
Definition trim_dots (s : string) : string :=
  let fix go s := match s with String "." s => go s | _ => s end in
  str_rev (go (str_rev (go s))).

Section template.
Context `{parse : TemplateParse}.

Definition toSlice (n : node) : list string := split_char "." (trim_dots (node_String n)).

Definition cmd_Args (cmd : node) : list node :=
  match cmd with CommandNode args => args | _ => [] end.

(** The parser gives every command an argument and every declaration a name. *)
Definition AddPipe (s : scope) (pipe : node) : outcome scope :=
  match pipe with
  | PipeNode decl cmds =>
      if (1 <? length decl)%nat then Ok s
      else
        match cmds with
        | [] => Ok s
        | [cmd] =>
            match cmd_Args cmd, decl with
            | [], _ | _, [] :: _ => Panic "index out of range"
            | arg :: _, [] => Ok (scope_Add s "" (toSlice arg))
            | arg :: _, (name :: _) :: _ => Ok (scope_Add s name (toSlice arg))
            end
        | _ => Panic "more than one pipe cmd not supported"
        end
  | _ => Ok s
  end.

(** ** Collecting *)

Definition resolve (s : scope) (ident : list string) : list string :=
  match ident with
  | [] => []
  | i :: rest =>
      if HasPrefix i "$" then
        match scope_Get s i with
        | [] => ident
        | [""%string] => rest
        | n => n ++ rest
        end
      else ident
  end.

Definition addIdent (e : FeatureTemplateDetails) (s : scope) (ident : list string)
    : FeatureTemplateDetails :=
  match ident with
  | [] => e
  | _ =>
      let ident := resolve s ident in
      let name := Join (tail ident) "." in
      let under k := bool_decide (1 < length ident)%nat && bool_decide (head ident = Some k) in
      {| td_Management := td_Management e ++ (if under "Management" then [name] else []);
         td_Env := td_Env e ++ (if under "Env" then [name] else []);
         td_Envs := td_Envs e ++ (if under "Envs" then [name] else []);
         td_All := td_All e ++ [Join ident "."];
         td_Functions := td_Functions e |}
  end.

Definition addFunction (e : FeatureTemplateDetails) (name : string) : FeatureTemplateDetails :=
  {| td_Management := td_Management e; td_Env := td_Env e; td_Envs := td_Envs e;
     td_All := td_All e; td_Functions := td_Functions e ++ [name] |}.

(** What a walk has gathered: the details and the nodes it does not know. *)
Abbreviation gathered := (FeatureTemplateDetails * list node)%type (only parsing).

Fixpoint walk (s : scope) (n : node) (g : gathered) : outcome gathered :=
  let walk_all s := fix go ns g :=
    match ns with [] => Ok g | c :: ns => let! g := walk s c g in go ns g end in
  match n with
  | ListNode nodes => walk_all s nodes g
  | NilListNode => Ok g
  | ActionNode pipe => walk s pipe g
  | PipeNode decl cmds =>
      walk_all s cmds (foldl (λ g ident, (addIdent g.1 s ident, g.2)) g decl)
  | CommandNode args => walk_all s args g
  | FieldNode ident => Ok (addIdent g.1 s ident, g.2)
  | IfNode pipe lst elseList =>
      let! g := walk s pipe g in
      let! g := walk (scope_New s) lst g in
      walk (scope_New s) elseList g
  | RangeNode pipe lst elseList =>
      let! inner := AddPipe (scope_New s) pipe in
      let! g := walk inner lst g in
      walk inner elseList g
  | WithNode pipe lst _ =>
      let! inner := AddPipe (scope_New s) pipe in
      walk inner lst g
  | IdentifierNode ident => Ok (addFunction g.1 ident, g.2)
  | VariableNode ident => Ok (addIdent g.1 s ident, g.2)
  | TemplateNode _ _ | TextNode _ | StringNode _ | BoolNode _ | NumberNode _ | DotNode
  | ChainNode _ _ | NilNode | ContinueNode | BreakNode => Ok g
  | CommentNode _ => Ok (g.1, g.2 ++ [n])
  end.

(** The error's text prints the nodes as Go syntax, addresses included; it is left out. *)
Definition parseComputedDetails (eviu : FeatureTemplateDetails) (cv : Computed)
    : outcome FeatureTemplateDetails :=
  let! t := wrap "parse" (template_Parse (Template cv)) in
  let! g := walk [None] t (eviu, []) in
  match g.2 with
  | [] => Ok g.1
  | _ => Err (ErrString "unknown nodes")
  end.

Definition sort_unique (v : list string) : list string := sort_strings (remove_dups v).

Definition clean (e : FeatureTemplateDetails) : FeatureTemplateDetails :=
  {| td_Management := sort_unique (td_Management e); td_Env := sort_unique (td_Env e);
     td_Envs := sort_unique (td_Envs e); td_All := sort_unique (td_All e);
     td_Functions := sort_unique (td_Functions e) |}.

(** The loop of [ParseTemplateDetails] over the values in the order [content]. *)
Definition parse_values (content : list (string * Value)) : outcome FeatureTemplateDetails :=
  fmap_ok clean (ofold (λ eviu kv,
    match v_Computed kv.2 with
    | Some cv => wrap "parse computed" (parseComputedDetails eviu cv)
    | None => Ok eviu
    end) no_details content).

Definition ParseTemplateDetails (content : Values) : outcome FeatureTemplateDetails :=
  parse_values (map_to_list content).

(** ** What a template mentions *)

Inductive event :=
  | Reads (ident : list string)
  | Calls (name : string).

(** [mentions s n e]: somewhere in [n], which stands in scope [s]. *)
Inductive mentions : scope → node → event → Prop :=
  | m_field s ident : ident ≠ [] → mentions s (FieldNode ident) (Reads (resolve s ident))
  | m_variable s ident : ident ≠ [] → mentions s (VariableNode ident) (Reads (resolve s ident))
  | m_function s name : mentions s (IdentifierNode name) (Calls name)
  | m_list s ns n e : n ∈ ns → mentions s n e → mentions s (ListNode ns) e
  | m_action s pipe e : mentions s pipe e → mentions s (ActionNode pipe) e
  | m_decl s decl cmds ident : ident ∈ decl → ident ≠ [] →
      mentions s (PipeNode decl cmds) (Reads (resolve s ident))
  | m_cmd s decl cmds n e : n ∈ cmds → mentions s n e → mentions s (PipeNode decl cmds) e
  | m_arg s args n e : n ∈ args → mentions s n e → mentions s (CommandNode args) e
  | m_if_pipe s pipe lst els e : mentions s pipe e → mentions s (IfNode pipe lst els) e
  | m_if_list s pipe lst els e :
      mentions (scope_New s) lst e → mentions s (IfNode pipe lst els) e
  | m_if_else s pipe lst els e :
      mentions (scope_New s) els e → mentions s (IfNode pipe lst els) e
  | m_range_list s inner pipe lst els e : AddPipe (scope_New s) pipe = Ok inner →
      mentions inner lst e → mentions s (RangeNode pipe lst els) e
  | m_range_else s inner pipe lst els e : AddPipe (scope_New s) pipe = Ok inner →
      mentions inner els e → mentions s (RangeNode pipe lst els) e
  | m_with_list s inner pipe lst els e : AddPipe (scope_New s) pipe = Ok inner →
      mentions inner lst e → mentions s (WithNode pipe lst els) e.

(** The five lists of the details, and what an event adds to each. *)
Inductive list_of := InManagement | InEnv | InEnvs | InAll | InFunctions.

Definition names (k : list_of) (d : FeatureTemplateDetails) : list string :=
  match k with
  | InManagement => td_Management d | InEnv => td_Env d | InEnvs => td_Envs d
  | InAll => td_All d | InFunctions => td_Functions d
  end.

Definition rest_under (key : string) (ident : list string) (x : string) : Prop :=
  ∃ r rest, ident = key :: r :: rest ∧ x = Join (r :: rest) ".".

Definition adds (e : event) (k : list_of) (x : string) : Prop :=
  match e, k with
  | Reads ident, InManagement => rest_under "Management" ident x
  | Reads ident, InEnv => rest_under "Env" ident x
  | Reads ident, InEnvs => rest_under "Envs" ident x
  | Reads ident, InAll => x = Join ident "."
  | Calls name, InFunctions => x = name
  | _, _ => False
  end.

(** ** The walk collects what is mentioned *)

Lemma under_spec key ident x :
  x ∈ (if bool_decide (1 < length ident)%nat && bool_decide (head ident = Some key)
       then [Join (tail ident) "."] else []) ↔ rest_under key ident x.
Proof.
  unfold rest_under. destruct ident as [|i [|r rest]].
  - split; [by intros ?%elem_of_nil|by intros (?&?&?&_)].
  - split; [by intros ?%elem_of_nil|by intros (?&?&?&_)].
  - rewrite (bool_decide_eq_true_2 (1 < _)%nat) by (cbn [length]; lia).
    cbn [andb head tail]. case_bool_decide as H; simplify_eq.
    + rewrite list_elem_of_singleton. split; [intros ->; by eexists _, _|].
      by intros (?&?&[= -> ->]&->).
    + split; [by intros ?%elem_of_nil|]. intros (?&?&[= -> -> ->]&->). done.
Qed.

Lemma names_addIdent k d s ident x :
  x ∈ names k (addIdent d s ident) ↔
  x ∈ names k d ∨ (ident ≠ [] ∧ adds (Reads (resolve s ident)) k x).
Proof.
  destruct ident as [|i ident].
  { simpl. split; [by left|]. by intros [?|[? _]]. }
  set (id := i :: ident). assert (Hne : id ≠ []) by done.
  change (addIdent d s id) with
    (let ident := resolve s id in
     let name := Join (tail ident) "." in
     let under k := bool_decide (1 < length ident)%nat && bool_decide (head ident = Some k) in
     {| td_Management := td_Management d ++ (if under "Management" then [name] else []);
        td_Env := td_Env d ++ (if under "Env" then [name] else []);
        td_Envs := td_Envs d ++ (if under "Envs" then [name] else []);
        td_All := td_All d ++ [Join ident "."];
        td_Functions := td_Functions d |}).
  cbv zeta. destruct k; cbn [names td_Management td_Env td_Envs td_All td_Functions adds];
    rewrite ?elem_of_app, ?under_spec, ?list_elem_of_singleton; tauto.
Qed.

Lemma names_addFunction k d name x :
  x ∈ names k (addFunction d name) ↔ x ∈ names k d ∨ adds (Calls name) k x.
Proof. destruct k; simpl; rewrite ?elem_of_app, ?list_elem_of_singleton; tauto. Qed.

Lemma walk_list s ns g : walk s (ListNode ns) g = ofold (λ g c, walk s c g) g ns.
Proof.
  cbn [walk]. revert g. induction ns as [|c ns IH]; intros g; cbn [ofold]; [done|].
  destruct (walk s c g); [apply IH|done..].
Qed.
Lemma walk_command s args g : walk s (CommandNode args) g = ofold (λ g c, walk s c g) g args.
Proof. apply (walk_list s args g). Qed.
Lemma walk_pipe s decl cmds g :
  walk s (PipeNode decl cmds) g =
  ofold (λ g c, walk s c g) (foldl (λ g ident, (addIdent g.1 s ident, g.2)) g decl) cmds.
Proof. apply (walk_list s cmds). Qed.

Lemma ofold_has {A} (f : FeatureTemplateDetails * list node → A → outcome _) (P : A → Prop) k x l :
  ∀ g g', ofold f g l = Ok g' →
  (∀ a g g', a ∈ l → f g a = Ok g' → x ∈ names k g'.1 ↔ x ∈ names k g.1 ∨ P a) →
  x ∈ names k g'.1 ↔ x ∈ names k g.1 ∨ ∃ a, a ∈ l ∧ P a.
Proof.
  induction l as [|a l IH]; intros g g' H Hf; simpl in H.
  { injection H as <-. split; [by left|]. intros [?|(? & H%elem_of_nil & _)]; done. }
  inv_ok. rewrite (IH _ _ H), (Hf a g); [|by left|done|].
  - setoid_rewrite elem_of_cons. naive_solver.
  - intros b h h' Hb. apply Hf. by right.
Qed.

Lemma node_nested_ind (P : node → Prop) :
  (∀ ns, Forall P ns → P (ListNode ns)) → P NilListNode →
  (∀ pipe, P pipe → P (ActionNode pipe)) →
  (∀ decl cmds, Forall P cmds → P (PipeNode decl cmds)) →
  (∀ args, Forall P args → P (CommandNode args)) →
  (∀ pipe lst els, P pipe → P lst → P els → P (IfNode pipe lst els)) →
  (∀ pipe lst els, P pipe → P lst → P els → P (RangeNode pipe lst els)) →
  (∀ pipe lst els, P pipe → P lst → P els → P (WithNode pipe lst els)) →
  (∀ n, match n with ListNode _ | NilListNode | ActionNode _ | PipeNode _ _ | CommandNode _
        | IfNode _ _ _ | RangeNode _ _ _ | WithNode _ _ _ => True | _ => P n end) →
  ∀ n, P n.
Proof.
  intros Hl Hnl Ha Hp Hc Hi Hr Hw Ho. fix IH 1. intros n.
  pose proof (Ho n) as Hn. destruct n; try exact Hn; clear Hn.
  - apply Hl. clear -IH. induction nodes; constructor; auto.
  - exact Hnl.
  - apply Ha, IH.
  - apply Hp. clear -IH. induction cmds; constructor; auto.
  - apply Hc. clear -IH. induction args; constructor; auto.
  - apply Hi; apply IH.
  - apply Hr; apply IH.
  - apply Hw; apply IH.
Qed.

(** Some event at [n] adds [x] to the list [k]. *)
Definition mentioned (s : scope) (n : node) (k : list_of) (x : string) : Prop :=
  ∃ e, mentions s n e ∧ adds e k x.

Ltac same_ok :=
  match goal with
  | H : ?a = Ok ?x, H' : ?a = Ok ?y |- _ => rewrite H in H'; injection H' as <-
  end.

Lemma walk_spec k x n : ∀ s g g', walk s n g = Ok g' →
  x ∈ names k g'.1 ↔ x ∈ names k g.1 ∨ mentioned s n k x.
Proof.
  unfold mentioned. revert n. refine (node_nested_ind _ _ _ _ _ _ _ _ _ _);
    [intros ns IH s g g' H|intros s g g' H|intros pipe IH s g g' H|intros decl cmds IH s g g' H
    |intros args IH s g g' H|intros pipe lst els IHp IHl IHe s g g' H
    |intros pipe lst els _ IHl IHe s g g' H|intros pipe lst els _ IHl _ s g g' H|intros n].
  - rewrite walk_list in H.
    rewrite (ofold_has _ (λ n, ∃ e, mentions s n e ∧ adds e k x) _ _ _ _ _ H).
    + split; (intros [?|Hm]; [by left|right]).
      * destruct Hm as (n & Hn & e & Hm & Ha). exists e. split; [by eapply m_list|done].
      * destruct Hm as (e & Hm & Ha). inversion Hm; subst. eauto.
    + intros n h h' Hn Hw. rewrite Forall_forall in IH. by apply IH.
  - injection H as <-. split; [by left|]. intros [?|(e & Hm & _)]; [done|]. inversion Hm.
  - simpl in H. rewrite (IH _ _ _ H). split; (intros [?|(e & Hm & Ha)]; [by left|right]).
    + exists e. split; [by constructor|done].
    + inversion Hm; subst. eauto.
  - rewrite walk_pipe in H.
    rewrite (ofold_has _ (λ n, ∃ e, mentions s n e ∧ adds e k x) _ _ _ _ _ H).
    2: { intros n h h' Hn Hw. rewrite Forall_forall in IH. by apply IH. }
    assert (Hd : ∀ h : FeatureTemplateDetails * list node, x ∈ names k (foldl (λ g ident, (addIdent g.1 s ident, g.2)) h decl).1 ↔
      x ∈ names k h.1 ∨ ∃ ident, ident ∈ decl ∧ ident ≠ [] ∧ adds (Reads (resolve s ident)) k x).
    { clear. induction decl as [|d decl IH]; intros h; simpl.
      - split; [by left|]. intros [?|(? & H%elem_of_nil & _)]; done.
      - rewrite IH. cbn [fst]. rewrite names_addIdent. setoid_rewrite elem_of_cons. naive_solver. }
    rewrite Hd. split.
    + intros [[?|(ident & Hi & Hne & Ha)]|(n & Hn & e & Hm & Ha)]; [by left|right..].
      * eexists. split; [by eapply m_decl|done].
      * eexists. split; [by eapply m_cmd|done].
    + intros [?|(e & Hm & Ha)]; [by do 2 left|]. inversion Hm; subst; eauto 6.
  - rewrite walk_command in H.
    rewrite (ofold_has _ (λ n, ∃ e, mentions s n e ∧ adds e k x) _ _ _ _ _ H).
    + split; (intros [?|Hm]; [by left|right]).
      * destruct Hm as (n & Hn & e & Hm & Ha). exists e. split; [by eapply m_arg|done].
      * destruct Hm as (e & Hm & Ha). inversion Hm; subst. eauto.
    + intros n h h' Hn Hw. rewrite Forall_forall in IH. by apply IH.
  - simpl in H. inv_ok. rewrite (IHe _ _ _ H), (IHl _ _ _ H1), (IHp _ _ _ H0). split.
    + intros [[[?|(e & Hm & Ha)]|(e & Hm & Ha)]|(e & Hm & Ha)]; [by left|right; exists e..];
        (split; [|done]); [by apply m_if_pipe|by apply m_if_list|by apply m_if_else].
    + intros [?|(e & Hm & Ha)]; [by do 3 left|]. inversion Hm; subst; eauto 8.
  - simpl in H. inv_ok. rewrite (IHe _ _ _ H), (IHl _ _ _ H1). split.
    + intros [[?|(e & Hm & Ha)]|(e & Hm & Ha)]; [by left|right; exists e..];
        (split; [|done]); [by eapply m_range_list|by eapply m_range_else].
    + intros [?|(e & Hm & Ha)]; [by do 2 left|]. inversion Hm; subst; same_ok; eauto 8.
  - simpl in H. inv_ok. rewrite (IHl _ _ _ H). split.
    + intros [?|(e & Hm & Ha)]; [by left|right; exists e]. split; [by eapply m_with_list|done].
    + intros [?|(e & Hm & Ha)]; [by left|]. inversion Hm; subst; same_ok; eauto 8.
  - destruct n; try done; intros s g g' [= <-]; cbn [fst].
    all: try (split; [by left|]; intros [?|(e & Hm & _)]; [done|by inversion Hm]).
    + rewrite names_addIdent. split; (intros [?|Hm]; [by left|right]).
      * destruct Hm as [Hne Ha]. eexists. split; [by constructor|done].
      * destruct Hm as (e & Hm & Ha). by inversion Hm; subst.
    + rewrite names_addFunction. split; (intros [?|Hm]; [by left|right]).
      * eexists. split; [by constructor|done].
      * destruct Hm as (e & Hm & Ha). by inversion Hm; subst.
    + rewrite names_addIdent. split; (intros [?|Hm]; [by left|right]).
      * destruct Hm as [Hne Ha]. eexists. split; [by constructor|done].
      * destruct Hm as (e & Hm & Ha). by inversion Hm; subst.
Qed.

(** ** The details of a feature *)

(** A computed value of [content] has a template that mentions [x]. *)
Definition value_mentions (content : list (string * Value)) (k : list_of) (x : string) : Prop :=
  ∃ kv cv t, kv ∈ content ∧ v_Computed kv.2 = Some cv ∧ template_Parse (Template cv) = Ok t ∧
    mentioned [None] t k x.

Lemma parse_fold k x content : ∀ d d',
  ofold (λ eviu kv,
    match v_Computed kv.2 with
    | Some cv => wrap "parse computed" (parseComputedDetails eviu cv)
    | None => Ok eviu
    end) d content = Ok d' →
  x ∈ names k d' ↔ x ∈ names k d ∨ value_mentions content k x.
Proof.
  unfold value_mentions. induction content as [|[key v] content IH]; intros d d' H; simpl in H.
  { injection H as <-. split; [by left|]. by intros [?|(? & ? & ? & H%elem_of_nil & _)]. }
  apply obind_Ok in H as (d1 & Hd & H). rewrite (IH _ _ H). setoid_rewrite elem_of_cons.
  destruct (v_Computed v) as [cv|] eqn:Ev.
  - apply wrap_Ok in Hd. unfold parseComputedDetails in Hd.
    apply obind_Ok in Hd as (t & Ht & Hd). apply wrap_Ok in Ht.
    apply obind_Ok in Hd as ([d2 u] & Hw & Hd). destruct u; [|done]. injection Hd as <-.
    apply (walk_spec k x) in Hw. rewrite Hw. cbn [fst]. split.
    + intros [[?|?]|(kv & cv' & t' & ? & ?)]; [by left|right..].
      * exists (key, v), cv, t. split_and!; [by left|done..].
      * exists kv, cv', t'. split; [by right|tauto].
    + intros [?|(kv & cv' & t' & [->|?] & Hc & Ht' & Hm)]; [by do 2 left| |].
      * cbn [snd] in Hc. rewrite Ev in Hc. injection Hc as <-. rewrite Ht in Ht'.
        injection Ht' as <-. left. by right.
      * right. by exists kv, cv', t'.
  - injection Hd as <-. split; (intros [?|(kv & cv' & t' & Hin & Hc & ?)]; [by left|right]).
    + exists kv, cv', t'. split; [by right|tauto].
    + destruct Hin as [->|Hin]; [by cbn [snd] in Hc; congruence|].
      by exists kv, cv', t'.
Qed.

Lemma names_clean k d : names k (clean d) = sort_unique (names k d).
Proof. by destruct k. Qed.

Lemma elem_of_sort_unique x v : x ∈ sort_unique v ↔ x ∈ v.
Proof. unfold sort_unique. by rewrite elem_of_sort_strings, elem_of_remove_dups. Qed.

Lemma sort_unique_sorted v :
  NoDup (sort_unique v) ∧ StronglySorted (λ a b, String.leb a b = true) (sort_unique v).
Proof.
  unfold sort_unique, sort_strings. split.
  - rewrite isort_perm. apply NoDup_remove_dups.
  - apply isort_sorted; [apply leb_total|apply leb_trans].
Qed.

(** What [ParseTemplateDetails] returns, for every order in which the values are
    visited: each list is sorted, has no name twice, and has exactly the names that
    some computed value's template mentions, seen in the scopes the walk keeps. *)
Theorem ParseTemplateDetails_spec (content : Values) order d :
  order ≡ₚ map_to_list content → parse_values order = Ok d →
  ∀ k, NoDup (names k d) ∧ StronglySorted (λ a b, String.leb a b = true) (names k d) ∧
    ∀ x, x ∈ names k d ↔
      ∃ key v cv t, content !! key = Some v ∧ v_Computed v = Some cv ∧
        template_Parse (Template cv) = Ok t ∧ mentioned [None] t k x.
Proof.
  intros Hp H k. unfold parse_values, fmap_ok in H.
  apply obind_Ok in H as (d0 & H & [= <-]). rewrite names_clean.
  destruct (sort_unique_sorted (names k d0)) as [Hn Hs]. split_and!; [done..|].
  intros x. rewrite elem_of_sort_unique, (parse_fold k x _ _ _ H).
  assert (Hno : x ∉ names k no_details) by (destruct k; apply not_elem_of_nil).
  unfold value_mentions. split.
  - intros [?|([key v] & cv & t & Hin & ?)]; [done|].
    rewrite Hp, elem_of_map_to_list in Hin. by exists key, v, cv, t.
  - intros (key & v & cv & t & Hin & ?). right. exists (key, v), cv, t.
    by rewrite Hp, elem_of_map_to_list.
Qed.
End template.

(** ** Instances: templates of a few fixed texts *)

Definition pipe_of (args : list node) : node := PipeNode [] [CommandNode args].

Definition example_parse : TemplateParse :=
  {| template_Parse s :=
       if bool_decide (s = "env") then
         Ok (ListNode [ActionNode (pipe_of [IdentifierNode "quote"; FieldNode ["Env"; "region"]])])
       else if bool_decide (s = "nested") then
         (* {{with $x := .Env.db}}{{$x.host}}{{if true}}{{$x.port}}{{end}}{{end}} *)
         Ok (ListNode [WithNode (PipeNode [["$x"]] [CommandNode [FieldNode ["Env"; "db"]]])
           (ListNode [ActionNode (pipe_of [VariableNode ["$x"; "host"]]);
                      IfNode (pipe_of [BoolNode true])
                        (ListNode [ActionNode (pipe_of [VariableNode ["$x"; "port"]])]) NilListNode])
           NilListNode])
       else if bool_decide (s = "piped") then
         (* {{with .Env.db | default .Env.other}}{{end}} *)
         Ok (ListNode [WithNode (PipeNode [] [CommandNode [FieldNode ["Env"; "db"]];
             CommandNode [IdentifierNode "default"; FieldNode ["Env"; "other"]]])
           (ListNode []) NilListNode])
       else if bool_decide (s = "else") then
         (* {{with .Env.db}}{{else}}{{.Env.other}}{{end}} *)
         Ok (ListNode [WithNode (pipe_of [FieldNode ["Env"; "db"]]) (ListNode [])
           (ListNode [ActionNode (pipe_of [FieldNode ["Env"; "other"]])])])
       else Err (ErrExternal "parse");
     node_String n := match n with FieldNode ident => "." +:+ Join ident "." | _ => "" end |}.

Definition computed_value (t : string) : Value :=
  {| v_Description := ""; v_DisplayName := ""; v_Required := false;
     v_Computed := Some {| Template := t |}; v_Config := None; v_IgnoreKind := [] |}.

Lemma ParseTemplateDetails_spec_witness :
  ∃ d, parse_values (parse := example_parse) (map_to_list {[ "a" := computed_value "env" ]}) = Ok d ∧
    td_Env d = ["region"] ∧ NoDup (td_Functions d).
Proof.
  destruct (parse_values (parse := example_parse) (map_to_list {[ "a" := computed_value "env" ]}))
    as [d|er|p] eqn:E; [|vm_compute in E; discriminate E..].
  exists d. split; [reflexivity|]. split; [vm_compute in E; injection E as <-; reflexivity|].
  apply (ParseTemplateDetails_spec (parse := example_parse) {[ "a" := computed_value "env" ]}
    (map_to_list {[ "a" := computed_value "env" ]}) d (Permutation_refl _) E InFunctions).
Defined.

(** A [with] whose value goes through a pipeline makes the walk panic. *)
Theorem ParseTemplateDetails_panics :
  ParseTemplateDetails (parse := example_parse) {[ "a" := computed_value "piped" ]} =
  Panic "more than one pipe cmd not supported".
Proof. vm_compute. reflexivity. Qed.

(** Inside an [if] a variable of an enclosing [with] is not resolved, since the scope of
    the [if] has no map and the lookup stops there; and the [else] of a [with] is not
    walked, nor is its pipeline. *)
Theorem ParseTemplateDetails_misses :
  (∃ d, ParseTemplateDetails (parse := example_parse) {[ "a" := computed_value "nested" ]} = Ok d ∧
     td_Env d = ["db.host"] ∧ td_All d = ["$x.port"; "Env.db.host"]) ∧
  (∃ d, ParseTemplateDetails (parse := example_parse) {[ "a" := computed_value "else" ]} = Ok d ∧
     td_All d = []).
Proof. split; eexists; split_and?; vm_compute; reflexivity. Qed.
