(* ===== verification/FeatureFacts.v ===== *)
(** * Properties of the feature model

    Lemmas on [set_path] and on keys without escapes, then the correctness of
    [MergeConfigs], [MakeHelmConfigMap], [ValidateFields] and [FindMissing]. *)

From S2P Require Export Feature.

(** ** Assigning one leaf *)

(** Walking down [path] from [m] meets no leaf before the last component. *)
Fixpoint open_path (m : gomap) (path : list string) : Prop :=
  match path with
  | [] | [_] => True
  | k :: ks =>
      match m !! k with
      | Some (VMap m') => open_path m' ks
      | Some _ => False
      | None => True
      end
  end.

Lemma set_path_cons k ks v m :
  ks ≠ [] →
  set_path (k :: ks) v m =
    match m !! k with
    | Some (VMap e) => let! e' := set_path ks v e in Ok (<[k := VMap e']> m)
    | Some _ => Panic "interface conversion: interface {} is not map[string]interface {}"
    | None => let! f := set_path ks v ∅ in Ok (<[k := VMap f]> m)
    end.
Proof. by destruct ks. Qed.

Lemma open_path_cons m k ks :
  ks ≠ [] →
  open_path m (k :: ks) =
    match m !! k with
    | Some (VMap m') => open_path m' ks
    | Some _ => False
    | None => True
    end.
Proof. by destruct ks. Qed.

Lemma open_path_empty p : open_path ∅ p.
Proof. destruct p as [|k [|k' ks]]; simpl; [done..|]. by rewrite lookup_empty. Qed.

(** Case analysis on a path with at least two components. *)
Ltac path_cases p :=
  let k := fresh "k" in let ks := fresh "ks" in
  destruct p as [|k ks]; [|destruct (decide (ks = [])) as [->|]].

(** Assigning below a single component. *)
Lemma set_path_inv k ks v m m' :
  set_path (k :: ks) v m = Ok m' →
  (ks = [] ∧ m' = <[k := v]> m) ∨
  (ks ≠ [] ∧ ∃ e e', (m !! k = Some (VMap e) ∨ m !! k = None ∧ e = ∅) ∧
     set_path ks v e = Ok e' ∧ m' = <[k := VMap e']> m).
Proof.
  destruct (decide (ks = [])) as [->|Hks]; [intros [= <-]; by left|].
  rewrite set_path_cons by done. intros H. right. split; [done|].
  destruct (m !! k) as [[]|] eqn:E; try done; inv_ok; eauto 10.
Qed.

Lemma set_path_Ok p v m : open_path m p → ∃ m', set_path p v m = Ok m'.
Proof.
  revert m. induction p as [|k ks IH]; intros m Hm; [by eexists|].
  destruct (decide (ks = [])) as [->|Hks]; [by eexists|].
  rewrite set_path_cons by done. rewrite open_path_cons in Hm by done.
  destruct (m !! k) as [[]|]; try done.
  - destruct (IH _ Hm) as [e ->]. by eexists.
  - destruct (IH ∅ (open_path_empty _)) as [e ->]. by eexists.
Qed.

Lemma set_path_get p v m m' :
  p ≠ [] → set_path p v m = Ok m' → get_path m' p = Some v.
Proof.
  revert m m'. induction p as [|k ks IH]; intros m m' Hp H; [done|].
  apply set_path_inv in H as [[-> ->]|(Hks & e & e' & _ & H & ->)].
  - simpl. apply lookup_insert_eq.
  - rewrite get_path_cons, lookup_insert_eq by done. by eapply IH.
Qed.

Lemma get_path_empty p : get_path ∅ p = None.
Proof. destruct p as [|k [|]]; simpl; rewrite ?lookup_empty; done. Qed.

Lemma set_path_get_ne p q v m m' :
  incomparable p q → set_path p v m = Ok m' → get_path m' q = get_path m q.
Proof.
  revert q m m'. induction p as [|k ks IH]; intros q m m' Hpq H.
  { by apply not_incomparable_nil in Hpq. }
  destruct q as [|k' ks']; [by apply not_incomparable_nil_r in Hpq|].
  apply set_path_inv in H as [[-> ->]|(Hks & e & e' & He & H & ->)].
  - assert (k ≠ k').
    { intros <-. apply incomparable_cons in Hpq. by apply not_incomparable_nil in Hpq. }
    destruct ks'; simpl; by rewrite lookup_insert_ne.
  - destruct (decide (k = k')) as [<-|].
    + apply incomparable_cons in Hpq.
      assert (ks' ≠ []) by (intros ->; by apply not_incomparable_nil_r in Hpq).
      rewrite !get_path_cons, lookup_insert_eq by done.
      rewrite (IH _ _ _ Hpq H). destruct He as [->|[-> ->]]; [done|apply get_path_empty].
    + destruct ks'; simpl; by rewrite lookup_insert_ne.
Qed.

Lemma set_path_open_ne p q v m m' :
  incomparable p q → set_path p v m = Ok m' → open_path m q → open_path m' q.
Proof.
  revert q m m'. induction p as [|k ks IH]; intros q m m' Hpq H Ho.
  { by apply not_incomparable_nil in Hpq. }
  destruct q as [|k' ks']; [done|].
  destruct (decide (ks' = [])) as [->|Hks']; [done|]. rewrite open_path_cons in * by done.
  apply set_path_inv in H as [[-> ->]|(Hks & e & e' & He & H & ->)].
  - assert (k ≠ k').
    { intros <-. apply incomparable_cons in Hpq. by apply not_incomparable_nil in Hpq. }
    by rewrite lookup_insert_ne.
  - destruct (decide (k = k')) as [<-|]; [|by rewrite lookup_insert_ne].
    apply incomparable_cons in Hpq. rewrite lookup_insert_eq.
    eapply IH; [done..|]. destruct He as [He|[He ->]]; rewrite He in Ho; [done|].
    apply open_path_empty.
Qed.

Lemma set_path_leaf_inv p q v w m m' :
  as_map v = None → set_path p v m = Ok m' → get_path m' q = Some w → as_map w = None →
  (q = p ∧ w = v) ∨ get_path m q = Some w.
Proof.
  revert q m m'. induction p as [|k ks IH]; intros q m m' Hv H Hq Hw.
  { simpl in H. simplify_eq. by right. }
  destruct q as [|k' ks']; [done|].
  apply set_path_inv in H as [[-> ->]|(Hks & e & e' & He & H & ->)];
    (destruct (decide (k = k')) as [<-|];
      [|right; destruct ks'; simpl in *; by rewrite lookup_insert_ne in Hq]).
  - destruct (decide (ks' = [])) as [->|Hks'].
    + simpl in Hq. rewrite lookup_insert_eq in Hq. simplify_eq. by left.
    + rewrite get_path_cons, lookup_insert_eq in Hq by done. by destruct v.
  - destruct (decide (ks' = [])) as [->|Hks'].
    + simpl in Hq. rewrite lookup_insert_eq in Hq. by simplify_eq.
    + rewrite get_path_cons, lookup_insert_eq in Hq by done.
      destruct (IH _ _ _ Hv H Hq Hw) as [[-> ->]|Hg]; [by left|right].
      rewrite get_path_cons by done.
      destruct He as [->|[-> ->]]; [done|]. by rewrite get_path_empty in Hg.
Qed.

(** ** Keys without escapes *)

Definition plain_key (k : string) : Prop := has_char "\" k = false.

Lemma has_char_Join c l sep x :
  x ∈ l → has_char c (Join l sep) = false → has_char c x = false.
Proof.
  induction l as [|y l IH]; intros Hx H; [by apply elem_of_nil in Hx|].
  destruct l as [|z l].
  - rewrite Join_one in H. apply list_elem_of_singleton in Hx. by subst.
  - rewrite Join_cons, !has_char_app in H.
    apply orb_false_iff in H as [H1 [_ H2]%orb_false_iff].
    apply elem_of_cons in Hx as [->|Hx]; [done|by apply IH].
Qed.

Lemma esc_plain w : has_char "\" (esc w) = false → esc w = w ∧ has_char "." w = false.
Proof.
  induction w as [|c w IH]; simpl; intros H; [done|].
  case_bool_decide as Hc; simpl in H; [done|].
  apply orb_false_iff in H as [H1 H2]. destruct (IH H2) as [-> ->].
  rewrite bool_decide_eq_false_2 by congruence. done.
Qed.

(** The path of a plain key, joined back, is the key; no segment holds a dot. *)
Lemma plain_key_split k keys :
  plain_key k → SmartDotSplit k = Ok keys →
  Join keys "." = k ∧ Forall (λ w, has_char "." w = false) keys.
Proof.
  intros Hk H. apply SmartDotSplit_key in H. unfold dot_key in H.
  assert (Forall (λ w, esc w = w ∧ has_char "." w = false) keys) as HF.
  { apply Forall_forall. intros w Hw. apply esc_plain.
    eapply has_char_Join; [|by rewrite H]. apply list_elem_of_In, in_map.
    by apply list_elem_of_In. }
  split; [|eapply Forall_impl; [exact HF|naive_solver]].
  rewrite <-H. f_equal. clear H. induction HF as [|w l [Hw _] _ IH]; simpl; congruence.
Qed.

Lemma Join_dot_char x y l : has_char "." (Join (x :: y :: l) ".") = true.
Proof. rewrite Join_cons, !has_char_app. simpl. by rewrite orb_true_r. Qed.

(** Joining with dots is injective on segments without dots. *)
Lemma Join_dot_inj l1 l2 :
  Forall (λ w, has_char "." w = false) l1 → Forall (λ w, has_char "." w = false) l2 →
  l1 ≠ [] → l2 ≠ [] → Join l1 "." = Join l2 "." → l1 = l2.
Proof.
  assert (Hcut : ∀ (x y a b : string), has_char "." x = false → has_char "." y = false →
    x +:+ "." +:+ a = y +:+ "." +:+ b → x = y ∧ a = b).
  { induction x as [|c x IH]; intros [|d y] a b Hx Hy E; simpl in *; simplify_eq; try done.
    apply orb_false_iff in Hx as [? ?], Hy as [? ?].
    by destruct (IH y a b) as [-> ->]. }
  intros H1. revert l2. induction H1 as [|x l1 Hx H1 IH]; intros l2 H2 Hn1 Hn2 E; [done|].
  destruct H2 as [|y l2 Hy H2]; [done|].
  destruct l1 as [|x' l1], l2 as [|y' l2].
  - by rewrite !Join_one in E; subst.
  - rewrite Join_one in E. rewrite E, Join_dot_char in Hx. done.
  - rewrite Join_one in E. rewrite <-E, Join_dot_char in Hy. done.
  - rewrite !Join_cons in E. apply Hcut in E as [-> E]; [|done..].
    f_equal. by apply IH.
Qed.

(** ** MakeHelmConfigMap *)

Lemma list_find_None_iff {A} (P : A → Prop) `{∀ x, Decision (P x)} l :
  list_find P l = None ↔ Forall (λ x, ¬ P x) l.
Proof. apply list_find_None. Qed.

Lemma ofold_unit_Ok {A} (f : A → outcome unit) l :
  ofold (λ _ v, f v) tt l = Ok tt ↔ Forall (λ v, f v = Ok tt) l.
Proof.
  induction l as [|x l IH]; simpl; [by split; constructor|].
  rewrite Forall_cons, <-IH. destruct (f x) as [[]| |]; simpl; naive_solver.
Qed.

Lemma ofold_unit_no_panic {A} (f : A → outcome unit) l :
  (∀ v, is_Panic (f v) = false) → is_Panic (ofold (λ _ v, f v) tt l) = false.
Proof.
  intros Hf. induction l as [|x l IH]; simpl; [done|].
  specialize (Hf x). by destruct (f x) as [[]| |].
Qed.

Lemma ofold_unit_Err {A} (f : A → outcome unit) l e :
  ofold (λ _ v, f v) tt l = Err e → ∃ v, v ∈ l ∧ f v = Err e.
Proof.
  induction l as [|x l IH]; simpl; [done|]. intros H.
  destruct (f x) as [[]| |] eqn:E; simpl in H; simplify_eq.
  - destruct (IH H) as (v & ? & ?). exists v. split; [by right|done].
  - exists x. split; [by left|done].
Qed.

Lemma dot_loop_no_panic i prev s str ret :
  (i = 0%nat ∨ prev ≠ None) → is_Panic (dot_loop i prev s str ret) = false.
Proof.
  revert i prev str ret. induction s as [|c s IH]; intros i prev str ret Hi; simpl; [done|].
  case_bool_decide; [|apply IH; by right].
  destruct (bool_decide (str = "") || bool_decide (i = 0%nat)) eqn:E; [done|].
  apply orb_false_iff in E as [_ E%bool_decide_eq_false].
  destruct prev; [|naive_solver]. case_bool_decide; apply IH; by right.
Qed.

Lemma SmartDotSplit_no_panic s : is_Panic (SmartDotSplit s) = false.
Proof. unfold SmartDotSplit. do 2 (case_match; [done|]). apply dot_loop_no_panic. by left. Qed.

Lemma dot_loop_not_nil i prev s str ret l : dot_loop i prev s str ret = Ok l → l ≠ [].
Proof.
  revert i prev str ret. induction s as [|c s IH]; simpl; intros i prev str ret H.
  - simplify_eq. by destruct ret.
  - repeat case_match; simplify_eq; eauto.
Qed.

Lemma SmartDotSplit_not_nil s l : SmartDotSplit s = Ok l → l ≠ [].
Proof. unfold SmartDotSplit. do 2 (case_match; [done|]). apply dot_loop_not_nil. Qed.

Lemma check_nestable_no_panic leaves v : is_Panic (check_nestable leaves v) = false.
Proof.
  unfold check_nestable. pose proof (SmartDotSplit_no_panic (m_Key v)) as H.
  destruct (SmartDotSplit _); simpl in *; [|done..]. by repeat case_match.
Qed.

Lemma check_nestable_Ok leaves v :
  check_nestable leaves v = Ok tt ↔
  ∃ keys, SmartDotSplit (m_Key v) = Ok keys ∧
    ∀ i, (0 < i < length keys)%nat → Join (take i keys) "." ∉ leaves.
Proof.
  unfold check_nestable. rewrite obind_Ok. apply exist_proper. intros keys.
  apply and_iff_compat_l.
  transitivity (list_find (.∈ leaves) (strict_prefixes keys) = None).
  { destruct (list_find _ _) as [[]|]; split; done. }
  rewrite list_find_None_iff, Forall_forall. unfold strict_prefixes.
  setoid_rewrite list_elem_of_fmap. split.
  - intros H i Hi. apply H. exists i. split; [done|]. apply elem_of_seq. lia.
  - intros H x (i & -> & Hi%elem_of_seq). apply H. lia.
Qed.

(** The rows are plain and passed the pre-scan. *)
Record nestable (vals : list MergedConfigRow) : Prop := {
  nestable_plain : ∀ v, v ∈ vals → plain_key (m_Key v);
  nestable_scan : ∀ v, v ∈ vals → check_nestable (m_Key <$> vals) v = Ok tt;
}.

Lemma nestable_incomparable vals v w kv kw :
  nestable vals → v ∈ vals → w ∈ vals → m_Key v ≠ m_Key w →
  SmartDotSplit (m_Key v) = Ok kv → SmartDotSplit (m_Key w) = Ok kw →
  incomparable kv kw.
Proof.
  intros Hn Hv Hw Hne Ev Ew.
  assert (Hpre : ∀ v w kv kw, v ∈ vals → w ∈ vals → m_Key v ≠ m_Key w →
    SmartDotSplit (m_Key v) = Ok kv → SmartDotSplit (m_Key w) = Ok kw → ¬ kv `prefix_of` kw).
  { clear -Hn. intros v w kv kw Hv Hw Hne Ev Ew [k Hk].
    pose proof (nestable_scan _ Hn w Hw) as Hs. apply check_nestable_Ok in Hs as (kw' & Ew' & Hs).
    rewrite Ew in Ew'. injection Ew' as <-.
    destruct (plain_key_split _ _ (nestable_plain _ Hn v Hv) Ev) as [Jv _].
    destruct (plain_key_split _ _ (nestable_plain _ Hn w Hw) Ew) as [Jw _].
    destruct k as [|x k].
    { apply Hne. by rewrite <-Jv, <-Jw, Hk, app_nil_r. }
    apply (Hs (length kv)).
    - pose proof (SmartDotSplit_not_nil _ _ Ev). subst kw. rewrite length_app. simpl.
      destruct kv; simpl; [done|lia].
    - rewrite Hk, take_app_length, Jv. apply list_elem_of_fmap. eauto. }
  split; [exact (Hpre v w kv kw Hv Hw Hne Ev Ew)|].
  exact (Hpre w v kw kv Hw Hv (not_eq_sym Hne) Ew Ev).
Qed.

(** What the fold over the rows has built after the rows of [done]. *)
Record nested (vals done : list MergedConfigRow) (m : gomap) : Prop := {
  nested_get : ∀ v kv, v ∈ done → SmartDotSplit (m_Key v) = Ok kv →
    get_path m kv = Some (VRaw (m_Value v));
  nested_open : ∀ v kv, v ∈ vals → v ∉ done → SmartDotSplit (m_Key v) = Ok kv → open_path m kv;
  nested_inv : ∀ p w, get_path m p = Some w → as_map w = None →
    ∃ v, v ∈ done ∧ SmartDotSplit (m_Key v) = Ok p ∧ w = VRaw (m_Value v);
}.

Lemma nested_step vals l1 v l2 m :
  nestable vals → NoDup (m_Key <$> vals) → vals = l1 ++ v :: l2 → nested vals l1 m →
  ∃ m', nest_row m v = Ok m' ∧ nested vals (l1 ++ [v]) m'.
Proof.
  intros Hn Hnd Ev Hm.
  assert (Hv : v ∈ vals) by (subst; set_solver).
  destruct (proj1 (check_nestable_Ok _ _) (nestable_scan _ Hn v Hv)) as (kv & Hkv & _).
  assert (Hl1 : ∀ w, w ∈ l1 → m_Key w ≠ m_Key v).
  { intros w Hw E. subst vals. rewrite fmap_app in Hnd.
    apply NoDup_app in Hnd as (_ & Hnd & _). apply (Hnd (m_Key w)); [by apply list_elem_of_fmap_2|].
    rewrite E. simpl. set_solver. }
  assert (Hv1 : v ∉ l1) by (intros H; by eapply Hl1).
  destruct (set_path_Ok kv (VRaw (m_Value v)) m) as [m' Hm'].
  { by eapply nested_open. }
  exists m'. split; [unfold nest_row; by rewrite Hkv|].
  assert (Hkne := SmartDotSplit_not_nil _ _ Hkv). split.
  - intros w kw Hw Hkw. apply elem_of_app in Hw as [Hw|Hw%list_elem_of_singleton].
    + rewrite (set_path_get_ne kv kw (VRaw (m_Value v)) m m'); [by eapply nested_get| |done].
      eapply nestable_incomparable; [done|exact Hv| |by apply not_eq_sym, Hl1|done..].
      subst; set_solver.
    + subst w. rewrite Hkv in Hkw. injection Hkw as <-. by eapply set_path_get.
  - intros w kw Hw Hnw Hkw. eapply set_path_open_ne; [|exact Hm'|].
    + eapply nestable_incomparable; [done|exact Hv|exact Hw| |done..].
      intros E. apply (NoDup_fmap_inj_on m_Key vals v w) in E; [|done..]. set_solver.
    + apply (nested_open _ _ _ Hm w); [done| |done]. set_solver.
  - intros p w Hp Hw. destruct (set_path_leaf_inv kv p (VRaw (m_Value v)) w m m' eq_refl Hm' Hp Hw) as [[-> ->]|Hp'].
    + exists v. set_solver.
    + destruct (nested_inv _ _ _ Hm p w Hp' Hw) as (u & ? & ? & ?). exists u. set_solver.
Qed.

Lemma nested_fold vals l2 l1 m :
  nestable vals → NoDup (m_Key <$> vals) → vals = l1 ++ l2 → nested vals l1 m →
  ∃ m', ofold nest_row m l2 = Ok m' ∧ nested vals vals m'.
Proof.
  revert l1 m. induction l2 as [|v l2 IH]; intros l1 m Hn Hnd Ev Hm; simpl.
  - exists m. rewrite app_nil_r in Ev. by subst.
  - destruct (nested_step vals l1 v l2 m) as (m1 & -> & H1); [done..|]. simpl.
    apply (IH (l1 ++ [v])); [done..| |done]. by rewrite <-app_assoc.
Qed.

Lemma nested_empty vals : nested vals [] ∅.
Proof.
  split.
  - intros v kv Hv. by apply elem_of_nil in Hv.
  - intros. apply open_path_empty.
  - intros p w Hp. by rewrite get_path_empty in Hp.
Qed.

(** Once the pre-scan accepts plain keys, the map is built. *)
Lemma MakeHelmConfigMap_nested vals :
  NoDup (m_Key <$> vals) → Forall (λ v, plain_key (m_Key v)) vals →
  Forall (λ v, check_nestable (m_Key <$> vals) v = Ok tt) vals →
  ∃ m, MakeHelmConfigMap vals = Ok m ∧ nested vals vals m.
Proof.
  intros Hnd Hp Hs. unfold MakeHelmConfigMap.
  rewrite (proj2 (ofold_unit_Ok _ _) Hs). simpl.
  apply (nested_fold vals vals []); [|done|done|apply nested_empty].
  rewrite Forall_forall in Hp, Hs. by split.
Qed.

Lemma MakeHelmConfigMap_cases vals :
  NoDup (m_Key <$> vals) → Forall (λ v, plain_key (m_Key v)) vals →
  (∃ e v, v ∈ vals ∧ check_nestable (m_Key <$> vals) v = Err e ∧
     MakeHelmConfigMap vals = Err e) ∨
  (∃ m, MakeHelmConfigMap vals = Ok m ∧ nested vals vals m).
Proof.
  intros Hnd Hp. unfold MakeHelmConfigMap.
  destruct (ofold (λ _ v, check_nestable (m_Key <$> vals) v) tt vals) as [[]|e|s] eqn:E.
  - right. apply MakeHelmConfigMap_nested in Hp; [|done|by apply ofold_unit_Ok].
    unfold MakeHelmConfigMap in Hp. by rewrite E in Hp.
  - left. destruct (ofold_unit_Err _ _ _ E) as (v & Hv & He). by exists e, v.
  - pose proof (ofold_unit_no_panic (check_nestable (m_Key <$> vals)) vals) as H.
    rewrite E in H. discriminate H. apply check_nestable_no_panic.
Qed.

(** ** MergeConfigs *)

(** A fold that inserts the rows passing the filter under their key. *)
Section overlay.
Context {R V : Type} (key : R → string) (val : R → V) (inc : list string).

Definition overlay (m : gmap string V) (l : list R) : gmap string V :=
  foldl (λ m r, if key_included inc (key r) then <[key r := val r]> m else m) m l.

Lemma overlay_lookup m l k :
  overlay m l !! k =
    if key_included inc k
    then match last (filter (λ r, key r = k) l) with Some r => Some (val r) | None => m !! k end
    else m !! k.
Proof.
  unfold overlay. induction l as [|r l IH] using rev_ind; [by case_match|].
  rewrite foldl_app. simpl. rewrite filter_app. simpl.
  rewrite (filter_cons (λ r, key r = k)), filter_nil.
  destruct (decide (key r = k)) as [<-|Hk].
  - rewrite last_snoc. case_match eqn:E; [by rewrite lookup_insert_eq|].
    by rewrite IH.
  - rewrite app_nil_r. destruct (key_included inc (key r)); [|done].
    by rewrite lookup_insert_ne.
Qed.
End overlay.

(** The row [MergeConfigs] keeps for a key: the environment row if there is one,
    else the global row, provided the key passes the filter. *)
Definition merged_row (global : list ConfigurationsGlobal) (env : list ConfigurationsEnvironment)
    (includeKeys : list string) (k : string) : option MergedConfigRow :=
  if key_included includeKeys k then
    match last (filter (λ e, ce_Key e = k) env) with
    | Some e => Some (env_row e)
    | None => global_row <$> last (filter (λ g, cg_Key g = k) global)
    end
  else None.

Lemma merged_row_lookup g e inc k :
  overlay ce_Key env_row inc (overlay cg_Key global_row inc ∅ g) e !! k = merged_row g e inc k.
Proof.
  unfold merged_row. rewrite !overlay_lookup.
  destruct (key_included inc k); [|done].
  destruct (last (filter (λ r, ce_Key r = k) e)); [done|].
  destruct (last (filter (λ r, cg_Key r = k) g)); done.
Qed.

Lemma last_filter_key {R} (key : R → string) l k r :
  last (filter (λ r, key r = k) l) = Some r → key r = k.
Proof. intros H. apply last_Some_elem_of, list_elem_of_filter in H. tauto. Qed.

Lemma merged_row_key g e inc k row : merged_row g e inc k = Some row → m_Key row = k.
Proof.
  unfold merged_row. destruct (key_included inc k); [|done].
  destruct (last (filter (λ r, ce_Key r = k) e)) as [x|] eqn:E.
  - apply last_filter_key in E. intros [= <-]. done.
  - intros H. apply fmap_Some in H as (x & Hx & ->). by apply last_filter_key in Hx.
Qed.

(** The values of a map, when every value holds its key. *)
Lemma map_values_keys {V} (key : V → string) (m : gmap string V) :
  (∀ k v, m !! k = Some v → key v = k) → key <$> map_values m = (map_to_list m).*1.
Proof.
  intros Hk. unfold map_values. rewrite <-list_fmap_compose.
  apply list_fmap_ext. intros i [k v] Hi. simpl. apply Hk.
  apply elem_of_map_to_list. by eapply list_elem_of_lookup_2.
Qed.

Lemma NoDup_map_values_keys {V} (key : V → string) (m : gmap string V) :
  (∀ k v, m !! k = Some v → key v = k) → NoDup (key <$> map_values m).
Proof. intros Hk. rewrite map_values_keys by done. apply NoDup_fst_map_to_list. Qed.

Lemma row_leb_total x y : row_leb x y = true ∨ row_leb y x = true.
Proof. apply leb_total. Qed.
Lemma row_leb_trans x y z : row_leb x y = true → row_leb y z = true → row_leb x z = true.
Proof. apply leb_trans. Qed.
#[export] Hint Resolve row_leb_total row_leb_trans : fasit.

(** Sorting rows with distinct keys does not depend on their order. *)
Lemma isort_rows_unique l1 l2 :
  NoDup (m_Key <$> l1) → l1 ≡ₚ l2 → isort row_leb l1 = isort row_leb l2.
Proof.
  intros Hnd HP.
  apply (StronglySorted_unique_strong (λ x y, row_leb x y = true)).
  - intros x y Hx Hy H1 H2. rewrite elem_of_isort in Hx, Hy.
    apply (NoDup_fmap_inj_on m_Key l1); [done|done|by rewrite HP|].
    by apply String.leb_antisym.
  - apply isort_sorted; eauto with fasit.
  - apply isort_sorted; eauto with fasit.
  - by rewrite !isort_perm.
Qed.

(** C40.  [MergeConfigs] overlays environment rows on global rows: its result holds,
    for each key that passes the filter, the environment row when one exists and
    the global row otherwise, each key once, in ascending order of keys. *)
Theorem MergeConfigs_spec global env includeKeys :
  (∀ row, row ∈ MergeConfigs global env includeKeys ↔
     merged_row global env includeKeys (m_Key row) = Some row) ∧
  NoDup (m_Key <$> MergeConfigs global env includeKeys) ∧
  StronglySorted (λ a b, row_leb a b = true) (MergeConfigs global env includeKeys).
Proof.
  set (m := overlay ce_Key env_row includeKeys (overlay cg_Key global_row includeKeys ∅ global) env).
  assert (Hk : ∀ k v, m !! k = Some v → m_Key v = k).
  { intros k v. unfold m. rewrite merged_row_lookup. apply merged_row_key. }
  change (MergeConfigs global env includeKeys) with (isort row_leb (map_values m)).
  split_and!.
  - intros row. rewrite elem_of_isort, elem_of_map_values, <-merged_row_lookup. fold m.
    split; [|eauto]. intros [k Hm]. by rewrite (Hk _ _ Hm).
  - rewrite isort_perm. by apply NoDup_map_values_keys.
  - apply isort_sorted; eauto with fasit.
Qed.

(** C39.  On rows with distinct keys (as [MergeConfigs] returns them) without backslashes
    [MakeHelmConfigMap] never panics; it fails with the error of a malformed or unnestable
    key or returns a map whose leaves are exactly the rows: the value of each row is found
    at the path its key splits into, and every leaf of the map is the value of a row. *)
Theorem MakeHelmConfigMap_correct vals :
  NoDup (m_Key <$> vals) → Forall (λ v, plain_key (m_Key v)) vals →
  (∃ e v, v ∈ vals ∧ check_nestable (m_Key <$> vals) v = Err e ∧
     MakeHelmConfigMap vals = Err e) ∨
  ∃ m, MakeHelmConfigMap vals = Ok m ∧
    (∀ v, v ∈ vals → ∃ path, SmartDotSplit (m_Key v) = Ok path ∧
       get_path m path = Some (VRaw (m_Value v))) ∧
    (∀ path w, get_path m path = Some w → as_map w = None →
       ∃ v, v ∈ vals ∧ SmartDotSplit (m_Key v) = Ok path ∧ w = VRaw (m_Value v)).
Proof.
  intros Hnd Hp. destruct (MakeHelmConfigMap_cases vals Hnd Hp) as [|(m & Hm & Hn)]; [by left|].
  right. exists m. split; [done|]. split; [|apply (nested_inv _ _ _ Hn)].
  intros v Hv.
  assert (Forall (λ v, check_nestable (m_Key <$> vals) v = Ok tt) vals) as Hs.
  { unfold MakeHelmConfigMap in Hm. apply obind_Ok in Hm as ([] & Hm & _).
    by apply ofold_unit_Ok. }
  rewrite Forall_forall in Hs.
  destruct (proj1 (check_nestable_Ok _ _) (Hs v Hv)) as (kv & Hkv & _).
  exists kv. split; [done|]. by eapply nested_get.
Qed.

Definition example_row (k v : string) : MergedConfigRow :=
  {| m_ID := 1; m_Key := k; m_Value := v; m_Secret := false; m_Created := 0;
     m_EnvironmentID := None |}.

Lemma MakeHelmConfigMap_correct_witness :
  let vals := [example_row "image.tag" "1"; example_row "replicas" "2"] in
  is_Ok (MakeHelmConfigMap vals) = true ∧
  ((∃ e v, v ∈ vals ∧ check_nestable (m_Key <$> vals) v = Err e ∧
     MakeHelmConfigMap vals = Err e) ∨
  ∃ m, MakeHelmConfigMap vals = Ok m ∧
    (∀ v, v ∈ vals → ∃ path, SmartDotSplit (m_Key v) = Ok path ∧
       get_path m path = Some (VRaw (m_Value v))) ∧
    (∀ path w, get_path m path = Some w → as_map w = None →
       ∃ v, v ∈ vals ∧ SmartDotSplit (m_Key v) = Ok path ∧ w = VRaw (m_Value v))).
Proof.
  split; [reflexivity|]. apply MakeHelmConfigMap_correct.
  - apply (bool_decide_unpack _). vm_compute. exact I.
  - repeat constructor.
Defined.

(** Escaped dots defeat the pre-scan: the keys [a\.b] and [a\.b.c] pass it, and
    the type assertion of the second loop then panics on the raw value of the first. *)
Theorem MakeHelmConfigMap_escaped_panics :
  let vals := [example_row "a\.b" "1"; example_row "a\.b.c" "2"] in
  Forall (λ v, check_nestable (m_Key <$> vals) v = Ok tt) vals ∧
  is_Panic (MakeHelmConfigMap vals) = true.
Proof. split; [repeat constructor | reflexivity]. Qed.

(** ** Required fields *)

(** The value at a path is absent or nil. *)
Definition unset (m : gomap) (path : list string) : bool :=
  match get_path m path with None | Some VNil => true | _ => false end.

(** No strict prefix of the path holds a value that is neither nil nor a map. *)
Fixpoint maps_above (m : gomap) (path : list string) : bool :=
  match path with
  | [] | [_] => true
  | k :: ks =>
      match m !! k with
      | Some (VMap m') => maps_above m' ks
      | Some VNil | None => true
      | Some _ => false
      end
  end.

Lemma get_path_unset m k ks :
  ks ≠ [] → (∀ m', m !! k ≠ Some (VMap m')) → unset m (k :: ks) = true.
Proof.
  intros Hks Hm. unfold unset. rewrite get_path_cons by done.
  destruct (m !! k) as [[]|] eqn:E; try done. by destruct (Hm m0).
Qed.

Lemma field_missing_unset m path : field_missing m path = true → unset m path = true.
Proof.
  revert m. induction path as [|k ks IH]; intros m H; [done|].
  destruct ks as [|k' ks]; [unfold unset; simpl in *; by repeat case_match|].
  destruct (m !! k) as [v|] eqn:E; [destruct v|];
    try (apply get_path_unset; [done|]; congruence).
  unfold unset. rewrite get_path_cons, E by done. apply IH. simpl in H. by rewrite E in H.
Qed.

Lemma field_missing_maps m path :
  path ≠ [] → maps_above m path = true → unset m path = true → field_missing m path = true.
Proof.
  revert m. induction path as [|k ks IH]; intros m Hp Ha Hu; [done|].
  destruct ks as [|k' ks]; [unfold unset in Hu; simpl in *; by repeat case_match|].
  simpl in Ha. simpl. unfold unset in Hu. rewrite get_path_cons in Hu by done.
  destruct (m !! k) as [v|] eqn:E; [destruct v|]; simplify_eq; try done.
  by apply (IH m0).
Qed.

Lemma elem_of_RequiredFields f envKind field :
  field ∈ RequiredFields f envKind ↔
  ∃ v, f_Values (f_YAML f) !! field = Some v ∧ (envKind ∉ v_IgnoreKind v) ∧ v_Required v = true.
Proof.
  unfold RequiredFields. rewrite list_elem_of_fmap. split.
  - intros ([k v] & -> & [[??] Hv]%list_elem_of_filter).
    apply elem_of_map_to_list in Hv. by exists v.
  - intros (v & Hv & ? & ?). exists (field, v). split; [done|].
    apply list_elem_of_filter. split; [done|]. by apply elem_of_map_to_list.
Qed.

Lemma elem_of_ValidateFields f envKind values mp field :
  field ∈ ValidateFields f envKind values mp ↔
  field ∈ RequiredFields f envKind ∧ (field ∉ m_Key <$> values) ∧
  field_missing mp (split_or_nil field) = true.
Proof.
  unfold ValidateFields. rewrite elem_of_sort_strings, list_elem_of_filter. tauto.
Qed.

(** [ValidateFields] reports, in ascending order and each once, required fields of
    the feature that the kind of environment does not ignore, that no configuration
    row sets, and whose path in the rendered values is absent or nil; it reports
    every such field whose path does not run through a scalar. *)
Theorem ValidateFields_spec f envKind values mp :
  let missing := ValidateFields f envKind values mp in
  let required field := ∃ v, f_Values (f_YAML f) !! field = Some v ∧
    (envKind ∉ v_IgnoreKind v) ∧ v_Required v = true in
  StronglySorted (λ a b, String.leb a b = true) missing ∧
  NoDup missing ∧
  (∀ field, field ∈ missing →
     required field ∧ (field ∉ m_Key <$> values) ∧
     ∃ path, SmartDotSplit field = Ok path ∧ unset mp path = true) ∧
  (∀ field path, required field → field ∉ m_Key <$> values →
     SmartDotSplit field = Ok path → maps_above mp path = true → unset mp path = true →
     field ∈ missing).
Proof.
  cbv zeta. split_and!.
  - unfold ValidateFields, sort_strings. apply isort_sorted; [apply leb_total|apply leb_trans].
  - unfold ValidateFields, sort_strings, RequiredFields. rewrite isort_perm.
    apply NoDup_filter, (NoDup_fmap_filter fst), NoDup_fst_map_to_list.
  - intros field (Hr & Hv & Hm)%elem_of_ValidateFields.
    split; [by apply elem_of_RequiredFields|]. split; [done|].
    unfold split_or_nil in Hm. destruct (SmartDotSplit field) eqn:E; try done.
    eexists. split; [done|]. by apply field_missing_unset.
  - intros field path Hr Hv Hs Ha Hu. apply elem_of_ValidateFields.
    split; [by apply elem_of_RequiredFields|]. split; [done|].
    unfold split_or_nil. rewrite Hs. apply field_missing_maps; [|done..].
    by apply SmartDotSplit_not_nil in Hs.
Qed.

(** The loop looks the component after a scalar up in the same map, so an unset
    field below a scalar can be taken for set, or a set one be the wrong one. *)
Theorem field_missing_scalar_quirk :
  let mp : gomap := {["a" := VStr "x"; "b" := VStr "y"]} in
  unset mp ["a"; "b"] = true ∧ field_missing mp ["a"; "b"] = false.
Proof. split; reflexivity. Qed.

(** ** Dependencies *)

Lemma anyof_missing_nil features acc anyOf :
  anyof_missing features acc anyOf = [] ↔
  (acc = [] ∧ anyOf = []) ∨ Exists (.∈ features) anyOf.
Proof.
  revert acc. induction anyOf as [|x l IH]; intros acc; simpl.
  - split; [by left|]. intros [[]|H]; [done|by inversion H].
  - rewrite Exists_cons. case_bool_decide as Hx; [tauto|].
    rewrite IH. split; [|naive_solver]. intros [[H _]|H]; [by destruct acc|tauto].
Qed.

Definition satisfied (features : list string) (d : Dependency) : Prop :=
  Forall (.∈ features) (AllOf d) ∧ (AnyOf d = [] ∨ Exists (.∈ features) (AnyOf d)).

Lemma Dependency_FindMissing_nil d features :
  Dependency_FindMissing d features = [] ↔ satisfied features d.
Proof.
  unfold Dependency_FindMissing, satisfied. rewrite app_nil, anyof_missing_nil.
  split; intros [H1 H2]; split.
  - apply Forall_forall. intros x Hx. destruct (decide (x ∈ features)); [done|].
    assert (x ∈ filter (.∉ features) (AllOf d)) as Hf by by apply list_elem_of_filter.
    rewrite H1 in Hf. by apply elem_of_nil in Hf.
  - tauto.
  - apply elem_of_nil_inv. intros x [Hx Hin]%list_elem_of_filter.
    rewrite Forall_forall in H1. by apply Hx, H1.
  - naive_solver.
Qed.

Lemma FindMissing_nil ds features : FindMissing ds features = [] ↔ Forall (satisfied features) ds.
Proof.
  unfold FindMissing. induction ds as [|d ds IH]; simpl; [by split; constructor|].
  by rewrite app_nil, Forall_cons, IH, Dependency_FindMissing_nil.
Qed.
