(* ===== verification/Render.v ===== *)
(** * internal/feature/computed.go and RenderHelmValues of internal/feature/queries.go

    Computed values: each value of a feature that has a template is rendered and
    placed into the map of configured values unless the configuration already set
    it; then the [fasit] block is added and required fields are checked.

    The template engine (text/template with the sprig functions), yaml.v3,
    encoding/json and crypto/sha256 are parameters, gathered in the class
    [External].  Executing a template may change the values it is given (sprig has
    [set] and [unset]), so [template_execute] returns them; the theorems that need
    templates without such effects say so ([pure_templates]). *)

From S2P Require Export FeatureFacts.

Record ComputedValues := {
  cv_Kind : EnvironmentKind;
  cv_Tenant : string;                 (* Tenant.Name *)
  cv_Fasit : string;                  (* Fasit.IAPAudience *)
  cv_Management : option gomap;       (* nil or a map *)
  cv_Env : option gomap;
  cv_Envs : list gomap;
  cv_Configs : option gomap;
}.

Class External := {
  template_execute : ComputedValues → string → outcome (string * ComputedValues);
  yaml_Unmarshal : string → outcome gval;
  json_Marshal : gomap → outcome string;
  json_Unmarshal : string → outcome gval;
  sha256_hex : string → string;
}.

Section render.
Context `{ext : External}.

(** Keys of [map[any]any] that are not strings make the type assertion panic. *)
Fixpoint repairMapAny (v : gval) : outcome gval :=
match v with
| VList l =>
    let! l' := (fix go (l : list gval) : outcome (list gval) :=
                  match l with
                  | [] => Ok []
                  | x :: l => let! x' := repairMapAny x in let! l' := go l in Ok (x' :: l')
                  end) l in
    Ok (VList l')
| VAnyMap kvs =>
    let! nm := (fix go (kvs : list (gval * gval)) (nm : gomap) : outcome gomap :=
                  match kvs with
                  | [] => Ok nm
                  | (VStr k, x) :: kvs => let! x' := repairMapAny x in go kvs (<[k := x']> nm)
                  | _ :: _ => Panic "interface conversion: interface {} is not string"
                  end) kvs ∅ in
    Ok (VMap nm)
| v => Ok v
end.

Definition renderTemplate (values : ComputedValues) (tpl : string)
  : outcome (gval * ComputedValues) :=
if bool_decide (tpl = "") then Err (ErrString "empty template")
else
  let! (rdr, values) := template_execute values tpl in
  let! v := yaml_Unmarshal rdr in
  let! v := repairMapAny v in
  Ok (v, values).

Fixpoint addToMap (key : list string) (target : gomap) (values : ComputedValues)
  (v : string) : outcome (gomap * ComputedValues) :=
match key with
| [] => let! _ := wrap "" (renderTemplate values v) in Panic "index out of range [0]"
| [k] =>
    let! (val, values) := wrap k (renderTemplate values v) in
    match target !! k with
    | Some _ => Ok (target, values)
    | None => Ok (<[k := val]> target, values)
    end
| k :: ks =>
    match target !! k with
    | None => let! (t, values) := addToMap ks ∅ values v in Ok (<[k := VMap t]> target, values)
    | Some (VMap t) =>
        let! (t, values) := addToMap ks t values v in Ok (<[k := VMap t]> target, values)
    | Some _ => Err (ErrString ("key " +:+ (k +:+ " is not nestable")))
    end
end.

(** A deep copy through JSON; the errors of both calls are discarded. *)
Definition copyMap (m : option gomap) : gomap :=
match m with
| None => ∅
| Some m =>
    match json_Marshal m with
    | Ok b => match json_Unmarshal b with Ok (VMap ret) => ret | _ => ∅ end
    | _ => ∅
    end
end.

Definition with_Configs (values : ComputedValues) (m : gomap) : ComputedValues :=
{| cv_Kind := cv_Kind values; cv_Tenant := cv_Tenant values; cv_Fasit := cv_Fasit values;
   cv_Management := cv_Management values; cv_Env := cv_Env values;
   cv_Envs := cv_Envs values; cv_Configs := Some m |}.

(** One turn of the loop of [GenerateWith]. *)
Definition generate_one (kind : EnvironmentKind) (st : gomap * ComputedValues)
  (kv : string * Value) : outcome (gomap * ComputedValues) :=
match v_Computed kv.2 with
| None => Ok st
| Some c =>
    if bool_decide (kind ∈ v_IgnoreKind kv.2) then Ok st
    else
      let! keys := SmartDotSplit kv.1 in
      addToMap keys st.1 st.2 (Template c)
end.

(** [vals] lists the entries of the map of values in the order its [range] visits
  them; the source leaves that order open. *)
Definition GenerateWith (vals : list (string * Value)) (kind : EnvironmentKind)
  (values : ComputedValues) (target : gomap) : outcome (gomap * ComputedValues) :=
ofold (generate_one kind) (target, with_Configs values (copyMap (Some target))) vals.

Record HelmRenderData := {
MV : ComputedValues;
EnvKind : EnvironmentKind;
ConfigVals : list MergedConfigRow;
ConfigMap : gomap;
}.

Definition fasit_block (tenant envName : string) (kind : EnvironmentKind) : gval :=
VMap {[ "tenant" := VStrMap {[ "name" := tenant ]};
        "env" := VStrMap {[ "name" := envName; "kind" := kind ]} ]}.

Definition RenderHelmValues (order : list (string * Value)) (data : HelmRenderData)
  (f : Feature) (validate : bool) : outcome gomap :=
let! (mp, mv) := GenerateWith order (EnvKind data) (MV data) (ConfigMap data) in
match default ∅ (cv_Env mv) !! "name" with
| Some (VStr name) =>
    let mp := <["fasit" := fasit_block (cv_Tenant mv) name (EnvKind data)]> mp in
    if validate then
      match ValidateFields f (EnvKind data) (ConfigVals data) mp with
      | [] => Ok mp
      | missing => Err (ErrMissingRequiredFields missing)
      end
    else Ok mp
| _ => Panic "interface conversion: interface {} is not string"
end.

(** ** What rendering does *)

(** Templates do not change the values they read. *)
Definition pure_templates : Prop :=
∀ values tpl r values', template_execute values tpl = Ok (r, values') → values' = values.

(** The paths the templates of [vals] write for environments of [kind]. *)
Definition computed_path (kind : EnvironmentKind) (kv : string * Value) : option (list string) :=
match v_Computed kv.2 with
| None => None
| Some _ =>
    if bool_decide (kind ∈ v_IgnoreKind kv.2) then None
    else match SmartDotSplit kv.1 with Ok p => Some p | _ => None end
end.

(** No two entries write the same path or a path below the other's. *)
Definition computed_disjoint (kind : EnvironmentKind) (l : list (string * Value)) : Prop :=
∀ a b p q, a ∈ l → b ∈ l → a ≠ b →
  computed_path kind a = Some p → computed_path kind b = Some q → incomparable p q.

(** [addToMap] adds at one path and keeps what is there. *)
Lemma renderTemplate_pure values tpl v values' :
pure_templates → renderTemplate values tpl = Ok (v, values') → values' = values.
Proof.
intros Hp H. unfold renderTemplate in H. case_bool_decide; [done|]. inv_ok.
destruct x as [r v']. inv_ok. simplify_eq. by eapply Hp.
Qed.

Lemma addToMap_cons k ks target values v :
ks ≠ [] →
addToMap (k :: ks) target values v =
  match target !! k with
  | None => let! (t, values) := addToMap ks ∅ values v in Ok (<[k := VMap t]> target, values)
  | Some (VMap t) =>
      let! (t, values) := addToMap ks t values v in Ok (<[k := VMap t]> target, values)
  | Some _ => Err (ErrString ("key " +:+ (k +:+ " is not nestable")))
  end.
Proof. by destruct ks. Qed.

(** The shape of a successful [addToMap] over a path of two components or more. *)
Lemma addToMap_cons_inv k ks m values v m' values' :
ks ≠ [] → addToMap (k :: ks) m values v = Ok (m', values') →
∃ t t', (m !! k = Some (VMap t) ∨ (m !! k = None ∧ t = ∅)) ∧
  addToMap ks t values v = Ok (t', values') ∧ m' = <[k := VMap t']> m.
Proof.
intros Hks H. rewrite addToMap_cons in H by done.
destruct (m !! k) as [[]|] eqn:E; try done; inv_ok; destruct x as [t' vs]; inv_ok;
  simplify_eq; naive_solver.
Qed.

Lemma addToMap_cons_Ok k ks t m values v t' values' :
ks ≠ [] → m !! k = Some (VMap t) ∨ (m !! k = None ∧ t = ∅) →
addToMap ks t values v = Ok (t', values') →
addToMap (k :: ks) m values v = Ok (<[k := VMap t']> m, values').
Proof.
intros Hks [Hk|[Hk ->]] H; rewrite addToMap_cons, Hk, H by done; done.
Qed.

Lemma addToMap_pure key m values v m' values' :
pure_templates → addToMap key m values v = Ok (m', values') → values' = values.
Proof.
intros Hp. revert m m'. induction key as [|k ks IH]; intros m m' H.
{ simpl in H. by inv_ok. }
destruct (decide (ks = [])) as [->|Hks].
- simpl in H. inv_ok. destruct x as [val vs].
  destruct (renderTemplate values v) as [[]| |] eqn:E; simplify_eq/=.
  apply renderTemplate_pure in E; [|done]. by repeat case_match; simplify_eq.
- apply addToMap_cons_inv in H as (t & t' & _ & H & _); [|done]. by eapply IH.
Qed.

(** At a single key, the outcome is the rendered value unless the key is set. *)
Lemma addToMap_one_inv k m values v m' values' :
addToMap [k] m values v = Ok (m', values') →
∃ val, renderTemplate values v = Ok (val, values') ∧
  m' = match m !! k with Some _ => m | None => <[k := val]> m end.
Proof.
simpl. intros H. inv_ok. destruct x as [val vs].
destruct (renderTemplate values v) as [[]| |] eqn:E; simplify_eq/=.
exists val. by case_match; simplify_eq.
Qed.

Lemma addToMap_one_Ok k m values v val values' :
renderTemplate values v = Ok (val, values') →
addToMap [k] m values v =
  Ok (match m !! k with Some _ => m | None => <[k := val]> m end, values').
Proof. intros H. simpl. rewrite H. simpl. by case_match. Qed.

(** [addToMap] reads and writes its map only at the first component of the path. *)
Lemma addToMap_local k ks m values v m' values' :
addToMap (k :: ks) m values v = Ok (m', values') →
∃ x, m' = <[k := x]> m ∧
  ∀ n, n !! k = m !! k → addToMap (k :: ks) n values v = Ok (<[k := x]> n, values').
Proof.
intros H. destruct (decide (ks = [])) as [->|Hks].
- apply addToMap_one_inv in H as (val & Hr & ->).
  exists (default val (m !! k)). split.
  { destruct (m !! k) eqn:E; simpl; [by rewrite insert_id|done]. }
  intros n Hn. rewrite (addToMap_one_Ok k n values v val values') by done. rewrite Hn.
  destruct (m !! k) eqn:E; simpl; [by rewrite insert_id|done].
- apply addToMap_cons_inv in H as (t & t' & Ht & H & ->); [|done].
  exists (VMap t'). split; [done|]. intros n Hn.
  apply (addToMap_cons_Ok k ks t); [done| |done]. by rewrite Hn.
Qed.

(** Writes at incomparable paths commute. *)
Lemma addToMap_comm p q m values v w m1 m2 :
incomparable p q →
addToMap p m values v = Ok (m1, values) → addToMap q m1 values w = Ok (m2, values) →
∃ m1', addToMap q m values w = Ok (m1', values) ∧ addToMap p m1' values v = Ok (m2, values).
Proof.
revert q m m1 m2. induction p as [|k ks IH]; intros q m m1 m2 Hi H1 H2;
  [by apply not_incomparable_nil in Hi|].
destruct q as [|j js]; [by apply not_incomparable_nil_r in Hi|].
destruct (decide (k = j)) as [<-|Hkj].
- apply incomparable_cons in Hi.
  assert (ks ≠ []) by (intros ->; by apply not_incomparable_nil in Hi).
  assert (js ≠ []) by (intros ->; by apply not_incomparable_nil_r in Hi).
  apply addToMap_cons_inv in H1 as (t & t1 & Ht & H1 & ->); [|done].
  apply addToMap_cons_inv in H2 as (t1' & t2 & Ht1 & H2 & ->); [|done].
  rewrite lookup_insert_eq in Ht1. destruct Ht1 as [[= <-]|[? _]]; [|done].
  destruct (IH _ _ _ _ Hi H1 H2) as (t3 & Hq & Hp).
  exists (<[k := VMap t3]> m). split.
  + by apply (addToMap_cons_Ok k js t).
  + rewrite (addToMap_cons_Ok k ks t3 _ values v t2 values); [|done| |done].
    * by rewrite !insert_insert_eq.
    * left. by rewrite lookup_insert_eq.
- apply addToMap_local in H1 as (x & -> & H1). apply addToMap_local in H2 as (y & -> & H2).
  exists (<[j := y]> m). split.
  + apply H2. by rewrite lookup_insert_ne.
  + rewrite H1 by by rewrite lookup_insert_ne. by rewrite insert_insert_ne.
Qed.

(** The leaf holds the rendered value unless something was there before. *)
Lemma addToMap_get p m values v m' values' :
addToMap p m values v = Ok (m', values') →
∃ val, renderTemplate values v = Ok (val, values') ∧
  get_path m' p = Some (default val (get_path m p)).
Proof.
revert m m'. induction p as [|k ks IH]; intros m m' H; [simpl in H; by inv_ok|].
destruct (decide (ks = [])) as [->|Hks].
- apply addToMap_one_inv in H as (val & Hr & ->). exists val. split; [done|]. simpl.
  destruct (m !! k) eqn:E; [done|]. by rewrite lookup_insert_eq.
- apply addToMap_cons_inv in H as (t & t' & Ht & H & ->); [|done].
  destruct (IH _ _ H) as (val & Hr & Hg). exists val. split; [done|].
  rewrite !get_path_cons, lookup_insert_eq by done. rewrite Hg. f_equal. f_equal.
  destruct Ht as [->|[-> ->]]; [done|]. by rewrite get_path_empty.
Qed.

Lemma addToMap_get_ne p q m values v m' values' :
incomparable p q → addToMap p m values v = Ok (m', values') →
get_path m' q = get_path m q.
Proof.
revert q m m'. induction p as [|k ks IH]; intros q m m' Hi H; [simpl in H; by inv_ok|].
destruct q as [|j js]; [by apply not_incomparable_nil_r in Hi|].
destruct (decide (k = j)) as [<-|Hkj].
- apply incomparable_cons in Hi.
  assert (ks ≠ []) by (intros ->; by apply not_incomparable_nil in Hi).
  assert (js ≠ []) by (intros ->; by apply not_incomparable_nil_r in Hi).
  apply addToMap_cons_inv in H as (t & t' & Ht & H & ->); [|done].
  rewrite !get_path_cons, lookup_insert_eq by done. rewrite (IH _ _ _ Hi H).
  destruct Ht as [->|[-> ->]]; [done|]. by rewrite get_path_empty.
- apply addToMap_local in H as (x & -> & _).
  destruct (decide (js = [])) as [->|].
  + simpl. by rewrite lookup_insert_ne.
  + by rewrite !get_path_cons, lookup_insert_ne by done.
Qed.

(** ** The loop of GenerateWith *)

Lemma generate_one_inv kind m values kv m' values' :
generate_one kind (m, values) kv = Ok (m', values') →
(computed_path kind kv = None ∧ m' = m ∧ values' = values) ∨
∃ c p, v_Computed kv.2 = Some c ∧ computed_path kind kv = Some p ∧
  addToMap p m values (Template c) = Ok (m', values').
Proof.
unfold generate_one, computed_path. destruct (v_Computed kv.2) as [c|]; [|naive_solver].
case_bool_decide as Hk; [naive_solver|]. simpl. intros H. inv_ok.
destruct (SmartDotSplit kv.1) eqn:E; naive_solver.
Qed.

Lemma generate_one_Some kind m values kv c p :
v_Computed kv.2 = Some c → computed_path kind kv = Some p →
generate_one kind (m, values) kv = addToMap p m values (Template c).
Proof.
unfold generate_one, computed_path. intros -> H. case_bool_decide as Hk; [done|].
destruct (SmartDotSplit kv.1); by simplify_eq/=.
Qed.

Lemma generate_one_None kind m values kv r :
computed_path kind kv = None →
generate_one kind (m, values) kv = Ok r → r = (m, values).
Proof.
intros Hc H. destruct r as [m' values'].
apply generate_one_inv in H as [(_ & -> & ->)|(c & p & _ & Hp & _)]; congruence.
Qed.

Lemma generate_one_pure kind m values kv m' values' :
pure_templates → generate_one kind (m, values) kv = Ok (m', values') → values' = values.
Proof.
intros Hp H. apply generate_one_inv in H as [(_ & _ & ->)|(c & p & _ & _ & H)]; [done|].
by eapply addToMap_pure.
Qed.

Lemma generate_one_comm kind m values a b m1 m2 :
pure_templates →
(∀ p q, computed_path kind a = Some p → computed_path kind b = Some q → incomparable p q) →
generate_one kind (m, values) a = Ok (m1, values) →
generate_one kind (m1, values) b = Ok (m2, values) →
∃ m1', generate_one kind (m, values) b = Ok (m1', values) ∧
  generate_one kind (m1', values) a = Ok (m2, values).
Proof.
intros Hpure Hd Ha Hb.
assert (Hn : ∀ x m m', generate_one kind (m, values) x = Ok (m', values) →
  computed_path kind x = None → ∀ n, generate_one kind (n, values) x = Ok (n, values)).
{ unfold generate_one, computed_path. intros x n n' H Hx ?. destruct (v_Computed x.2); [|done].
  case_bool_decide; [done|]. by destruct (SmartDotSplit x.1). }
destruct (generate_one_inv _ _ _ _ _ _ Ha) as [(Hca & -> & _)|(ca & p & Hca & Hpa & Ha')].
{ exists m2. split; [done|]. by eapply Hn. }
destruct (generate_one_inv _ _ _ _ _ _ Hb) as [(Hcb & -> & _)|(cb & q & Hcb & Hqb & Hb')].
{ exists m. split; [by eapply Hn|done]. }
destruct (addToMap_comm _ _ _ _ _ _ _ _ (Hd _ _ Hpa Hqb) Ha' Hb') as (m3 & H3 & H4).
exists m3. by rewrite (generate_one_Some kind m values b cb q), (generate_one_Some kind m3 values a ca p).
Qed.

Lemma computed_disjoint_perm kind l1 l2 :
l1 ≡ₚ l2 → computed_disjoint kind l1 → computed_disjoint kind l2.
Proof. intros HP Hd a b p q Ha Hb. rewrite <-HP in Ha, Hb. by apply Hd. Qed.

Lemma computed_disjoint_tail kind x l : computed_disjoint kind (x :: l) → computed_disjoint kind l.
Proof. intros Hd a b p q Ha Hb. apply Hd; by right. Qed.

Lemma generate_fold_pure kind l m values m' values' :
pure_templates → ofold (generate_one kind) (m, values) l = Ok (m', values') → values' = values.
Proof.
intros Hp. revert m. induction l as [|x l IH]; simpl; intros m H; [by simplify_eq|].
inv_ok. destruct x0 as [m1 v1]. pose proof (generate_one_pure _ _ _ _ _ _ Hp H0); subst v1. by eapply IH.
Qed.

Lemma generate_fold_perm kind l1 l2 m values m' :
pure_templates → NoDup l1 → computed_disjoint kind l1 → l1 ≡ₚ l2 →
ofold (generate_one kind) (m, values) l1 = Ok (m', values) →
ofold (generate_one kind) (m, values) l2 = Ok (m', values).
Proof.
intros Hpure Hnd Hd HP. revert m Hnd Hd.
induction HP as [|x l1 l2 HP IH|x y l|l1 l2 l3 HP1 IH1 HP2 IH2]; intros m Hnd Hd H; [done|..].
- simpl in *. inv_ok. destruct x0 as [m1 v1]. apply NoDup_cons in Hnd as [_ Hnd].
  pose proof (generate_one_pure _ _ _ _ _ _ Hpure H0); subst v1. rewrite H0. simpl.
  apply IH; [done|by eapply computed_disjoint_tail|done].
- simpl in H |- *. inv_ok. destruct x0 as [m1 v1], x1 as [m2 v2].
  pose proof (generate_one_pure _ _ _ _ _ _ Hpure H0); subst v1.
  pose proof (generate_one_pure _ _ _ _ _ _ Hpure H1); subst v2.
  apply NoDup_cons in Hnd as [Hx _].
  destruct (generate_one_comm kind m values y x m1 m2) as (m3 & H3 & H4); [done| |done|done|].
  { intros p q. apply Hd; [by left|by right; left|]. intros ->. apply Hx. by left. }
  rewrite H3. simpl. rewrite H4. done.
- apply IH2; [by rewrite <-HP1|by eapply computed_disjoint_perm|].
  by apply IH1.
Qed.

(** What the loop leaves at a computed path and at the paths it does not touch. *)
Lemma generate_fold_get_ne kind l m values m' values' q :
(∀ kv p, kv ∈ l → computed_path kind kv = Some p → incomparable p q) →
ofold (generate_one kind) (m, values) l = Ok (m', values') →
get_path m' q = get_path m q.
Proof.
revert m values. induction l as [|x l IH]; simpl; intros m values Hq H; [by simplify_eq|].
inv_ok. destruct x0 as [m1 v1].
rewrite (IH m1 v1); [|intros; eapply Hq; [by right|done]|done].
apply generate_one_inv in H0 as [(_ & -> & _)|(c & p & _ & Hp & H0)]; [done|].
eapply addToMap_get_ne; [|done]. eapply Hq; [by left|done].
Qed.

Lemma generate_fold_get kind l m values m' kv c p :
pure_templates → NoDup l → computed_disjoint kind l → kv ∈ l →
v_Computed kv.2 = Some c → computed_path kind kv = Some p →
ofold (generate_one kind) (m, values) l = Ok (m', values) →
∃ val, renderTemplate values (Template c) = Ok (val, values) ∧
  get_path m' p = Some (default val (get_path m p)).
Proof.
intros Hpure Hnd Hd Hkv Hc Hp H.
apply elem_of_Permutation in Hkv as [l' HP].
assert (Hnd' : NoDup (kv :: l')) by by rewrite <-HP.
assert (Hd' : computed_disjoint kind (kv :: l')) by by eapply computed_disjoint_perm.
apply (generate_fold_perm kind l (kv :: l') m values m') in H; [|done..].
simpl in H. apply obind_Ok in H as ([m1 v1] & H0 & H).
pose proof (generate_one_pure _ _ _ _ _ _ Hpure H0); subst v1.
rewrite (generate_one_Some kind m values kv c p) in H0 by done.
destruct (addToMap_get _ _ _ _ _ _ H0) as (val & Hr & Hg). exists val. split; [done|].
rewrite <-Hg. eapply generate_fold_get_ne; [|done].
intros kv' q Hin Hq. apply NoDup_cons in Hnd' as [Hn _].
apply (Hd' kv' kv); [by right|by left|by intros ->|done|done].
Qed.

Lemma GenerateWith_perm vals l1 l2 kind values target r :
pure_templates → l1 ≡ₚ map_to_list vals → l2 ≡ₚ map_to_list vals →
computed_disjoint kind (map_to_list vals) →
GenerateWith l1 kind values target = Ok r → GenerateWith l2 kind values target = Ok r.
Proof.
intros Hpure H1 H2 Hd H. destruct r as [m v]. unfold GenerateWith in *.
pose proof (generate_fold_pure _ _ _ _ _ _ Hpure H). subst v.
apply (generate_fold_perm kind l1); [done| | |by rewrite H1, H2|done].
- rewrite H1. apply NoDup_map_to_list.
- by eapply computed_disjoint_perm.
Qed.

(** The order in which [GenerateWith] visits the map of values does not matter when
  templates do not change the values they read and no computed key is another's
  prefix: if it succeeds in one order, then [RenderHelmValues] has the same outcome
  in every order, be it a map, missing fields or a panic. *)
Theorem RenderHelmValues_order l1 l2 data f validate r :
pure_templates →
l1 ≡ₚ map_to_list (f_Values (f_YAML f)) → l2 ≡ₚ map_to_list (f_Values (f_YAML f)) →
computed_disjoint (EnvKind data) (map_to_list (f_Values (f_YAML f))) →
GenerateWith l1 (EnvKind data) (MV data) (ConfigMap data) = Ok r →
RenderHelmValues l1 data f validate = RenderHelmValues l2 data f validate.
Proof.
intros Hpure H1 H2 Hd H. unfold RenderHelmValues.
by rewrite H, (GenerateWith_perm _ _ _ _ _ _ _ Hpure H1 H2 Hd H).
Qed.

(** The map [GenerateWith] returns: at the path of each computed value that the
  kind does not ignore, what the configuration had there if anything, else the
  rendered template; at paths unrelated to every computed one, what was there. *)
Theorem GenerateWith_spec vals kind values target m values' :
pure_templates → computed_disjoint kind (map_to_list vals) →
GenerateWith (map_to_list vals) kind values target = Ok (m, values') →
(∀ k v c p, vals !! k = Some v → v_Computed v = Some c → kind ∉ v_IgnoreKind v →
   SmartDotSplit k = Ok p →
   ∃ val, renderTemplate values' (Template c) = Ok (val, values') ∧
     get_path m p = Some (default val (get_path target p))) ∧
(∀ q, (∀ k v p, vals !! k = Some v → computed_path kind (k, v) = Some p → incomparable p q) →
   get_path m q = get_path target q).
Proof.
intros Hpure Hd H. unfold GenerateWith in H.
pose proof (generate_fold_pure _ _ _ _ _ _ Hpure H). subst values'. split.
- intros k v c p Hk Hc Hi Hs. eapply (generate_fold_get kind _ _ _ _ (k, v)); try done.
  + apply NoDup_map_to_list.
  + by apply elem_of_map_to_list.
  + unfold computed_path. simpl. rewrite Hc, Hs. by rewrite bool_decide_false.
- intros q Hq. eapply generate_fold_get_ne; [|done].
  intros [k v] p Hin. apply Hq. by apply elem_of_map_to_list in Hin.
Qed.

(** *** What is configured stays *)

Lemma get_path_insert_ne (m : gomap) k x q : head q ≠ Some k → get_path (<[k := x]> m) q = get_path m q.
Proof.
destruct q as [|j js]; [done|]. simpl. intros Hj.
assert (j ≠ k) by congruence. by rewrite lookup_insert_ne.
Qed.

(** A value that is no map is kept wherever it is. *)
Lemma addToMap_keeps p q m values v m' values' w :
(∀ t, w ≠ VMap t) → get_path m q = Some w →
addToMap p m values v = Ok (m', values') → get_path m' q = Some w.
Proof.
intros Hw. revert q m m'. induction p as [|k ks IH]; intros q m m' Hq H; [simpl in H; by inv_ok|].
destruct q as [|j js]; [done|]. destruct (decide (j = k)) as [->|Hj].
- destruct (decide (ks = [])) as [->|Hks].
  { apply addToMap_one_inv in H as (val & _ & ->).
    destruct (m !! k) eqn:E; [done|]. simpl in Hq. rewrite E in Hq. by destruct js. }
  apply addToMap_cons_inv in H as (t & t' & Ht & H & ->); [|done].
  destruct (decide (js = [])) as [->|Hjs].
  + simpl in Hq. destruct Ht as [Ht|[Ht _]]; rewrite Ht in Hq; [|done]. injection Hq as <-. by destruct (Hw t).
  + rewrite get_path_cons in Hq |- * by done. rewrite lookup_insert_eq.
    destruct Ht as [Ht|[Ht _]]; rewrite Ht in Hq; [|done]. by eapply IH.
- apply addToMap_local in H as (x & -> & _). rewrite get_path_insert_ne; [done|]. simpl. congruence.
Qed.

Lemma generate_fold_keeps kind l q m values m' values' w :
(∀ t, w ≠ VMap t) → get_path m q = Some w →
ofold (generate_one kind) (m, values) l = Ok (m', values') → get_path m' q = Some w.
Proof.
intros Hw. revert m values. induction l as [|x l IH]; simpl; intros m values Hq H; [by simplify_eq|].
apply obind_Ok in H as ([m1 v1] & H0 & H). apply (IH m1 v1); [|done].
apply generate_one_inv in H0 as [(_ & -> & _)|(c & p & _ & _ & H0)]; [done|].
by eapply addToMap_keeps.
Qed.

(** What no required field of [ValidateFields] leaves open. *)
Lemma ValidateFields_set f envKind values mp k v p :
ValidateFields f envKind values mp = [] →
f_Values (f_YAML f) !! k = Some v → envKind ∉ v_IgnoreKind v → v_Required v = true →
k ∉ m_Key <$> values → SmartDotSplit k = Ok p → maps_above mp p = true → unset mp p = false.
Proof.
intros Hnil Hv Hi Hr Hk Hs Ha. apply not_true_iff_false. intros Hu.
assert (k ∈ ValidateFields f envKind values mp) as Hin; [|rewrite Hnil in Hin; by apply elem_of_nil in Hin].
apply elem_of_ValidateFields. split; [apply elem_of_RequiredFields; by exists v|]. split; [done|].
unfold split_or_nil. rewrite Hs. apply field_missing_maps; [|done..]. by apply SmartDotSplit_not_nil in Hs.
Qed.

(** C15.  The values a chart is installed with, when the rendering succeeds for a feature
  whose computed keys do not overlap, with templates that do not change the values they
  read and configuration keys without backslashes: under [fasit] stand the tenant, the
  environment and its kind whatever the configuration and the templates put there; apart
  from that the value of every configuration row stands at the row's path; each computed
  value that the environment's kind does not ignore and that nothing was configured for
  is its rendered template, at its path; and every required key that the kind does not
  ignore and that no configuration row sets has a value other than nil at its path,
  unless the path runs through a value that is no map. *)
Theorem RenderHelmValues_spec order data f mp :
pure_templates →
order ≡ₚ map_to_list (f_Values (f_YAML f)) →
computed_disjoint (EnvKind data) (map_to_list (f_Values (f_YAML f))) →
NoDup (m_Key <$> ConfigVals data) → Forall (λ v, plain_key (m_Key v)) (ConfigVals data) →
MakeHelmConfigMap (ConfigVals data) = Ok (ConfigMap data) →
RenderHelmValues order data f true = Ok mp →
(∃ name, default ∅ (cv_Env (MV data)) !! "name" = Some (VStr name) ∧
   mp !! "fasit" = Some (fasit_block (cv_Tenant (MV data)) name (EnvKind data))) ∧
(∀ row path, row ∈ ConfigVals data → SmartDotSplit (m_Key row) = Ok path → head path ≠ Some "fasit" →
   get_path mp path = Some (VRaw (m_Value row))) ∧
(∀ k v c path, f_Values (f_YAML f) !! k = Some v → v_Computed v = Some c →
   EnvKind data ∉ v_IgnoreKind v → SmartDotSplit k = Ok path → head path ≠ Some "fasit" →
   get_path (ConfigMap data) path = None →
   ∃ val, let values := with_Configs (MV data) (copyMap (Some (ConfigMap data))) in
     renderTemplate values (Template c) = Ok (val, values) ∧ get_path mp path = Some val) ∧
(∀ k v path, f_Values (f_YAML f) !! k = Some v → v_Required v = true →
   EnvKind data ∉ v_IgnoreKind v → k ∉ m_Key <$> ConfigVals data → SmartDotSplit k = Ok path →
   maps_above mp path = true → unset mp path = false).
Proof.
intros Hpure HP Hd Hnd Hplain Hcfg H. unfold RenderHelmValues in H.
apply obind_Ok in H as ([m mv] & Hg & H). unfold GenerateWith in Hg.
pose proof (generate_fold_pure _ _ _ _ _ _ Hpure Hg). subst mv. cbn [cv_Env cv_Tenant with_Configs] in H.
destruct (default ∅ (cv_Env (MV data)) !! "name") as [[]|] eqn:En; try done.
destruct (ValidateFields _ _ _ _) eqn:Ev; [|done]. injection H as <-. split_and!.
- exists s. by rewrite lookup_insert_eq.
- intros row path Hrow Hs Hf. rewrite get_path_insert_ne by done.
  eapply generate_fold_keeps; [|..|exact Hg]; [done|].
  destruct (MakeHelmConfigMap_cases _ Hnd Hplain) as [(e & v & _ & _ & He)|(m0 & Hm0 & Hn)]; [congruence|].
  rewrite Hcfg in Hm0. injection Hm0 as <-. by eapply nested_get.
- intros k v c path Hk Hc Hi Hs Hf Hnone. rewrite get_path_insert_ne by done.
  assert (NoDup order) as Hndo by (rewrite HP; apply NoDup_map_to_list).
  assert (computed_disjoint (EnvKind data) order) as Hdo by by eapply computed_disjoint_perm.
  assert ((k, v) ∈ order) as Hin by (rewrite HP; by apply elem_of_map_to_list).
  assert (computed_path (EnvKind data) (k, v) = Some path) as Hp
    by (unfold computed_path; cbn [fst snd]; rewrite Hc, Hs; by rewrite bool_decide_false).
  destruct (generate_fold_get _ _ _ _ _ _ c path Hpure Hndo Hdo Hin Hc Hp Hg) as (val & Hr & Hget).
  exists val. split; [done|]. by rewrite Hget, Hnone.
- intros k v path Hk Hr Hi Hset Hs Ha. by eapply ValidateFields_set.
Qed.
End render.

(** A concrete engine for the witnesses: a template renders to itself and YAML is
    read as a plain string. *)
Definition echo : External := {|
  template_execute v t := Ok (t, v);
  yaml_Unmarshal s := Ok (VStr s);
  json_Marshal m := Ok "{}";
  json_Unmarshal s := Ok (VMap ∅);
  sha256_hex s := s;
|}.

Lemma echo_pure : pure_templates (ext := echo).
Proof. intros v t r v' H. by simplify_eq/=. Qed.

Definition example_values : Values :=
  {[ "image.tag" := {| v_Description := ""; v_DisplayName := ""; v_Required := true;
       v_Computed := Some {| Template := "v1" |}; v_Config := None; v_IgnoreKind := [] |};
     "replicas" := {| v_Description := ""; v_DisplayName := ""; v_Required := false;
       v_Computed := Some {| Template := "2" |}; v_Config := None; v_IgnoreKind := [] |} ]}.

Definition example_cv : ComputedValues :=
  {| cv_Kind := EnvironmentKindTenant; cv_Tenant := "nav"; cv_Fasit := ""; cv_Management := None;
     cv_Env := Some {[ "name" := VStr "dev" ]}; cv_Envs := []; cv_Configs := None |}.

Lemma example_disjoint : computed_disjoint EnvironmentKindTenant (map_to_list example_values).
Proof.
  intros a b p q Ha Hb Hab Hp Hq.
  apply elem_of_map_to_list' in Ha, Hb. destruct a as [ka va], b as [kb vb]. simpl in *.
  unfold example_values in Ha, Hb.
  apply lookup_insert_Some in Ha as [[<- <-]|[? Ha]];
    [|apply lookup_singleton_Some in Ha as [<- <-]];
    (apply lookup_insert_Some in Hb as [[<- <-]|[? Hb]];
      [|apply lookup_singleton_Some in Hb as [<- <-]]); try done;
    vm_compute in Hp, Hq; simplify_eq; by apply incomparable_ne.
Qed.

Definition example_feature (vals : Values) : Feature :=
  {| f_YAML := {| Dependencies := []; EnvironmentKinds := [EnvironmentKindTenant];
                  Timeout := Hour; f_Values := vals |};
     f_Name := "app"; f_Chart := "oci://charts/app"; f_Version := "1.0.0"; f_Description := "";
     f_Source := ""; f_ValuesYAML := ∅; f_SpecVersion := "v2"; f_TplDetails := "" |}.

Definition example_data : HelmRenderData :=
  {| MV := example_cv; EnvKind := EnvironmentKindTenant; ConfigVals := []; ConfigMap := ∅ |}.

Lemma RenderHelmValues_order_witness :
  let f := example_feature example_values in
  let l := map_to_list example_values in
  is_Ok (RenderHelmValues (ext := echo) l example_data f true) = true ∧
  RenderHelmValues (ext := echo) l example_data f true =
  RenderHelmValues (ext := echo) (reverse l) example_data f true.
Proof.
  split; [vm_compute; reflexivity|].
  eapply (RenderHelmValues_order (ext := echo)).
  - apply echo_pure.
  - reflexivity.
  - apply reverse_Permutation.
  - apply example_disjoint.
  - vm_compute. reflexivity.
Defined.

Lemma GenerateWith_spec_witness :
  ∃ m values', GenerateWith (ext := echo) (map_to_list example_values) EnvironmentKindTenant
    example_cv ∅ = Ok (m, values') ∧ get_path m ["image"; "tag"] = Some (VStr "v1").
Proof.
  destruct (GenerateWith (ext := echo) (map_to_list example_values) EnvironmentKindTenant
    example_cv ∅) as [[m v]| |] eqn:E; [|vm_compute in E; discriminate E..].
  exists m, v. split; [reflexivity|].
  destruct (GenerateWith_spec (ext := echo) example_values EnvironmentKindTenant example_cv ∅ m v
    echo_pure example_disjoint E) as [H _].
  destruct (H "image.tag" {| v_Description := ""; v_DisplayName := ""; v_Required := true;
       v_Computed := Some {| Template := "v1" |}; v_Config := None; v_IgnoreKind := [] |}
     {| Template := "v1" |} ["image"; "tag"]) as (val & Hr & Hg).
  - vm_compute. reflexivity.
  - reflexivity.
  - apply not_elem_of_nil.
  - reflexivity.
  - rewrite Hg. vm_compute in Hr. injection Hr as <-. reflexivity.
Defined.

Definition example_tag : Value :=
  {| v_Description := ""; v_DisplayName := ""; v_Required := true;
     v_Computed := Some {| Template := "v1" |}; v_Config := None; v_IgnoreKind := [] |}.

(** The number of replicas is configured and computed. *)
Definition configured_data : HelmRenderData :=
  {| MV := example_cv; EnvKind := EnvironmentKindTenant; ConfigVals := [example_row "replicas" "3"];
     ConfigMap := {[ "replicas" := VRaw "3" ]} |}.

Lemma RenderHelmValues_spec_witness :
  ∃ mp, RenderHelmValues (ext := echo) (map_to_list example_values) configured_data
      (example_feature example_values) true = Ok mp ∧
    mp !! "fasit" = Some (fasit_block "nav" "dev" EnvironmentKindTenant) ∧
    get_path mp ["replicas"] = Some (VRaw "3") ∧ get_path mp ["image"; "tag"] = Some (VStr "v1") ∧
    unset mp ["image"; "tag"] = false.
Proof.
  destruct (RenderHelmValues (ext := echo) (map_to_list example_values) configured_data
    (example_feature example_values) true) as [mp| |] eqn:E; [|vm_compute in E; discriminate E..].
  exists mp. split; [reflexivity|].
  destruct (RenderHelmValues_spec (ext := echo) (map_to_list example_values) configured_data
    (example_feature example_values) mp echo_pure (reflexivity _) example_disjoint) as (Hf & Hrow & Hcomp & Hreq).
  - apply NoDup_singleton.
  - repeat constructor.
  - reflexivity.
  - exact E.
  - split; [|split; [|split]].
    + destruct Hf as (name & Hn & Hf). injection Hn as <-. exact Hf.
    + refine (Hrow (example_row "replicas" "3") ["replicas"] _ _ _);
        [left|reflexivity|discriminate].
    + destruct (Hcomp "image.tag" example_tag {| Template := "v1" |} ["image"; "tag"])
        as (val & Hr & Hg); [reflexivity|reflexivity|apply not_elem_of_nil|reflexivity|discriminate|reflexivity|].
      rewrite Hg. vm_compute in Hr. injection Hr as <-. reflexivity.
    + refine (Hreq "image.tag" example_tag ["image"; "tag"] _ _ _ _ _ _);
        [reflexivity|reflexivity|apply not_elem_of_nil| |reflexivity|].
      * intros H. apply list_elem_of_singleton in H. discriminate H.
      * vm_compute in E. injection E as <-. reflexivity.
Defined.

(** When one computed key is a prefix of another, the order decides between an error
    and a result. *)
Theorem GenerateWith_order_dependent :
  let computed t := {| v_Description := ""; v_DisplayName := ""; v_Required := false;
    v_Computed := Some {| Template := t |}; v_Config := None; v_IgnoreKind := [] |} in
  let a := ("a", computed "x") in let ab := ("a.b", computed "y") in
  is_Ok (GenerateWith (ext := echo) [a; ab] EnvironmentKindTenant example_cv ∅) = false ∧
  is_Ok (GenerateWith (ext := echo) [ab; a] EnvironmentKindTenant example_cv ∅) = true.
Proof. split; vm_compute; reflexivity. Qed.
