(* ===== verification/TemplateFuncs.v ===== *)
(** * internal/feature/template_funcs.go: the functions of computed templates

    What a template of a computed value may call.  Their arguments are Go values of any
    type: here either dynamic values or a slice of maps ([[]map[string]any], the type of
    [.Envs]), which reflection tells apart from a slice of anything.  Slices of structs do
    not occur in the data of a template. *)

From S2P Require Import Feature.
From S2P Require Export Render.

Inductive arg :=
  | ArgVal (v : gval)
  | ArgMaps (l : list gomap).

(** What the functions use of fmt, strconv and the encoders: the text of a value with [%v]
    and with [%s], a quoted string, and JSON and YAML. *)
Class TemplateText := {
  fmt_v : gval → string;
  fmt_s : gval → string;
  strconv_Quote : string → string;
  tpl_Marshal : arg → outcome string;
  tpl_Unmarshal_map : string → outcome gomap;
  tpl_YAML : arg → outcome string;
  num_eq : string → string → bool;
}.

Section funcs.
Context `{txt : TemplateText}.

Definition mapOf (key valueKey : string) (m : list gomap) : outcome gomap :=
  ofold (λ ret v,
    match v !! key, v !! valueKey with
    | Some k, Some value =>
        match k with
        | VStr s => Ok (<[s := value]> ret)
        | _ => Panic "interface conversion: interface {} is not string"
        end
    | _, _ => Ok ret
    end) ∅ m.

(** [strings.ReplaceAll] for a non-empty [old]: [skip] bytes of the last occurrence are
    still to be dropped. *)
Fixpoint replace_from (old new : string) (skip : nat) (s : string) : string :=
  match s with
  | EmptyString => ""
  | String c s' =>
      match skip with
      | S k => replace_from old new k s'
      | O => if String.prefix old s
             then new +:+ replace_from old new (String.length old - 1) s'
             else String c (replace_from old new 0 s')
      end
  end.

(** A byte that goes on with a character of UTF-8. *)
Definition continues (c : ascii) : bool := (N.land (N_of_ascii c) 192 =? 128)%N.

(** For an empty [old], [new] comes before every character and at the end. *)
Fixpoint intersperse (new s : string) : string :=
  match s with
  | EmptyString => new
  | String c s' => (if continues c then "" else new) +:+ String c (intersperse new s')
  end.

Definition replace (s old new : string) : string :=
  if bool_decide (old = "") then intersperse new s else replace_from old new 0 s.

Definition sorted_entries {A} (m : gmap string A) : list (string * A) :=
  isort (λ a b, String.leb a.1 b.1) (map_to_list m).

(** The keys of a map of anything all have the same text for the comparison, which leaves
    them in the order of the map. *)
Definition mapJoin (sep : string) (m : arg) : outcome (list string) :=
  match m with
  | ArgVal (VMap m) => Ok ((λ kv, kv.1 +:+ (sep +:+ fmt_s kv.2)) <$> sorted_entries m)
  | ArgVal (VStrMap m) => Ok ((λ kv, kv.1 +:+ (sep +:+ kv.2)) <$> sorted_entries m)
  | ArgVal (VAnyMap l) => Ok ((λ kv, fmt_s kv.1 +:+ (sep +:+ fmt_s kv.2)) <$> l)
  | _ => Panic "mapJoin: expected map"
  end.

Definition prefixedValues (m : arg) (prefix : string) : list gval :=
  match m with
  | ArgVal (VMap m) =>
      isort (λ a b, String.leb (fmt_v a) (fmt_v b))
        (snd <$> filter (λ kv, String.prefix prefix kv.1 = true) (map_to_list m))
  | _ => [VStr prefix]
  end.

Definition subdomain (m : ComputedValues) (sub : string) : outcome string :=
  let domain := cv_Tenant m +:+ ".cloud.nais.io" in
  let! domain :=
    (if bool_decide (cv_Kind m = EnvironmentKindManagement) then Ok domain
     else match cv_Env m ≫= lookup "name" with
          | Some (VStr name) => Ok (name +:+ ("." +:+ domain))
          | _ => Panic "interface conversion: interface {} is not string"
          end) in
  Ok (sub +:+ ("." +:+ domain)).

Definition env_entry (keys : list string) (result : gmap string gomap) (envMap : gomap)
    : outcome (gmap string gomap) :=
  match envMap !! "name" with
  | Some (VStr key) =>
      if bool_decide (key = "") then Panic "env[name] is empty, but it needs to be used as a primary key"
      else Ok (<[key := filter (λ kv, kv.1 ∈ keys) envMap]> result)
  | _ => Panic "trying to use env[name] as string key"
  end.

Definition environmentsAsMap (keyList : string) (data : list gomap) : outcome (gmap string gomap) :=
  ofold (env_entry (split_char "," keyList)) ∅ data.

(** Only a slice of maps passes: the elements of a [[]any] have the kind of an interface. *)
Definition eachOf (m : arg) (key : string) : outcome (list gval) :=
  match m with
  | ArgMaps l => Ok (omap (lookup key) l)
  | ArgVal (VList _) | ArgVal (VRaw _) => Panic "eachOf: expected map or struct"
  | _ => Panic "eachOf: expected slice or array"
  end.

Definition or_panic {A} (o : outcome A) : outcome A :=
  match o with Err _ => Panic "error" | o => o end.

Definition toJSON (v : arg) : outcome string := or_panic (tpl_Marshal v).
Definition fromJSON (s : string) : outcome gomap := or_panic (tpl_Unmarshal_map s).
Definition toYAML (v : arg) : outcome string := or_panic (tpl_YAML v).

(** A raw JSON message is a slice of bytes. *)
Definition raw_bytes (s : string) : list string := (pretty ∘ N_of_ascii) <$> String.list_ascii_of_string s.

Definition join (sep : string) (v : arg) : outcome string :=
  match v with
  | ArgMaps l => Ok (Join ((fmt_v ∘ VMap) <$> l) sep)
  | ArgVal (VList l) => Ok (Join (fmt_v <$> l) sep)
  | ArgVal (VRaw s) => Ok (Join (raw_bytes s) sep)
  | _ => Panic "join: expected slice or array"
  end.

(** [==] on values of any type: equal dynamic types that cannot be compared panic. *)
Definition iface_eq (a b : gval) : outcome bool :=
  match a, b with
  | VNil, VNil => Ok true
  | VBool a, VBool b => Ok (eqb a b)
  | VNum a, VNum b => Ok (num_eq a b)
  | VStr a, VStr b => Ok (bool_decide (a = b))
  | VRaw _, VRaw _ | VList _, VList _ | VMap _, VMap _ | VStrMap _, VStrMap _ | VAnyMap _, VAnyMap _ =>
      Panic "runtime error: comparing uncomparable type"
  | _, _ => Ok false
  end.

Definition element_map (v : gval) : outcome gomap :=
  match v with VMap m => Ok m | _ => Panic "interface conversion: interface {} is not map[string]interface {}" end.

(** The elements as both loops read them: an element that is no map panics when its turn
    comes. *)
Definition elements (fn : string) (v : arg) : outcome (list (outcome gomap)) :=
  match v with
  | ArgMaps l => Ok (Ok <$> l)
  | ArgVal (VList l) => Ok (element_map <$> l)
  | ArgVal (VRaw s) => Ok ((λ _, Panic "interface conversion: interface {} is uint8") <$> raw_bytes s)
  | _ => Panic (fn +:+ ": expected slice or array")
  end.

Definition keep_when (want : bool) (key : string) (value : gval) (out : list gomap) (e : outcome gomap)
    : outcome (list gomap) :=
  let! mp := e in
  let! same := iface_eq (default VNil (mp !! key)) value in
  Ok (if eqb same want then out ++ [mp] else out).

Definition exclude (key : string) (value : gval) (v : arg) : outcome (list gomap) :=
  let! l := elements "exclude" v in ofold (keep_when false key value) [] l.

Definition filter_maps (key : string) (value : gval) (v : arg) : outcome (list gomap) :=
  let! l := elements "filter" v in ofold (keep_when true key value) [] l.

Definition base64_digit (n : N) : ascii :=
  (if n <? 26 then ascii_of_N (65 + n) else if n <? 52 then ascii_of_N (71 + n)
   else if n <? 62 then ascii_of_N (n - 4) else if n =? 62 then "+"%char else "/"%char)%N.

Fixpoint base64_bytes (l : list N) : string :=
  match l with
  | [] => ""
  | [a] => let d n := base64_digit (N.land n 63) in
           String (d (N.shiftr a 2)) (String (d (N.shiftl a 4)) "==")
  | [a; b] => let d n := base64_digit (N.land n 63) in let n := (a * 256 + b)%N in
           String (d (N.shiftr n 10)) (String (d (N.shiftr n 4)) (String (d (N.shiftl n 2)) "="))
  | a :: b :: c :: l =>
           let d n := base64_digit (N.land n 63) in let n := ((a * 256 + b) * 256 + c)%N in
           String (d (N.shiftr n 18)) (String (d (N.shiftr n 12)) (String (d (N.shiftr n 6))
             (String (d n) (base64_bytes l))))
  end.

Definition base64encode (v : arg) : outcome string :=
  match v with
  | ArgVal VNil => Ok ""
  | ArgVal (VStr s) => Ok (base64_bytes (N_of_ascii <$> String.list_ascii_of_string s))
  | _ => Panic "expected string to b64enc"
  end.

Definition quote (v : arg) : outcome string :=
  match v with
  | ArgVal VNil => Ok ""
  | ArgVal (VStr s) => Ok (strconv_Quote s)
  | _ => Panic "expected string to quote"
  end.
End funcs.

(** ** What they compute *)

Section facts.
Context `{txt : TemplateText}.

(** The maps of an argument whose elements are all maps. *)
Definition maps_of (v : arg) : option (list gomap) :=
  match v with
  | ArgMaps l => Some l
  | ArgVal (VList l) => mapM as_map l
  | ArgVal (VRaw "") => Some []
  | _ => None
  end.

Definition panics {A} (o : outcome A) : Prop := ∃ p, o = Panic p.

Definition same_key (key : string) (value : gval) (m : gomap) : outcome bool :=
  iface_eq (default VNil (m !! key)) value.

Lemma iface_eq_no_error a b e : iface_eq a b ≠ Err e.
Proof. by destruct a, b. Qed.

(** The loop, over elements that are maps. *)
Lemma keep_loop want key value l out :
  (panics (ofold (keep_when want key value) out (Ok <$> l)) ∧ ∃ m, m ∈ l ∧ panics (same_key key value m)) ∨
  (ofold (keep_when want key value) out (Ok <$> l) = Ok (out ++ filter (λ m, same_key key value m = Ok want) l) ∧
   ∀ m, m ∈ l → ∃ b, same_key key value m = Ok b).
Proof.
  revert out. induction l as [|m l IH]; intros out.
  { right. cbn. rewrite app_nil_r. split; [done|]. by intros ? ?%elem_of_nil. }
  rewrite fmap_cons. cbn [ofold]. unfold keep_when at 1 3. cbn [obind]. fold (same_key key value m).
  destruct (same_key key value m) as [b|e|p] eqn:E; [|by apply iface_eq_no_error in E|].
  - cbn [obind]. destruct (IH (if eqb b want then out ++ [m] else out)) as [[Hp (m' & Hm & Hk)]|[Hok Hall]].
    + left. split; [exact Hp|]. exists m'. split; [by right|done].
    + right. split.
      * rewrite Hok, filter_cons, E. destruct (eqb_spec b want) as [->|Hb].
        -- rewrite decide_True by done. by rewrite <-app_assoc.
        -- rewrite decide_False by congruence. done.
      * intros m' [->|Hm]%elem_of_cons; [by exists b|by apply Hall].
  - left. split; [by eexists|]. exists m. split; [left|by exists p].
Qed.

(** An element that is no map ends either loop with a panic. *)
Lemma keep_panics want key value es out :
  (∀ e, e ∈ es → panics e ∨ ∃ m, e = Ok m) → (∃ e, e ∈ es ∧ panics e) →
  panics (ofold (keep_when want key value) out es).
Proof.
  revert out. induction es as [|e es IH]; intros out Hall (e' & Hin & Hp); [by apply elem_of_nil in Hin|].
  cbn [ofold]. unfold keep_when at 1. destruct (Hall e) as [[p ->]|[m ->]]; [left|by exists p|]. cbn [obind].
  destruct (iface_eq _ value) as [b|x|p] eqn:E; [|by apply iface_eq_no_error in E|by exists p]. cbn [obind].
  apply IH; [intros; apply Hall; by right|]. apply elem_of_cons in Hin as [->|Hin]; [by destruct Hp|by exists e'].
Qed.

(** What the elements of an argument are: maps throughout, or something that panics. *)
Lemma elements_cases v :
  (∀ fn, panics (elements fn v)) ∨
  (∃ es, (∀ fn, elements fn v = Ok es) ∧ (∀ e, e ∈ es → panics e ∨ ∃ m, e = Ok m) ∧ ∃ e, e ∈ es ∧ panics e) ∨
  ∃ l, maps_of v = Some l ∧ ∀ fn, elements fn v = Ok (Ok <$> l).
Proof.
  destruct v as [[| | | |s|l| | |]|l]; try (left; by eexists); [..|by right; right; exists l].
  - destruct s as [|c s]; [by right; right; exists []|]. right. left. eexists. split; [done|].
    split; [intros e (? & -> & _)%list_elem_of_fmap; left; by eexists|]. eexists. split; [left|by eexists].
  - right. destruct (mapM as_map l) as [ms|] eqn:E.
    + right. exists ms. split; [done|]. intros fn. cbn. f_equal. apply mapM_Some in E.
      induction E as [|x m l ms Hx _ IH]; [done|]. rewrite !fmap_cons, IH. f_equal.
      by destruct x; try discriminate Hx; injection Hx as ->.
    + left. exists (element_map <$> l). split; [done|]. split.
      * intros e (x & -> & _)%list_elem_of_fmap. destruct x; (left; by eexists) || (right; by eexists).
      * apply mapM_None, Exists_exists in E as (x & Hin & Hx). exists (element_map x).
        split; [by apply list_elem_of_fmap_2|]. destruct x; try discriminate Hx; by eexists.
Qed.

(** [filter] and [exclude] split a slice of maps: with the same key and value either
    both panic, or one returns the elements whose value of the key equals the given one and
    the other the rest, in the order of the slice, each element once. *)
Theorem filter_exclude_partition key value v :
  (panics (filter_maps key value v) ∧ panics (exclude key value v)) ∨
  ∃ l a b, maps_of v = Some l ∧ filter_maps key value v = Ok a ∧ exclude key value v = Ok b ∧
    a = filter (λ m, same_key key value m = Ok true) l ∧
    b = filter (λ m, same_key key value m = Ok false) l ∧ a ++ b ≡ₚ l.
Proof.
  unfold filter_maps, exclude.
  destruct (elements_cases v) as [Hp|[(es & He & Hall & Hex)|(l & Hl & He)]].
  - left. destruct (Hp "filter") as [p ->], (Hp "exclude") as [q ->]. split; by eexists.
  - left. rewrite !He. split; by apply keep_panics.
  - rewrite !He. cbn [obind].
    destruct (keep_loop true key value l []) as [[H1 (m & Hm & p & Hk)]|[H1 Hall]].
    + left. split; [exact H1|]. destruct (keep_loop false key value l []) as [[H2 _]|[_ Hall]]; [exact H2|].
      destruct (Hall m Hm) as (b & Hb). congruence.
    + destruct (keep_loop false key value l []) as [[_ (m & Hm & p & Hk)]|[H2 _]].
      { destruct (Hall m Hm) as (b & Hb). congruence. }
      right. eexists l, _, _. split_and!; [done|exact H1|exact H2|done|done|]. cbn [app].
      clear H1 H2 He Hl. induction l as [|m l IH]; [done|]. destruct (Hall m) as (b & Hb); [left|].
      rewrite !filter_cons, Hb. specialize (IH (λ x Hx, Hall x (proj2 (elem_of_cons _ _ _) (or_intror Hx)))).
      destruct b.
      * rewrite decide_True, decide_False by done. by apply perm_skip.
      * rewrite decide_False, decide_True by done. by rewrite <-Permutation_middle, IH.
Qed.

(** ** environmentsAsMap *)

Definition name_of (envMap : gomap) : option string :=
  match envMap !! "name" with Some (VStr s) => if bool_decide (s = "") then None else Some s | _ => None end.

Lemma env_entry_named keys result e :
  match name_of e with
  | Some n => env_entry keys result e = Ok (<[n := filter (λ kv, kv.1 ∈ keys) e]> result)
  | None => panics (env_entry keys result e)
  end.
Proof.
  unfold name_of, env_entry. destruct (e !! "name") as [[]|]; try by eexists.
  case_bool_decide; [by eexists|done].
Qed.

(** [environmentsAsMap] keys the environments by name: when every environment has a name
    that is a string and not empty, the entry of a name is its last environment, restricted to
    the listed keys, and there are no other entries; otherwise the template panics. *)
Theorem environmentsAsMap_spec keyList data :
  let keys := split_char "," keyList in
  if decide (Forall (λ e, is_Some (name_of e)) data)
  then ∃ m, environmentsAsMap keyList data = Ok m ∧
    ∀ n, m !! n = (λ e, filter (λ kv : string * gval, kv.1 ∈ keys) e) <$>
           last (filter (λ e, name_of e = Some n) data)
  else panics (environmentsAsMap keyList data).
Proof.
  intros keys. unfold environmentsAsMap. fold keys.
  assert (H : ∀ acc, if decide (Forall (λ e, is_Some (name_of e)) data)
    then ∃ m, ofold (env_entry keys) acc data = Ok m ∧
      ∀ n, m !! n = match last (filter (λ e, name_of e = Some n) data) with
                    | Some e => Some (filter (λ kv : string * gval, kv.1 ∈ keys) e) | None => acc !! n end
    else panics (ofold (env_entry keys) acc data)).
  { induction data as [|e data IH]; intros acc; [rewrite decide_True by constructor; by exists acc|].
    cbn [ofold]. pose proof (env_entry_named keys acc e) as He. destruct (name_of e) as [n|] eqn:En.
    - rewrite He. cbn [obind]. specialize (IH (<[n := filter (λ kv, kv.1 ∈ keys) e]> acc)).
      destruct (decide (Forall _ data)) as [Hf|Hf].
      + rewrite decide_True by (constructor; [by rewrite En|done]). destruct IH as (m & -> & Hm).
        exists m. split; [done|]. intros n'. rewrite Hm, filter_cons, En.
        destruct (decide (Some n = Some n')) as [[= <-]|Hn].
        * rewrite last_cons. destruct (last _); [done|]. apply lookup_insert_eq.
        * destruct (last _); [done|]. apply lookup_insert_ne. congruence.
      + rewrite decide_False; [exact IH|]. by intros [_ ?]%Forall_cons.
    - rewrite decide_False; [|intros [[? ?] _]%Forall_cons; congruence].
      destruct He as [p ->]. by exists p. }
  specialize (H ∅). case_decide; [|exact H]. destruct H as (m & Hm & Hn). exists m. split; [done|].
  intros n. rewrite Hn. by destruct (last _).
Qed.
End facts.

(** ** The example of the documentation *)

#[local] Instance template_example_text : TemplateText :=
  {| fmt_v _ := ""; fmt_s _ := ""; strconv_Quote s := s; tpl_Marshal _ := Ok ""; tpl_Unmarshal_map _ := Ok ∅;
     tpl_YAML _ := Ok ""; num_eq := String.eqb |}.

Example environmentsAsMap_example :
  environmentsAsMap "value1,value2"
    [ {[ "name" := VStr "mycluster"; "value1" := VNum "1"; "value3" := VNil ]} ] =
  Ok {[ "mycluster" := {[ "value1" := VNum "1" ]} ]}.
Proof. vm_compute. reflexivity. Qed.

Example base64_example :
  base64encode (ArgVal (VStr "Man")) = Ok "TWFu" ∧ base64encode (ArgVal (VStr "Ma")) = Ok "TWE=" ∧
  base64encode (ArgVal (VStr "fasit")) = Ok "ZmFzaXQ=".
Proof. split_and!; vm_compute; reflexivity. Qed.

Example replace_example : replace "a-b-c" "-" "." = "a.b.c" ∧ replace "aaa" "aa" "b" = "ba" ∧ replace "ab" "" "-" = "-a-b-".
Proof. split_and!; vm_compute; reflexivity. Qed.
