(* ===== verification/Assignment.v ===== *)
(** * Matching feature assignments to environments

    [labelsContain], [matchAssignments] and [mostSpecificPerFeature] of
    internal/reconciler, and [IsMoreSpecific] and [mostSpecificPerFeature] of
    internal/featureassignment/queries.go.  The two selections are written twice in
    the source over two record types; the interface [Targeted] states what both
    read, the theorems are proved against it and hold for both. *)

From S2P Require Export Render.

Abbreviation Labels := (gmap string string) (only parsing).

(** internal/reconciler/model.go *)
Record environment := {
  e_ID : uuid;
  e_Name : string;
  e_Kind : EnvironmentKind;
  e_Labels : Labels;
  e_TenantID : uuid;
  e_TenantName : string;
}.

Record reconcileAssignment := {
  ra_ID : uuid;
  ra_Feature : Feature;
  ra_TargetLabels : Labels;
  ra_Created : time;
}.

(** internal/featureassignment/model.go *)
Record FeatureAssignment := {
  fa_ID : uuid;
  fa_Feature : Feature;
  fa_Description : option string;
  fa_TargetLabels : Labels;
  fa_Created : time;
  fa_Active : bool;
  fa_GHRef : option string;
  fa_FeatureDisabled : bool;
}.

Definition IsMoreSpecific (candidateLabels existingLabels : Labels)
    (candidateCreated existingCreated : time) : bool :=
  if bool_decide (size existingLabels < size candidateLabels)%nat then true
  else bool_decide (size candidateLabels = size existingLabels) &&
       (existingCreated <? candidateCreated)%Z.

(** An absent label reads as the empty string. *)
Definition labelsContain (envLabels target : Labels) : bool :=
  forallb (λ kv, bool_decide (default "" (envLabels !! kv.1) = kv.2)) (map_to_list target).

Definition matchAssignments (all : list reconcileAssignment) (env : environment)
    : list reconcileAssignment :=
  filter (λ dep, labelsContain (e_Labels env) (ra_TargetLabels dep) = true) all.

(** What the selection reads of an assignment. *)
Class Targeted (A : Type) := {
  t_name : A → string;
  t_labels : A → Labels;
  t_created : A → time;
}.
#[global] Instance reconcile_targeted : Targeted reconcileAssignment :=
  {| t_name a := f_Name (ra_Feature a); t_labels := ra_TargetLabels; t_created := ra_Created |}.
#[global] Instance assignment_targeted : Targeted FeatureAssignment :=
  {| t_name a := f_Name (fa_Feature a); t_labels := fa_TargetLabels; t_created := fa_Created |}.

Section winners.
Context {A : Type} `{Targeted A}.

Definition consider (winners : gmap string A) (dep : A) : gmap string A :=
  match winners !! t_name dep with
  | None => <[t_name dep := dep]> winners
  | Some existing =>
      if IsMoreSpecific (t_labels dep) (t_labels existing) (t_created dep) (t_created existing)
      then <[t_name dep := dep]> winners else winners
  end.

Definition created_leb (a b : A) : bool := (t_created a <=? t_created b)%Z.

(** The [range] over the map of winners is in the order of [map_to_list]; the
    source leaves it open, so the order of winners created at the same instant
    is not part of any theorem. *)
Definition pick_winners (deps : list A) : list A :=
  isort created_leb (map_values (foldl consider ∅ deps)).

(** The order the selection maximises: more labels, then later creation. *)
Definition less_specific (a b : A) : Prop :=
  (size (t_labels a) < size (t_labels b))%nat ∨
  (size (t_labels a) = size (t_labels b) ∧ (t_created a <= t_created b)%Z).

Lemma IsMoreSpecific_true a b :
  IsMoreSpecific (t_labels a) (t_labels b) (t_created a) (t_created b) = true →
  less_specific b a.
Proof.
  unfold IsMoreSpecific, less_specific. case_bool_decide; [by left|].
  rewrite andb_true_iff, bool_decide_eq_true, Z.ltb_lt. intros [-> ?]. right. split; [done|lia].
Qed.

Lemma IsMoreSpecific_false a b :
  IsMoreSpecific (t_labels a) (t_labels b) (t_created a) (t_created b) = false →
  less_specific a b.
Proof.
  unfold IsMoreSpecific, less_specific. case_bool_decide; [done|].
  rewrite andb_false_iff, bool_decide_eq_false, Z.ltb_ge. lia.
Qed.

Lemma less_specific_refl a : less_specific a a.
Proof. right. split; [done|lia]. Qed.

Lemma less_specific_trans a b c : less_specific a b → less_specific b c → less_specific a c.
Proof. unfold less_specific. lia. Qed.

(** [w] is the winner for name [k] among [deps]. *)
Definition wins (deps : list A) (k : string) (w : A) : Prop :=
  w ∈ deps ∧ t_name w = k ∧ ∀ d, d ∈ deps → t_name d = k → less_specific d w.

Lemma wins_snoc_other deps d k w : t_name d ≠ k → wins deps k w → wins (deps ++ [d]) k w.
Proof.
  intros Hd (Hw & Hk & Hmax). split_and!; [apply elem_of_app; by left|done|].
  intros d' [Hin|Hin%list_elem_of_singleton]%elem_of_app Hn; [by apply Hmax|congruence].
Qed.

Lemma consider_other m d k : t_name d ≠ k → consider m d !! k = m !! k.
Proof.
  intros Hk. unfold consider. by repeat case_match; rewrite ?lookup_insert_ne.
Qed.

(** The loop's map holds, for every name seen, a winner of that name. *)
Lemma consider_fold deps k :
  match foldl consider ∅ deps !! k with
  | Some w => wins deps k w
  | None => ∀ d, d ∈ deps → t_name d ≠ k
  end.
Proof.
  induction deps as [|d deps IH] using rev_ind.
  { simpl. rewrite lookup_empty. intros d Hd. by apply elem_of_nil in Hd. }
  rewrite foldl_app. simpl. set (m := foldl consider ∅ deps) in *.
  destruct (decide (t_name d = k)) as [<-|Hk].
  - unfold consider. destruct (m !! t_name d) as [e|] eqn:E.
    + destruct IH as (He & Hn & Hmax).
      destruct (IsMoreSpecific _ _ _ _) eqn:Es.
      * rewrite lookup_insert_eq. apply IsMoreSpecific_true in Es.
        split_and!; [apply elem_of_app; right; by left|done|].
        intros d' [Hin|Hin%list_elem_of_singleton]%elem_of_app Hd';
          [|subst; apply less_specific_refl].
        eapply less_specific_trans; [by apply Hmax|done].
      * rewrite E. apply IsMoreSpecific_false in Es.
        split_and!; [apply elem_of_app; by left|done|].
        intros d' [Hin|Hin%list_elem_of_singleton]%elem_of_app Hd'; [by apply Hmax|by subst].
    + rewrite lookup_insert_eq. split_and!; [apply elem_of_app; right; by left|done|].
      intros d' [Hin|Hin%list_elem_of_singleton]%elem_of_app Hd'; [by apply IH in Hd'|].
      subst. apply less_specific_refl.
  - rewrite consider_other by done.
    destruct (m !! k); [by apply wins_snoc_other|].
    intros d' [Hin|Hin%list_elem_of_singleton]%elem_of_app; [by apply IH|congruence].
Qed.

Lemma created_leb_total a b : created_leb a b = true ∨ created_leb b a = true.
Proof. unfold created_leb. rewrite !Z.leb_le. lia. Qed.
Lemma created_leb_trans a b c :
  created_leb a b = true → created_leb b c = true → created_leb a c = true.
Proof. unfold created_leb. rewrite !Z.leb_le. lia. Qed.

Lemma elem_of_pick_winners deps w :
  w ∈ pick_winners deps ↔ foldl consider ∅ deps !! t_name w = Some w.
Proof.
  unfold pick_winners. rewrite elem_of_isort, elem_of_map_values. split; [|eauto].
  intros [k Hk]. pose proof (consider_fold deps k) as Hw. rewrite Hk in Hw.
  by destruct Hw as (_ & -> & _).
Qed.

Lemma pick_winners_names deps : NoDup (t_name <$> pick_winners deps).
Proof.
  unfold pick_winners. rewrite isort_perm. apply NoDup_map_values_keys.
  intros k v Hk. pose proof (consider_fold deps k) as Hw. rewrite Hk in Hw. apply Hw.
Qed.

Lemma pick_winners_wins deps w : w ∈ pick_winners deps → wins deps (t_name w) w.
Proof.
  rewrite elem_of_pick_winners. intros Hk.
  pose proof (consider_fold deps (t_name w)) as Hw. by rewrite Hk in Hw.
Qed.

Lemma pick_winners_total deps d :
  d ∈ deps → ∃ w, w ∈ pick_winners deps ∧ t_name w = t_name d.
Proof.
  intros Hd. pose proof (consider_fold deps (t_name d)) as Hw.
  destruct (foldl consider ∅ deps !! t_name d) as [w|] eqn:E; [|by apply Hw in Hd].
  exists w. destruct Hw as (_ & Hn & _). split; [|done].
  apply elem_of_pick_winners. by rewrite Hn.
Qed.

Lemma pick_winners_sorted deps :
  StronglySorted (λ a b, (t_created a <= t_created b)%Z) (pick_winners deps).
Proof.
  eapply StronglySorted_impl; [|apply isort_sorted;
    [apply created_leb_total|apply created_leb_trans]].
  intros a b. apply Z.leb_le.
Qed.
End winners.

(** internal/reconciler/compute.go *)
Definition mostSpecificPerFeature : list reconcileAssignment → list reconcileAssignment :=
  pick_winners.

(** internal/featureassignment/queries.go *)
Definition fa_mostSpecificPerFeature : list FeatureAssignment → list FeatureAssignment :=
  pick_winners.

(** [mostSpecificPerFeature] keeps exactly one assignment for every feature name
    among those given, in order of creation: one with the most target labels and,
    among these, with the latest creation. *)
Theorem mostSpecificPerFeature_spec (deps : list reconcileAssignment) :
  let winners := mostSpecificPerFeature deps in
  NoDup (t_name <$> winners) ∧
  (∀ d, d ∈ deps → ∃ w, w ∈ winners ∧ t_name w = t_name d) ∧
  (∀ w, w ∈ winners → w ∈ deps ∧ ∀ d, d ∈ deps → t_name d = t_name w →
     (size (ra_TargetLabels d) < size (ra_TargetLabels w))%nat ∨
     (size (ra_TargetLabels d) = size (ra_TargetLabels w) ∧
      (ra_Created d <= ra_Created w)%Z)) ∧
  StronglySorted (λ a b, (ra_Created a <= ra_Created b)%Z) winners.
Proof.
  cbv zeta. split_and!; [apply pick_winners_names|apply pick_winners_total| |
    exact (pick_winners_sorted deps)].
  intros w Hw. destruct (pick_winners_wins _ _ Hw) as (? & _ & Hmax). by split.
Qed.

(** A reading of one record type as the other that keeps what the selection reads. *)
Definition as_reconcile (a : FeatureAssignment) : reconcileAssignment :=
  {| ra_ID := fa_ID a; ra_Feature := fa_Feature a; ra_TargetLabels := fa_TargetLabels a;
     ra_Created := fa_Created a |}.

Lemma consider_fmap (deps : list FeatureAssignment) :
  foldl consider ∅ (as_reconcile <$> deps) = as_reconcile <$> foldl consider ∅ deps.
Proof.
  induction deps as [|d deps IH] using rev_ind.
  { by rewrite fmap_nil; simpl; rewrite fmap_empty. }
  rewrite fmap_app, !foldl_app, IH. simpl. unfold consider at 1 3.
  rewrite lookup_fmap. simpl.
  destruct (foldl consider ∅ deps !! f_Name (fa_Feature d)); simpl; [case_match|];
    by rewrite ?fmap_insert.
Qed.

Lemma isort_fmap {A B} (g : A → B) (la : A → A → bool) (lb : B → B → bool) l :
  (∀ x y, lb (g x) (g y) = la x y) → isort lb (g <$> l) = g <$> isort la l.
Proof.
  intros Hg. induction l as [|x l IH]; [done|]. rewrite fmap_cons. simpl. rewrite IH.
  generalize (isort la l). intros k. induction k as [|y k IHk]; [done|].
  rewrite fmap_cons. simpl. rewrite Hg. destruct (la x y); [done|].
  rewrite IHk. done.
Qed.

(** The selection the reconciler makes and the one the API and UI show agree: on
    the same assignments, in the same order, they keep the same ones. *)
Theorem mostSpecific_agree (deps : list FeatureAssignment) :
  mostSpecificPerFeature (as_reconcile <$> deps) = as_reconcile <$> fa_mostSpecificPerFeature deps.
Proof.
  unfold mostSpecificPerFeature, fa_mostSpecificPerFeature, pick_winners.
  rewrite consider_fmap, <-(isort_fmap as_reconcile created_leb created_leb) by done.
  f_equal. unfold map_values. rewrite map_to_list_fmap.
  generalize (map_to_list (foldl consider ∅ deps)). intros l.
  induction l as [|[k v] l IH]; [done|]. simpl. by f_equal.
Qed.

(** ** Label matching *)

Lemma labelsContain_true envLabels target :
  labelsContain envLabels target = true ↔
  ∀ k v, target !! k = Some v → default "" (envLabels !! k) = v.
Proof.
  unfold labelsContain. rewrite forallb_forall. split.
  - intros Ha k v Hk. apply elem_of_map_to_list, list_elem_of_In in Hk.
    apply Ha in Hk. by apply bool_decide_eq_true in Hk.
  - intros Ha [k v] Hin. apply list_elem_of_In, elem_of_map_to_list in Hin.
    by apply bool_decide_eq_true, Ha.
Qed.

(** The reconciler deploys an assignment to an environment iff the environment's
    labels include the target's, as the SQL condition [labels @> target] says,
    provided the target gives no label the empty value. *)
Theorem matchAssignments_spec all env dep :
  (∀ k, ra_TargetLabels dep !! k ≠ Some "") →
  dep ∈ matchAssignments all env ↔ dep ∈ all ∧ ra_TargetLabels dep ⊆ e_Labels env.
Proof.
  intros He. unfold matchAssignments. rewrite list_elem_of_filter, labelsContain_true.
  rewrite map_subseteq_spec. split; intros [H1 H2]; split; try done.
  - intros k v Hk. apply H1 in Hk as Hd. destruct (e_Labels env !! k); simpl in Hd; [by subst|].
    subst v. by destruct (He k).
  - intros k v Hk. by rewrite (H2 k v Hk).
Qed.

Definition example_env (labels : Labels) : environment :=
  {| e_ID := 7; e_Name := "dev"; e_Kind := EnvironmentKindTenant; e_Labels := labels;
     e_TenantID := 3; e_TenantName := "nav" |}.
Definition example_assignment (target : Labels) (created : time) : reconcileAssignment :=
  {| ra_ID := 1; ra_Feature := example_feature example_values; ra_TargetLabels := target;
     ra_Created := created |}.

Lemma matchAssignments_spec_witness :
  let a := example_assignment {[ "kind" := "tenant" ]} 5 in
  let env := example_env {[ "kind" := "tenant"; "name" := "dev" ]} in
  labelsContain (e_Labels env) (ra_TargetLabels a) = true ∧
  (a ∈ matchAssignments [a] env ↔ a ∈ [a] ∧ ra_TargetLabels a ⊆ e_Labels env).
Proof.
  split; [reflexivity|]. apply matchAssignments_spec.
  intros k Hk. simpl in Hk. by apply lookup_singleton_Some in Hk as [_ Hk].
Defined.

(** With an empty value the two differ: the environment below has no label [beta]. *)
Theorem labelsContain_empty_value :
  let target : Labels := {[ "beta" := "" ]} in let env : Labels := {[ "kind" := "tenant" ]} in
  labelsContain env target = true ∧ ¬ target ⊆ env.
Proof.
  split; [reflexivity|]. rewrite map_subseteq_spec. intros H.
  specialize (H "beta" "" eq_refl). discriminate H.
Qed.
