(* ===== verification/Compute.v ===== *)
(** * internal/reconciler/compute.go and model.go: one decision

    The snapshot a reconciliation reads, and [computeAction], which decides for one
    assignment in one environment: render the Helm values, hash them, and compare
    with the latest instruction. *)

From S2P Require Export Assignment.

(** ** Data *)

Inductive Action :=
  | ActionDeploy
  | ActionSkipUnchanged
  | ActionSkipInProgress
  | ActionSkipDisabled
  | ActionSkipUnhealthy
  | ActionFailMissingDeps
  | ActionFailMissingConfig
  | ActionFailRender.

#[global] Instance Action_eq_dec : EqDecision Action.
Proof. solve_decision. Defined.

Definition Action_String (a : Action) : string :=
  match a with
  | ActionDeploy => "deploy"
  | ActionSkipUnchanged => "unchanged"
  | ActionSkipInProgress => "in-progress"
  | ActionSkipDisabled => "disabled"
  | ActionSkipUnhealthy => "unhealthy"
  | ActionFailMissingDeps => "missing-deps"
  | ActionFailMissingConfig => "missing-config"
  | ActionFailRender => "render-error"
  end.

Definition IsFailure (a : Action) : bool :=
  bool_decide (a = ActionFailMissingDeps) || bool_decide (a = ActionFailMissingConfig) ||
  bool_decide (a = ActionFailRender).

Record latestInstruction := { li_Hash : string; li_Status : string }.

Record DeployDecision := {
  dd_EnvironmentID : uuid;
  dd_EnvironmentName : string;
  dd_TenantName : string;
  dd_FeatureAssignmentID : uuid;
  dd_Feature : Feature;
  dd_Values : option gomap;
  dd_Hash : string;
  dd_Action : Action;
  dd_Details : string;
  dd_Message : string;
}.

(** Go's [map[string]bool]: an absent key reads as false. *)
Definition set_has (m : gmap string bool) (k : string) : bool := default false (m !! k).

Record snapshot := {
  s_environments : list environment;
  s_assignments : list reconcileAssignment;
  s_healthByEnv : gmap uuid time;
  s_disabledByEnv : gmap uuid (gmap string bool);
  s_globalConfig : gmap string (list MergedConfigRow);
  s_envConfig : gmap uuid (gmap string (list MergedConfigRow));
  s_envValues : gmap uuid ComputedValues;
  s_envKinds : gmap uuid EnvironmentKind;
  s_envTenantNames : gmap uuid string;
  s_latestInstr : gmap uuid (gmap string latestInstruction);
  s_deployedFeats : gmap uuid (gmap string bool);
}.

(** The fields every decision about an assignment in an environment shares. *)
Definition decision (env : environment) (dep : reconcileAssignment) (a : Action) (msg : string)
    (values : option gomap) (hash : string) : DeployDecision :=
  {| dd_EnvironmentID := e_ID env; dd_EnvironmentName := e_Name env;
     dd_TenantName := e_TenantName env; dd_FeatureAssignmentID := ra_ID dep;
     dd_Feature := ra_Feature dep; dd_Values := values; dd_Hash := hash;
     dd_Action := a; dd_Details := ""; dd_Message := msg |}.

(** ** Dependencies *)

Fixpoint check_deps (deployed : gmap string bool) (ds : list Dependency) : bool * list string :=
  match ds with
  | [] => (true, [])
  | dep :: ds =>
      match filter (λ name, set_has deployed name = false) (AllOf dep) with
      | [] =>
          if negb (bool_decide (AnyOf dep = [])) && negb (existsb (set_has deployed) (AnyOf dep))
          then (false, AnyOf dep)
          else check_deps deployed ds
      | missing => (false, missing)
      end
  end.

Definition checkDependencies (f : Feature) (envID : uuid)
    (deployedFeats : gmap uuid (gmap string bool)) : bool * list string :=
  check_deps (default ∅ (deployedFeats !! envID)) (Dependencies (f_YAML f)).

(** ** Configuration *)

Definition configIncludeKeys (f : Feature) (envKind : EnvironmentKind) : list string :=
  fst <$> filter (λ kv, is_Some (v_Config kv.2) ∧ envKind ∉ v_IgnoreKind kv.2)
            (map_to_list (f_Values (f_YAML f))).

Definition envConfigForFeature (envConfig : gmap uuid (gmap string (list MergedConfigRow)))
    (envID : uuid) (feature : string) : list MergedConfigRow :=
  match envConfig !! envID with Some m => default [] (m !! feature) | None => [] end.

Definition mergeConfigRows (global env : list MergedConfigRow) (includeKeys : list string)
    : list MergedConfigRow :=
  let m := foldl (λ m g, if key_included includeKeys (m_Key g)
                         then <[m_Key g := g]> m else m) ∅ global in
  let m := foldl (λ m e, if key_included includeKeys (m_Key e)
                         then <[m_Key e := e]> m else m) m env in
  isort row_leb (map_values m).

(** A shallow copy: the same entries in a fresh map. *)
Definition copyStringAnyMap (m : option gomap) : option gomap :=
  match m with
  | None => None
  | Some m => Some (list_to_map (map_to_list m))
  end.

Definition copyComputedValues (mv : ComputedValues) : ComputedValues :=
  {| cv_Kind := cv_Kind mv; cv_Tenant := cv_Tenant mv; cv_Fasit := cv_Fasit mv;
     cv_Management := copyStringAnyMap (cv_Management mv);
     cv_Env := copyStringAnyMap (cv_Env mv);
     cv_Envs := (λ e, default ∅ (copyStringAnyMap (Some e))) <$> cv_Envs mv;
     cv_Configs := cv_Configs mv |}.

Section compute.
Context `{ext : External}.

Definition generateHash (values : gomap) (feature : Feature) : outcome string :=
  let! b := json_Marshal values in
  Ok (sha256_hex (b +:+ (f_Version feature +:+ f_Chart feature))).

(** The comparison with the latest instruction that ends [computeAction]. *)
Definition compareLatest (latest : option latestInstruction) (hash : string) : Action * string :=
  match latest with
  | Some instr =>
      if IsInProgress (li_Status instr)
      then (ActionSkipInProgress, "deployment is already in progress")
      else if bool_decide (li_Hash instr = hash) then (ActionSkipUnchanged, "in sync")
      else (ActionDeploy, "deployment instruction created")
  | None => (ActionDeploy, "deployment instruction created")
  end.

Definition latestFor (snap : snapshot) (envID : uuid) (feature : string)
    : option latestInstruction :=
  default ∅ (s_latestInstr snap !! envID) !! feature.

(** [order] is the order in which this call's [range] visits the feature's values. *)
Definition computeAction (order : list (string * Value)) (snap : snapshot)
    (env : environment) (dep : reconcileAssignment) : outcome DeployDecision :=
  let fail a msg := Ok (decision env dep a msg None "") in
  let f := ra_Feature dep in
  let (ok, missing) := checkDependencies f (e_ID env) (s_deployedFeats snap) in
  if negb ok then
    fail ActionFailMissingDeps ("missing dependencies: " +:+ Join missing ", ")
  else
  let includeKeys := configIncludeKeys f (e_Kind env) in
  let globalRows := default [] (s_globalConfig snap !! f_Name f) in
  let envRows := envConfigForFeature (s_envConfig snap) (e_ID env) (f_Name f) in
  let merged := mergeConfigRows globalRows envRows includeKeys in
  match MakeHelmConfigMap merged with
  | Panic s => Panic s
  | Err err => fail ActionFailRender ("config map error: " +:+ error_msg err)
  | Ok configMap =>
  match s_envValues snap !! e_ID env with
  | None => fail ActionFailRender "no environment values"
  | Some mv =>
      let data := {| MV := copyComputedValues mv; EnvKind := e_Kind env;
                     ConfigVals := merged; ConfigMap := configMap |} in
      match RenderHelmValues order data f true with
      | Panic s => Panic s
      | Err err =>
          match errors_as_missing err with
          | Some fields => fail ActionFailMissingConfig
                             ("missing required chart config: " +:+ Join fields ", ")
          | None => fail ActionFailRender ("render error: " +:+ error_msg err)
          end
      | Ok values =>
          match generateHash values f with
          | Panic s => Panic s
          | Err err => fail ActionFailRender ("hash error: " +:+ error_msg err)
          | Ok hash =>
              let (a, msg) := compareLatest (latestFor snap (e_ID env) (f_Name f)) hash in
              Ok (decision env dep a msg (Some values) hash)
          end
      end
  end
  end.
End compute.

(** ** Dependencies: agreement with [FindMissing] *)

Definition deployed_names (deployed : gmap string bool) : list string :=
  fst <$> filter (λ kv, kv.2 = true) (map_to_list deployed).

Lemma elem_of_deployed_names deployed name :
  name ∈ deployed_names deployed ↔ set_has deployed name = true.
Proof.
  unfold deployed_names, set_has. rewrite list_elem_of_fmap. split.
  - intros ([k b] & -> & [Hb Hk]%list_elem_of_filter). apply elem_of_map_to_list in Hk.
    simpl in *. by rewrite Hk.
  - destruct (deployed !! name) as [b|] eqn:E; simpl; [|done]. intros ->.
    exists (name, true). split; [done|]. apply list_elem_of_filter.
    split; [done|]. by apply elem_of_map_to_list.
Qed.

Lemma check_deps_ok deployed ds :
  (check_deps deployed ds).1 = true ↔ Forall (satisfied (deployed_names deployed)) ds.
Proof.
  induction ds as [|d ds IH]; simpl; [by split; constructor|]. rewrite Forall_cons.
  destruct (filter (λ name, set_has deployed name = false) (AllOf d)) as [|x l] eqn:Ef.
  - assert (Forall (.∈ deployed_names deployed) (AllOf d)) as Hall.
    { apply Forall_forall. intros x Hx. apply elem_of_deployed_names.
      destruct (set_has deployed x) eqn:E; [done|].
      assert (x ∈ filter (λ name, set_has deployed name = false) (AllOf d)) as Hin
        by by apply list_elem_of_filter.
      rewrite Ef in Hin. by apply elem_of_nil in Hin. }
    assert (existsb (set_has deployed) (AnyOf d) = true ↔
      Exists (.∈ deployed_names deployed) (AnyOf d)) as Hany.
    { rewrite existsb_exists, Exists_exists. apply exist_proper. intros x.
      by rewrite list_elem_of_In, elem_of_deployed_names. }
    destruct (negb _ && negb _) eqn:Eb.
    + apply andb_true_iff in Eb as [E1%negb_true_iff%bool_decide_eq_false E2%negb_true_iff].
      simpl. split; [done|]. intros [[_ [?|Hex]] _]; [done|].
      apply Hany in Hex. congruence.
    + rewrite IH. apply andb_false_iff in Eb. unfold satisfied.
      split; [intros ?|tauto]. split; [|done]. split; [done|].
      destruct Eb as [E%negb_false_iff|E%negb_false_iff]; [left|right; by apply Hany].
      by apply bool_decide_eq_true in E.
  - simpl. split; [done|]. intros [[Hall _] _]. exfalso.
    assert (x ∈ filter (λ name, set_has deployed name = false) (AllOf d)) as Hin
      by (rewrite Ef; by left).
    apply list_elem_of_filter in Hin as [Hx Hin]. rewrite Forall_forall in Hall.
    apply Hall, elem_of_deployed_names in Hin. congruence.
Qed.

Lemma check_deps_missing deployed ds missing :
  check_deps deployed ds = (false, missing) →
  missing ≠ [] ∧ ∀ x, x ∈ missing → set_has deployed x = false ∧
    ∃ d, d ∈ ds ∧ (x ∈ AllOf d ∨ x ∈ AnyOf d).
Proof.
  induction ds as [|d ds IH]; simpl; [done|].
  destruct (filter _ (AllOf d)) as [|y l] eqn:Ef; intros H.
  - destruct (negb _ && negb _) eqn:Eb.
    + injection H as <-.
      apply andb_true_iff in Eb as [E1%negb_true_iff%bool_decide_eq_false E2%negb_true_iff].
      split; [done|]. intros x Hx. split; [|exists d; split; [by left|by right]].
      destruct (set_has deployed x) eqn:E; [|done]. rewrite <-E2. symmetry.
      apply existsb_exists. exists x. by rewrite <-list_elem_of_In.
    + destruct (IH H) as [Hn Hm]. split; [done|]. intros x Hx.
      destruct (Hm x Hx) as (? & d' & ? & ?). split; [done|]. exists d'.
      split; [by right|done].
  - injection H as <-. split; [done|]. intros x Hx. rewrite <-Ef in Hx.
    apply list_elem_of_filter in Hx as [? ?]. split; [done|]. exists d.
    split; [by left|by left].
Qed.

(** The reconciler's dependency check and the one the API reports with
    ([FindMissing]) agree on whether a feature may be deployed; what it reports as
    missing is then a non-empty list of undeployed dependencies of the feature. *)
Theorem checkDependencies_FindMissing f envID deployedFeats :
  let deployed := default ∅ (deployedFeats !! envID) in
  let ds := Dependencies (f_YAML f) in
  ((checkDependencies f envID deployedFeats).1 = true ↔
     FindMissing ds (deployed_names deployed) = []) ∧
  ∀ missing, checkDependencies f envID deployedFeats = (false, missing) →
    missing ≠ [] ∧ ∀ x, x ∈ missing →
      (x ∉ deployed_names deployed) ∧ ∃ d, d ∈ ds ∧ (x ∈ AllOf d ∨ x ∈ AnyOf d).
Proof.
  cbv zeta. split; [by rewrite FindMissing_nil, <-check_deps_ok|].
  intros missing [Hn Hm]%check_deps_missing. split; [done|]. intros x Hx.
  destruct (Hm x Hx) as [Hf Hd]. split; [|done]. rewrite elem_of_deployed_names. congruence.
Qed.

(** The reconciler's own overlay of rows gives what the one of the feature package
    gives on the rows the snapshot was built from. *)
Theorem mergeConfigRows_MergeConfigs global env includeKeys :
  mergeConfigRows (global_row <$> global) (env_row <$> env) includeKeys =
  MergeConfigs global env includeKeys.
Proof. unfold mergeConfigRows, MergeConfigs. by rewrite !foldl_fmap. Qed.

Lemma copyStringAnyMap_id m : copyStringAnyMap m = m.
Proof. destruct m; simpl; [by rewrite list_to_map_to_list|done]. Qed.

Lemma copyComputedValues_id mv : copyComputedValues mv = mv.
Proof.
  destruct mv as [? ? ? ? ? envs ?]. unfold copyComputedValues. simpl.
  rewrite !copyStringAnyMap_id. f_equal.
  rewrite <-(list_fmap_id envs) at 2. apply list_fmap_ext. intros. simpl.
  by rewrite list_to_map_to_list.
Qed.

(** ** The decision *)

Section decisions.
Context `{ext : External}.

(** The values the feature should run with in the environment. *)
Definition desired (order : list (string * Value)) (snap : snapshot) (env : environment)
    (f : Feature) : outcome gomap :=
  let merged := mergeConfigRows (default [] (s_globalConfig snap !! f_Name f))
    (envConfigForFeature (s_envConfig snap) (e_ID env) (f_Name f))
    (configIncludeKeys f (e_Kind env)) in
  let! configMap := MakeHelmConfigMap merged in
  match s_envValues snap !! e_ID env with
  | None => Err (ErrString "no environment values")
  | Some mv =>
      RenderHelmValues order
        {| MV := mv; EnvKind := e_Kind env; ConfigVals := merged; ConfigMap := configMap |} f true
  end.

(** A decision either fails, without values, or carries the desired values, their
    hash, and the outcome of the comparison with the latest instruction. *)
Lemma computeAction_cases order snap env dep d :
  let f := ra_Feature dep in
  computeAction order snap env dep = Ok d →
  (∃ a msg, IsFailure a = true ∧ d = decision env dep a msg None "") ∨
  (∃ values hash, (checkDependencies f (e_ID env) (s_deployedFeats snap)).1 = true ∧
     desired order snap env f = Ok values ∧ generateHash values f = Ok hash ∧
     let (a, msg) := compareLatest (latestFor snap (e_ID env) (f_Name f)) hash in
     d = decision env dep a msg (Some values) hash).
Proof.
  cbv zeta. unfold computeAction, desired. intros H.
  destruct (checkDependencies _ _ _) as [[] missing]; simpl in H |- *;
    [|injection H as <-; left; eexists _, _; (split; [|reflexivity]); reflexivity].
  destruct (MakeHelmConfigMap _) as [cm|e|]; [|injection H as <-; left; eexists _, _; (split; [|reflexivity]); reflexivity|done].
  destruct (s_envValues snap !! e_ID env) as [mv|]; [|injection H as <-; left; eexists _, _; (split; [|reflexivity]); reflexivity].
  rewrite copyComputedValues_id in H. simpl.
  destruct (RenderHelmValues _ _ _ _) as [values|e|]; [| |done].
  - destruct (generateHash _ _) as [hash|e|] eqn:Eh; [|injection H as <-; left; eexists _, _; (split; [|reflexivity]); reflexivity|done].
    right. exists values, hash. split_and!; [done..|].
    destruct (compareLatest _ _). by injection H.
  - destruct (errors_as_missing e); injection H as <-; left; eexists _, _; (split; [|reflexivity]); reflexivity.
Qed.

Lemma computeAction_rendered order snap env dep values hash :
  let f := ra_Feature dep in
  (checkDependencies f (e_ID env) (s_deployedFeats snap)).1 = true →
  desired order snap env f = Ok values → generateHash values f = Ok hash →
  computeAction order snap env dep =
    let (a, msg) := compareLatest (latestFor snap (e_ID env) (f_Name f)) hash in
    Ok (decision env dep a msg (Some values) hash).
Proof.
  cbv zeta. unfold computeAction, desired. intros Hd Hv Hh.
  destruct (checkDependencies _ _ _) as [[] missing]; simpl in *; [|done].
  destruct (MakeHelmConfigMap _) as [cm|e|]; simpl in *; try done.
  destruct (s_envValues snap !! e_ID env) as [mv|]; [|done].
  rewrite copyComputedValues_id, Hv, Hh. done.
Qed.

(** C1.  A decision of [computeAction] that is not a failure carries the desired
    values and their hash, with every dependency deployed, and says [in-progress]
    exactly when the latest instruction is still in progress, [unchanged] exactly
    when it is not and has the same hash, [deploy] otherwise; a failure carries
    neither values nor hash, and nothing is deployed on it. *)
Theorem computeAction_spec order snap env dep d :
  computeAction order snap env dep = Ok d →
  let f := ra_Feature dep in
  let latest := latestFor snap (e_ID env) (f_Name f) in
  let in_progress := (λ i, IsInProgress (li_Status i)) <$> latest = Some true in
  dd_EnvironmentID d = e_ID env ∧ dd_FeatureAssignmentID d = ra_ID dep ∧ dd_Feature d = f ∧
  if IsFailure (dd_Action d) then dd_Values d = None ∧ dd_Hash d = ""
  else
    (∃ values, dd_Values d = Some values ∧ desired order snap env f = Ok values ∧
       generateHash values f = Ok (dd_Hash d)) ∧
    Forall (satisfied (deployed_names (default ∅ (s_deployedFeats snap !! e_ID env))))
      (Dependencies (f_YAML f)) ∧
    (dd_Action d = ActionSkipInProgress ↔ in_progress) ∧
    (dd_Action d = ActionSkipUnchanged ↔
       ¬ in_progress ∧ li_Hash <$> latest = Some (dd_Hash d)) ∧
    (dd_Action d = ActionDeploy ↔
       ¬ in_progress ∧ li_Hash <$> latest ≠ Some (dd_Hash d)).
Proof.
  intros H. cbv zeta.
  destruct (computeAction_cases _ _ _ _ _ H) as [(a & msg & Ha & ->)|
    (values & hash & Hd & Hv & Hh & Hc)].
  - simpl. by rewrite Ha.
  - apply check_deps_ok in Hd. unfold compareLatest in Hc.
    destruct (latestFor _ _ _) as [instr|]; simpl in Hc |- *;
      [destruct (IsInProgress (li_Status instr)) eqn:Ei; [|case_bool_decide]|];
      subst d; simpl; rewrite ?Ei; split_and!; try done; naive_solver.
Qed.

(** [snap] once the instruction of [d] has been recorded with the given status. *)
Definition with_latest (snap : snapshot) (envID : uuid) (feature : string)
    (instr : latestInstruction) : snapshot :=
  {| s_environments := s_environments snap; s_assignments := s_assignments snap;
     s_healthByEnv := s_healthByEnv snap; s_disabledByEnv := s_disabledByEnv snap;
     s_globalConfig := s_globalConfig snap; s_envConfig := s_envConfig snap;
     s_envValues := s_envValues snap; s_envKinds := s_envKinds snap;
     s_envTenantNames := s_envTenantNames snap;
     s_latestInstr := <[envID := <[feature := instr]>
                          (default ∅ (s_latestInstr snap !! envID))]> (s_latestInstr snap);
     s_deployedFeats := s_deployedFeats snap |}.

Lemma latestFor_with_latest snap envID feature instr :
  latestFor (with_latest snap envID feature instr) envID feature = Some instr.
Proof. unfold latestFor. simpl. by rewrite lookup_insert_eq; simpl; rewrite lookup_insert_eq. Qed.

(** Reconciliation converges: once the instruction of a deploy decision is the
    latest one, deciding again on the same inputs does not deploy again: it reports
    [in-progress] while the instruction is under way and [unchanged] once it ended,
    whether it succeeded, failed or timed out. *)
Theorem computeAction_converges order snap env dep d status :
  computeAction order snap env dep = Ok d → dd_Action d = ActionDeploy →
  let snap' := with_latest snap (e_ID env) (f_Name (ra_Feature dep))
                 {| li_Hash := dd_Hash d; li_Status := status |} in
  ∃ msg, computeAction order snap' env dep =
    Ok (decision env dep (if IsInProgress status then ActionSkipInProgress else ActionSkipUnchanged)
          msg (dd_Values d) (dd_Hash d)).
Proof.
  intros H Ha. cbv zeta.
  destruct (computeAction_cases _ _ _ _ _ H) as [(a & msg & Hf & ->)|
    (values & hash & Hd & Hv & Hh & Hc)].
  { simpl in Ha. by rewrite Ha in Hf. }
  assert (dd_Hash d = hash ∧ dd_Values d = Some values) as [-> ->].
  { destruct (compareLatest _ _); subst d; done. }
  erewrite computeAction_rendered; [|exact Hd|exact Hv|exact Hh].
  rewrite latestFor_with_latest. unfold compareLatest. simpl.
  destruct (IsInProgress status); [|rewrite bool_decide_true by done]; by eexists.
Qed.
End decisions.

(** A snapshot with one environment, one assignment and an empty history. *)
Definition example_snapshot : snapshot :=
  {| s_environments := [example_env {[ "kind" := "tenant" ]}];
     s_assignments := [example_assignment {[ "kind" := "tenant" ]} 5];
     s_healthByEnv := {[ 7%N := 100%Z ]}; s_disabledByEnv := ∅; s_globalConfig := ∅;
     s_envConfig := ∅; s_envValues := {[ 7%N := example_cv ]}; s_envKinds := ∅;
     s_envTenantNames := ∅; s_latestInstr := ∅; s_deployedFeats := ∅ |}.

Lemma computeAction_spec_witness :
  ∃ d, computeAction (ext := echo) (map_to_list example_values) example_snapshot
         (example_env {[ "kind" := "tenant" ]}) (example_assignment {[ "kind" := "tenant" ]} 5)
       = Ok d ∧ IsFailure (dd_Action d) = false ∧ dd_Action d = ActionDeploy.
Proof.
  destruct (computeAction (ext := echo) (map_to_list example_values) example_snapshot
    (example_env {[ "kind" := "tenant" ]}) (example_assignment {[ "kind" := "tenant" ]} 5))
    as [d| |] eqn:E; [|vm_compute in E; discriminate E..].
  exists d. split; [reflexivity|].
  pose proof (computeAction_spec (ext := echo) _ _ _ _ _ E) as H. cbv zeta in H.
  destruct H as (_ & _ & _ & H).
  assert (IsFailure (dd_Action d) = false) as Hf by (vm_compute in E; injection E as <-; reflexivity).
  rewrite Hf in H. destruct H as (_ & _ & _ & _ & Hd).
  split; [exact Hf|]. apply Hd. split; discriminate.
Defined.

Lemma computeAction_converges_witness :
  ∃ d, computeAction (ext := echo) (map_to_list example_values) example_snapshot
         (example_env {[ "kind" := "tenant" ]}) (example_assignment {[ "kind" := "tenant" ]} 5)
       = Ok d ∧
    let snap' := with_latest example_snapshot 7 "app"
                   {| li_Hash := dd_Hash d; li_Status := DeployStatusSent |} in
    ∃ msg, computeAction (ext := echo) (map_to_list example_values) snap'
      (example_env {[ "kind" := "tenant" ]}) (example_assignment {[ "kind" := "tenant" ]} 5) =
      Ok (decision (example_env {[ "kind" := "tenant" ]})
            (example_assignment {[ "kind" := "tenant" ]} 5) ActionSkipInProgress msg
            (dd_Values d) (dd_Hash d)).
Proof.
  destruct (computeAction (ext := echo) (map_to_list example_values) example_snapshot
    (example_env {[ "kind" := "tenant" ]}) (example_assignment {[ "kind" := "tenant" ]} 5))
    as [d| |] eqn:E; [|vm_compute in E; discriminate E..].
  exists d. split; [reflexivity|].
  apply (computeAction_converges (ext := echo) _ _ _ _ _ DeployStatusSent E).
  vm_compute in E. injection E as <-. reflexivity.
Defined.
