(* ===== verification/Dispatch.v ===== *)
(** * The worker pool of internal/reconciler/compute.go

    [computeActionsStream]: the dispatcher walks environments and winners and sends
    skips to the output channel and work items to a bounded work channel; as many
    workers as the channel has slots compute decisions; both channels are closed in
    order.  The goroutines are one transition system [pool_step]; the consumer that
    receives from the output channel is part of it. *)

From S2P Require Export Compute.

(** ** What is dispatched *)

(** internal/reconciler/compute.go, workItem *)
Record workItem := { wi_env : environment; wi_dep : reconcileAssignment }.

Inductive task := TSkip (d : DeployDecision) | TWork (w : workItem).

(** [clock id] is the time read when the loop reaches the environment. *)
Definition env_healthy (snap : snapshot) (clock : uuid → time) (env : environment) : bool :=
  match s_healthByEnv snap !! e_ID env with
  | Some reportedAt => bool_decide (time_since (clock (e_ID env)) reportedAt ≤ 3 * Minute)%Z
  | None => false
  end.

Definition feature_disabled (snap : snapshot) (env : environment) (name : string) : bool :=
  set_has (default ∅ (s_disabledByEnv snap !! e_ID env)) name.

Definition dispatch_one (snap : snapshot) (clock : uuid → time) (env : environment)
    (dep : reconcileAssignment) : task :=
  if negb (env_healthy snap clock env)
  then TSkip (decision env dep ActionSkipUnhealthy "naisd is unhealthy" None "")
  else if feature_disabled snap env (f_Name (ra_Feature dep))
  then TSkip (decision env dep ActionSkipDisabled "feature reconcile disabled" None "")
  else TWork {| wi_env := env; wi_dep := dep |}.

Definition dispatch_env (snap : snapshot) (clock : uuid → time) (env : environment) : list task :=
  dispatch_one snap clock env <$>
    mostSpecificPerFeature (matchAssignments (s_assignments snap) env).

Definition dispatch_tasks (snap : snapshot) (clock : uuid → time) : list task :=
  concat (dispatch_env snap clock <$> s_environments snap).

(** ** The goroutines *)

Inductive worker := Idle | Busy (w : workItem) | Exited.

Record pool := {
  p_todo : list task;               (* what the dispatcher has left *)
  p_work : list workItem;           (* buffered in the work channel *)
  p_closed : bool;                  (* close(work) *)
  p_workers : list worker;
  p_out : list DeployDecision;      (* buffered in out *)
  p_finished : bool;                (* close(out) *)
  p_received : list DeployDecision; (* what the consumer got *)
}.

Section pool.
Context `{ext : External} (snap : snapshot) (numWorkers outCap : nat).

(** A worker's computation; its [range] over the values has any order. *)
Definition computes (w : workItem) (d : DeployDecision) : Prop :=
  ∃ order, order ≡ₚ map_to_list (f_Values (f_YAML (ra_Feature (wi_dep w)))) ∧
    computeAction order snap (wi_env w) (wi_dep w) = Ok d.

Definition task_result (t : task) (d : DeployDecision) : Prop :=
  match t with TSkip d' => d = d' | TWork w => computes w d end.

Definition pool_init (tasks : list task) : pool :=
  {| p_todo := tasks; p_work := []; p_closed := false; p_workers := replicate numWorkers Idle;
     p_out := []; p_finished := false; p_received := [] |}.

Inductive pool_step : pool → pool → Prop :=
  | step_skip d todo work ws out recv :
      length out < outCap →
      pool_step (Build_pool (TSkip d :: todo) work false ws out false recv)
                (Build_pool todo work false ws (out ++ [d]) false recv)
  | step_send w todo work ws out recv :
      length work < numWorkers →
      pool_step (Build_pool (TWork w :: todo) work false ws out false recv)
                (Build_pool todo (work ++ [w]) false ws out false recv)
  | step_close work ws out recv :
      pool_step (Build_pool [] work false ws out false recv)
                (Build_pool [] work true ws out false recv)
  | step_take todo w work c ws1 ws2 out recv :
      pool_step (Build_pool todo (w :: work) c (ws1 ++ Idle :: ws2) out false recv)
                (Build_pool todo work c (ws1 ++ Busy w :: ws2) out false recv)
  | step_emit todo work c ws1 w ws2 d out recv :
      computes w d → length out < outCap →
      pool_step (Build_pool todo work c (ws1 ++ Busy w :: ws2) out false recv)
                (Build_pool todo work c (ws1 ++ Idle :: ws2) (out ++ [d]) false recv)
  | step_exit todo ws1 ws2 out recv :
      pool_step (Build_pool todo [] true (ws1 ++ Idle :: ws2) out false recv)
                (Build_pool todo [] true (ws1 ++ Exited :: ws2) out false recv)
  | step_finish todo work ws out recv :
      Forall (eq Exited) ws →
      pool_step (Build_pool todo work true ws out false recv)
                (Build_pool todo work true ws out true recv)
  | step_receive todo work c ws d out fin recv :
      pool_step (Build_pool todo work c ws (d :: out) fin recv)
                (Build_pool todo work c ws out fin (recv ++ [d])).

(** The consumer's [range] ends: the channel is closed and drained. *)
Definition pool_done (p : pool) : Prop := p_finished p = true ∧ p_out p = [].

(** ** Safety: nothing is lost, nothing is decided twice *)

Definition busy_items (ws : list worker) : list workItem :=
  omap (λ x, match x with Busy w => Some w | _ => None end) ws.

Definition remaining (p : pool) : list task :=
  p_todo p ++ (TWork <$> p_work p) ++ (TWork <$> busy_items (p_workers p)).

(** [tasks] splits into those decided, in the order of their results, and the rest;
    once [work] is closed nothing is left to dispatch, and [out] is closed only
    after the last worker is gone. *)
Record pool_inv (tasks : list task) (p : pool) : Prop := {
  inv_tasks : ∃ decided, decided ++ remaining p ≡ₚ tasks ∧
    Forall2 task_result decided (p_received p ++ p_out p);
  inv_closed : p_closed p = true → p_todo p = [];
  inv_exited : Exists (eq Exited) (p_workers p) → p_closed p = true ∧ p_work p = [];
  inv_workers : length (p_workers p) = numWorkers;
  inv_finished : p_finished p = true → p_closed p = true ∧ Forall (eq Exited) (p_workers p);
}.

Lemma busy_items_app ws1 ws2 : busy_items (ws1 ++ ws2) = busy_items ws1 ++ busy_items ws2.
Proof. apply omap_app. Qed.

Lemma busy_items_idle n : busy_items (replicate n Idle) = [].
Proof. by induction n. Qed.

Lemma busy_items_exited ws : Forall (eq Exited) ws → busy_items ws = [].
Proof. induction 1 as [|x ws <- _ IH]; [done|]. by simpl. Qed.

Lemma pool_init_inv tasks : pool_inv tasks (pool_init tasks).
Proof.
  split; simpl; try done.
  - exists []. unfold remaining. simpl. rewrite busy_items_idle. by rewrite app_nil_r.
  - intros H%Exists_exists. destruct H as (x & Hx & <-).
    by apply elem_of_replicate_inv in Hx.
  - by rewrite length_replicate.
Qed.

Lemma inv_tasks_decide tasks rest rest' t d decided l :
  rest ≡ₚ t :: rest' → task_result t d →
  decided ++ rest ≡ₚ tasks → Forall2 task_result decided l →
  ∃ decided', decided' ++ rest' ≡ₚ tasks ∧ Forall2 task_result decided' (l ++ [d]).
Proof.
  intros Hr Ht HP Hf. exists (decided ++ [t]). split.
  - rewrite <-HP, Hr. by rewrite <-app_assoc.
  - apply Forall2_app; [done|]. by constructor.
Qed.

Lemma Exists_worker (ws1 ws2 : list worker) x y :
  y ≠ Exited → Exists (eq Exited) (ws1 ++ y :: ws2) → Exists (eq Exited) (ws1 ++ x :: ws2).
Proof. rewrite !Exists_app, !Exists_cons. naive_solver. Qed.

Lemma pool_step_inv tasks p p' : pool_inv tasks p → pool_step p p' → pool_inv tasks p'.
Proof.
  intros [(decided & HP & Hf) Hc He Hw Hfin] Hs. unfold remaining in HP.
  destruct Hs; simpl in *; rewrite ?length_app in Hw; split; simpl;
    try done; rewrite ?length_app; try done; unfold remaining; simpl.
  - (* skip *) rewrite (app_assoc recv). eapply inv_tasks_decide; [| |exact HP|exact Hf]; done.
  - (* send *) exists decided. split; [|done]. rewrite <-HP, fmap_app. simpl.
    apply Permutation_app_head. rewrite <-!app_assoc. simpl.
    rewrite (app_assoc todo), (app_assoc todo). by rewrite <-Permutation_middle.
  - intros Hx. by apply He in Hx as [? _].
  - (* close *) exists decided. by split.
  - intros Hx. by apply He in Hx as [? _].
  - (* take *) exists decided. split; [|done]. rewrite <-HP, !busy_items_app. simpl.
    rewrite !fmap_app. simpl. apply Permutation_app_head, Permutation_app_head.
    rewrite !app_assoc. by rewrite <-Permutation_middle.
  - intros Hx. apply (Exists_worker _ _ Idle) in Hx; [|done]. by apply He in Hx as [? ?].
  - (* emit *) rewrite (app_assoc recv).
    eapply (inv_tasks_decide _ _ _ (TWork w)); [|exact H|exact HP|exact Hf].
    rewrite !busy_items_app. simpl. rewrite !fmap_app. simpl.
    rewrite !app_assoc. by rewrite <-Permutation_middle.
  - intros Hx. apply (Exists_worker _ _ (Busy w)) in Hx; [|done]. by apply He.
  - (* exit *) exists decided. split; [|done]. rewrite <-HP. by rewrite !busy_items_app.
  - (* finish *) exists decided. by split.
  - (* receive *) exists decided. split; [done|]. by rewrite <-app_assoc.
Qed.

Lemma pool_steps_inv tasks p : steps pool_step (pool_init tasks) p → pool_inv tasks p.
Proof.
  intros Hs. eapply steps_invariant; [|exact Hs|apply pool_init_inv].
  intros. by eapply pool_step_inv.
Qed.

(** ** Termination: every step uses up work *)

Definition running (w : worker) : bool := match w with Exited => false | _ => true end.
Definition not_exited (ws : list worker) : nat := length (filter (λ w, running w = true) ws).
Definition pending (b : bool) : nat := if b then 0 else 1.

Definition pool_measure (p : pool) : nat :=
  5 * length (p_todo p) + 4 * length (p_work p) + 3 * length (busy_items (p_workers p)) +
  length (p_out p) + not_exited (p_workers p) + pending (p_closed p) + pending (p_finished p).

Lemma not_exited_app ws1 ws2 : not_exited (ws1 ++ ws2) = not_exited ws1 + not_exited ws2.
Proof. unfold not_exited. by rewrite filter_app, length_app. Qed.

Lemma not_exited_cons w ws :
  not_exited (w :: ws) = (if running w then 1 else 0) + not_exited ws.
Proof. unfold not_exited. rewrite filter_cons. by destruct (running w). Qed.

Lemma busy_items_cons w ws :
  busy_items (w :: ws) = match w with Busy i => i :: busy_items ws | _ => busy_items ws end.
Proof. by destruct w. Qed.

Lemma pool_step_decreases p p' : pool_step p p' → pool_measure p' < pool_measure p.
Proof.
  destruct 1; unfold pool_measure; simpl;
    rewrite ?not_exited_app, ?busy_items_app, ?length_app, ?not_exited_cons,
      ?busy_items_cons; simpl; lia.
Qed.

(** ** Progress: the goroutines never all block *)

Lemma worker_cases (ws : list worker) :
  (∃ ws1 w ws2, ws = ws1 ++ Busy w :: ws2) ∨ (∃ ws1 ws2, ws = ws1 ++ Idle :: ws2) ∨
  Forall (eq Exited) ws.
Proof.
  induction ws as [|x ws IH]; [by right; right|]. destruct x as [|w|].
  - right. left. by exists [], ws.
  - left. by exists [], w, ws.
  - destruct IH as [(ws1 & w & ws2 & ->)|[(ws1 & ws2 & ->)|Hf]].
    + left. by exists (Exited :: ws1), w, ws2.
    + right. left. by exists (Exited :: ws1), ws2.
    + right. right. by constructor.
Qed.

Lemma pool_progress tasks p :
  0 < numWorkers → 0 < outCap →
  (∀ w, TWork w ∈ tasks → ∃ d, computes w d) →
  pool_inv tasks p → pool_done p ∨ ∃ p', pool_step p p'.
Proof.
  intros Hn Ho Hw Hi.
  destruct p as [todo work c ws out fin recv].
  destruct out as [|d out]; [|right; eexists; apply step_receive].
  destruct fin; [by left|right].
  destruct Hi as [(decided & HP & _) Hc He Hlen Hfin]. unfold remaining in HP. simpl in *.
  destruct (worker_cases ws) as [(ws1 & w & ws2 & ->)|[(ws1 & ws2 & ->)|Hex]].
  - destruct (Hw w) as [d Hd].
    { rewrite <-HP, busy_items_app. simpl. rewrite !elem_of_app. right. right. right.
      apply list_elem_of_fmap. exists w. split; [done|]. apply elem_of_app. right. by left. }
    eexists. by apply step_emit.
  - destruct work as [|w work]; [|eexists; apply step_take].
    destruct c; [eexists; apply step_exit|].
    destruct todo as [|[d|w] todo]; eexists.
    + apply step_close.
    + by apply step_skip.
    + by apply step_send.
  - destruct ws as [|w ws]; [simpl in Hlen; lia|].
    assert (c = true) as -> by by apply He; inversion Hex; constructor.
    eexists. by apply step_finish.
Qed.

(** A run to completion exists from every state the invariant covers. *)
Lemma pool_completes tasks p :
  0 < numWorkers → 0 < outCap →
  (∀ w, TWork w ∈ tasks → ∃ d, computes w d) →
  pool_inv tasks p → ∃ p', steps pool_step p p' ∧ pool_done p'.
Proof.
  intros Hn Ho Hw. induction p as [p IH] using (induction_ltof1 _ pool_measure).
  intros Hi. destruct (pool_progress tasks p) as [Hd|[p' Hs]]; [done..| |].
  - exists p. split; [constructor|done].
  - destruct (IH p') as (p'' & Hs' & Hd'); [by apply pool_step_decreases|
      by eapply pool_step_inv|].
    exists p''. split; [by eapply steps_cons|done].
Qed.

Lemma pool_done_results tasks p :
  0 < numWorkers → pool_inv tasks p → pool_done p →
  ∃ decided, decided ≡ₚ tasks ∧ Forall2 task_result decided (p_received p).
Proof.
  intros Hn [(decided & HP & Hf) Hc He Hlen Hfin] [Hd Ho].
  destruct (Hfin Hd) as [Hcl Hex]. exists decided. rewrite Ho, app_nil_r in Hf.
  split; [|done]. rewrite <-HP. unfold remaining.
  rewrite (Hc Hcl), busy_items_exited by done.
  destruct (He) as [_ ->]; [|by rewrite app_nil_r].
  destruct (p_workers p) as [|w ws]; [simpl in Hlen; lia|].
  inversion Hex. by constructor.
Qed.
End pool.

(** ** What a reconciliation decides *)

Definition decision_key (d : DeployDecision) : uuid * string :=
  (dd_EnvironmentID d, f_Name (dd_Feature d)).
Definition task_key (t : task) : uuid * string :=
  match t with
  | TSkip d => decision_key d
  | TWork w => (e_ID (wi_env w), f_Name (ra_Feature (wi_dep w)))
  end.

Section results.
Context `{ext : External}.

Lemma task_result_key snap t d : task_result snap t d → decision_key d = task_key t.
Proof.
  destruct t as [d'|w]; simpl; [by intros ->|]. intros (order & _ & H).
  destruct (computeAction_cases _ _ _ _ _ H) as [(a & msg & _ & ->)|(v & h & _ & _ & _ & Hc)];
    [done|]. by destruct (compareLatest _ _); subst d.
Qed.

Lemma results_keys snap tasks decided ds :
  decided ≡ₚ tasks → Forall2 (task_result snap) decided ds →
  decision_key <$> ds ≡ₚ task_key <$> tasks.
Proof.
  intros <- Hf. induction Hf as [|t d decided ds Ht _ IH]; [done|].
  rewrite !fmap_cons, IH. by rewrite (task_result_key _ _ _ Ht).
Qed.

Lemma dispatch_one_key snap clock env dep :
  task_key (dispatch_one snap clock env dep) = (e_ID env, f_Name (ra_Feature dep)).
Proof. unfold dispatch_one. by repeat case_match. Qed.

Lemma dispatch_env_keys snap clock env :
  task_key <$> dispatch_env snap clock env =
  (λ dep, (e_ID env, t_name dep)) <$>
    mostSpecificPerFeature (matchAssignments (s_assignments snap) env).
Proof.
  unfold dispatch_env. rewrite <-list_fmap_compose. apply list_fmap_ext.
  intros _ dep _. apply dispatch_one_key.
Qed.

Lemma elem_of_dispatch_env snap clock env k :
  k ∈ task_key <$> dispatch_env snap clock env ↔
  ∃ dep, dep ∈ matchAssignments (s_assignments snap) env ∧ k = (e_ID env, t_name dep).
Proof.
  rewrite dispatch_env_keys, list_elem_of_fmap. split.
  - intros (w & -> & Hw). exists w. split; [|done].
    by destruct (pick_winners_wins _ _ Hw).
  - intros (dep & Hd & ->). destruct (pick_winners_total _ _ Hd) as (w & Hw & Hn).
    exists w. by rewrite Hn.
Qed.

Lemma dispatch_env_NoDup snap clock env : NoDup (task_key <$> dispatch_env snap clock env).
Proof.
  rewrite dispatch_env_keys.
  change ((λ dep : reconcileAssignment, (e_ID env, t_name dep)) <$> ?l)
    with (pair (e_ID env) ∘ t_name <$> l).
  rewrite list_fmap_compose.
  apply NoDup_fmap_2; [by intros ?? [= ->]|]. apply pick_winners_names.
Qed.

Lemma dispatch_tasks_keys snap clock :
  task_key <$> dispatch_tasks snap clock =
  concat ((λ env, task_key <$> dispatch_env snap clock env) <$> s_environments snap).
Proof.
  unfold dispatch_tasks. induction (s_environments snap) as [|e l IH]; [done|].
  rewrite !fmap_cons. simpl. by rewrite fmap_app, IH.
Qed.

Lemma elem_of_dispatch_tasks snap clock k :
  k ∈ task_key <$> dispatch_tasks snap clock ↔
  ∃ env dep, env ∈ s_environments snap ∧ dep ∈ matchAssignments (s_assignments snap) env ∧
    k = (e_ID env, t_name dep).
Proof.
  rewrite dispatch_tasks_keys. induction (s_environments snap) as [|e l IH]; simpl.
  - split; [by intros ?%elem_of_nil|]. by intros (? & ? & ?%elem_of_nil & _).
  - rewrite elem_of_app, IH, elem_of_dispatch_env. split.
    + intros [(dep & Hd & ->)|(env & dep & He & Hd & ->)]; [exists e, dep|exists env, dep].
      * split; [by left|done].
      * split; [by right|done].
    + intros (env & dep & [->|He]%elem_of_cons & Hd & ->); [left; by exists dep|].
      right. by exists env, dep.
Qed.

Lemma dispatch_tasks_NoDup snap clock :
  NoDup (e_ID <$> s_environments snap) → NoDup (task_key <$> dispatch_tasks snap clock).
Proof.
  rewrite dispatch_tasks_keys. induction (s_environments snap) as [|e l IH]; simpl;
    [constructor|].
  rewrite NoDup_cons. intros [He Hl]. apply NoDup_app.
  split_and!; [apply dispatch_env_NoDup| |by apply IH].
  intros k (dep & _ & ->)%elem_of_dispatch_env (ks & Hk & Hks)%elem_of_concat.
  apply list_elem_of_fmap in Hks as (e' & -> & He').
  apply elem_of_dispatch_env in Hk as (dep' & _ & [= Heq _]).
  apply He, list_elem_of_fmap. by exists e'.
Qed.

(** C32.  However the goroutines interleave, [computeActionsStream] terminates and closes
    its channel, provided every work item gets a decision (none panics): every run
    is finite, no reachable state is stuck before the channel is closed and drained,
    and what the consumer then received is, for some ordering of the dispatched
    tasks, the decision of each. *)
Theorem computeActionsStream_terminates snap clock numWorkers outCap :
  let tasks := dispatch_tasks snap clock in
  let step := pool_step snap numWorkers outCap in
  0 < numWorkers → 0 < outCap →
  (∀ w, TWork w ∈ tasks → ∃ d, computes snap w d) →
  (∀ p, Acc (λ p2 p1, step p1 p2) p) ∧
  ∀ p, steps step (pool_init numWorkers tasks) p →
    (pool_done p ∨ ∃ p', step p p') ∧
    (∃ p', steps step p p' ∧ pool_done p') ∧
    (pool_done p → ∃ decided, decided ≡ₚ tasks ∧
       Forall2 (task_result snap) decided (p_received p)).
Proof.
  cbv zeta. intros Hn Ho Hw. split.
  - intros p. induction p as [p IH] using (induction_ltof1 _ pool_measure).
    constructor. intros p' Hs. apply IH. by apply (pool_step_decreases snap numWorkers outCap).
  - intros p Hs%pool_steps_inv. split_and!.
    + by apply (pool_progress _ _ _ (dispatch_tasks snap clock)).
    + by apply (pool_completes _ _ _ (dispatch_tasks snap clock)).
    + by apply (pool_done_results snap numWorkers).
Qed.

(** C3.  One reconciliation makes exactly one decision for each pair of a reconciled
    environment and a feature some active assignment targets at it, and no other. *)
Theorem one_decision_per_feature snap clock numWorkers outCap p :
  0 < numWorkers → NoDup (e_ID <$> s_environments snap) →
  steps (pool_step snap numWorkers outCap) (pool_init numWorkers (dispatch_tasks snap clock)) p →
  pool_done p →
  NoDup (decision_key <$> p_received p) ∧
  ∀ k, k ∈ decision_key <$> p_received p ↔
    ∃ env dep, env ∈ s_environments snap ∧ dep ∈ s_assignments snap ∧
      labelsContain (e_Labels env) (ra_TargetLabels dep) = true ∧
      k = (e_ID env, f_Name (ra_Feature dep)).
Proof.
  intros Hn Hnd Hs%pool_steps_inv Hd.
  destruct (pool_done_results _ _ _ _ Hn Hs Hd) as (decided & HP & Hf).
  pose proof (results_keys _ _ _ _ HP Hf) as Hk. split.
  - rewrite Hk. by apply dispatch_tasks_NoDup.
  - intros k. rewrite Hk, elem_of_dispatch_tasks. unfold matchAssignments.
    setoid_rewrite list_elem_of_filter. naive_solver.
Qed.

(** Where a decision to deploy comes from. *)
Lemma deploy_decision_source snap clock numWorkers outCap p d :
  0 < numWorkers →
  steps (pool_step snap numWorkers outCap) (pool_init numWorkers (dispatch_tasks snap clock)) p →
  pool_done p → d ∈ p_received p → dd_Action d = ActionDeploy →
  ∃ env dep reportedAt, env ∈ s_environments snap ∧
    dep ∈ mostSpecificPerFeature (matchAssignments (s_assignments snap) env) ∧
    computes snap {| wi_env := env; wi_dep := dep |} d ∧
    s_healthByEnv snap !! e_ID env = Some reportedAt ∧
    (clock (e_ID env) - reportedAt <= 3 * Minute)%Z ∧
    default false (default ∅ (s_disabledByEnv snap !! e_ID env) !! f_Name (ra_Feature dep)) = false.
Proof.
  intros Hn Hs%pool_steps_inv Hd Hin Ha.
  destruct (pool_done_results _ _ _ _ Hn Hs Hd) as (decided & HP & Hf).
  apply list_elem_of_lookup in Hin as [i Hi].
  destruct (Forall2_lookup_r _ _ _ _ _ Hf Hi) as (t & Ht%list_elem_of_lookup_2 & Hr).
  rewrite HP in Ht. unfold dispatch_tasks in Ht.
  apply elem_of_concat in Ht as (l & Ht & Hl).
  apply list_elem_of_fmap in Hl as (env & -> & He).
  apply list_elem_of_fmap in Ht as (dep & -> & Hdep).
  unfold dispatch_one, env_healthy, feature_disabled, set_has in Hr.
  destruct (s_healthByEnv snap !! e_ID env) as [reportedAt|] eqn:Eh; simpl in Hr;
    [|by subst d].
  case_bool_decide as Ht; simpl in Hr; [|by subst d].
  destruct (default false _) eqn:Edis; simpl in Hr; [by subst d|].
  exists env, dep, reportedAt. split_and!; try done.
  apply time_since_le in Ht; [done|]. vm_compute; intuition congruence.
Qed.

(** A decision to deploy is only made for a healthy environment (a health status
    at most three minutes old) in which the feature is not disabled, from the most
    specific assignment. *)
Theorem deploys_only_enabled snap clock numWorkers outCap p d :
  0 < numWorkers →
  steps (pool_step snap numWorkers outCap) (pool_init numWorkers (dispatch_tasks snap clock)) p →
  pool_done p → d ∈ p_received p → dd_Action d = ActionDeploy →
  ∃ env dep reportedAt, env ∈ s_environments snap ∧
    dep ∈ mostSpecificPerFeature (matchAssignments (s_assignments snap) env) ∧
    computes snap {| wi_env := env; wi_dep := dep |} d ∧
    s_healthByEnv snap !! e_ID env = Some reportedAt ∧
    (clock (e_ID env) - reportedAt <= 3 * Minute)%Z ∧
    default false (default ∅ (s_disabledByEnv snap !! e_ID env) !! f_Name (ra_Feature dep)) = false.
Proof. apply deploy_decision_source. Qed.
End results.

(** ** A concrete run: one worker, one environment, one assignment *)

Definition example_clock : uuid → time := λ _, 100%Z.
Definition example_work : workItem :=
  {| wi_env := example_env {[ "kind" := "tenant" ]};
     wi_dep := example_assignment {[ "kind" := "tenant" ]} 5 |}.

Lemma example_tasks : dispatch_tasks example_snapshot example_clock = [TWork example_work].
Proof. vm_compute. reflexivity. Qed.

Lemma example_computes :
  ∃ d, computes (ext := echo) example_snapshot example_work d ∧ dd_Action d = ActionDeploy.
Proof.
  destruct (computeAction (ext := echo) (map_to_list example_values) example_snapshot
    (wi_env example_work) (wi_dep example_work)) as [d| |] eqn:E;
    [|vm_compute in E; discriminate E..].
  exists d. split.
  - exists (map_to_list example_values). split; [reflexivity|exact E].
  - vm_compute in E. injection E as <-. reflexivity.
Qed.

Lemma example_run :
  ∃ p d, steps (pool_step (ext := echo) example_snapshot 1 1)
      (pool_init 1 (dispatch_tasks example_snapshot example_clock)) p ∧
    pool_done p ∧ d ∈ p_received p ∧ dd_Action d = ActionDeploy.
Proof.
  destruct example_computes as (d & Hd & Ha).
  exists (Build_pool [] [] true [Exited] [] true [d]), d.
  split; [|split; [done|split; [by left|done]]].
  rewrite example_tasks. unfold pool_init. simpl.
  eapply steps_cons; [apply step_send; simpl; lia|].
  eapply steps_cons; [apply step_close|]. simpl.
  eapply steps_cons; [apply (step_take _ _ _ [] _ _ _ [] [])|]. simpl.
  eapply steps_cons; [apply (step_emit _ _ _ [] [] _ [] example_work []); [exact Hd|simpl; lia]|].
  simpl. eapply steps_cons; [apply (step_exit _ _ _ [] [] [])|]. simpl.
  eapply steps_cons; [apply step_finish; by repeat constructor|].
  eapply steps_cons; [apply step_receive|]. apply steps_refl.
Qed.

Lemma computeActionsStream_terminates_witness :
  ∃ p, steps (pool_step (ext := echo) example_snapshot 1 1)
    (pool_init 1 (dispatch_tasks example_snapshot example_clock)) p ∧ pool_done p.
Proof.
  destruct (computeActionsStream_terminates (ext := echo) example_snapshot example_clock 1 1)
    as [_ H]; [lia|lia| |].
  - intros w. rewrite example_tasks. intros Hw. apply list_elem_of_singleton in Hw.
    injection Hw as ->. destruct example_computes as (d & Hd & _). by exists d.
  - apply (H _ (steps_refl _ _)).
Defined.

Lemma one_decision_per_feature_witness :
  ∃ p, pool_done p ∧ NoDup (decision_key <$> p_received p) ∧
    (7%N, "app") ∈ decision_key <$> p_received p.
Proof.
  destruct example_run as (p & d & Hs & Hd & _). exists p. split; [exact Hd|].
  destruct (one_decision_per_feature (ext := echo) example_snapshot example_clock 1 1 p)
    as [H1 H2]; [lia| |exact Hs|exact Hd|].
  - apply (bool_decide_unpack _). vm_compute. exact I.
  - split; [exact H1|]. apply H2.
    exists (wi_env example_work), (wi_dep example_work).
    split; [apply list_elem_of_singleton; reflexivity|].
    split; [apply list_elem_of_singleton; reflexivity|].
    split; [vm_compute; reflexivity|reflexivity].
Defined.

Lemma deploys_only_enabled_witness :
  ∃ env dep (d : DeployDecision), computes (ext := echo) example_snapshot
    {| wi_env := env; wi_dep := dep |} d ∧ dd_Action d = ActionDeploy.
Proof.
  destruct example_run as (p & d & Hs & Hd & Hin & Ha).
  destruct (deploys_only_enabled (ext := echo) example_snapshot example_clock 1 1 p d)
    as (env & dep & r & _ & _ & Hc & _); [lia|exact Hs|exact Hd|exact Hin|exact Ha|].
  by exists env, dep, d.
Defined.
