(* ===== verification/Monad.v ===== *)
(** * A monad for Go code that reads and changes shared state

    A computation over states [S] returns an outcome and the new state; an error or
    a panic keeps the state reached so far, as Go does.  The instances give it the
    [x ← m; k] notation of stdpp. *)

From S2P Require Export Prelude.

Definition M (S A : Type) : Type := S → outcome A * S.

Section monad.
Context {S : Type}.

#[export] Instance M_ret : MRet (M S) := λ A a s, (Ok a, s).

#[export] Instance M_bind : MBind (M S) := λ A B f m s,
  match m s with
  | (Ok a, s') => f a s'
  | (Err e, s') => (Err e, s')
  | (Panic p, s') => (Panic p, s')
  end.

Definition fail {A} (e : error) : M S A := λ s, (Err e, s).
Definition gets {A} (f : S → A) : M S A := λ s, (Ok (f s), s).
Definition modify (f : S → S) : M S unit := λ s, (Ok tt, f s).
Definition lift {A} (o : outcome A) : M S A := λ s, (o, s).

(** The error of [m] as a value; a panic is not caught. *)
Definition attempt {A} (m : M S A) : M S (A + error) := λ s,
  match m s with
  | (Ok a, s') => (Ok (inl a), s')
  | (Err e, s') => (Ok (inr e), s')
  | (Panic p, s') => (Panic p, s')
  end.

(** [if err := m; err != nil { return fmt.Errorf("prefix: %w", err) }] *)
Definition wrapping {A} (prefix : string) (m : M S A) : M S A := λ s,
  match m s with (o, s') => (wrap prefix o, s') end.

Fixpoint for_each {A} (f : A → M S unit) (l : list A) : M S unit :=
  match l with
  | [] => mret tt
  | x :: l' => f x ;; for_each f l'
  end.

Fixpoint map_each {A B} (f : A → M S B) (l : list A) : M S (list B) :=
  match l with
  | [] => mret []
  | x :: l' => y ← f x; ys ← map_each f l'; mret (y :: ys)
  end.

(** A transaction: the state is restored on every outcome but success, except for
    the part [keep] carries over (what is not in the database). *)
Definition transaction {A} (keep : S → S → S) (m : M S A) : M S A := λ s,
  match m s with
  | (Ok a, s') => (Ok a, s')
  | (o, s') => (o, keep s s')
  end.

Lemma bind_Ok {A B} (m : M S A) (f : A → M S B) s b s' :
  (m ≫= f) s = (Ok b, s') ↔ ∃ a s1, m s = (Ok a, s1) ∧ f a s1 = (Ok b, s').
Proof.
  unfold mbind, M_bind. destruct (m s) as [[a|e|p] s1]; split; try done.
  - intros H. by exists a, s1.
  - intros (? & ? & [= -> ->] & H). done.
  - by intros (? & ? & [= ] & _).
  - by intros (? & ? & [= ] & _).
Qed.

Lemma bind_run {A B} (m : M S A) (f : A → M S B) s a s1 :
  m s = (Ok a, s1) → (m ≫= f) s = f a s1.
Proof. unfold mbind, M_bind. by intros ->. Qed.

Lemma bind_Err {A B} (m : M S A) (f : A → M S B) s e s1 :
  m s = (Err e, s1) → (m ≫= f) s = (Err e, s1).
Proof. unfold mbind, M_bind. by intros ->. Qed.

Lemma attempt_now {A} (m : M S A) w a : m w = (Ok a, w) → attempt m w = (Ok (inl a), w).
Proof. intros H. unfold attempt. by rewrite H. Qed.

Lemma map_each_now {A B} (f : A → M S B) (g : A → B) w (l : list A) :
  (∀ x, x ∈ l → f x w = (Ok (g x), w)) → map_each f l w = (Ok (g <$> l), w).
Proof.
  induction l as [|x l IH]; intros H; [done|]. cbn [map_each].
  rewrite (bind_run _ _ _ _ _ (H x ltac:(left))), (bind_run _ _ _ _ _ (IH (λ y Hy, H y ltac:(by right)))). done.
Qed.

Lemma map_each_elem {A B} (f : A → M S B) l w ys w' y :
  map_each f l w = (Ok ys, w') → y ∈ ys → ∃ x w1 w2, x ∈ l ∧ f x w1 = (Ok y, w2).
Proof.
  revert w ys. induction l as [|x l IH]; intros w ys H Hy; [injection H as <- _; by apply elem_of_nil in Hy|].
  cbn [map_each] in H. apply bind_Ok in H as (z & w1 & Hz & (zs & w2 & Hzs & [= <- <-])%bind_Ok).
  apply elem_of_cons in Hy as [-> |Hy]; [exists x, w, w1; by split; [left|]|].
  destruct (IH _ _ Hzs Hy) as (x' & w3 & w4 & Hx & Hf). exists x', w3, w4. by split; [right|].
Qed.

Lemma wrapping_Ok {A} prefix (m : M S A) s a s' :
  wrapping prefix m s = (Ok a, s') ↔ m s = (Ok a, s').
Proof. unfold wrapping. destruct (m s) as [[]]; simpl; split; by intros [= <- <-]. Qed.

Lemma attempt_Ok {A} (m : M S A) s r s' :
  attempt m s = (Ok r, s') ↔
  match r with inl a => m s = (Ok a, s') | inr e => m s = (Err e, s') end.
Proof.
  unfold attempt. destruct (m s) as [[]]; destruct r; split; try done; by intros [= <- <-].
Qed.

(** [m] preserves [P] whatever its outcome. *)
Definition preserves (P : S → Prop) {A} (m : M S A) : Prop := ∀ s, P s → P (m s).2.

Lemma preserves_ret P {A} (a : A) : preserves P (mret a).
Proof. by intros s. Qed.
Lemma preserves_fail P {A} e : preserves P (@fail A e).
Proof. by intros s. Qed.
Lemma preserves_gets P {A} (f : S → A) : preserves P (gets f).
Proof. by intros s. Qed.
Lemma preserves_lift P {A} (o : outcome A) : preserves P (lift o).
Proof. by intros s. Qed.
Lemma preserves_modify P f : (∀ s, P s → P (f s)) → preserves P (modify f).
Proof. intros H s. apply H. Qed.
Lemma preserves_bind P {A B} (m : M S A) (f : A → M S B) :
  preserves P m → (∀ a, preserves P (f a)) → preserves P (m ≫= f).
Proof.
  intros Hm Hf s Hs. specialize (Hm s Hs). unfold mbind, M_bind.
  destruct (m s) as [[a|e|p] s1]; simpl in *; [by apply Hf|done..].
Qed.
Lemma preserves_attempt P {A} (m : M S A) : preserves P m → preserves P (attempt m).
Proof.
  intros Hm s Hs. specialize (Hm s Hs). unfold attempt. by destruct (m s) as [[] ?].
Qed.
Lemma preserves_wrapping P {A} prefix (m : M S A) :
  preserves P m → preserves P (wrapping prefix m).
Proof. intros Hm s Hs. specialize (Hm s Hs). unfold wrapping. by destruct (m s). Qed.
Lemma preserves_for_each P {A} (f : A → M S unit) l :
  (∀ x, preserves P (f x)) → preserves P (for_each f l).
Proof.
  intros Hf. induction l as [|x l IH]; [apply preserves_ret|].
  apply preserves_bind; [apply Hf|done].
Qed.
Lemma preserves_map_each P {A B} (f : A → M S B) l :
  (∀ x, preserves P (f x)) → preserves P (map_each f l).
Proof.
  intros Hf. induction l as [|x l IH]; [apply preserves_ret|].
  apply preserves_bind; [apply Hf|]. intros y. apply preserves_bind; [done|].
  intros. apply preserves_ret.
Qed.
Lemma preserves_transaction P {A} keep (m : M S A) :
  preserves P m → (∀ s s', P s → P s' → P (keep s s')) → preserves P (transaction keep m).
Proof.
  intros Hm Hk s Hs. specialize (Hm s Hs). unfold transaction.
  destruct (m s) as [[] ?]; simpl in *; auto.
Qed.
End monad.

Create HintDb preserves.
#[export] Hint Resolve preserves_ret preserves_fail preserves_gets preserves_lift : preserves.
#[export] Hint Resolve preserves_bind preserves_attempt preserves_wrapping : preserves.
#[export] Hint Resolve preserves_for_each preserves_map_each : preserves.

(** Takes a successful run apart, one bind at a time. *)
Ltac inv_run :=
  repeat match goal with
  | H : (_ ≫= _) _ = (Ok _, _) |- _ =>
      apply bind_Ok in H; destruct H as (? & ? & ? & H)
  | H : wrapping _ _ _ = (Ok _, _) |- _ => apply wrapping_Ok in H
  | H : mret _ _ = (Ok _, _) |- _ => injection H as H; subst
  | H : fail _ _ = (Ok _, _) |- _ => discriminate H
  end.
