(* ===== verification/Latest.v ===== *)
(** * Append-only logs and their current rows

    database/migrations/0098_reconcile_current_state.sql: an AFTER INSERT trigger
    keeps, for each key, the row that is latest by (created, id), and the views read
    it.  Before, the views were [SELECT DISTINCT ON (key) .. ORDER BY key, created
    DESC, id DESC] over the whole log (0093_reconcile_logs.sql).  The interface
    [Logged] states what both definitions read of a row; the refinement theorem is
    proved against it and serves both logs. *)

From S2P Require Export Prelude.

Class Logged (R : Type) := {
  log_key : R → N * string;             (* environment_id, feature_name *)
  log_created : R → time;
  log_id : R → N;
}.

Section latest.
Context {R : Type} `{Logged R}.

(** [(a.created, a.id) > (b.created, b.id)] *)
Definition newer (a b : R) : bool :=
  (log_created b <? log_created a)%Z ||
  ((log_created b =? log_created a)%Z && (log_id b <? log_id a)%N).

(** The trigger function: [INSERT .. ON CONFLICT (key) DO UPDATE .. WHERE newer]. *)
Definition log_to_current (current : gmap (N * string) R) (new : R) : gmap (N * string) R :=
  match current !! log_key new with
  | None => <[log_key new := new]> current
  | Some c => if newer new c then <[log_key new := new]> current else current
  end.

(** The first row of [ORDER BY created DESC, id DESC] over the rows of a key. *)
Definition distinct_on (log : list R) (k : N * string) : option R :=
  head (isort (λ a b, negb (newer b a)) (filter (λ r, log_key r = k) log)).

(** [c] is the latest row of [log] with key [k]. *)
Definition is_latest (log : list R) (k : N * string) (c : R) : Prop :=
  c ∈ log ∧ log_key c = k ∧ ∀ r, r ∈ log → log_key r = k → newer r c = false.

Lemma newer_total a b : log_id a ≠ log_id b → newer a b = false → newer b a = true.
Proof.
  unfold newer. rewrite orb_false_iff, andb_false_iff, orb_true_iff, andb_true_iff,
    !Z.ltb_ge, !Z.ltb_lt, !Z.eqb_neq, !Z.eqb_eq, !N.ltb_ge, !N.ltb_lt. lia.
Qed.

Lemma newer_false_trans a b c : newer a b = false → newer b c = false → newer a c = false.
Proof.
  unfold newer. rewrite !orb_false_iff, !andb_false_iff, !Z.ltb_ge, !Z.eqb_neq, !N.ltb_ge. lia.
Qed.

Lemma newer_irrefl a : newer a a = false.
Proof. unfold newer. by rewrite Z.ltb_irrefl, Z.eqb_refl, N.ltb_irrefl. Qed.

Lemma newer_asym a b : newer a b = true → newer b a = false.
Proof.
  unfold newer. rewrite orb_false_iff, andb_false_iff, orb_true_iff, andb_true_iff,
    !Z.ltb_ge, !Z.ltb_lt, !Z.eqb_neq, !Z.eqb_eq, !N.ltb_ge, !N.ltb_lt. lia.
Qed.

Lemma is_latest_unique log k c1 c2 :
  NoDup (log_id <$> log) → is_latest log k c1 → is_latest log k c2 → c1 = c2.
Proof.
  intros Hnd (H1 & Hk1 & Hm1) (H2 & Hk2 & Hm2).
  destruct (decide (log_id c1 = log_id c2)) as [Hid|Hid].
  - by apply (NoDup_fmap_inj_on log_id log).
  - apply newer_total in Hid; [|by apply Hm2]. rewrite (Hm1 c2 H2 Hk2) in Hid. done.
Qed.

Lemma is_latest_perm log1 log2 k c : log1 ≡ₚ log2 → is_latest log1 k c → is_latest log2 k c.
Proof.
  intros HP (Hin & Hk & Hm). split_and!; [by rewrite <-HP|done|].
  intros r Hr. apply Hm. by rewrite HP.
Qed.

Lemma log_to_current_latest log k :
  match foldl log_to_current ∅ log !! k with
  | Some c => is_latest log k c
  | None => ∀ r, r ∈ log → log_key r ≠ k
  end.
Proof.
  induction log as [|r log IH] using rev_ind.
  { simpl. rewrite lookup_empty. by intros r Hr%elem_of_nil. }
  rewrite foldl_app. simpl. set (m := foldl log_to_current ∅ log) in *.
  unfold log_to_current. destruct (decide (log_key r = k)) as [<-|Hk].
  - destruct (m !! log_key r) as [c|] eqn:E.
    + destruct IH as (Hc & Hkc & Hm). destruct (newer r c) eqn:En.
      * rewrite lookup_insert_eq. split_and!; [apply elem_of_app; right; by left|done|].
        intros r' [Hr'|Hr'%list_elem_of_singleton]%elem_of_app Hk';
          [|subst; apply newer_irrefl].
        apply newer_asym in En. by eapply newer_false_trans; [apply Hm|].
      * rewrite E. split_and!; [apply elem_of_app; by left|done|].
        intros r' [Hr'|Hr'%list_elem_of_singleton]%elem_of_app Hk'; [by apply Hm|by subst].
    + rewrite lookup_insert_eq. split_and!; [apply elem_of_app; right; by left|done|].
      intros r' [Hr'|Hr'%list_elem_of_singleton]%elem_of_app Hk'; [by apply IH in Hk'|].
      subst. apply newer_irrefl.
  - assert (∀ v, <[log_key r := v]> m !! k = m !! k) as Hne
      by (intros; by rewrite lookup_insert_ne).
    assert ((match m !! log_key r with
             | Some c => if newer r c then <[log_key r := r]> m else m
             | None => <[log_key r := r]> m end) !! k = m !! k) as ->
      by (by repeat case_match).
    destruct (m !! k) as [c|].
    + destruct IH as (Hc & Hkc & Hm). split_and!; [apply elem_of_app; by left|done|].
      intros r' [Hr'|Hr'%list_elem_of_singleton]%elem_of_app Hk'; [by apply Hm|congruence].
    + intros r' [Hr'|Hr'%list_elem_of_singleton]%elem_of_app; [by apply IH|congruence].
Qed.

Lemma distinct_on_latest log k :
  match distinct_on log k with
  | Some c => is_latest log k c
  | None => ∀ r, r ∈ log → log_key r ≠ k
  end.
Proof.
  unfold distinct_on. set (l := filter (λ r, log_key r = k) log).
  assert (Hs : StronglySorted (λ a b, negb (newer b a) = true)
    (isort (λ a b, negb (newer b a)) l)).
  { apply isort_sorted.
    - intros x y. rewrite !negb_true_iff. destruct (newer y x) eqn:E; [right|by left].
      by apply newer_asym.
    - intros x y z. rewrite !negb_true_iff. intros H1 H2. by eapply newer_false_trans. }
  pose proof (λ x, elem_of_isort (λ a b, negb (newer b a)) x l) as Hel.
  destruct (isort _ l) as [|c l'] eqn:E; simpl.
  - intros r Hr Hk. assert (r ∈ l) as Hin by by apply list_elem_of_filter.
    apply Hel in Hin. by apply elem_of_nil in Hin.
  - assert (Hc : c ∈ l) by (apply Hel; by left).
    apply list_elem_of_filter in Hc as [Hk Hc]. split_and!; [done..|].
    intros r Hr Hkr. assert (r ∈ l) as Hin by by apply list_elem_of_filter.
    apply Hel, elem_of_cons in Hin as [->|Hin]; [apply newer_irrefl|].
    apply StronglySorted_inv in Hs as [_ Hs]. rewrite Forall_forall in Hs.
    apply Hs in Hin. by apply negb_true_iff in Hin.
Qed.

Lemma current_is_distinct_on log1 log2 k :
  NoDup (log_id <$> log1) → log1 ≡ₚ log2 →
  foldl log_to_current ∅ log1 !! k = distinct_on log2 k.
Proof.
  intros Hnd HP. pose proof (log_to_current_latest log1 k) as H1.
  pose proof (distinct_on_latest log2 k) as H2.
  destruct (foldl _ _ _ !! k) as [c1|], (distinct_on log2 k) as [c2|]; [f_equal| | |done].
  - eapply is_latest_unique; [exact Hnd|exact H1|]. by eapply is_latest_perm; [symmetry|].
  - destruct H1 as (Hc & Hk & _). rewrite HP in Hc. by apply H2 in Hc.
  - destruct H2 as (Hc & Hk & _). rewrite <-HP in Hc. by apply H1 in Hc.
Qed.

(** A row newer than the current one of its key becomes current. *)
Lemma log_to_current_new current r :
  (∀ c, current !! log_key r = Some c → newer r c = true) →
  log_to_current current r = <[log_key r := r]> current.
Proof. unfold log_to_current. intros Hn. destruct (current !! _); [|done]. by rewrite Hn. Qed.

Lemma log_to_current_other current r k :
  log_key r ≠ k → log_to_current current r !! k = current !! k.
Proof.
  intros Hk. unfold log_to_current. by repeat case_match; rewrite ?lookup_insert_ne.
Qed.
End latest.
