(* ===== verification/World.v ===== *)
(** * The world of the server: database tables, clock, messages

    The tables of internal/database/migrations the modelled code reads and writes,
    the clock, fresh identifiers, the messages handed to the Pub/Sub client, and a script of
    faults: every call that leaves the process takes the next entry of the script and fails
    with it if it is an error, so a theorem about every world covers every failure.  (The
    broker's answer about a message is such an entry that nobody waits for.) *)

From S2P Require Export Dispatch Monad Latest.

(** ** Rows *)

Record TenantRow := { t_ID : uuid; t_Name : string; t_Description : option string; t_CI : bool }.

Record EnvironmentRow := {
  er_ID : uuid; er_TenantID : uuid; er_Name : string; er_Kind : EnvironmentKind;
  er_Description : option string; er_Reconcile : bool; er_Labels : Labels;
  er_OidcIssuer : option string; er_OidcDiscoveryUrl : option string;
}.

Record EnvironmentValueRow := {
  ev_EnvironmentID : uuid; ev_Key : string; ev_Value : string; ev_Secret : bool;
}.

(** Structured columns hold the JSON text the code stored. *)
Record FeatureDatum := {
  fd_Name : string; fd_Version : string; fd_Chart : string; fd_Description : string;
  fd_Source : string; fd_Kinds : list string; fd_Dependencies : string; fd_Values : string;
  fd_DefaultValues : string; fd_Timeout : Z; fd_TplDetails : string;
}.

Record AssignmentRow := {
  ar_ID : uuid; ar_FeatureName : string; ar_Version : string; ar_Target : Labels;
  ar_Created : time; ar_GhRef : option string; ar_Description : option string; ar_Active : bool;
}.

Record DeployRow := {
  dl_id : N; dl_Diid : uuid; dl_EnvironmentID : uuid; dl_FeatureAssignmentID : uuid;
  dl_FeatureName : string; dl_FeatureVersion : string; dl_Status : string; dl_Hash : string;
  dl_Values : string; dl_Created : time;
}.

Record DecisionRow := {
  cl_id : N; cl_EnvironmentID : uuid; cl_FeatureAssignmentID : uuid; cl_FeatureName : string;
  cl_FeatureVersion : string; cl_Action : string; cl_Message : string; cl_Created : time;
}.

Record ReleaseStatusRow := {
  rs_Version : string; rs_Status : string; rs_Revision : Z; rs_LastDeployed : time;
}.

Record LogRow := {
  lg_DeployInstruction : uuid; lg_Time : time; lg_Message : string; lg_Kind : string;
}.

Record AuditRow := {
  au_Actor : string; au_Action : string; au_Description : string; au_ObjectType : string;
  au_ObjectID : string; au_Feature : string; au_EnvironmentID : option uuid;
  au_Metadata : option gval; au_CreatedAt : time;
}.

(** internal/message/deploy.go *)
Record DeployInstruction := {
  di_ID : uuid; di_Name : string; di_Version : string; di_Chart : string;
  di_ConfigHash : string; di_Timeout : duration; di_Values : option gomap; di_Uninstall : bool;
}.

#[global] Instance DeployRow_logged : Logged DeployRow :=
  {| log_key r := (dl_EnvironmentID r, dl_FeatureName r); log_created := dl_Created;
     log_id := dl_id |}.
#[global] Instance DecisionRow_logged : Logged DecisionRow :=
  {| log_key r := (cl_EnvironmentID r, cl_FeatureName r); log_created := cl_Created;
     log_id := cl_id |}.

(** ** Tables and the world, with an update function per field *)

Record env_db := {
  tenants : list TenantRow;
  environments : list EnvironmentRow;
  environment_values : list EnvironmentValueRow;
}.
Definition set_tenants (f : list TenantRow → list TenantRow) (d : env_db) : env_db :=
  {| tenants := f (tenants d); environments := environments d;
     environment_values := environment_values d |}.
Definition set_environments (f : list EnvironmentRow → list EnvironmentRow) (d : env_db) : env_db :=
  {| tenants := tenants d; environments := f (environments d);
     environment_values := environment_values d |}.
Definition set_environment_values (f : list EnvironmentValueRow → list EnvironmentValueRow) (d : env_db) : env_db :=
  {| tenants := tenants d; environments := environments d;
     environment_values := f (environment_values d) |}.

Record feature_db := {
  feature_data : list FeatureDatum;
  feature_assignments : list AssignmentRow;
  configurations_global : list ConfigurationsGlobal;
  configurations_environment : list ConfigurationsEnvironment;
  disabled_features : gmap (N * string) time;
}.
Definition set_feature_data (f : list FeatureDatum → list FeatureDatum) (d : feature_db) : feature_db :=
  {| feature_data := f (feature_data d); feature_assignments := feature_assignments d;
     configurations_global := configurations_global d;
     configurations_environment := configurations_environment d;
     disabled_features := disabled_features d |}.
Definition set_feature_assignments (f : list AssignmentRow → list AssignmentRow) (d : feature_db) : feature_db :=
  {| feature_data := feature_data d; feature_assignments := f (feature_assignments d);
     configurations_global := configurations_global d;
     configurations_environment := configurations_environment d;
     disabled_features := disabled_features d |}.
Definition set_configurations_global (f : list ConfigurationsGlobal → list ConfigurationsGlobal) (d : feature_db) : feature_db :=
  {| feature_data := feature_data d; feature_assignments := feature_assignments d;
     configurations_global := f (configurations_global d);
     configurations_environment := configurations_environment d;
     disabled_features := disabled_features d |}.
Definition set_configurations_environment (f : list ConfigurationsEnvironment → list ConfigurationsEnvironment) (d : feature_db) : feature_db :=
  {| feature_data := feature_data d; feature_assignments := feature_assignments d;
     configurations_global := configurations_global d;
     configurations_environment := f (configurations_environment d);
     disabled_features := disabled_features d |}.
Definition set_disabled_features (f : gmap (N * string) time → gmap (N * string) time) (d : feature_db) : feature_db :=
  {| feature_data := feature_data d; feature_assignments := feature_assignments d;
     configurations_global := configurations_global d;
     configurations_environment := configurations_environment d;
     disabled_features := f (disabled_features d) |}.

Record rec_db := {
  deploy_log : list DeployRow;
  deploy_current : gmap (N * string) DeployRow;
  decision_log : list DecisionRow;
  decision_current : gmap (N * string) DecisionRow;
  next_log_id : N;   (* the BIGSERIAL sequences *)
  release_statuses : gmap (N * string) ReleaseStatusRow;
  logs : list LogRow;
  health_statuses : gmap N time;
}.
Definition set_deploy_log (f : list DeployRow → list DeployRow) (d : rec_db) : rec_db :=
  {| deploy_log := f (deploy_log d); deploy_current := deploy_current d;
     decision_log := decision_log d; decision_current := decision_current d;
     next_log_id := next_log_id d; release_statuses := release_statuses d; logs := logs d;
     health_statuses := health_statuses d |}.
Definition set_deploy_current (f : gmap (N * string) DeployRow → gmap (N * string) DeployRow) (d : rec_db) : rec_db :=
  {| deploy_log := deploy_log d; deploy_current := f (deploy_current d);
     decision_log := decision_log d; decision_current := decision_current d;
     next_log_id := next_log_id d; release_statuses := release_statuses d; logs := logs d;
     health_statuses := health_statuses d |}.
Definition set_decision_log (f : list DecisionRow → list DecisionRow) (d : rec_db) : rec_db :=
  {| deploy_log := deploy_log d; deploy_current := deploy_current d;
     decision_log := f (decision_log d); decision_current := decision_current d;
     next_log_id := next_log_id d; release_statuses := release_statuses d; logs := logs d;
     health_statuses := health_statuses d |}.
Definition set_decision_current (f : gmap (N * string) DecisionRow → gmap (N * string) DecisionRow) (d : rec_db) : rec_db :=
  {| deploy_log := deploy_log d; deploy_current := deploy_current d;
     decision_log := decision_log d; decision_current := f (decision_current d);
     next_log_id := next_log_id d; release_statuses := release_statuses d; logs := logs d;
     health_statuses := health_statuses d |}.
Definition set_next_log_id (f : N → N) (d : rec_db) : rec_db :=
  {| deploy_log := deploy_log d; deploy_current := deploy_current d;
     decision_log := decision_log d; decision_current := decision_current d;
     next_log_id := f (next_log_id d); release_statuses := release_statuses d; logs := logs d;
     health_statuses := health_statuses d |}.
Definition set_release_statuses (f : gmap (N * string) ReleaseStatusRow → gmap (N * string) ReleaseStatusRow) (d : rec_db) : rec_db :=
  {| deploy_log := deploy_log d; deploy_current := deploy_current d;
     decision_log := decision_log d; decision_current := decision_current d;
     next_log_id := next_log_id d; release_statuses := f (release_statuses d); logs := logs d;
     health_statuses := health_statuses d |}.
Definition set_logs (f : list LogRow → list LogRow) (d : rec_db) : rec_db :=
  {| deploy_log := deploy_log d; deploy_current := deploy_current d;
     decision_log := decision_log d; decision_current := decision_current d;
     next_log_id := next_log_id d; release_statuses := release_statuses d; logs := f (logs d);
     health_statuses := health_statuses d |}.
Definition set_health_statuses (f : gmap N time → gmap N time) (d : rec_db) : rec_db :=
  {| deploy_log := deploy_log d; deploy_current := deploy_current d;
     decision_log := decision_log d; decision_current := decision_current d;
     next_log_id := next_log_id d; release_statuses := release_statuses d; logs := logs d;
     health_statuses := f (health_statuses d) |}.

Record world := {
  w_env : env_db;
  w_feature : feature_db;
  w_rec : rec_db;
  audits : list AuditRow;
  w_now : time;   (* time.Now() and now() *)
  w_next_uuid : N;   (* fresh values of uuid.New *)
  w_faults : list (option error);   (* what the next external calls do *)
  published : list (string * DeployInstruction);   (* handed to the client: topic and message, oldest first *)
  slack_posts : list (string * string);   (* channel and feature *)
}.
Definition set_w_env (f : env_db → env_db) (w : world) : world :=
  {| w_env := f (w_env w); w_feature := w_feature w; w_rec := w_rec w; audits := audits w;
     w_now := w_now w; w_next_uuid := w_next_uuid w; w_faults := w_faults w;
     published := published w; slack_posts := slack_posts w |}.
Definition set_w_feature (f : feature_db → feature_db) (w : world) : world :=
  {| w_env := w_env w; w_feature := f (w_feature w); w_rec := w_rec w; audits := audits w;
     w_now := w_now w; w_next_uuid := w_next_uuid w; w_faults := w_faults w;
     published := published w; slack_posts := slack_posts w |}.
Definition set_w_rec (f : rec_db → rec_db) (w : world) : world :=
  {| w_env := w_env w; w_feature := w_feature w; w_rec := f (w_rec w); audits := audits w;
     w_now := w_now w; w_next_uuid := w_next_uuid w; w_faults := w_faults w;
     published := published w; slack_posts := slack_posts w |}.
Definition set_audits (f : list AuditRow → list AuditRow) (w : world) : world :=
  {| w_env := w_env w; w_feature := w_feature w; w_rec := w_rec w; audits := f (audits w);
     w_now := w_now w; w_next_uuid := w_next_uuid w; w_faults := w_faults w;
     published := published w; slack_posts := slack_posts w |}.
Definition set_w_now (f : time → time) (w : world) : world :=
  {| w_env := w_env w; w_feature := w_feature w; w_rec := w_rec w; audits := audits w;
     w_now := f (w_now w); w_next_uuid := w_next_uuid w; w_faults := w_faults w;
     published := published w; slack_posts := slack_posts w |}.
Definition set_w_next_uuid (f : N → N) (w : world) : world :=
  {| w_env := w_env w; w_feature := w_feature w; w_rec := w_rec w; audits := audits w;
     w_now := w_now w; w_next_uuid := f (w_next_uuid w); w_faults := w_faults w;
     published := published w; slack_posts := slack_posts w |}.
Definition set_w_faults (f : list (option error) → list (option error)) (w : world) : world :=
  {| w_env := w_env w; w_feature := w_feature w; w_rec := w_rec w; audits := audits w;
     w_now := w_now w; w_next_uuid := w_next_uuid w; w_faults := f (w_faults w);
     published := published w; slack_posts := slack_posts w |}.
Definition set_published (f : list (string * DeployInstruction) → list (string * DeployInstruction)) (w : world) : world :=
  {| w_env := w_env w; w_feature := w_feature w; w_rec := w_rec w; audits := audits w;
     w_now := w_now w; w_next_uuid := w_next_uuid w; w_faults := w_faults w;
     published := f (published w); slack_posts := slack_posts w |}.
Definition set_slack_posts (f : list (string * string) → list (string * string)) (w : world) : world :=
  {| w_env := w_env w; w_feature := w_feature w; w_rec := w_rec w; audits := audits w;
     w_now := w_now w; w_next_uuid := w_next_uuid w; w_faults := w_faults w;
     published := published w; slack_posts := f (slack_posts w) |}.

(** ** External calls *)

Abbreviation IO := (M world) (only parsing).

(** Takes the next entry of the fault script. *)
Definition next_fault : IO (option error) := λ w,
  match w_faults w with
  | [] => (Ok None, w)
  | f :: fs => (Ok f, set_w_faults (λ _, fs) w)
  end.

(** A call to PostgreSQL or another service: it has its effect or fails without any. *)
Definition external {A} (m : IO A) : IO A :=
  f ← next_fault;
  match f with
  | Some e => fail e
  | None => m
  end.

(** A query reads the tables; a statement changes them. *)
Definition query {A} (f : world → outcome A) : IO A := external (λ w, (f w, w)).
Definition exec (f : world → world) : IO unit := external (modify f).

Definition time_Now : IO time := gets w_now.
Definition uuid_New : IO uuid := λ w,
  (Ok (w_next_uuid w), set_w_next_uuid N.succ w).

(** ** Transactions (internal/dbtx/dbtx.go) *)

(** Rolling back restores the tables; messages sent, identifiers drawn and faults met
    stay. *)
Definition rollback (before after : world) : world :=
  {| w_env := w_env before; w_feature := w_feature before; w_rec := w_rec before;
     audits := audits before; w_now := w_now after; w_next_uuid := w_next_uuid after;
     w_faults := w_faults after; published := published after;
     slack_posts := slack_posts after |}.

(** Begin and commit may fail, and on any failure what ran in the transaction is undone.
    A statement runs in it only if its package looks the transaction up in the context
    (the function querier of internal/feature, internal/featureassignment and
    internal/audit); [undo] says what is restored. *)
Definition WithTx_undo (undo : world → world → world) {A} (fn : IO A) : IO A :=
  wrapping "begin tx" (external (mret tt)) ;;
  transaction undo (a ← fn; wrapping "commit tx" (external (mret tt)) ;; mret a).

(** Every statement of [fn] runs in the transaction.  A nested call runs in the outer
    one. *)
Definition WithTx {A} (in_tx : bool) (fn : IO A) : IO A :=
  if in_tx then fn else WithTx_undo rollback fn.

(** The querier of internal/environment is always the pool's, and so is the one a
    reconciler or receiver holds: their statements take effect at once and stay. *)
Definition rollback_but_env (before after : world) : world :=
  set_w_env (λ _, w_env after) (rollback before after).
Definition rollback_but_rec (before after : world) : world :=
  set_w_rec (λ _, w_rec after) (rollback before after).

(** What a query can do: fail by the script, or read. *)
Lemma query_Ok {A} (f : world → outcome A) w a w' :
  query f w = (Ok a, w') ↔
  ∃ w1, next_fault w = (Ok None, w1) ∧ f w1 = Ok a ∧ w' = w1.
Proof.
  unfold query, external. rewrite bind_Ok. split.
  - intros (fl & w1 & Hf & H). destruct fl; [done|]. exists w1. by simplify_eq.
  - intros (w1 & Hf & Ha & ->). exists None, w1. by rewrite Ha.
Qed.

Lemma exec_Ok (f : world → world) w w' u :
  exec f w = (Ok u, w') ↔ ∃ w1, next_fault w = (Ok None, w1) ∧ w' = f w1.
Proof.
  unfold exec, external. rewrite bind_Ok. split.
  - intros (fl & w1 & Hf & H). destruct fl; [done|]. exists w1. unfold modify in H.
    by simplify_eq.
  - intros (w1 & Hf & ->). exists None, w1. by destruct u.
Qed.

(** Everything but the fault script. *)
Definition same_world (w w' : world) : Prop :=
  w' = set_w_faults (λ _, w_faults w') w.

Lemma same_world_refl w : same_world w w.
Proof. unfold same_world. by destruct w. Qed.
Lemma same_world_trans w1 w2 w3 : same_world w1 w2 → same_world w2 w3 → same_world w1 w3.
Proof. unfold same_world. intros -> ->. done. Qed.

Lemma next_fault_same w f w1 : next_fault w = (f, w1) → same_world w w1.
Proof.
  unfold next_fault, same_world. destruct (w_faults w); intros [= _ <-].
  { by destruct w. }
  done.
Qed.

Lemma query_same {A} (f : world → outcome A) w o w' : query f w = (o, w') → same_world w w'.
Proof.
  unfold query, external, mbind, M_bind. destruct (next_fault w) as [[fl| |] w1] eqn:E.
  - apply next_fault_same in E. destruct fl; unfold fail; by intros [= <- <-].
  - apply next_fault_same in E. by intros [= <- <-].
  - apply next_fault_same in E. by intros [= <- <-].
Qed.

(** A transaction that does not succeed leaves every table as it was. *)
Lemma WithTx_atomic {A} (fn : IO A) w o w' :
  WithTx false fn w = (o, w') → is_Ok o = false →
  w_env w' = w_env w ∧ w_feature w' = w_feature w ∧ w_rec w' = w_rec w ∧ audits w' = audits w.
Proof.
  unfold WithTx, WithTx_undo, external, wrapping, transaction, mbind, M_bind. intros H Ho.
  destruct (next_fault w) as [fl w1] eqn:E. pose proof (next_fault_same _ _ _ E) as Hs.
  unfold same_world in Hs.
  destruct fl as [[e|]|e|p]; simpl in H; [simplify_eq; by rewrite Hs| |simplify_eq; by rewrite Hs..].
  repeat case_match; simplify_eq/=; done || by rewrite Hs.
Qed.

(** Computations that only read: whatever their outcome, the world is the same but
    for the script. *)
Definition reads {A} (m : IO A) : Prop := ∀ w o w', m w = (o, w') → same_world w w'.

Lemma reads_query {A} (f : world → outcome A) : reads (query f).
Proof. intros w o w'. apply query_same. Qed.
Lemma reads_ret {A} (a : A) : reads (mret a).
Proof. intros w o w' [= _ <-]. apply same_world_refl. Qed.
Lemma reads_fail {A} e : reads (fail (A := A) e).
Proof. intros w o w' [= _ <-]. apply same_world_refl. Qed.
Lemma reads_lift {A} (o : outcome A) : reads (lift o).
Proof. intros w o' w' [= _ <-]. apply same_world_refl. Qed.
Lemma reads_gets {A} (f : world → A) : reads (gets f).
Proof. intros w o w' [= _ <-]. apply same_world_refl. Qed.
Lemma reads_wrapping {A} p (m : IO A) : reads m → reads (wrapping p m).
Proof. unfold wrapping. intros Hm w o w'. destruct (m w) eqn:E. intros [= _ <-]. by eapply Hm. Qed.
Lemma reads_attempt {A} (m : IO A) : reads m → reads (attempt m).
Proof.
  unfold attempt. intros Hm w o w'. destruct (m w) as [[] w1] eqn:E; intros [= _ <-]; by eapply Hm.
Qed.
Lemma reads_bind {A B} (m : IO A) (f : A → IO B) :
  reads m → (∀ a, reads (f a)) → reads (m ≫= f).
Proof.
  intros Hm Hf w o w'. unfold mbind, M_bind. destruct (m w) as [[a|e|p] w1] eqn:E.
  - intros H. eapply same_world_trans; [by eapply Hm|by eapply Hf].
  - intros [= _ <-]. by eapply Hm.
  - intros [= _ <-]. by eapply Hm.
Qed.
Lemma reads_external {A} (m : IO A) : reads m → reads (external m).
Proof.
  intros Hm. apply reads_bind; [|intros [e|]; [apply reads_fail|done]].
  intros w o w'. apply next_fault_same.
Qed.
Create HintDb reads.
#[export] Hint Resolve reads_query reads_ret reads_fail reads_lift reads_gets reads_wrapping
  reads_attempt reads_bind : reads.

(** With nothing failing. *)
Lemma external_now {A} (m : IO A) w : w_faults w = [] → external m w = m w.
Proof. intros Hf. unfold external, next_fault, mbind, M_bind. by rewrite Hf. Qed.

Lemma query_now {A} (f : world → outcome A) w : w_faults w = [] → query f w = (f w, w).
Proof. intros Hf. unfold query, external, next_fault, mbind, M_bind. by rewrite Hf. Qed.

Lemma exec_now f w : w_faults w = [] → exec f w = (Ok tt, f w).
Proof. intros Hf. unfold exec, external, next_fault, mbind, M_bind. by rewrite Hf. Qed.

(** A successful query returns its function of the world it ran in, hence of any world
    it differs from only by the script. *)
Lemma query_value {A} (f : world → outcome A) w a w' :
  query f w = (Ok a, w') → (∀ fs, f (set_w_faults fs w) = f w) → f w = Ok a.
Proof.
  intros (w1 & Hn & Hf & ->)%query_Ok Hi. apply next_fault_same in Hn.
  unfold same_world in Hn. rewrite Hn, Hi in Hf. done.
Qed.

(** Solves [reads] goals by the structure of the computation. *)
Ltac solve_reads :=
  repeat first [ apply reads_wrapping | apply reads_attempt | apply reads_query
    | apply reads_lift | apply reads_ret | apply reads_fail | apply reads_gets
    | apply reads_bind; [|intros ?] | progress case_match ].

Lemma reads_bind_Ok {A B} (m : IO A) (f : A → IO B) w b w' :
  reads m → (m ≫= f) w = (Ok b, w') →
  ∃ a w1, m w = (Ok a, w1) ∧ same_world w w1 ∧ f a w1 = (Ok b, w').
Proof.
  intros Hm (a & w1 & Ha & Hf)%bind_Ok. exists a, w1. split_and!; [done| |done]. by eapply Hm.
Qed.

Lemma same_world_rec w w' : same_world w w' → w_rec w' = w_rec w.
Proof. by intros ->. Qed.
Lemma same_world_env w w' : same_world w w' → w_env w' = w_env w.
Proof. by intros ->. Qed.
Lemma same_world_feature w w' : same_world w w' → w_feature w' = w_feature w.
Proof. by intros ->. Qed.
Lemma same_world_now w w' : same_world w w' → w_now w' = w_now w.
Proof. by intros ->. Qed.

(** Takes one reading bind of [H] apart, naming its result. *)
Ltac read_bind H a Ha Hs :=
  apply reads_bind_Ok in H; [|solve_reads]; destruct H as (a & ? & Ha & Hs & H).

Lemma reads_external_ret : reads (external (mret tt)).
Proof.
  intros w o w'. unfold external, mbind, M_bind. destruct (next_fault w) as [[fl|e|p] w1] eqn:E;
    apply next_fault_same in E; [destruct fl|..]; by intros [= _ <-].
Qed.

(** A transaction that succeeds ran its body between begin and commit. *)
Lemma WithTx_undo_Ok undo {A} (fn : IO A) w a w' :
  WithTx_undo undo fn w = (Ok a, w') →
  ∃ w1 w2, same_world w w1 ∧ fn w1 = (Ok a, w2) ∧ same_world w2 w'.
Proof.
  unfold WithTx_undo. intros (u & w1 & Hb & H)%bind_Ok.
  apply (reads_wrapping _ _ reads_external_ret) in Hb. exists w1.
  unfold transaction in H.
  destruct ((fn ≫= λ a0, wrapping "commit tx" (external (mret ())) ≫= λ _, mret a0) w1)
    as [[a'|e|p] w2] eqn:E; [|done..]. injection H as -> ->.
  apply bind_Ok in E as (a2 & w3 & Hf & (u2 & w4 & Hc & [= <- <-])%bind_Ok).
  apply (reads_wrapping _ _ reads_external_ret) in Hc. by exists w3.
Qed.

Lemma external_Ok {A} (m : IO A) w a w' :
  external m w = (Ok a, w') → ∃ w1, same_world w w1 ∧ m w1 = (Ok a, w').
Proof.
  unfold external. intros (fl & w1 & Hf & H)%bind_Ok. apply next_fault_same in Hf.
  destruct fl; [done|]. by exists w1.
Qed.

Lemma WithTx_Ok {A} (fn : IO A) w a w' :
  WithTx false fn w = (Ok a, w') →
  ∃ w1 w2, same_world w w1 ∧ fn w1 = (Ok a, w2) ∧ same_world w2 w'.
Proof. apply WithTx_undo_Ok. Qed.

(** One that does not succeed did not begin, or ran its body and then undid. *)
Lemma WithTx_undo_failed undo {A} (fn : IO A) w o w' :
  WithTx_undo undo fn w = (o, w') → is_Ok o = false →
  same_world w w' ∨
  ∃ w1 w2, same_world w w1 ∧ same_world (fn w1).2 w2 ∧ w' = undo w1 w2.
Proof.
  unfold WithTx_undo. intros H Ho. unfold mbind at 1, M_bind at 1 in H.
  destruct (wrapping "begin tx" _ w) as [ob w1] eqn:E.
  apply (reads_wrapping _ _ reads_external_ret) in E.
  destruct ob as [[]|e|p]; [|injection H as _ <-; by left..]. right. exists w1.
  unfold transaction in H.
  destruct ((fn ≫= λ a0, wrapping "commit tx" (external (mret ())) ≫= λ _, mret a0) w1)
    as [oc w2] eqn:Ec.
  assert (same_world (fn w1).2 w2 ∧ is_Ok oc = is_Ok o ∧ (is_Ok oc = false → w' = undo w1 w2))
    as (S & Hoc & Hu).
  { split; [|by destruct oc; injection H as <- <-].
    unfold mbind at 1, M_bind at 1 in Ec.
    destruct (fn w1) as [[a|e|p] w3]; cbn [snd];
      [|injection Ec as _ <-; apply same_world_refl..].
    unfold mbind, M_bind in Ec.
    destruct (wrapping "commit tx" _ w3) as [[[]|e|p] w4] eqn:Ew;
      apply (reads_wrapping _ _ reads_external_ret) in Ew; injection Ec as _ <-; done. }
  exists w2. split_and!; [done|done|]. apply Hu. by rewrite Hoc.
Qed.

Lemma preserves_external (P : world → Prop) {A} (m : IO A) :
  (∀ w fs, P w → P (set_w_faults fs w)) → preserves P m → preserves P (external m).
Proof.
  intros HP Hm. apply preserves_bind; [|intros [e|]; [apply preserves_fail|done]].
  intros w Hw. unfold next_fault. destruct (w_faults w); [done|]. by apply HP.
Qed.

(** A bind that does not succeed failed in its first part or in its second. *)
Lemma bind_inv {A B} (m : IO A) (f : A → IO B) w o w' :
  (m ≫= f) w = (o, w') → is_Ok o = false →
  (∃ o1, m w = (o1, w') ∧ is_Ok o1 = false) ∨ ∃ a w1, m w = (Ok a, w1) ∧ f a w1 = (o, w').
Proof.
  unfold mbind, M_bind. destruct (m w) as [[a|e|p] w1] eqn:E; intros H Ho;
    [right; by exists a, w1|left; injection H as <- <-; by eexists..].
Qed.
