(* ===== verification/Atomic.v ===== *)
(** * All or nothing

    Operations that report failure only when they have changed nothing, and how such
    operations compose: reads first, one change, then what cannot fail. *)

From S2P Require Export World.

Definition same_tables (w w' : world) : Prop :=
  w_env w' = w_env w ∧ w_feature w' = w_feature w ∧ w_rec w' = w_rec w ∧ audits w' = audits w.

Lemma same_world_tables w w' : same_world w w' → same_tables w w'.
Proof. intros ->. by split_and!. Qed.

(** [m] changes nothing unless it succeeds. *)
Definition all_or_nothing {A} (m : IO A) : Prop :=
  ∀ w o w', m w = (o, w') → is_Ok o = false → same_tables w w'.
(** [m] succeeds whatever happens. *)
Definition never_fails {A} (m : IO A) : Prop := ∀ w, is_Ok (m w).1 = true.

Lemma aon_reads {A} (m : IO A) : reads m → all_or_nothing m.
Proof. intros Hm w o w' H _. by eapply same_world_tables, Hm. Qed.

Lemma aon_bind_reads {A B} (m : IO A) (f : A → IO B) :
  reads m → (∀ a, all_or_nothing (f a)) → all_or_nothing (m ≫= f).
Proof.
  intros Hm Hf w o w' H Ho. unfold mbind, M_bind in H. destruct (m w) as [[a|e|p] w1] eqn:E.
  - apply Hm, same_world_tables in E as (E1 & E2 & E3 & E4).
    destruct (Hf a _ _ _ H Ho) as (F1 & F2 & F3 & F4). split_and!; congruence.
  - injection H as _ <-. by eapply same_world_tables, Hm.
  - injection H as _ <-. by eapply same_world_tables, Hm.
Qed.

Lemma aon_uuid_New {B} (f : uuid → IO B) : (∀ a, all_or_nothing (f a)) → all_or_nothing (uuid_New ≫= f).
Proof. intros Hf w o w' H Ho. unfold mbind, M_bind in H. cbn [uuid_New] in H. exact (Hf _ _ _ _ H Ho). Qed.

Lemma aon_bind_safe {A B} (m : IO A) (f : A → IO B) :
  all_or_nothing m → (∀ a, never_fails (f a)) → all_or_nothing (m ≫= f).
Proof.
  intros Hm Hf w o w' H Ho. unfold mbind, M_bind in H. destruct (m w) as [[a|e|p] w1] eqn:E.
  - specialize (Hf a w1). rewrite H in Hf. cbn in Hf. congruence.
  - injection H as _ <-. by eapply Hm.
  - injection H as _ <-. by eapply Hm.
Qed.

Lemma aon_external {A} (m : IO A) : (∀ w, is_Ok (m w).1 = false → same_tables w (m w).2) → all_or_nothing (external m).
Proof.
  intros Hm w o w' H Ho. unfold external, mbind, M_bind in H.
  destruct (next_fault w) as [[[e|]|e|p] w1] eqn:E; apply next_fault_same, same_world_tables in E as (E1 & E2 & E3 & E4).
  - injection H as _ <-. by split_and!.
  - specialize (Hm w1). rewrite H in Hm. destruct (Hm Ho) as (F1 & F2 & F3 & F4). split_and!; cbn in *; congruence.
  - injection H as _ <-. by split_and!.
  - injection H as _ <-. by split_and!.
Qed.

Lemma never_fails_ret {A} (a : A) : never_fails (mret a).
Proof. by intros w. Qed.

Lemma aon_fail {A} e : all_or_nothing (fail (A := A) e).
Proof. apply aon_reads, reads_fail. Qed.

(** A transaction is all or nothing whatever runs in it. *)
Lemma aon_WithTx {A} (m : IO A) : all_or_nothing (WithTx false m).
Proof. intros w o w'. apply WithTx_atomic. Qed.
