(* ===== verification/Queries.v ===== *)
(** * internal/reconciler/reconcilersql: the reconciler's SQL

    Each query of internal/reconciler/queries as a function of the tables and the
    call that runs it.  The views [deploy_status] and [decision_status] are the
    current tables the triggers of migration 0098 keep; an insert into a log runs
    its trigger.  Text is ordered as in [GoStd]; the order of two JSONB values is a
    parameter ([Postgres]). *)

From S2P Require Export World.

(** What the code relies on of PostgreSQL's JSONB: the text a stored value comes back
    as, and the order of label sets. *)
Class Postgres := {
  jsonb_text : string → string;
  jsonb_leb : Labels → Labels → bool;
}.

(** ** Ordering and DISTINCT ON *)

(** [ORDER BY a, b]: [lea] first, then [leb] among equals. *)
Definition then_by {A} (lea leb : A → A → bool) (x y : A) : bool :=
  lea x y && (negb (lea y x) || leb x y).

Section then_by.
Context {A : Type} (lea leb : A → A → bool)
  (Hatot : ∀ x y, lea x y = true ∨ lea y x = true)
  (Hatrans : ∀ x y z, lea x y = true → lea y z = true → lea x z = true)
  (Hbtot : ∀ x y, leb x y = true ∨ leb y x = true)
  (Hbtrans : ∀ x y z, leb x y = true → leb y z = true → leb x z = true).

Lemma then_by_true x y :
  then_by lea leb x y = true ↔ lea x y = true ∧ (lea y x = true → leb x y = true).
Proof. unfold then_by. destruct (lea x y), (lea y x), (leb x y); simpl; naive_solver. Qed.

Lemma then_by_total x y : then_by lea leb x y = true ∨ then_by lea leb y x = true.
Proof.
  rewrite !then_by_true. destruct (Hatot x y) as [H|H], (Hbtot x y) as [H'|H'];
    destruct (lea x y), (lea y x); naive_solver.
Qed.

Lemma then_by_trans x y z :
  then_by lea leb x y = true → then_by lea leb y z = true → then_by lea leb x z = true.
Proof.
  rewrite !then_by_true. intros [H1 H2] [H3 H4]. split; [by eapply Hatrans|].
  intros H5. eapply Hbtrans; [apply H2|apply H4]; by eapply Hatrans.
Qed.
End then_by.

(** [DISTINCT ON (k)] keeps the first row of each key. *)
Fixpoint distinct_first {A K} `{EqDecision K} (key : A → K) (seen : list K) (l : list A) : list A :=
  match l with
  | [] => []
  | x :: l =>
      if bool_decide (key x ∈ seen) then distinct_first key seen l
      else x :: distinct_first key (key x :: seen) l
  end.

(** ** Reads *)

Record TenantEnvironment := {
  te_ID : uuid; te_Name : string; te_Kind : EnvironmentKind; te_Labels : Labels;
  te_Reconcile : bool; te_TenantID : uuid; te_TenantName : string;
}.

Definition join_tenant (w : world) (e : EnvironmentRow) : list TenantEnvironment :=
  (λ t, {| te_ID := er_ID e; te_Name := er_Name e; te_Kind := er_Kind e; te_Labels := er_Labels e;
           te_Reconcile := er_Reconcile e; te_TenantID := t_ID t; te_TenantName := t_Name t |}) <$>
    filter (λ t, t_ID t = er_TenantID e) (tenants (w_env w)).

Definition tenant_environments (w : world) : list TenantEnvironment :=
  isort (then_by (λ a b, String.leb (te_TenantName a) (te_TenantName b))
                 (λ a b, String.leb (te_Name a) (te_Name b)))
    (concat (join_tenant w <$> environments (w_env w))).

Definition ListAllTenantEnvironments : IO (list TenantEnvironment) :=
  query (λ w, Ok (tenant_environments w)).

Definition ListHealthStatuses : IO (list (uuid * time)) :=
  query (λ w, Ok (map_to_list (health_statuses (w_rec w)))).

Definition ListDisabledFeatures : IO (list (uuid * string)) :=
  query (λ w, Ok ((map_to_list (disabled_features (w_feature w))).*1)).

Definition ListAllGlobalConfigs : IO (list ConfigurationsGlobal) :=
  query (λ w, Ok (isort (then_by (λ a b, String.leb (cg_Feature a) (cg_Feature b))
                                 (λ a b, String.leb (cg_Key a) (cg_Key b)))
                    (configurations_global (w_feature w)))).

Definition ListAllEnvConfigs : IO (list ConfigurationsEnvironment) :=
  query (λ w, Ok (isort (then_by (λ a b, N.leb (ce_EnvironmentID a) (ce_EnvironmentID b))
                          (then_by (λ a b, String.leb (ce_Feature a) (ce_Feature b))
                                   (λ a b, String.leb (ce_Key a) (ce_Key b))))
                    (configurations_environment (w_feature w)))).

Definition ListAllEnvironmentValues : IO (list EnvironmentValueRow) :=
  query (λ w, Ok (isort (then_by (λ a b, N.leb (ev_EnvironmentID a) (ev_EnvironmentID b))
                                 (λ a b, String.leb (ev_Key a) (ev_Key b)))
                    (environment_values (w_env w)))).

(** The rows of a current table ordered by environment and feature. *)
Definition deploy_status (w : world) : list DeployRow :=
  isort (then_by (λ a b, N.leb (dl_EnvironmentID a) (dl_EnvironmentID b))
                 (λ a b, String.leb (dl_FeatureName a) (dl_FeatureName b)))
    ((map_to_list (deploy_current (w_rec w))).*2).
Definition decision_status (w : world) : list DecisionRow :=
  isort (then_by (λ a b, N.leb (cl_EnvironmentID a) (cl_EnvironmentID b))
                 (λ a b, String.leb (cl_FeatureName a) (cl_FeatureName b)))
    ((map_to_list (decision_current (w_rec w))).*2).

Definition ListLatestDeploys : IO (list DeployRow) := query (λ w, Ok (deploy_status w)).

Definition ListDeployedFeatures : IO (list DeployRow) :=
  query (λ w, Ok (filter (λ r, dl_Status r = DeployStatusDeployed) (deploy_status w))).

Definition ListLatestDecisions : IO (list DecisionRow) := query (λ w, Ok (decision_status w)).

(** ** Appending to the logs *)

Definition insert_deploy (mk : N → time → DeployRow) (w : world) : world :=
  let r := mk (next_log_id (w_rec w)) (w_now w) in
  set_w_rec (set_next_log_id N.succ ∘ set_deploy_log (λ l, l ++ [r]) ∘
             set_deploy_current (λ m, log_to_current m r)) w.

Definition insert_decision (mk : N → time → DecisionRow) (w : world) : world :=
  let r := mk (next_log_id (w_rec w)) (w_now w) in
  set_w_rec (set_next_log_id N.succ ∘ set_decision_log (λ l, l ++ [r]) ∘
             set_decision_current (λ m, log_to_current m r)) w.

Record AppendDecisionsParams := {
  ad_EnvironmentID : uuid; ad_FeatureAssignmentID : uuid; ad_FeatureName : string;
  ad_FeatureVersion : string; ad_Action : string; ad_Message : string;
}.
Definition decision_of (p : AppendDecisionsParams) (id : N) (now : time) : DecisionRow :=
  {| cl_id := id; cl_EnvironmentID := ad_EnvironmentID p;
     cl_FeatureAssignmentID := ad_FeatureAssignmentID p; cl_FeatureName := ad_FeatureName p;
     cl_FeatureVersion := ad_FeatureVersion p; cl_Action := ad_Action p;
     cl_Message := ad_Message p; cl_Created := now |}.

(** COPY: all rows or none. *)
Definition AppendDecisions (ps : list AppendDecisionsParams) : IO unit :=
  exec (λ w, foldl (λ w p, insert_decision (decision_of p) w) w ps).

Record AppendDeploysParams := {
  ap_Diid : uuid; ap_EnvironmentID : uuid; ap_FeatureAssignmentID : uuid;
  ap_FeatureName : string; ap_FeatureVersion : string; ap_Status : string; ap_Hash : string;
  ap_Vals : string;
}.
Definition deploy_of (p : AppendDeploysParams) (id : N) (now : time) : DeployRow :=
  {| dl_id := id; dl_Diid := ap_Diid p; dl_EnvironmentID := ap_EnvironmentID p;
     dl_FeatureAssignmentID := ap_FeatureAssignmentID p; dl_FeatureName := ap_FeatureName p;
     dl_FeatureVersion := ap_FeatureVersion p; dl_Status := ap_Status p; dl_Hash := ap_Hash p;
     dl_Values := ap_Vals p; dl_Created := now |}.

Definition AppendDeploys (ps : list AppendDeploysParams) : IO unit :=
  exec (λ w, foldl (λ w p, insert_deploy (deploy_of p) w) w ps).

(** [values] takes its default, the empty object. *)
Definition AppendDeployStatus (diid env fa : uuid) (name version status hash : string) : IO unit :=
  exec (insert_deploy (deploy_of
    {| ap_Diid := diid; ap_EnvironmentID := env; ap_FeatureAssignmentID := fa;
       ap_FeatureName := name; ap_FeatureVersion := version; ap_Status := status;
       ap_Hash := hash; ap_Vals := "{}" |})).

(** The latest of the rows with the given diid, by [created DESC, id DESC]. *)
Definition deploy_newest_first (l : list DeployRow) : list DeployRow :=
  isort (λ a b, negb (newer b a)) l.

Definition LatestDeployByDIID (diid : uuid) : IO DeployRow :=
  query (λ w,
    match deploy_newest_first (filter (λ r, dl_Diid r = diid) (deploy_log (w_rec w))) with
    | r :: _ => Ok r
    | [] => Err ErrNoRows
    end).

(** [INSERT .. SELECT]: the rows are selected before the first is inserted. *)
Definition timed_out (now : time) (r : DeployRow) : bool :=
  bool_decide (dl_Status r ∈ [DeployStatusSent; DeployStatusInstalling]) &&
  (dl_Created r <? now - Hour)%Z.

Definition fail_row (r : DeployRow) : AppendDeploysParams :=
  {| ap_Diid := dl_Diid r; ap_EnvironmentID := dl_EnvironmentID r;
     ap_FeatureAssignmentID := dl_FeatureAssignmentID r; ap_FeatureName := dl_FeatureName r;
     ap_FeatureVersion := dl_FeatureVersion r; ap_Status := DeployStatusFailed;
     ap_Hash := dl_Hash r; ap_Vals := "{}" |}.

Definition timeout_pending (w : world) : world :=
  foldl (λ w r, insert_deploy (deploy_of (fail_row r)) w) w
    (filter (λ r, timed_out (w_now w) r = true) (deploy_status w)).

Definition TimeoutPendingDeploys_query : IO unit := exec timeout_pending.

(** ** Release statuses and helm logs *)

Definition DeleteReleaseStatusesInEnvironment (env : uuid) : IO unit :=
  exec (set_w_rec (set_release_statuses (filter (λ kv, kv.1.1 ≠ env)))).

Definition SetReleaseStatus (env : uuid) (feature : string) (r : ReleaseStatusRow) : IO unit :=
  exec (set_w_rec (set_release_statuses (insert (env, feature) r))).

(** A batch of inserts, which PostgreSQL runs as one implicit transaction. *)
Definition LogsCreate (rows : list LogRow) : IO unit :=
  if bool_decide (rows = []) then mret tt
  else exec (set_w_rec (set_logs (λ l, l ++ rows))).

(** ** Reads behind status and history pages *)

Definition by_env_deploy (l : list DeployRow) : list DeployRow :=
  isort (λ a b, N.leb (dl_EnvironmentID a) (dl_EnvironmentID b)) l.
Definition by_env_decision (l : list DecisionRow) : list DecisionRow :=
  isort (λ a b, N.leb (cl_EnvironmentID a) (cl_EnvironmentID b)) l.

Definition ListDecisionStatuses (fa : uuid) : IO (list DecisionRow) :=
  query (λ w, Ok (by_env_decision
    (filter (λ r, cl_FeatureAssignmentID r = fa) ((map_to_list (decision_current (w_rec w))).*2)))).

Definition ListDeployStatuses (fa : uuid) : IO (list DeployRow) :=
  query (λ w, Ok (by_env_deploy
    (filter (λ r, dl_FeatureAssignmentID r = fa) ((map_to_list (deploy_current (w_rec w))).*2)))).

Definition ListAllDecisionStatuses : IO (list DecisionRow) :=
  query (λ w, Ok (isort (then_by
      (λ a b, N.leb (cl_FeatureAssignmentID a) (cl_FeatureAssignmentID b))
      (λ a b, N.leb (cl_EnvironmentID a) (cl_EnvironmentID b)))
    ((map_to_list (decision_current (w_rec w))).*2))).

Definition ListAllDeployStatuses : IO (list DeployRow) :=
  query (λ w, Ok (isort (then_by
      (λ a b, N.leb (dl_FeatureAssignmentID a) (dl_FeatureAssignmentID b))
      (λ a b, N.leb (dl_EnvironmentID a) (dl_EnvironmentID b)))
    ((map_to_list (deploy_current (w_rec w))).*2))).

Definition ListRecentDeploys_query (lim : nat) : IO (list DeployRow) :=
  query (λ w, Ok (take lim (deploy_newest_first (deploy_log (w_rec w))))).

Definition ListDecisionLog_query (env : uuid) (feature : string) : IO (list DecisionRow) :=
  query (λ w, Ok (take 50 (isort (λ a b, negb (newer b a))
    (filter (λ r, cl_EnvironmentID r = env ∧ cl_FeatureName r = feature)
       (decision_log (w_rec w)))))).

(** ** The tables' invariant *)

(** The current tables agree with the logs, ids are unique and below the sequence,
    and no row is from the future. *)
Record logs_wf (w : world) : Prop := {
  wf_deploy_current : deploy_current (w_rec w) = foldl log_to_current ∅ (deploy_log (w_rec w));
  wf_decision_current :
    decision_current (w_rec w) = foldl log_to_current ∅ (decision_log (w_rec w));
  wf_deploy_ids : NoDup (dl_id <$> deploy_log (w_rec w));
  wf_decision_ids : NoDup (cl_id <$> decision_log (w_rec w));
  wf_deploy_bound : ∀ r, r ∈ deploy_log (w_rec w) →
    (dl_id r < next_log_id (w_rec w))%N ∧ (dl_Created r <= w_now w)%Z;
  wf_decision_bound : ∀ r, r ∈ decision_log (w_rec w) →
    (cl_id r < next_log_id (w_rec w))%N ∧ (cl_Created r <= w_now w)%Z;
}.

Lemma insert_deploy_wf p w : logs_wf w → logs_wf (insert_deploy (deploy_of p) w).
Proof.
  intros [H1 H2 H3 H4 H5 H6]. unfold insert_deploy. split; simpl.
  - by rewrite foldl_app, <-H1.
  - done.
  - rewrite fmap_app. simpl. apply NoDup_app. split_and!; [done| |apply NoDup_singleton].
    intros i (r & -> & Hr)%list_elem_of_fmap Hi%list_elem_of_singleton.
    apply H5 in Hr. lia.
  - done.
  - intros r [Hr|Hr%list_elem_of_singleton]%elem_of_app; [apply H5 in Hr; lia|].
    subst r. simpl. lia.
  - intros r Hr. apply H6 in Hr. lia.
Qed.

Lemma insert_decision_wf p w : logs_wf w → logs_wf (insert_decision (decision_of p) w).
Proof.
  intros [H1 H2 H3 H4 H5 H6]. unfold insert_decision. split; simpl.
  - done.
  - by rewrite foldl_app, <-H2.
  - done.
  - rewrite fmap_app. simpl. apply NoDup_app. split_and!; [done| |apply NoDup_singleton].
    intros i (r & -> & Hr)%list_elem_of_fmap Hi%list_elem_of_singleton.
    apply H6 in Hr. lia.
  - intros r Hr. apply H5 in Hr. lia.
  - intros r [Hr|Hr%list_elem_of_singleton]%elem_of_app; [apply H6 in Hr; lia|].
    subst r. simpl. lia.
Qed.

Lemma logs_wf_faults fs w : logs_wf w → logs_wf (set_w_faults fs w).
Proof. by intros [H1 H2 H3 H4 H5 H6]. Qed.

(** A row appended now becomes the current one of its key. *)
Lemma insert_deploy_current p w :
  logs_wf w →
  let r := deploy_of p (next_log_id (w_rec w)) (w_now w) in
  deploy_current (w_rec (insert_deploy (deploy_of p) w)) =
    <[log_key r := r]> (deploy_current (w_rec w)).
Proof.
  intros Hwf r. apply (log_to_current_new (deploy_current (w_rec w)) r). intros c Hc.
  rewrite (wf_deploy_current _ Hwf) in Hc.
  pose proof (log_to_current_latest (deploy_log (w_rec w)) (ap_EnvironmentID p, ap_FeatureName p))
    as Hl. simpl in Hc. rewrite Hc in Hl. destruct Hl as (Hin & _ & _).
  apply (wf_deploy_bound _ Hwf) in Hin as [Hid Hcr]. unfold newer. simpl.
  apply orb_true_iff. rewrite andb_true_iff, Z.ltb_lt, Z.eqb_eq, N.ltb_lt. lia.
Qed.

Lemma insert_decision_current p w :
  logs_wf w →
  let r := decision_of p (next_log_id (w_rec w)) (w_now w) in
  decision_current (w_rec (insert_decision (decision_of p) w)) =
    <[log_key r := r]> (decision_current (w_rec w)).
Proof.
  intros Hwf r. apply (log_to_current_new (decision_current (w_rec w)) r). intros c Hc.
  rewrite (wf_decision_current _ Hwf) in Hc.
  pose proof (log_to_current_latest (decision_log (w_rec w))
    (ad_EnvironmentID p, ad_FeatureName p)) as Hl.
  simpl in Hc. rewrite Hc in Hl. destruct Hl as (Hin & _ & _).
  apply (wf_decision_bound _ Hwf) in Hin as [Hid Hcr]. unfold newer. simpl.
  apply orb_true_iff. rewrite andb_true_iff, Z.ltb_lt, Z.eqb_eq, N.ltb_lt. lia.
Qed.

Lemma deploy_current_key w k r :
  logs_wf w → deploy_current (w_rec w) !! k = Some r → log_key r = k.
Proof.
  intros Hwf Hk. rewrite (wf_deploy_current _ Hwf) in Hk.
  pose proof (log_to_current_latest (deploy_log (w_rec w)) k) as Hl. rewrite Hk in Hl. apply Hl.
Qed.

Lemma decision_current_key w k r :
  logs_wf w → decision_current (w_rec w) !! k = Some r → log_key r = k.
Proof.
  intros Hwf Hk. rewrite (wf_decision_current _ Hwf) in Hk.
  pose proof (log_to_current_latest (decision_log (w_rec w)) k) as Hl. rewrite Hk in Hl. apply Hl.
Qed.

Lemma elem_of_deploy_status w r :
  logs_wf w → r ∈ deploy_status w ↔ deploy_current (w_rec w) !! log_key r = Some r.
Proof.
  intros Hwf. unfold deploy_status. rewrite elem_of_isort, list_elem_of_fmap. split.
  - intros ([k r'] & -> & Hk%elem_of_map_to_list).
    pose proof (deploy_current_key _ _ _ Hwf Hk). by subst k.
  - intros Hk. exists (log_key r, r). split; [done|]. by apply elem_of_map_to_list.
Qed.

Lemma elem_of_decision_status w r :
  logs_wf w → r ∈ decision_status w ↔ decision_current (w_rec w) !! log_key r = Some r.
Proof.
  intros Hwf. unfold decision_status. rewrite elem_of_isort, list_elem_of_fmap. split.
  - intros ([k r'] & -> & Hk%elem_of_map_to_list).
    pose proof (decision_current_key _ _ _ Hwf Hk). by subst k.
  - intros Hk. exists (log_key r, r). split; [done|]. by apply elem_of_map_to_list.
Qed.

(** C8.  The view [deploy_status] over the table the trigger of migration 0098 maintains is
    the view it replaced: a row is in it exactly when it is the latest row of the log, by
    time and id, for its environment and feature; the same table results whatever the
    order in which concurrent inserts reach the trigger; and appending a row keeps all
    this true and makes that row the current one of its environment and feature. *)
Theorem deploy_current_refines (w : world) (arrivals : list DeployRow) p :
  logs_wf w → arrivals ≡ₚ deploy_log (w_rec w) →
  (∀ r, r ∈ deploy_status w ↔ distinct_on (deploy_log (w_rec w)) (log_key r) = Some r) ∧
  foldl log_to_current ∅ arrivals = deploy_current (w_rec w) ∧
  let w' := insert_deploy (deploy_of p) w in
  logs_wf w' ∧
  deploy_of p (next_log_id (w_rec w)) (w_now w) ∈ deploy_status w'.
Proof.
  intros Hwf HP.
  assert (Hids : NoDup (log_id (R := DeployRow) <$> deploy_log (w_rec w)))
    by exact (wf_deploy_ids _ Hwf).
  split_and!; [| |split; [by apply insert_deploy_wf|]].
  - intros r. rewrite elem_of_deploy_status, (wf_deploy_current _ Hwf) by done.
    by rewrite (current_is_distinct_on _ (deploy_log (w_rec w))).
  - apply map_eq. intros k. rewrite (wf_deploy_current _ Hwf).
    rewrite (current_is_distinct_on arrivals (deploy_log (w_rec w))) by (by rewrite ?HP).
    by rewrite (current_is_distinct_on _ (deploy_log (w_rec w))).
  - rewrite elem_of_deploy_status by by apply insert_deploy_wf.
    rewrite insert_deploy_current by done. apply lookup_insert_eq.
Qed.

Definition example_deploy (id : N) (status : string) (created : time) : DeployRow :=
  {| dl_id := id; dl_Diid := 1; dl_EnvironmentID := 7; dl_FeatureAssignmentID := 1;
     dl_FeatureName := "app"; dl_FeatureVersion := "1.0.0"; dl_Status := status; dl_Hash := "h";
     dl_Values := "{}"; dl_Created := created |}.

(** A log of two rows of one transaction, written at the same instant. *)
Definition example_logged : world :=
  let log := [example_deploy 1 DeployStatusSent 5; example_deploy 2 DeployStatusDeployed 5] in
  {| w_env := {| tenants := []; environments := []; environment_values := [] |};
     w_feature := {| feature_data := []; feature_assignments := []; configurations_global := [];
                     configurations_environment := []; disabled_features := ∅ |};
     w_rec := {| deploy_log := log; deploy_current := foldl log_to_current ∅ log;
                 decision_log := []; decision_current := ∅; next_log_id := 3;
                 release_statuses := ∅; logs := []; health_statuses := ∅ |};
     audits := []; w_now := 9; w_next_uuid := 1000; w_faults := []; published := [];
     slack_posts := [] |}.

Lemma example_logged_wf : logs_wf example_logged.
Proof.
  split; [reflexivity|reflexivity| |apply NoDup_nil_2| |].
  - apply (bool_decide_unpack _). vm_compute. exact I.
  - intros r Hr. cbn in Hr |- *.
    apply elem_of_cons in Hr as [->|Hr%list_elem_of_singleton]; [|subst r]; simpl; lia.
  - by intros r Hr%elem_of_nil.
Qed.

Lemma deploy_current_refines_witness :
  let a := example_deploy 1 DeployStatusSent 5 in
  let b := example_deploy 2 DeployStatusDeployed 5 in
  foldl log_to_current ∅ [b; a] = deploy_current (w_rec example_logged) ∧
  b ∈ deploy_status example_logged.
Proof.
  intros a b.
  destruct (deploy_current_refines example_logged [b; a]
    {| ap_Diid := 9; ap_EnvironmentID := 7; ap_FeatureAssignmentID := 1;
       ap_FeatureName := "app"; ap_FeatureVersion := "1.0.0"; ap_Status := DeployStatusSent;
       ap_Hash := "h"; ap_Vals := "{}" |}) as (Hview & Htable & _).
  - exact example_logged_wf.
  - apply Permutation_swap.
  - split; [exact Htable|]. apply Hview. vm_compute. reflexivity.
Defined.
