(* ===== verification/Fetch.v ===== *)
(** * internal/reconciler/fetch.go: the snapshot

    What a reconciliation reads, in one record.  The source runs the reads of the
    snapshot in concurrent goroutines of an errgroup; they only read, so the model
    runs them one after the other and returns the first error. *)

From S2P Require Export Queries.

(** Decoding of the JSON columns of feature_data: encoding/json on the types of
    internal/feature/model.go, with the types of configuration values as the text spells
    them. *)
Class FeatureCodec := {
  decode_Dependencies : string → outcome (list Dependency);
  json_Unmarshal_Values : string → outcome Values;
  decode_DefaultValues : string → outcome (gmap string string);
}.

Definition with_type (f : string → string) (v : Value) : Value :=
  {| v_Description := v_Description v; v_DisplayName := v_DisplayName v; v_Required := v_Required v;
     v_Computed := v_Computed v;
     v_Config := (λ c, {| c_Type := f (c_Type c); c_Secret := c_Secret c |}) <$> v_Config v;
     v_IgnoreKind := v_IgnoreKind v |}.

(** The method UnmarshalJSON of ConfigType lowers the case. *)
Definition decode_Values `{codec : FeatureCodec} (s : string) : outcome Values :=
  fmap_ok (fmap (with_type ToLower)) (json_Unmarshal_Values s).

Section fetch.
Context `{ext : External} `{pg : Postgres} `{codec : FeatureCodec}.

(** ** Assignments *)

Record LatestAssignmentRow := { la_assignment : AssignmentRow; la_data : FeatureDatum }.

Definition join_data (w : world) (a : AssignmentRow) : list LatestAssignmentRow :=
  (λ d, {| la_assignment := a; la_data := d |}) <$>
    filter (λ d, fd_Name d = ar_FeatureName a ∧ fd_Version d = ar_Version a)
      (feature_data (w_feature w)).

Definition latest_order : LatestAssignmentRow → LatestAssignmentRow → bool :=
  then_by (λ a b, String.leb (ar_FeatureName (la_assignment a)) (ar_FeatureName (la_assignment b)))
    (then_by (λ a b, jsonb_leb (ar_Target (la_assignment a)) (ar_Target (la_assignment b)))
      (λ a b, (ar_Created (la_assignment b) <=? ar_Created (la_assignment a))%Z)).

Definition latest_assignments (w : world) : list LatestAssignmentRow :=
  distinct_first (λ r, (ar_FeatureName (la_assignment r), ar_Target (la_assignment r))) []
    (isort latest_order
      (concat (join_data w <$> filter (λ a, ar_Active a = true) (feature_assignments (w_feature w))))).

Definition ListLatestFeatureAssignments : IO (list LatestAssignmentRow) :=
  query (λ w, Ok (latest_assignments w)).

Definition assignmentFromRow (row : LatestAssignmentRow) : outcome reconcileAssignment :=
  let a := la_assignment row in
  let d := la_data row in
  let! deps := wrap ("unmarshal dependencies for " +:+ ar_FeatureName a)
                 (decode_Dependencies (fd_Dependencies d)) in
  let! values := wrap ("unmarshal values for " +:+ ar_FeatureName a)
                   (decode_Values (fd_Values d)) in
  let! defaults := wrap ("unmarshal default values for " +:+ ar_FeatureName a)
                     (decode_DefaultValues (fd_DefaultValues d)) in
  Ok {| ra_ID := ar_ID a;
        ra_Feature :=
          {| f_YAML := {| Dependencies := deps; EnvironmentKinds := fd_Kinds d;
                          Timeout := fd_Timeout d * Millisecond; f_Values := values |};
             f_Name := ar_FeatureName a; f_Chart := fd_Chart d; f_Version := ar_Version a;
             f_Description := fd_Description d; f_Source := fd_Source d;
             f_ValuesYAML := defaults; f_SpecVersion := "v2"; f_TplDetails := fd_TplDetails d |};
        ra_TargetLabels := ar_Target a; ra_Created := ar_Created a |}.

(** ** Indexes *)

(** [m[k] = append(m[k], v)] *)
Definition append_at {K V} `{Countable K} (m : gmap K (list V)) (k : K) (v : V)
    : gmap K (list V) :=
  <[k := default [] (m !! k) ++ [v]]> m.
(** [m[a][b] = v], making the inner map when needed *)
Definition insert_at {V} (m : gmap N (gmap string V)) (a : N) (b : string) (v : V)
    : gmap N (gmap string V) :=
  <[a := <[b := v]> (default ∅ (m !! a))]> m.

Definition buildGlobalConfigMap : IO (gmap string (list MergedConfigRow)) :=
  rows ← wrapping "list global configs" ListAllGlobalConfigs;
  mret (foldl (λ m row, append_at m (cg_Feature row) (global_row row)) ∅ rows).

Definition buildEnvConfigMap : IO (gmap N (gmap string (list MergedConfigRow))) :=
  rows ← wrapping "list env configs" ListAllEnvConfigs;
  mret (foldl (λ m row,
                 let inner := default ∅ (m !! ce_EnvironmentID row) in
                 <[ce_EnvironmentID row := append_at inner (ce_Feature row) (env_row row)]> m)
              ∅ rows).

(** ** Environment values *)

(** The values of one environment: its name and kind, then its rows, which may
    replace them. *)
Definition env_vals (name : string) (kind : EnvironmentKind) (rows : list EnvironmentValueRow)
    (err : EnvironmentValueRow → string) : outcome gomap :=
  ofold (λ vals v, let! val := wrap (err v) (json_Unmarshal (ev_Value v)) in
                   Ok (<[ev_Key v := val]> vals))
    (<["kind" := VStr kind]> (<["name" := VStr name]> ∅)) rows.

Definition values_of (byEnv : gmap N (list EnvironmentValueRow)) (e : TenantEnvironment)
    : list EnvironmentValueRow := default [] (byEnv !! te_ID e).

Definition parse_env (byEnv : gmap N (list EnvironmentValueRow)) (e : TenantEnvironment)
    : outcome (TenantEnvironment * gomap) :=
  let! vals := env_vals (te_Name e) (te_Kind e) (values_of byEnv e)
    (λ v, "unmarshal env value " +:+ (te_Name e +:+ ("/" +:+ ev_Key v))) in
  Ok (e, vals).

(** The last management environment, and the others in order. *)
Definition tenant_view (parsed : list (TenantEnvironment * gomap)) : option gomap * list gomap :=
  foldl (λ acc other,
           if bool_decide (te_Kind other.1 = EnvironmentKindManagement)
           then (Some other.2, acc.2) else (acc.1, acc.2 ++ [other.2]))
    (None, []) parsed.

Definition build_one (aud tenantName : string) (byEnv : gmap N (list EnvironmentValueRow))
    (parsed : list (TenantEnvironment * gomap)) (result : gmap N ComputedValues)
    (target : TenantEnvironment * gomap) : outcome (gmap N ComputedValues) :=
  let! envVals := env_vals (te_Name target.1) (te_Kind target.1) (values_of byEnv target.1)
    (λ _, "unmarshal env value") in
  let (management, envs) := tenant_view parsed in
  Ok (<[te_ID target.1 :=
          {| cv_Kind := te_Kind target.1; cv_Tenant := tenantName; cv_Fasit := aud;
             cv_Management := management; cv_Env := Some envVals; cv_Envs := envs;
             cv_Configs := None |}]> result).

Definition build_tenant (aud : string) (byEnv : gmap N (list EnvironmentValueRow))
    (tenantNames : gmap N string) (result : gmap N ComputedValues)
    (te : N * list TenantEnvironment) : outcome (gmap N ComputedValues) :=
  let! parsed := omapM (parse_env byEnv) te.2 in
  ofold (build_one aud (default "" (tenantNames !! te.1)) byEnv parsed) result parsed.

(** [aud] is the process-wide IAP audience.  Tenants are visited in the order of
    [map_to_list]; each writes only its own environments. *)
Definition envValues (aud : string) (valueRows : list EnvironmentValueRow)
    (envRows : list TenantEnvironment) : outcome (gmap N ComputedValues) :=
  let byEnv := foldl (λ m v, append_at m (ev_EnvironmentID v) v) ∅ valueRows in
  let tenantEnvs := foldl (λ m e, append_at m (te_TenantID e) e) ∅ envRows in
  let tenantNames := foldl (λ m e, <[te_TenantID e := te_TenantName e]> m) ∅ envRows in
  ofold (build_tenant aud byEnv tenantNames) ∅ (map_to_list tenantEnvs).

Definition buildEnvValues (aud : string) (envRows : list TenantEnvironment)
    : IO (gmap N ComputedValues) :=
  valueRows ← wrapping "list env values" ListAllEnvironmentValues;
  lift (envValues aud valueRows envRows).

(** ** The snapshot *)

Definition environment_of (row : TenantEnvironment) : environment :=
  {| e_ID := te_ID row; e_Name := te_Name row; e_Kind := te_Kind row; e_Labels := te_Labels row;
     e_TenantID := te_TenantID row; e_TenantName := te_TenantName row |}.

Definition instruction_of (row : DeployRow) : latestInstruction :=
  {| li_Hash := dl_Hash row; li_Status := dl_Status row |}.

Definition fetchSnapshot (aud : string) : IO snapshot :=
  allEnvRows ← wrapping "list environments" ListAllTenantEnvironments;
  health ← wrapping "list health" ListHealthStatuses;
  rows ← wrapping "list assignments" ListLatestFeatureAssignments;
  deps ← lift (omapM assignmentFromRow rows);
  disabled ← wrapping "list disabled" ListDisabledFeatures;
  globalConfig ← buildGlobalConfigMap;
  envConfig ← buildEnvConfigMap;
  vals ← buildEnvValues aud allEnvRows;
  instructions ← wrapping "list instructions" ListLatestDeploys;
  deployed ← wrapping "list deployed" ListDeployedFeatures;
  mret {|
    s_environments := environment_of <$> filter (λ e, te_Reconcile e = true) allEnvRows;
    s_assignments := deps;
    s_healthByEnv := list_to_map (reverse health);
    s_disabledByEnv := foldl (λ m d, insert_at m d.1 d.2 true) ∅ disabled;
    s_globalConfig := globalConfig;
    s_envConfig := envConfig;
    s_envValues := vals;
    s_envKinds := foldl (λ m e, <[te_ID e := te_Kind e]> m) ∅ allEnvRows;
    s_envTenantNames := foldl (λ m e, <[te_ID e := te_TenantName e]> m) ∅ allEnvRows;
    s_latestInstr := foldl (λ m r, insert_at m (dl_EnvironmentID r) (dl_FeatureName r)
                                     (instruction_of r)) ∅ instructions;
    s_deployedFeats := foldl (λ m r, insert_at m (dl_EnvironmentID r) (dl_FeatureName r) true)
                         ∅ deployed;
  |}.

(** ** What the snapshot says *)

Lemma insert_at_lookup {V} (m : gmap N (gmap string V)) a b v x y :
  default ∅ (insert_at m a b v !! x) !! y =
  if decide (a = x ∧ b = y) then Some v else default ∅ (m !! x) !! y.
Proof.
  unfold insert_at. destruct (decide (a = x)) as [<-|Ha].
  - rewrite lookup_insert_eq. simpl. destruct (decide (b = y)) as [<-|Hb].
    + rewrite lookup_insert_eq. by rewrite decide_True.
    + rewrite lookup_insert_ne by done. rewrite decide_False by naive_solver. done.
  - rewrite lookup_insert_ne by done. rewrite decide_False by naive_solver. done.
Qed.

(** Filling a nested index from rows with distinct keys. *)
Lemma index_lookup {R V} (a : R → N) (b : R → string) (v : R → V) rows x y r :
  (∀ r', r' ∈ rows → a r' = x → b r' = y → r' = r) →
  default ∅ (foldl (λ m r, insert_at m (a r) (b r) (v r)) ∅ rows !! x) !! y =
  if decide (Exists (λ r', a r' = x ∧ b r' = y) rows) then Some (v r) else None.
Proof.
  intros Hu. induction rows as [|r' rows IH] using rev_ind.
  - rewrite decide_False; [done|]. by intros H%Exists_nil.
  - rewrite foldl_app. cbn [foldl]. rewrite insert_at_lookup.
    destruct (decide (a r' = x ∧ b r' = y)) as [[Ha Hb]|Hn].
    + rewrite decide_True.
      * rewrite <-(Hu r'); [done| |done|done]. apply elem_of_app. right. by left.
      * apply Exists_app. right. by constructor.
    + rewrite IH.
      * apply decide_ext. rewrite Exists_app, Exists_cons. split; [by left|].
        intros [?|[?|H%Exists_nil]]; done.
      * intros r'' Hr''. apply Hu, elem_of_app. by left.
Qed.

Lemma fetchSnapshot_reads aud : reads (fetchSnapshot aud).
Proof.
  unfold fetchSnapshot, buildGlobalConfigMap, buildEnvConfigMap, buildEnvValues.
  solve_reads.
Qed.

Lemma latestInstr_lookup w env feature :
  logs_wf w →
  default ∅ (foldl (λ m r, insert_at m (dl_EnvironmentID r) (dl_FeatureName r)
    (instruction_of r)) ∅ (deploy_status w) !! env) !! feature =
  instruction_of <$> deploy_current (w_rec w) !! (env, feature).
Proof.
  intros Hwf. destruct (deploy_current (w_rec w) !! (env, feature)) as [r|] eqn:E; simpl.
  - rewrite (index_lookup _ _ _ _ _ _ r).
    + rewrite decide_True; [done|]. apply Exists_exists. exists r.
      pose proof (deploy_current_key _ _ _ Hwf E) as Hk. simpl in Hk. simplify_eq.
      split; [by apply elem_of_deploy_status|done].
    + intros r' Hr' Ha Hb. apply elem_of_deploy_status in Hr'; [|done]. simpl in Hr'.
      rewrite Ha, Hb in Hr'. congruence.
  - destruct (deploy_status w) as [|r0 rows] eqn:Er; [done|].
    rewrite (index_lookup _ _ _ _ _ _ r0).
    + rewrite decide_False; [done|]. intros (r & Hr & Ha & Hb)%Exists_exists.
      rewrite <-Er in Hr. apply elem_of_deploy_status in Hr; [|done]. simpl in Hr. congruence.
    + intros r Hr Ha Hb. rewrite <-Er in Hr. apply elem_of_deploy_status in Hr; [|done].
      simpl in Hr. congruence.
Qed.

Lemma deployedFeats_lookup w env feature :
  logs_wf w →
  set_has (default ∅ (foldl (λ m r, insert_at m (dl_EnvironmentID r) (dl_FeatureName r) true) ∅
    (filter (λ r, dl_Status r = DeployStatusDeployed) (deploy_status w)) !! env)) feature = true ↔
  dl_Status <$> deploy_current (w_rec w) !! (env, feature) = Some DeployStatusDeployed.
Proof.
  intros Hwf. unfold set_has.
  assert (Hu : ∀ r r', r ∈ filter (λ r, dl_Status r = DeployStatusDeployed) (deploy_status w) →
    dl_EnvironmentID r = env → dl_FeatureName r = feature →
    deploy_current (w_rec w) !! (env, feature) = Some r' → r = r').
  { intros r r' [_ Hr]%list_elem_of_filter Ha Hb Hc.
    apply elem_of_deploy_status in Hr; [|done]. simpl in Hr. congruence. }
  destruct (deploy_current (w_rec w) !! (env, feature)) as [r|] eqn:E; simpl.
  - rewrite (index_lookup _ _ _ _ _ _ r); [|by intros; eapply Hu].
    pose proof (deploy_current_key _ _ _ Hwf E) as Hk. simpl in Hk. simplify_eq.
    case_decide as Hd; simpl.
    + apply Exists_exists in Hd as (r' & Hr' & Ha & Hb). split; [intros _|done].
      rewrite <-(Hu r' r); [|done..]. apply list_elem_of_filter in Hr' as [-> _]. done.
    + split; [done|]. intros [= Hs]. exfalso. apply Hd, Exists_exists. exists r.
      split; [|done]. apply list_elem_of_filter. split; [done|]. by apply elem_of_deploy_status.
  - split; [|done]. intros Ht. exfalso. revert Ht.
    set (rows := filter _ (deploy_status w)) in *.
    assert (Hno : ∀ r, r ∈ rows → ¬ (dl_EnvironmentID r = env ∧ dl_FeatureName r = feature)).
    { intros r [_ Hr]%list_elem_of_filter [Ha Hb].
      apply elem_of_deploy_status in Hr; [|done]. simpl in Hr. congruence. }
    destruct rows as [|r0 rows]; [by vm_compute|].
    rewrite (index_lookup _ _ _ _ _ _ r0).
    + rewrite decide_False; [done|]. intros (r & Hr & Hab)%Exists_exists.
      by apply (Hno r).
    + intros r Hr Ha Hb. by destruct (Hno r Hr).
Qed.

Lemma fetchSnapshot_index aud w snap w' :
  fetchSnapshot aud w = (Ok snap, w') →
  s_latestInstr snap = foldl (λ m r, insert_at m (dl_EnvironmentID r)
      (dl_FeatureName r) (instruction_of r)) ∅ (deploy_status w) ∧
  s_deployedFeats snap = foldl (λ m r, insert_at m (dl_EnvironmentID r) (dl_FeatureName r) true)
      ∅ (filter (λ r, dl_Status r = DeployStatusDeployed) (deploy_status w)).
Proof.
  unfold fetchSnapshot. intros H.
  read_bind H envs He S1. read_bind H health Hh S2. read_bind H rows Hr S3.
  read_bind H deps Hd S4. read_bind H dis Hdis S5. read_bind H gc Hgc S6.
  read_bind H ec Hec S7. read_bind H vs Hvs S8. read_bind H ins Hins S9.
  read_bind H dep Hdep S10.
  apply wrapping_Ok, query_value in Hins, Hdep; [|done..].
  injection Hins as <-. injection Hdep as <-. injection H as <- _. simpl.
  apply same_world_rec in S1, S2, S3, S4, S5, S6, S7, S8, S9.
  unfold deploy_status. by rewrite S9, S8, S7, S6, S5, S4, S3, S2, S1.
Qed.

Lemma snapshot_latest aud w snap w' env feature :
  logs_wf w → fetchSnapshot aud w = (Ok snap, w') →
  latestFor snap env feature = instruction_of <$> deploy_current (w_rec w) !! (env, feature).
Proof.
  intros Hwf [H _]%fetchSnapshot_index. unfold latestFor. rewrite H.
  by apply latestInstr_lookup.
Qed.

(** C35.  The snapshot only reads, and what it says of the past is what the deploy log
    says: the latest instruction of a feature in an environment is the hash and
    status of the latest row of the log, and a feature counts as deployed exactly
    when that row says so. *)
Theorem fetchSnapshot_latest aud w snap w' :
  logs_wf w → fetchSnapshot aud w = (Ok snap, w') →
  same_world w w' ∧
  ∀ env feature,
    latestFor snap env feature =
      instruction_of <$> distinct_on (deploy_log (w_rec w)) (env, feature) ∧
    (set_has (default ∅ (s_deployedFeats snap !! env)) feature = true ↔
       dl_Status <$> distinct_on (deploy_log (w_rec w)) (env, feature) =
         Some DeployStatusDeployed).
Proof.
  intros Hwf H. split; [by eapply fetchSnapshot_reads|]. intros env feature.
  assert (Hc : deploy_current (w_rec w) !! (env, feature) =
    distinct_on (deploy_log (w_rec w)) (env, feature)).
  { rewrite (wf_deploy_current _ Hwf). apply current_is_distinct_on; [apply Hwf|done]. }
  rewrite <-Hc. split; [by eapply snapshot_latest|].
  apply fetchSnapshot_index in H as [_ ->]. by apply deployedFeats_lookup.
Qed.
End fetch.

(** ** A concrete world for the witnesses *)

Definition example_codec : FeatureCodec := {|
  decode_Dependencies _ := Ok [];
  json_Unmarshal_Values _ := Ok example_values;
  decode_DefaultValues _ := Ok ∅;
|}.
Definition example_pg : Postgres := {| jsonb_text s := s; jsonb_leb _ _ := true |}.

Definition empty_rec_db : rec_db :=
  {| deploy_log := []; deploy_current := ∅; decision_log := []; decision_current := ∅;
     next_log_id := 1; release_statuses := ∅; logs := []; health_statuses := {[ 7%N := 100%Z ]} |}.

(** Tenant nav with environment dev, one active assignment of feature app. *)
Definition example_world : world :=
  {| w_env := {| tenants := [{| t_ID := 3; t_Name := "nav"; t_Description := None; t_CI := false |}];
                 environments := [{| er_ID := 7; er_TenantID := 3; er_Name := "dev";
                   er_Kind := EnvironmentKindTenant; er_Description := None; er_Reconcile := true;
                   er_Labels := {[ "kind" := "tenant" ]}; er_OidcIssuer := None;
                   er_OidcDiscoveryUrl := None |}];
                 environment_values := [] |};
     w_feature := {| feature_data := [{| fd_Name := "app"; fd_Version := "1.0.0";
                       fd_Chart := "oci://charts/app"; fd_Description := ""; fd_Source := "";
                       fd_Kinds := ["tenant"]; fd_Dependencies := "[]"; fd_Values := "{}";
                       fd_DefaultValues := "{}"; fd_Timeout := 1000; fd_TplDetails := "{}" |}];
                     feature_assignments := [{| ar_ID := 1; ar_FeatureName := "app";
                       ar_Version := "1.0.0"; ar_Target := {[ "kind" := "tenant" ]};
                       ar_Created := 5; ar_GhRef := None; ar_Description := None;
                       ar_Active := true |}];
                     configurations_global := []; configurations_environment := [];
                     disabled_features := ∅ |};
     w_rec := empty_rec_db; audits := []; w_now := 100; w_next_uuid := 1000; w_faults := [];
     published := []; slack_posts := [] |}.

Lemma example_world_wf : logs_wf example_world.
Proof.
  split; [done|done|apply NoDup_nil_2|apply NoDup_nil_2| |]; by intros r Hr%elem_of_nil.
Qed.

(** The same world after a deploy was recorded. *)
Definition example_deployed : world :=
  insert_deploy (deploy_of {| ap_Diid := 9; ap_EnvironmentID := 7; ap_FeatureAssignmentID := 1;
    ap_FeatureName := "app"; ap_FeatureVersion := "1.0.0"; ap_Status := DeployStatusDeployed;
    ap_Hash := "h"; ap_Vals := "{}" |}) example_world.

Lemma fetchSnapshot_latest_witness :
  ∃ snap w', fetchSnapshot (ext := echo) (pg := example_pg) (codec := example_codec) ""
      example_deployed = (Ok snap, w') ∧
    latestFor snap 7 "app" = Some {| li_Hash := "h"; li_Status := DeployStatusDeployed |}.
Proof.
  destruct (fetchSnapshot (ext := echo) (pg := example_pg) (codec := example_codec) ""
    example_deployed) as [[snap|e|p] w'] eqn:E; [|vm_compute in E; discriminate E..].
  exists snap, w'. split; [reflexivity|].
  destruct (fetchSnapshot_latest (ext := echo) (pg := example_pg) (codec := example_codec) ""
    example_deployed snap w') as [_ H].
  - apply insert_deploy_wf, example_world_wf.
  - exact E.
  - rewrite (proj1 (H 7%N "app")). vm_compute. reflexivity.
Defined.
