(* ===== verification/Publisher.v ===== *)
(** * internal/message/publisher.go

    A message is encoded and handed to the Pub/Sub client, which sends it in the
    background and promises a result; a publisher waits for this result only if it was
    built with the option to.  JSON and the client are parameters. *)

From S2P Require Export Monad.

Section publishing.
Context {S T : Type} (encode : T → outcome string) (waitForPublish : bool)
  (send : string → M S (outcome unit)).   (* hands over; the result it promises *)

Definition Publisher_Publish (msg : T) : M S unit :=
  data ← lift (encode msg);
  res ← send data;
  if waitForPublish then lift res else mret tt.

(** A publisher that waits reports success exactly when the topic took the message;
    one that does not wait reports success whatever the topic answers, and only an
    encoding error is seen. *)
Theorem Publish_reports msg data s res s' :
  encode msg = Ok data → send data s = (Ok res, s') →
  Publisher_Publish msg s = (if waitForPublish then res else Ok tt, s').
Proof.
  intros He Hs. unfold Publisher_Publish, mbind, M_bind, lift. rewrite He, Hs.
  by destruct waitForPublish.
Qed.

(** What cannot be encoded is not handed over. *)
Lemma Publish_unencoded msg s :
  is_Ok (encode msg) = false → (Publisher_Publish msg s).2 = s ∧ is_Ok (Publisher_Publish msg s).1 = false.
Proof.
  unfold Publisher_Publish, mbind, M_bind, lift. by destruct (encode msg).
Qed.
End publishing.

Lemma Publish_reports_witness :
  Publisher_Publish (λ n : nat, Ok "data") false (λ data n, (Ok (Err (ErrString "no topic")), S n)) 1%nat 4%nat
    = (Ok tt, 5%nat).
Proof. exact (Publish_reports _ false _ 1%nat "data" 4%nat (Err (ErrString "no topic")) 5%nat eq_refl eq_refl). Defined.
