(* ===== verification/Deployer.v ===== *)
(** * internal/reconciler/deployer.go, multideployer.go and redeploy.go

    Carrying out deploy decisions: hand an instruction for the environment's agent to the
    Pub/Sub client and record in the deploy log, as one COPY, the instructions handed
    over.  Whether the broker takes a message the server does not wait to know.
    The interface [Deployer] is what the loop and the manual operations use. *)

From S2P Require Export Fetch Publisher.

(** internal/reconciler/model.go, interface Deployer *)
Record Deployer := {
  Deploy : list DeployDecision → IO unit;
  Uninstall : uuid → string → string → string → IO unit;
}.

Definition naisdTopicID (tenantName envName : string) : string :=
  "naisd-" +:+ (tenantName +:+ ("-" +:+ envName)).

Section deployer.
Context `{ext : External}.

(** json.Marshal of a possibly nil map. *)
Definition marshal_values (vals : option gomap) : outcome string :=
  match vals with None => Ok "null" | Some m => json_Marshal m end.

(** json.Marshal of an instruction fails as that of its values does: its other fields are
    strings, numbers, an identifier and a bool.  The bytes are of no interest here. *)
Definition marshal_instruction (msg : DeployInstruction) : outcome string :=
  marshal_values (di_Values msg).

(** The client takes the message at once and promises the broker's answer, which is
    scripted: after a fault the message it was handed does not reach the agent. *)
Definition topic_Publish (topic : string) (msg : DeployInstruction) : IO (outcome unit) :=
  modify (set_published (λ l, l ++ [(topic, msg)])) ;;
  answer ← next_fault;
  mret (match answer with Some e => Err e | None => Ok tt end).

(** The server's publishers (newPublisher of internal/fasit/run.go) do not wait. *)
Definition Publish (topic : string) (msg : DeployInstruction) : IO unit :=
  Publisher_Publish marshal_instruction false (λ _, topic_Publish topic msg) msg.

Record publishItem := {
  pi_topicID : string;
  pi_diid : uuid;
  pi_vals : string;
  pi_instruction : DeployInstruction;
  pi_res : DeployDecision;
}.

Definition instruction_for (diid : uuid) (res : DeployDecision) : DeployInstruction :=
  {| di_ID := diid; di_Name := f_Name (dd_Feature res); di_Version := f_Version (dd_Feature res);
     di_Chart := f_Chart (dd_Feature res); di_ConfigHash := dd_Hash res;
     di_Timeout := Timeout (f_YAML (dd_Feature res)); di_Values := dd_Values res;
     di_Uninstall := false |}.

Definition prepare (res : DeployDecision) : IO publishItem :=
  diid ← uuid_New;
  vals ← lift (wrap ("marshal values for " +:+ f_Name (dd_Feature res))
                 (marshal_values (dd_Values res)));
  mret {| pi_topicID := naisdTopicID (dd_TenantName res) (dd_EnvironmentName res);
          pi_diid := diid; pi_vals := vals; pi_instruction := instruction_for diid res;
          pi_res := res |}.

Definition deploy_row (item : publishItem) : AppendDeploysParams :=
  let res := pi_res item in
  {| ap_Diid := pi_diid item; ap_EnvironmentID := dd_EnvironmentID res;
     ap_FeatureAssignmentID := dd_FeatureAssignmentID res;
     ap_FeatureName := f_Name (dd_Feature res); ap_FeatureVersion := f_Version (dd_Feature res);
     ap_Status := DeployStatusSent; ap_Hash := dd_Hash res; ap_Vals := pi_vals item |}.

(** The rows of the items whose message could be handed over. *)
Fixpoint publish_all (items : list publishItem) : IO (list AppendDeploysParams) :=
  match items with
  | [] => mret []
  | item :: items =>
      r ← attempt (Publish (pi_topicID item) (pi_instruction item));
      rows ← publish_all items;
      match r with
      | inl _ => mret (deploy_row item :: rows)
      | inr _ => mret rows
      end
  end.

Definition pubSub_Deploy (decisions : list DeployDecision) : IO unit :=
  toPublish ← map_each prepare (filter (λ d, dd_Action d = ActionDeploy) decisions);
  deployRows ← publish_all toPublish;
  if bool_decide (deployRows = []) then mret tt
  else wrapping "append deploys" (AppendDeploys deployRows).

Definition pubSub_Uninstall (diid : uuid) (tenantName envName releaseName : string) : IO unit :=
  Publish (naisdTopicID tenantName envName)
    {| di_ID := diid; di_Name := releaseName; di_Version := ""; di_Chart := "";
       di_ConfigHash := ""; di_Timeout := 0; di_Values := None; di_Uninstall := true |}.

Definition pubSubDeployer : Deployer :=
  {| Deploy := pubSub_Deploy; Uninstall := pubSub_Uninstall |}.

(** Secondaries run after the primary succeeded; their errors are logged. *)
Definition MultiDeployer (primary : Deployer) (secondaries : list Deployer) : Deployer :=
  {| Deploy decisions :=
       Deploy primary decisions ;;
       for_each (λ d, attempt (Deploy d decisions) ;; mret tt) secondaries;
     Uninstall diid tenantName envName releaseName :=
       Uninstall primary diid tenantName envName releaseName ;;
       for_each (λ d, attempt (Uninstall d diid tenantName envName releaseName) ;; mret tt)
         secondaries |}.

(** ** Redeploy and uninstall (redeploy.go) *)

Definition ErrRedeployNotSettled : error :=
  ErrSentinel "feature is not in a redeployable state".
Definition ErrRedeployTargetNotFound : error :=
  ErrSentinel "no reconciling deployment found for feature in environment".
Definition ErrUninstallProtected : error :=
  ErrSentinel "release is a managed agent and cannot be uninstalled".

(** [fmt.Errorf("%w: %s", ErrRedeployNotSettled, msg)] *)
Definition not_settled (msg : string) : error := ErrSuffix ErrRedeployNotSettled msg.

Definition protectedReleases : list string := ["naisd"; "fasitd"].

Definition Reconciler_Uninstall (deployer : option Deployer)
    (tenantName envName releaseName : string) : IO uuid :=
  match deployer with
  | None => fail (ErrString "reconciler has no deployer configured")
  | Some d =>
      if bool_decide (releaseName = "") || bool_decide (releaseName ∈ protectedReleases)
      then fail ErrUninstallProtected
      else
        diid ← uuid_New;
        Uninstall d diid tenantName envName releaseName ;;
        mret diid
  end.

Context `{pg : Postgres} `{codec : FeatureCodec}.

Definition as_redeploy (d : DeployDecision) : DeployDecision :=
  {| dd_EnvironmentID := dd_EnvironmentID d; dd_EnvironmentName := dd_EnvironmentName d;
     dd_TenantName := dd_TenantName d; dd_FeatureAssignmentID := dd_FeatureAssignmentID d;
     dd_Feature := dd_Feature d; dd_Values := dd_Values d; dd_Hash := dd_Hash d;
     dd_Action := ActionDeploy; dd_Details := dd_Details d; dd_Message := "redeploy requested" |}.

(** The values' [range] order is [map_to_list]'s here. *)
Definition Redeploy (aud : string) (deployer : option Deployer) (envID : uuid)
    (featureName : string) : IO unit :=
  match deployer with
  | None => fail (ErrString "reconciler has no deployer configured")
  | Some d =>
      snap ← wrapping "fetch snapshot" (fetchSnapshot aud);
      match find (λ e, bool_decide (e_ID e = envID)) (s_environments snap) with
      | None => fail ErrRedeployTargetNotFound
      | Some env =>
          let winners := mostSpecificPerFeature (matchAssignments (s_assignments snap) env) in
          match find (λ a, bool_decide (f_Name (ra_Feature a) = featureName)) winners with
          | None => fail ErrRedeployTargetNotFound
          | Some dep =>
              now ← time_Now;
              if negb (env_healthy snap (λ _, now) env)
              then fail (not_settled "naisd is unhealthy")
              else if feature_disabled snap env featureName
              then fail (not_settled "feature reconcile disabled")
              else
                decision ← lift (computeAction
                  (map_to_list (f_Values (f_YAML (ra_Feature dep)))) snap env dep);
                if negb (bool_decide (dd_Action decision = ActionSkipUnchanged))
                then fail (not_settled (dd_Message decision))
                else wrapping "deploy" (Deploy d [as_redeploy decision])
          end
      end
  end.
End deployer.

(** ** What deploying does *)

Section facts.
Context `{ext : External}.

Lemma uuid_New_Ok w a w' :
  uuid_New w = (Ok a, w') → a = w_next_uuid w ∧ w_rec w' = w_rec w ∧ published w' = published w ∧
    w_next_uuid w' = N.succ (w_next_uuid w) ∧ w_now w' = w_now w.
Proof. unfold uuid_New. intros [= <- <-]. by repeat split. Qed.

(** What [prepare] and [map_each prepare] leave untouched. *)
Definition same_records (w w' : world) : Prop :=
  w_rec w' = w_rec w ∧ published w' = published w ∧ w_now w' = w_now w ∧ w_faults w' = w_faults w.

Lemma same_records_trans w1 w2 w3 :
  same_records w1 w2 → same_records w2 w3 → same_records w1 w3.
Proof. unfold same_records. intros (-> & -> & -> & ->) (-> & -> & -> & ->). by repeat split. Qed.

Lemma prepare_run res w o w' : prepare res w = (o, w') → same_records w w'.
Proof.
  unfold prepare, uuid_New, lift, mbind, M_bind. simpl.
  destruct (wrap _ _); intros [= _ <-]; by repeat split.
Qed.

Lemma prepare_all_run ds w o w' : map_each prepare ds w = (o, w') → same_records w w'.
Proof.
  revert w o w'. induction ds as [|d ds IH]; simpl; intros w o w' H;
    [injection H as _ <-; by repeat split|].
  unfold mbind, M_bind in H. destruct (prepare d w) as [[x|e|p] w1] eqn:E.
  - apply prepare_run in E. destruct (map_each prepare ds w1) as [[xs| |] w2] eqn:E2;
      apply IH in E2; injection H as _ <-; by eapply same_records_trans.
  - apply prepare_run in E. by injection H as _ <-.
  - apply prepare_run in E. by injection H as _ <-.
Qed.

Lemma prepare_Ok d w item w' :
  prepare d w = (Ok item, w') →
  pi_res item = d ∧ pi_instruction item = instruction_for (pi_diid item) d ∧
  pi_topicID item = naisdTopicID (dd_TenantName d) (dd_EnvironmentName d) ∧
  marshal_values (dd_Values d) = Ok (pi_vals item).
Proof.
  unfold prepare, uuid_New, lift, mbind, M_bind. simpl.
  destruct (marshal_values (dd_Values d)) eqn:E; simpl; intros [= <- <-]. by repeat split.
Qed.

(** Items prepared from [ds], in order. *)
Definition item_for (d : DeployDecision) (item : publishItem) : Prop :=
  pi_res item = d ∧ pi_instruction item = instruction_for (pi_diid item) d ∧
  pi_topicID item = naisdTopicID (dd_TenantName d) (dd_EnvironmentName d) ∧
  marshal_values (dd_Values d) = Ok (pi_vals item).

Lemma prepare_all_Ok ds w items w' :
  map_each prepare ds w = (Ok items, w') → Forall2 item_for ds items.
Proof.
  revert w items w'. induction ds as [|d ds IH]; simpl; intros w items w' H.
  - injection H as <- _. constructor.
  - inv_run. constructor; [by eapply prepare_Ok|by eapply IH].
Qed.

Lemma prepare_all_total ds w :
  (∀ d, d ∈ ds → is_Ok (marshal_values (dd_Values d)) = true) →
  ∃ items w', map_each prepare ds w = (Ok items, w').
Proof.
  revert w. induction ds as [|d ds IH]; intros w Hd; [by eexists _, _|].
  destruct (marshal_values (dd_Values d)) as [vals|e|p] eqn:Hv;
    [|by specialize (Hd d ltac:(left)); rewrite Hv in Hd..].
  destruct (IH (set_w_next_uuid N.succ w)) as (items & w' & E); [intros; apply Hd; by right|].
  cbn [map_each]. unfold mbind at 1, M_bind at 1.
  unfold prepare at 1, uuid_New, lift, mbind at 1, M_bind at 1, mbind at 1, M_bind at 1.
  rewrite Hv. cbn. unfold mbind, M_bind. rewrite E. by eexists _, _.
Qed.

Definition message_of (item : publishItem) : string * DeployInstruction :=
  (pi_topicID item, pi_instruction item).

Lemma topic_Publish_run topic msg w :
  ∃ res, topic_Publish topic msg w =
    (Ok res, (next_fault (set_published (λ l, l ++ [(topic, msg)]) w)).2).
Proof.
  unfold topic_Publish, modify, mbind, M_bind, next_fault. cbn.
  destruct (w_faults w); by eexists.
Qed.

(** Publishing a message that can be encoded succeeds, whatever the broker answers, and
    only the list of messages and the script of faults change. *)
Lemma Publish_run topic msg data w :
  marshal_instruction msg = Ok data →
  Publish topic msg w =
    (Ok tt, (next_fault (set_published (λ l, l ++ [(topic, msg)]) w)).2).
Proof.
  intros Hm. destruct (topic_Publish_run topic msg w) as [res Hres].
  by apply (Publish_reports _ false _ _ _ _ res _ Hm).
Qed.

Lemma next_fault_world w : same_world w (next_fault w).2 ∧ w_faults (next_fault w).2 = tail (w_faults w).
Proof.
  destruct (next_fault w) as [f w1] eqn:E. split; [by eapply next_fault_same|].
  unfold next_fault in E. by destruct (w_faults w) as [|g fs] eqn:Ef; injection E as _ <-.
Qed.

(** Whatever the broker answers, all items are handed over, in order, one answer is
    scripted for each, and the rows returned are those of all. *)
Lemma publish_all_run items w :
  Forall (λ i, is_Ok (marshal_instruction (pi_instruction i)) = true) items →
  ∃ w', publish_all items w = (Ok (deploy_row <$> items), w') ∧
    published w' = published w ++ (message_of <$> items) ∧
    same_world (set_published (λ _, published w') w) w' ∧
    w_faults w' = drop (length items) (w_faults w).
Proof.
  intros H. revert w. induction H as [|i items Hi _ IH]; intros w.
  { exists w. split_and!; [done|by rewrite app_nil_r|by destruct w|done]. }
  destruct (marshal_instruction (pi_instruction i)) as [data|e|p] eqn:Hm; [|done..].
  cbn [publish_all]. unfold attempt, mbind at 1, M_bind at 1.
  rewrite (Publish_run _ _ _ _ Hm).
  destruct (next_fault_world (set_published (λ l, l ++ [message_of i]) w)) as [Hs Hf].
  destruct (next_fault _) as [f w1]. cbn [snd] in Hs, Hf |- *.
  destruct (IH w1) as (w' & Hrun & Hp & Hs' & Hf').
  exists w'. unfold mbind, M_bind. rewrite Hrun. split_and!; [done|..].
  - rewrite Hp, Hs. cbn [published set_w_faults set_published]. by rewrite fmap_cons, <-app_assoc.
  - unfold same_world in *. etrans; [exact Hs'|]. by rewrite Hs.
  - rewrite Hf', Hf. cbn.
    destruct (w_faults w) as [|g fs]; cbn; [by rewrite drop_nil|done].
Qed.

(** The rows a COPY appends to a well-formed log. *)
Lemma append_deploys_log ps w :
  let w' := foldl (λ w p, insert_deploy (deploy_of p) w) w ps in
  ∃ rows, deploy_log (w_rec w') = deploy_log (w_rec w) ++ rows ∧
    Forall2 (λ p r, ∃ id, r = deploy_of p id (w_now w)) ps rows ∧
    published w' = published w ∧ w_now w' = w_now w ∧
    decision_log (w_rec w') = decision_log (w_rec w).
Proof.
  revert w. induction ps as [|p ps IH]; intros w; simpl.
  - exists []. by rewrite app_nil_r.
  - destruct (IH (insert_deploy (deploy_of p) w)) as (rows & H1 & H2 & H3 & H4 & H5).
    exists (deploy_of p (next_log_id (w_rec w)) (w_now w) :: rows).
    rewrite H1, H3, H4, H5. simpl. split_and!; try done.
    + by rewrite <-app_assoc.
    + constructor; [by eexists|done].
Qed.

Lemma append_rows_run ps w o w' :
  (if bool_decide (ps = []) then mret tt else wrapping "append deploys" (AppendDeploys ps)) w =
    (o, w') →
  published w' = published w ∧
  if is_Ok o then
    ∃ rows, deploy_log (w_rec w') = deploy_log (w_rec w) ++ rows ∧
      Forall2 (λ p r, ∃ id, r = deploy_of p id (w_now w)) ps rows
  else deploy_log (w_rec w') = deploy_log (w_rec w) ∧
    ∃ e, w_faults w !! 0%nat = Some (Some e) ∧ o = wrap "append deploys" (Err e).
Proof.
  case_bool_decide as Hps.
  - intros [= <- <-]. split; [done|]. subst ps. exists []. by rewrite app_nil_r.
  - assert (∀ v, same_world w v → let v' := foldl (λ w p, insert_deploy (deploy_of p) w) v ps in
      published v' = published w ∧
      ∃ rows, deploy_log (w_rec v') = deploy_log (w_rec w) ++ rows ∧
        Forall2 (λ p r, ∃ id, r = deploy_of p id (w_now w)) ps rows) as Happ.
    { intros v Hs. unfold same_world in Hs.
      destruct (append_deploys_log ps v) as (rows & Hl & Hf & Hp & _). cbv zeta.
      rewrite Hp, Hl. rewrite Hs. split; [done|]. exists rows. split; [done|]. by rewrite Hs in Hf. }
    unfold wrapping, AppendDeploys, exec, external, mbind, M_bind, next_fault. intros H.
    destruct (w_faults w) as [|[e|] fs]; injection H as <- <-; cbn [is_Ok wrap].
    + apply Happ, same_world_refl.
    + by split_and!; [..|exists e].
    + by apply Happ.
Qed.

(** What [prepare] made can be encoded. *)
Lemma items_encoded ds items :
  Forall2 item_for ds items → Forall (λ i, is_Ok (marshal_instruction (pi_instruction i)) = true) items.
Proof.
  induction 1 as [|d i ds items (_ & Hi & _ & Hm) _ IH]; constructor; [|done].
  unfold marshal_instruction. by rewrite Hi; cbn; rewrite Hm.
Qed.

Lemma items_of ds items :
  Forall2 item_for ds items → pi_res <$> items = ds ∧ Forall (λ i, item_for (pi_res i) i) items.
Proof.
  induction 1 as [|d i ds items Hi _ [<- IH]]; [by split|].
  pose proof Hi as [<- _]. split; [done|]. by constructor.
Qed.

(** C7.  The deploy log records what was handed to the publisher, which does not wait for
    the broker.  [Deploy] either prepares all its instructions or hands over none: then
    those of all deploy decisions are handed over, in order, each to its environment's
    topic.  If [Deploy] returns without error the rows it appended to the log are exactly
    theirs, with the identifier and hash handed over and status [sent]; if it fails no row
    is added, and if it fails with instructions handed over this is because the log could
    not be written: an answer of the broker is never the reason. *)
Theorem pubSub_Deploy_logs_published decisions w o w' :
  pubSub_Deploy decisions w = (o, w') →
  ∃ items, published w' = published w ++ (message_of <$> items) ∧
    Forall (λ i, item_for (pi_res i) i) items ∧
    (pi_res <$> items = filter (λ d, dd_Action d = ActionDeploy) decisions ∨
     items = [] ∧ is_Ok o = false) ∧
    if is_Ok o then
      ∃ rows, deploy_log (w_rec w') = deploy_log (w_rec w) ++ rows ∧
        Forall2 (λ i r, ∃ id, r = deploy_of (deploy_row i) id (w_now w)) items rows
    else deploy_log (w_rec w') = deploy_log (w_rec w) ∧
      (items = [] ∨
       ∃ e, w_faults w !! length items = Some (Some e) ∧ o = wrap "append deploys" (Err e)).
Proof.
  unfold pubSub_Deploy. intros H. unfold mbind, M_bind in H.
  destruct (map_each prepare _ w) as [[items|e|p] w1] eqn:E1;
    pose proof (prepare_all_run _ _ _ _ E1) as (Hr1 & Hp1 & Hn1 & Hf1).
  2,3: injection H as <- <-; exists []; simpl; rewrite app_nil_r, Hr1; by split_and!; auto.
  apply prepare_all_Ok in E1. destruct (items_of _ _ E1) as [Hres Hfor].
  destruct (publish_all_run items w1 (items_encoded _ _ E1)) as (w2 & E2 & Hp2 & Hs2 & Hf2).
  rewrite E2 in H. exists items.
  assert (w_rec w2 = w_rec w1 ∧ w_now w2 = w_now w1) as [Hr2 Hn2] by by rewrite Hs2.
  destruct (append_rows_run _ _ _ _ H) as [Hp3 Hl].
  rewrite Hp3, Hp2, Hp1. split_and!; [done|done|by left|].
  destruct (is_Ok o) eqn:Ho.
  - destruct Hl as (rows & Hl & Hf). exists rows. rewrite Hl, Hr2, Hr1. split; [done|].
    apply Forall2_fmap_l in Hf. eapply Forall2_impl; [exact Hf|].
    intros j r [id ->]. exists id. by rewrite Hn2, Hn1.
  - destruct Hl as (Hl & e & He & ->). rewrite Hl, Hr2, Hr1. split; [done|]. right. exists e.
    split; [|done]. rewrite Hf2, Hf1 in He. by rewrite lookup_drop, Nat.add_0_r in He.
Qed.

(** A message the broker does not take is recorded as sent: whatever it answers about each
    instruction, [Deploy] returns without error and every instruction has its row in the
    log, so that the features are not deployed again before the agent's silence times
    out. *)
Theorem lost_publish_recorded decisions w answers :
  (∀ d, d ∈ decisions → is_Ok (marshal_values (dd_Values d)) = true) →
  w_faults w = answers →
  length answers = length (filter (λ d, dd_Action d = ActionDeploy) decisions) →
  ∃ w' items rows, pubSub_Deploy decisions w = (Ok tt, w') ∧
    pi_res <$> items = filter (λ d, dd_Action d = ActionDeploy) decisions ∧
    deploy_log (w_rec w') = deploy_log (w_rec w) ++ rows ∧
    Forall2 (λ i r, ∃ id, r = deploy_of (deploy_row i) id (w_now w)) items rows.
Proof.
  intros Hm Hw Hlen. destruct (pubSub_Deploy decisions w) as [o w'] eqn:E.
  pose proof E as H. unfold pubSub_Deploy, mbind, M_bind in H.
  destruct (prepare_all_total (filter (λ d, dd_Action d = ActionDeploy) decisions) w) as (items & w1 & E1).
  { intros d [_ Hd]%list_elem_of_filter. by apply Hm. }
  rewrite E1 in H. pose proof (prepare_all_run _ _ _ _ E1) as (Hr1 & Hp1 & Hn1 & Hf1).
  apply prepare_all_Ok in E1. destruct (items_of _ _ E1) as [Hres _].
  destruct (publish_all_run items w1 (items_encoded _ _ E1)) as (w2 & E2 & Hp2 & Hs2 & Hf2).
  rewrite E2 in H. assert (w_rec w2 = w_rec w1 ∧ w_now w2 = w_now w1) as [Hr2 Hn2] by by rewrite Hs2.
  destruct (append_rows_run _ _ _ _ H) as [_ Hl].
  assert (w_faults w2 = []) as Hnf.
  { rewrite Hf2, Hf1, Hw. apply drop_ge. by rewrite Hlen, <-Hres, length_fmap. }
  destruct o as [[]|e|p]; cbn [is_Ok] in Hl.
  - destruct Hl as (rows & Hl & Hf). exists w', items, rows. rewrite Hl, Hr2, Hr1.
    split_and!; try done. apply Forall2_fmap_l in Hf. eapply Forall2_impl; [exact Hf|].
    intros j r [id ->]. exists id. by rewrite Hn2, Hn1.
  - destruct Hl as (_ & e' & He & _). by rewrite Hnf in He.
  - destruct Hl as (_ & e' & He & _). by rewrite Hnf in He.
Qed.

(** [Uninstall] refuses the agents and the empty name and then does nothing; it
    succeeds only by handing over exactly one uninstall instruction, for the release
    asked for, with the identifier it returns. *)
Theorem Reconciler_Uninstall_spec tenantName envName releaseName w o w' :
  Reconciler_Uninstall (Some pubSubDeployer) tenantName envName releaseName w = (o, w') →
  (releaseName ∈ ["naisd"; "fasitd"; ""] → o = Err ErrUninstallProtected ∧ w' = w) ∧
  ∀ diid, o = Ok diid →
    (releaseName ∉ ["naisd"; "fasitd"; ""]) ∧
    ∃ msg, published w' = published w ++ [(naisdTopicID tenantName envName, msg)] ∧
      di_Uninstall msg = true ∧ di_Name msg = releaseName ∧ di_ID msg = diid.
Proof.
  unfold Reconciler_Uninstall. intros H.
  destruct (bool_decide (releaseName = "") || bool_decide (releaseName ∈ protectedReleases)) eqn:E.
  - injection H as <- <-. by split.
  - apply orb_false_iff in E as [E1%bool_decide_eq_false E2%bool_decide_eq_false].
    assert (Hn : releaseName ∉ ["naisd"; "fasitd"; ""]).
    { intros Hin. apply E2. unfold protectedReleases.
      apply elem_of_cons in Hin as [->|Hin]; [by left|].
      apply elem_of_cons in Hin as [->|Hin]; [by right; left|].
      by apply list_elem_of_singleton in Hin. }
    split; [done|]. intros diid ->. split; [done|]. inv_run.
    apply uuid_New_Ok in H0 as (-> & _ & Hp & _). simpl in H1. unfold pubSub_Uninstall in H1.
    rewrite (Publish_run _ _ "null") in H1 by done. injection H1 as _ H1.
    rewrite <-H1. eexists.
    split; [rewrite (proj1 (next_fault_world _)); cbn; by rewrite Hp|]. by repeat split.
Qed.

(** The primary deployer is canonical: if it fails, the whole deploy fails with
    its error and no secondary runs; if it succeeds and no secondary panics, the
    deploy succeeds whatever errors the secondaries return. *)
Theorem MultiDeployer_primary primary secondaries decisions w o w1 :
  Deploy primary decisions w = (o, w1) →
  (∀ e, o = Err e →
     Deploy (MultiDeployer primary secondaries) decisions w = (Err e, w1)) ∧
  (o = Ok tt →
     (∀ d v, d ∈ secondaries → is_Panic (Deploy d decisions v).1 = false) →
     (Deploy (MultiDeployer primary secondaries) decisions w).1 = Ok tt).
Proof.
  intros H. split.
  - intros e ->. simpl. unfold mbind, M_bind. by rewrite H.
  - intros -> Hp. simpl. unfold mbind at 1, M_bind at 1. rewrite H. clear H. revert w1.
    induction secondaries as [|d ds IH]; intros w1; simpl; [done|].
    unfold mbind, M_bind, attempt. pose proof (Hp d w1) as Hd.
    destruct (Deploy d decisions w1) as [[u|e|p] w2]; simpl in Hd |- *.
    + apply IH. intros d' v Hin. apply Hp. by right.
    + apply IH. intros d' v Hin. apply Hp. by right.
    + discriminate Hd. by left.
Qed.

Context `{pg : Postgres} `{codec : FeatureCodec}.

(** [Redeploy] only deploys what is settled: either it fails without any effect,
    or the environment reconciles and is healthy, the feature is enabled and its
    winning assignment decides [unchanged], and the outcome is that of deploying
    this decision, values and hash unchanged, once. *)
Theorem Redeploy_spec aud d envID featureName w o w' :
  Redeploy aud (Some d) envID featureName w = (o, w') →
  (same_world w w' ∧ is_Ok o = false) ∨
  ∃ snap env dep decision w1,
    same_world w w1 ∧ env ∈ s_environments snap ∧ e_ID env = envID ∧
    dep ∈ mostSpecificPerFeature (matchAssignments (s_assignments snap) env) ∧
    f_Name (ra_Feature dep) = featureName ∧
    env_healthy snap (λ _, w_now w) env = true ∧ feature_disabled snap env featureName = false ∧
    computes snap {| wi_env := env; wi_dep := dep |} decision ∧
    dd_Action decision = ActionSkipUnchanged ∧
    wrapping "deploy" (Deploy d [as_redeploy decision]) w1 = (o, w').
Proof.
  unfold Redeploy. unfold mbind at 1, M_bind at 1.
  destruct (wrapping "fetch snapshot" (fetchSnapshot aud) w) as [[snap|e|p] w1] eqn:E1;
    apply (reads_wrapping _ _ (fetchSnapshot_reads aud)) in E1;
    [|intros [= <- <-]; by left|intros [= <- <-]; by left].
  destruct (find _ (s_environments snap)) as [env|] eqn:Ee; [|intros [= <- <-]; by left].
  apply find_some in Ee as [Hin Heq%bool_decide_eq_true]. apply list_elem_of_In in Hin.
  destruct (find _ (mostSpecificPerFeature _)) as [dep|] eqn:Ed; [|intros [= <- <-]; by left].
  apply find_some in Ed as [Hdin Hdeq%bool_decide_eq_true]. apply list_elem_of_In in Hdin.
  unfold time_Now, gets, mbind, M_bind. rewrite (same_world_now _ _ E1).
  destruct (env_healthy snap (λ _, w_now w) env) eqn:Eh; simpl; [|intros [= <- <-]; by left].
  destruct (feature_disabled snap env featureName) eqn:Edis; [intros [= <- <-]; by left|].
  unfold lift. destruct (computeAction _ snap env dep) as [decision|e|p] eqn:Ec;
    [|intros [= <- <-]; by left..].
  case_bool_decide as Ha; simpl; [|intros [= <- <-]; by left].
  intros H. right. exists snap, env, dep, decision, w1. split_and!; try done.
  by eexists.
Qed.
End facts.

(** ** Topics *)

(** internal/fakeagent/agent.go: the inverse of the topic naming. *)
Definition parseTopic (topicID : string) : string * string :=
  let s := TrimPrefix topicID "naisd-" in
  match cut_last_char "-" s with
  | None => (s, "")
  | Some (tenant, env) => (tenant, env)
  end.

(** The topic of an environment determines it, as [parseTopic] reads it back, when
    its name has no dash. *)
Theorem parseTopic_naisdTopicID tenantName envName :
  has_char "-" envName = false →
  parseTopic (naisdTopicID tenantName envName) = (tenantName, envName).
Proof.
  intros H. unfold parseTopic, naisdTopicID. rewrite TrimPrefix_app.
  change ("-" +:+ envName) with (String "-" envName). by rewrite cut_last_char_app.
Qed.

Lemma parseTopic_naisdTopicID_witness :
  parseTopic (naisdTopicID "dev-nais" "dev") = ("dev-nais", "dev").
Proof. apply parseTopic_naisdTopicID. reflexivity. Defined.

(** With a dash in an environment's name two environments can share one topic, and so
    one agent receives the other's instructions. *)
Theorem naisdTopicID_clash :
  naisdTopicID "dev" "nais-dev" = naisdTopicID "dev-nais" "dev".
Proof. reflexivity. Qed.

(** ** Witnesses *)

Definition example_decision : DeployDecision :=
  {| dd_EnvironmentID := 7; dd_EnvironmentName := "dev"; dd_TenantName := "nav";
     dd_FeatureAssignmentID := 1; dd_Feature := example_feature example_values;
     dd_Values := Some ∅; dd_Hash := "h"; dd_Action := ActionDeploy; dd_Details := "";
     dd_Message := "" |}.

(** The broker takes nothing: the instruction is in the log all the same. *)
Definition example_deaf_world : world :=
  set_w_faults (λ _, [Some (ErrString "unavailable")]) example_world.

Lemma pubSub_Deploy_logs_published_witness :
  ∃ w', pubSub_Deploy (ext := echo) [example_decision] example_deaf_world = (Ok tt, w') ∧
    ∃ items rows, published w' = message_of <$> items ∧ deploy_log (w_rec w') = rows ∧
      pi_res <$> items = [example_decision] ∧ length items = length rows ∧ rows ≠ [].
Proof.
  destruct (pubSub_Deploy (ext := echo) [example_decision] example_deaf_world) as [[[]|e|p] w'] eqn:E;
    [|vm_compute in E; discriminate E..].
  exists w'. split; [reflexivity|].
  destruct (pubSub_Deploy_logs_published (ext := echo) _ _ _ _ E) as (items & Hp & _ & Hi & H).
  cbn [is_Ok] in H, Hi. destruct H as (rows & Hl & Hf). exists items, rows.
  split; [exact Hp|]. split; [exact Hl|]. destruct Hi as [Hi|[_ Hi]]; [|discriminate Hi].
  split; [exact Hi|]. split; [apply (Forall2_length _ _ _ Hf)|].
  intros ->. rewrite app_nil_r in Hl. vm_compute in E. injection E as <-. discriminate Hl.
Defined.

Lemma lost_publish_recorded_witness :
  ∃ w' rows, pubSub_Deploy (ext := echo) [example_decision] example_deaf_world = (Ok tt, w') ∧
    deploy_log (w_rec w') = rows ∧ length rows = 1%nat.
Proof.
  destruct (lost_publish_recorded (ext := echo) [example_decision] example_deaf_world
    [Some (ErrString "unavailable")]) as (w' & items & rows & Hrun & Hi & Hl & Hf).
  - intros d ->%list_elem_of_singleton. reflexivity.
  - reflexivity.
  - reflexivity.
  - exists w', rows. split; [exact Hrun|]. split; [exact Hl|].
    rewrite <-(Forall2_length _ _ _ Hf), <-(length_fmap pi_res items), Hi. reflexivity.
Defined.

Lemma Reconciler_Uninstall_spec_witness :
  Reconciler_Uninstall (Some (pubSubDeployer (ext := echo))) "nav" "dev" "naisd" example_world =
    (Err ErrUninstallProtected, example_world) ∧
  ∃ w', (∃ diid, Reconciler_Uninstall (Some (pubSubDeployer (ext := echo))) "nav" "dev" "old"
    example_world = (Ok diid, w')) ∧ length (published w') = 1%nat.
Proof.
  split.
  - destruct (Reconciler_Uninstall (Some (pubSubDeployer (ext := echo))) "nav" "dev" "naisd"
      example_world) as [o w'] eqn:E.
    destruct (Reconciler_Uninstall_spec (ext := echo) _ _ _ _ _ _ E) as [H _].
    destruct H as [H1 H2]; [apply elem_of_cons; left; reflexivity|]. congruence.
  - destruct (Reconciler_Uninstall (Some (pubSubDeployer (ext := echo))) "nav" "dev" "old"
      example_world) as [[diid|e|p] w'] eqn:E; [|vm_compute in E; discriminate E..].
    exists w'. split; [exists diid; reflexivity|].
    destruct (Reconciler_Uninstall_spec (ext := echo) _ _ _ _ _ _ E) as [_ H].
    destruct (H diid eq_refl) as (_ & msg & Hp & _). rewrite Hp. reflexivity.
Defined.

(** A deployer that always fails. *)
Definition failing_deployer : Deployer :=
  {| Deploy _ := fail (ErrString "down"); Uninstall _ _ _ _ := fail (ErrString "down") |}.

Lemma MultiDeployer_primary_witness :
  (Deploy (MultiDeployer (pubSubDeployer (ext := echo)) [failing_deployer]) [example_decision]
    example_world).1 = Ok tt.
Proof.
  destruct (Deploy (pubSubDeployer (ext := echo)) [example_decision] example_world)
    as [[[]|e|p] w1] eqn:E; [|vm_compute in E; discriminate E..].
  destruct (MultiDeployer_primary (pubSubDeployer (ext := echo)) [failing_deployer]
    [example_decision] example_world _ _ E) as [_ H].
  apply H; [reflexivity|]. intros d v Hd. apply list_elem_of_singleton in Hd as ->. reflexivity.
Defined.

Lemma Redeploy_spec_witness :
  ∃ o w', Redeploy (ext := echo) (pg := example_pg) (codec := example_codec) ""
      (Some (pubSubDeployer (ext := echo))) 7 "app" example_world = (o, w') ∧
    is_Ok o = false ∧ published w' = [].
Proof.
  destruct (Redeploy (ext := echo) (pg := example_pg) (codec := example_codec) ""
      (Some (pubSubDeployer (ext := echo))) 7 "app" example_world) as [o w'] eqn:E.
  exists o, w'. split; [reflexivity|].
  assert (is_Ok o = false) as Ho by (vm_compute in E; injection E as <- _; reflexivity).
  split; [exact Ho|].
  destruct (Redeploy_spec (ext := echo) (pg := example_pg) (codec := example_codec)
    _ _ _ _ _ _ _ E) as [[Hs _]|(snap & env & dep & dec & w1 & _)].
  - rewrite Hs. reflexivity.
  - vm_compute in E. injection E as _ <-. reflexivity.
Defined.
