(* ===== verification/Loop.v ===== *)
(** * internal/reconciler/reconciler.go: the reconcile loop

    One turn of [Run]: compute the desired state, log the decisions that changed,
    deploy; and the periodic [TimeoutPendingDeploys].  The turn is a relation, since
    the worker pool may deliver the decisions in any order; what it does with them
    is executable. *)

From S2P Require Export Deployer.

Section loop.
Context `{ext : External} `{pg : Postgres} `{codec : FeatureCodec}.

(** ** Logging decisions *)

Definition prev_decisions (latest : list DecisionRow) : gmap (N * string) DecisionRow :=
  foldl (λ m d, <[(cl_EnvironmentID d, cl_FeatureName d) := d]> m) ∅ latest.

(** The comparison that makes [writeResultLogs] skip a decision. *)
Definition same_decision (p : DecisionRow) (res : DeployDecision) : bool :=
  bool_decide (cl_FeatureAssignmentID p = dd_FeatureAssignmentID res) &&
  bool_decide (cl_FeatureVersion p = f_Version (dd_Feature res)) &&
  bool_decide (cl_Action p = Action_String (dd_Action res)) &&
  bool_decide (cl_Message p = dd_Message res).

Definition decision_params (res : DeployDecision) : AppendDecisionsParams :=
  {| ad_EnvironmentID := dd_EnvironmentID res;
     ad_FeatureAssignmentID := dd_FeatureAssignmentID res;
     ad_FeatureName := f_Name (dd_Feature res); ad_FeatureVersion := f_Version (dd_Feature res);
     ad_Action := Action_String (dd_Action res); ad_Message := dd_Message res |}.

Definition unchanged (prev : gmap (N * string) DecisionRow) (res : DeployDecision) : bool :=
  match prev !! decision_key res with
  | Some p => same_decision p res
  | None => false
  end.

Definition changed_decisions (prev : gmap (N * string) DecisionRow)
    (results : list DeployDecision) : list AppendDecisionsParams :=
  decision_params <$> filter (λ res, unchanged prev res = false) results.

Definition writeResultLogs (results : list DeployDecision) : IO unit :=
  latest ← wrapping "list latest decisions" ListLatestDecisions;
  let changed := changed_decisions (prev_decisions latest) results in
  if bool_decide (changed = []) then mret tt
  else wrapping "append decisions" (AppendDecisions changed).

(** ** One turn of the loop *)

(** [ComputeDesiredState]: fetch the snapshot and collect what the worker pool sends. *)
Definition ComputeDesiredState (aud : string) (clock : uuid → time) (numWorkers : nat)
    (w : world) (results : list DeployDecision) (w' : world) : Prop :=
  ∃ snap p, fetchSnapshot aud w = (Ok snap, w') ∧
    steps (pool_step snap numWorkers 2048) (pool_init numWorkers (dispatch_tasks snap clock)) p ∧
    pool_done p ∧ p_received p = results.

(** What [Run] does with the results; errors are logged and the loop goes on. *)
Definition apply_results (deployer : Deployer) (results : list DeployDecision) : IO unit :=
  r ← attempt (writeResultLogs results);
  match r with
  | inr _ => mret tt
  | inl _ => attempt (Deploy deployer results) ;; mret tt
  end.

(** [TriggerReconcile] puts a token into a channel of capacity one unless it is
    full; the loop's [select] takes it. *)
Definition TriggerReconcile (tokens : nat) : nat := if bool_decide (tokens = 0) then 1 else tokens.

(** ** TimeoutPendingDeploys: errors are logged *)
Definition TimeoutPendingDeploys : IO unit := attempt TimeoutPendingDeploys_query ;; mret tt.

(** ** Facts about logging *)

Lemma prev_decisions_lookup w k :
  logs_wf w → prev_decisions (decision_status w) !! k = decision_current (w_rec w) !! k.
Proof.
  intros Hwf.
  assert (Hl : ∀ l, (∀ d, d ∈ l → decision_current (w_rec w) !! log_key d = Some d) →
    ∀ k, prev_decisions l !! k = if decide (Exists (λ d, log_key d = k) l)
           then decision_current (w_rec w) !! k else None).
  { intros l. induction l as [|d l IH] using rev_ind; intros Hl k'.
    - rewrite decide_False; [done|]. by intros H%Exists_nil.
    - unfold prev_decisions. rewrite foldl_app. cbn [foldl].
      fold (prev_decisions l).
      destruct (decide (log_key d = k')) as [<-|Hk].
      + rewrite decide_True; [|apply Exists_app; right; by constructor].
        change (cl_EnvironmentID d, cl_FeatureName d) with (log_key d).
        rewrite lookup_insert_eq. symmetry. apply Hl, elem_of_app. right. by left.
      + rewrite lookup_insert_ne by done. rewrite IH.
        * apply decide_ext. rewrite Exists_app, Exists_cons. split; [by left|].
          intros [?|[?|H%Exists_nil]]; done.
        * intros d' Hd'. apply Hl, elem_of_app. by left. }
  rewrite Hl; [|intros d Hd; by apply elem_of_decision_status].
  case_decide as Hd; [done|]. symmetry. apply eq_None_not_Some. intros [d Hk]. apply Hd.
  apply Exists_exists. exists d. pose proof (decision_current_key _ _ _ Hwf Hk) as Hkey.
  split; [|done]. apply elem_of_decision_status; [done|]. by rewrite Hkey.
Qed.

Lemma append_decisions_wf ps w :
  logs_wf w → logs_wf (foldl (λ w p, insert_decision (decision_of p) w) w ps).
Proof.
  revert w. induction ps as [|p ps IH]; intros w Hwf; simpl; [done|].
  apply IH. by apply insert_decision_wf.
Qed.

Definition param_key (p : AppendDecisionsParams) : N * string :=
  (ad_EnvironmentID p, ad_FeatureName p).

(** Appending rows of distinct keys: each becomes current, the others stay. *)
Lemma append_decisions_current ps w k :
  logs_wf w → NoDup (param_key <$> ps) →
  match decision_current (w_rec (foldl (λ w p, insert_decision (decision_of p) w) w ps)) !! k with
  | Some r => (∃ p id, p ∈ ps ∧ param_key p = k ∧ r = decision_of p id (w_now w)) ∨
              ((∀ p, p ∈ ps → param_key p ≠ k) ∧ decision_current (w_rec w) !! k = Some r)
  | None => (∀ p, p ∈ ps → param_key p ≠ k) ∧ decision_current (w_rec w) !! k = None
  end.
Proof.
  revert w. induction ps as [|p ps IH]; intros w Hwf Hnd.
  { simpl. destruct (decision_current (w_rec w) !! k); [right|];
      (split; [|done]); by intros ? ?%elem_of_nil. }
  rewrite fmap_cons in Hnd. apply NoDup_cons in Hnd as [Hp Hnd]. cbn [foldl].
  pose proof (insert_decision_current p w Hwf) as Hc. cbn zeta in Hc.
  specialize (IH (insert_decision (decision_of p) w) (insert_decision_wf _ _ Hwf) Hnd).
  rewrite Hc in IH. cbn [w_now insert_decision set_w_rec] in IH.
  change (log_key (decision_of p (next_log_id (w_rec w)) (w_now w))) with (param_key p) in IH.
  destruct (decision_current (w_rec (foldl _ _ ps)) !! k) as [r|].
  - destruct IH as [(p' & id & Hin & Hk & ->)|[Hno Hr]].
    + left. exists p', id. split; [by right|done].
    + destruct (decide (param_key p = k)) as [<-|Hk].
      * rewrite lookup_insert_eq in Hr. injection Hr as <-. left. exists p, (next_log_id (w_rec w)).
        split; [by left|done].
      * rewrite lookup_insert_ne in Hr by done. right. split; [|done].
        intros p' [->|Hin]%elem_of_cons; [done|by apply Hno].
  - destruct IH as [Hno Hr]. destruct (decide (param_key p = k)) as [<-|Hk].
    + by rewrite lookup_insert_eq in Hr.
    + rewrite lookup_insert_ne in Hr by done. split; [|done].
      intros p' [->|Hin]%elem_of_cons; [done|by apply Hno].
Qed.

Lemma same_decision_of res id now : same_decision (decision_of (decision_params res) id now) res = true.
Proof. unfold same_decision. simpl. by rewrite !bool_decide_eq_true_2. Qed.

Lemma writeResultLogs_run results w w' :
  logs_wf w → writeResultLogs results w = (Ok tt, w') →
  logs_wf w' ∧ w_now w' = w_now w ∧
  ∃ w1, same_world w w1 ∧
    let ps := changed_decisions (decision_current (w_rec w)) results in
    w_rec w' = w_rec (foldl (λ w p, insert_decision (decision_of p) w) w1 ps).
Proof.
  intros Hwf. unfold writeResultLogs. intros H. read_bind H latest Hl S1.
  apply wrapping_Ok, query_value in Hl; [|done]. injection Hl as <-.
  assert (Hps : changed_decisions (prev_decisions (decision_status w)) results =
    changed_decisions (decision_current (w_rec w)) results).
  { unfold changed_decisions. f_equal. apply list_filter_iff. intros res.
    unfold unchanged. by rewrite prev_decisions_lookup. }
  rewrite Hps in H. clear Hps. rename x into w1.
  assert (Hwf1 : logs_wf w1).
  { unfold same_world in S1. rewrite S1. by apply logs_wf_faults. }
  case_bool_decide as Hn.
  - injection H as <-. split; [done|]. split; [by apply same_world_now|].
    exists w1. split; [done|]. cbn zeta. by rewrite Hn.
  - apply wrapping_Ok, exec_Ok in H as (w2 & Hf & ->). apply next_fault_same in Hf.
    pose proof (same_world_trans _ _ _ S1 Hf) as S2.
    assert (Hwf2 : logs_wf w2) by (unfold same_world in Hf; rewrite Hf; by apply logs_wf_faults).
    split; [by apply append_decisions_wf|]. split.
    + rewrite <-(same_world_now _ _ S2). generalize (changed_decisions (decision_current (w_rec w)) results).
      intros ps. clear. revert w2. induction ps as [|p ps IH]; intros w2; simpl; [done|].
      by rewrite IH.
    + by exists w2.
Qed.

(** After logging, the current decision of every result's key is the result. *)
Lemma writeResultLogs_current results w w' :
  logs_wf w → NoDup (decision_key <$> results) →
  writeResultLogs results w = (Ok tt, w') →
  ∀ res, res ∈ results → unchanged (decision_current (w_rec w')) res = true.
Proof.
  intros Hwf Hnd H res Hres.
  destruct (writeResultLogs_run _ _ _ Hwf H) as (_ & _ & w1 & S1 & Hrec). cbn zeta in Hrec.
  set (ps := changed_decisions (decision_current (w_rec w)) results) in *.
  assert (Hwf1 : logs_wf w1) by (unfold same_world in S1; rewrite S1; by apply logs_wf_faults).
  assert (Hnp : NoDup (param_key <$> ps)).
  { unfold ps, changed_decisions. rewrite <-list_fmap_compose.
    by apply (NoDup_fmap_filter decision_key). }
  pose proof (append_decisions_current ps w1 (decision_key res) Hwf1 Hnp) as Hc.
  rewrite <-Hrec, (same_world_rec _ _ S1) in Hc. unfold unchanged.
  assert (Hin : unchanged (decision_current (w_rec w)) res = false → decision_params res ∈ ps).
  { intros Hu. unfold ps, changed_decisions. apply list_elem_of_fmap. exists res.
    split; [done|]. by apply list_elem_of_filter. }
  unfold unchanged in Hin.
  destruct (decision_current (w_rec w') !! decision_key res) as [r|].
  - destruct Hc as [(p & id & Hp & Hk & ->)|[Hno Hr]].
    + unfold ps, changed_decisions in Hp. apply list_elem_of_fmap in Hp as (res' & -> & Hr').
      apply list_elem_of_filter in Hr' as [_ Hr'].
      rewrite (NoDup_fmap_inj_on decision_key results res' res) by done.
      apply same_decision_of.
    + rewrite Hr in Hin. destruct (same_decision r res); [done|].
      by destruct (Hno _ (Hin eq_refl)).
  - destruct Hc as [Hno Hr]. rewrite Hr in Hin. by destruct (Hno _ (Hin eq_refl)).
Qed.

(** [writeResultLogs] records a decision only when it changed: once it succeeded,
    the latest logged decision of every result is that result, and logging the same
    results again, at any later time, leaves the decision log as it is. *)
Theorem writeResultLogs_idempotent results w w1 w2 o w3 :
  logs_wf w → NoDup (decision_key <$> results) →
  writeResultLogs results w = (Ok tt, w1) →
  w_rec w2 = w_rec w1 → (w_now w1 <= w_now w2)%Z →
  writeResultLogs results w2 = (o, w3) →
  (∀ res, res ∈ results → ∃ r, decision_current (w_rec w1) !! decision_key res = Some r ∧
     same_decision r res = true) ∧
  w_rec w3 = w_rec w1.
Proof.
  intros Hwf Hnd H1 Hrec Hnow H2.
  pose proof (writeResultLogs_current _ _ _ Hwf Hnd H1) as Hcur. split.
  { intros res Hres. apply Hcur in Hres. unfold unchanged in Hres.
    destruct (decision_current _ !! _) as [r|]; [|done]. by exists r. }
  destruct (writeResultLogs_run _ _ _ Hwf H1) as (Hwf1 & _).
  assert (Hwf2 : logs_wf w2).
  { destruct Hwf1 as [A1 A2 A3 A4 A5 A6]. split; rewrite ?Hrec; try done.
    - intros r Hr. apply A5 in Hr. lia.
    - intros r Hr. apply A6 in Hr. lia. }
  assert (Hnil : changed_decisions (decision_current (w_rec w2)) results = []).
  { unfold changed_decisions. rewrite Hrec.
    assert (filter (λ res, unchanged (decision_current (w_rec w1)) res = false) results = []) as ->;
      [|done].
    apply elem_of_nil_inv. intros res [Hu Hin]%list_elem_of_filter.
    apply Hcur in Hin. congruence. }
  unfold writeResultLogs in H2. unfold mbind, M_bind in H2.
  destruct (wrapping "list latest decisions" ListLatestDecisions w2) as [[latest|e|p] w4] eqn:E;
    pose proof (reads_wrapping _ _ (reads_query _) _ _ _ E) as S4;
    rewrite <-Hrec; rewrite <-(same_world_rec _ _ S4).
  2,3: injection H2 as _ <-; done.
  apply wrapping_Ok, query_value in E; [|done]. injection E as <-.
  assert (Hps : changed_decisions (prev_decisions (decision_status w2)) results = []).
  { rewrite <-Hnil. unfold changed_decisions. f_equal. apply list_filter_iff. intros res.
    unfold unchanged. by rewrite prev_decisions_lookup. }
  rewrite Hps in H2. simpl in H2. by injection H2 as _ <-.
Qed.

(** ** Timeouts *)

Lemma append_deploys_wf (ps : list AppendDeploysParams) w :
  logs_wf w → logs_wf (foldl (λ w p, insert_deploy (deploy_of p) w) w ps).
Proof.
  revert w. induction ps as [|p ps IH]; intros w Hwf; simpl; [done|].
  apply IH. by apply insert_deploy_wf.
Qed.

Definition deploy_param_key (p : AppendDeploysParams) : N * string :=
  (ap_EnvironmentID p, ap_FeatureName p).

(** The current row of a key after a COPY: the last row appended for it, if any. *)
Lemma append_deploys_current ps w k :
  logs_wf w →
  match last (filter (λ p, deploy_param_key p = k) ps) with
  | Some p => ∃ id, deploy_current (w_rec (foldl (λ w p, insert_deploy (deploy_of p) w) w ps)) !! k
                    = Some (deploy_of p id (w_now w))
  | None => deploy_current (w_rec (foldl (λ w p, insert_deploy (deploy_of p) w) w ps)) !! k =
            deploy_current (w_rec w) !! k
  end.
Proof.
  intros Hwf. induction ps as [|p ps IH] using rev_ind; [done|].
  rewrite foldl_app. cbn [foldl]. set (w1 := foldl _ w ps) in *.
  assert (Hwf1 : logs_wf w1) by by apply append_deploys_wf.
  pose proof (insert_deploy_current p w1 Hwf1) as Hc. cbn zeta in Hc. rewrite Hc.
  change (log_key (deploy_of p (next_log_id (w_rec w1)) (w_now w1))) with (deploy_param_key p).
  rewrite filter_app, filter_cons, filter_nil.
  destruct (decide (deploy_param_key p = k)) as [<-|Hk].
  - rewrite last_snoc, lookup_insert_eq. exists (next_log_id (w_rec w1)). do 2 f_equal.
    unfold w1. clear. induction ps as [|q ps IH] using rev_ind; [done|].
    by rewrite foldl_app.
  - rewrite app_nil_r, lookup_insert_ne by done. done.
Qed.

Lemma timeout_pending_fold w :
  timeout_pending w = foldl (λ w p, insert_deploy (deploy_of p) w) w
    (fail_row <$> filter (λ r, timed_out (w_now w) r = true) (deploy_status w)).
Proof. unfold timeout_pending. by rewrite foldl_fmap. Qed.

Lemma timeout_pending_now w : w_now (timeout_pending w) = w_now w.
Proof.
  rewrite timeout_pending_fold.
  generalize (fail_row <$> filter (λ r, timed_out (w_now w) r = true) (deploy_status w)).
  intros ps. revert w. induction ps as [|p ps IH]; intros w; simpl; [done|]. by rewrite IH.
Qed.

Lemma timeout_pending_key w k :
  logs_wf w →
  ∀ p, p ∈ fail_row <$> filter (λ r, timed_out (w_now w) r = true) (deploy_status w) →
  deploy_param_key p = k →
  ∃ r, deploy_current (w_rec w) !! k = Some r ∧ timed_out (w_now w) r = true ∧ p = fail_row r.
Proof.
  intros Hwf p (r & -> & [Ht Hr]%list_elem_of_filter)%list_elem_of_fmap Hk. exists r.
  apply elem_of_deploy_status in Hr; [|done].
  change (deploy_param_key (fail_row r)) with (log_key r) in Hk. by rewrite <-Hk.
Qed.

(** The current row of a key after the statement. *)
Lemma timeout_pending_current w k :
  logs_wf w →
  match deploy_current (w_rec w) !! k with
  | Some r =>
      if timed_out (w_now w) r
      then ∃ r', deploy_current (w_rec (timeout_pending w)) !! k = Some r' ∧
             dl_Status r' = DeployStatusFailed ∧ dl_Diid r' = dl_Diid r ∧ dl_Hash r' = dl_Hash r ∧
             dl_Created r' = w_now w
      else deploy_current (w_rec (timeout_pending w)) !! k = Some r
  | None => deploy_current (w_rec (timeout_pending w)) !! k = None
  end.
Proof.
  intros Hwf. pose proof (timeout_pending_key w k Hwf) as Hps. rewrite timeout_pending_fold.
  set (ps := fail_row <$> filter (λ r, timed_out (w_now w) r = true) (deploy_status w)) in *.
  pose proof (append_deploys_current ps w k Hwf) as Hc.
  destruct (last (filter (λ p, deploy_param_key p = k) ps)) as [p|] eqn:El.
  - apply last_Some_elem_of, list_elem_of_filter in El as [Hk Hp].
    destruct (Hps p Hp Hk) as (r & Hr & Ht & ->). destruct Hc as [id Hc].
    rewrite Hr, Ht, Hc. eexists. split; [done|]. by repeat split.
  - rewrite Hc. destruct (deploy_current (w_rec w) !! k) as [r|] eqn:Er; [|done].
    destruct (timed_out (w_now w) r) eqn:Et; [|done]. exfalso.
    pose proof (deploy_current_key _ _ _ Hwf Er) as Hk.
    apply last_None in El. assert (fail_row r ∈ filter (λ p, deploy_param_key p = k) ps) as Hel.
    { apply list_elem_of_filter. split; [done|]. apply list_elem_of_fmap_2, list_elem_of_filter.
      split; [done|]. apply elem_of_deploy_status; [done|]. by rewrite Hk. }
    rewrite El in Hel. by apply elem_of_nil in Hel.
Qed.

Lemma not_timed_out now r :
  timed_out now r = false → IsInProgress (dl_Status r) = true → (now - Hour <= dl_Created r)%Z.
Proof.
  unfold timed_out, IsInProgress. intros [Ht|Ht]%andb_false_iff Hp; [|apply Z.ltb_ge in Ht; lia].
  apply bool_decide_eq_false in Ht. exfalso. apply Ht.
  apply orb_true_iff in Hp as [->%bool_decide_eq_true| ->%bool_decide_eq_true];
    [by left|right; by left].
Qed.

(** What is still pending afterwards is recent. *)
Lemma timeout_pending_recent w k r :
  logs_wf w → deploy_current (w_rec (timeout_pending w)) !! k = Some r →
  IsInProgress (dl_Status r) = true → (w_now w - Hour <= dl_Created r)%Z.
Proof.
  intros Hwf Hr Hp. pose proof (timeout_pending_current w k Hwf) as Hc.
  destruct (deploy_current (w_rec w) !! k) as [r0|]; [|congruence].
  destruct (timed_out (w_now w) r0) eqn:Et.
  - destruct Hc as (r' & Hr' & Hs & _). simplify_eq. by rewrite Hs in Hp.
  - simplify_eq. by apply not_timed_out.
Qed.

(** A successful [TimeoutPendingDeploys] fails exactly the deploys that were sent or
    installing for more than an hour: for each of them a row [failed] with the same
    identifier and hash becomes current, no other feature's current row changes,
    and none is left pending from more than an hour ago. *)
Theorem TimeoutPendingDeploys_spec w w' k :
  logs_wf w → TimeoutPendingDeploys_query w = (Ok tt, w') →
  logs_wf w' ∧ w_now w' = w_now w ∧
  match deploy_current (w_rec w) !! k with
  | Some r =>
      if timed_out (w_now w) r
      then ∃ r', deploy_current (w_rec w') !! k = Some r' ∧ dl_Status r' = DeployStatusFailed ∧
             dl_Diid r' = dl_Diid r ∧ dl_Hash r' = dl_Hash r ∧ dl_Created r' = w_now w
      else deploy_current (w_rec w') !! k = Some r
  | None => deploy_current (w_rec w') !! k = None
  end ∧
  (∀ r, deploy_current (w_rec w') !! k = Some r → IsInProgress (dl_Status r) = true →
     (w_now w' - Hour <= dl_Created r)%Z).
Proof.
  intros Hwf (w1 & Hf & ->)%exec_Ok. apply next_fault_same in Hf.
  assert (Hwf1 : logs_wf w1) by (unfold same_world in Hf; rewrite Hf; by apply logs_wf_faults).
  rewrite <-(same_world_now _ _ Hf), <-(same_world_rec _ _ Hf).
  rewrite timeout_pending_now. split_and!.
  - rewrite timeout_pending_fold. by apply append_deploys_wf.
  - done.
  - by apply timeout_pending_current.
  - intros r. by apply timeout_pending_recent.
Qed.

(** ** No instruction is sent twice *)

(** What a successful [Deploy] newly recorded for a key is its current row: sent. *)
Lemma deployed_current decisions w w1 k r :
  logs_wf w → pubSub_Deploy decisions w = (Ok tt, w1) →
  r ∈ deploy_log (w_rec w1) → r ∉ deploy_log (w_rec w) → log_key r = k →
  logs_wf w1 ∧ ∃ c, deploy_current (w_rec w1) !! k = Some c ∧ dl_Status c = DeployStatusSent.
Proof.
  intros Hwf Hdep Hr1 Hr0 Hk. unfold pubSub_Deploy in Hdep.
  apply bind_Ok in Hdep as (items & wa & Hp & Hdep).
  pose proof (prepare_all_run _ _ _ _ Hp) as (Ra & _ & Na & _). apply prepare_all_Ok in Hp.
  destruct (publish_all_run items wa (items_encoded _ _ Hp)) as (wb & Hpub & _ & Sb & _).
  rewrite (bind_run _ _ _ _ _ Hpub) in Hdep.
  assert (w_rec wb = w_rec wa ∧ w_now wb = w_now wa) as [Rb Nb] by by rewrite Sb.
  case_bool_decide as Hnil; [by injection Hdep as <-; rewrite Rb, Ra in Hr1|].
  apply wrapping_Ok, exec_Ok in Hdep as (wc & Hf & ->). apply next_fault_same in Hf.
  assert (Hwfc : logs_wf wc).
  { unfold same_world in Hf. rewrite Hf. apply logs_wf_faults.
    destruct Hwf as [A1 A2 A3 A4 A5 A6]. by split; rewrite ?Rb, ?Ra, ?Nb, ?Na. }
  split; [by apply append_deploys_wf|]. set (ps := deploy_row <$> items) in *.
  pose proof (append_deploys_current ps wc k Hwfc) as Hcur.
  destruct (append_deploys_log ps wc) as (rs & Hl & Hfr & _).
  rewrite Hl, (same_world_rec _ _ Hf), Rb, Ra in Hr1. apply elem_of_app in Hr1 as [?|Hr1]; [done|].
  apply list_elem_of_lookup in Hr1 as [i Hi].
  destruct (Forall2_lookup_r _ _ _ _ _ Hfr Hi) as (p & Hpi & id & ->).
  assert (p ∈ filter (λ p, deploy_param_key p = k) ps) as Hel
    by (apply list_elem_of_filter; split; [done|by eapply list_elem_of_lookup_2]).
  destruct (last (filter _ ps)) as [q|] eqn:Eq;
    [|apply last_None in Eq; rewrite Eq in Hel; by apply elem_of_nil in Hel].
  destruct Hcur as [id' Hcur]. apply last_Some_elem_of, list_elem_of_filter in Eq as [_ Hq].
  apply list_elem_of_fmap in Hq as (item & -> & _). by eexists.
Qed.

(** Rows of other features and environments do not matter to a key. *)
Lemma deploy_current_filter w1 w2 k :
  logs_wf w1 → logs_wf w2 →
  filter (λ r, log_key r = k) (deploy_log (w_rec w2)) =
    filter (λ r, log_key r = k) (deploy_log (w_rec w1)) →
  deploy_current (w_rec w2) !! k = deploy_current (w_rec w1) !! k.
Proof.
  intros H1 H2 Heq. rewrite (wf_deploy_current _ H1), (wf_deploy_current _ H2).
  etrans; [by eapply current_is_distinct_on; [apply H2|]|]. unfold distinct_on. rewrite Heq.
  symmetry. by eapply current_is_distinct_on; [apply H1|].
Qed.

(** C14.  Once [Deploy] recorded an instruction, no later decision for the same feature
    and environment is to deploy while the deploy log has no further row for this feature
    and environment, that is until the agent reports on the instruction or it times out:
    whatever else changed (the tables, heartbeats, releases, decisions, the log of other
    features, the clock), as long as the logs are well formed, the decision is not
    [deploy]. *)
Theorem recorded_not_redeployed decisions w w1 w2 aud snap w3 d order env dep d' :
  logs_wf w → pubSub_Deploy decisions w = (Ok tt, w1) →
  (∃ r, r ∈ deploy_log (w_rec w1) ∧ (r ∉ deploy_log (w_rec w)) ∧ log_key r = decision_key d) →
  logs_wf w2 →
  filter (λ r, log_key r = decision_key d) (deploy_log (w_rec w2)) =
    filter (λ r, log_key r = decision_key d) (deploy_log (w_rec w1)) →
  fetchSnapshot aud w2 = (Ok snap, w3) →
  (e_ID env, f_Name (ra_Feature dep)) = decision_key d →
  computeAction order snap env dep = Ok d' → dd_Action d' ≠ ActionDeploy.
Proof.
  intros Hwf Hdep (r & Hr1 & Hr0 & Hk) Hwf2 Hlog Hsnap Hkey Hc Ha.
  destruct (deployed_current _ _ _ _ _ Hwf Hdep Hr1 Hr0 Hk) as (Hwf1 & c & Hcur & Hst).
  assert (Hlat : latestFor snap (e_ID env) (f_Name (ra_Feature dep)) = Some (instruction_of c)).
  { rewrite (snapshot_latest aud w2 snap w3) by done.
    by rewrite Hkey, (deploy_current_filter w1 w2), Hcur. }
  destruct (computeAction_cases _ _ _ _ _ Hc) as [(a & msg & Hfa & ->)|
    (values & hash & _ & _ & _ & Hcmp)].
  - simpl in Ha. by subst a.
  - rewrite Hlat in Hcmp. unfold compareLatest in Hcmp. cbn in Hcmp. rewrite Hst in Hcmp.
    simpl in Hcmp. by subst d'.
Qed.
End loop.

(** ** Witnesses *)

Lemma writeResultLogs_idempotent_witness :
  ∃ w1, writeResultLogs [example_decision] example_world = (Ok tt, w1) ∧
    length (decision_log (w_rec w1)) = 1%nat ∧
    w_rec (writeResultLogs [example_decision] w1).2 = w_rec w1.
Proof.
  destruct (writeResultLogs [example_decision] example_world) as [[[]|e|p] w1] eqn:E;
    [|vm_compute in E; discriminate E..].
  exists w1. split; [reflexivity|].
  split; [vm_compute in E; injection E as <-; reflexivity|].
  destruct (writeResultLogs [example_decision] w1) as [o w3] eqn:E3.
  destruct (writeResultLogs_idempotent [example_decision] example_world w1 w1 o w3) as [_ H].
  - apply example_world_wf.
  - apply (bool_decide_unpack _). vm_compute. exact I.
  - exact E.
  - reflexivity.
  - reflexivity.
  - exact E3.
  - exact H.
Defined.

(** A deploy sent at instant 100 and two hours later. *)
Definition example_stuck : world :=
  set_w_now (λ t, (t + 2 * Hour)%Z)
    (insert_deploy (deploy_of {| ap_Diid := 9; ap_EnvironmentID := 7; ap_FeatureAssignmentID := 1;
       ap_FeatureName := "app"; ap_FeatureVersion := "1.0.0"; ap_Status := DeployStatusSent;
       ap_Hash := "h"; ap_Vals := "{}" |}) example_world).

Lemma example_stuck_wf : logs_wf example_stuck.
Proof.
  destruct (insert_deploy_wf {| ap_Diid := 9; ap_EnvironmentID := 7; ap_FeatureAssignmentID := 1;
       ap_FeatureName := "app"; ap_FeatureVersion := "1.0.0"; ap_Status := DeployStatusSent;
       ap_Hash := "h"; ap_Vals := "{}" |} _ example_world_wf) as [H1 H2 H3 H4 H5 H6].
  split; [exact H1|exact H2|exact H3|exact H4| |].
  - intros r Hr. destruct (H5 r Hr) as [? Hc]. split; [done|]. simpl in Hc |- *. unfold Hour.
    unfold Minute, Second, Millisecond. lia.
  - intros r Hr. destruct (H6 r Hr) as [? Hc]. split; [done|]. simpl in Hc |- *. unfold Hour.
    unfold Minute, Second, Millisecond. lia.
Qed.

Lemma TimeoutPendingDeploys_spec_witness :
  ∃ w' r, TimeoutPendingDeploys_query example_stuck = (Ok tt, w') ∧
    deploy_current (w_rec w') !! (7%N, "app") = Some r ∧ dl_Status r = DeployStatusFailed.
Proof.
  destruct (TimeoutPendingDeploys_query example_stuck) as [[[]|e|p] w'] eqn:E;
    [|vm_compute in E; discriminate E..].
  destruct (TimeoutPendingDeploys_spec example_stuck w' (7%N, "app") example_stuck_wf E)
    as (_ & _ & H & _).
  destruct (deploy_current (w_rec example_stuck) !! (7%N, "app")) as [r|] eqn:Er;
    [|vm_compute in Er; discriminate Er].
  assert (timed_out (w_now example_stuck) r = true) as Ht.
  { vm_compute in Er. injection Er as <-. vm_compute. reflexivity. }
  rewrite Ht in H. destruct H as (r' & Hr & Hs & _). exists w', r'. split; [reflexivity|].
  split; [exact Hr|exact Hs].
Defined.

(** Half a minute later, after a heartbeat and a deploy of another feature. *)
Definition example_elsewhere (w : world) : world :=
  insert_deploy (deploy_of {| ap_Diid := 10; ap_EnvironmentID := 7; ap_FeatureAssignmentID := 2;
       ap_FeatureName := "other"; ap_FeatureVersion := "1.0.0"; ap_Status := DeployStatusSent;
       ap_Hash := "h"; ap_Vals := "{}" |})
    (set_w_now (λ t, (t + 30)%Z) (set_w_rec (set_health_statuses (λ _, {[ 7%N := 130%Z ]})) w)).

Lemma example_elsewhere_wf w : logs_wf w → logs_wf (example_elsewhere w).
Proof.
  intros [A1 A2 A3 A4 A5 A6]. apply insert_deploy_wf. split; try done; simpl.
  - intros r Hr. apply A5 in Hr. lia.
  - intros r Hr. apply A6 in Hr. lia.
Qed.

Lemma recorded_not_redeployed_witness :
  ∃ w1 snap w3 d',
    pubSub_Deploy (ext := echo) [example_decision] example_world = (Ok tt, w1) ∧
    fetchSnapshot (ext := echo) (pg := example_pg) (codec := example_codec) ""
      (example_elsewhere w1) = (Ok snap, w3) ∧
    computeAction (ext := echo) (map_to_list example_values) snap
      (example_env {[ "kind" := "tenant" ]}) (example_assignment {[ "kind" := "tenant" ]} 5) =
      Ok d' ∧ dd_Action d' ≠ ActionDeploy.
Proof.
  destruct (pubSub_Deploy (ext := echo) [example_decision] example_world) as [[[]|e|p] w1] eqn:E1;
    [|vm_compute in E1; discriminate E1..].
  destruct (fetchSnapshot (ext := echo) (pg := example_pg) (codec := example_codec) ""
      (example_elsewhere w1)) as [[snap|e|p] w3] eqn:E2;
    [|vm_compute in E1; injection E1 as <-; vm_compute in E2; discriminate E2..].
  destruct (computeAction (ext := echo) (map_to_list example_values) snap
      (example_env {[ "kind" := "tenant" ]}) (example_assignment {[ "kind" := "tenant" ]} 5))
    as [d'|e|p] eqn:E3;
    [|vm_compute in E1; injection E1 as <-; vm_compute in E2; injection E2 as <- _;
      vm_compute in E3; discriminate E3..].
  exists w1, snap, w3, d'. split; [reflexivity|]. split; [exact E2|]. split; [exact E3|].
  assert (∃ r, r ∈ deploy_log (w_rec w1) ∧ (r ∉ deploy_log (w_rec example_world)) ∧
    log_key r = decision_key example_decision) as Hnew.
  { vm_compute in E1. injection E1 as <-. eexists.
    split; [apply list_elem_of_singleton; reflexivity|]. split; [apply not_elem_of_nil|reflexivity]. }
  apply (recorded_not_redeployed (ext := echo) (pg := example_pg) (codec := example_codec)
    [example_decision] example_world w1 (example_elsewhere w1) "" snap w3 example_decision
    (map_to_list example_values) (example_env {[ "kind" := "tenant" ]})
    (example_assignment {[ "kind" := "tenant" ]} 5) d').
  - apply example_world_wf.
  - exact E1.
  - exact Hnew.
  - destruct Hnew as (r & H1 & H2 & H3). apply example_elsewhere_wf.
    exact (proj1 (deployed_current (ext := echo) _ _ _ _ _ example_world_wf E1 H1 H2 H3)).
  - vm_compute in E1. injection E1 as <-. vm_compute. reflexivity.
  - exact E2.
  - reflexivity.
  - exact E3.
Defined.
