(* ===== verification/DecisionStream.v ===== *)
(** * A dry run of the reconciliation, streamed to a page

    [StreamDecisions] of internal/reconciler/reconciler.go and the handler of
    internal/ui/pages/reconciler/stream.go that consumes its channel.  Requests share the
    mutex [streamMu]; each has a channel of its own, a goroutine that forwards what arrives
    there, and waits for that goroutine before it replies.  The transition system has one
    state per request; the worker pool behind the channel is that of [Dispatch].

    A request that finds another one running gets an error from [StreamDecisions], which
    leaves the channel open: the handler waits for a goroutine that waits for the channel,
    and never replies ([second_request_hangs]). *)

From S2P Require Import Fetch.
From S2P Require Export Dispatch.

Definition ErrReconcileInProgress : error := ErrString "reconcile already in progress".

(** ** Events *)

Record sseDecision := {
  se_Action : string; se_Tenant : string; se_Environment : string; se_Feature : string; se_Version : string;
  se_Message : string;
}.

Inductive event :=
  | DecisionEvent (d : sseDecision)
  | ErrorEvent (error : string)
  | SummaryEvent (fetchDur computeDur : duration) (total : nat).

Definition decision_event (d : DeployDecision) : event :=
  DecisionEvent {| se_Action := Action_String (dd_Action d); se_Tenant := dd_TenantName d;
    se_Environment := dd_EnvironmentName d; se_Feature := f_Name (dd_Feature d);
    se_Version := f_Version (dd_Feature d); se_Message := dd_Message d |}.

Definition sseEvent (event data : string) : string :=
  "event: " +:+ (event +:+ (String "010" "data: " +:+ (data +:+ String "010" (String "010" "")))).

(** ** Requests *)

(** The channel a request has handed out: left open without a sender, closed without a
    value, or the one the worker pool sends to. *)
Inductive channel := LeftOpen | ClosedEmpty | Filled (snap : snapshot) (p : pool).

Definition drained (ch : channel) : Prop :=
  match ch with LeftOpen => False | ClosedEmpty => True | Filled _ p => pool_done p end.

Definition received (ch : channel) : list DeployDecision :=
  match ch with Filled _ p => p_received p | _ => [] end.

(** Where the handler is: before [StreamDecisions]; in it, fetching or computing with the
    mutex held; in [forwarder.Wait] with the result; or done, with all it has written. *)
Inductive request :=
  | Calling
  | Fetching
  | Computing (snap : snapshot) (p : pool) (fetchDur : duration)
  | Waiting (ch : channel) (result : duration * duration + error)
  | Replied (events : list event).

(** What is written after the decisions. *)
Definition final_event (result : duration * duration + error) (total : nat) : event :=
  match result with
  | inl (fetchDur, computeDur) => SummaryEvent fetchDur computeDur total
  | inr err =>
      if errors_is err ErrReconcileInProgress then ErrorEvent "reconcile already in progress"
      else ErrorEvent (error_msg err)
  end.

Definition reply (ch : channel) (result : duration * duration + error) : list event :=
  (decision_event <$> received ch) ++ [final_event result (length (received ch))].

(** [streamMu]'s holder, and the requests in the order of their arrival. *)
Record server := { sv_mutex : option nat; sv_requests : list request }.

Section stream.
Context `{ext : External} `{pg : Postgres} `{codec : FeatureCodec}.
(** The database as each request's snapshot finds it, and the number of workers. *)
Context (aud : string) (db : nat → world) (numWorkers : nat).

Definition chanCap : nat := 2048.

Inductive stream_step : server → server → Prop :=
  | step_busy i holder l :
      l !! i = Some Calling →
      stream_step (Build_server (Some holder) l)
        (Build_server (Some holder) (<[i := Waiting LeftOpen (inr ErrReconcileInProgress)]> l))
  | step_lock i l :
      l !! i = Some Calling →
      stream_step (Build_server None l) (Build_server (Some i) (<[i := Fetching]> l))
  | step_fetch_error i m l e w' :
      l !! i = Some Fetching → fetchSnapshot aud (db i) = (Err e, w') →
      stream_step (Build_server m l)
        (Build_server None (<[i := Waiting ClosedEmpty (inr (ErrWrap "fetch snapshot" e))]> l))
  | step_fetched i m l snap clock w' fetchDur :
      l !! i = Some Fetching → fetchSnapshot aud (db i) = (Ok snap, w') →
      stream_step (Build_server m l)
        (Build_server m (<[i := Computing snap (pool_init numWorkers (dispatch_tasks snap clock)) fetchDur]> l))
  | step_compute i m l snap p p' fetchDur :
      l !! i = Some (Computing snap p fetchDur) → pool_step snap numWorkers chanCap p p' →
      stream_step (Build_server m l) (Build_server m (<[i := Computing snap p' fetchDur]> l))
  | step_computed i m l snap p fetchDur computeDur :
      l !! i = Some (Computing snap p fetchDur) → p_finished p = true →
      stream_step (Build_server m l)
        (Build_server None (<[i := Waiting (Filled snap p) (inl (fetchDur, computeDur))]> l))
  | step_forward i m l snap p p' result :
      l !! i = Some (Waiting (Filled snap p) result) → pool_step snap numWorkers chanCap p p' →
      stream_step (Build_server m l) (Build_server m (<[i := Waiting (Filled snap p') result]> l))
  | step_reply i m l ch result :
      l !! i = Some (Waiting ch result) → drained ch →
      stream_step (Build_server m l) (Build_server m (<[i := Replied (reply ch result)]> l)).

Definition requests_init (n : nat) : server := {| sv_mutex := None; sv_requests := replicate n Calling |}.

(** ** Every run is finite *)

Definition rank (r : request) : nat :=
  match r with Calling => 4 | Fetching => 3 | Computing _ _ _ => 2 | Waiting _ _ => 1 | Replied _ => 0 end.

Definition work_left (r : request) : nat :=
  match r with Computing _ p _ | Waiting (Filled _ p) _ => pool_measure p | _ => 0 end.

Definition total (f : request → nat) (l : list request) : nat := foldr (λ r n, f r + n) 0 l.

Lemma total_insert f l i r r' : l !! i = Some r → total f (<[i := r']> l) + f r = total f l + f r'.
Proof.
  unfold total. revert i. induction l as [|x l IH]; intros [|i] H; try done; cbn in H |- *; [injection H as ->; lia|].
  rewrite <-!Nat.add_assoc. f_equal. exact (IH i H).
Qed.

(** A step gets one request further, or uses up work of a pool. *)
Lemma stream_step_progress s s' :
  stream_step s s' →
  total rank (sv_requests s') < total rank (sv_requests s) ∨
  total rank (sv_requests s') = total rank (sv_requests s) ∧
    total work_left (sv_requests s') < total work_left (sv_requests s).
Proof.
  intros H. destruct H as [i h l Hi|i l Hi|i m l e w' Hi _|i m l snap clock w' d Hi _|i m l snap p p' d Hi Hp
    |i m l snap p d c Hi _|i m l snap p p' r Hi Hp|i m l ch r Hi _]; cbn [sv_requests].
  all: match goal with Hi : ?l !! ?i = Some _ |- context [<[?i := ?r']> ?l] =>
    pose proof (total_insert rank l i _ r' Hi) as Hr; pose proof (total_insert work_left l i _ r' Hi) as Hw end;
    cbn [rank work_left] in Hr, Hw; try (left; lia).
  all: apply pool_step_decreases in Hp; right; lia.
Qed.

Lemma stream_step_wf s : Acc (λ s2 s1, stream_step s1 s2) s.
Proof.
  remember (total rank (sv_requests s)) as a eqn:Ha. revert s Ha.
  induction a as [a IHa] using lt_wf_ind. intros s.
  remember (total work_left (sv_requests s)) as b eqn:Hb. revert s Hb.
  induction b as [b IHb] using lt_wf_ind. intros s Hb Ha. constructor. intros s' Hs.
  apply stream_step_progress in Hs as [Hlt|[Heq Hlt]]; [by eapply IHa; [|done]; lia|].
  eapply (IHb (total work_left (sv_requests s'))); [lia|done|lia].
Qed.
(** ** What holds of the requests *)

Definition holding (r : request) : bool :=
  match r with Fetching | Computing _ _ _ => true | _ => false end.

Definition hung (r : request) : Prop := r = Waiting LeftOpen (inr ErrReconcileInProgress).

Definition settled (r : request) : bool := match r with Waiting LeftOpen _ | Replied _ => true | _ => false end.

(** A run of the pool over the snapshot of the [i]th request. *)
Definition runs (i : nat) (snap : snapshot) (p : pool) : Prop :=
  (∃ w', fetchSnapshot aud (db i) = (Ok snap, w')) ∧
  ∃ clock, pool_inv snap numWorkers (dispatch_tasks snap clock) p.

(** What the [i]th request may be answered with: the error of its snapshot, or the decision
    of every task, in some order, and their number. *)
Definition served (i : nat) (events : list event) : Prop :=
  (∃ e w', fetchSnapshot aud (db i) = (Err e, w') ∧ events = [final_event (inr (ErrWrap "fetch snapshot" e)) 0]) ∨
  ∃ snap w' clock decided ds fetchDur computeDur,
    fetchSnapshot aud (db i) = (Ok snap, w') ∧ decided ≡ₚ dispatch_tasks snap clock ∧
    Forall2 (task_result snap) decided ds ∧
    events = (decision_event <$> ds) ++ [SummaryEvent fetchDur computeDur (length ds)].

Definition request_ok (i : nat) (r : request) : Prop :=
  match r with
  | Calling | Fetching => True
  | Computing snap p _ => runs i snap p
  | Waiting LeftOpen result => result = inr ErrReconcileInProgress
  | Waiting ClosedEmpty result =>
      ∃ e w', fetchSnapshot aud (db i) = (Err e, w') ∧ result = inr (ErrWrap "fetch snapshot" e)
  | Waiting (Filled snap p) result => runs i snap p ∧ p_finished p = true ∧ ∃ durs, result = inl durs
  | Replied events => served i events
  end.

(** The mutex names the request that holds it. *)
Record server_inv (s : server) : Prop := {
  inv_requests : ∀ i r, sv_requests s !! i = Some r → request_ok i r;
  inv_mutex : ∀ i, sv_mutex s = Some i ↔ ∃ r, sv_requests s !! i = Some r ∧ holding r = true;
}.

Lemma server_inv_init n : server_inv (requests_init n).
Proof.
  split; cbn.
  - intros i r [-> _]%lookup_replicate. done.
  - intros i. split; [done|]. by intros (r & [-> _]%lookup_replicate & Hh).
Qed.

(** One request changes; it takes the mutex, keeps what it has of it or gives it back. *)
Lemma server_inv_change m m' l i r r' :
  server_inv (Build_server m l) → l !! i = Some r → request_ok i r' →
  m' = (if holding r' then Some i else if holding r then None else m) →
  (holding r' = true → holding r = false → m = None) →
  server_inv (Build_server m' (<[i := r']> l)).
Proof.
  intros [Hreq Hmut] Hi Hok Hm Hfree. cbn in *. assert (i < length l) as Hlt by by eapply lookup_lt_Some.
  split; cbn.
  - intros j x [(-> & -> & _)|[Hj Hx]]%list_lookup_insert_Some; [done|by apply Hreq].
  - intros j. destruct (decide (i = j)) as [<-|Hj].
    + rewrite list_lookup_insert_eq by done. subst m'. destruct (holding r') eqn:Hr'.
      { split; [|done]. intros _. by exists r'. }
      split; [|by intros (x & [= <-] & Hx); congruence]. destruct (holding r) eqn:Hr; [done|].
      intros (x & Hx & Hh)%Hmut. congruence.
    + rewrite list_lookup_insert_ne by done. rewrite <-Hmut. subst m'.
      assert (Hi' := Hmut i). destruct (holding r') eqn:Hr', (holding r) eqn:Hr; [| | |done].
      * rewrite (proj2 Hi') by by exists r. done.
      * rewrite Hfree by done. split; [by intros [= ->]|done].
      * rewrite (proj2 Hi') by by exists r. split; [done|by intros [= ->]].
Qed.

Lemma pool_step_finished snap cap p p' : pool_step snap numWorkers cap p p' → p_finished p = true → p_finished p' = true.
Proof. by destruct 1. Qed.

Lemma served_reply i ch result :
  0 < numWorkers → request_ok i (Waiting ch result) → drained ch → served i (reply ch result).
Proof.
  intros Hn Hok Hd. destruct ch as [| |snap p]; [done|left|right].
  - destruct Hok as (e & w' & Hf & ->). by exists e, w'.
  - destruct Hok as (([w' Hf] & clock & Hinv) & Hfin & [[f c] ->]).
    destruct (pool_done_results _ _ _ _ Hn Hinv Hd) as (decided & Hp & Hr).
    by exists snap, w', clock, decided, (p_received p), f, c.
Qed.

Lemma server_inv_step s s' : 0 < numWorkers → server_inv s → stream_step s s' → server_inv s'.
Proof.
  intros Hn Hinv H. destruct H as [i h l Hi|i l Hi|i m l e w' Hi Hf|i m l snap clock w' d Hi Hf|i m l snap p p' d Hi Hp
    |i m l snap p d c Hi Hp|i m l snap p p' r Hi Hp|i m l ch r Hi Hd].
  all: pose proof (inv_requests _ Hinv i _ Hi) as Hok; cbn in Hok.
  all: eapply server_inv_change; [exact Hinv|exact Hi| |cbn|try done].
  all: try done.
  all: try (apply (inv_mutex _ Hinv); by eexists).
  - by exists e, w'.
  - split; [by exists w'|]. exists clock. apply pool_init_inv.
  - destruct Hok as [Hs (clock & Hc)]. split; [done|]. exists clock. by eapply pool_step_inv.
  - split; [done|]. split; [done|]. by eexists.
  - destruct Hok as ([Hf (clock & Hc)] & Hfin & Hr). split; [|split; [by eapply pool_step_finished|done]].
    split; [done|]. exists clock. by eapply pool_step_inv.
  - by apply served_reply.
Qed.
(** ** No request waits for ever but those that found another one running *)

Lemma steps_server_inv n s : 0 < numWorkers → steps stream_step (requests_init n) s → server_inv s.
Proof.
  intros Hn Hs. eapply steps_invariant; [|exact Hs|apply server_inv_init]. intros. by eapply server_inv_step.
Qed.

(** What the code relies on: a snapshot that is read gives every task a decision, and
    reading it does not panic. *)
Definition decides : Prop :=
  (∀ i q, (fetchSnapshot aud (db i)).1 ≠ Panic q) ∧
  ∀ i snap w' clock w, fetchSnapshot aud (db i) = (Ok snap, w') → TWork w ∈ dispatch_tasks snap clock →
    ∃ d, computes snap w d.

Lemma stream_progress s i r :
  0 < numWorkers → decides → server_inv s → sv_requests s !! i = Some r →
  hung r ∨ (∃ events, r = Replied events) ∨ ∃ s', stream_step s s'.
Proof.
  intros Hn [Hpanic Hdec] Hinv Hi. destruct s as [m l]. cbn in Hi. pose proof (inv_requests _ Hinv i r Hi) as Hok.
  destruct r as [| |snap p d|ch result|events]; cbn in Hok.
  - do 2 right. destruct m as [h|]; eexists; [by eapply (step_busy i)|by eapply (step_lock i)].
  - do 2 right. destruct (fetchSnapshot aud (db i)) as [[snap|e|q] w'] eqn:E; [..|by destruct (Hpanic i q); rewrite E].
    + eexists. eapply (step_fetched i m l snap (λ _, 0%Z) w' 0%Z Hi E).
    + eexists. by eapply (step_fetch_error i).
  - do 2 right. destruct Hok as [[w' Hf] (clock & Hp)].
    destruct (pool_progress snap numWorkers chanCap (dispatch_tasks snap clock) p) as [[Hfin _]|[p' Hs]];
      [done|unfold chanCap; lia|intros x Hx; by eapply Hdec|done| |]; eexists; [|by eapply (step_compute i)].
    eapply (step_computed i m l snap p d 0%Z Hi Hfin).
  - destruct ch as [| |snap p]; [left; unfold hung; by rewrite Hok|right; right..].
    + eexists. by apply (step_reply i m l ClosedEmpty result Hi).
    + destruct Hok as ([[w' Hf] (clock & Hp)] & Hfin & _).
      destruct (pool_progress snap numWorkers chanCap (dispatch_tasks snap clock) p) as [Hd|[p' Hs]];
        [done|unfold chanCap; lia|intros x Hx; by eapply Hdec|done| |]; eexists; [by eapply (step_reply i)|by eapply (step_forward i)].
  - right. left. by exists events.
Qed.

(** A request that has failed to get the mutex is never answered. *)
Lemma hung_for_ever s s' i :
  steps stream_step s s' → sv_requests s !! i = Some (Waiting LeftOpen (inr ErrReconcileInProgress)) →
  sv_requests s' !! i = Some (Waiting LeftOpen (inr ErrReconcileInProgress)).
Proof.
  intros Hs. refine (steps_invariant _ (λ s, sv_requests s !! i = Some (Waiting LeftOpen (inr ErrReconcileInProgress))) _ _ _ Hs).
  clear. intros s s' Hi H. destruct H as [j h l Hj|j l Hj|j m l e w' Hj _|j m l snap clock w' d Hj _|j m l snap p p' d Hj _
    |j m l snap p d c Hj _|j m l snap p p' r Hj _|j m l ch r Hj Hd]; cbn in *.
  all: destruct (decide (i = j)) as [<-|Hij]; [|by rewrite list_lookup_insert_ne].
  all: rewrite Hi in Hj; injection Hj; try discriminate. by intros _ <-.
Qed.

(** C19.  Streams of decisions, provided that on the snapshots read every work item gets a
    decision (in no worker does it panic): every run of the requests ends, with each request
    either answered or left waiting because it found another one running; an answer is the
    error of the request's snapshot or the decision of each of its tasks, once, followed by
    their number; and at no time do two requests compute.  For any interleaving of the
    requests and of the workers behind each. *)
Theorem stream_requests_served n s :
  0 < numWorkers → decides → steps stream_step (requests_init n) s →
  Acc (λ s2 s1, stream_step s1 s2) s ∧
  ((∃ s', stream_step s s') ∨ ∀ i r, sv_requests s !! i = Some r → hung r ∨ ∃ events, r = Replied events) ∧
  (∀ i events, sv_requests s !! i = Some (Replied events) → served i events) ∧
  (∀ i j ri rj, sv_requests s !! i = Some ri → sv_requests s !! j = Some rj →
     holding ri = true → holding rj = true → i = j).
Proof.
  intros Hn Hdec Hs. pose proof (steps_server_inv _ _ Hn Hs) as Hinv. split_and!.
  - apply stream_step_wf.
  - destruct (decide (Forall (λ r, settled r = true) (sv_requests s))) as [Hf|Hf].
    + right. intros i r Hi. pose proof (Forall_lookup_1 _ _ _ _ Hf Hi) as Hr.
      pose proof (inv_requests _ Hinv _ _ Hi) as Hok. destruct r as [| | |[]|]; try done; [|by right; eexists].
      left. unfold hung. by rewrite Hok.
    + left. apply not_Forall_Exists in Hf; [|apply _].
      apply Exists_exists in Hf as (r & (i & Hi)%list_elem_of_lookup & Hr).
      destruct (stream_progress s i r Hn Hdec Hinv Hi) as [->|[[events ->]|Hstep]]; [by destruct Hr..|done].
  - intros i events Hi. by apply (inv_requests _ Hinv) in Hi.
  - intros i j ri rj Hi Hj Hri Hrj. assert (sv_mutex s = Some i) as Hm by (apply (inv_mutex _ Hinv); by exists ri).
    assert (sv_mutex s = Some j) as Hm' by (apply (inv_mutex _ Hinv); by exists rj). congruence.
Qed.
(** A request that comes while another one runs is left without an answer for ever, also
    after the other one is done: [StreamDecisions] returns its error with the channel open,
    and the handler waits for the goroutine that reads it. *)
Theorem second_request_hangs s i h :
  sv_mutex s = Some h → sv_requests s !! i = Some Calling →
  ∃ s1, stream_step s s1 ∧ ∀ s', steps stream_step s1 s' →
    sv_requests s' !! i = Some (Waiting LeftOpen (inr ErrReconcileInProgress)).
Proof.
  destruct s as [m l]. cbn. intros -> Hi. eexists. split; [by apply (step_busy i)|]. intros s' Hs.
  eapply hung_for_ever; [exact Hs|]. cbn. apply list_lookup_insert_eq. by eapply lookup_lt_Some.
Qed.

(** There is one request, and it has not found another one. *)
Definition alone (s : server) : Prop := ∃ r, sv_requests s = [r] ∧ ∀ result, r ≠ Waiting LeftOpen result.

Lemma alone_step s s' : server_inv s → alone s → stream_step s s' → alone s'.
Proof.
  intros Hinv (r & Hr & Hne) H. destruct H as [i h l Hi|i l Hi|i m l e w' Hi _|i m l snap clock w' d Hi _|i m l snap p p' d Hi _
    |i m l snap p d c Hi _|i m l snap p p' x Hi _|i m l ch x Hi _]; cbn in Hr; subst l.
  all: destruct i as [|i]; [|done]; injection Hi as ->.
  - destruct (proj1 (inv_mutex _ Hinv h) eq_refl) as (x & Hx & Hh). cbn in Hx.
    destruct h as [|h]; [by injection Hx as <-|done].
  - by eexists.
  - by eexists.
  - by eexists.
  - by eexists.
  - by eexists.
  - by eexists.
  - by eexists.
Qed.

(** A request that is alone is answered. *)
Theorem lone_request_answered s :
  0 < numWorkers → decides → steps stream_step (requests_init 1) s →
  ∃ s' events, steps stream_step s s' ∧ sv_requests s' = [Replied events] ∧ served 0 events.
Proof.
  intros Hn Hdec Hs. pose proof (steps_server_inv _ _ Hn Hs) as Hinv.
  assert (Halone : alone s).
  { enough (server_inv s ∧ alone s) as [_ ?] by done.
    refine (steps_invariant stream_step (λ s, server_inv s ∧ alone s) _ _ _ Hs _).
    - intros s1 s2 [H1 H2] H. split; [by eapply server_inv_step|by eapply alone_step].
    - split; [apply server_inv_init|]. by exists Calling. }
  clear Hs. induction (stream_step_wf s) as [s _ IH].
  destruct Halone as (r & Hr & Hne). assert (Hi : sv_requests s !! 0 = Some r) by by rewrite Hr.
  destruct (stream_progress s 0 r Hn Hdec Hinv Hi) as [->|[[events ->]|[s1 Hs1]]].
  - by destruct (Hne (inr ErrReconcileInProgress)).
  - exists s, events. split; [constructor|]. split; [done|]. apply (inv_requests _ Hinv _ _ Hi).
  - destruct (IH s1 Hs1) as (s' & events & Hs' & H); [by eapply server_inv_step|eapply alone_step; [done| |done]; by exists r|].
    exists s', events. split; [by eapply steps_cons|done].
Qed.
End stream.

(** ** Examples *)

Definition example_fetched : snapshot :=
  match fetchSnapshot (ext := echo) (pg := example_pg) (codec := example_codec) "" example_world with
  | (Ok snap, _) => snap
  | _ => example_snapshot
  end.

Lemma example_decides :
  decides (ext := echo) (pg := example_pg) (codec := example_codec) "" (λ _, example_world).
Proof.
  split.
  - intros i q H. vm_compute in H. discriminate H.
  - intros i snap w' clock w Hf Hw.
    assert (snap = example_fetched) as -> by (unfold example_fetched; by rewrite Hf). clear Hf.
    unfold dispatch_tasks in Hw. apply elem_of_concat in Hw as (ts & Hw & Hts).
    apply list_elem_of_fmap in Hts as (env & -> & Henv). unfold dispatch_env in Hw.
    apply list_elem_of_fmap in Hw as (dep & Hw & Hdep).
    assert (w = {| wi_env := env; wi_dep := dep |}) as ->.
    { unfold dispatch_one in Hw. destruct (negb _); [discriminate Hw|]. destruct (feature_disabled _ _ _); [discriminate Hw|].
      by injection Hw. }
    clear Hw. unfold computes. cbn [wi_env wi_dep].
    assert (Hall : Forall (λ env, Forall (λ dep,
      is_Ok (computeAction (ext := echo) (map_to_list (f_Values (f_YAML (ra_Feature dep)))) example_fetched env dep) = true)
        (mostSpecificPerFeature (matchAssignments (s_assignments example_fetched) env))) (s_environments example_fetched)).
    { repeat constructor. }
    rewrite Forall_forall in Hall. specialize (Hall env Henv). rewrite Forall_forall in Hall. specialize (Hall dep Hdep).
    destruct (computeAction _ example_fetched env dep) as [d|e|q] eqn:E; [|discriminate Hall..].
    by exists d, (map_to_list (f_Values (f_YAML (ra_Feature dep)))).
Qed.

Lemma stream_requests_served_witness :
  ∃ s, steps (stream_step (ext := echo) (pg := example_pg) (codec := example_codec) "" (λ _, example_world) 1)
      (requests_init 2) s ∧
    sv_requests s = [Fetching; Waiting LeftOpen (inr ErrReconcileInProgress)] ∧
    Acc (λ s2 s1, stream_step (ext := echo) (pg := example_pg) (codec := example_codec) "" (λ _, example_world) 1 s1 s2) s.
Proof.
  assert (Hs : steps (stream_step (ext := echo) (pg := example_pg) (codec := example_codec) "" (λ _, example_world) 1)
    (requests_init 2) {| sv_mutex := Some 0; sv_requests := [Fetching; Waiting LeftOpen (inr ErrReconcileInProgress)] |}).
  { eapply steps_cons; [apply (step_lock "" (λ _, example_world) 1 0); reflexivity|].
    eapply steps_cons; [apply (step_busy "" (λ _, example_world) 1 1 0); reflexivity|apply steps_refl]. }
  eexists. split; [exact Hs|]. split; [reflexivity|].
  apply (stream_requests_served (ext := echo) (pg := example_pg) (codec := example_codec) "" (λ _, example_world) 1 2 _
    ltac:(lia) example_decides Hs).
Defined.
