(* ===== verification/Status.v ===== *)
(** * internal/reconciler/status.go, recentdeploys.go and decisionlog.go

    What the UI shows: the status of an assignment in each environment, joined from
    the latest decision and the latest deploy; recent deploys rolled up by feature
    version; the decision history of a feature. *)

From S2P Require Export Loop.

Definition NormalizeStatus (s : string) : string :=
  if bool_decide (s = "") then "UNKNOWN" else ToUpper s.

Inductive stateSource := sourceDecision | sourceDeploy.

(** The action is the text of the decision log, empty when there is no decision. *)
Definition is_action (action : string) (a : Action) : bool := bool_decide (action = Action_String a).

Definition deriveState (deploy : DeployStatus) (action : string) : string * stateSource :=
  if is_action action ActionSkipDisabled then ("disabled", sourceDecision)
  else if IsInProgress deploy then (deploy, sourceDeploy)
  else if is_action action ActionSkipUnhealthy then ("unhealthy", sourceDecision)
  else if is_action action ActionFailMissingDeps then ("missing-deps", sourceDecision)
  else if is_action action ActionFailMissingConfig then ("missing-config", sourceDecision)
  else if is_action action ActionFailRender then ("render-error", sourceDecision)
  else if bool_decide (deploy = DeployStatusDeployed) || bool_decide (deploy = DeployStatusFailed)
  then (deploy, sourceDeploy)
  else if is_action action ActionSkipInProgress || is_action action ActionDeploy
  then ("pending", sourceDecision)
  else if is_action action ActionSkipUnchanged then ("deployed", sourceDecision)
  else ("unknown", sourceDecision).

Record FeatureReconcileStatus := {
  frs_State : string; frs_Message : string; frs_LastModified : time; frs_DecidedAt : time;
  frs_Created : time; frs_FeatureAssignmentID : uuid; frs_EnvironmentID : uuid;
}.

Record decisionSignal := {
  sg_envID : uuid; sg_action : string; sg_message : string; sg_created : time;
}.
Record deploySignal := { dp_envID : uuid; dp_status : string; dp_created : time }.

Definition decision_signal (d : DecisionRow) : decisionSignal :=
  {| sg_envID := cl_EnvironmentID d; sg_action := cl_Action d; sg_message := cl_Message d;
     sg_created := cl_Created d |}.
Definition deploy_signal (d : DeployRow) : deploySignal :=
  {| dp_envID := dl_EnvironmentID d; dp_status := dl_Status d; dp_created := dl_Created d |}.

Definition no_decision : decisionSignal :=
  {| sg_envID := 0; sg_action := ""; sg_message := ""; sg_created := time_zero |}.
Definition no_deploy : deploySignal :=
  {| dp_envID := 0; dp_status := ""; dp_created := time_zero |}.

(** [m[x.envID] = x] over a slice. *)
Definition by_env {A} (env : A → uuid) (l : list A) : gmap N A :=
  foldl (λ m x, <[env x := x]> m) ∅ l.

Definition env_status (featureAssignmentID : uuid) (decByEnv : gmap N decisionSignal)
    (depByEnv : gmap N deploySignal) (envID : uuid) : FeatureReconcileStatus :=
  let dec := default no_decision (decByEnv !! envID) in
  let dep := default no_deploy (depByEnv !! envID) in
  let (state, src) := deriveState (dp_status dep) (sg_action dec) in
  let lastModified := match src with sourceDeploy => dp_created dep
                                   | sourceDecision => sg_created dec end in
  {| frs_State := NormalizeStatus state; frs_Message := sg_message dec;
     frs_LastModified := lastModified; frs_DecidedAt := sg_created dec;
     frs_Created := lastModified; frs_FeatureAssignmentID := featureAssignmentID;
     frs_EnvironmentID := envID |}.

(** The environments of both maps, each once, in the order of their text. *)
Definition signal_envs (decByEnv : gmap N decisionSignal) (depByEnv : gmap N deploySignal)
    : list uuid :=
  isort N.leb (distinct_first id [] ((map_to_list decByEnv).*1 ++ (map_to_list depByEnv).*1)).

Definition joinReconcileSignals (featureAssignmentID : uuid) (decisions : list decisionSignal)
    (deploys : list deploySignal) : list FeatureReconcileStatus :=
  let decByEnv := by_env sg_envID decisions in
  let depByEnv := by_env dp_envID deploys in
  env_status featureAssignmentID decByEnv depByEnv <$> signal_envs decByEnv depByEnv.

Definition ReconcileStatuses (featureAssignmentID : uuid) : IO (list FeatureReconcileStatus) :=
  decisions ← wrapping "list decision statuses" (ListDecisionStatuses featureAssignmentID);
  deploys ← wrapping "list deploy statuses" (ListDeployStatuses featureAssignmentID);
  mret (joinReconcileSignals featureAssignmentID (decision_signal <$> decisions)
          (deploy_signal <$> deploys)).

(** Both maps of signals grouped by assignment, and their union of keys. *)
Definition all_statuses (decisions : list DecisionRow) (deploys : list DeployRow)
    : gmap N (list FeatureReconcileStatus) :=
  let decByFA := foldl (λ m d, append_at m (cl_FeatureAssignmentID d) (decision_signal d))
                   ∅ decisions in
  let depByFA := foldl (λ m d, append_at m (dl_FeatureAssignmentID d) (deploy_signal d))
                   ∅ deploys in
  let out := map_imap (λ faID ds, Some (joinReconcileSignals faID ds
                                          (default [] (depByFA !! faID)))) decByFA in
  foldl (λ out kv, match out !! kv.1 with
                   | Some _ => out
                   | None => <[kv.1 := joinReconcileSignals kv.1 [] kv.2]> out
                   end) out (map_to_list depByFA).

Definition AllReconcileStatuses : IO (gmap N (list FeatureReconcileStatus)) :=
  decisions ← wrapping "list all decision statuses" ListAllDecisionStatuses;
  deploys ← wrapping "list all deploy statuses" ListAllDeployStatuses;
  mret (all_statuses decisions deploys).

(** ** Recent deploys *)

Definition recentDeployScanRows : nat := 1000.

Record RecentDeploy := {
  rd_FeatureName : string; rd_FeatureVersion : string; rd_Total : nat; rd_Deployed : nat;
  rd_Failed : nat; rd_Pending : nat; rd_LastDeploy : time; rd_FeatureAssignmentID : uuid;
}.

Definition count_row (g : RecentDeploy) (status : string) : RecentDeploy :=
  let s := NormalizeStatus status in
  let one (b : bool) := if b then 1 else 0 in
  {| rd_FeatureName := rd_FeatureName g; rd_FeatureVersion := rd_FeatureVersion g;
     rd_Total := rd_Total g + 1;
     rd_Deployed := rd_Deployed g + one (bool_decide (s = "DEPLOYED"));
     rd_Failed := rd_Failed g + one (bool_decide (s = "FAILED"));
     rd_Pending := rd_Pending g + one (bool_decide (s ∈ ["SENT"; "INSTALLING"]));
     rd_LastDeploy := rd_LastDeploy g; rd_FeatureAssignmentID := rd_FeatureAssignmentID g |}.

Definition new_group (r : DeployRow) : RecentDeploy :=
  {| rd_FeatureName := dl_FeatureName r; rd_FeatureVersion := dl_FeatureVersion r;
     rd_Total := 0; rd_Deployed := 0; rd_Failed := 0; rd_Pending := 0;
     rd_LastDeploy := dl_Created r; rd_FeatureAssignmentID := dl_FeatureAssignmentID r |}.

Record rollup := {
  ru_byKey : gmap (string * string) RecentDeploy;
  ru_order : list (string * string);
  ru_seen : gset N;
}.

Definition version_key (r : DeployRow) : string * string := (dl_FeatureName r, dl_FeatureVersion r).

Definition rollup_row (s : rollup) (r : DeployRow) : rollup :=
  if bool_decide (dl_Diid r ∈ ru_seen s) then s
  else
    let seen := {[ dl_Diid r ]} ∪ ru_seen s in
    match ru_byKey s !! version_key r with
    | Some g => {| ru_byKey := <[version_key r := count_row g (dl_Status r)]> (ru_byKey s);
                   ru_order := ru_order s; ru_seen := seen |}
    | None => {| ru_byKey := <[version_key r := count_row (new_group r) (dl_Status r)]> (ru_byKey s);
                 ru_order := ru_order s ++ [version_key r]; ru_seen := seen |}
    end.

(** [groups] is not negative: [make] would panic on a negative length. *)
Definition aggregateRecentDeploys (rows : list DeployRow) (groups : nat) : list RecentDeploy :=
  let s := foldl rollup_row {| ru_byKey := ∅; ru_order := []; ru_seen := ∅ |} rows in
  omap (λ k, ru_byKey s !! k) (take groups (ru_order s)).

Definition ListRecentDeploys (groups : nat) : IO (list RecentDeploy) :=
  rows ← wrapping "list recent deploys" (ListRecentDeploys_query recentDeployScanRows);
  mret (aggregateRecentDeploys rows groups).

(** ** Decision history *)

Record DecisionLogEntry := {
  de_ID : N; de_FeatureAssignmentID : uuid; de_FeatureVersion : string; de_Action : string;
  de_Message : string; de_Created : time;
}.

Definition ListDecisionLog (envID : uuid) (featureName : string) : IO (list DecisionLogEntry) :=
  rows ← wrapping "list decision log" (ListDecisionLog_query envID featureName);
  mret ((λ r, {| de_ID := cl_id r; de_FeatureAssignmentID := cl_FeatureAssignmentID r;
                 de_FeatureVersion := cl_FeatureVersion r; de_Action := cl_Action r;
                 de_Message := cl_Message r; de_Created := cl_Created r |}) <$> rows).

(** ** deriveState *)

(** The precedence of [deriveState]: a disabled feature shows as disabled; else a
    deploy under way shows its own status; else a decision that blocks deploying
    shows; else a finished deploy shows its outcome; else the decision alone.  The
    time shown is the deploy's exactly when the state shown is the deploy's. *)
Theorem deriveState_ladder deploy a :
  let action := Action_String a in
  let (state, src) := deriveState deploy action in
  let goes_on := a = ActionDeploy ∨ a = ActionSkipUnchanged ∨ a = ActionSkipInProgress in
  (a = ActionSkipDisabled → state = "disabled") ∧
  (a ≠ ActionSkipDisabled → IsInProgress deploy = true → state = deploy) ∧
  (IsInProgress deploy = false → (IsFailure a = true ∨ a = ActionSkipUnhealthy) → state = action) ∧
  (goes_on → deploy = DeployStatusDeployed ∨ deploy = DeployStatusFailed → state = deploy) ∧
  (goes_on → deploy = DeployStatusUnknown →
     state = if bool_decide (a = ActionSkipUnchanged) then "deployed" else "pending") ∧
  (src = sourceDeploy ↔ a ≠ ActionSkipDisabled ∧
     (IsInProgress deploy = true ∨
      (IsFailure a = false ∧ a ≠ ActionSkipUnhealthy ∧
       (deploy = DeployStatusDeployed ∨ deploy = DeployStatusFailed)))).
Proof.
  cbv zeta. unfold deriveState, DeployStatusUnknown.
  destruct (IsInProgress deploy) eqn:Ep.
  - assert (deploy ≠ DeployStatusDeployed ∧ deploy ≠ DeployStatusFailed ∧ deploy ≠ "") as (?&?&?).
    { unfold IsInProgress in Ep. apply orb_true_iff in Ep as [->%bool_decide_eq_true|
        ->%bool_decide_eq_true]; done. }
    destruct a; simpl; intuition congruence.
  - destruct (decide (deploy = DeployStatusDeployed)) as [->|Hd];
      [destruct a; vm_compute; intuition congruence|].
    destruct (decide (deploy = DeployStatusFailed)) as [->|Hf];
      [destruct a; vm_compute; intuition congruence|].
    rewrite !bool_decide_eq_false_2 by done.
    destruct a; match goal with |- context [IsFailure ?x] =>
        let v := eval vm_compute in (IsFailure x) in change (IsFailure x) with v end;
      simpl; intuition congruence.
Qed.

(** ** joinReconcileSignals *)

Lemma elem_of_distinct_first {A K} `{EqDecision K} (key : A → K) seen l x :
  x ∈ distinct_first key seen l → x ∈ l ∧ key x ∉ seen.
Proof.
  revert seen. induction l as [|y l IH]; intros seen; simpl; [by intros ?%elem_of_nil|].
  case_bool_decide as Hy.
  - intros [??]%IH. split; [by right|done].
  - intros [->|Hx]%elem_of_cons; [split; [by left|done]|].
    apply IH in Hx as [? Hn]. split; [by right|]. intros Hs. apply Hn. by right.
Qed.

Lemma distinct_first_key {A K} `{EqDecision K} (key : A → K) seen l k :
  k ∈ key <$> l → k ∉ seen → k ∈ key <$> distinct_first key seen l.
Proof.
  revert seen. induction l as [|y l IH]; intros seen; simpl; [done|].
  rewrite elem_of_cons. intros Hk Hs. case_bool_decide as Hy.
  - destruct Hk as [->|Hk]; [done|]. by apply IH.
  - simpl. rewrite elem_of_cons. destruct (decide (k = key y)) as [->|Hne]; [by left|right].
    destruct Hk as [?|Hk]; [done|]. apply IH; [done|]. by intros [?|?]%elem_of_cons.
Qed.

Lemma distinct_first_NoDup {A K} `{EqDecision K} (key : A → K) seen l :
  NoDup (key <$> distinct_first key seen l).
Proof.
  revert seen. induction l as [|y l IH]; intros seen; simpl; [apply NoDup_nil_2|].
  case_bool_decide; [apply IH|]. simpl. apply NoDup_cons. split; [|apply IH].
  intros (x & Hk & Hx)%list_elem_of_fmap. apply elem_of_distinct_first in Hx as [_ Hn].
  apply Hn. rewrite <-Hk. by left.
Qed.

Lemma elem_of_signal_envs dec dep e :
  e ∈ signal_envs dec dep ↔ is_Some (dec !! e) ∨ is_Some (dep !! e).
Proof.
  unfold signal_envs. rewrite elem_of_isort.
  assert (Hm : ∀ {V} (m : gmap N V), e ∈ (map_to_list m).*1 ↔ is_Some (m !! e)).
  { intros V m. rewrite list_elem_of_fmap. split.
    - intros ([k v] & -> & Hk%elem_of_map_to_list). by exists v.
    - intros [v Hv]. exists (e, v). split; [done|]. by apply elem_of_map_to_list. }
  rewrite <-!Hm, <-elem_of_app. split.
  - by intros [? _]%elem_of_distinct_first.
  - intros H.
    pose proof (distinct_first_key id [] ((map_to_list dec).*1 ++ (map_to_list dep).*1) e) as Hk.
    rewrite !list_fmap_id in Hk. apply Hk; [done|apply not_elem_of_nil].
Qed.

Lemma signal_envs_NoDup dec dep : NoDup (signal_envs dec dep).
Proof.
  unfold signal_envs. rewrite isort_perm.
  pose proof (distinct_first_NoDup id [] ((map_to_list dec).*1 ++ (map_to_list dep).*1)) as H.
  by rewrite list_fmap_id in H.
Qed.

Lemma by_env_lookup {A} (env : A → uuid) l e :
  by_env env l !! e = last (filter (λ x, env x = e) l).
Proof.
  unfold by_env. induction l as [|x l IH] using rev_ind; [done|].
  rewrite foldl_app, filter_app, filter_cons, filter_nil. cbn [foldl].
  destruct (decide (env x = e)) as [<-|He].
  - by rewrite lookup_insert_eq, last_snoc.
  - by rewrite lookup_insert_ne, app_nil_r by done.
Qed.

Lemma by_env_perm {A} (env : A → uuid) l1 l2 :
  NoDup (env <$> l1) → l1 ≡ₚ l2 → by_env env l1 = by_env env l2.
Proof.
  intros Hnd HP. apply map_eq. intros e. rewrite !by_env_lookup.
  assert (HPf : filter (λ x, env x = e) l1 ≡ₚ filter (λ x, env x = e) l2) by by rewrite HP.
  destruct (filter (λ x, env x = e) l1) as [|x [|y l]] eqn:E1.
  - by apply Permutation_nil_l in HPf as ->.
  - apply Permutation_singleton_l in HPf as ->. done.
  - exfalso. assert (NoDup (env <$> filter (λ x, env x = e) l1)) as Hn
      by by apply NoDup_fmap_filter.
    assert (∀ z, z ∈ filter (λ x, env x = e) l1 → env z = e) as Hz
      by by intros z [? _]%list_elem_of_filter.
    rewrite E1 in Hn, Hz. rewrite !fmap_cons, (Hz x), (Hz y) in Hn by (by left || right; by left).
    apply NoDup_cons in Hn as [Hn _]. apply Hn. by left.
Qed.

Lemma StronglySorted_strict (l : list N) :
  NoDup l → StronglySorted (λ a b, N.leb a b = true) l → StronglySorted N.lt l.
Proof.
  induction 2 as [|e l Hs IH He]; [constructor|]. apply NoDup_cons in H as [Hn Hnd].
  constructor; [by apply IH|]. rewrite Forall_forall in He |- *. intros x Hx.
  specialize (He x Hx). apply N.leb_le in He. assert (e ≠ x) by (by intros ->). lia.
Qed.

Lemma env_status_id fa dec dep e : frs_EnvironmentID (env_status fa dec dep e) = e.
Proof. unfold env_status. by destruct (deriveState _ _). Qed.

(** [joinReconcileSignals] yields one status for every environment that has a
    decision or a deploy of the assignment, in ascending order of environments, and
    it is derived from the last of either. *)
Theorem joinReconcileSignals_spec fa decisions deploys :
  let statuses := joinReconcileSignals fa decisions deploys in
  StronglySorted N.lt (frs_EnvironmentID <$> statuses) ∧
  (∀ e, e ∈ frs_EnvironmentID <$> statuses ↔
     e ∈ sg_envID <$> decisions ∨ e ∈ dp_envID <$> deploys) ∧
  ∀ s, s ∈ statuses →
    s = env_status fa (by_env sg_envID decisions) (by_env dp_envID deploys) (frs_EnvironmentID s).
Proof.
  cbv zeta. unfold joinReconcileSignals.
  set (dec := by_env sg_envID decisions). set (dep := by_env dp_envID deploys).
  assert (Hids : frs_EnvironmentID <$> (env_status fa dec dep <$> signal_envs dec dep) =
    signal_envs dec dep).
  { rewrite <-list_fmap_compose. rewrite <-(list_fmap_id (signal_envs dec dep)) at 2.
    apply list_fmap_ext. intros _ e _. apply env_status_id. }
  rewrite Hids. split_and!.
  - pose proof (signal_envs_NoDup dec dep) as Hnd.
    assert (Hs : StronglySorted (λ a b, N.leb a b = true) (signal_envs dec dep)).
    { apply isort_sorted; intros *; rewrite !N.leb_le; lia. }
    by apply StronglySorted_strict.
  - intros e. rewrite elem_of_signal_envs. unfold dec, dep. rewrite !by_env_lookup.
    assert (Hl : ∀ {A} (env : A → uuid) l, is_Some (last (filter (λ x, env x = e) l)) ↔
      e ∈ env <$> l).
    { intros A env l. rewrite list_elem_of_fmap. split.
      - intros [x Hx%last_Some_elem_of]. apply list_elem_of_filter in Hx as [? ?]. by exists x.
      - intros (x & -> & Hx). assert (x ∈ filter (λ y, env y = env x) l) as Hf
          by by apply list_elem_of_filter.
        destruct (last (filter _ l)) as [y|] eqn:El; [by exists y|].
        apply last_None in El. rewrite El in Hf. by apply elem_of_nil in Hf. }
    by rewrite !Hl.
  - intros s (e & -> & He)%list_elem_of_fmap. by rewrite env_status_id.
Qed.

(** ** The batch read agrees with the single one *)

Lemma append_at_lookup {R V} (key : R → N) (val : R → V) l m k :
  default [] (foldl (λ m r, append_at m (key r) (val r)) m l !! k) =
  default [] (m !! k) ++ (val <$> filter (λ r, key r = k) l).
Proof.
  revert m. induction l as [|r l IH]; intros m; simpl; [by rewrite app_nil_r|].
  rewrite IH. unfold append_at. rewrite filter_cons.
  destruct (decide (key r = k)) as [<-|Hk].
  - rewrite lookup_insert_eq. simpl. by rewrite <-app_assoc.
  - by rewrite lookup_insert_ne.
Qed.

Lemma append_at_None {R V} (key : R → N) (val : R → V) l m k :
  foldl (λ m r, append_at m (key r) (val r)) m l !! k = None ↔
  m !! k = None ∧ filter (λ r, key r = k) l = [].
Proof.
  revert m. induction l as [|r l IH]; intros m; simpl; [by rewrite filter_nil; tauto|].
  rewrite IH. unfold append_at. rewrite filter_cons.
  destruct (decide (key r = k)) as [<-|Hk].
  - rewrite lookup_insert_eq. split; by intros [? ?].
  - by rewrite lookup_insert_ne.
Qed.

Lemma add_missing_lookup (f : N → list deploySignal → list FeatureReconcileStatus)
    (l : list (N * list deploySignal)) (out : gmap N (list FeatureReconcileStatus)) k :
  NoDup l.*1 →
  foldl (λ out kv, match out !! kv.1 with Some _ => out | None => <[kv.1 := f kv.1 kv.2]> out end)
    out l !! k =
  match out !! k with
  | Some s => Some s
  | None => match list_find (λ kv, kv.1 = k) l with Some (_, kv) => Some (f k kv.2) | None => None end
  end.
Proof.
  revert out. induction l as [|[j ds] l IH]; intros out Hnd; simpl; [by destruct (out !! k)|].
  apply NoDup_cons in Hnd as [Hj Hnd]. rewrite IH by done. clear IH.
  destruct (decide (j = k)) as [->|Hne].
  - destruct (out !! k) as [s|] eqn:E; [by rewrite E|]. by rewrite lookup_insert_eq.
  - assert ((match out !! j with Some _ => out | None => <[j := f j ds]> out end) !! k = out !! k)
      as -> by (case_match; [done|by rewrite lookup_insert_ne]).
    destruct (out !! k); [done|]. by destruct (list_find _ l) as [[]|].
Qed.

Lemma all_statuses_lookup decisions deploys fa :
  default [] (all_statuses decisions deploys !! fa) =
  joinReconcileSignals fa
    (decision_signal <$> filter (λ d, cl_FeatureAssignmentID d = fa) decisions)
    (deploy_signal <$> filter (λ d, dl_FeatureAssignmentID d = fa) deploys).
Proof.
  unfold all_statuses.
  set (dec := foldl (λ m d, append_at m (cl_FeatureAssignmentID d) (decision_signal d)) ∅ decisions).
  set (dep := foldl (λ m d, append_at m (dl_FeatureAssignmentID d) (deploy_signal d)) ∅ deploys).
  pose proof (append_at_lookup cl_FeatureAssignmentID decision_signal decisions ∅ fa) as Hdec.
  pose proof (append_at_lookup dl_FeatureAssignmentID deploy_signal deploys ∅ fa) as Hdep.
  rewrite lookup_empty in Hdec. rewrite lookup_empty in Hdep. fold dec in Hdec. fold dep in Hdep.
  cbn [default app] in Hdec, Hdep. rewrite <-Hdec, <-Hdep. clear Hdec Hdep.
  rewrite (add_missing_lookup (λ faID ds, joinReconcileSignals faID [] ds))
    by apply NoDup_fst_map_to_list.
  rewrite map_lookup_imap. destruct (dec !! fa) as [ds|]; simpl; [done|].
  destruct (list_find (λ kv, kv.1 = fa) (map_to_list dep)) as [[i [k ds]]|] eqn:E; simpl.
  - apply list_find_Some in E as (Hi & Hk & _). simpl in Hk. subst k.
    apply list_elem_of_lookup_2, elem_of_map_to_list in Hi. by rewrite Hi.
  - apply list_find_None in E. destruct (dep !! fa) as [ds|] eqn:Ed; simpl; [|done].
    apply elem_of_map_to_list in Ed. rewrite Forall_forall in E. by destruct (E _ Ed).
Qed.

Lemma joinReconcileSignals_perm fa dec1 dec2 dep1 dep2 :
  NoDup (sg_envID <$> dec1) → NoDup (dp_envID <$> dep1) → dec1 ≡ₚ dec2 → dep1 ≡ₚ dep2 →
  joinReconcileSignals fa dec1 dep1 = joinReconcileSignals fa dec2 dep2.
Proof.
  intros H1 H2 HP1 HP2. unfold joinReconcileSignals.
  by rewrite (by_env_perm sg_envID dec1 dec2), (by_env_perm dp_envID dep1 dep2).
Qed.

Lemma NoDup_env_of {R} (fa env : R → N) l k :
  NoDup ((λ r, (fa r, env r)) <$> l) → NoDup (env <$> filter (λ r, fa r = k) l).
Proof.
  induction l as [|r l IH]; [intros; apply NoDup_nil_2|].
  rewrite fmap_cons, NoDup_cons. intros [Hr Hl].
  rewrite filter_cons. case_decide as Hk; [|by apply IH].
  rewrite fmap_cons. apply NoDup_cons. split; [|by apply IH].
  intros (x & Hx & [Hkx Hin]%list_elem_of_filter)%list_elem_of_fmap.
  apply Hr, list_elem_of_fmap. exists x. split; [|done]. congruence.
Qed.

(** With no failing query, both ways of reading. *)
Lemma all_statuses_run w fa :
  w_faults w = [] →
  NoDup ((λ r, (cl_FeatureAssignmentID r, cl_EnvironmentID r)) <$>
           (map_to_list (decision_current (w_rec w))).*2) →
  NoDup ((λ r, (dl_FeatureAssignmentID r, dl_EnvironmentID r)) <$>
           (map_to_list (deploy_current (w_rec w))).*2) →
  ∃ all, AllReconcileStatuses w = (Ok all, w) ∧
    ReconcileStatuses fa w = (Ok (default [] (all !! fa)), w).
Proof.
  intros Hf Hdec Hdep.
  assert (Hq : ∀ {A} p (f : world → outcome A) a, f w = Ok a → wrapping p (query f) w = (Ok a, w)).
  { intros A p f a Ha. unfold wrapping, query, external, mbind, M_bind, next_fault.
    by rewrite Hf, Ha. }
  unfold AllReconcileStatuses, ReconcileStatuses.
  eexists. split.
  - erewrite bind_run by by apply Hq. erewrite bind_run by by apply Hq. done.
  - erewrite bind_run by by apply Hq. erewrite bind_run by by apply Hq. unfold mret, M_ret.
    do 2 f_equal. rewrite all_statuses_lookup. apply joinReconcileSignals_perm.
    + rewrite <-list_fmap_compose. unfold by_env_decision. rewrite isort_perm.
      apply (NoDup_env_of cl_FeatureAssignmentID), Hdec.
    + rewrite <-list_fmap_compose. unfold by_env_deploy. rewrite isort_perm.
      apply (NoDup_env_of dl_FeatureAssignmentID), Hdep.
    + unfold by_env_decision. by rewrite !isort_perm.
    + unfold by_env_deploy. by rewrite !isort_perm.
Qed.

(** The statuses of all assignments read at once are those each assignment gets when
    read alone, in every world whose current rows name at most one row per
    assignment and environment, when no query fails. *)
Theorem AllReconcileStatuses_agree w fa :
  w_faults w = [] →
  NoDup ((λ r, (cl_FeatureAssignmentID r, cl_EnvironmentID r)) <$>
           (map_to_list (decision_current (w_rec w))).*2) →
  NoDup ((λ r, (dl_FeatureAssignmentID r, dl_EnvironmentID r)) <$>
           (map_to_list (deploy_current (w_rec w))).*2) →
  ∃ all, AllReconcileStatuses w = (Ok all, w) ∧
    ReconcileStatuses fa w = (Ok (default [] (all !! fa)), w).
Proof. apply all_statuses_run. Qed.

(** ** aggregateRecentDeploys *)

(** The latest row of every deploy instruction, newest first. *)
Definition latest_rows (rows : list DeployRow) : list DeployRow := distinct_first dl_Diid [] rows.

Definition rows_of (k : string * string) (l : list DeployRow) : list DeployRow :=
  filter (λ r, version_key r = k) l.
Definition count_status (ss : list string) (l : list DeployRow) : nat :=
  length (filter (λ r, NormalizeStatus (dl_Status r) ∈ ss) l).

(** What the group of feature version [k] says about the latest rows [l]. *)
Definition group_ok (l : list DeployRow) (k : string * string) (g : RecentDeploy) : Prop :=
  (rd_FeatureName g, rd_FeatureVersion g) = k ∧
  rd_Total g = length (rows_of k l) ∧
  rd_Deployed g = count_status ["DEPLOYED"] (rows_of k l) ∧
  rd_Failed g = count_status ["FAILED"] (rows_of k l) ∧
  rd_Pending g = count_status ["SENT"; "INSTALLING"] (rows_of k l) ∧
  (λ r, (dl_Created r, dl_FeatureAssignmentID r)) <$> head (rows_of k l) =
    Some (rd_LastDeploy g, rd_FeatureAssignmentID g).

Record rollup_inv (l : list DeployRow) (s : rollup) : Prop := {
  ri_order : ru_order s = distinct_first id [] (version_key <$> l);
  ri_groups : ∀ k, match ru_byKey s !! k with
                   | Some g => group_ok l k g
                   | None => k ∉ version_key <$> l
                   end;
}.

Lemma distinct_first_snoc {A K} `{EqDecision K} (key : A → K) seen l x :
  distinct_first key seen (l ++ [x]) =
  if bool_decide (key x ∈ seen ∨ key x ∈ key <$> l) then distinct_first key seen l
  else distinct_first key seen l ++ [x].
Proof.
  revert seen. induction l as [|y l IH]; intros seen; simpl.
  - case_bool_decide as H1; case_bool_decide as H2; try done; exfalso;
      rewrite elem_of_nil in H2; tauto.
  - rewrite !IH. case_bool_decide as Hy.
    + assert (Heq : (key x ∈ seen ∨ key x ∈ key y :: (key <$> l)) ↔
                    (key x ∈ seen ∨ key x ∈ key <$> l)).
      { rewrite elem_of_cons. split; [|tauto]. intros [?|[E|?]]; [tauto|rewrite E|]; tauto. }
      by rewrite (bool_decide_ext _ _ Heq).
    + assert (Heq : (key x ∈ seen ∨ key x ∈ key y :: (key <$> l)) ↔
                    (key x ∈ key y :: seen ∨ key x ∈ key <$> l)).
      { rewrite !elem_of_cons. tauto. }
      rewrite (bool_decide_ext _ _ Heq). by case_bool_decide.
Qed.

Lemma rows_of_snoc k l r :
  rows_of k (l ++ [r]) = if decide (version_key r = k) then rows_of k l ++ [r] else rows_of k l.
Proof.
  unfold rows_of. rewrite filter_app, filter_cons, filter_nil.
  case_decide; [done|]. by rewrite app_nil_r.
Qed.

Lemma count_status_snoc ss l r :
  count_status ss (l ++ [r]) =
  count_status ss l + if bool_decide (NormalizeStatus (dl_Status r) ∈ ss) then 1 else 0.
Proof.
  unfold count_status. rewrite filter_app, length_app, filter_cons, filter_nil.
  by case_decide; case_bool_decide.
Qed.

Lemma bool_decide_single (x y : string) : bool_decide (x ∈ [y]) = bool_decide (x = y).
Proof. apply bool_decide_ext. apply list_elem_of_singleton. Qed.

Lemma count_row_ok l r g :
  group_ok l (version_key r) g → group_ok (l ++ [r]) (version_key r) (count_row g (dl_Status r)).
Proof.
  intros (Hk & Ht & Hd & Hf & Hp & Hh). unfold group_ok.
  rewrite rows_of_snoc, decide_True by done. rewrite !count_status_snoc, length_app, head_app.
  simpl. rewrite !bool_decide_single. split_and!; try done; try lia.
  destruct (rows_of (version_key r) l); done.
Qed.

Lemma new_group_ok l r :
  (version_key r ∉ version_key <$> l) →
  group_ok (l ++ [r]) (version_key r) (count_row (new_group r) (dl_Status r)).
Proof.
  intros Hn. assert (rows_of (version_key r) l = []) as Hr.
  { apply elem_of_nil_inv. intros x [Hx Hin]%list_elem_of_filter. apply Hn.
    apply list_elem_of_fmap. by exists x. }
  unfold group_ok. rewrite rows_of_snoc, decide_True by done. rewrite Hr.
  rewrite !(count_status_snoc _ [] r : _ = _). simpl. by rewrite !bool_decide_single.
Qed.

Lemma group_ok_other l r k g : version_key r ≠ k → group_ok l k g → group_ok (l ++ [r]) k g.
Proof. intros Hk. unfold group_ok. rewrite rows_of_snoc. by rewrite decide_False. Qed.

Lemma rollup_new l s r : rollup_inv l s → dl_Diid r ∉ ru_seen s → rollup_inv (l ++ [r]) (rollup_row s r).
Proof.
  intros [Ho Hg] Hs. unfold rollup_row. rewrite bool_decide_eq_false_2 by done.
  pose proof (Hg (version_key r)) as Hr.
  assert (Hord : distinct_first id [] (version_key <$> l ++ [r]) =
    if bool_decide (version_key r ∈ version_key <$> l) then ru_order s
    else ru_order s ++ [version_key r]).
  { rewrite fmap_app, Ho. simpl. rewrite distinct_first_snoc, list_fmap_id.
    erewrite bool_decide_ext; [done|]. rewrite elem_of_nil. unfold id. tauto. }
  assert (Hoth : ∀ k g', version_key r ≠ k →
    match <[version_key r := g']> (ru_byKey s) !! k with
    | Some g => group_ok (l ++ [r]) k g | None => k ∉ version_key <$> l ++ [r] end).
  { intros k g' Hk. rewrite lookup_insert_ne by done. specialize (Hg k).
    destruct (ru_byKey s !! k); [by apply group_ok_other|].
    rewrite fmap_app, elem_of_app. simpl. rewrite list_elem_of_singleton. intros [?|?]; congruence. }
  destruct (ru_byKey s !! version_key r) as [g|] eqn:E; split; simpl; try rewrite Hord.
  - rewrite bool_decide_eq_true_2; [done|].
    destruct Hr as (_ & _ & _ & _ & _ & Hh). apply list_elem_of_fmap.
    destruct (rows_of (version_key r) l) as [|x l'] eqn:El; [done|].
    assert (x ∈ rows_of (version_key r) l) as Hx by (rewrite El; by left).
    apply list_elem_of_filter in Hx as [Hx Hin]. by exists x.
  - intros k. destruct (decide (version_key r = k)) as [<-|Hk]; [|by apply Hoth].
    rewrite lookup_insert_eq. by apply count_row_ok.
  - by rewrite bool_decide_eq_false_2.
  - intros k. destruct (decide (version_key r = k)) as [<-|Hk]; [|by apply Hoth].
    rewrite lookup_insert_eq. by apply new_group_ok.
Qed.

Lemma distinct_first_seen {A K} `{EqDecision K} (key : A → K) seen1 seen2 l :
  (∀ k, k ∈ seen1 ↔ k ∈ seen2) → distinct_first key seen1 l = distinct_first key seen2 l.
Proof.
  revert seen1 seen2. induction l as [|x l IH]; intros seen1 seen2 Hs; simpl; [done|].
  rewrite (bool_decide_ext _ _ (Hs (key x))). case_bool_decide; [by apply IH|].
  f_equal. apply IH. intros k. rewrite !elem_of_cons, Hs. done.
Qed.

Lemma rollup_fold rows l s :
  rollup_inv l s → (∀ d, d ∈ ru_seen s ↔ d ∈ dl_Diid <$> l) →
  rollup_inv (l ++ distinct_first dl_Diid (dl_Diid <$> l) rows) (foldl rollup_row s rows).
Proof.
  revert l s. induction rows as [|r rows IH]; intros l s Hi Hs; simpl; [by rewrite app_nil_r|].
  case_bool_decide as Hr.
  - assert (rollup_row s r = s) as ->; [|by apply IH].
    unfold rollup_row. by rewrite bool_decide_eq_true_2 by by apply Hs.
  - assert (Hns : dl_Diid r ∉ ru_seen s) by by rewrite Hs.
    specialize (IH (l ++ [r]) (rollup_row s r) (rollup_new _ _ _ Hi Hns)).
    rewrite <-app_assoc in IH. simpl in IH.
    rewrite (distinct_first_seen dl_Diid (dl_Diid r :: (dl_Diid <$> l)) (dl_Diid <$> l ++ [r])).
    + apply IH. intros d. rewrite fmap_app, elem_of_app. simpl. rewrite list_elem_of_singleton.
      assert (ru_seen (rollup_row s r) = {[dl_Diid r]} ∪ ru_seen s) as ->.
      { unfold rollup_row. rewrite bool_decide_eq_false_2 by done. by case_match. }
      rewrite elem_of_union, elem_of_singleton, Hs. tauto.
    + intros d. rewrite fmap_app, elem_of_app. simpl.
      rewrite list_elem_of_singleton, elem_of_cons. tauto.
Qed.

(** [aggregateRecentDeploys] counts every deploy instruction once, by its latest
    status: there is one entry for each of the first [groups] feature versions, in the
    order of their most recent event; its total is the number of instructions of that
    version, split correctly into deployed, failed and pending. *)
Theorem aggregateRecentDeploys_spec rows groups :
  let l := latest_rows rows in
  let result := aggregateRecentDeploys rows groups in
  (λ g, (rd_FeatureName g, rd_FeatureVersion g)) <$> result =
    take groups (distinct_first id [] (version_key <$> l)) ∧
  Forall (λ g, group_ok l (rd_FeatureName g, rd_FeatureVersion g) g) result.
Proof.
  cbv zeta. unfold aggregateRecentDeploys, latest_rows.
  set (s0 := {| ru_byKey := ∅; ru_order := []; ru_seen := ∅ |}).
  assert (Hi : rollup_inv (distinct_first dl_Diid [] rows) (foldl rollup_row s0 rows)).
  { apply (rollup_fold rows [] s0).
    - split; [done|]. intros k. simpl. rewrite lookup_empty. apply not_elem_of_nil.
    - intros d. simpl. set_solver. }
  destruct Hi as [Ho Hg]. set (l := distinct_first dl_Diid [] rows) in *.
  set (s := foldl rollup_row s0 rows) in *. rewrite <-Ho.
  assert (Hks : ∀ k, k ∈ take groups (ru_order s) → ∃ g, ru_byKey s !! k = Some g ∧ group_ok l k g).
  { intros k Hk. apply elem_of_take in Hk as (i & Hk & _).
    apply list_elem_of_lookup_2 in Hk. rewrite Ho in Hk. apply elem_of_distinct_first in Hk as [Hk _].
    specialize (Hg k). destruct (ru_byKey s !! k) as [g|]; [by exists g|done]. }
  revert Hks. generalize (take groups (ru_order s)). intros ks.
  induction ks as [|k ks IH]; intros Hks; [by split; [|constructor]|].
  destruct (Hks k) as (g & Hk & Hok); [by left|].
  assert (omap (λ k, ru_byKey s !! k) (k :: ks) = g :: omap (λ k, ru_byKey s !! k) ks) as ->
    by (simpl; by rewrite Hk). destruct IH as [IH1 IH2].
  { intros k' Hk'. apply Hks. by right. }
  pose proof Hok as [Hkey _]. rewrite fmap_cons, IH1, Hkey. split; [done|].
  constructor; [by rewrite Hkey|done].
Qed.

Lemma AllReconcileStatuses_agree_witness :
  ∃ all, AllReconcileStatuses example_deployed = (Ok all, example_deployed) ∧
    ReconcileStatuses 1 example_deployed = (Ok (default [] (all !! 1%N)), example_deployed) ∧
    length (default [] (all !! 1%N)) = 1%nat.
Proof.
  destruct (AllReconcileStatuses_agree example_deployed 1) as (all & H1 & H2).
  - reflexivity.
  - apply (bool_decide_unpack _). vm_compute. exact I.
  - apply (bool_decide_unpack _). vm_compute. exact I.
  - exists all. split; [exact H1|]. split; [exact H2|].
    vm_compute in H1. injection H1 as <-. reflexivity.
Defined.
