(* ===== verification/Environment.v ===== *)
(** * internal/environment, internal/audit and internal/naisdstatus

    Tenants, environments, their labels and values; audit entries; health and
    release inventories.  The actor of an audit entry, which the source takes from
    the request's context, is an argument. *)

From S2P Require Export Status.

(** ** internal/audit/queries.go *)

Record CreateParams := {
  cp_Action : string; cp_Description : string; cp_ObjectType : string; cp_ObjectID : string;
  cp_Feature : string; cp_EnvironmentID : option uuid; cp_Metadata : option gval;
}.

Definition UnauthorizedName : string := "unauthorized".
Definition actorOrUnknown (email : string) : string :=
  if bool_decide (email = UnauthorizedName) then "unknown" else email.

(** The metadata's JSON is kept as the value it encodes; a nil map in the [any]
    field is not nil and encodes as null ([Some VNil]). *)
Definition audit_Create (email : string) (p : CreateParams) : IO unit :=
  exec (λ w, set_audits (λ l, l ++ [
    {| au_Actor := actorOrUnknown email; au_Action := cp_Action p;
       au_Description := cp_Description p; au_ObjectType := cp_ObjectType p;
       au_ObjectID := cp_ObjectID p; au_Feature := cp_Feature p;
       au_EnvironmentID := cp_EnvironmentID p; au_Metadata := cp_Metadata p;
       au_CreatedAt := w_now w |}]) w).

(** ** Reads *)

(** The single row a [:one] query returns. *)
Definition single {A} (l : list A) : outcome A :=
  match l with x :: _ => Ok x | [] => Err ErrNoRows end.

Definition Get (id : uuid) : IO EnvironmentRow :=
  query (λ w, single (filter (λ e, er_ID e = id) (environments (w_env w)))).

Definition GetByName (tenantID : uuid) (name : string) : IO EnvironmentRow :=
  query (λ w, single (filter (λ e, er_TenantID e = tenantID ∧ er_Name e = name)
                     (environments (w_env w)))).

Definition GetTenant (id : uuid) : IO TenantRow :=
  query (λ w, single (filter (λ t, t_ID t = id) (tenants (w_env w)))).

Definition GetTenantByName (name : string) : IO TenantRow :=
  query (λ w, single (filter (λ t, t_Name t = name) (tenants (w_env w)))).

Definition GetLabels (id : uuid) : IO Labels :=
  query (λ w, fmap_ok er_Labels (single (filter (λ e, er_ID e = id) (environments (w_env w))))).

(** Management first, then by name. *)
Definition management_first (a b : EnvironmentRow) : bool :=
  let rank e := if bool_decide (er_Name e = "management") then 1 else 2 in
  (rank a <=? rank b)%nat.
Definition List_environments (tenantID : uuid) : IO (list EnvironmentRow) :=
  query (λ w, Ok (isort (then_by management_first (λ a b, String.leb (er_Name a) (er_Name b)))
    (filter (λ e, er_TenantID e = tenantID) (environments (w_env w))))).

Definition ListTenantEnvironments (onlyReconciled : bool) : IO (list TenantEnvironment) :=
  query (λ w, Ok (filter (λ e, negb onlyReconciled || te_Reconcile e = true) (tenant_environments w))).

(** Secret values are masked unless sensitive ones are asked for. *)
Definition mask (showSensitive : bool) (v : EnvironmentValueRow) : EnvironmentValueRow :=
  {| ev_EnvironmentID := ev_EnvironmentID v; ev_Key := ev_Key v;
     ev_Value := if ev_Secret v && negb showSensitive then json_quote "*****" else ev_Value v;
     ev_Secret := ev_Secret v |}.

Definition ListEnvironmentValuesForEnvironment (envID : uuid) (showSensitive : bool)
    : IO (list EnvironmentValueRow) :=
  query (λ w, Ok (mask showSensitive <$>
    isort (λ a b, String.leb (ev_Key a) (ev_Key b))
      (filter (λ v, ev_EnvironmentID v = envID) (environment_values (w_env w))))).

(** ** Writes *)

Record EnvironmentCreate := {
  ec_Name : string; ec_Description : option string; ec_TenantID : uuid;
  ec_Kind : EnvironmentKind; ec_Labels : Labels;
}.

(** The unique constraints of a table make an insert fail. *)
Definition insert_unique (clash : world → bool) (f : world → world) : IO unit :=
  external (λ w, if clash w then (Err ErrUniqueViolation, w) else (Ok tt, f w)).

Definition CreateEnvironment_query (row : EnvironmentRow) : IO unit :=
  insert_unique
    (λ w, existsb (λ e, bool_decide (er_TenantID e = er_TenantID row) &&
                        bool_decide (er_Name e = er_Name row)) (environments (w_env w)))
    (set_w_env (set_environments (λ l, l ++ [row]))).

(** Identifiers come from the database's [gen_random_uuid].  The function [Create] gives
    to WithTx. *)
Definition create_in_tx (actor : string) (env : EnvironmentCreate) : IO EnvironmentRow :=
  tenant ← wrapping "get tenant for labels" (GetTenant (ec_TenantID env));
  let labels := <["tenant" := t_Name tenant]> (<["name" := ec_Name env]> (ec_Labels env)) in
  id ← uuid_New;
  let row := {| er_ID := id; er_TenantID := ec_TenantID env; er_Name := ec_Name env;
                er_Kind := ec_Kind env; er_Description := ec_Description env;
                er_Reconcile := true; er_Labels := labels; er_OidcIssuer := None;
                er_OidcDiscoveryUrl := None |} in
  CreateEnvironment_query row ;;
  audit_Create actor {| cp_Action := "created"; cp_Description := "";
    cp_ObjectType := "environment"; cp_ObjectID := t_Name tenant +:+ ("/" +:+ ec_Name env);
    cp_Feature := ""; cp_EnvironmentID := None; cp_Metadata := None |} ;;
  mret row.

Definition Environment_Create (actor : string) (env : EnvironmentCreate) : IO EnvironmentRow :=
  WithTx_undo rollback_but_env (create_in_tx actor env).

Definition CreateTenant (actor : string) (name : string) (description : option string) : IO TenantRow :=
  WithTx_undo rollback_but_env (
    id ← uuid_New;
    let row := {| t_ID := id; t_Name := name; t_Description := description; t_CI := false |} in
    insert_unique (λ w, existsb (λ t, bool_decide (t_Name t = name)) (tenants (w_env w)))
      (set_w_env (set_tenants (λ l, l ++ [row]))) ;;
    audit_Create actor {| cp_Action := "created"; cp_Description := ""; cp_ObjectType := "tenant";
      cp_ObjectID := name; cp_Feature := ""; cp_EnvironmentID := None; cp_Metadata := None |} ;;
    mret row).

Definition set_env_labels (lbls : Labels) (e : EnvironmentRow) : EnvironmentRow :=
  {| er_ID := er_ID e; er_TenantID := er_TenantID e; er_Name := er_Name e; er_Kind := er_Kind e;
     er_Description := er_Description e; er_Reconcile := er_Reconcile e; er_Labels := lbls;
     er_OidcIssuer := er_OidcIssuer e; er_OidcDiscoveryUrl := er_OidcDiscoveryUrl e |}.

(** An error of the read counts as having no labels. *)
Definition SetLabels (actor : string) (environmentID : uuid) (labels : Labels) : IO unit :=
  existing ← attempt (GetLabels environmentID);
  let lbls := labels ∪ match existing with inl l => l | inr _ => ∅ end in
  exec (set_w_env (set_environments (fmap (λ e,
    if bool_decide (er_ID e = environmentID) then set_env_labels lbls e else e)))) ;;
  audit_Create actor {| cp_Action := "updated"; cp_Description := "";
    cp_ObjectType := "environment"; cp_ObjectID := "labels"; cp_Feature := "";
    cp_EnvironmentID := Some environmentID; cp_Metadata := Some (VStrMap labels) |}.

Definition upsert_value (row : EnvironmentValueRow) (l : list EnvironmentValueRow)
    : list EnvironmentValueRow :=
  let same v := bool_decide (ev_EnvironmentID v = ev_EnvironmentID row) &&
                bool_decide (ev_Key v = ev_Key row) in
  if existsb same l then (λ v, if same v then row else v) <$> l else l ++ [row].

(** The environment must exist. *)
Definition SetEnvironmentValue_query (row : EnvironmentValueRow) : IO unit :=
  external (λ w,
    if existsb (λ e, bool_decide (er_ID e = ev_EnvironmentID row)) (environments (w_env w))
    then (Ok tt, set_w_env (set_environment_values (upsert_value row)) w)
    else (Err (ErrPg "violates foreign key constraint environment_values_environment_id_fkey"), w)).

Definition SetEnvironmentValue (actor : string) (row : EnvironmentValueRow) : IO unit :=
  WithTx_undo rollback_but_env (
    wrapping "failed to store environment value" (SetEnvironmentValue_query row) ;;
    audit_Create actor {| cp_Action := "updated"; cp_Description := "";
      cp_ObjectType := "environment_value"; cp_ObjectID := ev_Key row; cp_Feature := "";
      cp_EnvironmentID := Some (ev_EnvironmentID row);
      cp_Metadata := Some (VMap {[ "secret" := VBool (ev_Secret row) ]}) |}).

Definition DeleteEnvironmentValue (actor : string) (environmentID : uuid) (key : string) : IO unit :=
  WithTx_undo rollback_but_env (
    wrapping "failed to delete environment value"
      (exec (set_w_env (set_environment_values
        (filter (λ v, ¬ (ev_EnvironmentID v = environmentID ∧ ev_Key v = key)))))) ;;
    audit_Create actor {| cp_Action := "deleted"; cp_Description := "";
      cp_ObjectType := "environment_value"; cp_ObjectID := key; cp_Feature := "";
      cp_EnvironmentID := Some environmentID; cp_Metadata := None |}).

(** ** internal/naisdstatus/queries.go *)

(** What the UI shows when nothing was ever reported. *)
Definition never_reported : time := (-17776253999999991)%Z.

Definition Health_Get (environmentID : uuid) : IO time :=
  r ← attempt (query (λ w, match health_statuses (w_rec w) !! environmentID with
                            | Some t => Ok t | None => Err ErrNoRows end));
  match r with
  | inl t => mret t
  | inr e => if errors_is e ErrNoRows then mret never_reported else fail e
  end.

Definition Health_Set (environmentID : uuid) (reportedAt : time) : IO unit :=
  exec (set_w_rec (set_health_statuses (insert environmentID reportedAt))).

Definition ListReleaseStatuses (environmentID : uuid) : IO (list (string * ReleaseStatusRow)) :=
  query (λ w, Ok (isort (λ a b, String.leb a.1 b.1)
    ((λ kv, (kv.1.2, kv.2)) <$>
      filter (λ kv, kv.1.1 = environmentID) (map_to_list (release_statuses (w_rec w)))))).

Definition GetReleaseStatus (environmentID : uuid) (featureName : string)
    : IO (option ReleaseStatusRow) :=
  query (λ w, Ok (release_statuses (w_rec w) !! (environmentID, featureName))).

Definition ReleaseStatusesForFeature (featureName : string) : IO (gmap N ReleaseStatusRow) :=
  query (λ w, Ok (list_to_map ((λ kv, (kv.1.1, kv.2)) <$>
      filter (λ kv, kv.1.2 = featureName) (map_to_list (release_statuses (w_rec w)))))).

(** ** What they do *)

Lemma audit_Create_Ok email p w w' u :
  audit_Create email p w = (Ok u, w') →
  ∃ row, audits w' = audits w ++ [row] ∧ w_feature w' = w_feature w ∧ w_env w' = w_env w ∧
    w_rec w' = w_rec w ∧ au_Metadata row = cp_Metadata p ∧ au_Action row = cp_Action p ∧
    au_Description row = cp_Description p ∧ au_ObjectID row = cp_ObjectID p ∧
    au_CreatedAt row = w_now w.
Proof.
  unfold audit_Create. intros (w1 & Hf & ->)%exec_Ok. apply next_fault_same in Hf.
  unfold same_world in Hf. rewrite Hf. eexists. by repeat split.
Qed.

Lemma audits_same w w' : same_world w w' → audits w' = audits w.
Proof. by intros ->. Qed.

(** The pair (tenant, name) identifies an environment. *)
Definition env_names_unique (w : world) : Prop :=
  NoDup ((λ e, (er_TenantID e, er_Name e)) <$> environments (w_env w)).

Lemma insert_unique_Ok clash f w w' u :
  insert_unique clash f w = (Ok u, w') →
  ∃ w1, same_world w w1 ∧ clash w1 = false ∧ w' = f w1.
Proof.
  unfold insert_unique. intros (w1 & S & H)%external_Ok. exists w1.
  destruct (clash w1); [done|]. by injection H as _ <-.
Qed.

Lemma single_Ok {A} (l : list A) x : single l = Ok x → x ∈ l.
Proof. destruct l; intros [= ->]. by left. Qed.

Lemma NoDup_names_snoc l row :
  NoDup ((λ e, (er_TenantID e, er_Name e)) <$> l) →
  existsb (λ e, bool_decide (er_TenantID e = er_TenantID row) &&
                bool_decide (er_Name e = er_Name row)) l = false →
  NoDup ((λ e, (er_TenantID e, er_Name e)) <$> l ++ [row]).
Proof.
  intros Hu Hc. rewrite fmap_app. apply NoDup_app. split; [done|]. split; [|apply NoDup_singleton].
  intros k (e & -> & Hin)%list_elem_of_fmap Hk%list_elem_of_singleton.
  injection Hk as Hk1 Hk2. apply not_true_iff_false in Hc. apply Hc, existsb_exists.
  exists e. rewrite Hk1, Hk2. split; [by apply list_elem_of_In|].
  by rewrite !bool_decide_eq_true_2.
Qed.

Lemma audit_Create_env email p w : w_env (audit_Create email p w).2 = w_env w.
Proof.
  unfold audit_Create, exec, external, next_fault, modify, mbind, M_bind.
  by destruct (w_faults w) as [|[e|] fs].
Qed.

(** The environments after the body, on every outcome. *)
Lemma create_in_tx_env actor env w o w' :
  env_names_unique w → create_in_tx actor env w = (o, w') →
  w_env w' = w_env w ∨
  env_names_unique w' ∧ ∃ row, environments (w_env w') = environments (w_env w) ++ [row] ∧
    er_TenantID row = ec_TenantID env ∧ er_Name row = ec_Name env.
Proof.
  intros Hu H. unfold create_in_tx in H. unfold mbind at 1, M_bind at 1 in H.
  destruct (wrapping "get tenant for labels" _ w) as [ot w1] eqn:Et.
  apply reads_wrapping in Et; [|unfold GetTenant; solve_reads].
  destruct ot as [t|e|p];
    [|injection H as _ <-; left; exact (same_world_env _ _ Et)..].
  unfold mbind at 1, M_bind at 1 in H. cbn [uuid_New] in H. cbv zeta in H.
  unfold mbind at 1, M_bind at 1 in H. unfold CreateEnvironment_query, insert_unique in H.
  destruct (external _ _) as [oi w2] eqn:Ei.
  unfold external, mbind, M_bind in Ei.
  destruct (next_fault _) as [fl w3] eqn:Ef in Ei. apply next_fault_same, same_world_env in Ef.
  cbn [w_env set_w_next_uuid] in Ef. rewrite (same_world_env _ _ Et) in Ef.
  destruct fl as [[e|]|e|p]; [unfold fail in Ei|destruct (existsb _ _) eqn:Ec in Ei|..];
    injection Ei as <- <-; try (injection H as _ <-; by left).
  right.
  set (row := {| er_ID := _ |}) in H, Ec.
  assert (Hw : w_env w' = set_environments (λ l, l ++ [row]) (w_env w3)).
  { unfold mbind, M_bind in H.
    match type of H with context [audit_Create ?a ?p ?s] =>
      pose proof (audit_Create_env a p s) as Ha; destruct (audit_Create a p s) as [[] w4] end;
      injection H as _ <-; exact Ha. }
  rewrite Ef in Hw, Ec. unfold env_names_unique. rewrite Hw. cbn [environments set_environments].
  split; [by apply NoDup_names_snoc|]. by exists row.
Qed.

(** The pair of an environment's tenant and name stays unique.  When creating an
    environment succeeds, the new row is reconciled from the start, its labels say its
    name and its tenant's name whatever the request said, and one audit entry names it.
    When it fails no audit entry is written, but, since the insert does not run in the
    transaction, the environment may be there all the same. *)
Theorem Environment_Create_spec actor env w o w' :
  env_names_unique w → Environment_Create actor env w = (o, w') →
  env_names_unique w' ∧
  match o with
  | Ok row =>
      environments (w_env w') = environments (w_env w) ++ [row] ∧
      er_TenantID row = ec_TenantID env ∧ er_Name row = ec_Name env ∧ er_Reconcile row = true ∧
      er_Labels row !! "name" = Some (ec_Name env) ∧
      (∃ t, t ∈ tenants (w_env w) ∧ t_ID t = ec_TenantID env ∧
         er_Labels row !! "tenant" = Some (t_Name t) ∧
         ∃ a, audits w' = audits w ++ [a] ∧ au_ObjectID a = t_Name t +:+ ("/" +:+ ec_Name env)) ∧
      (∀ k, k ≠ "name" → k ≠ "tenant" → er_Labels row !! k = ec_Labels env !! k)
  | _ =>
      audits w' = audits w ∧
      (w_env w' = w_env w ∨
       ∃ row, environments (w_env w') = environments (w_env w) ++ [row] ∧
         er_TenantID row = ec_TenantID env ∧ er_Name row = ec_Name env)
  end.
Proof.
  intros Hu H. destruct (is_Ok o) eqn:Ho.
  2: { assert (env_names_unique w' ∧ audits w' = audits w ∧ (w_env w' = w_env w ∨
         ∃ row, environments (w_env w') = environments (w_env w) ++ [row] ∧
           er_TenantID row = ec_TenantID env ∧ er_Name row = ec_Name env)) as [Hu' Hr];
         [|by destruct o].
       unfold env_names_unique in *.
       destruct (WithTx_undo_failed _ _ _ _ _ H Ho) as [S|(w1 & w2 & S1 & S2 & ->)].
       { rewrite (same_world_env _ _ S), (audits_same _ _ S). auto. }
       cbn [rollback_but_env rollback set_w_env w_env audits]. rewrite (audits_same _ _ S1).
       destruct (create_in_tx actor env w1) as [oc w3] eqn:Ec. cbn [snd] in S2.
       rewrite (same_world_env _ _ S2), <-(same_world_env _ _ S1).
       apply create_in_tx_env in Ec as [E|[Hu3 Hrow]];
         [|by auto|by unfold env_names_unique; rewrite (same_world_env _ _ S1)].
       rewrite E, (same_world_env _ _ S1). auto. }
  destruct o as [row|e|p]; [|done..].
  apply WithTx_undo_Ok in H as (w1 & w2 & S1 & H & S2).
  apply bind_Ok in H as (t & w3 & Ht & H). apply wrapping_Ok in Ht.
  pose proof (query_same _ _ _ _ Ht) as S3.
  pose proof (query_value _ _ _ _ Ht (λ _, eq_refl)) as Hv. cbv beta in Hv.
  apply single_Ok, list_elem_of_filter in Hv as [Hid Hv].
  rewrite (same_world_env _ _ S1) in Hv.
  pose proof (same_world_trans _ _ _ S1 S3) as S.
  apply bind_Ok in H as (id & w4 & [= <- <-] & H).
  apply bind_Ok in H as (u & w5 & Hi & H).
  apply insert_unique_Ok in Hi as (w6 & S6 & Hc & ->).
  apply bind_Ok in H as (u' & w7 & Ha & H). injection H as <- <-.
  apply audit_Create_Ok in Ha as (a & Ha & _ & He & _ & _ & _ & _ & Ho' & _).
  assert (E6 : w_env w6 = w_env w) by by rewrite (same_world_env _ _ S6), <-(same_world_env _ _ S).
  rewrite E6 in Hc.
  unfold env_names_unique.
  rewrite (same_world_env _ _ S2), (audits_same _ _ S2), He, Ha. cbn [w_env set_w_env set_environments
    environments audits er_TenantID er_Name er_Reconcile er_Labels ec_TenantID].
  rewrite E6, (audits_same _ _ S6). cbn [audits set_w_next_uuid]. rewrite (audits_same _ _ S).
  split; [by apply NoDup_names_snoc|].
  split_and!; try done.
  - by simplify_map_eq.
  - exists t. split_and!; [done|done|by simplify_map_eq|]. by exists a.
  - intros k Hk1 Hk2. by rewrite !lookup_insert_ne by done.
Qed.

(** When no call to the database fails, [SetLabels] changes the labels of one
    environment only: every label given is set and every other label it had is kept. *)
Theorem SetLabels_spec actor id labels w w' :
  w_faults w = [] → SetLabels actor id labels w = (Ok tt, w') →
  environments (w_env w') =
    (λ e, if bool_decide (er_ID e = id)
          then set_env_labels
                 (labels ∪ default ∅ (er_Labels <$>
                    head (filter (λ e, er_ID e = id) (environments (w_env w))))) e
          else e) <$> environments (w_env w).
Proof.
  intros Hw H. unfold SetLabels in H.
  apply bind_Ok in H as (ex & w1 & Hex & H).
  assert (w1 = w ∧ match ex with inl l => l | inr _ => ∅ end = default ∅ (er_Labels <$>
    head (filter (λ e, er_ID e = id) (environments (w_env w))))) as [-> Hl].
  { unfold attempt, GetLabels, query, external, next_fault, mbind, M_bind in Hex.
    rewrite Hw in Hex.
    destruct (filter (λ e, er_ID e = id) (environments (w_env w))) as [|e0 l];
      by injection Hex as <- <-. }
  rewrite Hl in H.
  apply bind_Ok in H as (u & w2 & (w3 & Hf & ->)%exec_Ok & H).
  apply next_fault_same in Hf.
  apply audit_Create_Ok in H as (a & _ & _ & He & _).
  rewrite He. cbn [w_env set_w_env set_environments environments].
  by rewrite (same_world_env _ _ Hf).
Qed.

(** ** Instances *)

Definition example_create : EnvironmentCreate :=
  {| ec_Name := "prod"; ec_Description := None; ec_TenantID := 3;
     ec_Kind := EnvironmentKindTenant; ec_Labels := {[ "name" := "spoofed"; "team" := "a" ]} |}.

Lemma Environment_Create_spec_witness :
  ∃ row w', Environment_Create "me" example_create example_world = (Ok row, w') ∧
    er_Labels row !! "name" = Some "prod" ∧ er_Labels row !! "team" = Some "a" ∧
    env_names_unique w'.
Proof.
  destruct (Environment_Create "me" example_create example_world) as [o w'] eqn:E.
  destruct o as [row|e|p]; [|exfalso; vm_compute in E; discriminate E..].
  exists row, w'. split; [reflexivity|].
  destruct (Environment_Create_spec "me" example_create example_world (Ok row) w')
    as (Hu & _ & _ & _ & _ & Hn & _ & Hk).
  - apply NoDup_singleton.
  - exact E.
  - split; [exact Hn|]. split; [|exact Hu].
    rewrite Hk; [reflexivity|discriminate..].
Defined.

Lemma SetLabels_spec_witness :
  ∃ w', SetLabels "me" 7 {[ "team" := "a" ]} example_world = (Ok tt, w') ∧
    er_Labels <$> environments (w_env w') = [{[ "team" := "a"; "kind" := "tenant" ]}].
Proof.
  destruct (SetLabels "me" 7 {[ "team" := "a" ]} example_world) as [o w'] eqn:E.
  destruct o as [[]|e|p]; [|exfalso; vm_compute in E; discriminate E..].
  exists w'. split; [reflexivity|].
  rewrite (SetLabels_spec "me" 7 {[ "team" := "a" ]} example_world w' eq_refl E).
  vm_compute. reflexivity.
Defined.

(** When reading the existing labels fails, they are lost, and the call succeeds. *)
Theorem SetLabels_drops_labels :
  ∃ w w', SetLabels "me" 7 {[ "team" := "a" ]} w = (Ok tt, w') ∧
    er_Labels <$> environments (w_env w) = [{[ "kind" := "tenant" ]}] ∧
    er_Labels <$> environments (w_env w') = [{[ "team" := "a" ]}].
Proof.
  exists (set_w_faults (λ _, [Some (ErrString "timeout")]) example_world).
  eexists. split_and!; vm_compute; reflexivity.
Qed.

(** The environment package runs its statements on the pool and not in the transaction:
    when the audit entry cannot be written, [Create] fails and the environment stays,
    so that trying again fails too. *)
Theorem Environment_Create_not_atomic :
  ∃ w w', Environment_Create "me" example_create w = (Err (ErrString "timeout"), w') ∧
    er_Name <$> environments (w_env w) = ["dev"] ∧
    er_Name <$> environments (w_env w') = ["dev"; "prod"] ∧ audits w' = [] ∧
    (Environment_Create "me" example_create w').1 = Err ErrUniqueViolation.
Proof.
  exists (set_w_faults (λ _, [None; None; None; Some (ErrString "timeout")]) example_world).
  eexists. split_and!; vm_compute; reflexivity.
Qed.
