(* ===== verification/Management.v ===== *)
(** * internal/environmentmanagement: the API of the Terraform provider

    The gRPC server through which tenants, environments and their values are managed from
    outside.  Its statements run on the pool, each on its own; an audit entry that cannot
    be written is only logged.  Parsing and printing of identifiers, and what PostgreSQL
    accepts as JSON, are parameters. *)

From S2P Require Export Atomic Environment.

(** ** Messages (schema/protobuf/fasit.proto) *)

Inductive KindProto := UNKNOWN | MANAGEMENT | TENANT | ONPREM | LEGACY | OtherKind (n : Z).
Record LabelProto := { lp_Key : string; lp_Value : string }.
Record TenantProto := { pt_Id : string; pt_Name : string }.
Record EnvironmentProto := {
  pe_Id : string; pe_TenantId : string; pe_Name : string; pe_Labels : list LabelProto;
  pe_OidcIssuer : option string; pe_OidcDiscoveryUrl : option string;
}.
Record EnvironmentValueProto := {
  pv_EnvironmentId : string; pv_Key : string; pv_Value : string; pv_Secret : bool;
  pv_TenantId : string; pv_TenantName : string; pv_EnvironmentName : string;
}.

Record CreateEnvironmentMessage := {
  ce_TenantId : string; ce_EnvName : string; ce_EnvKind : KindProto; ce_EnvLabels : list LabelProto;
  ce_OidcIssuer : option string; ce_OidcDiscoveryUrl : option string;
}.
Record UpdateEnvironmentMessage := {
  ue_EnvironmentId : string; ue_Labels : list LabelProto;
  ue_OidcIssuer : option string; ue_OidcDiscoveryUrl : option string;
}.
Record SetEnvironmentValueMessage := {
  se_EnvironmentId : string; se_Key : string; se_Value : string; se_Secret : bool;
}.

Section management.
Context `{pg : Postgres}.
Context (uuid_String : uuid → string) (uuid_Parse : string → outcome uuid) (jsonb_valid : string → bool).

Definition provider : string := "system:provider".

(** [if err != nil { return nil, status.Error(code, msg) }] *)
Definition or_status {A} (m : IO A) (code : string) (msg : error → string) : IO A :=
  r ← attempt m;
  match r with inl a => mret a | inr err => fail (grpc_error code (msg err)) end.

Definition internal {A} (m : IO A) : IO A := or_status m "Internal" error_msg.
Definition not_found {A} (m : IO A) (msg : string) : IO A := or_status m "NotFound" (λ _, msg).
Definition parse_id (id msg : string) : IO uuid := or_status (lift (uuid_Parse id)) "InvalidArgument" (λ _, msg).

Definition writeAudit (p : CreateParams) : IO unit := attempt (audit_Create provider p) ;; mret tt.

Definition audit_params (action objectType objectID : string) (env : option uuid) : CreateParams :=
  {| cp_Action := action; cp_Description := ""; cp_ObjectType := objectType; cp_ObjectID := objectID;
     cp_Feature := ""; cp_EnvironmentID := env; cp_Metadata := None |}.

Definition toEnvironmentKind (kind : KindProto) : outcome EnvironmentKind :=
  match kind with
  | MANAGEMENT => Ok EnvironmentKindManagement
  | TENANT => Ok EnvironmentKindTenant
  | ONPREM => Ok EnvironmentKindOnprem
  | _ => Err (grpc_error "InvalidArgument" "Invalid Environment kind")
  end.

Definition labelsToDB (labels : list LabelProto) : Labels :=
  foldl (λ result l, <[lp_Key l := lp_Value l]> result) ∅ labels.

(** In the order of [map_to_list]; the source leaves it open. *)
Definition labelsToProto (labels : Labels) : list LabelProto :=
  (λ kv, {| lp_Key := kv.1; lp_Value := kv.2 |}) <$> map_to_list labels.

Definition environment_proto (e : EnvironmentRow) : EnvironmentProto :=
  {| pe_Id := uuid_String (er_ID e); pe_TenantId := uuid_String (er_TenantID e); pe_Name := er_Name e;
     pe_Labels := labelsToProto (er_Labels e); pe_OidcIssuer := er_OidcIssuer e;
     pe_OidcDiscoveryUrl := er_OidcDiscoveryUrl e |}.

(** ** Tenants *)

Definition CreateTenant_query (name : string) (description : option string) : IO TenantRow :=
  id ← uuid_New;
  let row := {| t_ID := id; t_Name := name; t_Description := description; t_CI := false |} in
  insert_unique (λ w, existsb (λ t, bool_decide (t_Name t = name)) (tenants (w_env w)))
    (set_w_env (set_tenants (λ l, l ++ [row]))) ;;
  mret row.

Definition Management_CreateTenant (name : string) (description : option string) : IO TenantProto :=
  if (String.length name <? 2)%nat
  then fail (grpc_error "InvalidArgument" "Tenant name must be at least 2 characters long")
  else
    tenant ← internal (CreateTenant_query name description);
    writeAudit (audit_params "created" "tenant" (uuid_String (t_ID tenant)) None) ;;
    mret {| pt_Name := t_Name tenant; pt_Id := uuid_String (t_ID tenant) |}.

Definition Management_GetTenant (name : string) : IO TenantProto :=
  tenant ← not_found (GetTenantByName name) "Tenant not found";
  mret {| pt_Id := uuid_String (t_ID tenant); pt_Name := t_Name tenant |}.

(** ** Environments *)

Definition Management_CreateEnvironment (msg : CreateEnvironmentMessage) : IO EnvironmentProto :=
  if (String.length (ce_EnvName msg) <? 2)%nat
  then fail (grpc_error "InvalidArgument" "Environment name must be at least 2 characters long")
  else
    tenantID ← parse_id (ce_TenantId msg) "Invalid tenant id";
    tenant ← not_found (GetTenant tenantID) "Tenant not found";
    kind ← lift (toEnvironmentKind (ce_EnvKind msg));
    id ← uuid_New;
    let env := {| er_ID := id; er_TenantID := t_ID tenant; er_Name := ce_EnvName msg; er_Kind := kind;
                  er_Description := None; er_Reconcile := true; er_Labels := labelsToDB (ce_EnvLabels msg);
                  er_OidcIssuer := ce_OidcIssuer msg; er_OidcDiscoveryUrl := ce_OidcDiscoveryUrl msg |} in
    internal (CreateEnvironment_query env) ;;
    writeAudit (audit_params "created" "environment" (uuid_String id) (Some id)) ;;
    mret (environment_proto env).

Definition update_environment (msg : UpdateEnvironmentMessage) (e : EnvironmentRow) : EnvironmentRow :=
  {| er_ID := er_ID e; er_TenantID := er_TenantID e; er_Name := er_Name e; er_Kind := er_Kind e;
     er_Description := er_Description e; er_Reconcile := er_Reconcile e;
     er_Labels := labelsToDB (ue_Labels msg); er_OidcIssuer := ue_OidcIssuer msg;
     er_OidcDiscoveryUrl := ue_OidcDiscoveryUrl msg |}.

(** [UPDATE .. RETURNING]: no rows when there is no such environment any more. *)
Definition UpdateEnvironment_query (id : uuid) (msg : UpdateEnvironmentMessage) : IO EnvironmentRow :=
  external (λ w,
    (single (update_environment msg <$> filter (λ e, er_ID e = id) (environments (w_env w))),
     set_w_env (set_environments (fmap (λ e,
       if bool_decide (er_ID e = id) then update_environment msg e else e))) w)).

Definition Management_UpdateEnvironment (msg : UpdateEnvironmentMessage) : IO EnvironmentProto :=
  environmentID ← parse_id (ue_EnvironmentId msg) "Invalid environment id";
  env ← not_found (Get environmentID) "Environment not found";
  updated ← internal (UpdateEnvironment_query (er_ID env) msg);
  writeAudit (audit_params "updated" "environment" (uuid_String (er_ID updated)) (Some (er_ID updated))) ;;
  mret (environment_proto updated).

Definition Management_GetEnvironment (tenantId name : string) : IO EnvironmentProto :=
  tenantID ← parse_id tenantId "Invalid tenant id";
  env ← not_found (GetByName tenantID name) "Environment not found";
  mret (environment_proto env).

(** ** Values *)

(** The column takes JSON only, and its environment must exist. *)
Definition StoreValue_query (row : EnvironmentValueRow) : IO unit :=
  external (λ w,
    if negb (jsonb_valid (ev_Value row)) then (Err (ErrPg "invalid input syntax for type json"), w)
    else if existsb (λ e, bool_decide (er_ID e = ev_EnvironmentID row)) (environments (w_env w))
    then (Ok tt, set_w_env (set_environment_values (upsert_value
           {| ev_EnvironmentID := ev_EnvironmentID row; ev_Key := ev_Key row;
              ev_Value := jsonb_text (ev_Value row); ev_Secret := ev_Secret row |})) w)
    else (Err (ErrPg "violates foreign key constraint environment_values_environment_id_fkey"), w)).

Definition Management_SetEnvironmentValue (msg : SetEnvironmentValueMessage) : IO bool :=
  envID ← parse_id (se_EnvironmentId msg) "Invalid environment id";
  internal (StoreValue_query
    {| ev_EnvironmentID := envID; ev_Key := se_Key msg; ev_Value := se_Value msg;
       ev_Secret := se_Secret msg |}) ;;
  writeAudit (audit_params "updated" "environment_value" (se_Key msg) (Some envID)) ;;
  mret true.

Definition GetEnvironmentValue (showSensitive : bool) (envID : uuid) (key : string) : IO EnvironmentValueRow :=
  query (λ w, single (mask showSensitive <$>
    filter (λ v, ev_EnvironmentID v = envID ∧ ev_Key v = key) (environment_values (w_env w)))).

Definition Management_GetEnvironmentValue (environmentId key : string) : IO EnvironmentValueProto :=
  envID ← parse_id environmentId "Invalid environment id";
  ev ← not_found (GetEnvironmentValue true envID key) "Environment not found";
  env ← not_found (Get envID) "Environment not found";
  tenant ← not_found (GetTenant (er_TenantID env)) "Tenant not found";
  mret {| pv_EnvironmentId := uuid_String envID; pv_Key := ev_Key ev; pv_Value := ev_Value ev;
          pv_Secret := ev_Secret ev; pv_TenantId := uuid_String (t_ID tenant);
          pv_TenantName := t_Name tenant; pv_EnvironmentName := er_Name env |}.

Definition ListEnvironmentValuesForKey (key : string) : IO (list EnvironmentValueProto) :=
  query (λ w, Ok (
    (λ vt : EnvironmentValueRow * TenantEnvironment,
       {| pv_EnvironmentId := uuid_String (ev_EnvironmentID vt.1); pv_Key := ev_Key vt.1;
          pv_Value := ev_Value vt.1; pv_Secret := ev_Secret vt.1;
          pv_TenantId := uuid_String (te_TenantID vt.2); pv_TenantName := te_TenantName vt.2;
          pv_EnvironmentName := te_Name vt.2 |}) <$>
    isort (λ a b, String.leb (te_Name a.2) (te_Name b.2))
      (filter (λ v, ev_Key v = key) (environment_values (w_env w)) ≫= (λ v,
         (λ te, (v, te)) <$> (filter (λ e, er_ID e = ev_EnvironmentID v) (environments (w_env w))
                                ≫= join_tenant w))))).

Definition Management_ListEnvironmentValues (key : string) : IO (list EnvironmentValueProto) :=
  internal (ListEnvironmentValuesForKey key).

Definition DeleteEnvironmentValue_query (envID : uuid) (key : string) : IO unit :=
  exec (set_w_env (set_environment_values
    (filter (λ v, ¬ (ev_EnvironmentID v = envID ∧ ev_Key v = key))))).

Definition Management_DeleteEnvironmentValue (environmentId key : string) : IO bool :=
  environmentID ← parse_id environmentId "Invalid environment id";
  internal (DeleteEnvironmentValue_query environmentID key) ;;
  writeAudit (audit_params "deleted" "environment_value" key (Some environmentID)) ;;
  mret true.

(** The calls that change something. *)
Inductive management_call :=
  | CallCreateTenant (name : string) (description : option string)
  | CallCreateEnvironment (msg : CreateEnvironmentMessage)
  | CallUpdateEnvironment (msg : UpdateEnvironmentMessage)
  | CallSetEnvironmentValue (msg : SetEnvironmentValueMessage)
  | CallDeleteEnvironmentValue (environmentId key : string).

Definition manage (c : management_call) : IO unit :=
  match c with
  | CallCreateTenant name desc => Management_CreateTenant name desc ;; mret tt
  | CallCreateEnvironment msg => Management_CreateEnvironment msg ;; mret tt
  | CallUpdateEnvironment msg => Management_UpdateEnvironment msg ;; mret tt
  | CallSetEnvironmentValue msg => Management_SetEnvironmentValue msg ;; mret tt
  | CallDeleteEnvironmentValue id key => Management_DeleteEnvironmentValue id key ;; mret tt
  end.

(** ** A call that fails changes nothing *)

Lemma aon_or_status {A} (m : IO A) code msg : all_or_nothing m → all_or_nothing (or_status m code msg).
Proof.
  intros Hm w o w' H Ho. unfold or_status, mbind, M_bind, attempt in H.
  destruct (m w) as [[a|e|p] w1] eqn:E; injection H as <- <-; [done|by eapply Hm..].
Qed.

Lemma reads_or_status {A} (m : IO A) code msg : reads m → reads (or_status m code msg).
Proof. intros Hm. unfold or_status. apply reads_bind; [by apply reads_attempt|]. intros [a|e]; [apply reads_ret|apply reads_fail]. Qed.

Lemma writeAudit_runs p w : ∃ w1, writeAudit p w = (Ok tt, w1) ∧ w_env w1 = w_env w ∧
  w_feature w1 = w_feature w ∧ w_rec w1 = w_rec w.
Proof.
  unfold writeAudit, attempt, audit_Create, exec, external, next_fault, mbind, M_bind.
  destruct (w_faults w) as [|[e|] fs]; by eexists.
Qed.

Lemma never_fails_audit {B} p (f : unit → IO B) : (∀ u, never_fails (f u)) → never_fails (writeAudit p ≫= f).
Proof. intros Hf w. unfold mbind, M_bind. destruct (writeAudit_runs p w) as (w1 & -> & _). apply Hf. Qed.

Lemma aon_insert_unique clash f : all_or_nothing (insert_unique clash f).
Proof. apply aon_external. intros w. by destruct (clash w). Qed.

Ltac audited := repeat first [apply never_fails_audit; intros ?|apply never_fails_ret].

(** C24.  A call to the management API is all or nothing: whatever fails, the database included,
    a call that reports an error has changed no table and written no audit entry; and since
    a failure to write the audit entry is ignored, no error is reported after the change. *)
Theorem manage_all_or_nothing c w o w' :
  manage c w = (o, w') → is_Ok o = false → same_tables w w'.
Proof.
  revert w o w'. change (all_or_nothing (manage c)).
  destruct c as [name desc|msg|msg|msg|id key]; cbn [manage]; (apply aon_bind_safe; [|intros; audited]).
  - unfold Management_CreateTenant. destruct (_ <? _)%nat; [apply aon_fail|].
    apply aon_bind_safe; [|intros; audited]. apply aon_or_status, aon_uuid_New. intros id.
    apply aon_bind_safe; [apply aon_insert_unique|intros; audited].
  - unfold Management_CreateEnvironment. destruct (_ <? _)%nat; [apply aon_fail|].
    apply aon_bind_reads; [apply reads_or_status, reads_lift|intros tid].
    apply aon_bind_reads; [apply reads_or_status, reads_query|intros t].
    apply aon_bind_reads; [apply reads_lift|intros kind]. apply aon_uuid_New. intros id.
    apply aon_bind_safe; [apply aon_or_status, aon_insert_unique|intros; audited].
  - unfold Management_UpdateEnvironment.
    apply aon_bind_reads; [apply reads_or_status, reads_lift|intros eid].
    apply aon_bind_reads; [apply reads_or_status, reads_query|intros env].
    apply aon_bind_safe; [apply aon_or_status, aon_external|intros; audited].
    intros v Hv. cbn in Hv |- *. split_and!; try done. cbn.
    assert (Hnone : filter (λ e, er_ID e = er_ID env) (environments (w_env v)) = [])
      by by destruct (filter _ _). unfold set_environments. destruct (w_env v) as [ts es vs]. cbn in *.
    f_equal. rewrite <-(list_fmap_id es) at 2. apply list_fmap_ext. intros i e He%list_elem_of_lookup_2.
    cbn. case_bool_decide as Hid; [|done]. exfalso.
    assert (e ∈ filter (λ e, er_ID e = er_ID env) es) as Hin by by apply list_elem_of_filter.
    rewrite Hnone in Hin. by apply elem_of_nil in Hin.
  - unfold Management_SetEnvironmentValue.
    apply aon_bind_reads; [apply reads_or_status, reads_lift|intros eid].
    apply aon_bind_safe; [apply aon_or_status, aon_external|intros; audited].
    intros v. by repeat case_match.
  - unfold Management_DeleteEnvironmentValue.
    apply aon_bind_reads; [apply reads_or_status, reads_lift|intros eid].
    apply aon_bind_safe; [apply aon_or_status, aon_external|intros; audited]. done.
Qed.

(** ** Values come back *)

Lemma or_status_now {A} (m : IO A) code msg w a w' :
  m w = (Ok a, w') → or_status m code msg w = (Ok a, w').
Proof. intros H. unfold or_status, mbind, M_bind, attempt. by rewrite H. Qed.

Lemma or_status_Ok {A} (m : IO A) code msg w a w' :
  or_status m code msg w = (Ok a, w') → m w = (Ok a, w').
Proof.
  unfold or_status, mbind, M_bind, attempt. destruct (m w) as [[a'|e|p] w1]; [|done..].
  by intros [= -> ->].
Qed.

Lemma filter_upsert (P : EnvironmentValueRow → Prop) `{∀ v, Decision (P v)} row l :
  (∀ v, P v ↔ ev_EnvironmentID v = ev_EnvironmentID row ∧ ev_Key v = ev_Key row) →
  ∃ rest, filter P (upsert_value row l) = row :: rest.
Proof.
  intros HP. set (same := λ v, bool_decide (ev_EnvironmentID v = ev_EnvironmentID row) &&
                               bool_decide (ev_Key v = ev_Key row)).
  assert (Hsame : ∀ v, same v = true ↔ P v).
  { intros v. unfold same. by rewrite HP, andb_true_iff, !bool_decide_eq_true. }
  change (upsert_value row l) with
    (if existsb same l then (λ v, if same v then row else v) <$> l else l ++ [row]).
  clearbody same. assert (Hrow : P row) by by apply HP.
  destruct (existsb same l) eqn:E.
  - apply existsb_exists in E as (v & Hv & Hs). apply list_elem_of_In in Hv. clear -Hv Hs Hsame Hrow.
    induction l as [|x l IH]; [by apply elem_of_nil in Hv|]. rewrite fmap_cons, filter_cons.
    destruct (same x) eqn:Ex; [rewrite decide_True by done; by eexists|].
    rewrite decide_False by (rewrite <-Hsame; congruence).
    apply IH. by apply elem_of_cons in Hv as [->|Hv]; [congruence|].
  - rewrite filter_app, filter_none.
    + rewrite filter_cons, decide_True by done. by eexists.
    + intros v Hv Hp. apply Hsame in Hp. apply not_true_iff_false in E. apply E, existsb_exists.
      exists v. split; [by apply list_elem_of_In|done].
Qed.

Lemma filter_upsert_other (P : EnvironmentValueRow → Prop) `{∀ v, Decision (P v)} row l :
  (∀ v, P v → ¬ (ev_EnvironmentID v = ev_EnvironmentID row ∧ ev_Key v = ev_Key row)) →
  filter P (upsert_value row l) = filter P l.
Proof.
  intros HP. assert (Hrow : ¬ P row) by (intros Hr; by apply HP in Hr; apply Hr).
  unfold upsert_value. destruct (existsb _ l).
  - induction l as [|x l IH]; [done|]. rewrite fmap_cons, !filter_cons, IH.
    destruct (bool_decide _ && _) eqn:Ex; [|done].
    apply andb_true_iff in Ex as [E1%bool_decide_eq_true E2%bool_decide_eq_true].
    rewrite !decide_False; [done| |done]. intros Hx. by apply (HP x).
  - rewrite filter_app, filter_cons, decide_False, filter_nil by done. by rewrite app_nil_r.
Qed.

(** Every environment has its tenant. *)
Definition tenants_known (w : world) : Prop :=
  ∀ e, e ∈ environments (w_env w) → ∃ t, t ∈ tenants (w_env w) ∧ t_ID t = er_TenantID e.

Lemma single_found {A} (P : A → Prop) `{∀ x, Decision (P x)} (l : list A) :
  (∃ x, x ∈ l ∧ P x) → ∃ x, single (filter P l) = Ok x ∧ x ∈ l ∧ P x.
Proof.
  intros (x & Hx & Hp). assert (Hin : x ∈ filter P l) by by apply list_elem_of_filter.
  destruct (filter P l) as [|y k] eqn:E; [by apply elem_of_nil in Hin|]. exists y. split; [done|].
  assert (y ∈ filter P l) as [? ?]%list_elem_of_filter by (rewrite E; left). done.
Qed.

(** What a call finds of an environment's value when nothing fails. *)
Lemma GetEnvironmentValue_now environmentId envID key w v rest :
  w_faults w = [] → uuid_Parse environmentId = Ok envID → tenants_known w →
  (∃ e, e ∈ environments (w_env w) ∧ er_ID e = envID) →
  filter (λ v, ev_EnvironmentID v = envID ∧ ev_Key v = key) (environment_values (w_env w)) = v :: rest →
  ∃ r, Management_GetEnvironmentValue environmentId key w = (Ok r, w) ∧
    pv_Key r = ev_Key v ∧ pv_Value r = ev_Value v ∧ pv_Secret r = ev_Secret v.
Proof.
  intros Hf Hid Hk He Hv.
  destruct (single_found (λ e, er_ID e = envID) (environments (w_env w)) He) as (e & Hs & Hin & _).
  destruct (single_found (λ t, t_ID t = er_TenantID e) (tenants (w_env w)) (Hk e Hin)) as (t & Ht & _).
  unfold Management_GetEnvironmentValue, parse_id, not_found, GetEnvironmentValue, Get, GetTenant.
  unfold mbind at 1, M_bind at 1.
  rewrite (or_status_now _ _ _ w envID w) by (unfold lift; by rewrite Hid).
  unfold mbind at 1, M_bind at 1. erewrite or_status_now by (rewrite query_now by done; by rewrite Hv).
  unfold mbind at 1, M_bind at 1. erewrite or_status_now by (rewrite query_now by done; by rewrite Hs).
  unfold mbind at 1, M_bind at 1. erewrite or_status_now by (rewrite query_now by done; by rewrite Ht).
  eexists. split; [reflexivity|]. cbn. split_and!; [done| |done]. by rewrite andb_false_r.
Qed.

(** A value that was set comes back, in the form JSONB gives it and with its secret flag,
    and setting it changes what is read of no other key or environment; after it was deleted
    it is not found.  When no query fails, and every environment has its tenant. *)
Theorem SetEnvironmentValue_roundtrip msg w w' :
  w_faults w = [] → tenants_known w → Management_SetEnvironmentValue msg w = (Ok true, w') →
  (∃ r, Management_GetEnvironmentValue (se_EnvironmentId msg) (se_Key msg) w' = (Ok r, w') ∧
     pv_Key r = se_Key msg ∧ pv_Value r = jsonb_text (se_Value msg) ∧ pv_Secret r = se_Secret msg) ∧
  (∀ show envID key, uuid_Parse (se_EnvironmentId msg) ≠ Ok envID ∨ key ≠ se_Key msg →
     (GetEnvironmentValue show envID key w').1 = (GetEnvironmentValue show envID key w).1) ∧
  ∃ w'', Management_DeleteEnvironmentValue (se_EnvironmentId msg) (se_Key msg) w' = (Ok true, w'') ∧
    (Management_GetEnvironmentValue (se_EnvironmentId msg) (se_Key msg) w'').1 =
      Err (grpc_error "NotFound" "Environment not found").
Proof.
  intros Hf Hk H. unfold Management_SetEnvironmentValue in H.
  apply bind_Ok in H as (envID & w0 & Hid & H). apply or_status_Ok in Hid. injection Hid as Hid <-.
  apply bind_Ok in H as (u & w1 & Hset & H). apply or_status_Ok in Hset.
  unfold StoreValue_query in Hset. rewrite external_now in Hset by done. cbn [ev_Value ev_EnvironmentID] in Hset.
  destruct (jsonb_valid (se_Value msg)); cbn [negb] in Hset; [|done].
  destruct (existsb _ (environments (w_env w))) eqn:Ee; [|done]. injection Hset as <- <-.
  set (row := {| ev_EnvironmentID := envID |}) in H. set (w1 := set_w_env _ w) in H.
  assert (Hw' : w_env w' = w_env w1 ∧ w_faults w' = []).
  { unfold writeAudit, attempt, audit_Create, mbind, M_bind in H. rewrite exec_now in H by done.
    by injection H as <-. }
  destruct Hw' as [Hw' Hf'].
  assert (Hvals : environment_values (w_env w') = upsert_value row (environment_values (w_env w)))
    by by rewrite Hw'.
  assert (Henv : ∃ e, e ∈ environments (w_env w') ∧ er_ID e = envID).
  { apply existsb_exists in Ee as (e & He & Hd%bool_decide_eq_true). exists e. rewrite Hw'. cbn.
    split; [by apply list_elem_of_In|done]. }
  split_and!.
  - destruct (filter_upsert (λ v, ev_EnvironmentID v = envID ∧ ev_Key v = se_Key msg) row
      (environment_values (w_env w)) (λ v, reflexivity _)) as [rest Hrest].
    rewrite <-Hvals in Hrest.
    refine (GetEnvironmentValue_now _ envID _ w' row rest Hf' Hid _ Henv Hrest).
    intros e. rewrite Hw'. cbn. apply Hk.
  - intros show envID' key Hne. unfold GetEnvironmentValue. rewrite !query_now by done. cbn [fst].
    rewrite Hvals, filter_upsert_other; [done|]. intros v [<- <-] [E1 E2]. cbn in E1, E2.
    rewrite E1, E2 in Hne. by destruct Hne.
  - unfold Management_DeleteEnvironmentValue, parse_id, internal, writeAudit, attempt, audit_Create.
    unfold mbind at 1, M_bind at 1.
    rewrite (or_status_now _ _ _ w' envID w') by (unfold lift; by rewrite Hid).
    unfold mbind at 1, M_bind at 1. erewrite or_status_now by (unfold DeleteEnvironmentValue_query; by rewrite exec_now).
    unfold mbind, M_bind. rewrite exec_now by done. eexists. split; [reflexivity|].
    unfold Management_GetEnvironmentValue, parse_id, not_found. unfold mbind at 1, M_bind at 1.
    erewrite or_status_now by (unfold lift; by rewrite Hid).
    unfold mbind, M_bind, or_status, GetEnvironmentValue, attempt. unfold mbind, M_bind.
    rewrite query_now by done. cbn. by rewrite filter_none by (intros v [Hv _]%list_elem_of_filter; exact Hv).
Qed.
End management.

(** ** Examples *)

#[local] Instance example_postgres : Postgres := {| jsonb_text := id; jsonb_leb := λ _ _, true |}.
#[local] Abbreviation example_parse :=
  (λ s, if bool_decide (s = "seven") then Ok 7%N else Err (ErrString "invalid UUID")).
#[local] Abbreviation example_print := (λ _ : uuid, "seven").

Lemma manage_all_or_nothing_witness :
  ∃ w', manage example_print example_parse (λ _, true)
      (CallDeleteEnvironmentValue "eight" "url") example_world =
      (Err (grpc_error "InvalidArgument" "Invalid environment id"), w') ∧
    same_tables example_world w'.
Proof.
  destruct (manage example_print example_parse (λ _, true)
    (CallDeleteEnvironmentValue "eight" "url") example_world) as [o w'] eqn:E.
  destruct o as [[]|e|p]; [vm_compute in E; discriminate E| |vm_compute in E; discriminate E].
  exists w'. split; [vm_compute in E |- *; injection E as <- <-; reflexivity|].
  exact (manage_all_or_nothing _ _ _ _ _ _ _ E eq_refl).
Defined.

Lemma SetEnvironmentValue_roundtrip_witness :
  let msg := {| se_EnvironmentId := "seven"; se_Key := "url"; se_Value := "1"; se_Secret := true |} in
  ∃ w' r, Management_SetEnvironmentValue example_parse (λ _, true) msg example_world = (Ok true, w') ∧
    Management_GetEnvironmentValue example_print example_parse "seven" "url" w' = (Ok r, w') ∧
    pv_Value r = "1" ∧ pv_Secret r = true.
Proof.
  intros msg.
  destruct (Management_SetEnvironmentValue example_parse (λ _, true) msg example_world) as [o w'] eqn:E.
  destruct o as [b|e|p]; [|vm_compute in E; discriminate E..].
  destruct b; [|vm_compute in E; discriminate E].
  destruct (SetEnvironmentValue_roundtrip example_print example_parse (λ _, true) msg example_world w')
    as ((r & H1 & _ & H2 & H3) & _ & _).
  - reflexivity.
  - intros e ->%list_elem_of_singleton. eexists. split; [apply list_elem_of_singleton|]; reflexivity.
  - exact E.
  - exists w', r. split; [reflexivity|]. split; [exact H1|]. split; [exact H2|exact H3].
Defined.
