(* ===== verification/Receiver.v ===== *)
(** * internal/reconciler/receiver.go: status messages from the agents

    Helm statuses append to the deploy log, release inventories replace the
    environment's release rows in a transaction, health reports update the heartbeat,
    log messages append log lines.  The JSON of a message is decoded by a parameter
    ([MessageCodec]): encoding/json on the types of internal/message. *)

From S2P Require Export Environment.

(** internal/message/status.go *)
Inductive StatusType :=
  | StatusTypeKubernetesEvent
  | StatusTypeHelm
  | StatusTypeHelmReleases
  | StatusTypeHealth
  | StatusKubernetesNodes_deprecated
  | StatusTypeLog
  | StatusTypeOther (n : Z).

Definition StatusType_String (s : StatusType) : string :=
  match s with
  | StatusTypeKubernetesEvent => "kubernetes_event"
  | StatusTypeHelm => "helm"
  | StatusTypeHelmReleases => "helm_releases"
  | StatusTypeHealth => "health"
  | StatusTypeLog => "log"
  | _ => "unknown"
  end.

Record Status := {
  st_Tenant : string; st_Environment : string; st_Type : StatusType; st_Data : string;
}.
Record Helm := {
  h_DIID : uuid; h_Name : string; h_Version : string; h_RolloutStatus : DeployStatus;
  h_ConfigHash : string; h_Log : string; h_Error : string;
}.
Record Release := {
  rl_Name : string; rl_Version : string; rl_Status : string; rl_Revision : Z;
  rl_LastDeployed : time;
}.
Record HelmRelease := { hr_Created : time; hr_Releases : list Release }.
Record LogLine := { ll_Time : time; ll_Msg : string; ll_Kind : string }.
Record StatusLog := { sl_DIID : uuid; sl_Logs : list LogLine }.

Class MessageCodec := {
  decode_Helm : string → option Helm;
  decode_HelmRelease : string → option HelmRelease;
  decode_Health : string → option time;
  decode_StatusLog : string → option StatusLog;
}.

(** Go's conversion to int32 keeps the low 32 bits. *)
Definition to_int32 (z : Z) : Z :=
  let m := (z mod 2 ^ 32)%Z in if (m <? 2 ^ 31)%Z then m else (m - 2 ^ 32)%Z.

Section receiver.
Context `{codec : MessageCodec} (slackChannel : string).

Definition PostMessage (featureName : string) : IO unit :=
  exec (set_slack_posts (λ l, l ++ [(slackChannel, featureName)])).

(** [if errors.Is(err, pgx.ErrNoRows) { return nil }; return err] *)
Definition none_if_no_rows {A} (m : IO A) : IO (option A) :=
  r ← attempt m;
  match r with
  | inl a => mret (Some a)
  | inr e => if errors_is e ErrNoRows then mret None else fail e
  end.

Definition handlerHelm (status : Status) : IO unit :=
  match decode_Helm (st_Data status) with
  | None => mret tt
  | Some helmStatus =>
      deploy ← none_if_no_rows (LatestDeployByDIID (h_DIID helmStatus));
      match deploy with
      | None => mret tt
      | Some deploy =>
          env ← none_if_no_rows (Get (dl_EnvironmentID deploy));
          match env with
          | None => mret tt
          | Some env =>
              (if bool_decide (h_RolloutStatus helmStatus = DeployStatusFailed)
               then wrapping "getting tenant" (GetTenant (er_TenantID env)) ;;
                    attempt (PostMessage (dl_FeatureName deploy)) ;; mret tt
               else mret tt) ;;
              wrapping "appending deploy status"
                (AppendDeployStatus (h_DIID helmStatus) (dl_EnvironmentID deploy)
                   (dl_FeatureAssignmentID deploy) (dl_FeatureName deploy)
                   (dl_FeatureVersion deploy) (h_RolloutStatus helmStatus) (dl_Hash deploy))
          end
      end
  end.

(** The environment a message names.  Any error of the tenant lookup ends the
    handler without error; of the environment's only a missing row does. *)
Definition message_env (msg : Status) : IO (option EnvironmentRow) :=
  t ← attempt (GetTenantByName (st_Tenant msg));
  match t with
  | inr _ => mret None
  | inl t => none_if_no_rows (GetByName (t_ID t) (st_Environment msg))
  end.

Definition release_row (rel : Release) : ReleaseStatusRow :=
  {| rs_Version := rl_Version rel; rs_Status := rl_Status rel;
     rs_Revision := to_int32 (rl_Revision rel); rs_LastDeployed := rl_LastDeployed rel |}.

Definition releaseStatus (msg : Status) : IO unit :=
  match decode_HelmRelease (st_Data msg) with
  | None => mret tt
  | Some status =>
      env ← wrapping "getting environment id" (message_env msg);
      match env with
      | None => mret tt
      | Some env =>
          WithTx_undo rollback_but_rec (
            wrapping "deleting release status" (DeleteReleaseStatusesInEnvironment (er_ID env)) ;;
            for_each (λ rel, wrapping "creating release status"
              (SetReleaseStatus (er_ID env) (rl_Name rel) (release_row rel))) (hr_Releases status))
      end
  end.

Definition healthStatus (msg : Status) : IO unit :=
  match decode_Health (st_Data msg) with
  | None => mret tt
  | Some reportedAt =>
      env ← message_env msg;
      match env with
      | None => mret tt
      | Some env => Health_Set (er_ID env) reportedAt
      end
  end.

Definition logCreate (diid : uuid) (lines : list LogLine) : IO unit :=
  LogsCreate ((λ line, {| lg_DeployInstruction := diid; lg_Time := ll_Time line;
                          lg_Message := ll_Msg line; lg_Kind := ll_Kind line |}) <$> lines).

Definition handleStatusLog (msg : Status) : IO unit :=
  match decode_StatusLog (st_Data msg) with
  | None => mret tt
  | Some status => attempt (logCreate (sl_DIID status) (sl_Logs status)) ;; mret tt
  end.

Definition handler (msg : Status) : IO unit :=
  match st_Type msg with
  | StatusTypeHelm => handlerHelm msg
  | StatusTypeHelmReleases => releaseStatus msg
  | StatusTypeHealth => healthStatus msg
  | StatusTypeLog => handleStatusLog msg
  | _ => mret tt
  end.

(** ** What the handlers do *)

Lemma none_if_no_rows_Ok {A} (m : IO A) w a w' :
  none_if_no_rows m w = (Ok (Some a), w') → m w = (Ok a, w').
Proof.
  unfold none_if_no_rows. intros (r & w1 & Hr & H)%bind_Ok. apply attempt_Ok in Hr.
  destruct r as [a'|e]; [by injection H as <- <-|].
  destruct (errors_is e ErrNoRows); [by injection H|done].
Qed.

Lemma reads_none_if_no_rows {A} (m : IO A) : reads m → reads (none_if_no_rows m).
Proof.
  intros Hm. unfold none_if_no_rows. apply reads_bind; [by apply reads_attempt|].
  intros [a|e]; [apply reads_ret|]. destruct (errors_is e ErrNoRows);
    [apply reads_ret|apply reads_fail].
Qed.

Lemma reads_message_env msg : reads (message_env msg).
Proof.
  unfold message_env. apply reads_bind; [apply reads_attempt, reads_query|].
  intros [t|e]; [apply reads_none_if_no_rows, reads_query|apply reads_ret].
Qed.

(** The rows [LatestDeployByDIID] chooses from. *)
Lemma LatestDeployByDIID_Ok diid w r w' :
  LatestDeployByDIID diid w = (Ok r, w') →
  r ∈ deploy_log (w_rec w) ∧ dl_Diid r = diid ∧
  ∀ r', r' ∈ deploy_log (w_rec w) → dl_Diid r' = diid → newer r' r = false.
Proof.
  unfold LatestDeployByDIID. intros H.
  pose proof (query_value _ _ _ _ H (λ _, eq_refl)) as Hv. clear H. cbv beta in Hv.
  set (l := filter (λ r, dl_Diid r = diid) (deploy_log (w_rec w))) in *.
  destruct (deploy_newest_first l) as [|x xs] eqn:E; [done|]. injection Hv as ->.
  assert (Hs : StronglySorted (λ a b, negb (newer b a) = true) (r :: xs)).
  { rewrite <-E. apply isort_sorted.
    - intros x y. rewrite !negb_true_iff. destruct (newer y x) eqn:En; [right|by left].
      by apply newer_asym.
    - intros x y z. rewrite !negb_true_iff. intros H1 H2. by eapply newer_false_trans. }
  assert (Hin : ∀ x, x ∈ r :: xs ↔ x ∈ l).
  { intros x. rewrite <-E. apply elem_of_isort. }
  assert (Hr : r ∈ l) by (apply Hin; by left). apply list_elem_of_filter in Hr as [Hd Hr].
  split_and!; [done..|]. intros r' Hr' Hd'.
  assert (Hr'l : r' ∈ l) by by apply list_elem_of_filter.
  apply Hin, elem_of_cons in Hr'l as [->|Hr'l]; [apply newer_irrefl|].
  apply StronglySorted_inv in Hs as [_ Hs]. rewrite Forall_forall in Hs.
  apply Hs in Hr'l. by apply negb_true_iff in Hr'l.
Qed.

(** A helm status is recorded against the deploy it reports on: when the handler
    changes the deploy log at all, it appends one row with the reported identifier
    and status and the environment, assignment, feature, version and hash of the
    latest row of that deploy; and the new row becomes the current one. *)
Theorem handlerHelm_appends status w o w' :
  logs_wf w → handlerHelm status w = (o, w') →
  logs_wf w' ∧
  (deploy_log (w_rec w') = deploy_log (w_rec w) ∨
   ∃ helm r id,
     decode_Helm (st_Data status) = Some helm ∧ r ∈ deploy_log (w_rec w) ∧
     dl_Diid r = h_DIID helm ∧
     (∀ r', r' ∈ deploy_log (w_rec w) → dl_Diid r' = h_DIID helm → newer r' r = false) ∧
     let new := {| dl_id := id; dl_Diid := h_DIID helm; dl_EnvironmentID := dl_EnvironmentID r;
                   dl_FeatureAssignmentID := dl_FeatureAssignmentID r;
                   dl_FeatureName := dl_FeatureName r; dl_FeatureVersion := dl_FeatureVersion r;
                   dl_Status := h_RolloutStatus helm; dl_Hash := dl_Hash r; dl_Values := "{}";
                   dl_Created := w_now w |} in
     deploy_log (w_rec w') = deploy_log (w_rec w) ++ [new] ∧
     deploy_current (w_rec w') !! log_key r = Some new).
Proof.
  intros Hwf H. unfold handlerHelm in H.
  destruct (decode_Helm (st_Data status)) as [helm|];
    [|injection H as _ <-; split; [done|by left]].
  unfold mbind at 1, M_bind at 1 in H.
  destruct (none_if_no_rows (LatestDeployByDIID (h_DIID helm)) w) as [o1 w1] eqn:E1.
  pose proof (reads_none_if_no_rows _ (reads_query _) _ _ _ E1) as S1.
  assert (Hsame : ∀ w2, same_world w w2 → logs_wf w2 ∧ (deploy_log (w_rec w2) = deploy_log (w_rec w))).
  { intros w2 S. unfold same_world in S. rewrite S. split; [by apply logs_wf_faults|done]. }
  destruct o1 as [[r|]|e|p];
    [|injection H as _ <-; destruct (Hsame _ S1); split; [done|by left]..].
  apply none_if_no_rows_Ok, LatestDeployByDIID_Ok in E1 as (Hr & Hd & Hmax).
  unfold mbind at 1, M_bind at 1 in H.
  destruct (none_if_no_rows (Get (dl_EnvironmentID r)) w1) as [o2 w2] eqn:E2.
  pose proof (same_world_trans _ _ _ S1 (reads_none_if_no_rows _ (reads_query _) _ _ _ E2)) as S2.
  destruct o2 as [[env|]|e|p];
    [|injection H as _ <-; destruct (Hsame _ S2); split; [done|by left]..].
  unfold mbind at 1, M_bind at 1 in H.
  match type of H with context [match ?m w2 with _ => _ end] => destruct (m w2) as [o3 w3] eqn:E3 end.
  assert (S3 : w_rec w3 = w_rec w ∧ w_now w3 = w_now w).
  { rewrite <-(same_world_rec _ _ S2), <-(same_world_now _ _ S2). clear -E3.
    case_bool_decide; [|injection E3 as _ <-; by split].
    unfold wrapping, attempt, PostMessage, exec, external, mbind, M_bind in E3.
    destruct (GetTenant (er_TenantID env) w2) as [ot wt] eqn:Et.
    apply query_same in Et. destruct ot as [t| |]; cbn [wrap] in E3;
      [|injection E3 as _ <-; split; first [apply (same_world_rec _ _ Et)|apply (same_world_now _ _ Et)]..].
    destruct (next_fault wt) as [fl wf] eqn:Ef. apply next_fault_same in Ef.
    pose proof (same_world_trans _ _ _ Et Ef) as S.
    destruct fl as [[e|]|e|p]; cbn in E3; injection E3 as _ <-;
      split; first [exact (same_world_rec _ _ S)|exact (same_world_now _ _ S)]. }
  assert (Hwf3 : logs_wf w3).
  { destruct S3 as [R N]. destruct Hwf as [A1 A2 A3 A4 A5 A6]. by split; rewrite ?R, ?N. }
  destruct S3 as [R3 N3].
  destruct o3 as [[]|e|p]; [|injection H as _ <-; split; [done|left; by rewrite R3]..].
  unfold wrapping, AppendDeployStatus, exec, external, mbind, M_bind in H.
  destruct (next_fault w3) as [fl w4] eqn:E4. apply next_fault_same in E4.
  assert (Hwf4 : logs_wf w4) by (unfold same_world in E4; rewrite E4; by apply logs_wf_faults).
  pose proof (same_world_rec _ _ E4) as R4. pose proof (same_world_now _ _ E4) as N4.
  destruct fl as [[e|]|e|p]; cbn [wrap fail modify] in H; injection H as _ <-;
    try (split; [done|left; by rewrite R4, R3]).
  split; [by apply insert_deploy_wf|]. right. exists helm, r, (next_log_id (w_rec w4)).
  split_and!; [done..|]. cbn zeta. split.
  - unfold insert_deploy, deploy_of. simpl. by rewrite R4, R3, N4, N3.
  - rewrite insert_deploy_current by done. unfold deploy_of. simpl.
    rewrite lookup_insert_eq. by rewrite N4, N3.
Qed.

(** ** Release inventories *)

(** The rows an inventory leaves for an environment: the last release of each name. *)
Definition inventory (env : uuid) (rels : list Release) (m : gmap (N * string) ReleaseStatusRow)
    : gmap (N * string) ReleaseStatusRow :=
  foldl (λ m rel, <[(env, rl_Name rel) := release_row rel]> m) m rels.

Lemma set_releases_Ok env rels w w' :
  for_each (λ rel, wrapping "creating release status"
    (SetReleaseStatus env (rl_Name rel) (release_row rel))) rels w = (Ok tt, w') →
  release_statuses (w_rec w') = inventory env rels (release_statuses (w_rec w)).
Proof.
  revert w. induction rels as [|rel rels IH]; intros w; [by intros [= <-]|].
  intros H. apply bind_Ok in H as ([] & w1 & H1 & H). apply IH in H. rewrite H. clear H IH.
  unfold inventory. simpl. f_equal.
  apply wrapping_Ok, exec_Ok in H1 as (w2 & Hf & ->). apply next_fault_same in Hf.
  simpl. by rewrite (same_world_rec _ _ Hf).
Qed.

Lemma inventory_other env rels m e f : e ≠ env → inventory env rels m !! (e, f) = m !! (e, f).
Proof.
  intros He. unfold inventory. revert m. induction rels as [|rel rels IH]; intros m; [done|].
  simpl. rewrite IH. rewrite lookup_insert_ne by congruence. done.
Qed.

Lemma inventory_lookup env rels m f :
  inventory env rels m !! (env, f) =
  match last (filter (λ rel, rl_Name rel = f) rels) with
  | Some rel => Some (release_row rel)
  | None => m !! (env, f)
  end.
Proof.
  unfold inventory. induction rels as [|rel rels IH] using rev_ind; [done|].
  rewrite foldl_app, filter_app, filter_cons, filter_nil. cbn [foldl].
  destruct (decide (rl_Name rel = f)) as [<-|Hf].
  - by rewrite lookup_insert_eq, last_snoc.
  - rewrite lookup_insert_ne by congruence. by rewrite app_nil_r.
Qed.

(** [new] differs from [old] in one environment only, whose rows are exactly the
    releases given, the last one of each name. *)
Definition is_inventory (env : uuid) (rels : list Release)
    (old new : gmap (N * string) ReleaseStatusRow) : Prop :=
  ∀ e f, new !! (e, f) =
    if bool_decide (e = env) then release_row <$> last (filter (λ rel, rl_Name rel = f) rels)
    else old !! (e, f).

Lemma inventory_spec env rels m :
  is_inventory env rels m (inventory env rels (filter (λ kv, kv.1.1 ≠ env) m)).
Proof.
  intros e f. case_bool_decide as Hen.
  - subst e. rewrite inventory_lookup. destruct (last _); [done|].
    apply map_lookup_filter_None. right. intros x _ Hx. by apply Hx.
  - rewrite inventory_other by done. apply option_eq. intros r.
    rewrite map_lookup_filter_Some. simpl. tauto.
Qed.

(** Whatever the outcome, some first part of the releases was stored. *)
Lemma set_releases_some env rels w :
  ∃ k, release_statuses (w_rec (for_each (λ rel, wrapping "creating release status"
      (SetReleaseStatus env (rl_Name rel) (release_row rel))) rels w).2) =
    inventory env (take k rels) (release_statuses (w_rec w)).
Proof.
  revert w. induction rels as [|rel rels IH]; intros w; [by exists 0%nat|].
  cbn [for_each]. unfold mbind, M_bind.
  destruct (wrapping "creating release status" _ w) as [o w1] eqn:E.
  destruct (is_Ok o) eqn:Ho.
  - destruct o as [[]|e|p]; [|done..].
    apply wrapping_Ok, exec_Ok in E as (w2 & Hf & ->). apply next_fault_same in Hf.
    destruct (IH (set_w_rec (set_release_statuses (insert (env, rl_Name rel) (release_row rel))) w2))
      as [k Hk].
    exists (S k). rewrite Hk. cbn [w_rec set_w_rec release_statuses set_release_statuses].
    by rewrite (same_world_rec _ _ Hf).
  - exists 0%nat. cbn [take]. unfold inventory. cbn [foldl].
    assert (same_world w w1) as S.
    { unfold wrapping, SetReleaseStatus, exec, external, mbind, M_bind in E.
      destruct (next_fault w) as [[[e|]|e|p] w2] eqn:Ef; apply next_fault_same in Ef;
        injection E as <- <-; done. }
    destruct o as [[]|e|p]; [done|..]; cbn [snd]; by rewrite (same_world_rec _ _ S).
Qed.

(** A release report that succeeds replaces the inventory of its environment as a
    whole and leaves the others alone.  One that fails has changed nothing, or has
    replaced the inventory by some first part of the report: the receiver's
    statements do not run in the transaction it opens for them. *)
Theorem releaseStatus_replaces msg status env w w1 o w' :
  decode_HelmRelease (st_Data msg) = Some status →
  message_env msg w = (Ok (Some env), w1) →
  releaseStatus msg w = (o, w') →
  let old := release_statuses (w_rec w) in
  let new := release_statuses (w_rec w') in
  if is_Ok o then is_inventory (er_ID env) (hr_Releases status) old new
  else new = old ∨ ∃ k, is_inventory (er_ID env) (take k (hr_Releases status)) old new.
Proof.
  intros Hd He H. cbv zeta. pose proof (reads_message_env _ _ _ _ He) as S1.
  unfold releaseStatus in H. rewrite Hd in H. unfold mbind at 1, M_bind at 1 in H.
  unfold wrapping at 1 in H. rewrite He in H. cbn [wrap] in H.
  destruct (is_Ok o) eqn:Ho.
  - destruct o as [[]| |]; try done.
    apply WithTx_undo_Ok in H as (w2 & w3 & S2 & H & S3).
    apply bind_Ok in H as ([] & w4 & Hdel & H). apply set_releases_Ok in H.
    apply wrapping_Ok, exec_Ok in Hdel as (w5 & Hf & ->). apply next_fault_same in Hf.
    pose proof (same_world_trans _ _ _ S1 (same_world_trans _ _ _ S2 Hf)) as S5.
    rewrite (same_world_rec _ _ S3), H. cbn [w_rec set_w_rec release_statuses
      set_release_statuses]. rewrite (same_world_rec _ _ S5). apply inventory_spec.
  - apply WithTx_undo_failed in H as [S|(w2 & w3 & S2 & S3 & ->)]; [..|done].
    { left. by rewrite (same_world_rec _ _ (same_world_trans _ _ _ S1 S)). }
    cbn [rollback_but_rec set_w_rec w_rec]. rewrite (same_world_rec _ _ S3).
    rewrite <-(same_world_rec _ _ (same_world_trans _ _ _ S1 S2)).
    unfold mbind, M_bind.
    destruct (wrapping "deleting release status" _ w2) as [od w4] eqn:Ed.
    unfold wrapping, DeleteReleaseStatusesInEnvironment, exec, external, mbind, M_bind in Ed.
    destruct (next_fault w2) as [fl w5] eqn:Ef. apply next_fault_same in Ef.
    destruct fl as [[e|]|e|p]; injection Ed as <- <-; cbn [wrap snd];
      try (left; by rewrite (same_world_rec _ _ Ef)).
    right. match goal with |- context [for_each _ _ ?s] =>
      destruct (set_releases_some (er_ID env) (hr_Releases status) s) as [k Hk] end.
    exists k. rewrite Hk. cbn [w_rec set_w_rec release_statuses set_release_statuses].
    rewrite (same_world_rec _ _ Ef). apply inventory_spec.
Qed.
End receiver.

(** ** Witnesses: a codec that ignores the text *)

Definition example_message_codec : MessageCodec := {|
  decode_Helm _ := Some {| h_DIID := 9; h_Name := "app"; h_Version := "1.0.0";
    h_RolloutStatus := DeployStatusFailed; h_ConfigHash := "h"; h_Log := ""; h_Error := "" |};
  decode_HelmRelease _ := Some {| hr_Created := 90; hr_Releases :=
    [{| rl_Name := "app"; rl_Version := "1.0.0"; rl_Status := "deployed"; rl_Revision := 3;
        rl_LastDeployed := 80 |}] |};
  decode_Health _ := Some 90%Z;
  decode_StatusLog _ := None;
|}.

Definition example_status (t : StatusType) : Status :=
  {| st_Tenant := "nav"; st_Environment := "dev"; st_Type := t; st_Data := "" |}.

Lemma handlerHelm_appends_witness :
  ∃ w', handlerHelm (codec := example_message_codec) "#alerts" (example_status StatusTypeHelm)
      example_deployed = (Ok tt, w') ∧
    length (deploy_log (w_rec w')) = 2%nat ∧ logs_wf w'.
Proof.
  destruct (handlerHelm (codec := example_message_codec) "#alerts" (example_status StatusTypeHelm)
    example_deployed) as [[[]|e|p] w'] eqn:E; [|vm_compute in E; discriminate E..].
  exists w'. split; [reflexivity|].
  split; [vm_compute in E; injection E as <-; reflexivity|].
  apply (handlerHelm_appends (codec := example_message_codec) "#alerts"
    (example_status StatusTypeHelm) example_deployed (Ok tt) w'); [|exact E].
  apply insert_deploy_wf, example_world_wf.
Defined.

Lemma releaseStatus_replaces_witness :
  ∃ w', releaseStatus (codec := example_message_codec) (example_status StatusTypeHelmReleases)
      example_world = (Ok tt, w') ∧
    rs_Revision <$> release_statuses (w_rec w') !! (7%N, "app") = Some 3%Z.
Proof.
  destruct (releaseStatus (codec := example_message_codec) (example_status StatusTypeHelmReleases)
    example_world) as [[[]|e|p] w'] eqn:E; [|vm_compute in E; discriminate E..].
  exists w'. split; [reflexivity|].
  pose proof (releaseStatus_replaces (codec := example_message_codec)
    (example_status StatusTypeHelmReleases)) as H.
  eapply H in E; [|reflexivity|vm_compute; reflexivity]. cbv zeta in E. cbn [is_Ok] in E.
  rewrite (E 7%N "app"). reflexivity.
Defined.

(** The inventory is lost when storing the first release fails. *)
Theorem releaseStatus_loses_inventory :
  ∃ w w', releaseStatus (codec := example_message_codec) (example_status StatusTypeHelmReleases) w =
      (Err (ErrWrap "creating release status" (ErrString "timeout")), w') ∧
    size (release_statuses (w_rec w)) = 1%nat ∧ size (release_statuses (w_rec w')) = 0%nat.
Proof.
  exists (set_w_faults (λ _, [None; None; None; None; Some (ErrString "timeout")])
    (set_w_rec (set_release_statuses (λ _, {[ (7%N, "old") := {| rs_Version := "1";
       rs_Status := "deployed"; rs_Revision := 1; rs_LastDeployed := 0 |} ]})) example_world)).
  eexists. split_and!; vm_compute; reflexivity.
Qed.
