(* ===== verification/ConfigStore.v ===== *)
(** * internal/feature/queries_configurations.go and queries_disabled_features.go

    Writing configuration rows and disabling features, with the audit entries they
    leave.  Values are JSON text; JSONB gives stored text back in its own form
    ([jsonb_text]), and json.Marshal of a raw message ([Marshal_RawMessage]) is a
    parameter. *)

From S2P Require Export Receiver.

Class RawJson := { Marshal_RawMessage : string → outcome string }.

Section config.
Context `{pg : Postgres} `{raw : RawJson} (actor : string).

(** ** SQL (featuresql/configurations.sql.go) *)

Definition global_has (feature key : string) (g : ConfigurationsGlobal) : bool :=
  bool_decide (cg_Feature g = feature) && bool_decide (cg_Key g = key).
Definition env_has (env : uuid) (feature key : string) (e : ConfigurationsEnvironment) : bool :=
  bool_decide (ce_EnvironmentID e = env) && bool_decide (ce_Feature e = feature) &&
  bool_decide (ce_Key e = key).

Definition find_one {A} (p : A → bool) (l : list A) : outcome A :=
  match find p l with Some x => Ok x | None => Err ErrNoRows end.

Definition GetGlobalConfigByKey (feature key : string) : IO ConfigurationsGlobal :=
  query (λ w, find_one (global_has feature key) (configurations_global (w_feature w))).
Definition GetEnvConfigByKey (env : uuid) (feature key : string) : IO ConfigurationsEnvironment :=
  query (λ w, find_one (env_has env feature key) (configurations_environment (w_feature w))).
Definition GetGlobalConfigByID (id : uuid) : IO ConfigurationsGlobal :=
  query (λ w, find_one (λ g, bool_decide (cg_ID g = id)) (configurations_global (w_feature w))).
Definition GetEnvConfigByID (id : uuid) : IO ConfigurationsEnvironment :=
  query (λ w, find_one (λ e, bool_decide (ce_ID e = id)) (configurations_environment (w_feature w))).
Definition ListGlobalConfigByFeature (feature : string) : IO (list ConfigurationsGlobal) :=
  query (λ w, Ok (isort (λ a b, String.leb (cg_Key a) (cg_Key b))
    (filter (λ g, cg_Feature g = feature) (configurations_global (w_feature w))))).
Definition ListEnvConfigByFeature (feature : string) (env : uuid)
    : IO (list ConfigurationsEnvironment) :=
  query (λ w, Ok (isort (λ a b, String.leb (ce_Key a) (ce_Key b))
    (filter (λ e, ce_Feature e = feature ∧ ce_EnvironmentID e = env)
      (configurations_environment (w_feature w))))).

(** A conflict updates value and description only. *)
Definition revalue_global (value : string) (desc : option string) (g : ConfigurationsGlobal)
    : ConfigurationsGlobal :=
  {| cg_ID := cg_ID g; cg_Feature := cg_Feature g; cg_Key := cg_Key g;
     cg_Value := jsonb_text value; cg_Description := desc; cg_Secret := cg_Secret g;
     cg_Created := cg_Created g |}.
Definition revalue_env (value : string) (desc : option string) (e : ConfigurationsEnvironment)
    : ConfigurationsEnvironment :=
  {| ce_ID := ce_ID e; ce_Feature := ce_Feature e; ce_Key := ce_Key e;
     ce_Value := jsonb_text value; ce_Description := desc; ce_Secret := ce_Secret e;
     ce_Created := ce_Created e; ce_EnvironmentID := ce_EnvironmentID e |}.

(** [INSERT .. ON CONFLICT DO UPDATE .. RETURNING *] *)
Fixpoint upsert_row {A} (same : A → bool) (upd : A → A) (new : A) (l : list A) : list A * A :=
  match l with
  | [] => ([new], new)
  | x :: l =>
      if same x then (upd x :: l, upd x)
      else let (l', r) := upsert_row same upd new l in (x :: l', r)
  end.

Definition UpsertGlobalConfig (feature : string) (desc : option string) (secret : bool)
    (key value : string) : IO ConfigurationsGlobal :=
  id ← uuid_New;
  external (λ w,
    let new := {| cg_ID := id; cg_Feature := feature; cg_Key := key;
                  cg_Value := jsonb_text value; cg_Description := desc; cg_Secret := secret;
                  cg_Created := w_now w |} in
    let (l, r) := upsert_row (global_has feature key) (revalue_global value desc) new
                    (configurations_global (w_feature w)) in
    (Ok r, set_w_feature (set_configurations_global (λ _, l)) w)).

Definition UpsertEnvConfig (env : uuid) (feature : string) (desc : option string)
    (secret : bool) (key value : string) : IO ConfigurationsEnvironment :=
  id ← uuid_New;
  external (λ w,
    let new := {| ce_ID := id; ce_Feature := feature; ce_Key := key;
                  ce_Value := jsonb_text value; ce_Description := desc; ce_Secret := secret;
                  ce_Created := w_now w; ce_EnvironmentID := env |} in
    let (l, r) := upsert_row (env_has env feature key) (revalue_env value desc) new
                    (configurations_environment (w_feature w)) in
    (Ok r, set_w_feature (set_configurations_environment (λ _, l)) w)).

(** [UPDATE .. WHERE id = .. RETURNING *]: no row is [ErrNoRows]. *)
Definition UpdateGlobalConfig (id : uuid) (desc : option string) (value : string)
    : IO ConfigurationsGlobal :=
  external (λ w,
    let hit g := bool_decide (cg_ID g = id) in
    match find hit (configurations_global (w_feature w)) with
    | None => (Err ErrNoRows, w)
    | Some g => (Ok (revalue_global value desc g),
        set_w_feature (set_configurations_global
          (fmap (λ g, if hit g then revalue_global value desc g else g))) w)
    end).
Definition UpdateEnvConfig_query (id : uuid) (desc : option string) (value : string)
    : IO ConfigurationsEnvironment :=
  external (λ w,
    let hit e := bool_decide (ce_ID e = id) in
    match find hit (configurations_environment (w_feature w)) with
    | None => (Err ErrNoRows, w)
    | Some e => (Ok (revalue_env value desc e),
        set_w_feature (set_configurations_environment
          (fmap (λ e, if hit e then revalue_env value desc e else e))) w)
    end).
Definition DeleteGlobalConfig (id : uuid) : IO unit :=
  exec (set_w_feature (set_configurations_global (filter (λ g, cg_ID g ≠ id)))).
Definition DeleteEnvConfig_query (id : uuid) : IO unit :=
  exec (set_w_feature (set_configurations_environment (filter (λ e, ce_ID e ≠ id)))).

(** ** Configurations as the API shows them *)

Inductive ConfigSource := ConfigSourceEnv | ConfigSourceGlobal.
Record Configuration := {
  cf_ID : uuid; cf_Key : string; cf_Content : string; cf_Created : time; cf_Source : ConfigSource;
}.
Definition environmentConfigurationFromSQL (c : ConfigurationsEnvironment) : Configuration :=
  {| cf_ID := ce_ID c; cf_Key := ce_Key c; cf_Content := ce_Value c; cf_Created := ce_Created c;
     cf_Source := ConfigSourceEnv |}.
Definition globalConfigFromSQL (c : ConfigurationsGlobal) : Configuration :=
  {| cf_ID := cg_ID c; cf_Key := cg_Key c; cf_Content := cg_Value c; cf_Created := cg_Created c;
     cf_Source := ConfigSourceGlobal |}.

Definition merged_configuration (conf : MergedConfigRow) : Configuration :=
  {| cf_ID := m_ID conf; cf_Key := m_Key conf; cf_Content := m_Value conf;
     cf_Created := m_Created conf;
     cf_Source := match m_EnvironmentID conf with
                  | Some _ => ConfigSourceEnv | None => ConfigSourceGlobal end |}.

Definition GetEnvConfig (featureName : string) (envID : uuid) : IO (list Configuration) :=
  globalConfigs ← ListGlobalConfigByFeature featureName;
  envConfigs ← ListEnvConfigByFeature featureName envID;
  mret (merged_configuration <$> MergeConfigs globalConfigs envConfigs []).

Definition GetGlobalConfig (featureName : string) : IO (list Configuration) :=
  config ← ListGlobalConfigByFeature featureName;
  mret (globalConfigFromSQL <$> config).

(** ** Audit metadata *)

Record configAuditInfo := {
  ai_feature : string; ai_key : string; ai_envID : option uuid; ai_secret : bool;
  ai_oldVal : option string; ai_newVal : option string;
}.

(** A nil map becomes JSON null. *)
Definition configChangeMetadata (info : configAuditInfo) : gval :=
  if ai_secret info then VStrMap {[ "secret" := "true" ]}
  else
    let m : gmap string string := ∅ in
    let m := match ai_oldVal info with Some v => <["old" := v]> m | None => m end in
    let m := match ai_newVal info with Some v => <["new" := v]> m | None => m end in
    if bool_decide (m = ∅) then VNil else VStrMap m.

Definition config_audit (action feature key : string) (envID : option uuid)
    (info : configAuditInfo) : CreateParams :=
  {| cp_Action := action; cp_Description := ""; cp_ObjectType := "configuration";
     cp_ObjectID := feature +:+ ("/" +:+ key); cp_Feature := feature;
     cp_EnvironmentID := envID; cp_Metadata := Some (configChangeMetadata info) |}.

Definition writeConfigUpsertAudit (hadExisting : bool) (info : configAuditInfo) : IO unit :=
  audit_Create actor (config_audit (if hadExisting then "updated" else "created")
    (ai_feature info) (ai_key info) (ai_envID info) info).

Definition existingVal (existing : option string) : option string := existing.

Definition stringPtrEqual (a b : option string) : bool := bool_decide (a = b).

(** ** Operations

    [in_tx]: the caller has begun a transaction. *)

Record NewConfiguration := {
  nc_EnvironmentID : option uuid; nc_Feature : string; nc_Description : option string;
  nc_Key : string; nc_Value : string; nc_Secret : bool;
}.
Record UpdateConfiguration := { uc_Description : option string; uc_Value : string }.

Definition CreateEnvConfig (c : NewConfiguration) : IO Configuration :=
  value ← lift (Marshal_RawMessage (nc_Value c));
  match nc_EnvironmentID c with
  | None => lift (Panic "invalid memory address or nil pointer dereference")
  | Some env =>
      existing ← none_if_no_rows (GetEnvConfigByKey env (nc_Feature c) (nc_Key c));
      previousVal ←
        (match existing with
         | Some e => mret (Some (ce_Value e))
         | None =>
             global ← attempt (GetGlobalConfigByKey (nc_Feature c) (nc_Key c));
             mret (match global with inl g => Some (cg_Value g) | inr _ => None end)
         end : IO (option string));
      let write :=
        config ← UpsertEnvConfig env (nc_Feature c) (nc_Description c) (nc_Secret c) (nc_Key c) value;
        writeConfigUpsertAudit (bool_decide (is_Some existing))
          {| ai_feature := ce_Feature config; ai_key := ce_Key config;
             ai_envID := Some (ce_EnvironmentID config); ai_secret := nc_Secret c;
             ai_oldVal := previousVal; ai_newVal := Some value |} ;;
        mret (environmentConfigurationFromSQL config) in
      match existing with
      | Some e =>
          if bool_decide (ce_Value e = value) &&
             stringPtrEqual (ce_Description e) (nc_Description c) &&
             bool_decide (ce_Secret e = nc_Secret c)
          then mret (environmentConfigurationFromSQL e)
          else write
      | None => write
      end
  end.

Definition CreateGlobalConfig (c : NewConfiguration) : IO Configuration :=
  value ← lift (Marshal_RawMessage (nc_Value c));
  existing ← none_if_no_rows (GetGlobalConfigByKey (nc_Feature c) (nc_Key c));
  let write :=
    config ← UpsertGlobalConfig (nc_Feature c) (nc_Description c) (nc_Secret c) (nc_Key c) value;
    writeConfigUpsertAudit (bool_decide (is_Some existing))
      {| ai_feature := cg_Feature config; ai_key := cg_Key config; ai_envID := None;
         ai_secret := nc_Secret c; ai_oldVal := existingVal (cg_Value <$> existing);
         ai_newVal := Some value |} ;;
    mret (globalConfigFromSQL config) in
  match existing with
  | Some g =>
      if bool_decide (cg_Value g = value) &&
         stringPtrEqual (cg_Description g) (nc_Description c) &&
         bool_decide (cg_Secret g = nc_Secret c)
      then mret (globalConfigFromSQL g)
      else write
  | None => write
  end.

Definition UpdateConfig (in_tx : bool) (id : uuid) (c : UpdateConfiguration) : IO Configuration :=
  conf ← WithTx in_tx (
    conf ← GetGlobalConfigByID id;
    if bool_decide (cg_Value conf = uc_Value c) &&
       stringPtrEqual (cg_Description conf) (uc_Description c)
    then mret conf
    else
      let oldVal := cg_Value conf in
      conf ← UpdateGlobalConfig id (uc_Description c) (uc_Value c);
      audit_Create actor (config_audit "updated" (cg_Feature conf) (cg_Key conf) None
        {| ai_feature := ""; ai_key := ""; ai_envID := None; ai_secret := cg_Secret conf;
           ai_oldVal := Some oldVal; ai_newVal := Some (cg_Value conf) |}) ;;
      mret conf);
  mret (globalConfigFromSQL conf).

Definition DeleteConfig (in_tx : bool) (id : uuid) : IO unit :=
  WithTx in_tx (
    existing ← none_if_no_rows (GetGlobalConfigByID id);
    match existing with
    | None => mret tt
    | Some existing =>
        DeleteGlobalConfig id ;;
        audit_Create actor (config_audit "deleted" (cg_Feature existing) (cg_Key existing) None
          {| ai_feature := ""; ai_key := ""; ai_envID := None; ai_secret := cg_Secret existing;
             ai_oldVal := Some (cg_Value existing); ai_newVal := None |})
    end).

Definition UpdateEnvConfig (in_tx : bool) (id : uuid) (c : UpdateConfiguration) : IO Configuration :=
  conf ← WithTx in_tx (
    conf ← GetEnvConfigByID id;
    if bool_decide (ce_Value conf = uc_Value c) &&
       stringPtrEqual (ce_Description conf) (uc_Description c)
    then mret conf
    else
      let oldVal := ce_Value conf in
      conf ← UpdateEnvConfig_query id (uc_Description c) (uc_Value c);
      audit_Create actor (config_audit "updated" (ce_Feature conf) (ce_Key conf)
        (Some (ce_EnvironmentID conf))
        {| ai_feature := ""; ai_key := ""; ai_envID := None; ai_secret := ce_Secret conf;
           ai_oldVal := Some oldVal; ai_newVal := Some (ce_Value conf) |}) ;;
      mret conf);
  mret (environmentConfigurationFromSQL conf).

Definition DeleteEnvConfig (in_tx : bool) (id : uuid) : IO unit :=
  WithTx in_tx (
    existing ← none_if_no_rows (GetEnvConfigByID id);
    match existing with
    | None => mret tt
    | Some existing =>
        DeleteEnvConfig_query id ;;
        audit_Create actor (config_audit "deleted" (ce_Feature existing) (ce_Key existing)
          (Some (ce_EnvironmentID existing))
          {| ai_feature := ""; ai_key := ""; ai_envID := None; ai_secret := ce_Secret existing;
             ai_oldVal := Some (ce_Value existing); ai_newVal := None |})
    end).

(** ** Disabling features *)

Definition feature_audit (action description featureName : string) (envID : uuid) : CreateParams :=
  {| cp_Action := action; cp_Description := description; cp_ObjectType := "feature";
     cp_ObjectID := featureName; cp_Feature := featureName; cp_EnvironmentID := Some envID;
     cp_Metadata := None |}.

(** [ON CONFLICT DO NOTHING]: the first timestamp stays. *)
Definition SetDisabledFeature (envID : uuid) (featureName : string) : IO unit :=
  exec (λ w, set_w_feature (set_disabled_features (λ m,
    match m !! (envID, featureName) with
    | Some _ => m
    | None => <[(envID, featureName) := w_now w]> m
    end)) w).

Definition DisableFeature (envID : uuid) (featureName reason : string) : IO unit :=
  let reason := TrimSpace reason in
  if bool_decide (reason = "") then fail (ErrString "disable reason is required")
  else if (1000 <? String.length reason)%nat
  then fail (ErrString "disable reason must be at most 1000 chars")
  else
    WithTx false (
      SetDisabledFeature envID featureName ;;
      audit_Create actor (feature_audit "disabled" reason featureName envID)).

Definition EnableFeature (envID : uuid) (featureName : string) : IO unit :=
  WithTx false (
    exec (set_w_feature (set_disabled_features (delete (envID, featureName)))) ;;
    audit_Create actor (feature_audit "enabled" "" featureName envID)).

Definition GetFeatureDisabledAt (envID : uuid) (featureName : string) : IO (time * bool) :=
  row ← none_if_no_rows (query (λ w,
    match disabled_features (w_feature w) !! (envID, featureName) with
    | Some t => Ok t | None => Err ErrNoRows end));
  mret (match row with Some t => (t, true) | None => (time_zero, false) end).

Definition ListDisabledEnvironmentsForFeature (featureName : string) : IO (gmap N time) :=
  query (λ w, Ok (list_to_map ((λ kv, (kv.1.1, kv.2)) <$>
    filter (λ kv, kv.1.2 = featureName) (map_to_list (disabled_features (w_feature w)))))).

(** ** What they do *)

Lemma find_one_Ok {A} (p : A → bool) l x : find_one p l = Ok x ↔ find p l = Some x.
Proof. unfold find_one. destruct (find p l); split; by intros [= ->]. Qed.

Definition update_metadata (secret : bool) (old new : string) : gval :=
  if secret then VStrMap {[ "secret" := "true" ]} else VStrMap {[ "old" := old; "new" := new ]}.

Lemma configChangeMetadata_update f k e secret old new :
  configChangeMetadata {| ai_feature := f; ai_key := k; ai_envID := e; ai_secret := secret;
    ai_oldVal := Some old; ai_newVal := Some new |} = update_metadata secret old new.
Proof.
  unfold configChangeMetadata, update_metadata. simpl. destruct secret; [done|].
  rewrite bool_decide_eq_false_2 by apply insert_non_empty.
  rewrite insert_insert_ne by done. done.
Qed.

(** [UpdateConfig] is all or nothing: on error no table changes; on success the row
    with the identifier has the new value and description and every other row is as
    before, and exactly one audit entry is added unless nothing changed.  The entry
    of a secret row says only that it is secret; otherwise it has both values. *)
Theorem UpdateConfig_spec id c w o w' :
  UpdateConfig false id c w = (o, w') →
  if is_Ok o then
    ∃ g, find (λ g, bool_decide (cg_ID g = id)) (configurations_global (w_feature w)) = Some g ∧
    if bool_decide (cg_Value g = uc_Value c) && stringPtrEqual (cg_Description g) (uc_Description c)
    then w_feature w' = w_feature w ∧ audits w' = audits w
    else
      configurations_global (w_feature w') =
        ((λ g, if bool_decide (cg_ID g = id) then revalue_global (uc_Value c) (uc_Description c) g
               else g) <$> configurations_global (w_feature w)) ∧
      ∃ a, audits w' = audits w ++ [a] ∧
        au_Metadata a = Some (update_metadata (cg_Secret g) (cg_Value g) (jsonb_text (uc_Value c)))
  else w_feature w' = w_feature w ∧ audits w' = audits w.
Proof.
  unfold UpdateConfig. intros H. unfold mbind at 1, M_bind at 1 in H.
  destruct (WithTx false _ w) as [[conf|e|p] w1] eqn:E.
  2,3: injection H as <- <-; destruct (WithTx_atomic _ _ _ _ E eq_refl) as (_ & Hf & _ & Ha);
    done.
  injection H as <- <-. cbn [is_Ok]. apply WithTx_Ok in E as (w2 & w3 & S2 & H & S3).
  apply bind_Ok in H as (g & w4 & Hg & H).
  pose proof (query_same _ _ _ _ Hg) as S4.
  pose proof (query_value _ _ _ _ Hg (λ _, eq_refl)) as Hv. cbv beta in Hv.
  apply find_one_Ok in Hv. exists g.
  rewrite (same_world_feature _ _ S2) in Hv. split; [done|].
  pose proof (same_world_trans _ _ _ S2 S4) as S.
  assert (Aw : audits w4 = audits w) by (unfold same_world in S; by rewrite S).
  assert (A3 : audits w1 = audits w3) by (unfold same_world in S3; by rewrite S3).
  rewrite A3, (same_world_feature _ _ S3).
  destruct (bool_decide (cg_Value g = uc_Value c) &&
    stringPtrEqual (cg_Description g) (uc_Description c)).
  { injection H as <- <-. by rewrite (same_world_feature _ _ S). }
  apply bind_Ok in H as (g' & w5 & Hu & H).
  apply external_Ok in Hu as (w6 & S6 & Hu). cbn zeta in Hu.
  rewrite (same_world_feature _ _ S6), (same_world_feature _ _ S), Hv in Hu.
  injection Hu as <- <-.
  apply bind_Ok in H as (u & w7 & Ha & H). injection H as <- <-.
  apply audit_Create_Ok in Ha as (a & Ha & Hf & _ & _ & Hm & _).
  assert (A6 : audits w6 = audits w4) by (unfold same_world in S6; by rewrite S6).
  rewrite Hf, Ha. simpl. rewrite A6, Aw.
  split; [by rewrite (same_world_feature _ _ S6), (same_world_feature _ _ S)|].
  exists a. split; [done|]. rewrite Hm. simpl. by rewrite configChangeMetadata_update.
Qed.

Lemma DisableFeature_Ok envID featureName reason w w' :
  DisableFeature envID featureName reason w = (Ok tt, w') →
  (0 < String.length (TrimSpace reason) <= 1000)%nat ∧
  disabled_features (w_feature w') =
    <[(envID, featureName) := default (w_now w)
        (disabled_features (w_feature w) !! (envID, featureName))]>
      (disabled_features (w_feature w)) ∧
  ∃ a, audits w' = audits w ++ [a] ∧ au_Description a = TrimSpace reason ∧ au_Action a = "disabled".
Proof.
  unfold DisableFeature. intros H. case_bool_decide as Hr; [done|].
  destruct (1000 <? String.length (TrimSpace reason))%nat eqn:El; [done|]. apply Nat.ltb_ge in El.
  apply WithTx_Ok in H as (w1 & w2 & S1 & H & S2).
  apply bind_Ok in H as ([] & w3 & Hset & H).
  apply exec_Ok in Hset as (w4 & Hf & ->). apply next_fault_same in Hf.
  pose proof (same_world_trans _ _ _ S1 Hf) as S4.
  apply audit_Create_Ok in H as (a & Ha & Hfe & _ & _ & _ & Hac & Hde & _). split_and!.
  - destruct (TrimSpace reason); [done|simpl; lia].
  - done.
  - rewrite (same_world_feature _ _ S2), Hfe. simpl.
    rewrite (same_world_feature _ _ S4), (same_world_now _ _ S4).
    destruct (disabled_features (w_feature w) !! (envID, featureName)) eqn:E; simpl; [|done].
    by rewrite insert_id.
  - exists a. split; [|done]. unfold same_world in S2. rewrite S2. simpl. rewrite Ha. simpl.
    unfold same_world in S4. by rewrite S4.
Qed.

(** [DisableFeature] needs a reason of 1 to 1000 bytes and then marks the feature
    disabled since now, or since it first was, and records the trimmed reason, both
    or neither; [EnableFeature] undoes the mark.  What was just done is what
    [GetFeatureDisabledAt] then reports. *)
Theorem DisableFeature_spec envID featureName reason w o w' :
  DisableFeature envID featureName reason w = (o, w') →
  if is_Ok o then
    (0 < String.length (TrimSpace reason) <= 1000)%nat ∧
    disabled_features (w_feature w') =
      <[(envID, featureName) := default (w_now w)
          (disabled_features (w_feature w) !! (envID, featureName))]>
        (disabled_features (w_feature w)) ∧
    (∃ a, audits w' = audits w ++ [a] ∧ au_Description a = TrimSpace reason ∧
       au_Action a = "disabled") ∧
    ∀ w2 w3, EnableFeature envID featureName w' = (Ok tt, w2) →
      disabled_features (w_feature w2) =
        delete (envID, featureName) (disabled_features (w_feature w)) ∧
      (∀ r, GetFeatureDisabledAt envID featureName w2 = (Ok r, w3) → r = (time_zero, false))
  else w_feature w' = w_feature w ∧ audits w' = audits w.
Proof.
  intros H. destruct o as [[]|e|p]; cbn [is_Ok].
  2,3: unfold DisableFeature, fail in H; case_bool_decide; [by simplify_eq|];
    destruct (_ <? _)%nat; [by simplify_eq|];
    destruct (WithTx_atomic _ _ _ _ H eq_refl) as (_ & Hf & _ & Ha); by rewrite Hf, Ha.
  apply DisableFeature_Ok in H as (Hl & Hdis & Ha). do 3 (split; [done|]).
  intros w5 w6 He. apply WithTx_Ok in He as (w7 & w8 & S7 & He & S8).
  apply bind_Ok in He as ([] & w9 & Hdel & He).
  apply exec_Ok in Hdel as (w10 & Hf10 & ->). apply next_fault_same in Hf10.
  apply audit_Create_Ok in He as (_ & _ & Hfe' & _).
  assert (Hdel : disabled_features (w_feature w5) =
    delete (envID, featureName) (disabled_features (w_feature w))).
  { rewrite (same_world_feature _ _ S8), Hfe'. simpl.
    rewrite (same_world_feature _ _ (same_world_trans _ _ _ S7 Hf10)), Hdis.
    by rewrite delete_insert_eq. }
  split; [done|]. intros r Hget. unfold GetFeatureDisabledAt in Hget.
  apply bind_Ok in Hget as (row & w11 & Hq & Hret). injection Hret as <- _.
  destruct row as [t|]; [|done]. exfalso.
  apply none_if_no_rows_Ok in Hq.
  pose proof (query_value _ _ _ _ Hq (λ _, eq_refl)) as Hv. cbv beta in Hv.
  rewrite Hdel, lookup_delete_eq in Hv. done.
Qed.
End config.

(** ** Instances *)

Definition example_raw : RawJson := {| Marshal_RawMessage s := Ok s |}.

(** One global row and one secret row of environment 7, of feature app. *)
Definition example_configured : world :=
  set_w_feature (λ d, set_configurations_environment (λ _,
      [{| ce_ID := 22; ce_Feature := "app"; ce_Key := "password"; ce_Value := "hunter2";
          ce_Description := None; ce_Secret := true; ce_Created := 1; ce_EnvironmentID := 7 |}])
    (set_configurations_global (λ _,
      [{| cg_ID := 21; cg_Feature := "app"; cg_Key := "replicas"; cg_Value := "1";
          cg_Description := None; cg_Secret := false; cg_Created := 1 |}]) d)) example_world.

Lemma UpdateConfig_spec_witness :
  ∃ w', UpdateConfig (pg := example_pg) "me" false 21
      {| uc_Description := None; uc_Value := "2" |} example_configured =
      (Ok {| cf_ID := 21; cf_Key := "replicas"; cf_Content := "2"; cf_Created := 1;
             cf_Source := ConfigSourceGlobal |}, w') ∧
    ∃ a, audits w' = [a] ∧ au_Metadata a = Some (VStrMap {[ "old" := "1"; "new" := "2" ]}).
Proof.
  destruct (UpdateConfig (pg := example_pg) "me" false 21
      {| uc_Description := None; uc_Value := "2" |} example_configured) as [o w'] eqn:E.
  exists w'. pose proof E as E'. vm_compute in E'.
  destruct o as [c|e|p]; [|discriminate E'..].
  split. { injection E' as <- _. reflexivity. }
  destruct (UpdateConfig_spec (pg := example_pg) "me" 21 {| uc_Description := None; uc_Value := "2" |}
    example_configured (Ok c) w' E) as (g & Hg & H).
  vm_compute in Hg. injection Hg as <-.
  destruct H as (_ & a & Ha & Hm). exists a. split; [exact Ha|]. rewrite Hm. reflexivity.
Defined.

Lemma DisableFeature_spec_witness :
  ∃ w', DisableFeature "me" 7 "app" " flaky " example_world = (Ok tt, w') ∧
    disabled_features (w_feature w') = {[ (7%N, "app") := 100%Z ]}.
Proof.
  destruct (DisableFeature "me" 7 "app" " flaky " example_world) as [o w'] eqn:E.
  exists w'. pose proof E as E'. vm_compute in E'.
  destruct o as [[]|e|p]; [|discriminate E'..]. split; [reflexivity|].
  destruct (DisableFeature_spec "me" 7 "app" " flaky " example_world (Ok tt) w' E) as (_ & H & _).
  rewrite H. vm_compute. reflexivity.
Defined.

(** An upsert never changes [secret]: writing a secret row as not secret puts the old
    secret in the audit log, and again the next time, since the row stays secret. *)
Theorem CreateEnvConfig_leaks_secret :
  ∃ c w1 w2, CreateEnvConfig (pg := example_pg) (raw := example_raw) "me" c example_configured =
      (Ok {| cf_ID := 22; cf_Key := "password"; cf_Content := "x"; cf_Created := 1;
             cf_Source := ConfigSourceEnv |}, w1) ∧
    au_Metadata <$> audits w1 = [Some (VStrMap {[ "old" := "hunter2"; "new" := "x" ]})] ∧
    ce_Secret <$> configurations_environment (w_feature w1) = [true] ∧
    (CreateEnvConfig (pg := example_pg) (raw := example_raw) "me" c w1).2 = w2 ∧
    length (audits w2) = 2%nat.
Proof.
  eexists {| nc_EnvironmentID := Some 7%N; nc_Feature := "app"; nc_Description := None;
             nc_Key := "password"; nc_Value := "x"; nc_Secret := false |}, _, _.
  split; [vm_compute; reflexivity|]. split; [vm_compute; reflexivity|].
  split; [vm_compute; reflexivity|]. split; vm_compute; reflexivity.
Qed.

(** Enabling a feature that is not disabled is not a no-op: it leaves an audit entry. *)
Theorem EnableFeature_audits_no_op :
  ∃ w', EnableFeature "me" 7 "app" example_world = (Ok tt, w') ∧
    w_feature w' = w_feature example_world ∧ length (audits w') = 1%nat.
Proof. eexists. split_and!; vm_compute; reflexivity. Qed.
