(* ===== verification/AssignmentStore.v ===== *)
(** * internal/featureassignment and the feature data of internal/feature/queries.go

    Storing feature versions and assigning them to environments by label.  JSON
    encoding of the feature's parts ([FeatureEncoder]), downloading a chart and
    reading the feature out of it ([ChartDownloader], a variable of the source) are
    parameters. *)

From S2P Require Export ConfigStore Template.

(** encoding/json on the types of internal/feature/model.go, the types of configuration
    values as they are spelled. *)
Class FeatureEncoder := {
  encode_Dependencies : list Dependency → outcome string;
  json_Marshal_Values : Values → outcome string;
  encode_DefaultValues : gmap string string → outcome string;
  encode_Details : FeatureTemplateDetails → outcome string;
  encode_string : string → outcome string;
}.

(** The method MarshalJSON of ConfigType raises the case. *)
Definition encode_Values `{enc : FeatureEncoder} (vals : Values) : outcome string :=
  json_Marshal_Values (with_type ToUpper <$> vals).

Record GitHubCommit := { gh_Owner : string; gh_Repo : string; gh_Ref : string }.
Record CreateFeatureAssignment := {
  ca_Chart : string; ca_Version : string; ca_Description : option string;
  ca_Commit : option GitHubCommit; ca_Target : Labels;
}.

Definition ErrFeatureNotFound : error := ErrSentinel "feature not found".

Section assignments.
Context `{pg : Postgres} `{codec : FeatureCodec} `{enc : FeatureEncoder} `{tpl : TemplateParse}.

(** ** Feature data *)

Definition environmentKindToSQL (kinds : list EnvironmentKind) : list string :=
  sort_strings kinds.

(** The constraints of feature_data: the enum of kinds, the chart's form, the key. *)
Definition insert_feature_data (d : FeatureDatum) : IO unit :=
  external (λ w,
    if negb (forallb EnvironmentKind_IsValid (fd_Kinds d))
    then (Err (ErrPg "invalid input value for enum environment_kind"), w)
    else if negb (HasPrefix (fd_Chart d) "oci://" && (6 <? String.length (fd_Chart d))%nat)
    then (Err (ErrPg "violates check constraint feature_data_chart_check"), w)
    else if existsb (λ d', bool_decide (fd_Name d' = fd_Name d) &&
                           bool_decide (fd_Version d' = fd_Version d))
              (feature_data (w_feature w))
    then (Err ErrUniqueViolation, w)
    else (Ok tt, set_w_feature (set_feature_data (λ l, l ++ [d])) w)).

Definition CreateFeatureData (feat : Feature) (details : FeatureTemplateDetails) : IO unit :=
  dep ← lift (wrap "marshal dependencies to json" (encode_Dependencies (Dependencies (f_YAML feat))));
  vals ← lift (wrap "marshal values to json" (encode_Values (f_Values (f_YAML feat))));
  defaultVals ← lift (wrap "marshal default values to json" (encode_DefaultValues (f_ValuesYAML feat)));
  detailsBytes ← lift (wrap "marshal details to json" (encode_Details details));
  insert_feature_data
    {| fd_Name := f_Name feat; fd_Version := f_Version feat; fd_Chart := f_Chart feat;
       fd_Description := f_Description feat; fd_Source := f_Source feat;
       fd_Kinds := environmentKindToSQL (EnvironmentKinds (f_YAML feat));
       fd_Dependencies := jsonb_text dep; fd_Values := jsonb_text vals;
       fd_DefaultValues := jsonb_text defaultVals;
       fd_Timeout := Z.quot (Timeout (f_YAML feat)) Millisecond;
       fd_TplDetails := jsonb_text detailsBytes |}.

Definition makeFeatureYAML (fd : FeatureDatum) : outcome (FeatureYAML * gmap string string) :=
  let! deps := wrap "unmarshal dependencies" (decode_Dependencies (fd_Dependencies fd)) in
  let! defaults := wrap "unmarshal default values" (decode_DefaultValues (fd_DefaultValues fd)) in
  let! values := wrap "unmarshal values" (decode_Values (fd_Values fd)) in
  Ok ({| Dependencies := deps; EnvironmentKinds := fd_Kinds fd;
         Timeout := fd_Timeout fd * Millisecond; f_Values := values |}, defaults).

Definition featureFromSQL (f : FeatureDatum) : outcome Feature :=
  let! (fyaml, defaultValues) := wrap "make feature yaml" (makeFeatureYAML f) in
  Ok {| f_YAML := fyaml; f_Name := fd_Name f; f_Chart := fd_Chart f; f_Version := fd_Version f;
        f_Description := fd_Description f; f_Source := fd_Source f;
        f_ValuesYAML := defaultValues; f_SpecVersion := "v2"; f_TplDetails := fd_TplDetails f |}.

Definition featureAssignmentFromSQL (d : AssignmentRow) (fd : FeatureDatum)
    : outcome FeatureAssignment :=
  let! feature := wrap "make feature" (featureFromSQL fd) in
  Ok {| fa_ID := ar_ID d; fa_Feature := feature; fa_Description := ar_Description d;
        fa_TargetLabels := ar_Target d; fa_Created := ar_Created d; fa_Active := ar_Active d;
        fa_GHRef := ar_GhRef d; fa_FeatureDisabled := false |}.

Definition row_assignment (row : LatestAssignmentRow) : outcome FeatureAssignment :=
  wrap "make feature assignment" (featureAssignmentFromSQL (la_assignment row) (la_data row)).

(** ** Reads *)

(** [labels @> target] *)
Definition jsonb_contains (labels target : Labels) : bool :=
  forallb (λ kv, bool_decide (labels !! kv.1 = Some kv.2)) (map_to_list target).

(** The rows both per-environment queries choose from, before DISTINCT ON. *)
Definition matching_rows (w : world) (envID : uuid) : list LatestAssignmentRow :=
  concat ((λ a, concat ((λ e, if jsonb_contains (er_Labels e) (ar_Target a) then join_data w a else [])
               <$> filter (λ e, er_ID e = envID) (environments (w_env w))))
    <$> filter (λ a, ar_Active a = true) (feature_assignments (w_feature w))).

Definition distinct_rows : list LatestAssignmentRow → list LatestAssignmentRow :=
  λ rows, distinct_first (λ r, (ar_FeatureName (la_assignment r), ar_Target (la_assignment r))) []
    (isort latest_order rows).

Definition ListFeatureAssignmentsForEnvironment (envID : uuid)
    : IO (list (LatestAssignmentRow * bool)) :=
  query (λ w, Ok ((λ r, (r, bool_decide (is_Some (disabled_features (w_feature w) !!
      (envID, ar_FeatureName (la_assignment r)))))) <$> distinct_rows (matching_rows w envID))).

Definition ListFeatureAssignmentsForFeatureInEnvironment (envID : uuid) (featureName : string)
    : IO (list LatestAssignmentRow) :=
  query (λ w, Ok (distinct_rows
    (filter (λ r, ar_FeatureName (la_assignment r) = featureName) (matching_rows w envID)))).

Definition all_rows (w : world) : list LatestAssignmentRow :=
  concat (join_data w <$> feature_assignments (w_feature w)).

Definition GetFeatureAssignment_query (id : uuid) : IO LatestAssignmentRow :=
  query (λ w, single (filter (λ r, ar_ID (la_assignment r) = id) (all_rows w))).

Definition created_desc (a b : LatestAssignmentRow) : bool :=
  (ar_Created (la_assignment b) <=? ar_Created (la_assignment a))%Z.
Definition active_desc (a b : LatestAssignmentRow) : bool :=
  implb (ar_Active (la_assignment b)) (ar_Active (la_assignment a)).

Definition featureAssignmentsFromRows (rows : list (LatestAssignmentRow * bool))
    : outcome (list FeatureAssignment) :=
  omapM (λ row, let! dep := row_assignment row.1 in
    Ok {| fa_ID := fa_ID dep; fa_Feature := fa_Feature dep; fa_Description := fa_Description dep;
          fa_TargetLabels := fa_TargetLabels dep; fa_Created := fa_Created dep;
          fa_Active := fa_Active dep; fa_GHRef := fa_GHRef dep;
          fa_FeatureDisabled := row.2 |}) rows.

Definition ListForEnvironment (envID : uuid) : IO (list FeatureAssignment) :=
  rows ← wrapping "list feature assignments for environment"
    (ListFeatureAssignmentsForEnvironment envID);
  deps ← lift (featureAssignmentsFromRows rows);
  mret (fa_mostSpecificPerFeature deps).

Definition GetFeatureAssignment (id : uuid) : IO FeatureAssignment :=
  d ← wrapping "getting feature assignment from db" (GetFeatureAssignment_query id);
  lift (wrap "converting feature assignment from sql"
    (featureAssignmentFromSQL (la_assignment d) (la_data d))).

(** The best assignment of every (feature, target), active ones first, newest first. *)
Definition ListAll : IO (list FeatureAssignment) :=
  rows ← query (λ w,
    let best a := forallb (λ b, negb (bool_decide (ar_FeatureName b = ar_FeatureName a) &&
      bool_decide (ar_Target b = ar_Target a) &&
      (if eqb (ar_Active b) (ar_Active a) then (ar_Created a <? ar_Created b)%Z else ar_Active b)))
      (feature_assignments (w_feature w)) in
    Ok (isort created_desc (filter (λ r, best (la_assignment r) = true) (all_rows w))));
  lift (omapM row_assignment rows).

Definition ListByFeature (featureName : string) : IO (list FeatureAssignment) :=
  rows ← query (λ w, Ok (isort created_desc
    (filter (λ r, fd_Name (la_data r) = featureName ∧ ar_Active (la_assignment r) = true)
      (all_rows w))));
  lift (omapM row_assignment rows).

Definition ListAllByFeature (featureName : string) : IO (list FeatureAssignment) :=
  rows ← query (λ w, Ok (isort (then_by active_desc created_desc)
    (filter (λ r, fd_Name (la_data r) = featureName) (all_rows w))));
  lift (omapM row_assignment rows).

Definition HasActiveAssignments (featureName : string) : IO bool :=
  query (λ w, Ok (existsb (λ a, bool_decide (ar_FeatureName a = featureName) && ar_Active a)
    (feature_assignments (w_feature w)))).

Definition not_found (featureName suffix : string) : error :=
  ErrSuffix ErrFeatureNotFound (json_quote featureName +:+ suffix).

Definition mostSpecificAssignment (envID : uuid) (featureName : string) : IO FeatureAssignment :=
  rows ← wrapping ("query feature assignments for feature " +:+ json_quote featureName)
    (ListFeatureAssignmentsForFeatureInEnvironment envID featureName);
  match rows with
  | [] => fail (not_found featureName " in environment")
  | _ =>
      deps ← lift (omapM row_assignment rows);
      match fa_mostSpecificPerFeature deps with
      | [] => fail (not_found featureName " in environment after filtering")
      | winner :: _ => mret winner
      end
  end.

Definition WinningAssignment : uuid → string → IO FeatureAssignment := mostSpecificAssignment.

Definition FeatureForEnvironment (envID : uuid) (featureName : string) : IO Feature :=
  dep ← mostSpecificAssignment envID featureName; mret (fa_Feature dep).

(** ** Writes *)

Definition set_active (b : bool) (a : AssignmentRow) : AssignmentRow :=
  {| ar_ID := ar_ID a; ar_FeatureName := ar_FeatureName a; ar_Version := ar_Version a;
     ar_Target := ar_Target a; ar_Created := ar_Created a; ar_GhRef := ar_GhRef a;
     ar_Description := ar_Description a; ar_Active := b |}.

Definition active_for (featureName : string) (target : Labels) (a : AssignmentRow) : bool :=
  bool_decide (ar_FeatureName a = featureName) && bool_decide (ar_Target a = target) && ar_Active a.

(** [UPDATE .. SET active = FALSE WHERE ..]; two queries of the source have this text. *)
Definition deactivate_where (p : AssignmentRow → bool) : IO unit :=
  exec (set_w_feature (set_feature_assignments (fmap (λ a, if p a then set_active false a else a)))).

Definition DeactivateActiveFeatureAssignmentForTarget (featureName : string) (target : Labels) : IO unit :=
  deactivate_where (active_for featureName target).
Definition DeactivateFeatureAssignment (id : uuid) : IO unit :=
  deactivate_where (λ a, bool_decide (ar_ID a = id)).

(** The foreign key to feature_data and the partial unique index on
    (feature_name, target) of the active rows. *)
Definition CreateFeatureAssignment_query (featureName version : string) (target : Labels)
    (ghRef description : option string) : IO AssignmentRow :=
  id ← uuid_New;
  external (λ w,
    let row := {| ar_ID := id; ar_FeatureName := featureName; ar_Version := version;
                  ar_Target := target; ar_Created := w_now w; ar_GhRef := jsonb_text <$> ghRef;
                  ar_Description := description; ar_Active := true |} in
    if negb (existsb (λ d, bool_decide (fd_Name d = featureName) && bool_decide (fd_Version d = version))
               (feature_data (w_feature w)))
    then (Err (ErrPg "violates foreign key constraint"), w)
    else if existsb (active_for featureName target) (feature_assignments (w_feature w))
    then (Err ErrUniqueViolation, w)
    else (Ok row, set_w_feature (set_feature_assignments (λ l, l ++ [row])) w)).

(** The part of [createFeatureAssignment] before its transaction, up to the commit's
    JSON.  When the failure is not a PostgreSQL error the source wraps a nil pointer,
    which prints as [<nil>]. *)
Definition stored (feat : Feature) (githubRef : option GitHubCommit) : IO (option string) :=
  details ← lift (wrap "unable to parse feature template details"
    (ParseTemplateDetails (f_Values (f_YAML feat))));
  created ← attempt (CreateFeatureData feat details);
  (match created with
   | inl _ => mret tt
   | inr err =>
       match errors_as_pg err with
       | Some true => mret tt
       | Some false => fail (ErrWrap "unable to create feature data" err)
       | None => fail (ErrString "unable to create feature data: <nil>")
       end
   end : IO unit) ;;
  lift (match githubRef with
        | None => Ok None
        | Some c => fmap_ok Some (wrap "marshal gh ref" (encode_string (gh_Ref c)))
        end).

Definition createFeatureAssignment (feat : Feature) (description : option string)
    (githubRef : option GitHubCommit) (target : Labels) : IO uuid :=
  ghRef ← stored feat githubRef;
  assignment ← WithTx false (
    wrapping "deactivate previous assignment"
      (DeactivateActiveFeatureAssignmentForTarget (f_Name feat) target) ;;
    wrapping "unable to create feature assignment"
      (CreateFeatureAssignment_query (f_Name feat) (f_Version feat) target ghRef description));
  mret (ar_ID assignment).

Definition formatLabels (labels : Labels) : string :=
  if bool_decide (labels = ∅) then "all environments"
  else
    let keys := sort_strings (fst <$> map_to_list labels) in
    Join ((λ k, k +:+ ("=" +:+ default "" (labels !! k))) <$> keys) ", ".

Context (ChartDownloader : string → string → outcome Feature) (uuid_String : uuid → string)
  (actor : string).

Definition assignment_audit (action description objectID feature : string) (meta : gomap)
    : CreateParams :=
  {| cp_Action := action; cp_Description := description; cp_ObjectType := "assignment";
     cp_ObjectID := objectID; cp_Feature := feature; cp_EnvironmentID := None;
     cp_Metadata := Some (VMap meta) |}.

(** An error of the audit entry is dropped. *)
Definition Create (i : CreateFeatureAssignment) : IO (uuid * string) :=
  feat ← wrapping "unable to convert oci chart"
    (external (lift (ChartDownloader (ca_Chart i) (ca_Version i))));
  if bool_decide (f_Source feat = "") then fail (ErrString "no source url found in Chart.yaml")
  else
    id ← createFeatureAssignment feat (ca_Description i) (ca_Commit i) (ca_Target i);
    attempt (audit_Create actor (assignment_audit "created"
      ("version " +:+ (ca_Version i +:+ (" → " +:+ formatLabels (ca_Target i))))
      (f_Name feat) (f_Name feat)
      {[ "assignmentId" := VStr (uuid_String id); "chart" := VStr (ca_Chart i);
         "target" := VStrMap (ca_Target i) ]})) ;;
    mret (id, f_Name feat).

Definition Deactivate (featureAssignmentID : uuid) : IO string :=
  WithTx false (
    row ← none_if_no_rows (GetFeatureAssignment_query featureAssignmentID);
    let featureName := default "" (ar_FeatureName ∘ la_assignment <$> row) in
    let objectID := default (uuid_String featureAssignmentID)
      (ar_FeatureName ∘ la_assignment <$> row) in
    DeactivateFeatureAssignment featureAssignmentID ;;
    audit_Create actor (assignment_audit "deleted" "" objectID featureName
      {[ "assignmentId" := VStr (uuid_String featureAssignmentID) ]}) ;;
    mret featureName).

Definition DeactivateByFeatureAndTarget (featureName : string) (target : Labels) : IO unit :=
  WithTx false (
    DeactivateActiveFeatureAssignmentForTarget featureName target ;;
    audit_Create actor (assignment_audit "deleted" "" featureName ""
      {[ "target" := VStrMap target ]})).

(** ** At most one active assignment per feature and target *)

Definition target_key (a : AssignmentRow) : string * Labels := (ar_FeatureName a, ar_Target a).
Definition active_rows (l : list AssignmentRow) : list AssignmentRow :=
  filter (λ a, ar_Active a = true) l.
Definition assignments_wf (w : world) : Prop :=
  NoDup (target_key <$> active_rows (feature_assignments (w_feature w))).

Definition deactivated (p : AssignmentRow → bool) (l : list AssignmentRow) : list AssignmentRow :=
  (λ a, if p a then set_active false a else a) <$> l.

Lemma active_deactivated p l :
  active_rows (deactivated p l) = filter (λ a, p a = false) (active_rows l).
Proof.
  unfold active_rows, deactivated. induction l as [|a l IH]; [done|].
  rewrite fmap_cons, !filter_cons, IH. destruct (p a) eqn:E; cbn [set_active ar_Active].
  - rewrite decide_False by done. destruct (decide (ar_Active a = true)); [|done].
    rewrite filter_cons, decide_False by congruence. done.
  - destruct (decide (ar_Active a = true)); [|done]. rewrite filter_cons.
    by rewrite decide_True.
Qed.

Lemma deactivated_NoDup p l :
  NoDup (target_key <$> active_rows l) → NoDup (target_key <$> active_rows (deactivated p l)).
Proof. rewrite active_deactivated. apply NoDup_fmap_filter. Qed.

Lemma existsb_active_for n t l :
  existsb (active_for n t) l = false → (n, t) ∉ target_key <$> active_rows l.
Proof.
  intros He (a & Hk & [Ha Hin]%list_elem_of_filter)%list_elem_of_fmap.
  injection Hk as -> ->. apply not_true_iff_false in He. apply He, existsb_exists.
  exists a. split; [by apply list_elem_of_In|]. unfold active_for.
  by rewrite !bool_decide_eq_true_2, Ha.
Qed.

Lemma deactivate_where_Ok p w u w' :
  deactivate_where p w = (Ok u, w') →
  feature_assignments (w_feature w') = deactivated p (feature_assignments (w_feature w)) ∧
  feature_data (w_feature w') = feature_data (w_feature w).
Proof.
  intros (w1 & Hf & ->)%exec_Ok. apply next_fault_same in Hf. simpl.
  by rewrite (same_world_feature _ _ Hf).
Qed.

(** The row a successful insert adds, and that its constraints held. *)
Lemma CreateFeatureAssignment_query_Ok n v t gh desc w row w' :
  CreateFeatureAssignment_query n v t gh desc w = (Ok row, w') →
  feature_assignments (w_feature w') = feature_assignments (w_feature w) ++ [row] ∧
  existsb (active_for n t) (feature_assignments (w_feature w)) = false ∧
  target_key row = (n, t) ∧ ar_Active row = true ∧ ar_Version row = v ∧
  (∃ d, d ∈ feature_data (w_feature w') ∧ fd_Name d = n ∧ fd_Version d = v).
Proof.
  unfold CreateFeatureAssignment_query. intros (id & w1 & [= <- <-] & H)%bind_Ok.
  apply external_Ok in H as (w2 & S & H). cbv zeta in H.
  rewrite (same_world_feature _ _ S) in H. cbn [w_feature set_w_next_uuid] in H.
  destruct (existsb _ (feature_data _)) eqn:Ed; [|done]. cbn [negb] in H.
  destruct (existsb (active_for n t) _) eqn:Ea; [done|].
  injection H as <- <-. cbn [w_feature set_w_feature set_feature_assignments feature_assignments
    feature_data]. rewrite (same_world_feature _ _ S). split_and!; try done.
  apply existsb_exists in Ed as (d & Hd & Hk). exists d.
  apply andb_true_iff in Hk as [Hn Hv]. apply bool_decide_eq_true in Hn, Hv.
  split; [by apply list_elem_of_In|done].
Qed.

(** Storing feature data and reading do not touch the assignments. *)
Lemma CreateFeatureData_keeps L feat details :
  preserves (λ w, feature_assignments (w_feature w) = L) (CreateFeatureData feat details).
Proof.
  unfold CreateFeatureData, insert_feature_data.
  do 4 (apply preserves_bind; [apply preserves_lift|intros ?]).
  apply preserves_external; [done|]. intros w Hw.
  by repeat case_match; cbn [snd w_feature set_w_feature set_feature_data feature_assignments].
Qed.

Lemma stored_keeps L feat gh :
  preserves (λ w, feature_assignments (w_feature w) = L) (stored feat gh).
Proof.
  unfold stored. apply preserves_bind; [apply preserves_lift|intros details].
  apply preserves_bind; [apply preserves_attempt, CreateFeatureData_keeps|intros r].
  apply preserves_bind; [|intros _; apply preserves_lift].
  repeat case_match; first [apply preserves_ret|apply preserves_fail].
Qed.

Lemma createFeatureAssignment_failed feat desc gh target w o w' :
  createFeatureAssignment feat desc gh target w = (o, w') → is_Ok o = false →
  feature_assignments (w_feature w') = feature_assignments (w_feature w).
Proof.
  intros H Ho. unfold createFeatureAssignment in H.
  pose proof (stored_keeps _ feat gh w eq_refl) as Hk.
  apply bind_inv in H as [(o1 & H & _)|(r & w1 & Hs & H)]; [by rewrite H in Hk| |done].
  rewrite Hs in Hk. cbn [snd] in Hk.
  apply bind_inv in H as [(o1 & H & H1)|(a & w2 & _ & H)]; [| |done].
  - apply WithTx_atomic in H as (_ & Hf & _); [|done]. by rewrite Hf.
  - by injection H as <- <-.
Qed.

Lemma createFeatureAssignment_Ok feat desc gh target w id w' :
  createFeatureAssignment feat desc gh target w = (Ok id, w') →
  ∃ row, feature_assignments (w_feature w') =
      deactivated (active_for (f_Name feat) target) (feature_assignments (w_feature w)) ++ [row] ∧
    ar_ID row = id ∧ target_key row = (f_Name feat, target) ∧ ar_Version row = f_Version feat ∧
    ar_Active row = true ∧
    existsb (active_for (f_Name feat) target)
      (deactivated (active_for (f_Name feat) target) (feature_assignments (w_feature w))) = false ∧
    ∃ d, d ∈ feature_data (w_feature w') ∧ fd_Name d = f_Name feat ∧ fd_Version d = f_Version feat.
Proof.
  unfold createFeatureAssignment. intros (r & w1 & Hs & H)%bind_Ok.
  pose proof (stored_keeps _ feat gh w eq_refl) as Hk. rewrite Hs in Hk. cbn [snd] in Hk.
  apply bind_Ok in H as (row & w2 & H & [= <- <-]).
  apply WithTx_Ok in H as (w3 & w4 & S3 & H & S4).
  apply bind_Ok in H as (u & w5 & Hd & H). apply wrapping_Ok in Hd, H.
  apply deactivate_where_Ok in Hd as [Hd _].
  apply CreateFeatureAssignment_query_Ok in H as (Ha & He & Hkey & Hact & Hv & Hfd).
  rewrite (same_world_feature _ _ S3), Hk in Hd. rewrite Hd in Ha, He.
  exists row. rewrite (same_world_feature _ _ S4). by split_and!.
Qed.

Lemma attempt_audit_Ok email p w o w' : attempt (audit_Create email p) w = (o, w') → is_Ok o = true.
Proof.
  unfold attempt, audit_Create, exec, external, next_fault, mbind, M_bind.
  destruct (w_faults w) as [|[e|] fs]; by intros [= <- _].
Qed.

Lemma download_same i w o w' :
  wrapping "unable to convert oci chart"
    (external (lift (ChartDownloader (ca_Chart i) (ca_Version i)))) w = (o, w') →
  w_feature w' = w_feature w.
Proof.
  intros H. eapply same_world_feature, reads_wrapping; [|exact H].
  intros w0 o0 w0' H0. unfold external, mbind, M_bind in H0.
  destruct (next_fault w0) as [[[e|]|e|p] w1] eqn:E; apply next_fault_same in E;
    by injection H0 as <- <-.
Qed.

Lemma Create_failed i w o w' :
  Create i w = (o, w') → is_Ok o = false →
  feature_assignments (w_feature w') = feature_assignments (w_feature w).
Proof.
  intros H Ho. unfold Create in H.
  apply bind_inv in H as [(o1 & H & _)|(feat & w1 & Hd & H)]; [by rewrite (download_same _ _ _ _ H)| |done].
  rewrite <-(download_same _ _ _ _ Hd).
  case_bool_decide; [by injection H as _ <-|].
  apply bind_inv in H as [(o1 & H & H1)|(nid & w2 & _ & H)]; [| |done].
  - by apply createFeatureAssignment_failed in H.
  - apply bind_inv in H as [(o1 & H & H1)|(u & w3 & _ & H)]; [| |done].
    + apply attempt_audit_Ok in H. congruence.
    + by injection H as <- _.
Qed.

Lemma audit_attempt_feature email p w r w' :
  attempt (audit_Create email p) w = (Ok r, w') → w_feature w' = w_feature w.
Proof.
  unfold attempt, audit_Create, exec, external, next_fault, modify, mbind, M_bind.
  destruct (w_faults w) as [|[e|] fs]; by intros [= _ <-].
Qed.

(** C10.  [Create] keeps at most one active assignment per feature and target.  When it
    succeeds, the new assignment is the active one of its feature and target, a
    version of the feature is stored for it, the assignment that was active before is
    kept but inactive, and every other one is as before; when it fails, the
    assignments are as before. *)
Theorem Create_spec i w o w' :
  assignments_wf w → Create i w = (o, w') →
  assignments_wf w' ∧
  match o with
  | Ok (id, name) => ∃ row,
      feature_assignments (w_feature w') =
        deactivated (active_for name (ca_Target i)) (feature_assignments (w_feature w)) ++ [row] ∧
      ar_ID row = id ∧ ar_FeatureName row = name ∧ ar_Target row = ca_Target i ∧
      ar_Active row = true ∧
      ∃ d, d ∈ feature_data (w_feature w') ∧ fd_Name d = name ∧ fd_Version d = ar_Version row
  | _ => feature_assignments (w_feature w') = feature_assignments (w_feature w)
  end.
Proof.
  intros Hwf H. destruct (is_Ok o) eqn:Ho.
  2: { apply Create_failed in H; [|done]. unfold assignments_wf. rewrite H. by destruct o. }
  destruct o as [[id name]|e|p]; [|done..].
  apply bind_Ok in H as (feat & w1 & Hd & H). apply download_same in Hd.
  case_bool_decide; [done|].
  apply bind_Ok in H as (nid & w2 & Hc & H).
  apply bind_Ok in H as (u & w3 & Ha & [= <- <- <-]).
  apply audit_attempt_feature in Ha.
  apply createFeatureAssignment_Ok in Hc as (row & Hl & Hid & Hk & Hv & Hact & He & Hfd).
  unfold assignments_wf. rewrite Ha, Hl, Hd. injection Hk as Hn Ht. split.
  - unfold active_rows. rewrite filter_app, fmap_app. apply NoDup_app.
    rewrite filter_cons, decide_True by done.
    split; [by apply deactivated_NoDup|]. split; [|apply NoDup_singleton].
    intros k Hin ->%list_elem_of_singleton. unfold target_key in Hin. rewrite Hn, Ht in Hin.
    rewrite Hd in He. by apply existsb_active_for in He.
  - exists row. rewrite Hv. by split_and!.
Qed.

(** Deactivating keeps at most one active assignment per feature and target, and is
    all or nothing: it marks the assignment inactive and leaves one audit entry, or it
    changes nothing. *)
Theorem Deactivate_spec id w o w' :
  assignments_wf w → Deactivate id w = (o, w') →
  assignments_wf w' ∧
  match o with
  | Ok _ => feature_assignments (w_feature w') =
      deactivated (λ a, bool_decide (ar_ID a = id)) (feature_assignments (w_feature w)) ∧
      (∃ a, audits w' = audits w ++ [a]) ∧
      ∀ a, a ∈ feature_assignments (w_feature w') → ar_ID a = id → ar_Active a = false
  | _ => w_feature w' = w_feature w ∧ audits w' = audits w
  end.
Proof.
  intros Hwf H. unfold assignments_wf in *.
  destruct o as [n|e|p];
    [|destruct (WithTx_atomic _ _ _ _ H eq_refl) as (_ & Hf & _ & Ha); by rewrite Hf..].
  apply WithTx_Ok in H as (w1 & w2 & S1 & H & S2).
  apply reads_bind_Ok in H as (row & w3 & _ & S3 & H);
    [|unfold none_if_no_rows; solve_reads].
  apply bind_Ok in H as (u & w4 & Hd & H). apply bind_Ok in H as (u' & w5 & Ha & [= <- <-]).
  assert (A4 : audits w4 = audits w3).
  { apply exec_Ok in Hd as (wx & Hx & ->). apply next_fault_same in Hx.
    exact (audits_same _ _ Hx). }
  apply deactivate_where_Ok in Hd as [Hd _].
  apply audit_Create_Ok in Ha as (a & Ha & Hf & _).
  pose proof (same_world_trans _ _ _ S1 S3) as S.
  rewrite (same_world_feature _ _ S2), Hf, Hd, (same_world_feature _ _ S).
  split; [by apply deactivated_NoDup|]. split_and!; [done| |].
  - exists a. by rewrite (audits_same _ _ S2), Ha, A4, (audits_same _ _ S).
  - intros b (c & -> & Hc)%list_elem_of_fmap Hid. case_bool_decide as Hb; [done|].
    done.
Qed.
End assignments.

(** ** Instances *)

Definition example_encoder : FeatureEncoder :=
  {| encode_Dependencies _ := Ok "[]"; json_Marshal_Values _ := Ok "{}"; encode_DefaultValues _ := Ok "{}";
     encode_Details _ := Ok "{}"; encode_string s := Ok (json_quote s) |}.

Definition example_download (chart version : string) : outcome Feature :=
  Ok {| f_YAML := {| Dependencies := []; EnvironmentKinds := [EnvironmentKindTenant];
          Timeout := 0; f_Values := ∅ |};
        f_Name := "app"; f_Chart := chart; f_Version := version; f_Description := "";
        f_Source := "https://example.test/app"; f_ValuesYAML := ∅; f_SpecVersion := "v2";
        f_TplDetails := "{}" |}.

Definition example_assign : CreateFeatureAssignment :=
  {| ca_Chart := "oci://charts/app"; ca_Version := "2.0.0"; ca_Description := None;
     ca_Commit := None; ca_Target := {[ "kind" := "tenant" ]} |}.

Lemma example_world_assignments_wf : assignments_wf example_world.
Proof. apply NoDup_singleton. Qed.

Lemma Create_spec_witness :
  ∃ w', Create (pg := example_pg) (enc := example_encoder) (tpl := example_parse) example_download
      pretty "me" example_assign example_world = (Ok (1000%N, "app"), w') ∧
    (ar_ID <$> active_rows (feature_assignments (w_feature w'))) = [1000%N] ∧ assignments_wf w'.
Proof.
  destruct (Create (pg := example_pg) (enc := example_encoder) (tpl := example_parse)
    example_download pretty "me" example_assign example_world) as [o w'] eqn:E.
  exists w'. pose proof E as E'. vm_compute in E'.
  destruct o as [[id name]|e|p]; [|discriminate E'..].
  split. { injection E' as <- <- _. reflexivity. }
  destruct (Create_spec (pg := example_pg) (enc := example_encoder) (tpl := example_parse)
    example_download pretty "me" example_assign example_world _ w' example_world_assignments_wf E)
    as [Hwf _].
  split; [|exact Hwf]. injection E' as _ _ <-. reflexivity.
Defined.

Lemma Deactivate_spec_witness :
  ∃ w', Deactivate pretty "me" 1 example_world = (Ok "app", w') ∧
    active_rows (feature_assignments (w_feature w')) = [].
Proof.
  destruct (Deactivate pretty "me" 1 example_world) as [o w'] eqn:E.
  exists w'. pose proof E as E'. vm_compute in E'.
  destruct o as [n|e|p]; [|discriminate E'..].
  split. { injection E' as <- _. reflexivity. }
  destruct (Deactivate_spec pretty "me" 1 example_world _ w' example_world_assignments_wf E)
    as [_ (H & _ & _)].
  rewrite H. vm_compute. reflexivity.
Defined.
