(* ===== verification/Winning.v ===== *)
(** * The winning assignment of a feature in an environment

    The reconciler and the API choose it by different roads: the reconciler from the
    snapshot's assignments, matching labels in Go ([labelsContain]); the API from a
    query that matches them in SQL ([labels @> target]) and is restricted to one
    feature.  Here the two are shown to give the same assignment.  The order of JSONB
    values only has to be a total preorder. *)

From S2P Require Export AssignmentStore.

(** ** Filters, sorting and DISTINCT ON *)

Lemma distinct_first_filter {A K} `{EqDecision K} (key : A → K) (P : A → Prop)
    `{∀ x, Decision (P x)} l :
  (∀ x y, key x = key y → P x ↔ P y) → ∀ seen,
  filter P (distinct_first key seen l) = distinct_first key seen (filter P l).
Proof.
  intros HP. induction l as [|x l IH]; intros seen; simpl; [done|].
  case_bool_decide as Hx.
  { rewrite IH, filter_cons. destruct (decide (P x)); [|done]. simpl.
    by rewrite bool_decide_eq_true_2. }
  rewrite !filter_cons, IH. destruct (decide (P x)) as [Hp|Hp]; simpl.
  { by rewrite bool_decide_eq_false_2. }
  assert (Hne : ∀ y, y ∈ filter P l → key y ≠ key x).
  { intros y [Hy _]%list_elem_of_filter Hk. apply Hp. by apply (HP y). }
  clear IH. revert seen Hx. induction (filter P l) as [|y k IHk]; intros seen Hx; simpl; [done|].
  assert (Hy : key y ≠ key x) by (apply Hne; by left).
  rewrite (bool_decide_ext (key y ∈ key x :: seen) (key y ∈ seen)).
  2: { rewrite elem_of_cons. tauto. }
  assert (IHk' := λ s Hs, IHk (λ z Hz, Hne z (proj2 (elem_of_cons _ _ _) (or_intror Hz))) s Hs).
  case_bool_decide; [by apply IHk'|]. f_equal. rewrite <-(IHk' (key y :: seen)).
  - apply distinct_first_seen. intros z. rewrite !elem_of_cons. naive_solver.
  - by intros [?|?]%elem_of_cons.
Qed.

Lemma omapM_filter {A B} (f : A → outcome B) (P : A → Prop) (Q : B → Prop)
    `{∀ x, Decision (P x)} `{∀ x, Decision (Q x)} l k :
  (∀ a b, a ∈ l → f a = Ok b → P a ↔ Q b) →
  omapM f l = Ok k → omapM f (filter P l) = Ok (filter Q k).
Proof.
  rewrite !omapM_Forall2. intros HPQ H2. induction H2 as [|a b l k Hab H2 IH]; [constructor|].
  rewrite !filter_cons.
  assert (Hpq : P a ↔ Q b) by (apply HPQ; [by left|done]).
  assert (IH' : Forall2 (λ x y, f x = Ok y) (filter P l) (filter Q k)).
  { apply IH. intros ????. apply HPQ; [by right|done]. }
  destruct (decide (P a)), (decide (Q b)); try tauto. by constructor.
Qed.

(** The winner of a name depends on the assignments of that name only. *)
Lemma consider_filter {A} `{Targeted A} (deps : list A) k :
  foldl consider ∅ deps !! k = foldl consider ∅ (filter (λ d, t_name d = k) deps) !! k.
Proof.
  induction deps as [|d deps IH] using rev_ind; [done|].
  rewrite filter_app, !foldl_app. simpl. rewrite filter_cons.
  destruct (decide (t_name d = k)) as [<-|Hk]; simpl.
  - assert (Hm : ∀ m m' : gmap string A, m !! t_name d = m' !! t_name d →
      consider m d !! t_name d = consider m' d !! t_name d); [|by apply Hm].
    intros m m' Hm. unfold consider. rewrite Hm.
    destruct (m' !! t_name d) eqn:E; [case_match|]; by rewrite ?lookup_insert_eq, ?Hm.
  - by rewrite consider_other.
Qed.

Section winning.
Context `{ext : External} `{pg : Postgres} `{codec : FeatureCodec}
  (jsonb_total : ∀ x y, jsonb_leb x y = true ∨ jsonb_leb y x = true)
  (jsonb_trans : ∀ x y z, jsonb_leb x y = true → jsonb_leb y z = true → jsonb_leb x z = true).

Lemma latest_order_total x y : latest_order x y = true ∨ latest_order y x = true.
Proof.
  apply then_by_total; [intros; apply leb_total|intros; apply then_by_total]; auto.
  intros a b. destruct (Z.leb_spec (ar_Created (la_assignment b)) (ar_Created (la_assignment a)));
    [by left|right; apply Z.leb_le; lia].
Qed.

Lemma latest_order_trans x y z :
  latest_order x y = true → latest_order y z = true → latest_order x z = true.
Proof.
  apply then_by_trans; [intros a b c; apply leb_trans|intros a b c; apply then_by_trans; eauto].
  intros ???. rewrite !Z.leb_le. lia.
Qed.

(** ** The rows of both queries *)

Definition label_match (labels : Labels) (r : LatestAssignmentRow) : Prop :=
  jsonb_contains labels (ar_Target (la_assignment r)) = true.
#[local] Instance label_match_dec labels r : Decision (label_match labels r).
Proof. unfold label_match. apply _. Defined.

Lemma join_data_assignment w a r : r ∈ join_data w a →
  la_assignment r = a ∧ fd_Name (la_data r) = ar_FeatureName a ∧ fd_Version (la_data r) = ar_Version a.
Proof.
  unfold join_data. intros (d & -> & [[Hn Hv] _]%list_elem_of_filter)%list_elem_of_fmap.
  done.
Qed.

Lemma matching_rows_joined w envID r :
  r ∈ matching_rows w envID → fd_Name (la_data r) = ar_FeatureName (la_assignment r).
Proof.
  unfold matching_rows. rewrite elem_of_concat. intros (l1 & Hr & (a & -> & _)%list_elem_of_fmap).
  apply elem_of_concat in Hr as (l2 & Hr & (e & -> & _)%list_elem_of_fmap).
  destruct (jsonb_contains _ _); [|by apply elem_of_nil in Hr].
  by apply join_data_assignment in Hr as (-> & -> & _).
Qed.

Lemma row_assignment_name r fa : row_assignment r = Ok fa → f_Name (fa_Feature fa) = fd_Name (la_data r).
Proof.
  unfold row_assignment, featureAssignmentFromSQL, featureFromSQL. intros H%wrap_Ok.
  apply obind_Ok in H as (f & Hf%wrap_Ok & [= <-]).
  by apply obind_Ok in Hf as ([y dv] & _ & [= <-]).
Qed.

Lemma matching_rows_filter w e envID :
  filter (λ e, er_ID e = envID) (environments (w_env w)) = [e] →
  matching_rows w envID =
  filter (label_match (er_Labels e))
    (concat (join_data w <$> filter (λ a, ar_Active a = true) (feature_assignments (w_feature w)))).
Proof.
  intros He. unfold matching_rows. rewrite He.
  induction (filter (λ a, ar_Active a = true) _) as [|a l IH]; [done|].
  rewrite !fmap_cons. cbn [concat]. rewrite IH, filter_app. f_equal. cbn [list_fmap fmap concat].
  rewrite app_nil_r. destruct (jsonb_contains _ _) eqn:Ej.
  - symmetry. apply filter_all. intros r [Hr _]%join_data_assignment. unfold label_match.
    by rewrite Hr.
  - symmetry. apply filter_none. intros r [Hr _]%join_data_assignment. unfold label_match.
    rewrite Hr. congruence.
Qed.

(** The API's rows are the snapshot's, restricted to the feature and the labels. *)
Lemma distinct_rows_filter (P : LatestAssignmentRow → Prop) `{∀ r, Decision (P r)} rows :
  (∀ r r', ar_FeatureName (la_assignment r) = ar_FeatureName (la_assignment r') →
     ar_Target (la_assignment r) = ar_Target (la_assignment r') → P r ↔ P r') →
  distinct_rows (filter P rows) = filter P (distinct_rows rows).
Proof.
  intros HP. unfold distinct_rows.
  rewrite <-(isort_filter latest_order latest_order_total latest_order_trans).
  rewrite distinct_first_filter; [done|]. intros r r' [= Hn Ht]. by apply HP.
Qed.

Lemma elem_of_distinct_rows r rows : r ∈ distinct_rows rows → r ∈ rows.
Proof.
  unfold distinct_rows. intros [Hr _]%elem_of_distinct_first. by apply elem_of_isort in Hr.
Qed.

(** ** Reading a row either way gives the same assignment *)

Lemma row_agree r d fa :
  fd_Name (la_data r) = ar_FeatureName (la_assignment r) →
  fd_Version (la_data r) = ar_Version (la_assignment r) →
  assignmentFromRow r = Ok d → row_assignment r = Ok fa → as_reconcile fa = d.
Proof.
  unfold assignmentFromRow, row_assignment, featureAssignmentFromSQL, featureFromSQL,
    makeFeatureYAML. intros Hn Hv Hd Hfa.
  apply obind_Ok in Hd as (deps & Hdeps%wrap_Ok & Hd).
  apply obind_Ok in Hd as (vals & Hvals%wrap_Ok & Hd).
  apply obind_Ok in Hd as (defs & Hdefs%wrap_Ok & [= <-]).
  apply wrap_Ok in Hfa. apply obind_Ok in Hfa as (f & Hf%wrap_Ok & [= <-]).
  apply obind_Ok in Hf as ([y dv] & Hy%wrap_Ok & [= <-]).
  rewrite Hdeps, Hdefs, Hvals in Hy. injection Hy as <- <-.
  unfold as_reconcile. cbn. by rewrite Hn, Hv.
Qed.

Lemma jsonb_contains_labels labels target :
  (∀ k, target !! k ≠ Some "") → jsonb_contains labels target = labelsContain labels target.
Proof.
  intros Hne. unfold jsonb_contains, labelsContain.
  assert (H : ∀ kv, kv ∈ map_to_list target →
    bool_decide (labels !! kv.1 = Some kv.2) = bool_decide (default "" (labels !! kv.1) = kv.2)).
  { intros [k v] Hkv%elem_of_map_to_list. apply bool_decide_ext. cbn.
    destruct (labels !! k); cbn; [naive_solver|]. split; [done|]. intros <-. by destruct (Hne k). }
  induction (map_to_list target) as [|kv l IH]; [done|]. cbn [forallb].
  rewrite H by by left. f_equal. apply IH. intros. apply H. by right.
Qed.

(** ** The snapshot's assignments *)

Lemma fetchSnapshot_parts aud w snap w' :
  fetchSnapshot aud w = (Ok snap, w') →
  omapM assignmentFromRow (latest_assignments w) = Ok (s_assignments snap) ∧
  s_environments snap = environment_of <$> filter (λ e, te_Reconcile e = true) (tenant_environments w).
Proof.
  unfold fetchSnapshot. intros H.
  read_bind H envs He S1. read_bind H health Hh S2. read_bind H rows Hr S3.
  read_bind H deps Hd S4. read_bind H dis Hdis S5. read_bind H gc Hgc S6.
  read_bind H ec Hec S7. read_bind H vs Hvs S8. read_bind H ins Hins S9.
  read_bind H dep Hdep S10. injection H as <- _. cbn [s_assignments s_environments].
  apply wrapping_Ok, query_value in He, Hr; [|done..].
  injection He as <-. injection Hr as <-. injection Hd as Hd _.
  apply same_world_feature in S1, S2.
  unfold latest_assignments, join_data in Hd. rewrite S2, S1 in Hd. done.
Qed.

Lemma elem_of_tenant_environments w te :
  te ∈ tenant_environments w → ∃ e, e ∈ environments (w_env w) ∧
    te_ID te = er_ID e ∧ te_Labels te = er_Labels e.
Proof.
  unfold tenant_environments. rewrite elem_of_isort, elem_of_concat.
  intros (l & Hte & (e & -> & He)%list_elem_of_fmap).
  unfold join_tenant in Hte. apply list_elem_of_fmap in Hte as (t & -> & _). by exists e.
Qed.

Lemma filter_unique_id w e :
  NoDup (er_ID <$> environments (w_env w)) → e ∈ environments (w_env w) →
  filter (λ e', er_ID e' = er_ID e) (environments (w_env w)) = [e].
Proof.
  induction (environments (w_env w)) as [|x l IH]; [by intros _ ?%elem_of_nil|].
  rewrite fmap_cons, NoDup_cons, elem_of_cons. intros [Hx Hl] [->|He].
  - rewrite filter_cons, decide_True by done. f_equal. apply filter_none. intros y Hy Hid.
    apply Hx, list_elem_of_fmap. by exists y.
  - rewrite filter_cons, decide_False; [by apply IH|]. intros Hid. apply Hx.
    apply list_elem_of_fmap. by exists e.
Qed.

(** ** The two roads lead to one assignment *)

Lemma rows_joined w r : r ∈ latest_assignments w →
  la_assignment r ∈ feature_assignments (w_feature w) ∧
  fd_Name (la_data r) = ar_FeatureName (la_assignment r) ∧
  fd_Version (la_data r) = ar_Version (la_assignment r).
Proof.
  intros Hr. change (latest_assignments w) with (distinct_rows
    (concat (join_data w <$> filter (λ a, ar_Active a = true) (feature_assignments (w_feature w))))) in Hr.
  apply elem_of_distinct_rows, elem_of_concat in Hr as (l & Hr & (a & -> & Ha)%list_elem_of_fmap).
  apply list_elem_of_filter in Ha as [_ Ha].
  by apply join_data_assignment in Hr as (-> & ? & ?).
Qed.

Lemma winning_rows w e featureName :
  NoDup (er_ID <$> environments (w_env w)) → e ∈ environments (w_env w) →
  distinct_rows (filter (λ r, ar_FeatureName (la_assignment r) = featureName)
    (matching_rows w (er_ID e))) =
  filter (λ r, ar_FeatureName (la_assignment r) = featureName)
    (filter (label_match (er_Labels e)) (latest_assignments w)).
Proof.
  intros Hu He. rewrite (matching_rows_filter w e) by by apply filter_unique_id.
  rewrite distinct_rows_filter by by intros ?? ->.
  rewrite distinct_rows_filter; [done|]. unfold label_match. by intros ?? _ ->.
Qed.

Lemma matched_deps w e env featureName deps :
  (∀ a, a ∈ feature_assignments (w_feature w) → ∀ k, ar_Target a !! k ≠ Some "") →
  e_Labels env = er_Labels e →
  omapM assignmentFromRow (latest_assignments w) = Ok deps →
  omapM assignmentFromRow (filter (λ r, ar_FeatureName (la_assignment r) = featureName)
    (filter (label_match (er_Labels e)) (latest_assignments w))) =
  Ok (filter (λ d, t_name d = featureName) (matchAssignments deps env)).
Proof.
  intros Hne Hl Hd. unfold matchAssignments.
  assert (Hr : ∀ r d, assignmentFromRow r = Ok d →
    t_name d = ar_FeatureName (la_assignment r) ∧ ra_TargetLabels d = ar_Target (la_assignment r)).
  { intros r d H. unfold assignmentFromRow in H. inv_ok. done. }
  apply (omapM_filter _ _ (λ d, t_name d = featureName)).
  { intros r d _ Hrd. by destruct (Hr _ _ Hrd) as [-> _]. }
  apply omapM_filter; [|done]. intros r d Hin Hrd. destruct (Hr _ _ Hrd) as [_ ->].
  unfold label_match. rewrite Hl, jsonb_contains_labels; [done|].
  apply Hne. by apply rows_joined in Hin as [? _].
Qed.

Lemma deps_agree rows deps fas :
  (∀ r, r ∈ rows → fd_Name (la_data r) = ar_FeatureName (la_assignment r) ∧
     fd_Version (la_data r) = ar_Version (la_assignment r)) →
  omapM assignmentFromRow rows = Ok deps → omapM row_assignment rows = Ok fas →
  as_reconcile <$> fas = deps.
Proof.
  rewrite !omapM_Forall2. intros Hj Hd. revert fas.
  induction Hd as [|r d rows deps Hrd Hd IH]; intros fas Hf; inversion Hf; subst; [done|].
  rewrite fmap_cons. f_equal.
  - destruct (Hj r) as [Hn Hv]; [by left|]. by eapply row_agree.
  - apply IH; [|done]. intros r' Hr'. apply Hj. by right.
Qed.

Lemma pick_winners_fold {A} `{Targeted A} (deps : list A) x :
  x ∈ pick_winners deps ↔ foldl consider ∅ deps !! t_name x = Some x.
Proof.
  unfold pick_winners. rewrite elem_of_isort, elem_of_map_values. split; [|by eexists].
  intros [k Hk]. pose proof (consider_fold deps k) as Hc. rewrite Hk in Hc.
  by destruct Hc as (_ & -> & _).
Qed.

(** C5.  The assignment the API and the UI show as winning for a feature in an
    environment ([WinningAssignment]) is the one the reconciler deploys there: it is
    among the winners the reconciler computes from its snapshot of the same tables,
    and it is the only one of that feature.  It needs that no target label is the
    empty string, which Go and SQL match differently. *)
Theorem WinningAssignment_agrees aud w snap w1 env featureName fa w2 :
  NoDup (er_ID <$> environments (w_env w)) →
  (∀ a, a ∈ feature_assignments (w_feature w) → ∀ k, ar_Target a !! k ≠ Some "") →
  fetchSnapshot aud w = (Ok snap, w1) → env ∈ s_environments snap →
  WinningAssignment (e_ID env) featureName w = (Ok fa, w2) →
  let winners := mostSpecificPerFeature (matchAssignments (s_assignments snap) env) in
  as_reconcile fa ∈ winners ∧ f_Name (fa_Feature fa) = featureName ∧
  ∀ d, d ∈ winners → f_Name (ra_Feature d) = featureName → d = as_reconcile fa.
Proof.
  intros Hu Hne Hs Henv Hw. cbv zeta. apply fetchSnapshot_parts in Hs as [Hdeps Hse].
  rewrite Hse in Henv. apply list_elem_of_fmap in Henv as (te & -> & [_ Hte]%list_elem_of_filter).
  apply elem_of_tenant_environments in Hte as (e & He & Hid & Hl). cbn [environment_of e_ID] in Hw.
  unfold WinningAssignment, mostSpecificAssignment in Hw.
  read_bind Hw rows Hrows S1. apply wrapping_Ok, query_value in Hrows; [|done].
  injection Hrows as <-. rewrite Hid, (winning_rows w e featureName Hu He) in Hw.
  pose proof (matched_deps w e (environment_of te) featureName _ Hne Hl Hdeps) as Hm.
  set (rows := filter (λ r, ar_FeatureName (la_assignment r) = featureName) _) in *.
  destruct rows as [|r rows'] eqn:Er; [done|]. rewrite <-Er in *.
  read_bind Hw fas Hfas S2. injection Hfas as Hfas _.
  apply deps_agree with (deps := filter (λ d, t_name d = featureName)
    (matchAssignments (s_assignments snap) (environment_of te))) in Hfas; [|clear Hfas|done].
  2: { intros r' Hr'. unfold rows in Hr'.
       apply list_elem_of_filter in Hr' as [_ [_ Hr']%list_elem_of_filter].
       by apply rows_joined in Hr' as (_ & ? & ?). }
  destruct (fa_mostSpecificPerFeature fas) as [|winner ws] eqn:Ew; [done|].
  injection Hw as <- _.
  assert (Hin : winner ∈ pick_winners fas).
  { unfold fa_mostSpecificPerFeature in Ew. rewrite Ew. by left. }
  apply pick_winners_fold in Hin.
  assert (Hname : t_name winner = featureName).
  { pose proof (consider_fold fas (t_name winner)) as Hc. rewrite Hin in Hc.
    destruct Hc as (Hin' & _ & _).
    assert (as_reconcile winner ∈ as_reconcile <$> fas) as H by (apply list_elem_of_fmap; by exists winner).
    rewrite Hfas in H. by apply list_elem_of_filter in H as [? _]. }
  assert (Hr : as_reconcile winner ∈ mostSpecificPerFeature
    (matchAssignments (s_assignments snap) (environment_of te))).
  { apply pick_winners_fold. change (t_name (as_reconcile winner)) with (t_name winner).
    rewrite consider_filter, Hname, <-Hfas, consider_fmap, lookup_fmap, <-Hname, Hin. done. }
  split_and!; [done|done|]. intros d Hd Hdn.
  eapply (NoDup_fmap_inj_on t_name); [apply pick_winners_names|exact Hd|exact Hr|].
  by rewrite <-Hdn in Hname.
Qed.
End winning.

Lemma WinningAssignment_agrees_witness :
  ∃ snap fa w1 w2, fetchSnapshot (ext := echo) (pg := example_pg) (codec := example_codec) ""
      example_world = (Ok snap, w1) ∧
    WinningAssignment (pg := example_pg) (codec := example_codec) 7 "app" example_world = (Ok fa, w2) ∧
    ∃ env, as_reconcile fa ∈ mostSpecificPerFeature (matchAssignments (s_assignments snap) env).
Proof.
  destruct (fetchSnapshot (ext := echo) (pg := example_pg) (codec := example_codec) ""
    example_world) as [[snap|e|p] w1] eqn:E; [|vm_compute in E; discriminate E..].
  destruct (WinningAssignment (pg := example_pg) (codec := example_codec) 7 "app" example_world)
    as [[fa|e|p] w2] eqn:Ew; [|vm_compute in Ew; discriminate Ew..].
  exists snap, fa, w1, w2. split; [reflexivity|]. split; [reflexivity|].
  destruct (s_environments snap) as [|env envs] eqn:Ee;
    [vm_compute in E; injection E as <- _; discriminate Ee|].
  assert (Hid : e_ID env = 7%N).
  { vm_compute in E. injection E as <- _. injection Ee as <- _. reflexivity. }
  exists env. rewrite <-Hid in Ew.
  apply (WinningAssignment_agrees (ext := echo) (pg := example_pg) (codec := example_codec)
    (λ _ _, or_introl eq_refl) (λ _ _ _ _ _, eq_refl) "" example_world snap w1 env "app" fa w2);
    [apply NoDup_singleton| |exact E|rewrite Ee; left|exact Ew].
  intros a Ha k Hk. apply list_elem_of_singleton in Ha as ->. cbn in Hk.
  apply lookup_singleton_Some in Hk as [_ Hk]. discriminate Hk.
Defined.
