(* ===== verification/AuditTrail.v ===== *)
(** * internal/audit: reading the audit trail

    The queries of auditsql over the append-only table of audit entries, joined with the
    environment and tenant each entry names, the search with its terms, who created an
    assignment and why a feature was disabled.  Entries are written by the operations of
    [Environment], [ConfigStore], [AssignmentStore] and [Management]. *)

From S2P Require Export AssignmentStore ConfigStore.

(** What the code relies on of PostgreSQL: [lower], which ILIKE applies to both sides, and
    the text [->>] gives for a value that is not a string. *)
Class PostgresText := {
  pg_lower : string → string;
  jsonb_print : gval → string;
}.

(** ** LIKE *)

(** A continuation byte of UTF-8. *)
Definition continuation (c : ascii) : bool := (N.land (N_of_ascii c) 192 =? 128)%N.

(** The characters of a text in UTF-8. *)
Fixpoint utf8_chars (s : string) : list string :=
  match s with
  | EmptyString => []
  | String c s' =>
      match s' with
      | String d _ =>
          if continuation d then
            match utf8_chars s' with
            | ch :: chs => String c ch :: chs
            | [] => [String c EmptyString]
            end
          else String c EmptyString :: utf8_chars s'
      | EmptyString => [String c EmptyString]
      end
  end.

(** Patterns: [%] matches any characters, [_] one, a backslash takes the next literally. *)
Fixpoint like (p : list string) : list string → outcome bool :=
  match p with
  | [] => λ t, Ok (bool_decide (t = []))
  | c :: p' =>
      if bool_decide (c = "%") then
        fix any t :=
          let! here := like p' t in
          if here then Ok true else match t with [] => Ok false | _ :: t' => any t' end
      else if bool_decide (c = "_") then
        λ t, match t with [] => Ok false | _ :: t' => like p' t' end
      else if bool_decide (c = "\") then
        match p' with
        | [] => λ _, Err (ErrPg "LIKE pattern must not end with escape character")
        | d :: p'' => λ t, match t with
                           | [] => Ok false
                           | x :: t' => if bool_decide (x = d) then like p'' t' else Ok false
                           end
        end
      else λ t, match t with
                | [] => Ok false
                | x :: t' => if bool_decide (x = c) then like p' t' else Ok false
                end
  end.

Section audit.
Context `{txt : PostgresText}.

Definition ilike (text pattern : string) : outcome bool :=
  like (utf8_chars (pg_lower pattern)) (utf8_chars (pg_lower text)).

(** ** Rows *)

(** [metadata ->> key]; JSON null is NULL. *)
Definition jsonb_get_text (meta : option gval) (key : string) : option string :=
  match meta with
  | Some (VStrMap m) => m !! key
  | Some (VMap m) =>
      match m !! key with
      | Some VNil | None => None
      | Some (VStr s) => Some s
      | Some v => Some (jsonb_print v)
      end
  | _ => None
  end.

(** [LEFT JOIN]. *)
Definition left_join {A B} (matches : A → list B) (a : A) : list (A * option B) :=
  match matches a with
  | [] => [(a, None)]
  | bs => (λ b, (a, Some b)) <$> bs
  end.

Record AuditListRow := {
  al_audit : AuditRow; al_EnvironmentName : option string; al_TenantName : option string;
}.

Definition audit_environments (w : world) (a : AuditRow) : list EnvironmentRow :=
  filter (λ e, Some (er_ID e) = au_EnvironmentID a) (environments (w_env w)).
Definition row_tenants (w : world) (ae : AuditRow * option EnvironmentRow) : list TenantRow :=
  filter (λ t, Some (t_ID t) = (er_TenantID <$> ae.2)) (tenants (w_env w)).

(** [audits a LEFT JOIN environments e .. LEFT JOIN tenants t ..] *)
Definition joined_audits (w : world) : list AuditListRow :=
  audits w ≫= (λ a, left_join (audit_environments w) a ≫= (λ ae, left_join (row_tenants w) ae ≫= (λ aet,
    [{| al_audit := a; al_EnvironmentName := er_Name <$> ae.2; al_TenantName := t_Name <$> aet.2 |}]))).

Definition newer (a b : AuditListRow) : bool := (au_CreatedAt (al_audit b) <=? au_CreatedAt (al_audit a))%Z.

(** [LIMIT n] *)
Definition limited {A} (n : Z) (l : list A) : outcome (list A) :=
  if (n <? 0)%Z then Err (ErrPg "LIMIT must not be negative") else Ok (take (Z.to_nat n) l).

(** The rows of a query with a filter, newest first. *)
Definition list_audits (p : AuditListRow → bool) (pageSize : Z) : IO (list AuditListRow) :=
  query (λ w, limited pageSize (isort newer (filter (λ r, p r = true) (joined_audits w)))).

Definition of_feature (feature : string) (r : AuditListRow) : bool :=
  bool_decide (au_Feature (al_audit r) = feature).
Definition of_environment (envID : uuid) (r : AuditListRow) : bool :=
  bool_decide (au_EnvironmentID (al_audit r) = Some envID).
Definition of_type (objectType : string) (r : AuditListRow) : bool :=
  bool_decide (au_ObjectType (al_audit r) = objectType).

Definition ListForFeature_query (feature : string) : Z → IO (list AuditListRow) :=
  list_audits (of_feature feature).
Definition ListForEnvironment_query (envID : uuid) : Z → IO (list AuditListRow) :=
  list_audits (of_environment envID).
Definition ListForFeatureInEnvironment_query (feature : string) (envID : uuid) : Z → IO (list AuditListRow) :=
  list_audits (λ r, of_feature feature r && of_environment envID r).
Definition ListAssignmentsForFeature_query (feature : string) : Z → IO (list AuditListRow) :=
  list_audits (λ r, of_feature feature r && of_type "assignment" r).
Definition ListGlobalConfigForFeature_query (feature : string) : Z → IO (list AuditListRow) :=
  list_audits (λ r, of_feature feature r && of_type "configuration" r &&
                    bool_decide (au_EnvironmentID (al_audit r) = None)).
Definition ListRecent_query : Z → IO (list AuditListRow) := list_audits (λ _, true).

(** ** Search *)

(** [concat_ws(' ', ..)]: NULLs are left out. *)
Definition concat_ws (sep : string) (l : list (option string)) : string :=
  String.concat sep (omap id l).

(** What the page shows of an entry. *)
Definition search_text (r : AuditListRow) : string :=
  let a := al_audit r in
  concat_ws " " [
    Some (au_Action a);
    if bool_decide (au_ObjectType a = "assignment") && bool_decide (au_Action a ∈ ["redeploy"; "triggered"])
      then Some "redeployed" else None;
    Some (au_ObjectType a);
    if bool_decide (au_ObjectType a = "configuration") then Some "config"
      else if bool_decide (au_ObjectType a = "environment_value") then Some "env value" else None;
    Some (au_ObjectID a);
    Some (au_Feature a);
    t ← al_TenantName r; e ← al_EnvironmentName r; Some (t +:+ ("/" +:+ e));
    al_EnvironmentName r;
    al_TenantName r;
    if bool_decide (au_ObjectType a = "configuration") && bool_decide (au_EnvironmentID a = None)
      then Some "global" else None;
    Some (au_Actor a);
    Some (au_Description a);
    jsonb_get_text (au_Metadata a) "old";
    jsonb_get_text (au_Metadata a) "new"].

Definition term_matches (r : AuditListRow) (term : string) : outcome bool :=
  ilike (search_text r) ("%" +:+ (term +:+ "%")).

(** [NOT EXISTS (.. unnest(terms) term WHERE .. NOT ILIKE ..)] *)
Fixpoint all_terms (r : AuditListRow) (terms : list string) : outcome bool :=
  match terms with
  | [] => Ok true
  | term :: terms => let! b := term_matches r term in if b then all_terms r terms else Ok false
  end.

(** A condition that can fail, over the rows. *)
Fixpoint filter_ok {A} (p : A → outcome bool) (l : list A) : outcome (list A) :=
  match l with
  | [] => Ok []
  | x :: l => let! b := p x in let! k := filter_ok p l in Ok (if b then x :: k else k)
  end.

Definition SearchRecent_query (terms : list string) (pageSize : Z) : IO (list AuditListRow) :=
  query (λ w,
    let! rows := filter_ok (λ r, all_terms r terms) (joined_audits w) in
    limited pageSize (isort newer rows)).

(** ** internal/audit/queries.go *)

Record Entry := {
  en_Actor : string; en_Action : string; en_Description : string; en_ObjectType : string;
  en_ObjectID : string; en_EnvironmentID : option uuid; en_EnvironmentName : string;
  en_TenantName : string; en_CreatedAt : time; en_Metadata : option gval;
}.

Definition ptrOr (s : option string) : string := default "" s.

Definition entry (r : AuditListRow) : Entry :=
  let a := al_audit r in
  {| en_Actor := au_Actor a; en_Action := au_Action a; en_Description := au_Description a;
     en_ObjectType := au_ObjectType a; en_ObjectID := au_ObjectID a;
     en_EnvironmentID := au_EnvironmentID a; en_EnvironmentName := ptrOr (al_EnvironmentName r);
     en_TenantName := ptrOr (al_TenantName r); en_CreatedAt := au_CreatedAt a;
     en_Metadata := au_Metadata a |}.

Definition ListForFeature (feature : string) (limit : Z) : IO (list Entry) :=
  rows ← ListForFeature_query feature limit; mret (entry <$> rows).
Definition ListAssignmentsForFeature (feature : string) (limit : Z) : IO (list Entry) :=
  rows ← ListAssignmentsForFeature_query feature limit; mret (entry <$> rows).
Definition ListForFeatureInEnvironment (feature : string) (envID : uuid) (limit : Z) : IO (list Entry) :=
  rows ← ListForFeatureInEnvironment_query feature envID limit; mret (entry <$> rows).
Definition ListGlobalConfigForFeature (feature : string) (limit : Z) : IO (list Entry) :=
  rows ← ListGlobalConfigForFeature_query feature limit; mret (entry <$> rows).
Definition ListRecent (limit : Z) : IO (list Entry) :=
  rows ← ListRecent_query limit; mret (entry <$> rows).
Definition SearchRecent (terms : list string) (limit : Z) : IO (list Entry) :=
  rows ← SearchRecent_query terms limit; mret (entry <$> rows).

(** ** Who created an assignment, and why a feature was disabled *)

Definition created_of (ids : list string) (a : AuditRow) : option (string * string * time) :=
  if bool_decide (au_ObjectType a = "assignment") && bool_decide (au_Action a = "created") then
    id ← jsonb_get_text (au_Metadata a) "assignmentId";
    if bool_decide (id ∈ ids) then Some (id, au_Actor a, au_CreatedAt a) else None
  else None.

(** [SELECT DISTINCT ON (assignmentId) .. ORDER BY assignmentId, created_at] *)
Definition ListAssignmentCreators (ids : list string) : IO (list (string * string)) :=
  query (λ w, Ok (fst <$> distinct_first (λ r, r.1.1) []
    (isort (then_by (λ a b, String.leb a.1.1 b.1.1) (λ a b, (a.2 <=? b.2)%Z))
       (omap (created_of ids) (audits w))))).

Context (uuid_String : uuid → string) (uuid_Parse : string → outcome uuid).

Definition AssignmentCreators (assignmentIDs : list uuid) : IO (gmap N string) :=
  rows ← wrapping "list assignment creators" (ListAssignmentCreators (uuid_String <$> assignmentIDs));
  lift (ofold (λ creators row,
    let! id := wrap ("parse assignment ID " +:+ json_quote row.1) (uuid_Parse row.1) in
    Ok (<[id := row.2]> creators)) ∅ rows).

Definition LatestDisableReason_query (feature : string) (envID : uuid) : IO string :=
  query (λ w, single (au_Description <$>
    isort (λ a b, (au_CreatedAt b <=? au_CreatedAt a)%Z)
      (filter (λ a, au_Feature a = feature ∧ au_EnvironmentID a = Some envID ∧ au_Action a = "disabled")
         (audits w)))).

(** Any error gives no reason. *)
Definition LatestDisableReason (feature : string) (envID : uuid) : IO string :=
  r ← attempt (LatestDisableReason_query feature envID);
  mret (match r with inl desc => desc | inr _ => "" end).

(** ** LIKE finds substrings *)

(** [l] occurs in [t]. *)
Fixpoint occurs (l t : list string) : bool :=
  bool_decide (l `prefix_of` t) || match t with [] => false | _ :: t' => occurs l t' end.

Definition literal (c : string) : Prop := c ≠ "%" ∧ c ≠ "_" ∧ c ≠ "\".

Lemma like_percent p t :
  like ("%" :: p) t = let! here := like p t in
    if here then Ok true else match t with [] => Ok false | _ :: t' => like ("%" :: p) t' end.
Proof. by destruct t. Qed.

Lemma like_literal c p t :
  literal c → like (c :: p) t =
    match t with [] => Ok false | x :: t' => if bool_decide (x = c) then like p t' else Ok false end.
Proof. intros (H1 & H2 & H3). cbn [like]. by rewrite !bool_decide_eq_false_2. Qed.

Lemma like_rest t : like ["%"] t = Ok true.
Proof.
  induction t as [|x t IH]; [done|]. rewrite like_percent. cbn [like obind].
  by rewrite bool_decide_eq_false_2.
Qed.

Lemma like_prefix l t :
  Forall literal l → like (l ++ ["%"]) t = Ok (bool_decide (l `prefix_of` t)).
Proof.
  intros Hl. revert t. induction Hl as [|c l Hc _ IH]; intros t.
  { rewrite like_rest. by rewrite bool_decide_eq_true_2 by apply prefix_nil. }
  cbn [app]. rewrite like_literal by done. destruct t as [|x t].
  { rewrite bool_decide_eq_false_2; [done|]. by intros ?%prefix_nil_not. }
  case_bool_decide as E.
  - subst x. rewrite IH. f_equal. apply bool_decide_ext. split; [apply prefix_cons|apply prefix_cons_inv_2].
  - rewrite bool_decide_eq_false_2; [done|]. intros ?%prefix_cons_inv_1. congruence.
Qed.

Lemma like_contains l t : Forall literal l → like ("%" :: l ++ ["%"]) t = Ok (occurs l t).
Proof.
  intros Hl. induction t as [|x t IH]; rewrite like_percent, like_prefix by done; cbn [obind occurs];
    destruct (bool_decide _); try done. 
Qed.

(** A text that begins with a character. *)
Definition starts_char (s : string) : Prop :=
  match s with String c _ => continuation c = false | EmptyString => True end.

Lemma utf8_chars_cons c s : starts_char s → utf8_chars (String c s) = String c "" :: utf8_chars s.
Proof. destruct s as [|d s]; [done|]. cbn [starts_char]. intros H. cbn [utf8_chars]. by rewrite H. Qed.

Lemma utf8_chars_nonempty c s : utf8_chars (String c s) ≠ [].
Proof. cbn [utf8_chars]. by repeat case_match. Qed.

Lemma utf8_chars_snoc s c : continuation c = false → utf8_chars (s +:+ String c "") = utf8_chars s ++ [String c ""].
Proof.
  intros Hc. induction s as [|a s IH]; [done|]. destruct s as [|b s].
  { cbn. by rewrite Hc. }
  change (String a (String b s) +:+ String c "") with (String a (String b (s +:+ String c ""))).
  change (String b s +:+ String c "") with (String b (s +:+ String c "")) in IH.
  change (utf8_chars (String a (String b (s +:+ String c "")))) with
    (if continuation b then match utf8_chars (String b (s +:+ String c "")) with
       ch :: chs => String a ch :: chs | [] => [String a ""] end
     else String a "" :: utf8_chars (String b (s +:+ String c ""))).
  change (utf8_chars (String a (String b s))) with
    (if continuation b then match utf8_chars (String b s) with
       ch :: chs => String a ch :: chs | [] => [String a ""] end
     else String a "" :: utf8_chars (String b s)).
  rewrite IH. destruct (continuation b); [|done].
  pose proof (utf8_chars_nonempty b s). by destruct (utf8_chars (String b s)).
Qed.

(** A term that ILIKE takes literally: lowering it leaves the surrounding [%] alone, and
    no character of it is special. *)
Definition plain (term : string) : Prop :=
  pg_lower ("%" +:+ (term +:+ "%")) = "%" +:+ (pg_lower term +:+ "%") ∧
  starts_char (pg_lower term) ∧ Forall literal (utf8_chars (pg_lower term)).

(** The term occurs in the text, whatever their case. *)
Definition mentions (text term : string) : bool :=
  occurs (utf8_chars (pg_lower term)) (utf8_chars (pg_lower text)).

Lemma term_matches_plain r term : plain term → term_matches r term = Ok (mentions (search_text r) term).
Proof.
  intros (Hl & Hs & Hp). unfold term_matches, ilike, mentions. rewrite Hl.
  change ("%" +:+ (pg_lower term +:+ "%")) with (String "%" (pg_lower term +:+ "%")).
  rewrite utf8_chars_cons by (by destruct (pg_lower term)).
  change (pg_lower term +:+ "%") with (pg_lower term +:+ String "%" "").
  rewrite utf8_chars_snoc by done. by apply like_contains.
Qed.

Lemma all_terms_plain r terms :
  Forall plain terms → all_terms r terms = Ok (forallb (mentions (search_text r)) terms).
Proof.
  induction 1 as [|t terms Ht _ IH]; [done|]. cbn [all_terms forallb].
  rewrite term_matches_plain by done. cbn [obind]. by destruct (mentions _ _).
Qed.

Lemma filter_ok_total {A} (p : A → outcome bool) (q : A → bool) (l : list A) :
  (∀ x, p x = Ok (q x)) → filter_ok p l = Ok (filter (λ x, q x = true) l).
Proof.
  intros Hp. induction l as [|x l IH]; [done|]. cbn [filter_ok]. rewrite Hp, IH, filter_cons.
  cbn [obind]. destruct (q x); [by rewrite decide_True|by rewrite decide_False].
Qed.

(** ** Rows and order *)

Lemma left_join_fst {A B} (f : A → list B) (a : A) :
  (length (f a) <= 1)%nat → ∃ ob, left_join f a = [(a, ob)].
Proof.
  unfold left_join. destruct (f a) as [|b [|c l]]; cbn; [by eexists|by eexists|lia].
Qed.

Lemma filter_key_short {A} (key : A → N) (k : option N) (l : list A) :
  NoDup (key <$> l) → (length (filter (λ x, Some (key x) = k) l) <= 1)%nat.
Proof.
  induction l as [|x l IH]; [cbn; lia|]. rewrite fmap_cons, NoDup_cons, filter_cons. intros [Hx Hl].
  case_decide as E; [|by apply IH]. rewrite filter_none; [done|]. intros y Hy Hk. apply Hx.
  apply list_elem_of_fmap. exists y. split; [congruence|done].
Qed.

(** Identifiers are unique. *)
Definition ids_unique (w : world) : Prop :=
  NoDup (er_ID <$> environments (w_env w)) ∧ NoDup (t_ID <$> tenants (w_env w)).

(** Each entry is one row. *)
Lemma joined_audits_entries w : ids_unique w → al_audit <$> joined_audits w = audits w.
Proof.
  intros [He Ht]. unfold joined_audits. induction (audits w) as [|a l IH]; [done|].
  rewrite bind_cons, fmap_app, IH.
  destruct (left_join_fst (audit_environments w) a) as [oe ->]; [by apply filter_key_short|].
  destruct (left_join_fst (row_tenants w) (a, oe)) as [ot Ho]; [by apply filter_key_short|].
  cbn. by rewrite Ho.
Qed.

Lemma newer_audit_total a b : newer a b = true ∨ newer b a = true.
Proof. unfold newer. rewrite !Z.leb_le. lia. Qed.
Lemma newer_audit_trans a b c : newer a b = true → newer b c = true → newer a c = true.
Proof. unfold newer. rewrite !Z.leb_le. lia. Qed.

(** The first of the rows shown when there is room for them. *)
Lemma isort_first {A} (leb : A → A → bool) (l : list A) x :
  (∀ a b, leb a b = true ∨ leb b a = true) →
  (∀ a b c, leb a b = true → leb b c = true → leb a c = true) →
  x ∈ l → (∀ y, y ∈ l → y = x ∨ leb y x = false) → head (isort leb l) = Some x.
Proof.
  intros Htot Htrans Hx Hmax. pose proof (isort_sorted leb Htot Htrans l) as Hs.
  destruct (isort leb l) as [|y k] eqn:E.
  { apply (elem_of_isort leb) in Hx. rewrite E in Hx. by apply elem_of_nil in Hx. }
  cbn. f_equal. assert (y ∈ l) as Hy by (apply (elem_of_isort leb); rewrite E; left).
  destruct (Hmax y Hy) as [|Hlt]; [done|].
  apply (elem_of_isort leb) in Hx. rewrite E in Hx. apply elem_of_cons in Hx as [|Hx]; [done|].
  inversion Hs as [|? ? _ Hall]; subst. rewrite Forall_forall in Hall.
  rewrite (Hall x Hx) in Hlt. done.
Qed.

(** What a search returns when nothing fails. *)
Lemma SearchRecent_now terms limit w :
  w_faults w = [] → (0 <= limit)%Z → Forall plain terms →
  SearchRecent terms limit w =
    (Ok (entry <$> take (Z.to_nat limit) (isort newer
       (filter (λ r, forallb (mentions (search_text r)) terms = true) (joined_audits w)))), w).
Proof.
  intros Hf Hl Hp. unfold SearchRecent, SearchRecent_query, mbind, M_bind. rewrite query_now by done.
  rewrite (filter_ok_total _ (λ r, forallb (mentions (search_text r)) terms))
    by (intros r; by apply all_terms_plain). cbn [obind]. unfold limited.
  by rewrite (proj2 (Z.ltb_ge _ _)) by done.
Qed.

(** Searching the audit trail returns, of all entries ever written, exactly those in
    whose displayed text every term occurs whatever its case, newest first and at most
    [limit]; it reads no row twice and changes nothing.  For terms without characters that
    are special in LIKE. *)
Theorem SearchRecent_spec terms limit w :
  w_faults w = [] → ids_unique w → (0 <= limit)%Z → Forall plain terms →
  let found := filter (λ r, forallb (mentions (search_text r)) terms = true) (joined_audits w) in
  ∃ shown, SearchRecent terms limit w = (Ok (entry <$> shown), w) ∧
    al_audit <$> joined_audits w = audits w ∧
    (length shown <= Z.to_nat limit)%nat ∧
    StronglySorted (λ a b, newer a b = true) shown ∧
    ∃ hidden, found ≡ₚ shown ++ hidden ∧
      (hidden ≠ [] → length shown = Z.to_nat limit) ∧
      ∀ r r', r ∈ shown → r' ∈ hidden → newer r r' = true.
Proof.
  intros Hf Hids Hl Hp found. exists (take (Z.to_nat limit) (isort newer found)).
  pose proof (isort_sorted newer newer_audit_total newer_audit_trans found) as Hs.
  split_and!; [|by apply joined_audits_entries| | |].
  - by apply SearchRecent_now.
  - rewrite length_take. lia.
  - eapply StronglySorted_sublist; [apply sublist_take|exact Hs].
  - exists (drop (Z.to_nat limit) (isort newer found)). split_and!.
    + by rewrite take_drop, isort_perm.
    + intros Hd. rewrite length_take. enough (Z.to_nat limit < length (isort newer found))%nat by lia.
      apply Nat.nle_gt. intros Hle. by apply Hd, drop_ge.
    + intros r r' Hr Hr'. rewrite <-(take_drop (Z.to_nat limit) (isort newer found)) in Hs.
      exact (StronglySorted_app_1_elem_of _ _ _ _ _ Hs Hr Hr').
Qed.

(** ** What was recorded comes back *)

(** The reason a feature was disabled with is the one that is shown for it, without
    the spaces around it, also when it had been disabled before.  When the clock has moved
    since its last entry and no query fails. *)
Theorem disable_reason_shown actor envID featureName reason w w' :
  DisableFeature actor envID featureName reason w = (Ok tt, w') → w_faults w' = [] →
  (∀ a, a ∈ audits w → au_Action a = "disabled" → au_Feature a = featureName →
        au_EnvironmentID a = Some envID → (au_CreatedAt a < w_now w)%Z) →
  LatestDisableReason featureName envID w' = (Ok (TrimSpace reason), w').
Proof.
  unfold DisableFeature. intros H Hf Hold.
  case_bool_decide; [done|]. destruct (1000 <? String.length (TrimSpace reason))%nat; [done|].
  apply WithTx_Ok in H as (w1 & w2 & S1 & H & S2). apply bind_Ok in H as ([] & w3 & Hset & H).
  apply exec_Ok in Hset as (w4 & Hs & ->). apply next_fault_same in Hs.
  pose proof (same_world_trans _ _ _ S1 Hs) as S. unfold audit_Create in H.
  apply exec_Ok in H as (w5 & Hs5 & ->). apply next_fault_same in Hs5.
  set (row := {| au_Actor := _ |}) in S2.
  assert (Haud : audits w' = audits w ++ [row]).
  { rewrite (audits_same _ _ S2). cbn. rewrite (audits_same _ _ Hs5). cbn. by rewrite (audits_same _ _ S). }
  assert (Hnow : au_CreatedAt row = w_now w).
  { cbn. rewrite (same_world_now _ _ Hs5). cbn. by rewrite (same_world_now _ _ S). }
  assert (Hd : au_Description row = TrimSpace reason) by done.
  assert (Hm : au_Feature row = featureName ∧ au_EnvironmentID row = Some envID ∧ au_Action row = "disabled") by done.
  clearbody row. unfold LatestDisableReason, LatestDisableReason_query, mbind, M_bind, attempt.
  rewrite query_now by done. rewrite Haud, filter_app.
  rewrite (filter_cons _ row []), decide_True, filter_nil by done.
  match goal with |- context [isort ?leb ?l] => assert (Hh : head (isort leb l) = Some row) end.
  { apply isort_first; try (intros; rewrite ?Z.leb_le in *; lia).
    - apply elem_of_app. right. by left.
    - intros y Hy. apply elem_of_app in Hy as [[Hy Hin]%list_elem_of_filter|Hy];
        [right|left; by apply list_elem_of_singleton].
      apply Z.leb_gt. rewrite Hnow. apply Hold; naive_solver. }
  destruct (isort _ _) as [|z k]; cbn in Hh; [done|]. injection Hh as ->. cbn. by rewrite Hd.
Qed.

(** Nothing fails, and no audit entry was written. *)
Definition quiet (l : list AuditRow) (w : world) : Prop := w_faults w = [] ∧ audits w = l.

Lemma quiet_external l {A} (m : IO A) : preserves (quiet l) m → preserves (quiet l) (external m).
Proof. intros Hm w Hw. rewrite external_now by apply Hw. by apply Hm. Qed.
Lemma quiet_exec l f : (∀ w, quiet l w → quiet l (f w)) → preserves (quiet l) (exec f).
Proof. intros Hf. by apply quiet_external, preserves_modify. Qed.
Lemma quiet_query l {A} (f : world → outcome A) : preserves (quiet l) (query f).
Proof. apply quiet_external. by intros w Hw. Qed.
Lemma quiet_WithTx l {A} (m : IO A) : preserves (quiet l) m → preserves (quiet l) (WithTx false m).
Proof.
  intros Hm. unfold WithTx, WithTx_undo.
  assert (Hr : ∀ p, preserves (quiet l) (wrapping p (external (mret tt)))).
  { intros p. apply preserves_wrapping, quiet_external, preserves_ret. }
  apply preserves_bind; [done|intros _]. apply preserves_transaction.
  - apply preserves_bind; [done|intros a]. apply preserves_bind; [done|intros _]. apply preserves_ret.
  - intros v v' [_ Hv] [Hv' _]. by split.
Qed.
End audit.

Section creators.
Context `{pg : Postgres} `{enc : FeatureEncoder} `{tpl : TemplateParse} `{txt : PostgresText}.
Context (ChartDownloader : string → string → outcome Feature)
  (uuid_String : uuid → string) (uuid_Parse : string → outcome uuid).

Lemma quiet_createFeatureAssignment l feat desc gh target :
  preserves (quiet l) (createFeatureAssignment feat desc gh target).
Proof.
  unfold createFeatureAssignment. apply preserves_bind; [|intros ghRef].
  - unfold stored. apply preserves_bind; [apply preserves_lift|intros details].
    apply preserves_bind; [|intros r].
    + apply preserves_attempt. unfold CreateFeatureData.
      repeat (apply preserves_bind; [apply preserves_lift|intros ?]).
      apply quiet_external. intros w Hw. by repeat case_match.
    + apply preserves_bind; [|intros _; apply preserves_lift].
      repeat case_match; first [apply preserves_ret|apply preserves_fail].
  - apply preserves_bind; [|intros a; apply preserves_ret]. apply quiet_WithTx.
    apply preserves_bind; [|intros _].
    + by apply preserves_wrapping, quiet_exec.
    + apply preserves_wrapping. unfold CreateFeatureAssignment_query.
      apply preserves_bind; [by intros w Hw|intros id].
      apply quiet_external. intros w Hw. cbv zeta. by repeat case_match.
Qed.

(** What creating an assignment adds to the audit trail. *)
Lemma Create_audited actor i w id name w' :
  Create ChartDownloader uuid_String actor i w = (Ok (id, name), w') → w_faults w = [] →
  w_faults w' = [] ∧ audits w' = audits w ++ [
    {| au_Actor := actorOrUnknown actor; au_Action := "created";
       au_Description := "version " +:+ (ca_Version i +:+ (" → " +:+ formatLabels (ca_Target i)));
       au_ObjectType := "assignment"; au_ObjectID := name; au_Feature := name; au_EnvironmentID := None;
       au_Metadata := Some (VMap {[ "assignmentId" := VStr (uuid_String id); "chart" := VStr (ca_Chart i);
                                    "target" := VStrMap (ca_Target i) ]});
       au_CreatedAt := w_now w' |}].
Proof.
  intros H Hf. unfold Create in H.
  apply bind_Ok in H as (feat & w1 & Hd & H). apply wrapping_Ok in Hd.
  rewrite external_now in Hd by done. injection Hd as _ <-.
  case_bool_decide; [done|]. apply bind_Ok in H as (nid & w2 & Hc & H).
  pose proof (quiet_createFeatureAssignment (audits w) feat (ca_Description i)
    (ca_Commit i) (ca_Target i) w (conj Hf eq_refl)) as Hq.
  rewrite Hc in Hq. destruct Hq as [Hf2 Ha2]. cbn [snd] in Hf2, Ha2.
  apply bind_Ok in H as (u & w3 & Ha & [= <- <- <-]). unfold attempt, audit_Create in Ha.
  rewrite exec_now in Ha by done. injection Ha as _ <-. cbn. by rewrite Ha2.
Qed.

(** Whoever created an assignment is shown as its creator.  When nothing fails, an
    identifier can be printed and parsed, and the new one names no earlier assignment. *)
Theorem creator_shown actor i w id name w' :
  Create ChartDownloader uuid_String actor i w = (Ok (id, name), w') → w_faults w = [] →
  uuid_Parse (uuid_String id) = Ok id →
  (∀ a, a ∈ audits w → created_of [uuid_String id] a = None) →
  AssignmentCreators uuid_String uuid_Parse [id] w' = (Ok {[id := actorOrUnknown actor]}, w').
Proof.
  intros H Hf Hid Hold. destruct (Create_audited _ _ _ _ _ _ H Hf) as [Hf' Ha].
  unfold AssignmentCreators, wrapping, ListAssignmentCreators, mbind, M_bind.
  rewrite query_now by done. cbn [wrap]. rewrite Ha, omap_app.
  replace (omap (created_of (uuid_String <$> [id])) (audits w)) with (@nil (string * string * time)).
  2: { symmetry. clear Ha. induction (audits w) as [|a l IH]; [done|]. cbn. rewrite (Hold a) by left.
       apply IH. intros b Hb. apply Hold. by right. }
  match goal with |- context [omap _ [?r]] => set (row := r) end.
  assert (Hrow : created_of (uuid_String <$> [id]) row = Some (uuid_String id, actorOrUnknown actor, w_now w')).
  { unfold created_of, row. cbn [au_ObjectType au_Action au_Metadata].
    unfold jsonb_get_text. rewrite lookup_insert_eq. cbn.
    by rewrite !bool_decide_eq_true_2 by first [reflexivity|by left]. }
  clearbody row. cbn [omap list_omap app]. change (omap (M := list)) with @list_omap.
  cbn [list_omap]. rewrite Hrow. cbn.
  rewrite bool_decide_eq_false_2 by (by intros ?%elem_of_nil). cbn. by rewrite Hid.
Qed.
End creators.

(** ** Examples *)

#[local] Instance example_text : PostgresText := {| pg_lower := id; jsonb_print _ := "" |}.
#[local] Abbreviation audited_world := (DisableFeature "me" 7 "app" " flaky " example_world).2.

Lemma disable_reason_shown_witness :
  LatestDisableReason "app" 7 audited_world = (Ok "flaky", audited_world).
Proof.
  destruct (DisableFeature "me" 7 "app" " flaky " example_world) as [o w'] eqn:E.
  destruct o as [[]|e|p]; [|vm_compute in E; discriminate E..].
  assert (Hf : w_faults w' = []) by (vm_compute in E; injection E as <-; reflexivity).
  refine (disable_reason_shown "me" 7 "app" " flaky " example_world w' E Hf _).
  intros a Ha. apply elem_of_nil in Ha. destruct Ha.
Defined.

Lemma SearchRecent_spec_witness :
  ∃ shown, SearchRecent ["flaky"; "dev"] 10 audited_world = (Ok (entry <$> shown), audited_world) ∧
    length shown = 1%nat.
Proof.
  destruct (SearchRecent_spec ["flaky"; "dev"] 10 audited_world) as (shown & H & _ & _ & _ & hidden & Hp & Hh & _).
  - reflexivity.
  - split; vm_compute; apply NoDup_singleton.
  - discriminate.
  - repeat constructor; discriminate.
  - exists shown. split; [exact H|].
    apply Permutation_length in Hp. rewrite length_app in Hp.
    match type of Hp with ?n = _ => assert (Hn : n = 1%nat) by (vm_compute; reflexivity) end.
    rewrite Hn in Hp. destruct hidden as [|h hidden]; [cbn in Hp; lia|].
    assert (Hl : length shown = 10%nat) by (apply Hh; discriminate). cbn in Hp. lia.
Defined.

Lemma creator_shown_witness :
  ∃ w', Create (pg := example_pg) (enc := example_encoder) (tpl := example_parse) example_download
      pretty "me" example_assign example_world = (Ok (1000%N, "app"), w') ∧
    AssignmentCreators pretty (λ _, Ok 1000%N) [1000%N] w' = (Ok {[ 1000%N := "me" ]}, w').
Proof.
  destruct (Create (pg := example_pg) (enc := example_encoder) (tpl := example_parse)
    example_download pretty "me" example_assign example_world) as [o w'] eqn:E.
  exists w'. pose proof E as E'. vm_compute in E'. destruct o as [[id name]|e|p]; [|discriminate E'..].
  injection E' as Hid Hn _. subst id. subst name. split; [reflexivity|].
  refine (creator_shown (pg := example_pg) (enc := example_encoder) (tpl := example_parse)
    example_download pretty (λ _, Ok 1000%N) "me" example_assign example_world 1000 "app" w' E _ _ _).
  - reflexivity.
  - reflexivity.
  - intros a Ha. apply elem_of_nil in Ha. destruct Ha.
Defined.

(** An underscore in a term is a wildcard: searching for [env_value] also finds the
    entries shown as "env value". *)
Lemma search_underscore :
  like (utf8_chars "%env_value%") (utf8_chars "updated env value url") = Ok true.
Proof. reflexivity. Qed.
