(* ===== verification/ConfigForm.v ===== *)
(** * internal/ui/components/config.go: configuration values in forms

    A value arrives as text with the type its feature declares and becomes a Go value;
    a stored value is shown as text again.  [fmt.Sscan] and [strconv.ParseInt] are
    written out; encoding/json is a parameter.  Spaces are those of ASCII. *)

From S2P Require Export Value.

(** encoding/json: [Unmarshal] into an [any], a [[]string] (nil for null) and a [string],
    [Marshal] and [Indent] with two spaces. *)
Class FormJson := {
  form_Unmarshal : string → outcome gval;
  form_Unmarshal_strings : string → outcome (option (list string));
  form_Unmarshal_string : string → outcome string;
  form_Marshal : gval → outcome string;
  form_Indent : string → outcome string;
}.

(** ** strconv.ParseInt(s, 0, 64) *)

Definition digit_value (c : ascii) : option Z :=
  let n := Z.of_N (N_of_ascii (ascii_lower c)) in
  if ((48 <=? n) && (n <=? 57))%Z then Some (n - 48)%Z
  else if ((97 <=? n) && (n <=? 122))%Z then Some (n - 87)%Z
  else None.

Definition is_underscore (c : ascii) : bool := bool_decide (c = "_"%char).

(** What was seen last: nothing, a digit or prefix, an underscore, something else. *)
Inductive seen := SawStart | SawDigit | SawUnderscore | SawOther.

Fixpoint underscore_scan (hex : bool) (saw : seen) (s : string) : bool :=
  match s with
  | EmptyString => match saw with SawUnderscore => false | _ => true end
  | String c s =>
      if match digit_value c with Some d => (d <? if hex then 16 else 10)%Z | None => false end
      then underscore_scan hex SawDigit s
      else if is_underscore c then
        match saw with SawDigit => underscore_scan hex SawUnderscore s | _ => false end
      else match saw with SawUnderscore => false | _ => underscore_scan hex SawOther s end
  end.

Definition base_letter (c : ascii) : option Z :=
  let l := ascii_lower c in
  if bool_decide (l = "b"%char) then Some 2%Z
  else if bool_decide (l = "o"%char) then Some 8%Z
  else if bool_decide (l = "x"%char) then Some 16%Z
  else None.

Definition is_zero (c : ascii) : bool := bool_decide (c = "0"%char).

Definition underscoreOK (s : string) : bool :=
  match s with
  | String z (String c rest) =>
      match (if is_zero z then base_letter c else None) with
      | Some b => underscore_scan (b =? 16)%Z SawDigit rest
      | None => underscore_scan false SawStart s
      end
  | _ => underscore_scan false SawStart s
  end.

Inductive number_error := InvalidSyntax | OutOfRange.

(** The digits of [s] in a base, after [n]; underscores are skipped. *)
Fixpoint digits_value (base n : Z) (s : string) : Z + number_error :=
  match s with
  | EmptyString => inl n
  | String c s =>
      if is_underscore c then digits_value base n s
      else match digit_value c with
           | Some d =>
               if (d <? base)%Z then
                 let n := (n * base + d)%Z in
                 if (2 ^ 64 <=? n)%Z then inr OutOfRange else digits_value base n s
               else inr InvalidSyntax
           | None => inr InvalidSyntax
           end
  end.

Fixpoint has_underscore (s : string) : bool :=
  match s with EmptyString => false | String c s => is_underscore c || has_underscore s end.

(** With base 0: the base is that of the prefix; the digits come after it. *)
Definition base_prefix (s : string) : Z * string :=
  match s with
  | String z rest =>
      if is_zero z then
        match rest with
        | String c (String _ _ as digits) =>
            match base_letter c with Some b => (b, digits) | None => (8%Z, rest) end
        | _ => (8%Z, rest)
        end
      else (10%Z, s)
  | EmptyString => (10%Z, s)
  end.

Definition ParseUint (s : string) : Z + number_error :=
  if bool_decide (s = "") then inr InvalidSyntax
  else
    let '(base, digits) := base_prefix s in
    match digits_value base 0 digits with
    | inl n => if has_underscore digits && negb (underscoreOK s) then inr InvalidSyntax else inl n
    | inr e => inr e
    end.

Definition is_sign (c : ascii) : bool := bool_decide (c = "+"%char) || bool_decide (c = "-"%char).

Definition ParseInt (s : string) : Z + number_error :=
  let '(neg, digits) :=
    match s with
    | String c rest => if is_sign c then (bool_decide (c = "-"%char), rest) else (false, s)
    | EmptyString => (false, s)
    end in
  match ParseUint digits with
  | inr e => inr e
  | inl n =>
      if (neg : bool) then if (2 ^ 63 <? n)%Z then inr OutOfRange else inl (- n)%Z
      else if (2 ^ 63 <=? n)%Z then inr OutOfRange else inl n
  end.

Definition number_error_msg (e : number_error) : string :=
  match e with InvalidSyntax => "invalid syntax" | OutOfRange => "value out of range" end.

(** ** fmt.Sscan into an int *)

(** The longest prefix of characters that satisfy [p]. *)
Fixpoint accept_run (p : ascii → bool) (s : string) : string :=
  match s with
  | String c s' => if p c then String c (accept_run p s') else EmptyString
  | EmptyString => EmptyString
  end.

Definition digit_of (base : Z) (c : ascii) : bool :=
  is_underscore c || match digit_value c with Some d => (d <? base)%Z | None => false end.

(** The digits after an optional sign: after a leading zero those of the base its letter
    says, or octal ones; what follows the number is left unread. *)
Definition scan_number (s : string) : outcome string :=
  match s with
  | EmptyString => Err (ErrSentinel "EOF")
  | String z rest =>
      if is_zero z then
        Ok (String z match rest with
            | String c rest' =>
                match base_letter c with
                | Some b => String c (accept_run (digit_of b) rest')
                | None => accept_run (digit_of 8) rest
                end
            | EmptyString => EmptyString
            end)
      else match accept_run (digit_of 10) s with
           | EmptyString => Err (ErrString "expected integer")
           | digits => Ok digits
           end
  end.

Definition Sscan_int (value : string) : outcome Z :=
  let s := trim_left value in
  match s with
  | EmptyString => Err (ErrSentinel "EOF")
  | String c rest =>
      let! tok := (if is_sign c then fmap_ok (String c) (scan_number rest) else scan_number s) in
      match ParseInt tok with
      | inl n => Ok n
      | inr e => Err (ErrWrap ("strconv.ParseInt: parsing " +:+ json_quote tok) (ErrString (number_error_msg e)))
      end
  end.

(** ** Parsing *)

Section form.
Context `{json : FormJson}.

(** A [[]string] as an [any]. *)
Definition string_slice (arr : option (list string)) : gval :=
  match arr with Some l => VList (VStr <$> l) | None => VNil end.

Definition ParseConfigValue (value configType mode : string) : outcome gval :=
  let t := ToUpper configType in
  if bool_decide (t = "INT") then
    let! n := Sscan_int value in Ok (VNum (pretty n))
  else if bool_decide (t = "BOOL") then
    let b := ToLower value in
    if bool_decide (b = "true") then Ok (VBool true)
    else if bool_decide (b = "false") then Ok (VBool false)
    else Err (ErrString "invalid bool")
  else if bool_decide (t = "STRING_ARRAY") then
    if bool_decide (mode = "json")
    then fmap_ok string_slice (wrap "invalid JSON array" (form_Unmarshal_strings value))
    else match form_Unmarshal_strings value with
         | Ok arr => Ok (string_slice arr)
         | _ => Ok (string_slice (Some (TrimSpace <$> split_char "," value)))
         end
  else if bool_decide (mode = "json") then
    let! v := wrap "invalid JSON" (form_Unmarshal value) in
    let! b := form_Marshal v in
    Ok (VStr b)
  else Ok (VStr value).

Definition opens_json (s : string) : bool :=
  match s with
  | String c _ => bool_decide (c = "{"%char) || bool_decide (c = "["%char)
  | EmptyString => false
  end.

Definition ParseConfigValueAuto (value configType : string) : outcome gval :=
  let trimmed := TrimSpace value in
  if opens_json trimmed then wrap "invalid JSON" (form_Unmarshal trimmed)
  else ParseConfigValue value configType "raw".

(** ** Showing *)

Definition RawValueForDisplay (raw : string) : string :=
  if bool_decide (raw = "") then ""
  else
    match form_Unmarshal_string raw with
    | Ok s =>
        match form_Indent s with
        | Ok buf => if opens_json s then TrimSpace buf else s
        | _ => s
        end
    | _ =>
        match form_Indent raw with
        | Ok buf => TrimSpace buf
        | _ => TrimSpace raw
        end
    end.

Definition TryPrettyJSON (s : string) : string * bool :=
  let trimmed := TrimSpace s in
  if negb (opens_json trimmed) then (s, false)
  else match form_Unmarshal trimmed with
       | Ok v => match (let! b := form_Marshal v in form_Indent b) with
                 | Ok b => (b, true)
                 | _ => (s, false)
                 end
       | _ => (s, false)
       end.

(** ** Types *)

(** The values of a declared type ([ConfigType] of feature/model.go). *)
Definition has_type (configType : string) (v : gval) : Prop :=
  let t := ToUpper configType in
  if bool_decide (t = "INT") then ∃ n, v = VNum (pretty n) ∧ (min_int64 <= n <= max_int64)%Z
  else if bool_decide (t = "BOOL") then ∃ b, v = VBool b
  else if bool_decide (t = "STRING_ARRAY") then ∃ arr, v = string_slice arr
  else ∃ s, v = VStr s.

Lemma digits_value_nonneg base n s m :
  (0 <= n)%Z → (0 <= base)%Z → digits_value base n s = inl m → (0 <= m)%Z.
Proof.
  intros Hn Hb. revert n Hn. induction s as [|c s IH]; intros n Hn; cbn [digits_value]; [by intros [= <-]|].
  destruct (is_underscore c); [by apply IH|]. unfold digit_value.
  repeat case_match; try done; intros H'; eapply IH, H'; simplify_eq;
    rewrite ?andb_true_iff, ?Z.leb_le in *; nia.
Qed.

Lemma ParseUint_nonneg s m : ParseUint s = inl m → (0 <= m)%Z.
Proof.
  unfold ParseUint. case_bool_decide; [done|]. destruct (base_prefix s) as [base digits] eqn:Eb.
  destruct (digits_value base 0 digits) as [n|e] eqn:E; [|done].
  assert (0 <= base)%Z.
  { unfold base_prefix, base_letter in Eb. repeat case_match; simplify_eq; lia. }
  case_match; [done|]. intros [= <-]. by eapply digits_value_nonneg, E.
Qed.

Lemma ParseInt_bounds s n : ParseInt s = inl n → (min_int64 <= n <= max_int64)%Z.
Proof.
  unfold ParseInt, min_int64, max_int64.
  match goal with |- context [let '(_, _) := ?x in _] => destruct x as [neg digits] end.
  destruct (ParseUint digits) as [m|e] eqn:E; [|done]. apply ParseUint_nonneg in E.
  repeat case_match; intros [= <-]; rewrite ?Z.ltb_ge, ?Z.leb_gt in *; lia.
Qed.

Lemma Sscan_int_bounds s n : Sscan_int s = Ok n → (min_int64 <= n <= max_int64)%Z.
Proof.
  unfold Sscan_int. destruct (trim_left s) as [|c rest]; [done|].
  intros (tok & _ & H)%obind_Ok. destruct (ParseInt tok) as [m|e] eqn:E; [|done].
  injection H as <-. by eapply ParseInt_bounds.
Qed.

Lemma Ok_inj {A} (a b : A) : Ok a = Ok b → a = b.
Proof. by intros [= ->]. Qed.

(** C21.  A value parsed from a form has the type its feature declares: an integer that fits
    in 64 bits, a boolean, a list of strings or a string.  The bulk editor's parser keeps
    that promise unless the text begins a JSON object or array, whose value it takes
    whatever the type. *)
Theorem ParseConfigValue_typed value configType mode v :
  ParseConfigValue value configType mode = Ok v ∨
    opens_json (TrimSpace value) = false ∧ ParseConfigValueAuto value configType = Ok v →
  has_type configType v.
Proof.
  intros H. assert (∃ mode, ParseConfigValue value configType mode = Ok v) as (md & H').
  { destruct H as [H|[Ho H]]; [by exists mode|]. exists "raw". unfold ParseConfigValueAuto in H. by rewrite Ho in H. }
  clear H. revert H'. unfold ParseConfigValue, has_type. repeat case_bool_decide.
  - intros (n & Hn & [= <-])%obind_Ok. exists n. split; [done|]. by eapply Sscan_int_bounds.
  - intros [= <-]. by eexists.
  - intros [= <-]. by eexists.
  - done.
  - unfold fmap_ok. intros (arr & _ & [= <-])%obind_Ok. by eexists.
  - case_match; intros Hv; eexists; symmetry; by apply Ok_inj.
  - intros (x & _ & (b & _ & [= <-])%obind_Ok)%obind_Ok. by eexists.
  - intros [= <-]. by eexists.
Qed.

(** ** Reading what was printed *)

(** A decimal digit. *)
Definition decimal (c : ascii) : Prop :=
  is_underscore c = false ∧ is_space c = false ∧ is_sign c = false ∧
  ∃ d, digit_value c = Some d ∧ (0 <= d < 10)%Z ∧ is_zero c = (d =? 0)%Z.

Fixpoint all_decimal (s : string) : Prop :=
  match s with EmptyString => True | String c s => decimal c ∧ all_decimal s end.

Lemma pretty_digit d : (d < 10)%N →
  decimal (pretty_N_char d) ∧ digit_value (pretty_N_char d) = Some (Z.of_N d) ∧
  is_zero (pretty_N_char d) = (d =? 0)%N.
Proof.
  intros Hd. assert (d ∈ [0;1;2;3;4;5;6;7;8;9]%N) as Hin by (rewrite !elem_of_cons; lia).
  repeat (apply elem_of_cons in Hin as [->|Hin];
    [by split; [split_and!; [done..|eexists]; split; [reflexivity|done]|]|]).
  by apply elem_of_nil in Hin.
Qed.

Lemma digits_value_go x s : (Z.of_N x < 2 ^ 64)%Z →
  digits_value 10 0 (pretty_N_go x s) = digits_value 10 (Z.of_N x) s.
Proof.
  revert s. induction (N.lt_wf_0 x) as [x _ IH]; intros s Hx.
  destruct (decide (x = 0%N)) as [->|Hne]; [done|].
  assert (x / 10 < x)%N as Hlt by (apply N.div_lt; lia).
  rewrite pretty_N_go_step, IH by lia.
  destruct (pretty_digit (x mod 10)) as ((Hu & _) & Hd & _); [by apply N.mod_lt|].
  cbn [digits_value]. rewrite Hu, Hd.
  rewrite (proj2 (Z.ltb_lt _ _)) by (pose proof (N.mod_lt x 10); lia).
  assert (Hdm : (Z.of_N (x / 10) * 10 + Z.of_N (x mod 10) = Z.of_N x)%Z)
    by (pose proof (N.div_mod x 10); lia).
  by rewrite Hdm, (proj2 (Z.leb_gt _ _)).
Qed.

Lemma pretty_go_head x s : (0 < x)%N → all_decimal s →
  all_decimal (pretty_N_go x s) ∧
  ∃ c t, pretty_N_go x s = String c t ∧ is_zero c = false.
Proof.
  revert s. induction (N.lt_wf_0 x) as [x _ IH]; intros s Hx Hs.
  rewrite pretty_N_go_step by done.
  destruct (pretty_digit (x mod 10)) as (Hc & _ & Hz); [by apply N.mod_lt|].
  destruct (decide (x / 10 = 0)%N) as [E|Hne].
  - rewrite E, pretty_N_go_0. split; [by split|]. eexists _, _. split; [done|]. rewrite Hz.
    apply N.eqb_neq. pose proof (N.div_mod x 10). lia.
  - apply IH; [apply N.div_lt; lia|by apply N.neq_0_lt_0|by split].
Qed.

Lemma accept_all s : all_decimal s → accept_run (digit_of 10) s = s ∧ has_underscore s = false.
Proof.
  induction s as [|c s IH]; [done|]. intros [(Hu & _ & _ & d & Hd & Hb & _) Hs].
  destruct (IH Hs) as [E1 E2].
  assert (digit_of 10 c = true) as H10 by (unfold digit_of; rewrite Hu, Hd; apply Z.ltb_lt; lia).
  cbn [accept_run has_underscore]. by rewrite H10, Hu, E1, E2.
Qed.

(** A positive number as printed is read back, with or without a sign before it. *)
Lemma scan_pretty_N x : (0 < x)%N → (Z.of_N x < 2 ^ 64)%Z →
  let s := pretty x in
  scan_number s = Ok s ∧ ParseUint s = inl (Z.of_N x) ∧
  ∃ c t, s = String c t ∧ is_space c = false ∧ is_sign c = false.
Proof.
  intros Hx Hb s. assert (Hs : s = pretty_N_go x "").
  { unfold s, pretty, pretty_N. by rewrite decide_False by lia. }
  destruct (pretty_go_head x "" Hx I) as (Hall & c & t & Hct & Hz). rewrite <-Hs in Hall, Hct.
  pose proof (accept_all s Hall) as [Hacc Hund]. pose proof (digits_value_go x "" Hb) as Hv.
  rewrite <-Hs in Hv. clearbody s. rewrite Hct in *. clear Hs. cbn [all_decimal] in Hall. unfold decimal in Hall. destruct Hall as [(_ & Hsp & Hsg & _) _].
  split_and!; [| |by exists c, t].
  - unfold scan_number. by rewrite Hz, Hacc.
  - unfold ParseUint. rewrite bool_decide_eq_false_2 by done. unfold base_prefix. rewrite Hz, Hv.
    cbn [digits_value]. by rewrite Hund.
Qed.

Lemma Sscan_int_pretty z : (min_int64 <= z <= max_int64)%Z → Sscan_int (pretty z) = Ok z.
Proof.
  unfold min_int64, max_int64. intros Hz. destruct z as [|p|p]; [reflexivity|..].
  - change (pretty (Z.pos p)) with (pretty (N.pos p)).
    destruct (scan_pretty_N (N.pos p)) as (Hs & Hp & c & t & E & Hsp & Hsg); [lia|lia|].
    rewrite E in *. unfold Sscan_int. cbn [trim_left]. rewrite Hsp, Hsg, Hs. cbn [obind].
    unfold ParseInt. rewrite Hsg, Hp. rewrite (proj2 (Z.leb_gt _ _)) by lia. done.
  - change (pretty (Z.neg p)) with (String "-" (pretty (N.pos p))).
    destruct (scan_pretty_N (N.pos p)) as (Hs & Hp & c & t & E & Hsp & Hsg); [lia|lia|].
    assert (HP : ParseInt (String "-" (pretty (N.pos p))) = inl (Z.neg p)).
    { unfold ParseInt. change (is_sign "-") with true. change (bool_decide ("-"%char = "-"%char)) with true.
      cbv iota beta. rewrite Hp. by rewrite (proj2 (Z.ltb_ge _ _)) by lia. }
    unfold Sscan_int. change (trim_left (String "-" (pretty (N.pos p)))) with (String "-" (pretty (N.pos p))).
    cbv iota beta. rewrite Hs. unfold fmap_ok. cbn [obind]. change (is_sign "-") with true. cbv iota.
    cbn [obind]. by rewrite HP.
Qed.

Fixpoint no_space (s : string) : Prop :=
  match s with EmptyString => True | String c s => is_space c = false ∧ no_space s end.

Lemma all_decimal_no_space s : all_decimal s → no_space s.
Proof. induction s as [|c s IH]; [done|]. intros [(_ & Hc & _) Hs]. split; [done|]. by apply IH. Qed.

Lemma no_space_rev s : no_space s → no_space (str_rev s).
Proof.
  unfold str_rev. assert (∀ acc, no_space s → no_space acc → no_space (str_rev_app s acc)) as H; [|intros; by apply H].
  induction s as [|c s IH]; intros acc Hs Ha; [done|]. destruct Hs as [Hc Hs]. cbn. by apply IH.
Qed.

Lemma trim_left_fixed s : no_space s → trim_left s = s.
Proof. destruct s as [|c s]; [done|]. intros [Hc _]. cbn. by rewrite Hc. Qed.

Lemma TrimSpace_fixed s : no_space s → TrimSpace s = s.
Proof.
  intros Hs. unfold TrimSpace. rewrite (trim_left_fixed s), (trim_left_fixed (str_rev s)) by auto using no_space_rev.
  apply str_rev_involutive.
Qed.

(** What encoding/json does at one value: the text a value is stored as is decoded to it,
    and laying it out anew does not change it. *)
Definition json_at (v : gval) (raw : string) : Prop :=
  match v with
  | VNum n => raw = n ∧ is_Ok (form_Unmarshal_string raw) = false ∧ form_Indent raw = Ok raw
  | VBool b => raw = (if b then "true" else "false") ∧ is_Ok (form_Unmarshal_string raw) = false ∧
      form_Indent raw = Ok raw
  | VStr s => raw ≠ "" ∧ form_Unmarshal_string raw = Ok s
  | VList l => raw ≠ "" ∧ is_Ok (form_Unmarshal_string raw) = false ∧
      ∃ out, form_Indent raw = Ok out ∧
        ∀ arr, l = VStr <$> arr → form_Unmarshal_strings (TrimSpace out) = Ok (Some arr)
  | _ => False
  end.

Lemma pretty_Z_chars z : (min_int64 <= z <= max_int64)%Z → pretty z ≠ "" ∧ TrimSpace (pretty z) = pretty z.
Proof.
  intros Hz. assert (Hd : ∀ p, (Z.pos p < 2 ^ 64)%Z → all_decimal (pretty (N.pos p)) ∧ pretty (N.pos p) ≠ "").
  { intros p Hp. unfold pretty, pretty_N. rewrite decide_False by done.
    destruct (pretty_go_head (N.pos p) "") as (Ha & c & t & E & _); [done|done|]. by rewrite E in *. }
  unfold min_int64, max_int64 in Hz. destruct z as [|p|p]; [done|..].
  - change (pretty (Z.pos p)) with (pretty (N.pos p)). destruct (Hd p) as [Ha Hne]; [lia|].
    split; [done|]. by apply TrimSpace_fixed, all_decimal_no_space.
  - change (pretty (Z.neg p)) with (String "-" (pretty (N.pos p))). destruct (Hd p) as [Ha Hne]; [lia|].
    split; [done|]. apply TrimSpace_fixed. split; [done|]. by apply all_decimal_no_space.
Qed.

(** What a form shows of a stored value, sent back unchanged, is that value, whatever
    its type; except for a string that looks like a JSON object or array, which is shown
    laid out and would be stored so. *)
Theorem display_parse configType v raw :
  has_type configType v → json_at v raw →
  (∀ s, v = VStr s → opens_json s = false) →
  ParseConfigValue (RawValueForDisplay raw) configType "raw" = Ok v.
Proof.
  unfold has_type, ParseConfigValue. intros Ht Hj Hs.
  case_bool_decide; [|case_bool_decide; [|case_bool_decide]].
  - destruct Ht as (n & -> & Hn). destruct Hj as (-> & Hu & Hi).
    destruct (pretty_Z_chars n Hn) as [Hne Htr].
    unfold RawValueForDisplay. rewrite bool_decide_eq_false_2, Hi by done.
    destruct (form_Unmarshal_string (pretty n)); [done|..]; by rewrite Htr, Sscan_int_pretty.
  - destruct Ht as ([] & ->); destruct Hj as (-> & Hu & Hi); unfold RawValueForDisplay;
      rewrite Hi; destruct (form_Unmarshal_string _); done.
  - destruct Ht as ([l|] & ->); [|done]. destruct Hj as (Hne & Hu & out & Hi & Harr).
    assert (RawValueForDisplay raw = TrimSpace out) as ->.
    { unfold RawValueForDisplay. rewrite bool_decide_eq_false_2, Hi by done.
      by destruct (form_Unmarshal_string raw). }
    by rewrite (Harr l eq_refl).
  - destruct Ht as (s & ->). destruct Hj as (Hne & Hu).
    assert (RawValueForDisplay raw = s) as ->; [|done].
    unfold RawValueForDisplay. rewrite bool_decide_eq_false_2, Hu by done. rewrite (Hs s eq_refl).
    by destruct (form_Indent s).
Qed.
End form.

(** ** Examples *)

#[local] Instance example_json : FormJson := {|
  form_Unmarshal s := Ok (VList [VNum "1"]);
  form_Unmarshal_strings _ := Err (ErrString "not a list");
  form_Unmarshal_string _ := Err (ErrString "not a string");
  form_Marshal _ := Ok "[1]";
  form_Indent s := Ok s;
|}.

Lemma ParseConfigValue_typed_witness :
  ParseConfigValueAuto " 42" "int" = Ok (VNum "42") ∧ has_type "int" (VNum "42").
Proof.
  split; [vm_compute; reflexivity|].
  apply (ParseConfigValue_typed " 42" "int" "raw"). right. split; vm_compute; reflexivity.
Defined.

Lemma display_parse_witness :
  ParseConfigValue (RawValueForDisplay "-7") "int" "raw" = Ok (VNum "-7").
Proof.
  apply display_parse.
  - exists (-7)%Z. split; [reflexivity|split; discriminate].
  - split; [reflexivity|]. split; reflexivity.
  - discriminate.
Defined.

(** An integer may be followed by anything, and a leading zero makes it octal. *)
Theorem ParseConfigValue_int_surprises :
  ParseConfigValue "12abc" "int" "raw" = Ok (VNum "12") ∧
  ParseConfigValue "08" "int" "raw" = Ok (VNum "0") ∧
  ParseConfigValue "010" "int" "raw" = Ok (VNum "8").
Proof. split_and!; vm_compute; reflexivity. Qed.

(** The bulk editor stores a list where an integer is declared. *)
Theorem ParseConfigValueAuto_ignores_type :
  ParseConfigValueAuto "[1]" "int" = Ok (VList [VNum "1"]) ∧ ¬ has_type "int" (VList [VNum "1"]).
Proof. split; [vm_compute; reflexivity|]. intros (n & Hn & _). discriminate Hn. Qed.
