(* ===== verification/Chart.v ===== *)
(** * internal/feature/model.go: reading a feature from its chart

    [FromChart] downloads a chart and takes from it the feature it describes: Feature.yaml,
    the chart's metadata and, for every configurable value, the default the chart's values
    have at the value's key.  Helm's loader and its treatment of dependencies, the YAML
    decoder and the download are parameters. *)

From S2P Require Import ConfigForm AssignmentStore.
From S2P Require Import GoStd.

(** helm.sh/helm/v3/pkg/chart: what is read of a chart. *)
Record chart := {
  ch_Files : list (string * string); ch_Name : string; ch_Version : string; ch_Description : string;
  ch_Sources : list string; ch_Values : option gomap;
}.

(** The archive's bytes are a text; [ProcessDependencies] changes the chart it is given. *)
Class ChartLoader := {
  LoadArchive : string → outcome chart;
  ProcessDependencies : chart → outcome chart;
  yaml_FeatureYAML : string → outcome FeatureYAML;
}.

(** ** The type of a configuration value *)

Definition ConfigTypeString : string := "string".
Definition ConfigTypeInt : string := "int".
Definition ConfigTypeBool : string := "bool".
Definition ConfigTypeStringArray : string := "string_array".

Definition ConfigType_IsValid (e : string) : bool :=
  bool_decide (e ∈ [ConfigTypeString; ConfigTypeInt; ConfigTypeBool; ConfigTypeStringArray]).

Section config_type.
Context `{form : FormJson}.

Definition ConfigType_MarshalJSON (e : string) : outcome string := form_Marshal (VStr (ToUpper e)).
Definition ConfigType_UnmarshalJSON (b : string) : outcome string := fmap_ok ToLower (form_Unmarshal_string b).

(** What the code relies on of encoding/json: a string comes back. *)
Definition strings_come_back : Prop := ∀ s, ∃ b, form_Marshal (VStr s) = Ok b ∧ form_Unmarshal_string b = Ok s.

(** A type comes back in lower case: the valid types as they were. *)
Theorem ConfigType_roundtrip e :
  strings_come_back →
  ∃ b, ConfigType_MarshalJSON e = Ok b ∧ ConfigType_UnmarshalJSON b = Ok (ToLower e) ∧
    (ConfigType_IsValid e = true → ConfigType_UnmarshalJSON b = Ok e).
Proof.
  intros Hs. destruct (Hs (ToUpper e)) as (b & Hb & Hb'). exists b. split; [done|].
  assert (ConfigType_UnmarshalJSON b = Ok (ToLower e)) as Hu.
  { unfold ConfigType_UnmarshalJSON. rewrite Hb'. cbn. by rewrite ToLower_ToUpper. }
  split; [done|]. intros Hv%bool_decide_eq_true. rewrite Hu.
  repeat (apply elem_of_cons in Hv as [-> |Hv]; [done|]). by apply elem_of_nil in Hv.
Qed.
End config_type.

(** ** A feature from a chart *)

Section chart.
Context `{lib : ChartLoader} `{form : FormJson} (DownloadChartFunc : string → string → outcome string).

(** A nil [json.RawMessage] is the empty text; the error of [json.Marshal] is dropped. *)
Fixpoint pluck (kp : list string) (mp : gomap) : string :=
  match kp with
  | [] => ""
  | k :: kp =>
      match mp !! k with
      | None => ""
      | Some (VMap mp) => pluck kp mp
      | Some v => match form_Marshal v with Ok b => b | _ => "" end
      end
  end.

Definition pluckFromMap (key : string) (mp : gomap) : string :=
  pluck (match SmartDotSplit key with Ok kp => kp | _ => [] end) mp.

Definition normalizedYAML (values : Values) (valuesYAML : option gomap) : gmap string string :=
  match valuesYAML with
  | Some mp => if bool_decide (values = ∅) then ∅
               else map_imap (λ k v, match v_Config v with Some _ => Some (pluckFromMap k mp) | None => None end) values
  | None => ∅
  end.

(** The first file of that name. *)
Fixpoint feature_file (files : list (string * string)) : option string :=
  match files with
  | [] => None
  | (name, data) :: files => if bool_decide (name = "Feature.yaml") then Some data else feature_file files
  end.

Definition FromChart (chartURL version : string) : outcome Feature :=
  let! resp := wrap "failed to download chart" (DownloadChartFunc chartURL version) in
  let! c := wrap "unable to load chart" (LoadArchive resp) in
  let! yaml := match feature_file (ch_Files c) with
               | Some data => wrap "failed to parse Feature.yaml" (yaml_FeatureYAML data)
               | None => Err (ErrString "file Feature.yaml not found")
               end in
  let! c' := wrap "unable to process dependencies" (ProcessDependencies c) in
  Ok {| f_YAML := yaml; f_Name := ch_Name c; f_Chart := chartURL; f_Version := ch_Version c;
        f_Description := ch_Description c; f_Source := default "" (head (ch_Sources c));
        f_ValuesYAML := normalizedYAML (f_Values yaml) (ch_Values c'); f_SpecVersion := ""; f_TplDetails := "" |}.

(** ** The defaults are the chart's *)

Definition is_map (v : gval) : bool := match v with VMap _ => true | _ => false end.

Lemma pluck_path kp mp v :
  get_path mp kp = Some v → is_map v = false → pluck kp mp = match form_Marshal v with Ok b => b | _ => "" end.
Proof.
  revert mp. induction kp as [|k ks IH]; intros mp H Hv; [done|]. destruct ks as [|k2 ks].
  - cbn in H |- *. rewrite H. by destruct v.
  - rewrite get_path_cons in H by done. cbn [pluck]. destruct (mp !! k) as [[]|]; try done. by apply IH.
Qed.

Lemma pluck_no_default kp mp v : get_path mp kp = Some v → is_map v = true → pluck kp mp = "".
Proof.
  revert mp. induction kp as [|k ks IH]; intros mp H Hv; [done|]. destruct ks as [|k2 ks].
  - cbn in H |- *. rewrite H. by destruct v.
  - rewrite get_path_cons in H by done. cbn [pluck]. destruct (mp !! k) as [[]|]; try done. by apply IH.
Qed.

(** What is read from a chart: the feature its Feature.yaml describes, under the name and
    version of the chart's metadata; and for each of its configurable values, and no other,
    the default that the chart's values, dependencies processed, have at the path of its
    key, as JSON, unless that is a map. *)
Theorem FromChart_spec chartURL version feat :
  FromChart chartURL version = Ok feat →
  ∃ resp c data c', DownloadChartFunc chartURL version = Ok resp ∧ LoadArchive resp = Ok c ∧
    feature_file (ch_Files c) = Some data ∧ yaml_FeatureYAML data = Ok (f_YAML feat) ∧ ProcessDependencies c = Ok c' ∧
    f_Name feat = ch_Name c ∧ f_Version feat = ch_Version c ∧ f_Chart feat = chartURL ∧
    ∀ values, ch_Values c' = Some values →
      (∀ k, is_Some (f_ValuesYAML feat !! k) ↔ ∃ v, f_Values (f_YAML feat) !! k = Some v ∧ is_Some (v_Config v)) ∧
      ∀ k p v x, f_Values (f_YAML feat) !! k = Some v → is_Some (v_Config v) → SmartDotSplit k = Ok p →
        get_path values p = Some x →
        f_ValuesYAML feat !! k = Some (if is_map x then "" else match form_Marshal x with Ok b => b | _ => "" end).
Proof.
  unfold FromChart. intros H. apply obind_Ok in H as (resp & Hd%wrap_Ok & H). apply obind_Ok in H as (c & Hl%wrap_Ok & H).
  apply obind_Ok in H as (yaml & Hy & H). apply obind_Ok in H as (c' & Hp%wrap_Ok & [= <-]).
  destruct (feature_file (ch_Files c)) as [data|] eqn:Hf; [|done]. apply wrap_Ok in Hy. cbn.
  exists resp, c, data, c'. split_and!; [done..|]. intros values ->. unfold normalizedYAML.
  assert (Hlook : ∀ k, (if bool_decide (f_Values yaml = ∅) then ∅ else
    map_imap (λ k v, match v_Config v with Some _ => Some (pluckFromMap k values) | None => None end) (f_Values yaml)) !! k =
    v ← f_Values yaml !! k; match v_Config v with Some _ => Some (pluckFromMap k values) | None => None end).
  { intros k. case_bool_decide as He; [by rewrite He, !lookup_empty|by rewrite map_lookup_imap]. }
  split.
  - intros k. rewrite Hlook. destruct (f_Values yaml !! k) as [v|]; cbn; [|by split; [intros []%is_Some_None|naive_solver]].
    destruct (v_Config v) as [cfg|] eqn:Hc; split; intros Hs; try done.
    + exists v. by rewrite Hc.
    + destruct Hs as (v' & [= <-] & Hs). rewrite Hc in Hs. by apply is_Some_None in Hs.
  - intros k p v x Hv [cfg Hc] Hk Hx. rewrite Hlook, Hv. cbn. rewrite Hc. f_equal. unfold pluckFromMap. rewrite Hk.
    destruct (is_map x) eqn:Hm; [by eapply pluck_no_default|by apply pluck_path].
Qed.
End chart.

(** ** Examples *)

#[local] Abbreviation plain_form := {| form_Unmarshal s := Ok (VStr s); form_Unmarshal_strings _ := Err (ErrString "not a list");
  form_Unmarshal_string s := Ok s; form_Marshal v := Ok (match v with VStr s => s | _ => "?" end); form_Indent s := Ok s |}.

(** A chart with the value [replicas] below [app]. *)
#[local] Abbreviation example_chart := {| ch_Files := [("README.md", "text"); ("Feature.yaml", "values")]; ch_Name := "app";
  ch_Version := "1.0.0"; ch_Description := ""; ch_Sources := ["https://example.test/app"];
  ch_Values := Some {[ "app" := VMap {[ "replicas" := VStr "2" ]} ]} |}.
#[local] Abbreviation configurable key := {[ key := {| v_Description := ""; v_DisplayName := ""; v_Required := false;
  v_Computed := None; v_Config := Some {| c_Type := "int"; c_Secret := false |}; v_IgnoreKind := [] |} ]}.
#[local] Abbreviation example_loader key := {| LoadArchive _ := Ok example_chart; ProcessDependencies c := Ok c;
  yaml_FeatureYAML _ := Ok {| Dependencies := []; EnvironmentKinds := []; Timeout := 0; f_Values := configurable key |} |}.

Lemma FromChart_spec_witness :
  ∃ feat, FromChart (lib := example_loader "app.replicas") (form := plain_form) (λ _ _, Ok "archive") "oci://app" "1.0.0" = Ok feat ∧
    f_Name feat = "app" ∧ f_ValuesYAML feat !! "app.replicas" = Some "2".
Proof.
  destruct (FromChart (lib := example_loader "app.replicas") (form := plain_form) (λ _ _, Ok "archive") "oci://app" "1.0.0")
    as [feat|e|p] eqn:E; [|vm_compute in E; discriminate E..].
  destruct (FromChart_spec (lib := example_loader "app.replicas") (form := plain_form) (λ _ _, Ok "archive") "oci://app" "1.0.0"
    feat E) as (resp & c & data & c' & Hd & Hl & Hf & Hy & Hp & Hn & _ & _ & Hvals).
  exists feat. split; [reflexivity|]. cbn in Hl, Hp. injection Hl as <-. injection Hp as <-. split; [exact Hn|].
  destruct (Hvals _ eq_refl) as [_ H]. cbn in Hy. injection Hy as Hy.
  refine (H "app.replicas" ["app"; "replicas"] _ (VStr "2") _ _ _ _).
  - rewrite <-Hy. reflexivity.
  - eexists. reflexivity.
  - reflexivity.
  - reflexivity.
Defined.

(** A value above the key's path is taken for the key's default. *)
Theorem default_from_above :
  pluckFromMap (form := plain_form) "app.replicas.max" {[ "app" := VMap {[ "replicas" := VStr "2" ]} ]} = "2".
Proof. reflexivity. Qed.
