(* ===== verification/Http.v ===== *)
(** * Serving a request

    What the handlers of internal/ui and internal/api have in common: the parts of a
    request they read, the reply, and the early returns of [http.Error].  A handler is a
    computation that ends with a reply ([inl]) or goes on with a value ([inr]). *)

From S2P Require Export Atomic.

(** What a handler reads of [*http.Request]: whether the form can be parsed, the values of
    the query and the body, those of the body alone, the parameters of the route, the
    headers (empty when absent) and the text of the body. *)
Record http_request := {
  hr_valid_form : bool;
  hr_form : string → list string;
  hr_post_form : string → list string;
  hr_param : string → string;
  hr_header : string → string;
  hr_body : string;
}.

Definition first (l : list string) : string := match l with v :: _ => v | [] => "" end.
Definition FormValue (r : http_request) (key : string) : string := first (hr_form r key).
Definition PostFormValue (r : http_request) (key : string) : string := first (hr_post_form r key).
Definition URLParam (r : http_request) (key : string) : string := hr_param r key.

(** Status code, body or location, and whether the reconcile loop was triggered. *)
Record reply := { rp_status : Z; rp_text : string; rp_triggered : bool }.

Definition StatusOK : Z := 200.
Definition StatusCreated : Z := 201.
Definition StatusSeeOther : Z := 303.
Definition StatusBadRequest : Z := 400.
Definition StatusUnauthorized : Z := 401.
Definition StatusNotFound : Z := 404.
Definition StatusInternalServerError : Z := 500.

(** [http.Error(w, msg, code)] *)
Definition http_error (code : Z) (msg : string) : reply :=
  {| rp_status := code; rp_text := msg; rp_triggered := false |}.
(** [http.Redirect(w, r, url, http.StatusSeeOther)], after [TriggerReconcile] or not. *)
Definition see_other (triggered : bool) (url : string) : reply :=
  {| rp_status := StatusSeeOther; rp_text := url; rp_triggered := triggered |}.

Definition page (A : Type) : Type := IO (reply + A).

#[export] Instance page_ret : MRet page := λ A a w, (Ok (inr a), w).
#[export] Instance page_bind : MBind page := λ A B f m w,
  match m w with
  | (Ok (inr a), w') => f a w'
  | (Ok (inl r), w') => (Ok (inl r), w')
  | (Err e, w') => (Err e, w')
  | (Panic p, w') => (Panic p, w')
  end.

(** [return] with a reply. *)
Definition respond {A} (r : reply) : page A := λ w, (Ok (inl r), w).
(** [if err != nil { http.Error(..); return }] *)
Definition or_respond {A} (m : IO A) (k : error → reply) : page A := λ w,
  match m w with
  | (Ok a, w') => (Ok (inr a), w')
  | (Err e, w') => (Ok (inl (k e)), w')
  | (Panic p, w') => (Panic p, w')
  end.
Definition require (b : bool) (r : reply) : page unit := if b then mret tt else respond r.

(** The reply a handler ends with. *)
Definition reply_of (m : page reply) : IO reply := λ w,
  match m w with
  | (Ok (inl r), w') | (Ok (inr r), w') => (Ok r, w')
  | (Err e, w') => (Err e, w')
  | (Panic p, w') => (Panic p, w')
  end.

(** ** Replies and changes *)

Definition succeeded (r : reply) : bool := (rp_status r <? 400)%Z.

(** An early return, an error and a panic find every table as it was. *)
Definition atomic {A} (m : page A) : Prop :=
  ∀ w o w', m w = (o, w') → (∀ a, o ≠ Ok (inr a)) → same_tables w w'.
(** An early return is an error and triggers nothing. *)
Definition errors_early {A} (m : page A) : Prop :=
  ∀ w r w', m w = (Ok (inl r), w') → succeeded r = false ∧ rp_triggered r = false.
(** Only reads. *)
Definition reads_page {A} (m : page A) : Prop := reads m.

Lemma same_tables_trans w1 w2 w3 : same_tables w1 w2 → same_tables w2 w3 → same_tables w1 w3.
Proof. unfold same_tables. intros (E1 & E2 & E3 & E4) (F1 & F2 & F3 & F4). split_and!; congruence. Qed.

Lemma reads_or_respond {A} (m : IO A) k : reads m → reads (or_respond m k).
Proof.
  intros Hm w o w'. unfold or_respond. destruct (m w) as [[a|e|p] w1] eqn:E; intros [= _ <-];
    by eapply Hm.
Qed.
Lemma reads_respond {A} r : reads (respond (A := A) r).
Proof. intros w o w' [= _ <-]. apply same_world_refl. Qed.
Lemma reads_require b r : reads (require b r).
Proof. intros w o w'. destruct b; intros [= _ <-]; apply same_world_refl. Qed.
Lemma reads_page_ret {A} (a : A) : reads (mret (M := page) a).
Proof. intros w o w' [= _ <-]. apply same_world_refl. Qed.
Lemma reads_page_bind {A B} (m : page A) (f : A → page B) :
  reads m → (∀ a, reads (f a)) → reads (m ≫= f).
Proof.
  intros Hm Hf w o w'. unfold mbind, page_bind. destruct (m w) as [[[r|a]|e|p] w1] eqn:E.
  2: { intros H. eapply same_world_trans; [by eapply Hm|by eapply Hf]. }
  all: intros [= _ <-]; by eapply Hm.
Qed.

Lemma atomic_reads {A} (m : page A) : reads m → atomic m.
Proof. intros Hm w o w' H _. by eapply same_world_tables, Hm. Qed.

Lemma atomic_or_respond {A} (m : IO A) k : all_or_nothing m → atomic (or_respond m k).
Proof.
  intros Hm w o w'. unfold or_respond. destruct (m w) as [[a|e|p] w1] eqn:E; intros [= <- <-] Ho.
  - by destruct (Ho a).
  - by eapply Hm.
  - by eapply Hm.
Qed.

Lemma atomic_bind_reads {A B} (m : page A) (f : A → page B) :
  reads m → (∀ a, atomic (f a)) → atomic (m ≫= f).
Proof.
  intros Hm Hf w o w'. unfold mbind, page_bind. destruct (m w) as [[[r|a]|e|p] w1] eqn:E.
  2: { intros H Ho. eapply same_tables_trans; [by eapply same_world_tables, Hm|by eapply Hf]. }
  all: intros [= _ <-] _; by eapply same_world_tables, Hm.
Qed.

(** A value after the change. *)
Lemma atomic_bind_ret {A B} (m : page A) (f : A → B) : atomic m → atomic (m ≫= λ a, mret (f a)).
Proof.
  intros Hm w o w'. unfold mbind, page_bind. destruct (m w) as [[[r|a]|e|p] w1] eqn:E; intros [= <- <-] Ho.
  2: by destruct (Ho (f a)).
  all: by eapply Hm.
Qed.

Lemma errors_or_respond {A} (m : IO A) k :
  (∀ e, succeeded (k e) = false ∧ rp_triggered (k e) = false) → errors_early (or_respond m k).
Proof. intros Hk w r w'. unfold or_respond. destruct (m w) as [[a|e|p] w1]; by intros [= <- _]. Qed.
Lemma errors_require b r : succeeded r = false ∧ rp_triggered r = false → errors_early (require b r).
Proof. intros Hr w r' w'. destruct b; [done|]. by intros [= <- _]. Qed.
Lemma errors_ret {A} (a : A) : errors_early (mret (M := page) a).
Proof. by intros w r w'. Qed.
Lemma errors_bind {A B} (m : page A) (f : A → page B) :
  errors_early m → (∀ a, errors_early (f a)) → errors_early (m ≫= f).
Proof.
  intros Hm Hf w r w'. unfold mbind, page_bind. destruct (m w) as [[[r1|a]|e|p] w1] eqn:E; try done.
  - intros [= <- <-]. by eapply Hm.
  - by apply Hf.
Qed.

(** The promise of a page that changes something: an error reply, or none, leaves every
    table as it was and triggers nothing. *)
Lemma reply_of_promise (m : page reply) :
  atomic m → errors_early m → (∀ w r w', m w = (Ok (inr r), w') → succeeded r = true) →
  ∀ w o w', reply_of m w = (o, w') →
    match o with
    | Ok r => succeeded r = false → same_tables w w' ∧ rp_triggered r = false
    | _ => same_tables w w'
    end.
Proof.
  intros Ha He Hs w o w'. unfold reply_of. destruct (m w) as [[[r|r]|e|p] w1] eqn:E; intros [= <- <-].
  - intros _. split; [by eapply Ha|]. by eapply He.
  - intros Hr. by rewrite (Hs _ _ _ E) in Hr.
  - by eapply Ha.
  - by eapply Ha.
Qed.

(** ** Runs that go on *)

Lemma page_bind_inr {A B} (m : page A) (f : A → page B) w b w' :
  (m ≫= f) w = (Ok (inr b), w') → ∃ a w1, m w = (Ok (inr a), w1) ∧ f a w1 = (Ok (inr b), w').
Proof. unfold mbind, page_bind. destruct (m w) as [[[r|a]|e|p] w1]; [done| |done..]. intros H. by exists a, w1. Qed.

Lemma or_respond_inr {A} (m : IO A) k w a w' : or_respond m k w = (Ok (inr a), w') → m w = (Ok a, w').
Proof. unfold or_respond. by destruct (m w) as [[a1|e|p] w1]; intros [= -> ->]. Qed.

Lemma page_now {A B} (m : IO A) k (f : A → page B) w a :
  m w = (Ok a, w) → (or_respond m k ≫= f) w = f a w.
Proof. intros Hm. unfold mbind, page_bind, or_respond. by rewrite Hm. Qed.

Lemma require_inr b r w w' : require b r w = (Ok (inr tt), w') → b = true ∧ w' = w.
Proof. unfold require. by destruct b; intros [= <-]. Qed.
