(* ===== verification/Api.v ===== *)
(** * internal/api, internal/auth and the aggregate of internal/model: the HTTP API

    The endpoints GitHub workflows call to assign a feature and to follow its rollout, the
    list of tenants, and the two ways a request is let in: a GitHub token or the proxy's
    signed header.  Verifying tokens and decoding bodies are parameters. *)

From S2P Require Export Http ConfigForm AssignmentStore.

(** ** internal/model/model.go: one state for a rollout *)

Definition StateUnknown : string := "UNKNOWN".
Definition StatePending : string := "PENDING".
Definition StateDeployed : string := "DEPLOYED".
Definition StateFailed : string := "FAILED".
Definition StateDisabled : string := "DISABLED".
Definition StateRenderError : string := "RENDER-ERROR".
Definition StateMissingDeps : string := "MISSING-DEPS".
Definition StateMissingConfig : string := "MISSING-CONFIG".

Definition blockedPrecedence : list string := [StateRenderError; StateMissingDeps; StateMissingConfig].

(** The second loop; [None] is its early return. *)
Fixpoint aggregate_loop (blocked : gset string) (allDeployed : bool) (states : list string)
    : option (gset string * bool) :=
  match states with
  | [] => Some (blocked, allDeployed)
  | s :: states =>
      if bool_decide (s = StateDisabled) then aggregate_loop blocked allDeployed states
      else if bool_decide (s = StateFailed) then None
      else if bool_decide (s ∈ blockedPrecedence) then aggregate_loop ({[s]} ∪ blocked) false states
      else if bool_decide (s = StateDeployed) then aggregate_loop blocked allDeployed states
      else aggregate_loop blocked false states
  end.

Definition Aggregate (states : list string) : string * nat :=
  if bool_decide (states = []) then (StateUnknown, 0%nat)
  else
    let disabledCount := length (filter (λ s, s = StateDisabled) states) in
    if bool_decide (disabledCount = length states) then (StateDisabled, disabledCount)
    else
      (match aggregate_loop ∅ true states with
       | None => StateFailed
       | Some (blocked, allDeployed) =>
           match filter (λ s, s ∈ blocked) blockedPrecedence with
           | s :: _ => s
           | [] => if (allDeployed : bool) then StateDeployed else StatePending
           end
       end, disabledCount).

(** ** internal/auth/iap.go *)

(** What idtoken.Validate returns of a token for an audience. *)
Record Payload := { IssuedAt : time; Issuer : string }.

Section auth.
Context (validator : string → string → outcome Payload).

(** The text after the first colon. *)
Definition header_email (r : http_request) : string :=
  (cut_char ":" (hr_header r "X-Goog-Authenticated-User-Email")).1.2.

(** The e-mail address the request goes on with. *)
Definition validateJWTFromComputeEngine (aud : string) (now : time) (r : http_request) : reply + string :=
  match validator (hr_header r "X-Goog-IAP-JWT-Assertion") aud with
  | Ok payload =>
      if (now + 30 * Second <? IssuedAt payload)%Z
      then inl (http_error StatusUnauthorized "JWT token is in the future")
      else if negb (bool_decide (Issuer payload = "https://cloud.google.com/iap"))
      then inl (http_error StatusUnauthorized "Invalid JWT token issuer")
      else inr (header_email r)
  | _ => inl (http_error StatusUnauthorized "Invalid JWT token")
  end.

Definition LocalDevEmail : string := "local-dev@fasit".

Definition InsecureValidateMW (r : http_request) : reply + string :=
  let email := header_email r in
  inr (if bool_decide (email = "") then LocalDevEmail else email).

(** [SetupRouter]: how requests to the pages are let in. *)
Definition page_identity (iapAudience : string) (insecureSkipProxy : bool)
    : outcome (time → http_request → reply + string) :=
  if bool_decide (iapAudience = "") then
    if insecureSkipProxy then Ok (λ _, InsecureValidateMW)
    else Err (ErrString "INSECURE_SKIP_PROXY must be true when iap audience is not set")
  else Ok (validateJWTFromComputeEngine iapAudience).
End auth.

(** Nobody reaches the pages unauthenticated: when an audience is configured, a request
    goes on only with a token the validator accepts for that audience, issued by the proxy
    and not more than half a minute in the future; without an audience the server only
    starts when the check is switched off. *)
Theorem pages_authenticated validator iapAudience insecureSkipProxy identify now r email :
  page_identity validator iapAudience insecureSkipProxy = Ok identify → identify now r = inr email →
  if bool_decide (iapAudience = "") then insecureSkipProxy = true
  else ∃ payload, validator (hr_header r "X-Goog-IAP-JWT-Assertion") iapAudience = Ok payload ∧
    Issuer payload = "https://cloud.google.com/iap" ∧ (IssuedAt payload <= now + 30 * Second)%Z.
Proof.
  unfold page_identity. case_bool_decide.
  { by destruct insecureSkipProxy. }
  intros [= <-]. unfold validateJWTFromComputeEngine.
  destruct (validator _ iapAudience) as [payload|e|m]; [|done..].
  destruct (now + 30 * Second <? IssuedAt payload)%Z eqn:Et; [done|]. apply Z.ltb_ge in Et.
  case_bool_decide as Hi; [|done]. intros _. by exists payload.
Qed.

(** ** internal/api *)

Record Claims := { cl_Repository : string; cl_Owner : string; cl_Actor : string; cl_RunID : string }.
Record CreateFeatureAssignmentRequest := {
  cr_Chart : string; cr_Version : string; cr_Description : string; cr_Ref : option GitHubCommit;
  cr_Target : Labels;
}.

(** go-oidc's verifier and the claims of a token; encoding/json on request bodies. *)
Class ApiCodec := {
  Verify : string → outcome string;
  token_Claims : string → outcome Claims;
  decode_request : string → outcome CreateFeatureAssignmentRequest;
}.

Record Environment := {
  ae_ID : uuid; ae_Name : string; ae_Kind : EnvironmentKind; ae_Labels : Labels;
  ae_GcpProjectID : option string;
}.
Record Tenant := { at_ID : uuid; at_Name : string; at_Environments : list Environment }.

Section api.
Context `{pg : Postgres} `{codec : FeatureCodec} `{enc : FeatureEncoder} `{tpl : TemplateParse}
  `{json : FormJson} `{api : ApiCodec}.
Context (uuid_Parse : string → outcome uuid) (uuid_String : uuid → string)
  (ChartDownloader : string → string → outcome Feature) (AllowAll : bool).

Definition getAuthToken (r : http_request) : outcome string :=
  let authHeader := hr_header r "Authorization" in
  if bool_decide (authHeader = "") then Err (ErrString "no authorization header")
  else let '(bearer, token, ok) := cut_char " " authHeader in
       if negb ok || negb (bool_decide (bearer = "Bearer"))
       then Err (ErrString "invalid authorization header") else Ok token.

Definition validateToken (r : http_request) : page string :=
  if AllowAll then mret "mockassignment"
  else
    token ← or_respond (lift (getAuthToken r)) (λ e, http_error StatusBadRequest (error_msg e));
    idToken ← or_respond (external (lift (Verify token))) (λ e, http_error StatusUnauthorized (error_msg e));
    claims ← or_respond (lift (token_Claims idToken)) (λ e, http_error StatusInternalServerError (error_msg e));
    require (bool_decide (cl_Owner claims = "nais")) (http_error StatusUnauthorized "invalid repository owner") ;;
    mret (cl_Actor claims +:+ ("@" +:+ (cl_Repository claims +:+ ("/" +:+ cl_RunID claims)))).

(** The assignment and its state, encoded as JSON by the caller. *)
Definition Api_GetFeatureAssignment (r : http_request) : page (uuid * string) :=
  validateToken r ;;
  assignmentID ← or_respond (lift (uuid_Parse (URLParam r "id")))
    (λ _, http_error StatusBadRequest "invalid assignment id");
  or_respond (GetFeatureAssignment_query assignmentID) (λ err,
    if errors_is err ErrNoRows then http_error StatusNotFound "assignment does not exist"
    else http_error StatusInternalServerError "unable to get assignment") ;;
  statuses ← or_respond (attempt (ReconcileStatuses assignmentID)) (λ _, http_error StatusInternalServerError "");
  mret (assignmentID,
    match statuses with
    | inl l => (Aggregate (frs_State <$> l)).1
    | inr _ => StateUnknown
    end).

(** The new assignment and its feature; a success also triggers the reconcile loop. *)
Definition Api_CreateFeatureAssignment (r : http_request) : page (uuid * string) :=
  actor ← validateToken r;
  body ← or_respond (lift (decode_request (hr_body r)))
    (λ e, http_error StatusBadRequest ("Unable to decode JSON body: " +:+ error_msg e));
  require (match cr_Ref body with
           | Some ref => negb (bool_decide (gh_Owner ref = "") || bool_decide (gh_Repo ref = "") ||
                               bool_decide (gh_Ref ref = ""))
           | None => true end)
    (http_error StatusBadRequest "invalid ref, missing owner, repo or ref") ;;
  or_respond (Create ChartDownloader uuid_String actor
      {| ca_Chart := cr_Chart body; ca_Version := cr_Version body;
         ca_Description := Some (cr_Description body); ca_Commit := cr_Ref body;
         ca_Target := cr_Target body |})
    (λ e, http_error StatusBadRequest (error_msg e)).

(** *** Tenants *)

Definition tenant_name_order (a b : TenantRow * EnvironmentRow * option string) : bool :=
  String.leb (t_Name a.1.1) (t_Name b.1.1).
Definition environment_name_order (a b : TenantRow * EnvironmentRow * option string) : bool :=
  String.leb (er_Name a.1.2) (er_Name b.1.2).

(** The project's identifier is the value of [project_id] that is not secret. *)
Definition project_values (w : world) (e : EnvironmentRow) : list EnvironmentValueRow :=
  filter (λ v, ev_EnvironmentID v = er_ID e ∧ ev_Key v = "project_id" ∧ ev_Secret v = false)
    (environment_values (w_env w)).

Definition tenant_rows (w : world) : list (TenantRow * EnvironmentRow * option string) :=
  tenants (w_env w) ≫= (λ t,
    filter (λ e, er_TenantID e = t_ID t) (environments (w_env w)) ≫= (λ e,
      match project_values w e with
      | [] => [(t, e, None)]
      | vs => (λ v, (t, e, Some (ev_Value v))) <$> vs
      end)).

Definition ListTenantsWithEnvironments : IO (list (TenantRow * EnvironmentRow * option string)) :=
  query (λ w, Ok (isort (then_by tenant_name_order environment_name_order) (tenant_rows w))).

(** [tenants[i].Environments = append(tenants[i].Environments, env)] *)
Definition add_environment (env : Environment) (t : Tenant) : Tenant :=
  {| at_ID := at_ID t; at_Name := at_Name t; at_Environments := at_Environments t ++ [env] |}.

Definition row_environment (row : TenantRow * EnvironmentRow * option string) : outcome Environment :=
  let '(_, e, projectID) := row in
  let! gcpProjectID :=
    (match projectID with
     | Some raw => if bool_decide (raw = "") then Ok None else fmap_ok Some (form_Unmarshal_string raw)
     | None => Ok None
     end) in
  Ok {| ae_ID := er_ID e; ae_Name := er_Name e; ae_Kind := er_Kind e; ae_Labels := er_Labels e;
        ae_GcpProjectID := gcpProjectID |}.

(** The slice and the index of each tenant in it. *)
Definition add_tenant_row (acc : list Tenant * gmap N nat) (row : TenantRow * EnvironmentRow * option string)
    : outcome (list Tenant * gmap N nat) :=
  let! env := row_environment row in
  let t := row.1.1 in
  let '(l, index) := acc in
  let '(l, index, i) :=
    match index !! t_ID t with
    | Some i => (l, index, i)
    | None => (l ++ [{| at_ID := t_ID t; at_Name := t_Name t; at_Environments := [] |}],
               <[t_ID t := length l]> index, length l)
    end in
  Ok (alter (add_environment env) i l, index).

Definition Api_GetTenants : page (list Tenant) :=
  rows ← or_respond ListTenantsWithEnvironments
    (λ _, http_error StatusInternalServerError "unable to list tenants");
  acc ← or_respond (lift (ofold add_tenant_row ([], ∅) rows))
    (λ _, http_error StatusInternalServerError "unable to decode GCP project ID");
  mret acc.1.

(** ** Letting requests in *)

Lemma reads_validateToken r : reads (validateToken r).
Proof.
  unfold validateToken. destruct AllowAll; [apply reads_page_ret|].
  apply reads_page_bind; [apply reads_or_respond, reads_lift|intros token].
  apply reads_page_bind; [apply reads_or_respond, reads_external, reads_lift|intros idToken].
  apply reads_page_bind; [apply reads_or_respond, reads_lift|intros claims].
  apply reads_page_bind; [apply reads_require|intros _]. apply reads_page_ret.
Qed.

Lemma validateToken_accepts r w actor w' :
  AllowAll = false → validateToken r w = (Ok (inr actor), w') →
  ∃ token idToken claims, hr_header r "Authorization" = "Bearer " +:+ token ∧
    Verify token = Ok idToken ∧ token_Claims idToken = Ok claims ∧ cl_Owner claims = "nais" ∧
    actor = cl_Actor claims +:+ ("@" +:+ (cl_Repository claims +:+ ("/" +:+ cl_RunID claims))).
Proof.
  intros Ha. unfold validateToken. rewrite Ha. intros H.
  apply page_bind_inr in H as (token & w1 & Ht & H). apply or_respond_inr in Ht. injection Ht as Ht <-.
  apply page_bind_inr in H as (idToken & w2 & Hv & H). apply or_respond_inr, external_Ok in Hv as (w3 & _ & Hv).
  injection Hv as Hv _. apply page_bind_inr in H as (claims & w4 & Hc & H).
  apply or_respond_inr in Hc. injection Hc as Hc _. apply page_bind_inr in H as ([] & w5 & Hr & H).
  apply require_inr in Hr as [Ho%bool_decide_eq_true _]. injection H as <- _.
  exists token, idToken, claims. split_and!; try done.
  unfold getAuthToken in Ht. case_bool_decide; [done|].
  destruct (cut_char " " (hr_header r "Authorization")) as [[bearer tok] ok] eqn:Ec.
  destruct ok; [|done]. case_bool_decide as Hb; [|done]. injection Ht as <-. subst bearer.
  by apply cut_char_true in Ec.
Qed.

(** C25.  Who may use the API: unless the check is switched off, a request is let past
    [validateToken] only with a bearer token that the verifier accepts and whose claims name
    nais as the owner, in the name its claims give, and the check itself changes nothing
    whatever it finds.  A request to create an assignment that was not let past, or for which
    a call of the check failed, has changed nothing; and only a request that was let past is
    shown the state of an assignment. *)
Theorem validateToken_sound r w o w' :
  AllowAll = false → validateToken r w = (o, w') →
  same_world w w' ∧
  (∀ actor, o = Ok (inr actor) →
     ∃ token idToken claims, hr_header r "Authorization" = "Bearer " +:+ token ∧
       Verify token = Ok idToken ∧ token_Claims idToken = Ok claims ∧ cl_Owner claims = "nais" ∧
       actor = cl_Actor claims +:+ ("@" +:+ (cl_Repository claims +:+ ("/" +:+ cl_RunID claims)))) ∧
  ((∀ actor, o ≠ Ok (inr actor)) →
     same_world w (Api_CreateFeatureAssignment r w).2 ∧
     ∀ shown, (Api_GetFeatureAssignment r w).1 ≠ Ok (inr shown)).
Proof.
  intros Ha Ev. pose proof (reads_validateToken r w o w' Ev) as Hs. split; [done|]. split.
  { intros actor ->. by eapply validateToken_accepts. }
  intros Ho. unfold Api_CreateFeatureAssignment, Api_GetFeatureAssignment.
  unfold mbind at 1 4, page_bind at 1 4. rewrite Ev.
  destruct o as [[rp|actor]|e|p]; [by split|by destruct (Ho actor)|by split..].
Qed.

(** ** The state of a rollout *)

Lemma aggregate_loop_spec states blocked allDeployed :
  let live := filter (λ s, s ≠ StateDisabled) states in
  aggregate_loop blocked allDeployed states =
  if bool_decide (StateFailed ∈ live) then None
  else Some (list_to_set (filter (λ s, s ∈ blockedPrecedence) live) ∪ blocked,
             allDeployed && forallb (λ s, bool_decide (s = StateDeployed)) live).
Proof.
  revert blocked allDeployed. induction states as [|s states IH]; intros blocked allDeployed live.
  { unfold live. rewrite filter_nil, bool_decide_eq_false_2 by (by intros ?%elem_of_nil).
    rewrite filter_nil, list_to_set_nil, (left_id_L ∅ (∪)). cbn [aggregate_loop forallb].
    by rewrite andb_true_r. }
  cbn [aggregate_loop]. unfold live. rewrite filter_cons. case_bool_decide as Hd.
  { rewrite decide_False by (intros H; by apply H). apply IH. }
  rewrite decide_True by done. set (live' := filter (λ s, s ≠ StateDisabled) states).
  case_bool_decide as Hf.
  { rewrite bool_decide_eq_true_2; [done|]. rewrite Hf. left. }
  assert (Hin : bool_decide (StateFailed ∈ s :: live') = bool_decide (StateFailed ∈ live')).
  { apply bool_decide_ext. split; [|by right]. intros [Hs|Hs]%elem_of_cons; [by destruct Hf|done]. }
  rewrite Hin, filter_cons. clear Hin. case_bool_decide as Hb.
  { rewrite decide_True by done. rewrite IH. fold live'.
    destruct (decide (StateFailed ∈ live')) as [E|E]; [by rewrite !bool_decide_eq_true_2|].
    rewrite !(bool_decide_eq_false_2 (StateFailed ∈ live')) by done.
    f_equal. f_equal; [set_solver|]. cbn [forallb]. rewrite bool_decide_eq_false_2.
    - by rewrite andb_false_r.
    - intros Hs. rewrite Hs in Hb. revert Hb. apply (bool_decide_unpack _). vm_compute. exact I. }
  rewrite decide_False by done. case_bool_decide as Hdep; rewrite IH; fold live';
    (destruct (decide (StateFailed ∈ live')) as [E|E]; [by rewrite !bool_decide_eq_true_2|]);
    rewrite !(bool_decide_eq_false_2 (StateFailed ∈ live')) by done; cbn [forallb].
  - by rewrite (bool_decide_eq_true_2 (s = StateDeployed)).
  - by rewrite (bool_decide_eq_false_2 (s = StateDeployed)), andb_false_r.
Qed.

(** The states of the environments that are not disabled. *)
Definition live (states : list string) : list string := filter (λ s, s ≠ StateDisabled) states.

Lemma live_count states : (length (filter (λ s, s = StateDisabled) states) + length (live states) = length states)%nat.
Proof.
  unfold live. induction states as [|s l IH]; [done|]. rewrite !filter_cons.
  destruct (decide (s = StateDisabled)) as [E|E].
  - rewrite decide_False by (intros H; by apply H). cbn [length] in *. lia.
  - rewrite decide_True by done. cbn [length] in *. lia.
Qed.

Lemma filter_iff_on {A} (P Q : A → Prop) `{∀ x, Decision (P x)} `{∀ x, Decision (Q x)} (l : list A) :
  (∀ x, x ∈ l → P x ↔ Q x) → filter P l = filter Q l.
Proof.
  induction l as [|x l IH]; intros Hl; [done|]. rewrite !filter_cons, IH by (intros; apply Hl; by right).
  by rewrite (decide_ext (P x) (Q x)) by (apply Hl; by left).
Qed.

(** [Aggregate] as one formula: it depends only on which states occur. *)
Lemma Aggregate_live states :
  (Aggregate states).1 =
  if bool_decide (states = []) then StateUnknown
  else if bool_decide (live states = []) then StateDisabled
  else if bool_decide (StateFailed ∈ live states) then StateFailed
  else match filter (λ s, s ∈ live states) blockedPrecedence with
       | s :: _ => s
       | [] => if forallb (λ s, bool_decide (s = StateDeployed)) (live states)
               then StateDeployed else StatePending
       end.
Proof.
  unfold Aggregate. case_bool_decide as Hn; [done|]. pose proof (live_count states) as Hc.
  cbn [fst]. destruct (decide (live states = [])) as [El|El].
  { rewrite El in Hc. cbn in Hc. rewrite !bool_decide_eq_true_2; [done|done|lia]. }
  rewrite (bool_decide_eq_false_2 (live states = [])) by done.
  rewrite bool_decide_eq_false_2 by (destruct (live states); cbn in Hc; [done|lia]).
  cbn [fst]. rewrite aggregate_loop_spec. fold (live states). case_bool_decide as Hf; [done|].
  assert (Hfil : filter (λ s, s ∈ list_to_set (C := gset string) (filter (λ s, s ∈ blockedPrecedence) (live states)) ∪ ∅)
            blockedPrecedence = filter (λ s, s ∈ live states) blockedPrecedence).
  { apply filter_iff_on. intros s Hs. rewrite elem_of_union, elem_of_list_to_set, list_elem_of_filter. set_solver. }
  by rewrite Hfil.
Qed.

Lemma filter_blocked_nil (l : list string) :
  (∀ s, s ∈ l → s = StateDeployed) → filter (λ s, s ∈ l) blockedPrecedence = [].
Proof.
  intros Hl. apply filter_none. intros s Hs Hin. rewrite (Hl s Hin) in Hs. revert Hs.
  apply (bool_decide_unpack _). vm_compute. exact I.
Qed.

Lemma Aggregate_deployed states :
  (Aggregate states).1 = StateDeployed ↔
  StateDeployed ∈ states ∧ ∀ s, s ∈ states → s = StateDeployed ∨ s = StateDisabled.
Proof.
  rewrite Aggregate_live. case_bool_decide as H1.
  { split; [done|]. rewrite H1. by intros [?%elem_of_nil _]. }
  case_bool_decide as H2.
  { split; [done|]. intros [Hd _]. assert (StateDeployed ∈ live states) as Hl by by apply list_elem_of_filter.
    rewrite H2 in Hl. by apply elem_of_nil in Hl. }
  case_bool_decide as H3.
  { split; [done|]. intros [_ Hs]. apply list_elem_of_filter in H3 as [_ H3]. by destruct (Hs _ H3). }
  split.
  - destruct (filter _ blockedPrecedence) as [|s l] eqn:E.
    + destruct (forallb _ _) eqn:Ef; [intros _|done]. rewrite forallb_forall in Ef.
      assert (Hall : ∀ s, s ∈ live states → s = StateDeployed).
      { intros s Hs%list_elem_of_In. specialize (Ef s Hs). by apply bool_decide_eq_true in Ef. }
      split.
      * destruct (live states) as [|s l] eqn:El; [done|]. assert (s ∈ live states) as Hs by (rewrite El; left).
        rewrite <-(Hall s) by left. by apply list_elem_of_filter in Hs as [_ Hs].
      * intros s Hs. destruct (decide (s = StateDisabled)) as [|Hne]; [by right|left].
        apply Hall. by apply list_elem_of_filter.
    + intros ->. assert (StateDeployed ∈ filter (λ s, s ∈ live states) blockedPrecedence) as Hb by (rewrite E; left).
      apply list_elem_of_filter in Hb as [_ Hb]. exfalso. revert Hb. apply (bool_decide_unpack _). vm_compute. exact I.
  - intros [Hd Hs]. assert (Hall : ∀ s, s ∈ live states → s = StateDeployed).
    { intros s [Hne Hin]%list_elem_of_filter. by destruct (Hs s Hin). }
    rewrite filter_blocked_nil by done. rewrite (proj2 (forallb_forall _ _)); [done|].
    intros s Hin%list_elem_of_In. apply bool_decide_eq_true_2. by apply Hall.
Qed.

Lemma Aggregate_failed states : (Aggregate states).1 = StateFailed ↔ StateFailed ∈ states.
Proof.
  rewrite Aggregate_live. assert (Hl : StateFailed ∈ live states ↔ StateFailed ∈ states).
  { unfold live. rewrite list_elem_of_filter. naive_solver. }
  case_bool_decide as H1. { split; [done|]. rewrite H1. by intros ?%elem_of_nil. }
  case_bool_decide as H2. { split; [done|]. rewrite <-Hl, H2. by intros ?%elem_of_nil. }
  case_bool_decide as H3; [by rewrite <-Hl|]. rewrite <-Hl. split; [|done].
  destruct (filter _ blockedPrecedence) as [|s l] eqn:E; [by destruct (forallb _ _)|].
  intros ->. assert (StateFailed ∈ filter (λ s, s ∈ live states) blockedPrecedence) as Hb by (rewrite E; left).
  by apply list_elem_of_filter in Hb as [Hb _].
Qed.

Lemma Aggregate_perm states states' : states' ≡ₚ states → (Aggregate states').1 = (Aggregate states).1.
Proof.
  intros HP. assert (HL : live states' ≡ₚ live states) by (unfold live; by rewrite HP).
  rewrite !Aggregate_live.
  rewrite (bool_decide_ext (states' = []) (states = [])) by
    (split; intros E; rewrite E in HP; [by apply Permutation_nil in HP|by symmetry in HP; apply Permutation_nil in HP]).
  rewrite (bool_decide_ext (live states' = []) (live states = [])) by
    (split; intros E; rewrite E in HL; [by apply Permutation_nil in HL|by symmetry in HL; apply Permutation_nil in HL]).
  rewrite (bool_decide_ext (StateFailed ∈ live states') (StateFailed ∈ live states)) by (by rewrite HL).
  rewrite (filter_iff_on (λ s, s ∈ live states') (λ s, s ∈ live states)) by (intros; by rewrite HL).
  assert (forallb (λ s, bool_decide (s = StateDeployed)) (live states') =
          forallb (λ s, bool_decide (s = StateDeployed)) (live states)) as ->; [|done].
  apply eq_true_iff_eq. rewrite !forallb_forall. setoid_rewrite <-list_elem_of_In. by setoid_rewrite HL.
Qed.

Lemma validateToken_now r w o w' : w_faults w = [] → validateToken r w = (o, w') → w' = w.
Proof.
  intros Hf. unfold validateToken, mbind, page_bind, or_respond, lift, require, respond.
  destruct AllowAll; [by intros [= <- <-]|].
  destruct (getAuthToken r) as [token|e|m]; [|by intros [= <- <-]|by intros [= <- <-]].
  rewrite external_now by done. destruct (Verify token) as [t|e|m]; [|by intros [= <- <-]|by intros [= <- <-]].
  destruct (token_Claims t) as [c|e|m]; [|by intros [= <- <-]|by intros [= <- <-]].
  by destruct (bool_decide _); intros [= <- <-].
Qed.

(** What a workflow that waits for its rollout is told: when no call fails, the state of
    an assignment is DEPLOYED exactly when some environment has it deployed and every other
    one has too or is disabled; FAILED exactly when it failed in some environment; it does
    not depend on the order of the environments; and asking changes nothing. *)
Theorem rollout_state r w id state w' :
  w_faults w = [] → Api_GetFeatureAssignment r w = (Ok (inr (id, state)), w') →
  w' = w ∧ ∃ statuses, ReconcileStatuses id w = (Ok statuses, w) ∧
    let states := frs_State <$> statuses in
    (state = StateDeployed ↔ StateDeployed ∈ states ∧ ∀ s, s ∈ states → s = StateDeployed ∨ s = StateDisabled) ∧
    (state = StateFailed ↔ StateFailed ∈ states) ∧
    ∀ states', states' ≡ₚ states → (Aggregate states').1 = state.
Proof.
  intros Hf H. unfold Api_GetFeatureAssignment in H.
  apply page_bind_inr in H as (actor & w1 & Hv & H). apply validateToken_now in Hv as ->; [|done].
  apply page_bind_inr in H as (id' & w2 & Hid & H). apply or_respond_inr in Hid. injection Hid as _ <-.
  apply page_bind_inr in H as (row & w3 & Hq & H). apply or_respond_inr in Hq.
  unfold GetFeatureAssignment_query in Hq. rewrite query_now in Hq by done. injection Hq as _ <-.
  apply page_bind_inr in H as (statuses & w4 & Hs & H). apply or_respond_inr, attempt_Ok in Hs.
  injection H as <- <- <-.
  unfold ReconcileStatuses, ListDecisionStatuses, ListDeployStatuses, mbind, M_bind, wrapping in Hs |- *.
  rewrite !query_now in Hs |- * by done. cbn [wrap] in Hs |- *. 
  destruct statuses as [l|e]; [|done]. injection Hs as <- <-. split; [done|]. eexists. split; [done|].
  split_and!; [apply Aggregate_deployed|apply Aggregate_failed|]. intros states' HP. by apply Aggregate_perm.
Qed.

(** ** The list of tenants *)

Abbreviation tenant_row := (TenantRow * EnvironmentRow * option string)%type (only parsing).

Definition row_tenant (row : tenant_row) : uuid := t_ID row.1.1.
Definition rows_of_tenant (id : uuid) (rows : list tenant_row) : list tenant_row :=
  filter (λ row, row_tenant row = id) rows.

Record grouped (rows : list tenant_row) (acc : list Tenant * gmap N nat) : Prop := {
  gr_ids : at_ID <$> acc.1 = distinct_first id [] (row_tenant <$> rows);
  gr_index : ∀ k i, acc.2 !! k = Some i ↔ (at_ID <$> acc.1) !! i = Some k;
  gr_rows : ∀ t, t ∈ acc.1 →
    Forall2 (λ row env, row_environment row = Ok env) (rows_of_tenant (at_ID t) rows) (at_Environments t);
}.

Lemma rows_of_tenant_snoc k rows row :
  rows_of_tenant k (rows ++ [row]) =
  if decide (row_tenant row = k) then rows_of_tenant k rows ++ [row] else rows_of_tenant k rows.
Proof.
  unfold rows_of_tenant. rewrite filter_app, filter_cons, filter_nil.
  destruct (decide (row_tenant row = k)); [done|by rewrite app_nil_r].
Qed.

Lemma ids_alter env i (l : list Tenant) : at_ID <$> alter (add_environment env) i l = at_ID <$> l.
Proof.
  apply list_eq. intros j. rewrite !list_lookup_fmap. destruct (decide (i = j)) as [->|Hne].
  - rewrite list_lookup_alter_eq. by destruct (l !! j).
  - by rewrite list_lookup_alter_ne.
Qed.

(** A row of a tenant seen before. *)
Lemma grouped_old (l : list Tenant) index rows row env i :
  grouped rows (l, index) → NoDup (at_ID <$> l) → row_environment row = Ok env →
  row_tenant row ∈ row_tenant <$> rows ∧ (at_ID <$> l) !! i = Some (row_tenant row) →
  grouped (rows ++ [row]) (alter (add_environment env) i l, index).
Proof.
  intros [G1 G2 G3] Hnd Henv [Hk Hi]. split; cbn [fst snd] in *.
  - rewrite ids_alter, G1, fmap_app. change (row_tenant <$> [row]) with [row_tenant row].
    rewrite distinct_first_snoc, bool_decide_eq_true_2; [done|]. right. by rewrite list_fmap_id.
  - intros k j. by rewrite ids_alter.
  - intros t (j & Hj)%list_elem_of_lookup. rewrite rows_of_tenant_snoc.
    rewrite list_lookup_fmap in Hi. destruct (l !! i) as [t0|] eqn:E0; [|done]. injection Hi as Hi.
    destruct (decide (i = j)) as [->|Hne].
    + rewrite list_lookup_alter_eq, E0 in Hj. injection Hj as <-. cbn [add_environment at_ID at_Environments].
      rewrite decide_True by done. apply Forall2_app; [|by repeat constructor].
      apply G3. by eapply list_elem_of_lookup_2.
    + rewrite list_lookup_alter_ne in Hj by done. rewrite decide_False.
      * apply G3. by eapply list_elem_of_lookup_2.
      * intros Heq. apply Hne. apply (NoDup_lookup (at_ID <$> l) i j (row_tenant row)); [done|..];
          rewrite list_lookup_fmap; [by rewrite E0; cbn; rewrite Hi|by rewrite Hj; cbn; rewrite Heq].
Qed.

(** The first row of a tenant. *)
Lemma grouped_new (l : list Tenant) index rows row env :
  grouped rows (l, index) → row_environment row = Ok env → row_tenant row ∉ row_tenant <$> rows →
  grouped (rows ++ [row])
    (alter (add_environment env) (length l)
       (l ++ [{| at_ID := row_tenant row; at_Name := t_Name row.1.1; at_Environments := [] |}]),
     <[row_tenant row := length l]> index).
Proof.
  intros [G1 G2 G3] Henv Hk. cbn [fst snd] in *.
  set (t0 := {| at_ID := row_tenant row |}).
  assert (Hids : at_ID <$> alter (add_environment env) (length l) (l ++ [t0]) = (at_ID <$> l) ++ [row_tenant row])
    by by rewrite ids_alter, fmap_app.
  assert (Hno : ∀ t, t ∈ l → at_ID t ≠ row_tenant row).
  { intros t Ht Heq. apply Hk. rewrite <-Heq.
    assert (at_ID t ∈ at_ID <$> l) as Hin by by apply list_elem_of_fmap_2.
    rewrite G1 in Hin. by apply elem_of_distinct_first in Hin as [Hin _]. }
  split; cbn [fst snd].
  - rewrite Hids, G1, fmap_app. change (row_tenant <$> [row]) with [row_tenant row].
    rewrite distinct_first_snoc, bool_decide_eq_false_2; [done|].
    rewrite list_fmap_id. by intros [?%elem_of_nil|?].
  - intros k j. rewrite Hids. destruct (decide (k = row_tenant row)) as [->|Hne].
    + rewrite lookup_insert_eq. split; [intros [= <-]|].
      * rewrite lookup_app_r by (by rewrite length_fmap). by rewrite length_fmap, Nat.sub_diag.
      * intros Hj. apply lookup_app_Some in Hj as [Hj|[Hl Hj]].
        -- apply list_elem_of_lookup_2, list_elem_of_fmap in Hj as (t & Ht & Hin). by destruct (Hno t Hin).
        -- apply list_lookup_singleton_Some in Hj as [Hj _]. rewrite length_fmap in *. f_equal. lia.
    + rewrite lookup_insert_ne by done. rewrite G2. rewrite lookup_app_Some. split; [by left|].
      intros [Hj|[_ Hj]]; [done|]. apply list_lookup_singleton_Some in Hj as [_ Hj]. by destruct Hne.
  - intros t (j & Hj)%list_elem_of_lookup. rewrite rows_of_tenant_snoc.
    destruct (decide (length l = j)) as [<-|Hne].
    + rewrite list_lookup_alter_eq, list_lookup_middle in Hj by done. injection Hj as <-.
      cbn [add_environment at_ID at_Environments t0]. rewrite decide_True by done.
      unfold rows_of_tenant. rewrite filter_none; [by repeat constructor|].
      intros x Hx Heq. apply Hk. rewrite <-Heq. by apply list_elem_of_fmap_2.
    + rewrite list_lookup_alter_ne in Hj by done. apply lookup_app_Some in Hj as [Hj|[Hl Hj]].
      * apply list_elem_of_lookup_2 in Hj. rewrite decide_False; [by apply G3|].
        intros Heq. by destruct (Hno t Hj).
      * apply list_lookup_singleton_Some in Hj as [Hj _]. lia.
Qed.

Lemma grouped_step rows acc row acc' :
  grouped rows acc → add_tenant_row acc row = Ok acc' → grouped (rows ++ [row]) acc'.
Proof.
  intros [G1 G2 G3] (env & Henv & H)%obind_Ok. destruct acc as [l index]. cbn [fst snd] in *.
  change (t_ID row.1.1) with (row_tenant row) in H. set (k := row_tenant row) in *.
  assert (Hnd : NoDup (at_ID <$> l)).
  { rewrite G1. rewrite <-(list_fmap_id (distinct_first _ _ _)). apply (distinct_first_NoDup id). }
  assert (Hmem : (∃ i, index !! k = Some i) ↔ k ∈ row_tenant <$> rows).
  { trans (k ∈ at_ID <$> l).
    - rewrite list_elem_of_lookup. by setoid_rewrite G2.
    - rewrite G1. split; [by intros [? _]%elem_of_distinct_first|]. intros Hk.
      rewrite <-(list_fmap_id (distinct_first _ _ _)). apply (distinct_first_key id); [|by intros ?%elem_of_nil].
      by rewrite list_fmap_id. }
  destruct (index !! k) as [i|] eqn:Ei.
  - injection H as <-. apply (grouped_old l index rows row env i); try done.
    split; [apply Hmem; by exists i|by apply G2].
  - injection H as <-. apply (grouped_new l index rows row env); try done.
    intros Hk. apply Hmem in Hk as [i Hi]. congruence.
Qed.

Lemma grouped_rows rows acc : ofold add_tenant_row ([], ∅) rows = Ok acc → grouped rows acc.
Proof.
  revert acc. induction rows as [|row rows IH] using rev_ind; intros acc.
  { intros [= <-]. split; cbn [fst snd]; [done| |by intros t ?%elem_of_nil].
    intros k i. rewrite lookup_empty. by destruct i. }
  rewrite ofold_app. intros (acc0 & H0 & H)%obind_Ok. cbn [ofold] in H.
  apply obind_Ok in H as (acc1 & H & [= <-]). eapply grouped_step; [by apply IH|done].
Qed.

(** The list of tenants has every tenant with an environment once, in the order of the
    names, each with its environments in the order of theirs; and no secret value is given
    away: a project identifier that is listed is the decoded value of an entry of its own
    environment that is not secret. *)
Theorem GetTenants_spec w l w' :
  Api_GetTenants w = (Ok (inr l), w') →
  let rows := isort (then_by tenant_name_order environment_name_order) (tenant_rows w) in
  at_ID <$> l = distinct_first id [] (row_tenant <$> rows) ∧
  (∀ t, t ∈ l → at_Environments t ≠ [] ∧
     Forall2 (λ row env, row_environment row = Ok env) (rows_of_tenant (at_ID t) rows) (at_Environments t)) ∧
  ∀ t env p, t ∈ l → env ∈ at_Environments t → ae_GcpProjectID env = Some p →
    ∃ v, v ∈ environment_values (w_env w) ∧ ev_EnvironmentID v = ae_ID env ∧ ev_Key v = "project_id" ∧
      ev_Secret v = false ∧ form_Unmarshal_string (ev_Value v) = Ok p.
Proof.
  intros H rows. unfold Api_GetTenants in H. apply page_bind_inr in H as (rows' & w1 & Hq & H).
  apply or_respond_inr, query_value in Hq; [|done]. injection Hq as <-. fold rows in H.
  apply page_bind_inr in H as (acc & w2 & Ha & H). apply or_respond_inr in Ha. injection Ha as Ha _.
  injection H as <- _. apply grouped_rows in Ha as [G1 G2 G3]. split; [done|]. split.
  - intros t Ht. split; [|by apply G3]. intros Hnil. pose proof (G3 t Ht) as H2. rewrite Hnil in H2.
    apply Forall2_nil_inv_r in H2.
    assert (at_ID t ∈ at_ID <$> acc.1) as Hin by by apply list_elem_of_fmap_2.
    rewrite G1 in Hin. apply elem_of_distinct_first in Hin as [Hin _].
    apply list_elem_of_fmap in Hin as (row & Hr & Hin).
    assert (row ∈ rows_of_tenant (at_ID t) rows) as Hrow by by apply list_elem_of_filter.
    rewrite H2 in Hrow. by apply elem_of_nil in Hrow.
  - intros t env p Ht Henv Hp. pose proof (G3 t Ht) as H2. apply list_elem_of_lookup in Henv as [i Hi].
    destruct (Forall2_lookup_r _ _ _ _ _ H2 Hi) as (row & Hrow & He).
    apply list_elem_of_lookup_2, list_elem_of_filter in Hrow as [_ Hrow].
    unfold rows in Hrow. rewrite elem_of_isort in Hrow. unfold tenant_rows in Hrow.
    apply list_elem_of_bind in Hrow as (t0 & Hrow & _). apply list_elem_of_bind in Hrow as (e & Hrow & _).
    destruct row as [[t1 e1] project]. unfold row_environment in He.
    apply obind_Ok in He as (gcp & Hgcp & [= <-]). cbn [ae_GcpProjectID ae_ID] in Hp |- *. subst gcp.
    destruct project as [raw|]; [|done]. case_bool_decide; [done|].
    apply obind_Ok in Hgcp as (p' & Hgcp & [= ->]).
    assert (∃ v, v ∈ project_values w e ∧ raw = ev_Value v ∧ e1 = e) as (v & Hv & -> & ->).
    { destruct (project_values w e) as [|v0 vs] eqn:Ev.
      - apply list_elem_of_singleton in Hrow. by injection Hrow.
      - apply list_elem_of_fmap in Hrow as (v & [= -> -> ->] & Hv). by exists v. }
    apply list_elem_of_filter in Hv as [(H1 & H3 & H4) Hv]. by exists v.
Qed.
End api.

(** ** Examples *)

#[local] Existing Instances example_pg example_codec example_encoder example_parse.
#[local] Instance example_api : ApiCodec := {|
  Verify t := if bool_decide (t = "good") then Ok "id" else Err (ErrString "bad token");
  token_Claims _ := Ok {| cl_Repository := "nais/app"; cl_Owner := "nais"; cl_Actor := "octocat"; cl_RunID := "7" |};
  decode_request _ := Err (ErrString "EOF");
|}.
#[local] Instance example_form : FormJson := {|
  form_Unmarshal _ := Err (ErrString "json"); form_Unmarshal_strings _ := Err (ErrString "json");
  form_Unmarshal_string s := Ok s; form_Marshal _ := Err (ErrString "json"); form_Indent s := Ok s;
|}.

(** A request with the given headers. *)
Definition example_request (headers : string → string) : http_request :=
  {| hr_valid_form := true; hr_form _ := []; hr_post_form _ := []; hr_param _ := ""; hr_header := headers;
     hr_body := "" |}.

Lemma validateToken_sound_witness :
  let r := example_request (λ _, "Bearer good") in
  validateToken false r example_world = (Ok (inr "octocat@nais/app/7"), example_world) ∧
  (∃ token, hr_header r "Authorization" = "Bearer " +:+ token ∧ Verify token = Ok "id") ∧
  same_world example_world (Api_CreateFeatureAssignment (λ _, "") example_download false
    (example_request (λ _, "Bearer stolen")) example_world).2.
Proof.
  intros r. split; [vm_compute; reflexivity|]. split.
  - destruct (validateToken_sound (λ _, Ok 1%N) (λ _, "") example_download false r example_world
      (Ok (inr "octocat@nais/app/7")) example_world) as (_ & H & _); [reflexivity|vm_compute; reflexivity|].
    destruct (H _ eq_refl) as (token & idToken & claims & H1 & H2 & _).
    exists token. split; [exact H1|]. rewrite H2. f_equal. vm_compute in H1.
    injection H1 as <-. vm_compute in H2. injection H2 as <-. reflexivity.
  - destruct (validateToken false (example_request (λ _, "Bearer stolen")) example_world) as [o w'] eqn:E.
    destruct (validateToken_sound (λ _, Ok 1%N) (λ _, "") example_download false
      (example_request (λ _, "Bearer stolen")) example_world o w' eq_refl E) as (_ & _ & H).
    apply H. intros actor ->. vm_compute in E. discriminate E.
Defined.

Lemma rollout_state_witness :
  let r := example_request (λ _, "") in
  ∃ state, Api_GetFeatureAssignment (λ _, Ok 1%N) true r example_world = (Ok (inr (1%N, state)), example_world) ∧
    state ≠ StateDeployed.
Proof.
  intros r.
  destruct (Api_GetFeatureAssignment (λ _, Ok 1%N) true r example_world) as [o w'] eqn:E.
  pose proof E as E'. vm_compute in E'. destruct o as [[rp|[id state]]|e|p]; [discriminate E'| |discriminate E'..].
  injection E' as Hid Hst Hw. exists state. subst id. subst w'.
  destruct (rollout_state (λ _, Ok 1%N) example_download true r example_world 1 state _ eq_refl E)
    as (_ & statuses & Hs & [Hd _] & _).
  split; [reflexivity|]. intros H. apply Hd in H as [Hin _].
  vm_compute in Hs. injection Hs as <-. apply elem_of_nil in Hin. exact Hin.
Defined.

Lemma GetTenants_spec_witness :
  ∃ l, Api_GetTenants example_world = (Ok (inr l), example_world) ∧ at_ID <$> l = [3%N].
Proof.
  destruct (Api_GetTenants example_world) as [o w'] eqn:E.
  pose proof E as E'. vm_compute in E'. destruct o as [[rp|l]|e|p]; [discriminate E'| |discriminate E'..].
  injection E' as Hl Hw. exists l. subst w'. split; [reflexivity|].
  destruct (GetTenants_spec example_world l _ E) as [H _]. rewrite H. vm_compute. reflexivity.
Defined.

Lemma pages_authenticated_witness :
  ∃ payload, (λ t a : string, Ok {| IssuedAt := 0; Issuer := "https://cloud.google.com/iap" |}) "jwt" "aud" = Ok payload ∧
    (IssuedAt payload <= 100 + 30 * Second)%Z.
Proof.
  destruct (pages_authenticated (λ _ _, Ok {| IssuedAt := 0; Issuer := "https://cloud.google.com/iap" |})
    "aud" false _ 100 (example_request (λ _, "jwt")) "" eq_refl eq_refl) as (payload & H1 & _ & H2).
  exists payload. split; [exact H1|exact H2].
Defined.

(** The name a request acts in is not the one its token was issued to: it is the text of
    another header, which is not signed. *)
Theorem iap_identity_not_signed :
  ∃ validator r1 r2, hr_header r1 "X-Goog-IAP-JWT-Assertion" = hr_header r2 "X-Goog-IAP-JWT-Assertion" ∧
    validateJWTFromComputeEngine validator "aud" 0 r1 = inr "alice@nais.io" ∧
    validateJWTFromComputeEngine validator "aud" 0 r2 = inr "bob@nais.io".
Proof.
  exists (λ _ _, Ok {| IssuedAt := 0; Issuer := "https://cloud.google.com/iap" |}),
    (example_request (λ h, if bool_decide (h = "X-Goog-IAP-JWT-Assertion") then "jwt" else "accounts:alice@nais.io")),
    (example_request (λ h, if bool_decide (h = "X-Goog-IAP-JWT-Assertion") then "jwt" else "accounts:bob@nais.io")).
  split_and!; vm_compute; reflexivity.
Qed.
