(* ===== verification/View.v ===== *)
(** * internal/ui/view and ui/components: what the pages show of an actor, an instant, a status

    The audit trail stores the name under which a workflow acted; the pages take that name
    apart to link to the workflow's run.  An instant is shown as the time since then, in
    whole units. *)

From S2P Require Import Api AuditTrail.
From S2P Require Export GoStd.

(** ** Actors *)

(** What an actor is rendered as: its text, or a user and a link. *)
Inductive actor_node := PlainActor (s : string) | WorkflowActor (text href : string).

Definition run_href (org repo runID : string) : string :=
  "https://github.com/" +:+ (org +:+ ("/" +:+ (repo +:+ ("/actions/runs/" +:+ runID)))).

(** [strings.Cut(actor, "@")] and [strings.Split(rest, "/")] with three parts, the last one not
    empty. *)
Definition workflow_parts (actor : string) : option (string * (string * string * string)) :=
  let '(user, rest, ok) := cut_char "@" actor in
  if ok then match split_char "/" rest with
             | [org; repo; runID] => if bool_decide (runID = "") then None else Some (user, (org, repo, runID))
             | _ => None
             end
  else None.

Definition ActorNode (actor : string) : actor_node :=
  match workflow_parts actor with
  | Some (user, (org, repo, runID)) => WorkflowActor ("@" +:+ (user +:+ " via ")) (run_href org repo runID)
  | None => PlainActor actor
  end.

Definition AssignmentCreatorNode (actor : string) : actor_node :=
  if bool_decide (actor = "") || bool_decide (actor = "unknown") then PlainActor "Unknown" else ActorNode actor.

Definition ActorName (actor : string) : string :=
  match workflow_parts actor with Some (user, _) => "@" +:+ user | None => actor end.

Definition ActorWorkflowURL (actor : string) : string :=
  match workflow_parts actor with Some (_, (org, repo, runID)) => run_href org repo runID | None => "" end.

Definition IsWorkflowActor (actor : string) : bool := negb (bool_decide (ActorWorkflowURL actor = "")).

(** ** Instants *)

(** [d / unit] of a duration that is not negative. *)
Definition formatUnit (n : Z) (unit : string) : string := pretty n +:+ (unit +:+ " ago").

Section time.
(** The layout of an instant in the time zone of Oslo. *)
Context (Format : time → string).

Definition FormatTime (t : time) : string := if bool_decide (t = time_zero) then "" else Format t.

Definition RelativeTime (now t : time) : string :=
  if bool_decide (t = time_zero) then ""
  else let d := time_since now t in
       if (d <? 0)%Z then FormatTime t
       else if (d <? Minute)%Z then "just now"
       else if (d <? Hour)%Z then formatUnit (d `quot` Minute) "m"
       else if (d <? 24 * Hour)%Z then formatUnit (d `quot` Hour) "h"
       else if (d <? 48 * Hour)%Z then "yesterday"
       else if (d <? 30 * 24 * Hour)%Z then formatUnit (d `quot` (24 * Hour)) "d"
       else if (d <? 365 * 24 * Hour)%Z then formatUnit (d `quot` (30 * 24 * Hour)) "mo"
       else formatUnit (d `quot` (365 * 24 * Hour)) "y".
End time.

(** ** Statuses *)

Definition StatusClass (status : string) : string :=
  let s := ToUpper status in
  if bool_decide (s ∈ ["DEPLOYED"; "ENABLED"]) then "status-success"
  else if bool_decide (s = "FAILED") then "status-error"
  else if bool_decide (s ∈ ["MISSING-DEPS"; "MISSING-CONFIG"; "RENDER-ERROR"; "UNHEALTHY"]) then "status-warning"
  else if bool_decide (s ∈ ["SENT"; "INSTALLING"; "PENDING"; "PENDING-INSTALL"; "PENDING-UPGRADE"; "PENDING-ROLLBACK"])
  then "status-pending"
  else if bool_decide (s ∈ ["DISABLED"; "OVERRIDDEN"; "INACTIVE"]) then "status-disabled"
  else "text-muted".

(** The class of the symbol, the symbol and the text; a status without one is shown as it is. *)
Definition Status (status : string) : option (string * string) * string :=
  let s := ToUpper status in
  if bool_decide (s = "DEPLOYED") then (Some ("status-success", "✓"), " Deployed")
  else if bool_decide (s = "FAILED") then (Some ("status-error", "✗"), " Failed")
  else if bool_decide (s = "MISSING-DEPS") then (Some ("status-warning", "⚠"), " Missing deps")
  else if bool_decide (s = "MISSING-CONFIG") then (Some ("status-warning", "⚠"), " Missing config")
  else if bool_decide (s = "RENDER-ERROR") then (Some ("status-warning", "⚠"), " Render error")
  else if bool_decide (s = "SENT") then (Some ("status-pending", "➤"), " Sent")
  else if bool_decide (s = "INSTALLING") then (Some ("status-pending", "⏳"), " Installing")
  else if bool_decide (s ∈ ["PENDING"; "PENDING-INSTALL"; "PENDING-UPGRADE"; "PENDING-ROLLBACK"])
  then (Some ("status-pending", "⏳"), " Pending")
  else if bool_decide (s = "DISABLED") then (Some ("status-disabled", "○"), " Disabled")
  else if bool_decide (s = "UNHEALTHY") then (Some ("status-warning", "⚠"), " Unhealthy")
  else if bool_decide (s = "UNKNOWN") then (Some ("status-pending", "?"), " Unknown")
  else if bool_decide (s = "ENABLED") then (Some ("status-success", "✓"), " Enabled")
  else if bool_decide (s = "OVERRIDDEN") then (Some ("status-disabled", "⊘"), " Overridden")
  else if bool_decide (s = "INACTIVE") then (Some ("status-disabled", "◇"), " Inactive")
  else (None, status).

(** ** A workflow's name leads back to its run *)

(** The name [validateToken] gives a workflow has the parts the pages look for. *)
Lemma workflow_parts_of user org repo runID :
  has_char "@" user = false → has_char "/" org = false → has_char "/" repo = false →
  has_char "/" runID = false → runID ≠ "" →
  workflow_parts (user +:+ ("@" +:+ ((org +:+ ("/" +:+ repo)) +:+ ("/" +:+ runID)))) = Some (user, (org, repo, runID)).
Proof.
  intros Hu Ho Hr Hi Hne. unfold workflow_parts. change ("@" +:+ ?x) with (String "@" x).
  rewrite cut_char_here by done. change ("/" +:+ runID) with (String "/" runID).
  change ("/" +:+ repo) with (String "/" repo). rewrite str_app_assoc. cbn [String.append].
  rewrite !split_char_here, split_char_none by done. by rewrite bool_decide_eq_false_2.
Qed.

Section creator.
Context `{pg : Postgres} `{enc : FeatureEncoder} `{tpl : TemplateParse} `{api : ApiCodec} `{txt : PostgresText}.
Context (uuid_Parse : string → outcome uuid) (uuid_String : uuid → string)
  (ChartDownloader : string → string → outcome Feature).

(** Claims whose parts the separators keep apart. *)
Record plain_claims (c : Claims) (org repo : string) : Prop := {
  pc_repository : cl_Repository c = org +:+ ("/" +:+ repo);
  pc_actor : has_char "@" (cl_Actor c) = false;
  pc_org : has_char "/" org = false;
  pc_repo : has_char "/" repo = false;
  pc_run : has_char "/" (cl_RunID c) = false;
  pc_run_set : cl_RunID c ≠ "";
}.

Lemma validateToken_grants r w token idToken c actor w' :
  hr_header r "Authorization" = "Bearer " +:+ token → Verify token = Ok idToken → token_Claims idToken = Ok c →
  w_faults w = [] → validateToken false r w = (Ok (inr actor), w') →
  w' = w ∧ actor = cl_Actor c +:+ ("@" +:+ (cl_Repository c +:+ ("/" +:+ cl_RunID c))).
Proof.
  intros Hh Hv Hc Hf H. split; [by eapply validateToken_now|]. revert H.
  assert (Hg : getAuthToken r = Ok token).
  { unfold getAuthToken. rewrite Hh, bool_decide_eq_false_2 by done.
    change ("Bearer " +:+ token) with ("Bearer" +:+ String " " token). by rewrite cut_char_here. }
  unfold validateToken, mbind, page_bind, or_respond, lift, require, respond. rewrite Hg, external_now, Hv, Hc by done.
  destruct (bool_decide _); [|done]. by intros [= <- _].
Qed.

Lemma claims_node c org repo :
  plain_claims c org repo →
  AssignmentCreatorNode (actorOrUnknown (cl_Actor c +:+ ("@" +:+ (cl_Repository c +:+ ("/" +:+ cl_RunID c))))) =
    WorkflowActor ("@" +:+ (cl_Actor c +:+ " via ")) (run_href org repo (cl_RunID c)).
Proof.
  intros [Hrep Ha Ho Hr Hi Hne]. pose proof (workflow_parts_of _ _ _ _ Ha Ho Hr Hi Hne) as Hp. rewrite <-Hrep in Hp.
  set (s := cl_Actor c +:+ _) in *. assert (Hplain : ∀ t, workflow_parts t = None → s ≠ t) by congruence.
  unfold actorOrUnknown. rewrite bool_decide_eq_false_2 by by apply Hplain.
  unfold AssignmentCreatorNode. rewrite !bool_decide_eq_false_2 by by apply Hplain. unfold ActorNode. by rewrite Hp.
Qed.

(** The page of an assignment that a workflow created names the workflow's actor and
    links to its run: the name [validateToken] puts together from the claims is the one
    stored with the assignment, read back as its creator, and taken apart into the same
    repository and run.  When no call fails, for claims without the separators. *)
Theorem workflow_creator_linked r w token idToken c org repo id name w' :
  hr_header r "Authorization" = "Bearer " +:+ token → Verify token = Ok idToken → token_Claims idToken = Ok c →
  plain_claims c org repo → w_faults w = [] →
  Api_CreateFeatureAssignment uuid_String ChartDownloader false r w = (Ok (inr (id, name)), w') →
  uuid_Parse (uuid_String id) = Ok id →
  (∀ a, a ∈ audits w → created_of [uuid_String id] a = None) →
  ∃ creators, AssignmentCreators uuid_String uuid_Parse [id] w' = (Ok creators, w') ∧
    AssignmentCreatorNode (default "" (creators !! id)) =
      WorkflowActor ("@" +:+ (cl_Actor c +:+ " via ")) (run_href org repo (cl_RunID c)).
Proof.
  intros Hh Hv Hc Hp Hf H Hid Hold. unfold Api_CreateFeatureAssignment in H.
  apply page_bind_inr in H as (actor & w1 & Ht & H). destruct (validateToken_grants _ _ _ _ _ _ _ Hh Hv Hc Hf Ht) as [-> Ha].
  subst actor. apply page_bind_inr in H as (body & w2 & Hb & H). apply or_respond_inr in Hb. injection Hb as _ <-.
  apply page_bind_inr in H as ([] & w3 & Hq & H). apply require_inr in Hq as [_ <-].
  apply or_respond_inr in H. eexists. split; [by eapply creator_shown|].
  rewrite lookup_singleton_eq. by apply claims_node.
Qed.
End creator.

(** ** Whole units, and consistent colours *)

Ltac quot_units :=
  eexists; split; [|reflexivity];
  first [apply Z.quot_le_lower_bound; lia
        |split; [apply Z.quot_le_lower_bound|apply Zlt_succ_le, Z.quot_lt_upper_bound]; lia].

(** What the time since an instant reads as: never a zero of a unit, nor as many as make up
    the next one. *)
Theorem RelativeTime_units Format now t :
  t ≠ time_zero → (0 <= time_since now t)%Z →
  let d := time_since now t in
  let text := RelativeTime Format now t in
  (d < Minute ∧ text = "just now")%Z ∨ (Minute <= d < Hour ∧ ∃ n, 1 <= n <= 59 ∧ text = formatUnit n "m")%Z ∨
  (Hour <= d < 24 * Hour ∧ ∃ n, 1 <= n <= 23 ∧ text = formatUnit n "h")%Z ∨
  (24 * Hour <= d < 48 * Hour ∧ text = "yesterday")%Z ∨
  (48 * Hour <= d < 30 * 24 * Hour ∧ ∃ n, 2 <= n <= 29 ∧ text = formatUnit n "d")%Z ∨
  (30 * 24 * Hour <= d < 365 * 24 * Hour ∧ ∃ n, 1 <= n <= 12 ∧ text = formatUnit n "mo")%Z ∨
  (365 * 24 * Hour <= d ∧ ∃ n, 1 <= n ∧ text = formatUnit n "y")%Z.
Proof.
  intros Ht Hd. cbv zeta. unfold RelativeTime. rewrite bool_decide_eq_false_2 by done.
  generalize dependent (time_since now t). intros d Hd.
  assert (Minute = 60000000000 ∧ Hour = 3600000000000)%Z as [-> ->] by done.
  destruct (Z.ltb_spec d 0); [lia|].
  repeat match goal with |- context [(d <? ?b)%Z] => destruct (Z.ltb_spec d b) end.
  all: repeat first [left; split; [lia|first [reflexivity|quot_units]]|right|split; [lia|quot_units]].
Qed.

(** The summary gives every status the colour of its symbol, except [UNKNOWN], which has a
    symbol of a pending one and the colour of none. *)
Theorem Status_class status c symbol text :
  Status status = (Some (c, symbol), text) →
  StatusClass status = if bool_decide (ToUpper status = "UNKNOWN") then "text-muted" else c.
Proof.
  unfold Status, StatusClass. set (s := ToUpper status). clearbody s. intros H.
  repeat (match type of H with (if bool_decide ?P then _ else _) = _ => destruct (bool_decide_reflect P) as [E|E] end;
    [injection H as <- <- <-;
     first [rewrite E; reflexivity
           |repeat (apply elem_of_cons in E as [-> |E]; [reflexivity|]); by apply elem_of_nil in E]|clear E]).
  done.
Qed.

(** ** Examples *)

#[local] Instance linked_api : ApiCodec := {|
  Verify t := if bool_decide (t = "good") then Ok "id" else Err (ErrString "bad token");
  token_Claims _ := Ok {| cl_Repository := "nais/app"; cl_Owner := "nais"; cl_Actor := "octocat"; cl_RunID := "7" |};
  decode_request _ := Ok {| cr_Chart := ca_Chart example_assign; cr_Version := ca_Version example_assign;
    cr_Description := ""; cr_Ref := ca_Commit example_assign; cr_Target := ca_Target example_assign |};
|}.

Lemma workflow_creator_linked_witness :
  ∃ id w' creators,
    Api_CreateFeatureAssignment (pg := example_pg) (enc := example_encoder) (tpl := example_parse)
      pretty example_download false (example_request (λ _, "Bearer good")) example_world = (Ok (inr (id, "app")), w') ∧
    AssignmentCreators (txt := {| pg_lower := Datatypes.id; jsonb_print _ := "" |}) pretty (λ _, Ok 1000%N) [id] w' =
      (Ok creators, w') ∧
    AssignmentCreatorNode (default "" (creators !! id)) =
      WorkflowActor "@octocat via " "https://github.com/nais/app/actions/runs/7".
Proof.
  destruct (Api_CreateFeatureAssignment (pg := example_pg) (enc := example_encoder) (tpl := example_parse)
    pretty example_download false (example_request (λ _, "Bearer good")) example_world) as [o w'] eqn:E.
  pose proof E as E'. vm_compute in E'. destruct o as [[r|[id name]]|e|p]; [discriminate E'| |discriminate E'..].
  injection E' as Hid Hn _. subst id. subst name. exists 1000%N, w'.
  destruct (workflow_creator_linked (pg := example_pg) (enc := example_encoder) (tpl := example_parse)
    (api := linked_api) (txt := {| pg_lower := Datatypes.id; jsonb_print _ := "" |}) (λ _, Ok 1000%N) pretty example_download
    (example_request (λ _, "Bearer good")) example_world "good" "id" _ "nais" "app" 1000 "app" w'
    eq_refl eq_refl eq_refl) as (creators & H1 & H2).
  - by split.
  - reflexivity.
  - exact E.
  - reflexivity.
  - intros a Ha. apply elem_of_nil in Ha. destruct Ha.
  - exists creators. split; [reflexivity|]. split; [exact H1|]. exact H2.
Defined.
