(* ===== verification/Catalog.v ===== *)
(** * internal/feature/queries.go, featuresql/features.sql.go: reading feature data

    The versions of features that were stored, read back by name and version, or the
    version in use by name; and the names of the features in use. *)

From S2P Require Export Winning.
From S2P Require Import GoStd.

Section catalog.
Context `{pg : Postgres} `{codec : FeatureCodec} `{enc : FeatureEncoder}.

Definition FeatureDataByVersion (name version : string) : IO FeatureDatum :=
  query (λ w, single (filter (λ d, fd_Name d = name ∧ fd_Version d = version) (feature_data (w_feature w)))).

(** Of assignments created at the same instant, the first in the table. *)
Definition LatestFeatureData (name : string) : IO FeatureDatum :=
  query (λ w, single (la_data <$>
    isort (λ a b, (ar_Created (la_assignment b) <=? ar_Created (la_assignment a))%Z)
      (concat (join_data w <$>
         filter (λ a, ar_FeatureName a = name ∧ ar_Active a = true) (feature_assignments (w_feature w)))))).

Definition FeatureNames : IO (list string) :=
  query (λ w, Ok (sort_strings (distinct_first id []
    (ar_FeatureName <$> filter (λ a, ar_Active a = true) (feature_assignments (w_feature w)))))).

Definition FeatureByName (name : string) : IO Feature :=
  f ← wrapping ("get latest feature data for " +:+ json_quote name) (LatestFeatureData name);
  lift (featureFromSQL f).

Definition FeatureByNameVersion (name version : string) : IO Feature :=
  f ← wrapping ("get feature data for " +:+ (json_quote name +:+ (" version " +:+ json_quote version)))
        (FeatureDataByVersion name version);
  lift (featureFromSQL f).

(** ** Storing and reading back *)

(** A nil [json.RawMessage] is encoded as null. *)
Definition raw_json (raw : string) : string := if bool_decide (raw = "") then "null" else raw.

(** What the code relies on of encoding/json and JSONB for the parts of a feature: what was
    encoded, stored and read is decoded to what it was, texts as they were spelled and raw
    values in the form JSONB gives them. *)
Record json_faithful (feat : Feature) : Prop := {
  jf_Dependencies : ∀ s, encode_Dependencies (Dependencies (f_YAML feat)) = Ok s →
    decode_Dependencies (jsonb_text s) = Ok (Dependencies (f_YAML feat));
  jf_Values : ∀ s, let spelled := with_type ToUpper <$> f_Values (f_YAML feat) in
    json_Marshal_Values spelled = Ok s → json_Unmarshal_Values (jsonb_text s) = Ok spelled;
  jf_DefaultValues : ∀ s, encode_DefaultValues (f_ValuesYAML feat) = Ok s →
    decode_DefaultValues (jsonb_text s) = Ok (jsonb_text ∘ raw_json <$> f_ValuesYAML feat);
}.

(** A feature as it comes back from its row. *)
Definition restored (feat : Feature) (details : string) : Feature :=
  {| f_YAML := {| Dependencies := Dependencies (f_YAML feat);
       EnvironmentKinds := sort_strings (EnvironmentKinds (f_YAML feat));
       Timeout := Z.quot (Timeout (f_YAML feat)) Millisecond * Millisecond;
       f_Values := with_type ToLower <$> f_Values (f_YAML feat) |};
     f_Name := f_Name feat; f_Chart := f_Chart feat; f_Version := f_Version feat;
     f_Description := f_Description feat; f_Source := f_Source feat;
     f_ValuesYAML := jsonb_text ∘ raw_json <$> f_ValuesYAML feat; f_SpecVersion := "v2"; f_TplDetails := details |}.

Lemma insert_feature_data_Ok d w w' :
  w_faults w = [] → insert_feature_data d w = (Ok tt, w') →
  w' = set_w_feature (set_feature_data (λ l, l ++ [d])) w ∧
  ∀ d', d' ∈ feature_data (w_feature w) → ¬ (fd_Name d' = fd_Name d ∧ fd_Version d' = fd_Version d).
Proof.
  unfold insert_feature_data, external, next_fault, mbind, M_bind. intros Hf H. rewrite Hf in H.
  destruct (forallb _ _); cbn [negb] in H; [|done].
  destruct (HasPrefix _ _ && _); cbn [negb] in H; [|done].
  destruct (existsb _ _) eqn:Ex; [done|]. injection H as <-. split; [done|].
  intros d' Hd' [Hn Hv]. apply not_true_iff_false in Ex. apply Ex, existsb_exists. exists d'.
  split; [by apply list_elem_of_In|]. by rewrite !bool_decide_eq_true_2.
Qed.

Lemma with_type_lower_upper (vals : Values) :
  with_type ToLower <$> (with_type ToUpper <$> vals) = with_type ToLower <$> vals.
Proof.
  rewrite <-map_fmap_compose. apply map_fmap_ext. intros k v _. destruct v as [d n r c [[t s]|] i]; [|done].
  unfold with_type. cbn. by rewrite ToLower_ToUpper.
Qed.

(** C27.  What is stored of a feature comes back, as far as encoding/json and JSONB give back
    the texts, lists and maps they are given: after [CreateFeatureData] succeeded, reading the
    feature by its name and version, when no query fails, yields the feature itself but for
    what the code makes of it: its kinds are sorted, its timeout is rounded towards zero to
    milliseconds, the types of its configuration values are in lower case, its default
    values have the form JSONB gives them, a missing one being null, and its details are
    those stored.  No other stored version is touched. *)
Theorem CreateFeatureData_roundtrip feat details w w' :
  w_faults w = [] → json_faithful feat → CreateFeatureData feat details w = (Ok tt, w') →
  ∃ s, encode_Details details = Ok s ∧
    FeatureByNameVersion (f_Name feat) (f_Version feat) w' = (Ok (restored feat (jsonb_text s)), w') ∧
    sort_strings (EnvironmentKinds (f_YAML feat)) ≡ₚ EnvironmentKinds (f_YAML feat) ∧
    ∀ d, d ∈ feature_data (w_feature w) → d ∈ feature_data (w_feature w').
Proof.
  intros Hf [Hdeps Hvals Hdef] H. unfold CreateFeatureData in H.
  apply bind_Ok in H as (dep & w1 & H1 & H). injection H1 as H1%wrap_Ok <-.
  apply bind_Ok in H as (vals & w1 & H2 & H). injection H2 as H2%wrap_Ok <-.
  apply bind_Ok in H as (defaults & w1 & H3 & H). injection H3 as H3%wrap_Ok <-.
  apply bind_Ok in H as (s & w1 & H4 & H). injection H4 as H4%wrap_Ok <-.
  exists s. split; [done|].
  set (row := {| fd_Name := _ |}) in H.
  apply insert_feature_data_Ok in H as [-> Hnew]; [|done]. split; [|split].
  - unfold FeatureByNameVersion, FeatureDataByVersion, mbind, M_bind, wrapping.
    rewrite query_now by done. cbn [w_feature set_w_feature set_feature_data feature_data].
    rewrite filter_app, filter_none by (intros d Hd; by apply Hnew).
    rewrite filter_cons, decide_True, filter_nil by done. cbn [app single wrap]. unfold lift.
    f_equal. unfold featureFromSQL, makeFeatureYAML, row. cbn [fd_Dependencies fd_DefaultValues fd_Values].
    unfold decode_Values. rewrite (Hdeps _ H1), (Hdef _ H3), (Hvals _ H2). cbn.
    unfold restored. by rewrite with_type_lower_upper.
  - unfold sort_strings. apply isort_perm.
  - intros d Hd. cbn [w_feature set_w_feature set_feature_data feature_data].
    apply elem_of_app. by left.
Qed.

(** Assignments refer to data that was stored. *)
Definition data_stored (w : world) : Prop :=
  ∀ a, a ∈ feature_assignments (w_feature w) →
    ∃ d, d ∈ feature_data (w_feature w) ∧ fd_Name d = ar_FeatureName a ∧ fd_Version d = ar_Version a.

(** [d] is the data of an active assignment of the feature than which none is newer. *)
Definition newest_data (w : world) (name : string) (d : FeatureDatum) : Prop :=
  ∃ a, a ∈ feature_assignments (w_feature w) ∧ ar_Active a = true ∧ ar_FeatureName a = name ∧
    fd_Name d = name ∧ fd_Version d = ar_Version a ∧
    ∀ a', a' ∈ feature_assignments (w_feature w) → ar_Active a' = true → ar_FeatureName a' = name →
      (ar_Created a' <= ar_Created a)%Z.

Lemma LatestFeatureData_newest w name a :
  w_faults w = [] → data_stored w →
  a ∈ feature_assignments (w_feature w) → ar_Active a = true → ar_FeatureName a = name →
  ∃ d, LatestFeatureData name w = (Ok d, w) ∧ newest_data w name d.
Proof.
  intros Hf Hfk Hin Ha Hn. unfold LatestFeatureData. rewrite query_now by done.
  set (rows := concat _).
  assert (Hrows : ∀ r, r ∈ rows ↔ la_assignment r ∈ feature_assignments (w_feature w) ∧
    ar_FeatureName (la_assignment r) = name ∧ ar_Active (la_assignment r) = true ∧
    r ∈ join_data w (la_assignment r)).
  { intros r. unfold rows. rewrite elem_of_concat. split.
    - intros (l & Hr & (b & -> & [[Hb1 Hb2] Hb]%list_elem_of_filter)%list_elem_of_fmap).
      pose proof Hr as (d & -> & Hd)%list_elem_of_fmap. by split_and!.
    - intros (H1 & H2 & H3 & Hr). exists (join_data w (la_assignment r)). split; [done|].
      apply list_elem_of_fmap_2, list_elem_of_filter. by split_and!. }
  assert (Hjoin : ∀ b, b ∈ feature_assignments (w_feature w) → ∃ d, {| la_assignment := b; la_data := d |}
    ∈ join_data w b).
  { intros b Hb. destruct (Hfk b Hb) as (d & Hd & ? & ?). exists d.
    apply list_elem_of_fmap. exists d. split; [done|]. by apply list_elem_of_filter. }
  assert (Hsorted := isort_sorted (λ a b, (ar_Created (la_assignment b) <=? ar_Created (la_assignment a))%Z)
    ltac:(intros; rewrite !Z.leb_le; lia) ltac:(intros ???; rewrite !Z.leb_le; lia) rows).
  assert (Hel : ∀ r, r ∈ isort (λ a b, (ar_Created (la_assignment b) <=? ar_Created (la_assignment a))%Z) rows
    ↔ r ∈ rows) by (intros; apply elem_of_isort).
  destruct (isort _ rows) as [|r rest].
  { destruct (Hjoin a Hin) as [d Hd]. assert ({| la_assignment := a; la_data := d |} ∈ []) as H
      by by apply Hel, Hrows. by apply elem_of_nil in H. }
  destruct r as [b d]. exists d. split; [done|]. exists b.
  assert ({| la_assignment := b; la_data := d |} ∈ rows) as (Hr1 & Hr2 & Hr3 & Hr4)%Hrows
    by (apply Hel; left). cbn [la_assignment] in *.
  apply list_elem_of_fmap in Hr4 as (d0 & [= <-] & [[Hd1 Hd2] _]%list_elem_of_filter).
  split_and!; try done; [congruence|]. intros a' Ha' Hact Hname. destruct (Hjoin a' Ha') as [d' Hd'].
  assert ({| la_assignment := a'; la_data := d' |} ∈ {| la_assignment := b; la_data := d |} :: rest)
    as [[= -> _]|H]%elem_of_cons by by apply Hel, Hrows.
  { done. }
  apply StronglySorted_inv in Hsorted as [_ Hs]. rewrite Forall_forall in Hs.
  apply Hs in H. by apply Z.leb_le in H.
Qed.

(** [FeatureNames] lists, sorted and once each, exactly the features that have an active
    assignment; and every listed feature can be read by name: what is read is the data of an
    active assignment of it than which none is newer.  It needs that assignments refer to
    stored data. *)
Theorem FeatureNames_readable w :
  w_faults w = [] →
  data_stored w →
  ∃ names, FeatureNames w = (Ok names, w) ∧ NoDup names ∧
    StronglySorted (λ a b, String.leb a b = true) names ∧
    ∀ name, name ∈ names ↔ ∃ d, LatestFeatureData name w = (Ok d, w) ∧ newest_data w name d.
Proof.
  intros Hf Hfk. unfold FeatureNames. rewrite query_now by done. eexists. split; [reflexivity|].
  set (active := filter (λ a, ar_Active a = true) (feature_assignments (w_feature w))).
  assert (Hnames : ∀ name, name ∈ sort_strings (distinct_first id [] (ar_FeatureName <$> active)) ↔
    ∃ a, a ∈ feature_assignments (w_feature w) ∧ ar_Active a = true ∧ ar_FeatureName a = name).
  { intros name. unfold sort_strings. rewrite elem_of_isort. split.
    - intros [(a & -> & [Ha Hin]%list_elem_of_filter)%list_elem_of_fmap _]%elem_of_distinct_first.
      by exists a.
    - intros (a & Hin & Ha & <-).
      pose proof (distinct_first_key id [] (ar_FeatureName <$> active) (ar_FeatureName a)) as Hk.
      rewrite !list_fmap_id in Hk. apply Hk; [|apply not_elem_of_nil].
      apply list_elem_of_fmap_2, list_elem_of_filter. by split. }
  split_and!.
  - unfold sort_strings. rewrite isort_perm.
    pose proof (distinct_first_NoDup id [] (ar_FeatureName <$> active)) as Hnd.
    by rewrite list_fmap_id in Hnd.
  - apply isort_sorted; [apply leb_total|apply leb_trans].
  - intros name. rewrite Hnames. split; [|intros (d & _ & a & ? & ? & ? & _); by exists a].
    intros (a & Hin & Ha & Hn). by eapply LatestFeatureData_newest.
Qed.
End catalog.

(** ** Examples *)

Definition no_details : FeatureTemplateDetails :=
  {| td_Management := []; td_Env := []; td_Envs := []; td_All := []; td_Functions := [] |}.

(** A chart that spells a type in upper case and has no default for the key. *)
Definition replicas_config (type : string) : Values :=
  {[ "replicas" := {| v_Description := ""; v_DisplayName := ""; v_Required := false; v_Computed := None;
       v_Config := Some {| c_Type := type; c_Secret := false |}; v_IgnoreKind := [] |} ]}.

Definition spelled_version : Feature :=
  {| f_YAML := {| Dependencies := []; EnvironmentKinds := ["tenant"; "onprem"];
       Timeout := 1500000; f_Values := replicas_config "Int" |};
     f_Name := "app"; f_Chart := "oci://charts/app"; f_Version := "3.0.0"; f_Description := "";
     f_Source := ""; f_ValuesYAML := {[ "replicas" := "" ]}; f_SpecVersion := "v2"; f_TplDetails := "" |}.

Definition spelled_codec : FeatureCodec :=
  {| decode_Dependencies _ := Ok []; json_Unmarshal_Values _ := Ok (replicas_config "INT");
     decode_DefaultValues _ := Ok {[ "replicas" := "null" ]} |}.

Lemma CreateFeatureData_roundtrip_witness :
  ∃ w' f, CreateFeatureData (pg := example_pg) (enc := example_encoder) spelled_version no_details
      example_world = (Ok tt, w') ∧
    FeatureByNameVersion (codec := spelled_codec) "app" "3.0.0" w' = (Ok f, w') ∧
    EnvironmentKinds (f_YAML f) = ["onprem"; "tenant"] ∧ Timeout (f_YAML f) = 1000000%Z ∧
    f_Values (f_YAML f) = replicas_config "int" ∧ f_ValuesYAML f = {[ "replicas" := "null" ]}.
Proof.
  destruct (CreateFeatureData (pg := example_pg) (enc := example_encoder) spelled_version no_details
    example_world) as [[[]|e|p] w'] eqn:E; [|vm_compute in E; discriminate E..].
  destruct (CreateFeatureData_roundtrip (pg := example_pg) (codec := spelled_codec)
    (enc := example_encoder) spelled_version no_details example_world w') as (s & _ & H & _).
  - reflexivity.
  - split; [reflexivity| |reflexivity]. cbv zeta. intros t _. vm_compute. reflexivity.
  - exact E.
  - exists w'. eexists. split; [reflexivity|]. split; [exact H|]. repeat split; vm_compute; reflexivity.
Defined.

Lemma FeatureNames_readable_witness :
  ∃ names d, FeatureNames example_world = (Ok names, example_world) ∧ "app" ∈ names ∧
    LatestFeatureData "app" example_world = (Ok d, example_world) ∧ fd_Version d = "1.0.0".
Proof.
  destruct (FeatureNames_readable example_world) as (names & H1 & _ & _ & H2).
  - reflexivity.
  - intros a ->%list_elem_of_singleton. eexists. split; [left|]. split; reflexivity.
  - assert (names = ["app"]) as -> by (apply (f_equal fst) in H1; vm_compute in H1; by injection H1).
    destruct (proj1 (H2 "app") ltac:(left)) as (d & Hd & _).
    exists ["app"], d. split; [exact H1|]. split; [left|]. split; [exact Hd|].
    apply (f_equal fst) in Hd. vm_compute in Hd. injection Hd as <-. reflexivity.
Defined.
