(* ===== verification/History.v ===== *)
(** * internal/feature/queries.go, featuresql/deploy_instructions.sql.go: deploy history

    The latest instruction, and the latest one that was deployed, of a feature in an
    environment, read one at a time or for a whole environment or feature; and the history
    of instructions, which groups the rows of the log by instruction.  Three of the queries
    order by [created] only, so which of two rows of the same instant comes first is up to
    PostgreSQL: [scan] is the order in which it meets the rows. *)

From S2P Require Export Status.
From S2P Require Import GoStd.

(** feature/model.go; [Values] is not set by any of these reads. *)
Record Instruction := {
  in_ID : uuid; in_EnvironmentID : uuid; in_FeatureAssignmentID : uuid;
  in_FeatureName : string; in_FeatureVersion : string; in_Status : DeployStatus;
  in_Hash : string; in_Created : time; in_LastModified : time;
}.

(** The order in which PostgreSQL meets the rows of a table. *)
Class Scan := { scan : list DeployRow → list DeployRow }.

Definition instruction (r : DeployRow) : Instruction :=
  {| in_ID := dl_Diid r; in_EnvironmentID := dl_EnvironmentID r;
     in_FeatureAssignmentID := dl_FeatureAssignmentID r; in_FeatureName := dl_FeatureName r;
     in_FeatureVersion := dl_FeatureVersion r; in_Status := dl_Status r; in_Hash := dl_Hash r;
     in_Created := dl_Created r; in_LastModified := dl_Created r |}.

(** ** The latest instructions *)

Definition GetLatestDeployInstruction_query (featureName : string) (envID : uuid) : IO DeployRow :=
  query (λ w,
    match filter (λ r, dl_FeatureName r = featureName ∧ dl_EnvironmentID r = envID)
            (deploy_status w) with
    | r :: _ => Ok r
    | [] => Err ErrNoRows
    end).

Definition by_name (l : list DeployRow) : list DeployRow :=
  isort (λ a b, String.leb (dl_FeatureName a) (dl_FeatureName b)) l.

Definition ListLatestDeployInstructionsForEnvironment (envID : uuid) : IO (list DeployRow) :=
  query (λ w, Ok (by_name (filter (λ r, dl_EnvironmentID r = envID) (deploy_status w)))).

Definition ListLatestDeployInstructionsForFeature (featureName : string) : IO (list DeployRow) :=
  query (λ w, Ok (by_env_deploy (filter (λ r, dl_FeatureName r = featureName) (deploy_status w)))).

(** [ORDER BY .., created DESC] *)
Definition later_first (a b : DeployRow) : bool := (dl_Created b <=? dl_Created a)%Z.

Definition ListLatestDeployedForEnvironment `{Scan} (envID : uuid) : IO (list DeployRow) :=
  query (λ w, Ok (distinct_first dl_FeatureName []
    (isort (then_by (λ a b, String.leb (dl_FeatureName a) (dl_FeatureName b)) later_first)
       (filter (λ r, dl_EnvironmentID r = envID ∧ dl_Status r = DeployStatusDeployed)
          (scan (deploy_log (w_rec w))))))).

Definition ListLatestDeployedForFeature `{Scan} (featureName : string) : IO (list DeployRow) :=
  query (λ w, Ok (distinct_first dl_EnvironmentID []
    (isort (then_by (λ a b, N.leb (dl_EnvironmentID a) (dl_EnvironmentID b)) later_first)
       (filter (λ r, dl_FeatureName r = featureName ∧ dl_Status r = DeployStatusDeployed)
          (scan (deploy_log (w_rec w))))))).

Definition GetLatestDeployInstruction (envID : uuid) (featureName : string) : IO Instruction :=
  di ← GetLatestDeployInstruction_query featureName envID;
  mret (instruction di).

(** [out[key(di)] = &DeployInstruction{..}] for every row. *)
Definition out_by {K} `{Countable K} (key : DeployRow → K) (rows : list DeployRow)
    : gmap K Instruction :=
  foldl (λ out di, <[key di := instruction di]> out) ∅ rows.

Definition LatestDeployInstructionsForEnvironment (envID : uuid) : IO (gmap string Instruction) :=
  rows ← ListLatestDeployInstructionsForEnvironment envID;
  mret (out_by dl_FeatureName rows).

Definition LatestDeployedForEnvironment `{Scan} (envID : uuid) : IO (gmap string Instruction) :=
  rows ← ListLatestDeployedForEnvironment envID;
  mret (out_by dl_FeatureName rows).

Definition LatestDeployInstructionsForFeature (featureName : string) : IO (gmap N Instruction) :=
  rows ← ListLatestDeployInstructionsForFeature featureName;
  mret (out_by dl_EnvironmentID rows).

Definition LatestDeployedForFeature `{Scan} (featureName : string) : IO (gmap N Instruction) :=
  rows ← ListLatestDeployedForFeature featureName;
  mret (out_by dl_EnvironmentID rows).

(** ** The history *)

Definition ListDeployLog `{Scan} (featureName : string) (envID : uuid) : IO (list DeployRow) :=
  query (λ w, Ok (isort (λ a b, (dl_Created a <=? dl_Created b)%Z)
    (filter (λ r, dl_FeatureName r = featureName ∧ dl_EnvironmentID r = envID)
       (scan (deploy_log (w_rec w)))))).

(** [d.Status = r.Status; d.LastModified = r.Created] *)
Definition set_current (r : DeployRow) (d : Instruction) : Instruction :=
  {| in_ID := in_ID d; in_EnvironmentID := in_EnvironmentID d;
     in_FeatureAssignmentID := in_FeatureAssignmentID d; in_FeatureName := in_FeatureName d;
     in_FeatureVersion := in_FeatureVersion d; in_Status := dl_Status r; in_Hash := in_Hash d;
     in_Created := in_Created d; in_LastModified := dl_Created r |}.

(** One round of the loop, on [byDiid] and [order].  The status and the time of change that
    a new entry has in the model before [set_current] are never seen. *)
Definition group_row (s : gmap N Instruction * list uuid) (r : DeployRow)
    : gmap N Instruction * list uuid :=
  let '(byDiid, order) := s in
  match byDiid !! dl_Diid r with
  | Some d => (<[dl_Diid r := set_current r d]> byDiid, order)
  | None => (<[dl_Diid r := set_current r (instruction r)]> byDiid, order ++ [dl_Diid r])
  end.

(** [omap] reads the map at keys that are in it. *)
Definition history (rows : list DeployRow) (limit : Z) : list Instruction :=
  let '(byDiid, order) := foldl group_row (∅, []) rows in
  let result := omap (λ d, byDiid !! d) (rev order) in
  if (0 <? limit)%Z && (limit <? Z.of_nat (length result))%Z
  then take (Z.to_nat limit) result else result.

Definition ListRecentDeployInstructions `{Scan} (envID : uuid) (featureName : string) (limit : Z)
    : IO (list Instruction) :=
  rows ← ListDeployLog featureName envID;
  mret (history rows limit).

(** ** What the loop builds *)

(** The entry of an instruction, from the rows of the log that belong to it. *)
Definition entry_of (rows : list DeployRow) : option Instruction :=
  match rows with
  | [] => None
  | first :: _ => (λ l, set_current l (instruction first)) <$> last rows
  end.

Lemma entry_of_snoc rows r :
  entry_of (rows ++ [r]) = Some (match entry_of rows with
                                 | Some d => set_current r d
                                 | None => set_current r (instruction r) end).
Proof.
  destruct rows as [|first rows]; [done|]. unfold entry_of. cbn [app].
  change (first :: rows ++ [r]) with ((first :: rows) ++ [r]). rewrite last_snoc.
  destruct (last (first :: rows)) as [l|] eqn:E; [done|]. by apply last_None in E.
Qed.

Definition rows_of_diid (d : uuid) (rows : list DeployRow) : list DeployRow :=
  filter (λ r, dl_Diid r = d) rows.

Lemma entry_of_None rows d : entry_of (rows_of_diid d rows) = None ↔ d ∉ dl_Diid <$> rows.
Proof.
  unfold rows_of_diid. rewrite list_elem_of_fmap. split.
  - destruct (filter _ rows) as [|f l] eqn:E.
    + intros _ (r & -> & Hr).
      assert (r ∈ filter (λ r', dl_Diid r' = dl_Diid r) rows) as H by by apply list_elem_of_filter.
      rewrite E in H. by apply elem_of_nil in H.
    + unfold entry_of. destruct (last (f :: l)) eqn:El; [done|]. by apply last_None in El.
  - intros Hn. destruct (filter _ rows) as [|f l] eqn:E; [done|]. exfalso. apply Hn.
    assert (f ∈ filter (λ r, dl_Diid r = d) rows) as [Hd Hf]%list_elem_of_filter
      by (rewrite E; left). by exists f.
Qed.

Lemma group_rows_spec rows :
  (∀ d, (foldl group_row (∅, []) rows).1 !! d = entry_of (rows_of_diid d rows)) ∧
  (foldl group_row (∅, []) rows).2 = dl_Diid <$> distinct_first dl_Diid [] rows.
Proof.
  induction rows as [|r rows [IHm IHo]] using rev_ind; [split; [|done]; intros; apply lookup_empty|].
  rewrite foldl_app. cbn [foldl].
  destruct (foldl group_row (∅, []) rows) as [byDiid order] eqn:E. cbn [fst snd] in *. subst order.
  unfold group_row. rewrite distinct_first_snoc.
  assert (Hm : ∀ d v, v = (match entry_of (rows_of_diid (dl_Diid r) rows) with
                           | Some d => set_current r d
                           | None => set_current r (instruction r) end) →
    <[dl_Diid r := v]> byDiid !! d = entry_of (rows_of_diid d (rows ++ [r]))).
  { intros d v ->. unfold rows_of_diid. rewrite filter_app, filter_cons, filter_nil.
    destruct (decide (dl_Diid r = d)) as [<-|Hd].
    - by rewrite lookup_insert_eq, entry_of_snoc.
    - rewrite lookup_insert_ne, app_nil_r by done. apply IHm. }
  destruct (byDiid !! dl_Diid r) as [d|] eqn:Ed; rewrite IHm in Ed; cbn [fst snd].
  - split; [intros; apply Hm; by rewrite Ed|]. rewrite bool_decide_eq_true_2; [done|]. right.
    destruct (decide (dl_Diid r ∈ dl_Diid <$> rows)) as [|Hn]; [done|].
    apply entry_of_None in Hn. congruence.
  - split; [intros; apply Hm; by rewrite Ed|]. apply entry_of_None in Ed.
    rewrite bool_decide_eq_false_2; [by rewrite fmap_app|]. intros [H%elem_of_nil|?]; done.
Qed.

(** ** Order *)

Lemma distinct_first_sublist {A K} `{EqDecision K} (key : A → K) seen l :
  distinct_first key seen l `sublist_of` l.
Proof.
  revert seen. induction l as [|x l IH]; intros seen; cbn [distinct_first]; [done|].
  case_bool_decide; [by apply sublist_cons|by apply sublist_skip].
Qed.

(** The row [DISTINCT ON] keeps is the first of its key. *)
Lemma distinct_first_head {A K} `{EqDecision K} (key : A → K) seen l x :
  x ∈ distinct_first key seen l → head (filter (λ y, key y = key x) l) = Some x.
Proof.
  revert seen. induction l as [|y l IH]; intros seen; cbn [distinct_first]; [by intros ?%elem_of_nil|].
  intros Hx. rewrite filter_cons. case_bool_decide as Hy.
  - rewrite decide_False; [by eapply IH|]. intros He. apply elem_of_distinct_first in Hx as [_ Hn].
    by rewrite He in Hy.
  - apply elem_of_cons in Hx as [->|Hx]; [by rewrite decide_True|].
    rewrite decide_False; [by eapply IH|]. intros He.
    apply elem_of_distinct_first in Hx as [_ Hn]. apply Hn. rewrite <-He. left.
Qed.

Definition created_le (a b : DeployRow) : Prop := (dl_Created a <= dl_Created b)%Z.

(** The instruction published by [first], as [rows] tell it. *)
Definition entry (rows : list DeployRow) (first : DeployRow) : Instruction :=
  set_current (default first (last (rows_of_diid (dl_Diid first) rows))) (instruction first).

(** What the history says of an instruction, in terms of the rows of the log. *)
Record describes (rows : list DeployRow) (d : Instruction) (first final : DeployRow) : Prop := {
  de_first : first ∈ rows;
  de_final : final ∈ rows;
  de_id : in_ID d = dl_Diid first ∧ in_ID d = dl_Diid final;
  de_published : in_EnvironmentID d = dl_EnvironmentID first ∧
    in_FeatureAssignmentID d = dl_FeatureAssignmentID first ∧
    in_FeatureName d = dl_FeatureName first ∧
    in_FeatureVersion d = dl_FeatureVersion first ∧ in_Hash d = dl_Hash first ∧
    in_Created d = dl_Created first;
  de_now : in_Status d = dl_Status final ∧ in_LastModified d = dl_Created final;
  de_between : ∀ r, r ∈ rows → dl_Diid r = in_ID d → created_le first r ∧ created_le r final;
}.

Lemma rows_of_diid_head rows first :
  first ∈ distinct_first dl_Diid [] rows → ∃ l, rows_of_diid (dl_Diid first) rows = first :: l.
Proof.
  intros Hf%distinct_first_head. unfold rows_of_diid.
  destruct (filter _ rows) as [|f l]; [done|]. injection Hf as ->. by exists l.
Qed.

Lemma entry_describes rows first :
  StronglySorted created_le rows → first ∈ distinct_first dl_Diid [] rows →
  ∃ final, describes rows (entry rows first) first final.
Proof.
  intros Hs Hf. destruct (rows_of_diid_head _ _ Hf) as [l Hl].
  assert (Hsub : rows_of_diid (dl_Diid first) rows `sublist_of` rows) by apply sublist_filter.
  pose proof (StronglySorted_sublist _ _ _ Hsub Hs) as Hs'.
  destruct (last (rows_of_diid (dl_Diid first) rows)) as [final|] eqn:El;
    [|apply last_None in El; congruence].
  assert (Hfin : final ∈ rows_of_diid (dl_Diid first) rows)
    by (apply last_Some in El as (l' & ->); apply elem_of_app; right; left).
  exists final. unfold entry. rewrite El. pose proof Hfin as [Hid Hfin']%list_elem_of_filter.
  split; [by apply elem_of_distinct_first in Hf as [? _]|done|by split|done|done|].
  cbn. intros r Hr Hd. assert (Hin : r ∈ rows_of_diid (dl_Diid first) rows) by by apply list_elem_of_filter.
  split.
  - rewrite Hl in Hin, Hs'. apply StronglySorted_inv in Hs' as [_ Hs'].
    apply elem_of_cons in Hin as [->|Hin]; [unfold created_le; lia|].
    rewrite Forall_forall in Hs'. by apply Hs'.
  - destruct (StronglySorted_last _ _ _ _ Hs' El Hin) as [->|?]; [unfold created_le; lia|done].
Qed.

Lemma omap_rev_fmap {A B C} (f : A → option B) (g : C → A) (h : C → B) l :
  (∀ c, c ∈ l → f (g c) = Some (h c)) → omap f (rev (g <$> l)) = rev (h <$> l).
Proof.
  induction l as [|c l IH]; intros H; [done|]. rewrite !fmap_cons. cbn [rev].
  rewrite omap_app, IH by (intros; apply H; by right). f_equal. cbn. rewrite H by left. done.
Qed.

Definition full_history (rows : list DeployRow) : list Instruction :=
  rev (entry rows <$> distinct_first dl_Diid [] rows).

(** The loop yields one entry per instruction, the newest first, cut off at the limit. *)
Lemma history_eq rows limit :
  history rows limit =
    if (0 <? limit)%Z then take (Z.to_nat limit) (full_history rows) else full_history rows.
Proof.
  unfold history. destruct (group_rows_spec rows) as [Hm Ho].
  destruct (foldl group_row (∅, []) rows) as [byDiid order]. cbn [fst snd] in *. subst order.
  rewrite (omap_rev_fmap _ _ (entry rows)).
  - fold (full_history rows). destruct (Z.ltb_spec 0 limit); [|done]. cbn [andb].
    destruct (Z.ltb_spec limit (Z.of_nat (length (full_history rows)))); [done|].
    rewrite take_ge; [done|lia].
  - intros r Hr. rewrite Hm. destruct (rows_of_diid_head _ _ Hr) as [l Hl]. unfold entry.
    rewrite Hl. cbn [entry_of]. destruct (last (r :: l)) eqn:E; [done|]. by apply last_None in E.
Qed.

Lemma full_history_ids rows : in_ID <$> full_history rows = rev (dl_Diid <$> distinct_first dl_Diid [] rows).
Proof.
  transitivity (rev (in_ID <$> (entry rows <$> distinct_first dl_Diid [] rows)));
    [exact (map_rev _ _)|by rewrite <-list_fmap_compose].
Qed.

Lemma full_history_sorted rows :
  StronglySorted created_le rows →
  StronglySorted (λ a b, (in_Created b <= in_Created a)%Z) (full_history rows).
Proof.
  intros Hs. apply (StronglySorted_rev (λ a b, (in_Created a <= in_Created b)%Z)).
  apply (StronglySorted_fmap _ created_le); [done|].
  eapply StronglySorted_sublist; [apply distinct_first_sublist|done].
Qed.

Lemma elem_of_full_history rows d :
  StronglySorted created_le rows → d ∈ full_history rows →
  ∃ first final, describes rows d first final.
Proof.
  intros Hs Hd. apply list_elem_of_In, in_rev, list_elem_of_In in Hd.
  apply list_elem_of_fmap in Hd as (first & -> & Hf).
  destruct (entry_describes _ _ Hs Hf) as [final H]. by exists first, final.
Qed.

(** What a history that was cut off at the limit leaves out is not newer than what it shows. *)
Lemma take_oldest rows n d d' :
  StronglySorted created_le rows → d ∈ full_history rows → d ∉ take n (full_history rows) →
  d' ∈ take n (full_history rows) → (in_Created d <= in_Created d')%Z.
Proof.
  intros Hs Hd Hn Hd'. pose proof (full_history_sorted _ Hs) as Hh.
  rewrite <-(take_drop n (full_history rows)) in Hd, Hh.
  apply elem_of_app in Hd as [?|Hd]; [done|].
  exact (StronglySorted_app_1_elem_of _ _ _ _ _ Hh Hd' Hd).
Qed.

Lemma describes_perm rows1 rows2 d first final :
  rows1 ≡ₚ rows2 → describes rows1 d first final → describes rows2 d first final.
Proof.
  intros HP [H1 H2 H3 H4 H5 H6]. rewrite HP in H1, H2. split; try done.
  intros r Hr. rewrite <-HP in Hr. by apply H6.
Qed.

Lemma created_sorted l :
  StronglySorted created_le (isort (λ a b, (dl_Created a <=? dl_Created b)%Z) l).
Proof.
  eapply StronglySorted_impl; [|apply isort_sorted].
  - intros a b H. by apply Z.leb_le in H.
  - intros x y. rewrite !Z.leb_le. lia.
  - intros x y z. rewrite !Z.leb_le. lia.
Qed.

(** ** Looking a row up in a list *)

Lemma out_by_lookup {K} `{Countable K} (key : DeployRow → K) rows k :
  out_by key rows !! k = instruction <$> last (filter (λ r, key r = k) rows).
Proof.
  unfold out_by. induction rows as [|r rows IH] using rev_ind; [apply lookup_empty|].
  rewrite foldl_app, filter_app, filter_cons, filter_nil. cbn [foldl].
  destruct (decide (key r = k)) as [<-|Hk].
  - by rewrite lookup_insert_eq, last_snoc.
  - by rewrite lookup_insert_ne, app_nil_r by done.
Qed.

Lemma out_by_unique {K} `{Countable K} (key : DeployRow → K) rows k o :
  NoDup rows → (∀ r, r ∈ rows ∧ key r = k ↔ o = Some r) → out_by key rows !! k = instruction <$> o.
Proof.
  intros Hnd Ho. rewrite out_by_lookup, (list_of_option (filter (λ r, key r = k) rows) o).
  - by destruct o.
  - by apply NoDup_filter.
  - intros x. rewrite list_elem_of_filter, <-Ho. tauto.
Qed.

Lemma distinct_first_at {A K} `{EqDecision K} (key : A → K) l k :
  filter (λ y, key y = k) (distinct_first key [] l) = option_list (head (filter (λ y, key y = k) l)).
Proof.
  assert (Hx : ∀ x, x ∈ distinct_first key [] l → key x = k → head (filter (λ y, key y = k) l) = Some x)
    by (intros x Hx <-; by eapply distinct_first_head).
  apply list_of_option.
  - apply NoDup_filter, NoDup_fmap_1 with key, distinct_first_NoDup.
  - intros x. rewrite list_elem_of_filter. split; [intros [??]; by apply Hx|]. intros Hh.
    assert (Hin : x ∈ filter (λ y, key y = k) l) by (destruct (filter _ l); [done|injection Hh as ->; left]).
    apply list_elem_of_filter in Hin as [Hk Hin].
    assert (k ∈ key <$> distinct_first key [] l) as (y & Hy & Hyin)%list_elem_of_fmap.
    { apply distinct_first_key; [|apply not_elem_of_nil]. apply list_elem_of_fmap. by exists x. }
    assert (y = x) as ->; [|done]. enough (Some y = Some x) as [= ->] by done.
    rewrite <-Hh. symmetry. by apply Hx.
Qed.

Lemma deploy_status_NoDup w : logs_wf w → NoDup (deploy_status w).
Proof.
  intros Hwf. unfold deploy_status. rewrite isort_perm. apply NoDup_fmap_2_strong; [|apply NoDup_map_to_list].
  intros [k1 r1] [k2 r2] H1%elem_of_map_to_list H2%elem_of_map_to_list. cbn [snd]. intros ->.
  apply deploy_current_key in H1, H2; [|done..]. by subst.
Qed.

Section reads.
Context `{sc : Scan}.
Context (scan_perm : ∀ l, scan l ≡ₚ l).

Definition log_rows (w : world) (envID : uuid) (featureName : string) : list DeployRow :=
  filter (λ r, dl_FeatureName r = featureName ∧ dl_EnvironmentID r = envID) (deploy_log (w_rec w)).

Lemma history_of_perm rows0 rows limit :
  rows ≡ₚ rows0 → StronglySorted created_le rows →
  let ds := history rows limit in
  NoDup (in_ID <$> ds) ∧
  StronglySorted (λ a b, (in_Created b <= in_Created a)%Z) ds ∧
  (∀ d, d ∈ ds → ∃ first final, describes rows0 d first final) ∧
  ((0 < limit)%Z → (Z.of_nat (length ds) <= limit)%Z) ∧
  ((limit <= 0)%Z → ∀ r, r ∈ rows0 → dl_Diid r ∈ in_ID <$> ds) ∧
  ∀ r, r ∈ rows0 → dl_Diid r ∉ in_ID <$> ds →
    (0 < limit)%Z ∧ Z.of_nat (length ds) = limit ∧
    ∃ first final d, describes rows0 d first final ∧ in_ID d = dl_Diid r ∧
      ∀ d', d' ∈ ds → (in_Created d <= in_Created d')%Z.
Proof.
  intros HP Hs. cbn zeta. rewrite history_eq.
  assert (Hnd : NoDup (in_ID <$> full_history rows)).
  { rewrite full_history_ids. apply NoDup_ListNoDup, NoDup_rev, NoDup_ListNoDup, distinct_first_NoDup. }
  assert (Hel : ∀ d, d ∈ full_history rows → ∃ first final, describes rows0 d first final).
  { intros d Hd. destruct (elem_of_full_history _ _ Hs Hd) as (f & l & Hfl).
    exists f, l. by apply (describes_perm rows). }
  assert (Hall : ∀ r, r ∈ rows0 → ∃ d, d ∈ full_history rows ∧ in_ID d = dl_Diid r).
  { intros r Hr. rewrite <-HP in Hr.
    assert (dl_Diid r ∈ in_ID <$> full_history rows) as (d & Hd & Hin)%list_elem_of_fmap; [|by exists d].
    rewrite full_history_ids. apply list_elem_of_In, in_rev. rewrite rev_involutive.
    apply list_elem_of_In, distinct_first_key; [|apply not_elem_of_nil].
    apply list_elem_of_fmap. by exists r. }
  destruct (Z.ltb_spec 0 limit) as [Hl|Hl].
  - split_and!.
    + eapply sublist_NoDup; [exact Hnd|]. apply fmap_sublist, sublist_take.
    + eapply StronglySorted_sublist; [apply sublist_take|by apply full_history_sorted].
    + intros d Hd. apply Hel. by eapply sublist_subseteq, Hd; apply sublist_take.
    + intros _. rewrite length_take. lia.
    + lia.
    + intros r Hr Hn. destruct (Hall r Hr) as (d & Hd & Hid).
      assert (Hd' : d ∉ take (Z.to_nat limit) (full_history rows)).
      { intros Hin. apply Hn. apply list_elem_of_fmap. by exists d. }
      split; [done|]. split.
      * rewrite length_take.
        destruct (decide (length (full_history rows) ≤ Z.to_nat limit)) as [Hle|Hgt]; [|lia].
        by rewrite take_ge in Hd'.
      * destruct (Hel d Hd) as (f & l & Hfl). exists f, l, d. split; [done|]. split; [done|].
        intros d' Hin. by eapply take_oldest.
  - assert (∀ r, r ∈ rows0 → dl_Diid r ∈ in_ID <$> full_history rows) as Hin
      by (intros r (d & Hd & Hid)%Hall; apply list_elem_of_fmap; by exists d).
    split_and!; [done|by apply full_history_sorted|done|lia|by intros _|].
    intros r Hr Hn. by destruct Hn; apply Hin.
Qed.

(** C38.  The history of a feature in an environment has one entry for each instruction, the
    newest first: its version, hash and time are those of the instruction's first row in
    the log, its status and time of change those of its last.  A positive limit bounds
    its length, and what it leaves out was not published later than what it shows; without
    a limit, which 0 or a negative number says, nothing is left out.  All this whatever order PostgreSQL gives to rows of the
    same instant. *)
Theorem ListRecentDeployInstructions_spec w envID featureName limit :
  w_faults w = [] →
  ∃ ds, ListRecentDeployInstructions envID featureName limit w = (Ok ds, w) ∧
    let rows := log_rows w envID featureName in
    NoDup (in_ID <$> ds) ∧
    StronglySorted (λ a b, (in_Created b <= in_Created a)%Z) ds ∧
    (∀ d, d ∈ ds → ∃ first final, describes rows d first final) ∧
    ((0 < limit)%Z → (Z.of_nat (length ds) <= limit)%Z) ∧
    ((limit <= 0)%Z → ∀ r, r ∈ rows → dl_Diid r ∈ in_ID <$> ds) ∧
    ∀ r, r ∈ rows → dl_Diid r ∉ in_ID <$> ds →
      (0 < limit)%Z ∧ Z.of_nat (length ds) = limit ∧
      ∃ first final d, describes rows d first final ∧ in_ID d = dl_Diid r ∧
        ∀ d', d' ∈ ds → (in_Created d <= in_Created d')%Z.
Proof.
  intros Hf. unfold ListRecentDeployInstructions, ListDeployLog, mbind, M_bind.
  rewrite query_now by done. eexists. split; [reflexivity|].
  apply history_of_perm; [|apply created_sorted].
  rewrite isort_perm. unfold log_rows. by rewrite scan_perm.
Qed.

(** ** The latest reads agree *)

Lemma status_row w envID featureName r :
  logs_wf w →
  (r ∈ deploy_status w ∧ dl_EnvironmentID r = envID ∧ dl_FeatureName r = featureName) ↔
  distinct_on (deploy_log (w_rec w)) (envID, featureName) = Some r.
Proof.
  intros Hwf. rewrite elem_of_deploy_status by done.
  rewrite <-(current_is_distinct_on (deploy_log (w_rec w)) (deploy_log (w_rec w)) (envID, featureName))
    by (done || exact (wf_deploy_ids _ Hwf)).
  rewrite <-(wf_deploy_current _ Hwf). split.
  - intros (H & <- & <-). exact H.
  - intros Hr. pose proof (deploy_current_key _ _ _ Hwf Hr) as Hk. rewrite Hk. split; [done|].
    by injection Hk.
Qed.

(** The three ways to read the latest instruction agree: for an environment and a
    feature, the entry of the read over the environment is the entry of the read over the
    feature, and both are the single read, which reports that there are no rows exactly
    when they have no entry; and it is the latest row of the log, by time and id. *)
Theorem LatestDeployInstructions_agree w envID featureName :
  w_faults w = [] → logs_wf w →
  ∃ byName byEnv,
    LatestDeployInstructionsForEnvironment envID w = (Ok byName, w) ∧
    LatestDeployInstructionsForFeature featureName w = (Ok byEnv, w) ∧
    let latest := instruction <$> distinct_on (deploy_log (w_rec w)) (envID, featureName) in
    byName !! featureName = latest ∧ byEnv !! envID = latest ∧
    GetLatestDeployInstruction envID featureName w =
      (match latest with Some d => Ok d | None => Err ErrNoRows end, w).
Proof.
  intros Hf Hwf. pose proof (deploy_status_NoDup _ Hwf) as Hnd.
  set (o := distinct_on (deploy_log (w_rec w)) (envID, featureName)).
  assert (Ho : ∀ r, (r ∈ deploy_status w ∧ dl_EnvironmentID r = envID ∧ dl_FeatureName r = featureName) ↔
    o = Some r) by (intros; by apply status_row).
  unfold LatestDeployInstructionsForEnvironment, LatestDeployInstructionsForFeature,
    GetLatestDeployInstruction, ListLatestDeployInstructionsForEnvironment,
    ListLatestDeployInstructionsForFeature, GetLatestDeployInstruction_query, mbind, M_bind.
  rewrite !query_now by done. eexists _, _. split; [done|]. split; [done|]. split_and!.
  - apply out_by_unique.
    + unfold by_name. rewrite isort_perm. by apply NoDup_filter.
    + intros r. unfold by_name. rewrite elem_of_isort, list_elem_of_filter, <-Ho. tauto.
  - apply out_by_unique.
    + unfold by_env_deploy. rewrite isort_perm. by apply NoDup_filter.
    + intros r. unfold by_env_deploy. rewrite elem_of_isort, list_elem_of_filter, <-Ho. tauto.
  - rewrite (list_of_option (filter _ (deploy_status w)) o).
    + by destruct o.
    + by apply NoDup_filter.
    + intros x. rewrite list_elem_of_filter, <-Ho. tauto.
Qed.

(** [d] is an instruction that was deployed, and none was later. *)
Definition last_deployed (w : world) (envID : uuid) (featureName : string) (d : Instruction) : Prop :=
  ∃ r, r ∈ log_rows w envID featureName ∧ dl_Status r = DeployStatusDeployed ∧ d = instruction r ∧
    ∀ r', r' ∈ log_rows w envID featureName → dl_Status r' = DeployStatusDeployed → created_le r' r.

Lemma deployed_lookup {K} `{Countable K} (key : DeployRow → K) (leb : DeployRow → DeployRow → bool) rows k :
  (∀ a b, leb a b = true ∨ leb b a = true) →
  (∀ a b c, leb a b = true → leb b c = true → leb a c = true) →
  (∀ a b, key a = key b → leb a b = true) →
  match out_by key (distinct_first key [] (isort (then_by leb later_first) rows)) !! k with
  | Some d => ∃ r, r ∈ rows ∧ key r = k ∧ d = instruction r ∧
                ∀ r', r' ∈ rows → key r' = k → created_le r' r
  | None => ∀ r, r ∈ rows → key r ≠ k
  end.
Proof.
  intros Htot Htrans Hkey.
  assert (Ht : ∀ x y z, then_by leb later_first x y = true → then_by leb later_first y z = true →
    then_by leb later_first x z = true).
  { apply then_by_trans; [done|]. intros x y z. unfold later_first. rewrite !Z.leb_le. lia. }
  assert (Hs : StronglySorted (λ a b, then_by leb later_first a b = true)
    (filter (λ y, key y = k) (isort (then_by leb later_first) rows))).
  { eapply StronglySorted_sublist; [apply sublist_filter|]. apply isort_sorted; [|exact Ht].
    apply then_by_total; [done|]. intros x y. unfold later_first. rewrite !Z.leb_le. lia. }
  rewrite out_by_lookup, distinct_first_at.
  assert (Hel : ∀ r, r ∈ filter (λ y, key y = k) (isort (then_by leb later_first) rows) ↔
    r ∈ rows ∧ key r = k) by (intros; rewrite list_elem_of_filter, elem_of_isort; tauto).
  destruct (filter _ (isort _ rows)) as [|r l]; cbn.
  - intros r Hr Hk. assert (r ∈ []) as ?%elem_of_nil by by apply Hel. done.
  - assert (r ∈ r :: l) as [Hr Hk]%Hel by left. exists r. split; [done|]. split; [done|]. split; [done|].
    intros r' Hr' Hk'. assert (r' ∈ r :: l) as [->|Hin]%elem_of_cons by (by apply Hel);
      [unfold created_le; lia|].
    apply StronglySorted_inv in Hs as [_ Hs]. rewrite Forall_forall in Hs.
    apply Hs, then_by_true in Hin as [_ Hin]. specialize (Hin (Hkey r' r ltac:(congruence))).
    by apply Z.leb_le in Hin.
Qed.

Lemma last_deployed_created w envID featureName d1 d2 :
  last_deployed w envID featureName d1 → last_deployed w envID featureName d2 →
  in_Created d1 = in_Created d2.
Proof.
  intros (r1 & H1 & Hs1 & -> & Hm1) (r2 & H2 & Hs2 & -> & Hm2). cbn.
  specialize (Hm1 _ H2 Hs2). specialize (Hm2 _ H1 Hs1). unfold created_le in *. lia.
Qed.

Lemma elem_of_log_rows w envID featureName r :
  r ∈ log_rows w envID featureName ↔
  r ∈ scan (deploy_log (w_rec w)) ∧ dl_FeatureName r = featureName ∧ dl_EnvironmentID r = envID.
Proof. unfold log_rows. rewrite list_elem_of_filter, scan_perm. tauto. Qed.

Lemma deployed_read {K} `{Countable K} (key : DeployRow → K) leb rows k w envID featureName :
  (∀ a b, leb a b = true ∨ leb b a = true) →
  (∀ a b c, leb a b = true → leb b c = true → leb a c = true) →
  (∀ a b, key a = key b → leb a b = true) →
  (∀ r, r ∈ rows ∧ key r = k ↔
     r ∈ log_rows w envID featureName ∧ dl_Status r = DeployStatusDeployed) →
  match out_by key (distinct_first key [] (isort (then_by leb later_first) rows)) !! k with
  | Some d => last_deployed w envID featureName d
  | None => ∀ r, r ∈ log_rows w envID featureName → dl_Status r ≠ DeployStatusDeployed
  end.
Proof.
  intros Htot Htrans Hkey Hrows. pose proof (deployed_lookup key leb rows k Htot Htrans Hkey) as Hl.
  destruct (_ !! k) as [d|].
  - destruct Hl as (r & Hr & Hk & -> & Hmax).
    destruct (proj1 (Hrows r) (conj Hr Hk)) as [Hr' Hs]. exists r. split_and!; [done..|].
    intros r' Hr'' Hs'. destruct (proj2 (Hrows r') (conj Hr'' Hs')) as [? ?]. by apply Hmax.
  - intros r Hr Hs. destruct (proj2 (Hrows r) (conj Hr Hs)) as [Hr' Hk]. by eapply Hl.
Qed.

Lemma deployed_by_name w envID featureName :
  match out_by dl_FeatureName (distinct_first dl_FeatureName []
    (isort (then_by (λ a b, String.leb (dl_FeatureName a) (dl_FeatureName b)) later_first)
       (filter (λ r, dl_EnvironmentID r = envID ∧ dl_Status r = DeployStatusDeployed)
          (scan (deploy_log (w_rec w)))))) !! featureName with
  | Some d => last_deployed w envID featureName d
  | None => ∀ r, r ∈ log_rows w envID featureName → dl_Status r ≠ DeployStatusDeployed
  end.
Proof.
  apply deployed_read.
  - intros a b. apply leb_total.
  - intros a b c. apply leb_trans.
  - intros a b ->. destruct (leb_total (dl_FeatureName b) (dl_FeatureName b)); done.
  - intros r. rewrite list_elem_of_filter, elem_of_log_rows. tauto.
Qed.

Lemma deployed_by_env w envID featureName :
  match out_by dl_EnvironmentID (distinct_first dl_EnvironmentID []
    (isort (then_by (λ a b, N.leb (dl_EnvironmentID a) (dl_EnvironmentID b)) later_first)
       (filter (λ r, dl_FeatureName r = featureName ∧ dl_Status r = DeployStatusDeployed)
          (scan (deploy_log (w_rec w)))))) !! envID with
  | Some d => last_deployed w envID featureName d
  | None => ∀ r, r ∈ log_rows w envID featureName → dl_Status r ≠ DeployStatusDeployed
  end.
Proof.
  apply deployed_read.
  - intros a b. rewrite !N.leb_le. lia.
  - intros a b c. rewrite !N.leb_le. lia.
  - intros a b ->. by apply N.leb_le.
  - intros r. rewrite list_elem_of_filter, elem_of_log_rows. tauto.
Qed.

(** The two ways to read the last deployed instruction agree: for an environment and a
    feature both have an entry or neither, both entries are of the same instant, and each
    is a row of the log that says deployed and that no such row is later than.  When the
    latest row of all says deployed, both are of its instant. *)
Theorem LatestDeployed_agree w envID featureName :
  w_faults w = [] →
  ∃ byName byEnv,
    LatestDeployedForEnvironment envID w = (Ok byName, w) ∧
    LatestDeployedForFeature featureName w = (Ok byEnv, w) ∧
    in_Created <$> byName !! featureName = in_Created <$> byEnv !! envID ∧
    (∀ d, byName !! featureName = Some d ∨ byEnv !! envID = Some d →
       last_deployed w envID featureName d) ∧
    ∀ r, distinct_on (deploy_log (w_rec w)) (envID, featureName) = Some r →
      dl_Status r = DeployStatusDeployed → in_Created <$> byName !! featureName = Some (dl_Created r).
Proof.
  intros Hf. unfold LatestDeployedForEnvironment, LatestDeployedForFeature,
    ListLatestDeployedForEnvironment, ListLatestDeployedForFeature, mbind, M_bind.
  rewrite !query_now by done. eexists _, _. split; [done|]. split; [done|].
  assert (H1 := deployed_by_name w envID featureName).
  assert (H2 := deployed_by_env w envID featureName).
  match goal with |- _ <$> ?m1 !! _ = _ <$> ?m2 !! _ ∧ _ => set (byName := m1) in *; set (byEnv := m2) in * end.
  split_and!.
  - destruct (byName !! featureName) as [d1|] eqn:E1, (byEnv !! envID) as [d2|] eqn:E2; [..|done].
    + cbn. f_equal. by eapply last_deployed_created.
    + destruct H1 as (r & Hr & Hs & _). by apply H2 in Hr.
    + destruct H2 as (r & Hr & Hs & _). by apply H1 in Hr.
  - intros d [Hd|Hd]; [by rewrite Hd in H1|by rewrite Hd in H2].
  - intros r Hr Hs. pose proof (distinct_on_latest (deploy_log (w_rec w)) (envID, featureName)) as Hl.
    rewrite Hr in Hl. destruct Hl as (Hin & [= Hk1 Hk2] & Hm).
    assert (Hrow : r ∈ log_rows w envID featureName) by by apply list_elem_of_filter.
    destruct (byName !! featureName) as [d|]; [|by apply H1 in Hrow].
    destruct H1 as (r' & Hr' & Hs' & -> & Hmax). cbn. f_equal.
    specialize (Hmax _ Hrow Hs). apply list_elem_of_filter in Hr' as [[Hn He] Hr'].
    assert (Hk' : log_key r' = (envID, featureName)) by (cbn; by rewrite Hn, He).
    specialize (Hm _ Hr' Hk'). unfold newer in Hm. apply orb_false_iff in Hm as [Hm _].
    apply Z.ltb_ge in Hm. unfold created_le in Hmax. cbn in Hm. lia.
Qed.
End reads.

(** ** Examples *)

#[local] Abbreviation newest_first := {| scan := @rev DeployRow |}.

Lemma newest_first_perm (l : list DeployRow) : rev l ≡ₚ l.
Proof. symmetry. apply Permutation_rev. Qed.

(** A second instruction after the first one was deployed. *)
Definition example_history : world :=
  insert_deploy (deploy_of
    {| ap_Diid := 2; ap_EnvironmentID := 7; ap_FeatureAssignmentID := 1; ap_FeatureName := "app";
       ap_FeatureVersion := "2.0.0"; ap_Status := DeployStatusSent; ap_Hash := "h2";
       ap_Vals := "{}" |}) example_logged.

Lemma example_history_wf : logs_wf example_history.
Proof. apply insert_deploy_wf, example_logged_wf. Qed.

Example example_history_limited :
  (ListRecentDeployInstructions (H := newest_first) 7 "app" 1 example_history).1 =
    Ok [{| in_ID := 2; in_EnvironmentID := 7; in_FeatureAssignmentID := 1; in_FeatureName := "app";
           in_FeatureVersion := "2.0.0"; in_Status := DeployStatusSent; in_Hash := "h2";
           in_Created := 9; in_LastModified := 9 |}].
Proof. vm_compute. reflexivity. Qed.

Lemma ListRecentDeployInstructions_spec_witness :
  ∃ ds, ListRecentDeployInstructions (H := newest_first) 7 "app" 1 example_history
      = (Ok ds, example_history) ∧
    (Z.of_nat (length ds) <= 1)%Z ∧
    length (log_rows example_history 7 "app") = 3%nat.
Proof.
  destruct (ListRecentDeployInstructions_spec (sc := newest_first) newest_first_perm
    example_history 7 "app" 1 eq_refl) as (ds & Hds & _ & _ & _ & Hlen & _).
  exists ds. split; [exact Hds|]. split; [apply Hlen; lia|].
  vm_compute. reflexivity.
Defined.

Lemma LatestDeployInstructions_agree_witness :
  ∃ byName byEnv,
    LatestDeployInstructionsForEnvironment 7 example_history = (Ok byName, example_history) ∧
    LatestDeployInstructionsForFeature "app" example_history = (Ok byEnv, example_history) ∧
    in_FeatureVersion <$> byName !! "app" = Some "2.0.0" ∧
    byName !! "app" = byEnv !! (7 : uuid).
Proof.
  destruct (LatestDeployInstructions_agree example_history 7 "app" eq_refl example_history_wf)
    as (byName & byEnv & H1 & H2 & H3 & H4 & _).
  exists byName, byEnv. split; [exact H1|]. split; [exact H2|]. rewrite H3, H4.
  split; vm_compute; reflexivity.
Defined.

Lemma LatestDeployed_agree_witness :
  ∃ byName byEnv,
    LatestDeployedForEnvironment (H := newest_first) 7 example_logged = (Ok byName, example_logged) ∧
    LatestDeployedForFeature (H := newest_first) "app" example_logged = (Ok byEnv, example_logged) ∧
    in_Created <$> byName !! "app" = in_Created <$> byEnv !! (7 : uuid) ∧
    in_Created <$> byName !! "app" = Some 5%Z.
Proof.
  destruct (LatestDeployed_agree (sc := newest_first) newest_first_perm example_logged 7 "app" eq_refl)
    as (byName & byEnv & H1 & H2 & H3 & _ & H5).
  exists byName, byEnv. split; [exact H1|]. split; [exact H2|]. split; [exact H3|].
  apply (H5 (example_deploy 2 DeployStatusDeployed 5)); vm_compute; reflexivity.
Defined.
