(* ===== verification/Overview.v ===== *)
(** * internal/reconciler/status.go: the statuses of an environment

    The status of one feature, and of all features at once.  The first asks for the winning
    assignment and reads its statuses; the second reads all assignments of the environment
    and all signals in three queries and joins them. *)

From S2P Require Import Winning.
From S2P Require Export Status.

Record EnvironmentFeatureStatus := { efs_Status : string; efs_Message : string }.

Section overview.
Context `{ext : External} `{pg : Postgres} `{codec : FeatureCodec}.

Definition status_in (envID : uuid) (statuses : list FeatureReconcileStatus)
    : option EnvironmentFeatureStatus :=
  (λ s, {| efs_Status := frs_State s; efs_Message := frs_Message s |}) <$>
  find (λ s, bool_decide (frs_EnvironmentID s = envID)) statuses.

(** An empty status when the winner has none in the environment. *)
Definition FeatureStatusForEnvironment (envID : uuid) (featureName : string)
    : IO EnvironmentFeatureStatus :=
  dep ← WinningAssignment envID featureName;
  statuses ← ReconcileStatuses (fa_ID dep);
  mret (default {| efs_Status := ""; efs_Message := "" |} (status_in envID statuses)).

Definition add_winner (envID : uuid) (statusesByFA : gmap N (list FeatureReconcileStatus))
    (out : gmap string EnvironmentFeatureStatus) (w : FeatureAssignment)
    : gmap string EnvironmentFeatureStatus :=
  match status_in envID (default [] (statusesByFA !! fa_ID w)) with
  | Some s => <[f_Name (fa_Feature w) := s]> out
  | None => out
  end.

Definition FeatureStatusesForEnvironment (envID : uuid) : IO (gmap string EnvironmentFeatureStatus) :=
  winners ← ListForEnvironment envID;
  statusesByFA ← AllReconcileStatuses;
  mret (foldl (add_winner envID statusesByFA) ∅ winners).

(** ** Both read the same winners *)

Context (jsonb_total : ∀ x y, jsonb_leb x y = true ∨ jsonb_leb y x = true)
  (jsonb_trans : ∀ x y z, jsonb_leb x y = true → jsonb_leb y z = true → jsonb_leb x z = true).

(** The batch's assignments of one feature are the single read's. *)
Lemma batch_single rows featureName deps fas :
  (∀ r, r ∈ rows.*1 → fd_Name (la_data r) = ar_FeatureName (la_assignment r)) →
  featureAssignmentsFromRows rows = Ok deps →
  omapM row_assignment (filter (λ r, ar_FeatureName (la_assignment r) = featureName) rows.*1) = Ok fas →
  as_reconcile <$> fas = filter (λ d, t_name d = featureName) (as_reconcile <$> deps).
Proof.
  unfold featureAssignmentsFromRows. rewrite !omapM_Forall2. intros Hj Hd. revert fas.
  induction Hd as [|[r dis] d rows deps Hrd Hd IH]; intros fas Hf.
  { apply Forall2_nil_inv_l in Hf as ->. done. }
  apply obind_Ok in Hrd as (fa & Hfa & [= <-]). cbn [fst] in Hfa.
  assert (Hn : f_Name (fa_Feature fa) = ar_FeatureName (la_assignment r)).
  { rewrite (row_assignment_name _ _ Hfa). apply Hj. left. }
  assert (Hj' : ∀ r, r ∈ rows.*1 → fd_Name (la_data r) = ar_FeatureName (la_assignment r))
    by (intros; apply Hj; by right).
  rewrite fmap_cons, filter_cons in Hf. rewrite fmap_cons, filter_cons.
  change (t_name (as_reconcile _)) with (f_Name (fa_Feature fa)). rewrite Hn. cbn [fst] in Hf.
  destruct (decide (ar_FeatureName (la_assignment r) = featureName)) as [Hr|Hr]; [|by apply IH].
  apply Forall2_cons_inv_l in Hf as (fa' & fas' & Hfa' & Hf & ->).
  rewrite Hfa in Hfa'. injection Hfa' as <-. rewrite fmap_cons. f_equal. by apply IH.
Qed.

(** The winners of a list with one entry per name, folded into a map. *)
Lemma add_winner_other envID m out x name :
  f_Name (fa_Feature x) ≠ name → add_winner envID m out x !! name = out !! name.
Proof. intros Hn. unfold add_winner. destruct (status_in _ _); [|done]. by rewrite lookup_insert_ne. Qed.

Lemma add_winners_lookup envID m ws x :
  NoDup ((λ w, f_Name (fa_Feature w)) <$> ws) → x ∈ ws →
  foldl (add_winner envID m) ∅ ws !! f_Name (fa_Feature x) =
    status_in envID (default [] (m !! fa_ID x)).
Proof.
  induction ws as [|w ws IH] using rev_ind; intros Hnd Hx; [by apply elem_of_nil in Hx|].
  rewrite foldl_app. cbn [foldl]. rewrite fmap_app in Hnd. apply NoDup_app in Hnd as (Hnd & Hdis & _).
  assert (Hempty : ∀ ws, (∀ w', w' ∈ ws → f_Name (fa_Feature w') ≠ f_Name (fa_Feature w)) →
    foldl (add_winner envID m) ∅ ws !! f_Name (fa_Feature w) = None).
  { clear. intros ws. induction ws as [|w' ws IH] using rev_ind; intros Hw; [apply lookup_empty|].
    rewrite foldl_app. cbn [foldl]. rewrite add_winner_other.
    - apply IH. intros w0 Hw0. apply Hw, elem_of_app. by left.
    - apply Hw, elem_of_app. right. left. }
  apply elem_of_app in Hx as [Hx|Hx%list_elem_of_singleton].
  - rewrite add_winner_other; [by apply IH|]. intros Heq.
    apply (Hdis (f_Name (fa_Feature x))).
    + apply list_elem_of_fmap. by exists x.
    + rewrite <-Heq. left.
  - subst w. assert (Hnone : foldl (add_winner envID m) ∅ ws !! f_Name (fa_Feature x) = None).
    { apply Hempty. intros w' Hw' Heq. apply (Hdis (f_Name (fa_Feature w'))).
      - apply list_elem_of_fmap. by exists w'.
      - rewrite Heq. left. }
    unfold add_winner. destruct (status_in _ _); [apply lookup_insert_eq|done].
Qed.

(** What both reads start from. *)
Lemma ListForEnvironment_now w envID ws w' :
  w_faults w = [] → ListForEnvironment envID w = (Ok ws, w') →
  w' = w ∧ ∃ rows deps, rows.*1 = distinct_rows (matching_rows w envID) ∧
    featureAssignmentsFromRows rows = Ok deps ∧ ws = pick_winners deps.
Proof.
  intros Hf H. unfold ListForEnvironment, ListFeatureAssignmentsForEnvironment in H.
  unfold wrapping, mbind, M_bind in H. rewrite query_now in H by done. cbn [wrap] in H. unfold lift in H.
  destruct (featureAssignmentsFromRows _) as [deps|e|p] eqn:Ed; [|done..]. injection H as <- <-.
  split; [done|]. eexists _, deps. split; [|by split].
  rewrite <-list_fmap_compose. apply list_fmap_id.
Qed.

Lemma WinningAssignment_now w envID featureName fa w' :
  w_faults w = [] → WinningAssignment envID featureName w = (Ok fa, w') →
  w' = w ∧ ∃ fas, omapM row_assignment (filter (λ r, ar_FeatureName (la_assignment r) = featureName)
      (distinct_rows (matching_rows w envID))) = Ok fas ∧ fa ∈ pick_winners fas.
Proof.
  intros Hf H. unfold WinningAssignment, mostSpecificAssignment,
    ListFeatureAssignmentsForFeatureInEnvironment in H.
  unfold wrapping, mbind, M_bind in H. rewrite query_now in H by done. cbn [wrap] in H.
  rewrite (distinct_rows_filter jsonb_total jsonb_trans) in H by by intros ?? ->.
  set (rows := filter _ (distinct_rows (matching_rows w envID))) in *. unfold lift in H.
  destruct rows as [|r rows'] eqn:Er; [done|].
  destruct (omapM row_assignment (r :: rows')) as [fas|e|p]; [|done..].
  destruct (fa_mostSpecificPerFeature fas) as [|winner ws] eqn:Ew; [done|]. injection H as <- <-.
  split; [done|]. exists fas. split; [done|]. unfold fa_mostSpecificPerFeature in Ew. rewrite Ew. left.
Qed.

(** The single read's winner is the batch's entry for the feature. *)
Lemma winner_in_batch w envID featureName rows deps fas fa :
  rows.*1 = distinct_rows (matching_rows w envID) → featureAssignmentsFromRows rows = Ok deps →
  omapM row_assignment (filter (λ r, ar_FeatureName (la_assignment r) = featureName)
      (distinct_rows (matching_rows w envID))) = Ok fas →
  fa ∈ pick_winners fas →
  ∃ fa', fa' ∈ pick_winners deps ∧ f_Name (fa_Feature fa') = featureName ∧ fa_ID fa' = fa_ID fa.
Proof.
  intros Hrows Hdeps Hfas Hin. rewrite <-Hrows in Hfas.
  apply (batch_single rows featureName deps) in Hfas; [|clear Hfas|done].
  2: { rewrite Hrows. intros r Hr%elem_of_distinct_rows. by eapply matching_rows_joined. }
  apply pick_winners_fold in Hin.
  assert (Hname : t_name fa = featureName).
  { pose proof (consider_fold fas (t_name fa)) as Hc. rewrite Hin in Hc. destruct Hc as (Hin' & _ & _).
    assert (as_reconcile fa ∈ as_reconcile <$> fas) as H by (apply list_elem_of_fmap; by exists fa).
    rewrite Hfas in H. by apply list_elem_of_filter in H as [? _]. }
  assert (Hx : as_reconcile <$> foldl consider ∅ deps !! featureName = Some (as_reconcile fa)).
  { rewrite <-lookup_fmap, <-consider_fmap, consider_filter, <-Hfas, consider_fmap, lookup_fmap.
    by rewrite <-Hname, Hin. }
  apply fmap_Some in Hx as (fa' & Hfa' & Heq).
  pose proof (consider_fold deps featureName) as Hc. rewrite Hfa' in Hc. destruct Hc as (_ & Hn & _).
  exists fa'. split; [apply pick_winners_fold; by rewrite Hn|]. split; [done|].
  by apply (f_equal ra_ID) in Heq.
Qed.

(** The overview of an environment shows for each feature what the feature's own page
    shows: when no query fails and both reads succeed, the status and message read for one
    feature are the entry of the batch for it, and empty when the batch has none.  It needs
    that the order of JSONB values is a total preorder, and current rows that name at most
    one row per assignment and environment. *)
Theorem FeatureStatusesForEnvironment_agrees w envID featureName all w1 s w2 :
  w_faults w = [] →
  NoDup ((λ r, (cl_FeatureAssignmentID r, cl_EnvironmentID r)) <$>
           (map_to_list (decision_current (w_rec w))).*2) →
  NoDup ((λ r, (dl_FeatureAssignmentID r, dl_EnvironmentID r)) <$>
           (map_to_list (deploy_current (w_rec w))).*2) →
  FeatureStatusesForEnvironment envID w = (Ok all, w1) →
  FeatureStatusForEnvironment envID featureName w = (Ok s, w2) →
  s = default {| efs_Status := ""; efs_Message := "" |} (all !! featureName).
Proof.
  intros Hf Hdec Hdep Hall Hone. unfold FeatureStatusesForEnvironment in Hall.
  unfold FeatureStatusForEnvironment in Hone.
  apply bind_Ok in Hall as (winners & x & Hw & Hall).
  destruct (ListForEnvironment_now _ _ _ _ Hf Hw) as (-> & rows & deps & Hrows & Hdeps & ->).
  apply bind_Ok in Hone as (fa & x & Hfa & Hone).
  destruct (WinningAssignment_now _ _ _ _ _ Hf Hfa) as (-> & fas & Hfas & Hin).
  destruct (all_statuses_run w (fa_ID fa) Hf Hdec Hdep) as (m & Ha & Hr).
  unfold mbind, M_bind in Hall, Hone. rewrite Ha in Hall. rewrite Hr in Hone.
  injection Hall as <- _. injection Hone as <- _.
  destruct (winner_in_batch _ _ _ _ _ _ _ Hrows Hdeps Hfas Hin) as (fa' & Hin' & <- & <-).
  assert (Hnd : NoDup ((λ w, f_Name (fa_Feature w)) <$> pick_winners deps)) by exact (pick_winners_names deps).
  by rewrite (add_winners_lookup envID m (pick_winners deps) fa' Hnd Hin').
Qed.
End overview.

Lemma FeatureStatusesForEnvironment_agrees_witness :
  ∃ all s, FeatureStatusesForEnvironment (pg := example_pg) (codec := example_codec) 7 example_deployed
      = (Ok all, example_deployed) ∧
    FeatureStatusForEnvironment (pg := example_pg) (codec := example_codec) 7 "app" example_deployed
      = (Ok s, example_deployed) ∧
    s = default {| efs_Status := ""; efs_Message := "" |} (all !! "app").
Proof.
  destruct (FeatureStatusesForEnvironment (pg := example_pg) (codec := example_codec) 7 example_deployed)
    as [[all|e|p] w1] eqn:E1; [|vm_compute in E1; discriminate E1..].
  destruct (FeatureStatusForEnvironment (pg := example_pg) (codec := example_codec) 7 "app" example_deployed)
    as [[s|e|p] w2] eqn:E2; [|vm_compute in E2; discriminate E2..].
  exists all, s. split; [|split].
  - apply (f_equal snd) in E1. vm_compute in E1. cbn [snd] in E1. rewrite <-E1. reflexivity.
  - apply (f_equal snd) in E2. vm_compute in E2. cbn [snd] in E2. rewrite <-E2. reflexivity.
  - apply (FeatureStatusesForEnvironment_agrees (pg := example_pg) (codec := example_codec)
      (λ _ _, or_introl eq_refl) (λ _ _ _ _ _, eq_refl) example_deployed 7 "app" all w1 s w2);
      [reflexivity|apply (bool_decide_unpack _); vm_compute; exact I
      |apply (bool_decide_unpack _); vm_compute; exact I|exact E1|exact E2].
Defined.
