(* ===== verification/Invariant.v ===== *)
(** * What holds of the tables whatever the server does

    The integrity of every table, the consistency of the logs with the messages handed to
    Pub/Sub, and a small program logic ([triple]) in which an operation is shown to keep them on
    every outcome, errors and rolled back transactions included. *)

From S2P Require Export Winning.

(** ** Integrity of the tables *)

Definition below {A} (id : A → uuid) (n : N) (l : list A) : Prop := Forall (λ x, (id x < n)%N) l.

Record env_wf (d : env_db) (n : N) : Prop := {
  ew_tenant_names : NoDup (t_Name <$> tenants d);
  ew_tenant_ids : NoDup (t_ID <$> tenants d);
  ew_tenant_below : below t_ID n (tenants d);
  ew_env_names : NoDup ((λ e, (er_TenantID e, er_Name e)) <$> environments d);
  ew_env_ids : NoDup (er_ID <$> environments d);
  ew_env_below : below er_ID n (environments d);
  ew_values : NoDup ((λ v, (ev_EnvironmentID v, ev_Key v)) <$> environment_values d);
}.

Record feature_wf (d : feature_db) (n : N) : Prop := {
  fw_data : NoDup ((λ f, (fd_Name f, fd_Version f)) <$> feature_data d);
  fw_active : NoDup (target_key <$> active_rows (feature_assignments d));
  fw_assignment_ids : NoDup (ar_ID <$> feature_assignments d);
  fw_assignment_below : below ar_ID n (feature_assignments d);
  fw_foreign_key : ∀ a, a ∈ feature_assignments d →
    ∃ f, f ∈ feature_data d ∧ fd_Name f = ar_FeatureName a ∧ fd_Version f = ar_Version a;
  fw_global : NoDup ((λ g, (cg_Feature g, cg_Key g)) <$> configurations_global d);
  fw_global_ids : NoDup (cg_ID <$> configurations_global d);
  fw_global_below : below cg_ID n (configurations_global d);
  fw_env : NoDup ((λ e, (ce_EnvironmentID e, ce_Feature e, ce_Key e)) <$>
    configurations_environment d);
  fw_env_ids : NoDup (ce_ID <$> configurations_environment d);
  fw_env_below : below ce_ID n (configurations_environment d);
}.

(** ** The deploy log and the messages *)

(** The row is about the instruction. *)
Definition instruction_of_row (r : DeployRow) (m : DeployInstruction) : Prop :=
  di_ID m = dl_Diid r ∧ di_Name m = dl_FeatureName r ∧ di_Version m = dl_FeatureVersion r ∧
  di_ConfigHash m = dl_Hash r ∧ di_Uninstall m = false.

Record rows_wf (log : list DeployRow) (pubs : list (string * DeployInstruction)) : Prop := {
  rw_published : ∀ r, r ∈ log → ∃ tm, tm ∈ pubs ∧ instruction_of_row r tm.2;
  rw_same : ∀ r r', r ∈ log → r' ∈ log → dl_Diid r = dl_Diid r' →
    dl_EnvironmentID r = dl_EnvironmentID r' ∧
    dl_FeatureAssignmentID r = dl_FeatureAssignmentID r';
}.

Definition published_ids (pubs : list (string * DeployInstruction)) : list uuid :=
  (di_ID ∘ snd) <$> pubs.
Definition published_wf (pubs : list (string * DeployInstruction)) (n : N) : Prop :=
  NoDup (published_ids pubs) ∧ Forall (λ id, (id < n)%N) (published_ids pubs).

Record server_wf (w : world) : Prop := {
  sw_env : env_wf (w_env w) (w_next_uuid w);
  sw_feature : feature_wf (w_feature w) (w_next_uuid w);
  sw_logs : logs_wf w;
  sw_rows : rows_wf (deploy_log (w_rec w)) (published w);
  sw_published : published_wf (published w) (w_next_uuid w);
}.

(** ** What only grows *)

Record later (w w' : world) : Prop := {
  lt_uuid : (w_next_uuid w <= w_next_uuid w')%N;
  lt_now : (w_now w <= w_now w')%Z;
  lt_published : ∃ l, published w' = published w ++ l;
  lt_log : ∃ l, deploy_log (w_rec w') = deploy_log (w_rec w) ++ l ∧
    ∀ r, r ∈ l → (∃ r0, r0 ∈ deploy_log (w_rec w) ∧ dl_Diid r0 = dl_Diid r) ∨
                 dl_Diid r ∉ published_ids (published w);
}.

Lemma later_refl w : later w w.
Proof.
  split; [done|done|exists []; by rewrite app_nil_r|].
  exists []. rewrite app_nil_r. split; [done|]. by intros r Hr%elem_of_nil.
Qed.

Lemma published_ids_app l1 l2 : published_ids (l1 ++ l2) = published_ids l1 ++ published_ids l2.
Proof. apply fmap_app. Qed.

Lemma later_trans w1 w2 w3 : later w1 w2 → later w2 w3 → later w1 w3.
Proof.
  intros [U1 N1 [p1 P1] (l1 & L1 & H1)] [U2 N2 [p2 P2] (l2 & L2 & H2)].
  split; [lia|lia|exists (p1 ++ p2); by rewrite P2, P1, app_assoc|].
  exists (l1 ++ l2). split; [by rewrite L2, L1, app_assoc|].
  intros r [Hr|Hr]%elem_of_app; [by apply H1|].
  destruct (H2 r Hr) as [(r0 & Hr0 & Hd)|Hn].
  - rewrite L1 in Hr0. apply elem_of_app in Hr0 as [Hr0|Hr0]; [left; by exists r0|].
    rewrite <-Hd. by apply H1.
  - right. contradict Hn. rewrite P1, published_ids_app. by apply elem_of_app; left.
Qed.

(** ** The parts survive time and fresh identifiers *)

Lemma below_mono {A} (id : A → uuid) n n' l : (n <= n')%N → below id n l → below id n' l.
Proof. intros Hn Hl. eapply Forall_impl; [exact Hl|]. simpl. lia. Qed.

Lemma env_wf_mono d n n' : (n <= n')%N → env_wf d n → env_wf d n'.
Proof. intros Hn []. split; by eauto using below_mono. Qed.

Lemma feature_wf_mono d n n' : (n <= n')%N → feature_wf d n → feature_wf d n'.
Proof. intros Hn []. split; by eauto using below_mono. Qed.

Lemma logs_wf_mono w w' :
  w_rec w' = w_rec w → (w_now w <= w_now w')%Z → logs_wf w → logs_wf w'.
Proof.
  intros Hr Hn [H1 H2 H3 H4 H5 H6]. split; rewrite ?Hr; try done.
  - intros r [??]%H5. split; [done|lia].
  - intros r [??]%H6. split; [done|lia].
Qed.

Lemma rows_wf_mono log pubs l : rows_wf log pubs → rows_wf log (pubs ++ l).
Proof.
  intros [Hp Hs]. split; [|done]. intros r (tm & Hin & Hm)%Hp. exists tm.
  split; [apply elem_of_app; by left|done].
Qed.

Lemma published_wf_mono pubs n n' : (n <= n')%N → published_wf pubs n → published_wf pubs n'.
Proof. intros Hn [Hd Hb]. split; [done|]. eapply Forall_impl; [exact Hb|]. simpl. lia. Qed.

(** Undoing a transaction leaves each part as it was before or as it is after. *)
Lemma server_wf_undo w1 w2 w :
  server_wf w1 → server_wf w2 → later w1 w2 →
  w_env w = w_env w1 ∨ w_env w = w_env w2 → w_feature w = w_feature w1 ∨ w_feature w = w_feature w2 →
  w_rec w = w_rec w1 ∨ w_rec w = w_rec w2 →
  w_now w = w_now w2 → w_next_uuid w = w_next_uuid w2 → published w = published w2 →
  server_wf w ∧ later w1 w.
Proof.
  intros [E1 F1 L1 R1 _] [E2 F2 L2 R2 P2] [Hu Hn [p Hp] Hl] He Hf Hr Nw Uw Pw.
  assert (Hpub : rows_wf (deploy_log (w_rec w1)) (published w2)) by (rewrite Hp; by apply rows_wf_mono).
  split.
  - split; rewrite ?Uw, ?Pw; try done.
    + destruct He as [->| ->]; [by eapply env_wf_mono|done].
    + destruct Hf as [->| ->]; [by eapply feature_wf_mono|done].
    + destruct Hr as [Hr|Hr]; eapply logs_wf_mono; [exact Hr|lia|done|exact Hr|lia|done].
    + by destruct Hr as [->| ->].
  - split; rewrite ?Uw, ?Nw, ?Pw; try done; [by exists p|].
    destruct Hr as [->| ->]; [|done]. exists []. rewrite app_nil_r.
    split; [done|]. by intros r Hr%elem_of_nil.
Qed.

(** Nothing of interest changed. *)
Lemma server_wf_same w w' :
  w_env w' = w_env w → w_feature w' = w_feature w → w_rec w' = w_rec w → w_now w' = w_now w →
  w_next_uuid w' = w_next_uuid w → published w' = published w →
  server_wf w → server_wf w' ∧ later w w'.
Proof.
  intros He Hf Hr Hn Hu Hp Hw.
  apply (server_wf_undo w w); auto using later_refl.
Qed.

Lemma server_wf_same_world w w' : same_world w w' → server_wf w → server_wf w' ∧ later w w'.
Proof. intros S. apply server_wf_same; by rewrite S. Qed.

(** ** A logic of operations *)

(** From a well-formed world in which [P] holds, [m] ends in one, whatever its outcome;
    if it succeeds, [Q] holds. *)
Definition triple {A} (P : world → Prop) (m : IO A) (Q : A → world → Prop) : Prop :=
  ∀ w, server_wf w → P w →
    server_wf (m w).2 ∧ later w (m w).2 ∧ ∀ a, (m w).1 = Ok a → Q a (m w).2.

Abbreviation anything := (λ _, True) (only parsing).
Abbreviation safe m := (triple (λ _, True) m (λ _ _, True)) (only parsing).

(** A property that later steps keep. *)
Definition stable (P : world → Prop) : Prop := ∀ w w', server_wf w' → later w w' → P w → P w'.

Lemma triple_weaken {A} P P' (m : IO A) Q Q' :
  triple P m Q → (∀ w, P' w → P w) → (∀ a w, Q a w → Q' a w) → triple P' m Q'.
Proof.
  intros Hm HP HQ w Hw Hp. destruct (Hm w Hw (HP w Hp)) as (? & ? & H). split_and!; auto.
Qed.

Lemma triple_safe {A} P (m : IO A) Q : triple P m Q → (∀ w, P w) → safe m.
Proof. intros Hm HP. eapply triple_weaken; eauto. Qed.

Lemma safe_triple {A} P (m : IO A) : safe m → triple P m (λ _ _, True).
Proof. intros Hm. by eapply triple_weaken; [exact Hm|..]. Qed.

Lemma triple_bind {A B} P (m : IO A) Q (f : A → IO B) R :
  triple P m Q → (∀ a, triple (Q a) (f a) R) → triple P (m ≫= f) R.
Proof.
  intros Hm Hf w Hw Hp. destruct (Hm w Hw Hp) as (Hw1 & Hl1 & HQ).
  unfold mbind, M_bind. destruct (m w) as [[a|e|p] w1]; simpl in *; [|done..].
  destruct (Hf a w1 Hw1 (HQ a eq_refl)) as (? & ? & ?). split_and!; [done| |done].
  by eapply later_trans.
Qed.

(** A stable fact goes along. *)
Lemma triple_frame {A} P (m : IO A) Q R :
  triple P m Q → stable R → triple (λ w, P w ∧ R w) m (λ a w, Q a w ∧ R w).
Proof.
  intros Hm HR w Hw [Hp Hr]. destruct (Hm w Hw Hp) as (? & ? & ?). split_and!; [done..|].
  intros a Ha. split; [auto|]. by eapply HR.
Qed.

Lemma triple_bind_stable {A B} P (m : IO A) (f : A → IO B) R :
  safe m → stable P → (∀ a, triple P (f a) R) → triple P (m ≫= f) R.
Proof.
  intros Hm HP Hf. eapply triple_bind.
  - eapply triple_weaken; [exact (triple_frame _ _ _ P Hm HP)|done|]. intros a w [_ H]. exact H.
  - exact Hf.
Qed.

Lemma safe_bind {A B} (m : IO A) (f : A → IO B) : safe m → (∀ a, safe (f a)) → safe (m ≫= f).
Proof. intros Hm Hf. eapply triple_bind; [exact Hm|done]. Qed.

Lemma safe_reads {A} (m : IO A) : reads m → safe m.
Proof.
  intros Hm w Hw _. destruct (m w) as [o w'] eqn:E. apply Hm in E. simpl.
  destruct (server_wf_same_world _ _ E Hw). by split_and!.
Qed.

Lemma safe_attempt {A} (m : IO A) : safe m → safe (attempt m).
Proof.
  intros Hm w Hw Hp. destruct (Hm w Hw Hp) as (H1 & H2 & _). unfold attempt.
  by destruct (m w) as [[] ?].
Qed.

Lemma triple_wrapping {A} P prefix (m : IO A) Q :
  triple P m Q → triple P (wrapping prefix m) Q.
Proof.
  intros Hm w Hw Hp. destruct (Hm w Hw Hp) as (? & ? & H). unfold wrapping.
  destruct (m w) as [[] ?]; simpl in *; split_and!; auto; intros ? [=]; subst; auto.
Qed.

Lemma safe_for_each {A} (f : A → IO unit) l : (∀ x, safe (f x)) → safe (for_each f l).
Proof.
  intros Hf. induction l as [|x l IH]; [apply safe_reads, reads_ret|]. by apply safe_bind.
Qed.

Lemma safe_none_if_no_rows {A} (m : IO A) : safe m → safe (none_if_no_rows m).
Proof.
  intros Hm. apply safe_bind; [by apply safe_attempt|]. intros [a|e]; [apply safe_reads, reads_ret|].
  destruct (errors_is _ _); apply safe_reads; [apply reads_ret|apply reads_fail].
Qed.

(** An external call that does not fail does its work in a world with a shorter script. *)
Lemma triple_external {A} P (m : IO A) Q :
  (∀ fs w, P w → P (set_w_faults fs w)) → triple P m Q → triple P (external m) Q.
Proof.
  intros HP Hm w Hw Hp. unfold external, mbind, M_bind.
  assert (∃ f fs, next_fault w = (Ok f, set_w_faults fs w)) as (f & fs & ->).
  { unfold next_fault. destruct (w_faults w) as [|f l] eqn:E.
    - exists None, (λ l, l). by destruct w.
    - by exists f, (λ _, l). }
  destruct (server_wf_same_world w (set_w_faults fs w)) as [Hw1 Hl1]; [by destruct w|done|].
  destruct f as [e|]; simpl; [by split_and!|].
  destruct (Hm _ Hw1 (HP fs w Hp)) as (? & ? & ?). split_and!; [done| |done].
  by eapply later_trans.
Qed.

Definition partial_undo (undo : world → world → world) : Prop := ∀ w1 w2,
  let w := undo w1 w2 in
  (w_env w = w_env w1 ∨ w_env w = w_env w2) ∧ (w_feature w = w_feature w1 ∨ w_feature w = w_feature w2) ∧
  (w_rec w = w_rec w1 ∨ w_rec w = w_rec w2) ∧
  w_now w = w_now w2 ∧ w_next_uuid w = w_next_uuid w2 ∧ published w = published w2.

Lemma rollback_partial : partial_undo rollback.
Proof. intros w1 w2. simpl. auto 10. Qed.
Lemma rollback_but_env_partial : partial_undo rollback_but_env.
Proof. intros w1 w2. simpl. auto 10. Qed.
Lemma rollback_but_rec_partial : partial_undo rollback_but_rec.
Proof. intros w1 w2. simpl. auto 10. Qed.

Lemma safe_WithTx_undo {A} undo (fn : IO A) :
  partial_undo undo → safe fn → safe (WithTx_undo undo fn).
Proof.
  intros Hu Hf. apply safe_bind; [apply safe_reads, reads_wrapping, reads_external_ret|].
  intros _ w Hw Hp.
  assert (safe (a ← fn; wrapping "commit tx" (external (mret tt)) ;; mret a)) as Hb.
  { apply safe_bind; [done|]. intros a. apply safe_reads. apply reads_bind; [|intros; apply reads_ret].
    apply reads_wrapping, reads_external_ret. }
  destruct (Hb w Hw Hp) as (H1 & H2 & _). unfold transaction.
  destruct ((a ← fn; wrapping "commit tx" (external (mret tt)) ;; mret a) w)
    as [[a|e|p] w1]; cbn [snd fst] in *; [by split_and!|..].
  all: destruct (Hu w w1) as (He & Hfe & Hr & Hn & Hid & Hpub).
  all: destruct (server_wf_undo w w1 (undo w w1)); try done; by split_and!.
Qed.

Lemma safe_WithTx {A} in_tx (fn : IO A) : safe fn → safe (WithTx in_tx fn).
Proof. intros Hf. destruct in_tx; [exact Hf|]. apply safe_WithTx_undo; [apply rollback_partial|done]. Qed.

Lemma triple_modify P f (Q : world → Prop) :
  (∀ w, server_wf w → P w → server_wf (f w) ∧ later w (f w) ∧ Q (f w)) →
  triple P (modify f) (λ _, Q).
Proof. intros H w Hw Hp. unfold modify. simpl. destruct (H w Hw Hp) as (? & ? & ?). auto. Qed.

Lemma triple_exec P f (Q : world → Prop) :
  (∀ fs w, P w → P (set_w_faults fs w)) →
  (∀ w, server_wf w → P w → server_wf (f w) ∧ later w (f w) ∧ Q (f w)) →
  triple P (exec f) (λ _, Q).
Proof. intros HP H. by apply triple_external, triple_modify. Qed.

Lemma later_same w w' :
  w_next_uuid w' = w_next_uuid w → w_now w' = w_now w → published w' = published w →
  deploy_log (w_rec w') = deploy_log (w_rec w) → later w w'.
Proof.
  intros Hu Hn Hp Hl. split; rewrite ?Hu, ?Hn, ?Hp, ?Hl; [done..|exists []; by rewrite app_nil_r|].
  exists []. rewrite app_nil_r. split; [done|]. by intros r Hr%elem_of_nil.
Qed.

(** Changes of one group of tables. *)
Lemma server_wf_env w f :
  server_wf w → env_wf (f (w_env w)) (w_next_uuid w) →
  server_wf (set_w_env f w) ∧ later w (set_w_env f w).
Proof.
  intros Hw He. destruct Hw as [E F L R P]. split.
  - split; try done. by eapply logs_wf_mono; [..|exact L].
  - by apply later_same.
Qed.

Lemma server_wf_feature w f :
  server_wf w → feature_wf (f (w_feature w)) (w_next_uuid w) →
  server_wf (set_w_feature f w) ∧ later w (set_w_feature f w).
Proof.
  intros Hw He. destruct Hw as [E F L R P]. split; [|by apply later_same].
  split; try done. by eapply logs_wf_mono; [..|exact L].
Qed.

Lemma safe_exec_env f : (∀ d n, env_wf d n → env_wf (f d) n) → safe (exec (set_w_env f)).
Proof.
  intros Hf. apply triple_exec; [done|]. intros w Hw _.
  destruct (server_wf_env w f Hw); [apply Hf, Hw|]. by split_and!.
Qed.

Lemma safe_exec_feature (g : world → feature_db → feature_db) :
  (∀ w d n, feature_wf d n → feature_wf (g w d) n) → safe (exec (λ w, set_w_feature (g w) w)).
Proof.
  intros Hf. apply triple_exec; [done|]. intros w Hw _.
  destruct (server_wf_feature w (g w) Hw); [apply Hf, Hw|]. by split_and!.
Qed.

(** Inventories, log lines and heartbeats are outside the logs. *)
Definition keeps_logs (f : rec_db → rec_db) : Prop := ∀ d,
  deploy_log (f d) = deploy_log d ∧ deploy_current (f d) = deploy_current d ∧
  decision_log (f d) = decision_log d ∧ decision_current (f d) = decision_current d ∧
  next_log_id (f d) = next_log_id d.

Lemma safe_exec_rec f : keeps_logs f → safe (exec (set_w_rec f)).
Proof.
  intros Hf. apply triple_exec; [done|]. intros w [E F [L1 L2 L3 L4 L5 L6] R P] _.
  destruct (Hf (w_rec w)) as (H1 & H2 & H3 & H4 & H5).
  split_and!; [|by apply later_same|done].
  split; simpl; try done; [split; simpl|]; by rewrite ?H1, ?H2, ?H3, ?H4, ?H5.
Qed.

Lemma safe_exec_other f :
  (∀ w, w_env (f w) = w_env w ∧ w_feature (f w) = w_feature w ∧ w_rec (f w) = w_rec w ∧
        w_now (f w) = w_now w ∧ w_next_uuid (f w) = w_next_uuid w ∧ published (f w) = published w) →
  safe (exec f).
Proof.
  intros Hf. apply triple_exec; [done|]. intros w Hw _.
  destruct (Hf w) as (? & ? & ? & ? & ? & ?).
  destruct (server_wf_same w (f w)); try done.
Qed.

Lemma safe_audit_Create email p : safe (audit_Create email p).
Proof. apply safe_exec_other. by intros w. Qed.

(** An identifier just drawn is in no table. *)
Definition fresh (id : uuid) (w : world) : Prop :=
  (id < w_next_uuid w)%N ∧
  Forall (λ t, t_ID t ≠ id) (tenants (w_env w)) ∧
  Forall (λ e, er_ID e ≠ id) (environments (w_env w)) ∧
  Forall (λ a, ar_ID a ≠ id) (feature_assignments (w_feature w)) ∧
  Forall (λ g, cg_ID g ≠ id) (configurations_global (w_feature w)) ∧
  Forall (λ e, ce_ID e ≠ id) (configurations_environment (w_feature w)) ∧
  id ∉ published_ids (published w).

Lemma below_fresh {A} (id : A → uuid) n l : below id n l → Forall (λ x, id x ≠ n) l.
Proof. intros Hl. eapply Forall_impl; [exact Hl|]. simpl. lia. Qed.

Lemma triple_uuid_New P :
  (∀ n w, P w → P (set_w_next_uuid n w)) →
  triple P uuid_New (λ id w, P w ∧ fresh id w).
Proof.
  intros HP w Hw Hp. unfold uuid_New. simpl.
  assert (Hle : (w_next_uuid w <= N.succ (w_next_uuid w))%N) by lia.
  destruct Hw as [E F L R P0]. split_and!.
  - split; simpl; [by eapply env_wf_mono|by eapply feature_wf_mono| |done|by eapply published_wf_mono].
    by eapply logs_wf_mono; [..|exact L].
  - split; simpl; [lia|done|exists []; by rewrite app_nil_r|].
    exists []. rewrite app_nil_r. split; [done|]. by intros r Hr%elem_of_nil.
  - intros a [= <-]. split; [by apply HP|]. unfold fresh. simpl. destruct E, F.
    split_and!; [lia|by apply below_fresh..|].
    intros Hin. destruct P0 as [_ Hb]. rewrite Forall_forall in Hb. apply Hb in Hin. simpl in Hin. lia.
Qed.

Lemma NoDup_snoc_key {A K} (key : A → K) l x :
  NoDup (key <$> l) → (∀ y, y ∈ l → key y ≠ key x) → NoDup (key <$> l ++ [x]).
Proof.
  intros Hl Hx. rewrite fmap_app. apply NoDup_app. split_and!; [done| |apply NoDup_singleton].
  intros k (y & -> & Hy)%list_elem_of_fmap Hk%list_elem_of_singleton. by apply (Hx y).
Qed.

Lemma below_snoc {A} (id : A → uuid) n l x :
  below id n l → (id x < n)%N → below id n (l ++ [x]).
Proof. intros Hl Hx. apply Forall_app. split; [done|]. by apply Forall_singleton. Qed.
