(* ===== verification/Preview.v ===== *)
(** * internal/feature/queries.go: the preview of a deploy

    HelmValues renders, for a page, the values the next reconciliation would deploy.  It
    reads them with queries of its own, for one environment, where the reconciler reads
    everything in a snapshot; the theorem says that both get the same values.

    PostgreSQL's JSON_OBJECT_AGG and the decoding of its result are a parameter: a row holds
    the pairs the object is made of.  In the source, the map of the environment itself is
    the one that is also in the list of all environments; only a template that changes the
    data it reads could tell. *)

From S2P Require Import ConfigStore Receiver.
From S2P Require Export Invariant.
From S2P Require Import GoStd.

(** Decoding of [JSON_OBJECT_AGG(key, value)]. *)
Class ObjectCodec := { unmarshal_object : list (string * string) → outcome gomap }.

Section preview.
Context `{ext : External} `{pg : Postgres} `{obj : ObjectCodec}.

(** ** featuresql/environments.sql.go *)

Record MappingValuesRow := {
  mr_ID : uuid; mr_Name : string; mr_Kind : EnvironmentKind; mr_Values : list (string * string);
}.

(** The text ["*****"], with its quotes. *)
Definition masked : string := String "034" ("*****" +:+ String "034" "").

Definition mapping_pair (showSensitive : bool) (v : EnvironmentValueRow) : string * string :=
  (ev_Key v, if ev_Secret v && negb showSensitive then jsonb_text masked else ev_Value v).

Definition ListMappingValuesForTenant (tenantID : uuid) (showSensitive : bool)
    : IO (list MappingValuesRow) :=
  query (λ w, Ok (isort (λ a b, String.leb (mr_Name a) (mr_Name b))
    ((λ e, {| mr_ID := er_ID e; mr_Name := er_Name e; mr_Kind := er_Kind e;
              mr_Values := mapping_pair showSensitive <$>
                filter (λ v, ev_EnvironmentID v = er_ID e) (environment_values (w_env w)) |}) <$>
       filter (λ e, er_TenantID e = tenantID) (environments (w_env w))))).

Definition ListSecretKeysForTenant (tenantID : uuid) : IO (list (uuid * string)) :=
  query (λ w, Ok ((λ v, (ev_EnvironmentID v, ev_Key v)) <$>
    isort (then_by (λ a b, N.leb (ev_EnvironmentID a) (ev_EnvironmentID b))
                   (λ a b, String.leb (ev_Key a) (ev_Key b)))
      (filter (λ v, ev_EnvironmentID v ∈
                      (er_ID <$> filter (λ e, er_TenantID e = tenantID) (environments (w_env w))) ∧
                    ev_Secret v = true)
         (environment_values (w_env w))))).

(** ** queries.go *)

(** One round of the loop of [MappingValuesForEnvironment]. *)
Definition map_environment (envID : uuid) (mv : ComputedValues) (row : MappingValuesRow)
    : outcome ComputedValues :=
  let! val := wrap ("envValuesForEnv: failed to unmarshal values for " +:+ mr_Name row)
                (unmarshal_object (mr_Values row)) in
  let val := <["kind" := VStr (mr_Kind row)]> (<["name" := VStr (mr_Name row)]> val) in
  let management := bool_decide (mr_Kind row = EnvironmentKindManagement) in
  Ok {| cv_Kind := cv_Kind mv; cv_Tenant := cv_Tenant mv; cv_Fasit := cv_Fasit mv;
        cv_Management := if management then Some val else cv_Management mv;
        cv_Env := if bool_decide (mr_ID row = envID) then Some val else cv_Env mv;
        cv_Envs := if management then cv_Envs mv else cv_Envs mv ++ [val];
        cv_Configs := cv_Configs mv |}.

Definition no_mapping (aud : string) (kind : EnvironmentKind) (tenantName : string) : ComputedValues :=
  {| cv_Kind := kind; cv_Tenant := tenantName; cv_Fasit := aud; cv_Management := None;
     cv_Env := None; cv_Envs := []; cv_Configs := None |}.

Definition MappingValuesForEnvironment (aud : string) (envID : uuid) (showSensitive : bool)
    : IO (ComputedValues * EnvironmentKind) :=
  env ← wrapping "envValuesForEnv: failed to get environment" (Get envID);
  tenant ← wrapping "envValuesForEnv: failed to get tenant" (GetTenant (er_TenantID env));
  let mv := no_mapping aud (er_Kind env) (t_Name tenant) in
  values ← attempt (ListMappingValuesForTenant (t_ID tenant) showSensitive);
  match values with
  | inr err =>
      if errors_is err ErrNoRows then mret (mv, er_Kind env)
      else wrapping "envValuesForEnv: failed to get environment values" (fail err)
  | inl rows =>
      mv ← lift (ofold (map_environment envID) mv rows);
      mret (mv, er_Kind env)
  end.

(** The render data, and which keys are secret in the tenant. *)
Definition fetchHelmRenderData (aud : string) (f : Feature) (envID : uuid)
    : IO (HelmRenderData * gset string) :=
  mk ← MappingValuesForEnvironment aud envID true;
  let includeKeys := configIncludeKeys f mk.2 in
  globalConfigs ← ListGlobalConfigByFeature (f_Name f);
  envConfigs ← ListEnvConfigByFeature (f_Name f) envID;
  let vals := MergeConfigs globalConfigs envConfigs includeKeys in
  mp ← lift (MakeHelmConfigMap vals);
  env ← wrapping "fetchHelmRenderData: get environment" (Get envID);
  secretRows ← attempt (ListSecretKeysForTenant (er_TenantID env));
  let data := {| MV := mk.1; EnvKind := mk.2; ConfigVals := vals; ConfigMap := mp |} in
  match secretRows with
  | inl rows => mret (data, list_to_set rows.*2)
  | inr err =>
      if errors_is err ErrNoRows then mret (data, ∅)
      else wrapping "fetchHelmRenderData: list secret keys" (fail err)
  end.

(** [order] is the order in which the [range] of this call visits the feature's values. *)
Definition HelmValues (order : list (string * Value)) (aud : string) (f : Feature) (envID : uuid)
    : IO gomap :=
  data ← fetchHelmRenderData aud f envID;
  lift (RenderHelmValues order data.1 f true).

(** What the code relies on of JSON: the object has the pairs' keys, and under each what its
    text decodes to. *)
Definition object_decodes : Prop :=
  ∀ pairs, NoDup pairs.*1 → (∀ p, p ∈ pairs → ∃ x, json_Unmarshal p.2 = Ok x) →
  ∃ m, unmarshal_object pairs = Ok m ∧
    ∀ k x, m !! k = Some x ↔ ∃ text, (k, text) ∈ pairs ∧ json_Unmarshal text = Ok x.

(** ** Configuration *)

Lemma isort_ext {A} (lea leb : A → A → bool) l :
  (∀ x y, x ∈ l → y ∈ l → lea x y = leb x y) → isort lea l = isort leb l.
Proof.
  induction l as [|x l IH]; intros H; [done|]. cbn [isort].
  rewrite IH by (intros; apply H; by right).
  assert (Hx : ∀ y, y ∈ isort leb l → lea x y = leb x y)
    by (intros y Hy%elem_of_isort; apply H; [left|by right]).
  revert Hx. clear IH H. generalize (isort leb l). intros k.
  induction k as [|y k IHk]; intros Hx; [done|]. cbn [insert_by].
  rewrite Hx by left. destruct (leb x y); [done|]. f_equal. apply IHk.
  intros z Hz. apply Hx. by right.
Qed.

(** Of rows sorted by [lea] and then [leb], those that [lea] cannot tell apart are sorted
    by [leb]. *)
Lemma isort_then_by_filter {A} (lea leb : A → A → bool) (P : A → Prop) `{∀ x, Decision (P x)} (l : list A) :
  (∀ x y, lea x y = true ∨ lea y x = true) →
  (∀ x y z, lea x y = true → lea y z = true → lea x z = true) →
  (∀ x y, leb x y = true ∨ leb y x = true) →
  (∀ x y z, leb x y = true → leb y z = true → leb x z = true) →
  (∀ x y, x ∈ l → y ∈ l → P x → P y → lea x y = true) →
  filter P (isort (then_by lea leb) l) = isort leb (filter P l).
Proof.
  intros H1 H2 H3 H4 HP.
  rewrite isort_filter by (by apply then_by_total || by apply then_by_trans).
  apply isort_ext. intros x y [Hx Hxl]%list_elem_of_filter [Hy Hyl]%list_elem_of_filter.
  unfold then_by. by rewrite !HP by done.
Qed.

Definition all_global_configs (w : world) : list ConfigurationsGlobal :=
  isort (then_by (λ a b, String.leb (cg_Feature a) (cg_Feature b))
                 (λ a b, String.leb (cg_Key a) (cg_Key b))) (configurations_global (w_feature w)).
Definition all_env_configs (w : world) : list ConfigurationsEnvironment :=
  isort (then_by (λ a b, N.leb (ce_EnvironmentID a) (ce_EnvironmentID b))
          (then_by (λ a b, String.leb (ce_Feature a) (ce_Feature b))
                   (λ a b, String.leb (ce_Key a) (ce_Key b))))
    (configurations_environment (w_feature w)).
Definition all_values (w : world) : list EnvironmentValueRow :=
  isort (then_by (λ a b, N.leb (ev_EnvironmentID a) (ev_EnvironmentID b))
                 (λ a b, String.leb (ev_Key a) (ev_Key b))) (environment_values (w_env w)).

Lemma fetchSnapshot_values `{codec : FeatureCodec} aud w snap w' :
  fetchSnapshot aud w = (Ok snap, w') →
  s_globalConfig snap =
    foldl (λ m row, append_at m (cg_Feature row) (global_row row)) ∅ (all_global_configs w) ∧
  s_envConfig snap =
    foldl (λ m row, let inner := default ∅ (m !! ce_EnvironmentID row) in
                    <[ce_EnvironmentID row := append_at inner (ce_Feature row) (env_row row)]> m)
      ∅ (all_env_configs w) ∧
  envValues aud (all_values w) (tenant_environments w) = Ok (s_envValues snap).
Proof.
  unfold fetchSnapshot. intros H.
  read_bind H envs He S1. read_bind H health Hh S2. read_bind H rows Hr S3.
  read_bind H deps Hd S4. read_bind H dis Hdis S5. read_bind H gc Hgc S6.
  read_bind H ec Hec S7. read_bind H vs Hvs S8. read_bind H ins Hins S9.
  read_bind H dep Hdep S10. injection H as <- _. cbn [s_globalConfig s_envConfig s_envValues].
  unfold buildGlobalConfigMap in Hgc. read_bind Hgc grows Hg T1. injection Hgc as <- _.
  unfold buildEnvConfigMap in Hec. read_bind Hec erows Hec' T2. injection Hec as <- _.
  unfold buildEnvValues in Hvs. read_bind Hvs vrows Hv T3. injection Hvs as Hvs _.
  apply wrapping_Ok, query_value in He, Hg, Hec', Hv; [|done..].
  injection He as <-. injection Hg as <-. injection Hec' as <-. injection Hv as <-.
  pose proof (same_world_feature _ _ S1) as F1. pose proof (same_world_feature _ _ S2) as F2.
  pose proof (same_world_feature _ _ S3) as F3. pose proof (same_world_feature _ _ S4) as F4.
  pose proof (same_world_feature _ _ S5) as F5. pose proof (same_world_feature _ _ S6) as F6.
  apply same_world_env in S1, S2, S3, S4, S5, S6, S7.
  unfold all_global_configs, all_env_configs, all_values.
  split_and!.
  - by rewrite F5, F4, F3, F2, F1.
  - by rewrite F6, F5, F4, F3, F2, F1.
  - by rewrite <-S1, <-S2, <-S3, <-S4, <-S5, <-S6, <-S7.
Qed.

Lemma append_at_key {K R V} `{Countable K} (key : R → K) (val : R → V) l m k :
  default [] (foldl (λ m r, append_at m (key r) (val r)) m l !! k) =
  default [] (m !! k) ++ (val <$> filter (λ r, key r = k) l).
Proof.
  revert m. induction l as [|r l IH]; intros m; cbn; [by rewrite app_nil_r|].
  rewrite IH. unfold append_at.
  destruct (decide (key r = k)) as [<-|Hk].
  - rewrite lookup_insert_eq. cbn. by rewrite <-app_assoc.
  - by rewrite lookup_insert_ne.
Qed.

Lemma envConfigForFeature_lookup rows m envID feature :
  envConfigForFeature
    (foldl (λ m row, let inner := default ∅ (m !! ce_EnvironmentID row) in
                     <[ce_EnvironmentID row := append_at inner (ce_Feature row) (env_row row)]> m)
       m rows) envID feature =
  envConfigForFeature m envID feature ++
    (env_row <$> filter (λ r, ce_Feature r = feature ∧ ce_EnvironmentID r = envID) rows).
Proof.
  revert m. induction rows as [|r rows IH]; intros m; cbn [foldl]; [by rewrite app_nil_r|].
  rewrite IH. rewrite filter_cons. cbv zeta.
  assert (He : envConfigForFeature (<[ce_EnvironmentID r :=
      append_at (default ∅ (m !! ce_EnvironmentID r)) (ce_Feature r) (env_row r)]> m) envID feature =
    envConfigForFeature m envID feature ++
      (if decide (ce_Feature r = feature ∧ ce_EnvironmentID r = envID) then [env_row r] else [])).
  { unfold envConfigForFeature. destruct (decide (ce_EnvironmentID r = envID)) as [<-|Hne].
    - rewrite lookup_insert_eq. unfold append_at. destruct (decide (ce_Feature r = feature)) as [<-|Hf].
      + rewrite lookup_insert_eq. cbn. rewrite decide_True by done.
        destruct (m !! ce_EnvironmentID r); [done|]. cbn. by rewrite lookup_empty.
      + rewrite lookup_insert_ne, decide_False by naive_solver. rewrite app_nil_r.
        destruct (m !! ce_EnvironmentID r); [done|]. cbn. by rewrite lookup_empty.
    - rewrite lookup_insert_ne, decide_False by naive_solver. by rewrite app_nil_r. }
  rewrite He, <-app_assoc. f_equal. by case_decide.
Qed.

(** The rows of the snapshot, overlaid, are those the preview overlays. *)
Lemma configs_agree `{codec : FeatureCodec} aud w snap w' envID name keys :
  fetchSnapshot aud w = (Ok snap, w') →
  mergeConfigRows (default [] (s_globalConfig snap !! name))
    (envConfigForFeature (s_envConfig snap) envID name) keys =
  MergeConfigs (isort (λ a b, String.leb (cg_Key a) (cg_Key b))
      (filter (λ g, cg_Feature g = name) (configurations_global (w_feature w))))
    (isort (λ a b, String.leb (ce_Key a) (ce_Key b))
      (filter (λ e, ce_Feature e = name ∧ ce_EnvironmentID e = envID)
        (configurations_environment (w_feature w)))) keys.
Proof.
  intros (-> & -> & _)%fetchSnapshot_values. rewrite <-mergeConfigRows_MergeConfigs.
  rewrite append_at_key, lookup_empty, envConfigForFeature_lookup. cbn [default app].
  unfold all_global_configs, all_env_configs. f_equal.
  - f_equal. apply isort_then_by_filter.
    + intros x y. apply leb_total.
    + intros x y z. apply leb_trans.
    + intros x y. apply leb_total.
    + intros x y z. apply leb_trans.
    + intros x y _ _ -> ->. destruct (leb_total name name); done.
  - assert (envConfigForFeature ∅ envID name = []) as -> by done. cbn [app]. f_equal.
    rewrite isort_then_by_filter.
    + apply isort_ext. intros x y [[Hx _] _]%list_elem_of_filter [[Hy _] _]%list_elem_of_filter.
      unfold then_by. rewrite Hx, Hy. by destruct (leb_total name name) as [-> | ->].
    + intros x y. rewrite !N.leb_le. lia.
    + intros x y z. rewrite !N.leb_le. lia.
    + apply then_by_total; intros x y; apply leb_total.
    + apply then_by_trans; intros x y z; apply leb_trans.
    + intros x y _ _ [_ ->] [_ ->]. by apply N.leb_le.
Qed.

(** ** The values of one environment *)

Lemma values_fold (err : EnvironmentValueRow → string) rows (m0 vals : gomap) :
  (ofold (λ (vals : gomap) v, let! val := wrap (err v) (json_Unmarshal (ev_Value v)) in
                   Ok (<[ev_Key v := val]> vals)) m0 rows) = Ok vals →
  NoDup (ev_Key <$> rows) →
  (∀ v, v ∈ rows → ∃ x, json_Unmarshal (ev_Value v) = Ok x) ∧
  ∀ k x, vals !! k = Some x ↔ ((k ∉ (ev_Key <$> rows)) ∧ m0 !! k = Some x) ∨
    ∃ v, v ∈ rows ∧ ev_Key v = k ∧ json_Unmarshal (ev_Value v) = Ok x.
Proof.
  revert m0. induction rows as [|v rows IH]; intros m0 H Hnd; cbn [ofold] in H.
  { injection H as ->. split; [by intros v ?%elem_of_nil|]. intros k x. split.
    - intros Hx. left. split; [apply not_elem_of_nil|done].
    - intros [[_ Hx]|(v & ?%elem_of_nil & _)]; done. }
  apply obind_Ok in H as (m1 & H1 & H). apply obind_Ok in H1 as (val & Hv%wrap_Ok & [= <-]).
  rewrite fmap_cons in Hnd. apply NoDup_cons in Hnd as [Hn Hnd].
  destruct (IH _ H Hnd) as [Hok Hl]. split.
  { intros v' [->|Hv']%elem_of_cons; [by exists val|by apply Hok]. }
  intros k x. rewrite Hl, fmap_cons, not_elem_of_cons. split.
  - intros [[Hk Hx]|(v' & Hv' & Hrest)]; [|right; exists v'; split; [by right|done]].
    apply lookup_insert_Some in Hx as [[<- <-]|[Hne Hx]]; [|left; by split_and!].
    right. exists v. split; [left|done].
  - intros [[[Hne Hk] Hx]|(v' & [->|Hv']%elem_of_cons & <- & Hx)].
    + left. split; [done|]. by rewrite lookup_insert_ne.
    + left. split; [done|]. rewrite lookup_insert_eq. congruence.
    + right. by exists v'.
Qed.

Definition unreserved (rows : list EnvironmentValueRow) : Prop :=
  ∀ v, v ∈ rows → ev_Key v ≠ "name" ∧ ev_Key v ≠ "kind".

(** The reconciler puts the reserved keys first, the preview last; without rows of these
    names, and whatever order the rows come in, both make the same map. *)
Lemma env_vals_object name kind rows rows' err vals :
  object_decodes → env_vals name kind rows err = Ok vals → rows ≡ₚ rows' →
  NoDup (ev_Key <$> rows) → unreserved rows →
  ∃ val, unmarshal_object (mapping_pair true <$> rows') = Ok val ∧
    <["kind" := VStr kind]> (<["name" := VStr name]> val) = vals.
Proof.
  intros Hobj Hv HP Hnd Hres. destruct (values_fold _ _ _ _ Hv Hnd) as [Hok Hl].
  assert (Hpair : ∀ v, mapping_pair true v = (ev_Key v, ev_Value v))
    by (intros v; unfold mapping_pair; by rewrite andb_false_r).
  destruct (Hobj (mapping_pair true <$> rows')) as (val & Hval & Hm).
  - rewrite <-list_fmap_compose. cbn. by rewrite <-HP.
  - intros q (v & -> & Hin)%list_elem_of_fmap. rewrite Hpair. rewrite <-HP in Hin. by apply Hok.
  - exists val. split; [done|]. apply map_eq. intros k. apply option_eq. intros x.
    rewrite Hl, !lookup_insert_Some.
    assert (Hin : val !! k = Some x ↔ ∃ v, v ∈ rows ∧ ev_Key v = k ∧ json_Unmarshal (ev_Value v) = Ok x).
    { rewrite Hm. split.
      - intros (text & (v & Heq & Hvin)%list_elem_of_fmap & Hx). rewrite Hpair in Heq.
        injection Heq as -> ->. exists v. by rewrite HP.
      - intros (v & Hvin & <- & Hx). exists (ev_Value v). split; [|done].
        apply list_elem_of_fmap. exists v. by rewrite Hpair, <-HP. }
    rewrite Hin. clear Hin.
    assert (Hk : (∃ v, v ∈ rows ∧ ev_Key v = k ∧ json_Unmarshal (ev_Value v) = Ok x) →
      k ≠ "name" ∧ k ≠ "kind") by (intros (v & Hvin & <- & _); by apply Hres).
    assert (Hnk : ∀ s, s = "name" ∨ s = "kind" → s ∉ ev_Key <$> rows).
    { intros s Hs (v & -> & Hvin)%list_elem_of_fmap. apply Hres in Hvin as [? ?]. by destruct Hs. }
    rewrite lookup_empty. split.
    + intros [[<- <-]|[? [[<- <-]|[? H]]]].
      * left. split; [apply Hnk; by right|]. by left.
      * left. split; [apply Hnk; by left|]. right. split; [done|]. by left.
      * by right.
    + intros [[_ [[<- <-]|[? [[<- <-]|[? ?]]]]]|H]; [by left|right; split; [done|by left]|done|].
      pose proof (Hk H) as [? ?]. right. split; [done|]. right. by split.
Qed.

Lemma env_vals_err name kind rows err err' vals :
  env_vals name kind rows err = Ok vals → env_vals name kind rows err' = Ok vals.
Proof.
  unfold env_vals. generalize (<["kind" := VStr kind]> (<["name" := VStr name]> (∅ : gomap))).
  induction rows as [|v rows IH]; intros m H; cbn [ofold] in *; [done|].
  apply obind_Ok in H as (m1 & H1 & H). apply obind_Ok in H1 as (val & Hv%wrap_Ok & [= <-]).
  rewrite Hv. cbn. by apply IH.
Qed.

(** ** The environments of a tenant *)

Definition te_of (t : TenantRow) (e : EnvironmentRow) : TenantEnvironment :=
  {| te_ID := er_ID e; te_Name := er_Name e; te_Kind := er_Kind e; te_Labels := er_Labels e;
     te_Reconcile := er_Reconcile e; te_TenantID := t_ID t; te_TenantName := t_Name t |}.

Lemma join_tenant_te w e te : te ∈ join_tenant w e ↔
  ∃ t, t ∈ tenants (w_env w) ∧ t_ID t = er_TenantID e ∧ te = te_of t e.
Proof.
  unfold join_tenant. rewrite list_elem_of_fmap. split.
  - intros (t & -> & [? ?]%list_elem_of_filter). by exists t.
  - intros (t & ? & ? & ->). exists t. split; [done|]. by apply list_elem_of_filter.
Qed.

Lemma elem_of_tenants w te : te ∈ tenant_environments w ↔
  ∃ e t, e ∈ environments (w_env w) ∧ t ∈ tenants (w_env w) ∧ t_ID t = er_TenantID e ∧ te = te_of t e.
Proof.
  unfold tenant_environments. rewrite elem_of_isort, elem_of_concat. split.
  - intros (l & Hte & (e & -> & He)%list_elem_of_fmap).
    apply join_tenant_te in Hte as (t & ? & ? & ->). by exists e, t.
  - intros (e & t & He & Ht & Hid & ->). exists (join_tenant w e). split.
    + apply join_tenant_te. by exists t.
    + apply list_elem_of_fmap. by exists e.
Qed.

Lemma unique_tenant w t e :
  NoDup (t_ID <$> tenants (w_env w)) → t ∈ tenants (w_env w) → t_ID t = er_TenantID e →
  join_tenant w e = [te_of t e].
Proof.
  intros Hnd Ht Hid. unfold join_tenant. rewrite <-Hid.
  assert (filter (λ t', t_ID t' = t_ID t) (tenants (w_env w)) = [t]) as ->; [|done].
  induction (tenants (w_env w)) as [|x l IH]; [by apply elem_of_nil in Ht|].
  rewrite fmap_cons, NoDup_cons in Hnd. destruct Hnd as [Hx Hl].
  apply elem_of_cons in Ht as [->|Ht].
  - rewrite filter_cons, decide_True by done. f_equal. apply filter_none. intros y Hy Hi.
    apply Hx, list_elem_of_fmap. by exists y.
  - rewrite filter_cons, decide_False; [by apply IH|]. intros Hi. apply Hx.
    apply list_elem_of_fmap. by exists t.
Qed.

(** The snapshot's list of a tenant is the preview's. *)
Lemma tenant_list w t :
  NoDup (t_ID <$> tenants (w_env w)) → t ∈ tenants (w_env w) →
  filter (λ te, te_TenantID te = t_ID t) (tenant_environments w) =
  te_of t <$> isort (λ a b, String.leb (er_Name a) (er_Name b))
                (filter (λ e, er_TenantID e = t_ID t) (environments (w_env w))).
Proof.
  intros Hnd Ht. unfold tenant_environments. rewrite isort_then_by_filter.
  - rewrite <-(isort_fmap (te_of t) (λ a b, String.leb (er_Name a) (er_Name b))
      (λ a b, String.leb (te_Name a) (te_Name b))) by done. f_equal.
    induction (environments (w_env w)) as [|e l IH]; [done|]. rewrite fmap_cons. cbn [concat].
    rewrite filter_app, IH, filter_cons. destruct (decide (er_TenantID e = t_ID t)) as [He|He].
    + rewrite (unique_tenant w t) by done. by rewrite filter_cons, decide_True.
    + rewrite filter_none; [done|]. intros te (t' & _ & Hid & ->)%join_tenant_te. cbn. by rewrite Hid.
  - intros x y. apply leb_total.
  - intros x y z. apply leb_trans.
  - intros x y. apply leb_total.
  - intros x y z. apply leb_trans.
  - intros x y Hx Hy Hxt Hyt.
    assert (∀ te, te ∈ concat (join_tenant w <$> environments (w_env w)) → te_TenantID te = t_ID t →
      te_TenantName te = t_Name t) as Hname.
    { intros te (l & Hte & (e & -> & _)%list_elem_of_fmap)%elem_of_concat Hti.
      apply join_tenant_te in Hte as (t' & Ht' & _ & ->). cbn in *.
      by rewrite (NoDup_fmap_inj_on t_ID _ t' t Hnd Ht' Ht Hti). }
    rewrite (Hname x), (Hname y) by done. by destruct (leb_total (t_Name t) (t_Name t)).
Qed.

(** What a loop's last write of an entry leaves. *)
Lemma ofold_established {A S} (f : S → A → outcome S) (P : S → Prop) l x s r :
  ofold f s l = Ok r → x ∈ l → NoDup l →
  (∀ s s', f s x = Ok s' → P s') →
  (∀ y s s', y ∈ l → y ≠ x → f s y = Ok s' → P s → P s') → P r.
Proof.
  intros H (l1 & l2 & ->)%list_elem_of_split Hnd Hx Hy.
  rewrite ofold_app in H. apply obind_Ok in H as (s1 & _ & H). cbn [ofold] in H.
  apply obind_Ok in H as (s2 & Hs2 & H). apply Hx in Hs2.
  apply NoDup_app in Hnd as (_ & _ & Hnd). apply NoDup_cons in Hnd as [Hn _].
  assert (Hy2 : ∀ y s s', y ∈ l2 → f s y = Ok s' → P s → P s').
  { intros y s0 s' Hin. apply Hy; [apply elem_of_app; right; by right|]. by intros ->. }
  clear -H Hs2 Hy2. revert s2 H Hs2. induction l2 as [|y l2 IH]; intros s2 H Hs2; cbn [ofold] in H.
  - by injection H as <-.
  - apply obind_Ok in H as (s3 & Hs3 & H).
    apply (IH ltac:(intros; eapply Hy2; [by right|done..]) _ H). eapply Hy2; [left|done..].
Qed.

Lemma build_one_entry aud tn byEnv parsed target result r :
  build_one aud tn byEnv parsed result target = Ok r →
  ∃ envVals, env_vals (te_Name target.1) (te_Kind target.1) (values_of byEnv target.1)
      (λ _, "unmarshal env value") = Ok envVals ∧
    r = <[te_ID target.1 :=
           {| cv_Kind := te_Kind target.1; cv_Tenant := tn; cv_Fasit := aud;
              cv_Management := (tenant_view parsed).1; cv_Env := Some envVals;
              cv_Envs := (tenant_view parsed).2; cv_Configs := None |}]> result.
Proof.
  unfold build_one. intros (envVals & Hv & H)%obind_Ok. exists envVals. split; [done|].
  destruct (tenant_view parsed). by injection H as <-.
Qed.

Lemma build_one_others aud tn byEnv parsed targets result r id :
  ofold (build_one aud tn byEnv parsed) result targets = Ok r →
  (∀ p, p ∈ targets → te_ID p.1 ≠ id) → r !! id = result !! id.
Proof.
  revert result. induction targets as [|p targets IH]; intros result H Hid; cbn [ofold] in H.
  { by injection H as <-. }
  apply obind_Ok in H as (s & Hs & H). apply build_one_entry in Hs as (v & _ & ->).
  rewrite (IH _ H) by (intros; apply Hid; by right). apply lookup_insert_ne, Hid. left.
Qed.

Lemma last_insert {K R V} `{Countable K} (key : R → K) (val : R → V) l (m : gmap K V) k v :
  (∀ r, r ∈ l → key r = k → val r = v) → (∃ r, r ∈ l ∧ key r = k) →
  foldl (λ m r, <[key r := val r]> m) m l !! k = Some v.
Proof.
  induction l as [|r l IH] using rev_ind; intros Hv (r0 & Hr0 & Hk); [by apply elem_of_nil in Hr0|].
  rewrite foldl_app. cbn [foldl]. destruct (decide (key r = k)) as [Hr|Hr].
  - rewrite Hr, lookup_insert_eq. f_equal. apply Hv; [apply elem_of_app; right; left|done].
  - rewrite lookup_insert_ne by done. apply IH.
    + intros r' Hr'. apply Hv, elem_of_app. by left.
    + apply elem_of_app in Hr0 as [Hr0|Hr0%list_elem_of_singleton]; [by exists r0|by subst].
Qed.

Definition rows_of_env (w : world) (id : uuid) : list EnvironmentValueRow :=
  filter (λ v, ev_EnvironmentID v = id) (all_values w).

Definition parsed_as (w : world) (te : TenantEnvironment) (p : TenantEnvironment * gomap) : Prop :=
  p.1 = te ∧ env_vals (te_Name te) (te_Kind te) (rows_of_env w (te_ID te)) (λ _, "") = Ok p.2.

Definition tenant_sorted (w : world) (t : TenantRow) : list EnvironmentRow :=
  isort (λ a b, String.leb (er_Name a) (er_Name b))
    (filter (λ e, er_TenantID e = t_ID t) (environments (w_env w))).

Definition snapshot_entry (aud : string) (t : TenantRow) (e : EnvironmentRow)
    (parsed : list (TenantEnvironment * gomap)) (vals : gomap) : ComputedValues :=
  {| cv_Kind := er_Kind e; cv_Tenant := t_Name t; cv_Fasit := aud;
     cv_Management := (tenant_view parsed).1; cv_Env := Some vals;
     cv_Envs := (tenant_view parsed).2; cv_Configs := None |}.

Lemma parse_env_as w byEnv te p :
  values_of byEnv te = rows_of_env w (te_ID te) → parse_env byEnv te = Ok p → parsed_as w te p.
Proof.
  unfold parse_env. intros Hv H. apply obind_Ok in H as (vals & Hvals & [= <-]). split; [done|].
  cbn. rewrite <-Hv. by eapply env_vals_err.
Qed.

Lemma parsed_as_elem w tes parsed p : Forall2 (parsed_as w) tes parsed → p ∈ parsed → parsed_as w p.1 p.
Proof.
  induction 1 as [|te p' l k Hp _ IH]; [by intros ?%elem_of_nil|].
  intros [->|Hin]%elem_of_cons; [|by apply IH]. destruct Hp as [Hte Hv]. split; [done|by rewrite Hte].
Qed.

Lemma build_tenant_entry w aud byEnv names result r t e :
  (∀ te, values_of byEnv te = rows_of_env w (te_ID te)) →
  default "" (names !! t_ID t) = t_Name t →
  NoDup (er_ID <$> environments (w_env w)) → e ∈ environments (w_env w) → er_TenantID e = t_ID t →
  build_tenant aud byEnv names result (t_ID t, te_of t <$> tenant_sorted w t) = Ok r →
  ∃ parsed vals, Forall2 (parsed_as w) (te_of t <$> tenant_sorted w t) parsed ∧
    (te_of t e, vals) ∈ parsed ∧ r !! er_ID e = Some (snapshot_entry aud t e parsed vals).
Proof.
  intros Hbe Hn Hids He Hte H. unfold build_tenant in H. cbn [fst snd] in H. rewrite Hn in H.
  apply obind_Ok in H as (parsed & Hp & H). rewrite omapM_Forall2 in Hp.
  assert (Hpa : Forall2 (parsed_as w) (te_of t <$> tenant_sorted w t) parsed)
    by (eapply Forall2_impl; [exact Hp|]; intros; by apply parse_env_as with byEnv).
  assert (Hfst : parsed.*1 = te_of t <$> tenant_sorted w t).
  { clear -Hpa. induction Hpa as [|te p l k [Hx _] _ IH]; [done|]. by rewrite fmap_cons, Hx, IH. }
  assert (Hnd : NoDup (te_ID ∘ fst <$> parsed)).
  { rewrite list_fmap_compose, Hfst, <-list_fmap_compose. unfold tenant_sorted. rewrite isort_perm.
    by apply (NoDup_fmap_filter er_ID). }
  assert (Hin : te_of t e ∈ parsed.*1).
  { rewrite Hfst. apply list_elem_of_fmap_2. unfold tenant_sorted.
    by apply elem_of_isort, list_elem_of_filter. }
  apply list_elem_of_fmap in Hin as ([te vals] & Heq & Hin). cbn in Heq. subst te.
  exists parsed, vals. split; [done|]. split; [done|].
  apply (ofold_established _ (λ r, r !! er_ID e = Some (snapshot_entry aud t e parsed vals))
    parsed (te_of t e, vals) _ _ H Hin (NoDup_fmap_1 _ _ Hnd)).
  - intros s s' (v & Hv & ->)%build_one_entry. cbn. rewrite lookup_insert_eq. f_equal.
    assert (v = vals) as ->; [|done]. apply env_vals_err with (err' := λ _, "") in Hv.
    destruct (parsed_as_elem _ _ _ _ Hpa Hin) as [_ Hvals]. cbn in Hv, Hvals. rewrite Hbe in Hv. cbn in Hv. congruence.
  - intros y s s' Hy Hne (v & _ & ->)%build_one_entry Hs. rewrite lookup_insert_ne; [done|].
    intros Hid. apply Hne. by apply (NoDup_fmap_inj_on (te_ID ∘ fst) parsed).
Qed.

(** What the snapshot says of the values of an environment. *)
Lemma envValues_entry w aud vals t e :
  NoDup (er_ID <$> environments (w_env w)) → NoDup (t_ID <$> tenants (w_env w)) →
  e ∈ environments (w_env w) → t ∈ tenants (w_env w) → t_ID t = er_TenantID e →
  envValues aud (all_values w) (tenant_environments w) = Ok vals →
  ∃ parsed v, Forall2 (parsed_as w) (te_of t <$> tenant_sorted w t) parsed ∧
    (te_of t e, v) ∈ parsed ∧ vals !! er_ID e = Some (snapshot_entry aud t e parsed v).
Proof.
  intros Hids Htids He Ht Hte H. unfold envValues in H.
  set (byEnv := foldl _ ∅ (all_values w)) in H. set (tenantEnvs := foldl _ ∅ _) in H at 2.
  set (names := foldl _ ∅ (tenant_environments w)) in H.
  assert (Hlist : ∀ tid, default [] (tenantEnvs !! tid) =
    filter (λ te, te_TenantID te = tid) (tenant_environments w)).
  { intros tid. unfold tenantEnvs.
    rewrite (append_at_key te_TenantID id), lookup_empty. cbn. apply list_fmap_id. }
  assert (Hin : te_of t e ∈ filter (λ te, te_TenantID te = t_ID t) (tenant_environments w)).
  { apply list_elem_of_filter. split; [done|]. apply elem_of_tenants. by exists e, t. }
  assert (Hx : (t_ID t, te_of t <$> tenant_sorted w t) ∈ map_to_list tenantEnvs).
  { apply elem_of_map_to_list. pose proof (Hlist (t_ID t)) as Hl.
    rewrite (tenant_list w t Htids Ht) in Hl. rewrite (tenant_list w t Htids Ht) in Hin.
    destruct (tenantEnvs !! t_ID t) as [l|]; cbn in Hl; [by rewrite Hl|].
    unfold tenant_sorted in *. rewrite <-Hl in Hin. by apply elem_of_nil in Hin. }
  apply (ofold_established _ (λ vals, ∃ parsed v, Forall2 (parsed_as w)
      (te_of t <$> tenant_sorted w t) parsed ∧ (te_of t e, v) ∈ parsed ∧
      vals !! er_ID e = Some (snapshot_entry aud t e parsed v)) _ _ _ _ H Hx (NoDup_map_to_list _)).
  - intros s s' Hs. eapply build_tenant_entry; [| |done..|by symmetry|exact Hs].
    + intros te. unfold values_of, byEnv, rows_of_env.
      rewrite (append_at_key ev_EnvironmentID id), lookup_empty. cbn. apply list_fmap_id.
    + unfold names. rewrite (last_insert te_TenantID te_TenantName _ _ _ (t_Name t)); [done| |].
      * intros te (e' & t' & _ & Ht' & _ & ->)%elem_of_tenants Hid. cbn in *.
        by rewrite (NoDup_fmap_inj_on t_ID _ t' t Htids Ht' Ht Hid).
      * exists (te_of t e). split; [|done]. by apply list_elem_of_filter in Hin as [_ ?].
  - intros [tid tes] s s' Hy Hne Hs (parsed & v & Hp & Hv & Hl). exists parsed, v. split_and!; [done..|].
    rewrite <-Hl. unfold build_tenant in Hs. cbn [fst snd] in Hs.
    apply obind_Ok in Hs as (parsed' & Hp' & Hs). eapply build_one_others; [exact Hs|].
    intros p Hpin Hid. rewrite omapM_Forall2 in Hp'.
    assert (Hpte : p.1 ∈ tes).
    { clear -Hp' Hpin. induction Hp' as [|te q l k Hq _ IH]; [by apply elem_of_nil in Hpin|].
      apply elem_of_cons in Hpin as [->|Hpin]; [|right; by apply IH].
      unfold parse_env in Hq. apply obind_Ok in Hq as (? & _ & [= <-]). left. }
    apply elem_of_map_to_list in Hy. pose proof (Hlist tid) as Hltid. rewrite Hy in Hltid. cbn in Hltid.
    rewrite Hltid in Hpte. apply list_elem_of_filter in Hpte as [Htid Hpte].
    apply elem_of_tenants in Hpte as (e' & t' & He' & _ & Hid' & Hpe). rewrite Hpe in Hid, Htid. cbn in *.
    assert (e' = e) as -> by by apply (NoDup_fmap_inj_on er_ID (environments (w_env w))).
    apply Hne. apply elem_of_map_to_list in Hx. f_equal; congruence.
Qed.

(** ** The preview's loop *)

(** The row of the preview that belongs to an entry of the snapshot. *)
Definition row_matches (row : MappingValuesRow) (p : TenantEnvironment * gomap) : Prop :=
  mr_ID row = te_ID p.1 ∧ mr_Name row = te_Name p.1 ∧ mr_Kind row = te_Kind p.1 ∧
  ∃ val, unmarshal_object (mr_Values row) = Ok val ∧
    <["kind" := VStr (mr_Kind row)]> (<["name" := VStr (mr_Name row)]> val) = p.2.

Definition view_step (acc : option gomap * list gomap) (other : TenantEnvironment * gomap)
    : option gomap * list gomap :=
  if bool_decide (te_Kind other.1 = EnvironmentKindManagement)
  then (Some other.2, acc.2) else (acc.1, acc.2 ++ [other.2]).

Lemma map_environments envID rows parsed mv :
  Forall2 row_matches rows parsed →
  ofold (map_environment envID) mv rows = Ok
    {| cv_Kind := cv_Kind mv; cv_Tenant := cv_Tenant mv; cv_Fasit := cv_Fasit mv;
       cv_Management := (foldl view_step (cv_Management mv, cv_Envs mv) parsed).1;
       cv_Env := foldl (λ env (p : TenantEnvironment * gomap),
                   if bool_decide (te_ID p.1 = envID) then Some p.2 else env) (cv_Env mv) parsed;
       cv_Envs := (foldl view_step (cv_Management mv, cv_Envs mv) parsed).2;
       cv_Configs := cv_Configs mv |}.
Proof.
  intros H. revert mv. induction H as [|row p rows parsed (Hid & Hn & Hk & val & Hval & Hp) _ IH]; intros mv.
  { by destruct mv. }
  cbn [ofold]. unfold map_environment at 1. rewrite Hval. cbn [wrap obind]. rewrite IH. cbn [foldl].
  cbn [cv_Kind cv_Tenant cv_Fasit cv_Management cv_Env cv_Envs cv_Configs]. rewrite Hp, Hid, Hk.
  assert (view_step (cv_Management mv, cv_Envs mv) p =
    (if bool_decide (te_Kind p.1 = EnvironmentKindManagement) then Some p.2 else cv_Management mv,
     if bool_decide (te_Kind p.1 = EnvironmentKindManagement) then cv_Envs mv else cv_Envs mv ++ [p.2]))
    as ->; [|done]. unfold view_step. by case_bool_decide.
Qed.

Lemma last_env (envID : uuid) (parsed : list (TenantEnvironment * gomap)) p (o : option gomap) :
  NoDup (te_ID ∘ fst <$> parsed) → p ∈ parsed → te_ID p.1 = envID →
  foldl (λ env p, if bool_decide (te_ID p.1 = envID) then Some p.2 else env) o parsed = Some p.2.
Proof.
  induction parsed as [|q parsed IH] using rev_ind; intros Hnd Hp Hid; [by apply elem_of_nil in Hp|].
  rewrite foldl_app. cbn [foldl]. rewrite fmap_app in Hnd. apply NoDup_app in Hnd as (Hnd & Hdis & _).
  apply elem_of_app in Hp as [Hp|Hp%list_elem_of_singleton].
  - rewrite bool_decide_eq_false_2; [by apply IH|]. intros Hq. apply (Hdis (te_ID p.1)).
    + apply list_elem_of_fmap. by exists p.
    + rewrite Hid, <-Hq. left.
  - subst q. by rewrite bool_decide_eq_true_2.
Qed.

Lemma rows_match w t parsed :
  object_decodes → NoDup ((λ v, (ev_EnvironmentID v, ev_Key v)) <$> environment_values (w_env w)) →
  unreserved (environment_values (w_env w)) →
  Forall2 (parsed_as w) (te_of t <$> tenant_sorted w t) parsed →
  Forall2 row_matches
    ((λ e, {| mr_ID := er_ID e; mr_Name := er_Name e; mr_Kind := er_Kind e;
              mr_Values := mapping_pair true <$>
                filter (λ v, ev_EnvironmentID v = er_ID e) (environment_values (w_env w)) |}) <$>
     tenant_sorted w t) parsed.
Proof.
  intros Hobj Hnd Hres. rewrite !Forall2_fmap_l. intros Hpa. eapply Forall2_impl; [exact Hpa|].
  intros e p [Hp Hv].
  split_and!; [by rewrite Hp..|]. cbn [mr_Values mr_Kind mr_Name]. cbn [te_of te_ID te_Name te_Kind] in Hv.
  assert (HP : rows_of_env w (er_ID e) ≡ₚ
    filter (λ v, ev_EnvironmentID v = er_ID e) (environment_values (w_env w)))
    by (unfold rows_of_env, all_values; by rewrite isort_perm).
  eapply env_vals_object; [exact Hobj|exact Hv|exact HP| |].
  - rewrite HP. assert (Hk : NoDup ((λ v, (ev_EnvironmentID v, ev_Key v)) <$>
      filter (λ v, ev_EnvironmentID v = er_ID e) (environment_values (w_env w))))
      by by apply NoDup_fmap_filter.
    apply (NoDup_fmap_1 (λ k, (er_ID e, k))). rewrite <-list_fmap_compose.
    erewrite list_fmap_ext; [exact Hk|]. intros i v [Hv' _]%list_elem_of_lookup_2%list_elem_of_filter.
    cbn. by rewrite Hv'.
  - intros v Hin. apply Hres. rewrite HP in Hin. by apply list_elem_of_filter in Hin as [_ ?].
Qed.

(** ** The preview shows what will be deployed *)

(** What both read of an environment, when nothing fails. *)
Lemma MappingValues_now w aud t e parsed v :
  w_faults w = [] → NoDup (er_ID <$> environments (w_env w)) → NoDup (t_ID <$> tenants (w_env w)) →
  e ∈ environments (w_env w) → t ∈ tenants (w_env w) → t_ID t = er_TenantID e →
  object_decodes → NoDup ((λ v, (ev_EnvironmentID v, ev_Key v)) <$> environment_values (w_env w)) →
  unreserved (environment_values (w_env w)) →
  Forall2 (parsed_as w) (te_of t <$> tenant_sorted w t) parsed → (te_of t e, v) ∈ parsed →
  MappingValuesForEnvironment aud (er_ID e) true w =
    (Ok (snapshot_entry aud t e parsed v, er_Kind e), w).
Proof.
  intros Hf Hids Htids He Ht Hte Hobj Hkeys Hres Hp Hv.
  pose proof (rows_match w t parsed Hobj Hkeys Hres Hp) as Hm.
  unfold MappingValuesForEnvironment, Get, GetTenant, ListMappingValuesForTenant.
  unfold mbind, M_bind, wrapping, attempt. rewrite !query_now by done.
  rewrite (filter_unique_id w e Hids He). cbn [single wrap].
  assert (Hj := unique_tenant w t e Htids Ht Hte). unfold join_tenant in Hj. rewrite <-Hte in Hj |- *.
  rewrite query_now by done.
  destruct (filter (λ t', t_ID t' = t_ID t) (tenants (w_env w))) as [|t' [|]] eqn:Et; [done| |done].
  assert (t' = t) as ->.
  { assert (t ∈ filter (λ t', t_ID t' = t_ID t) (tenants (w_env w))) as Hin by by apply list_elem_of_filter.
    rewrite Et in Hin. by apply list_elem_of_singleton in Hin. }
  cbn [single wrap]. rewrite query_now by done. unfold lift.
  rewrite (isort_fmap _ (λ a b, String.leb (er_Name a) (er_Name b))) by done.
  fold (tenant_sorted w t). rewrite (map_environments _ _ _ _ Hm). cbn.
  assert (Hnd : NoDup (te_ID ∘ fst <$> parsed)).
  { assert (Hfst : parsed.*1 = te_of t <$> tenant_sorted w t).
    { clear -Hp. induction Hp as [|te p l k [Hx _] _ IH]; [done|]. by rewrite fmap_cons, Hx, IH. }
    rewrite list_fmap_compose, Hfst, <-list_fmap_compose. unfold tenant_sorted. rewrite isort_perm.
    by apply (NoDup_fmap_filter er_ID). }
  pose proof (last_env (er_ID e) parsed (te_of t e, v) None Hnd Hv eq_refl) as Hl. cbn in Hl.
  unfold mret, M_ret. by rewrite Hl.
Qed.

Lemma fetchHelmRenderData_now w aud f t e parsed v mp :
  w_faults w = [] → NoDup (er_ID <$> environments (w_env w)) →
  e ∈ environments (w_env w) →
  MappingValuesForEnvironment aud (er_ID e) true w =
    (Ok (snapshot_entry aud t e parsed v, er_Kind e), w) →
  let vals := MergeConfigs
    (isort (λ a b, String.leb (cg_Key a) (cg_Key b))
      (filter (λ g, cg_Feature g = f_Name f) (configurations_global (w_feature w))))
    (isort (λ a b, String.leb (ce_Key a) (ce_Key b))
      (filter (λ r, ce_Feature r = f_Name f ∧ ce_EnvironmentID r = er_ID e)
        (configurations_environment (w_feature w)))) (configIncludeKeys f (er_Kind e)) in
  MakeHelmConfigMap vals = mp →
  ∃ secret, fetchHelmRenderData aud f (er_ID e) w =
    (let! m := mp in
     Ok ({| MV := snapshot_entry aud t e parsed v; EnvKind := er_Kind e; ConfigVals := vals;
            ConfigMap := m |}, secret), w).
Proof.
  intros Hf Hids He Hmv vals Hmp. unfold fetchHelmRenderData, mbind, M_bind. rewrite Hmv.
  unfold ListGlobalConfigByFeature, ListEnvConfigByFeature. rewrite !query_now by done. cbn [fst snd].
  fold vals. rewrite Hmp. unfold lift. destruct mp as [m|err|p]; [|by exists ∅..].
  unfold wrapping, attempt, Get, ListSecretKeysForTenant. rewrite !query_now by done.
  rewrite (filter_unique_id w e Hids He). cbn [single wrap]. rewrite !query_now by done.
  by eexists.
Qed.

(** C13.  The preview shows what will be deployed: when no query fails, and no value of an
    environment is called [name] or [kind], the values [HelmValues] renders for a feature
    in an environment of the snapshot are exactly those the reconciler renders for it from
    the snapshot, and so those of every decision about it that is not a failure, whatever
    the orders in which the two visit the map of values.  Templates must not change the
    data they read, and no computed key may be another's prefix. *)
Theorem preview_is_deployed `{codec : FeatureCodec} order1 order2 aud w snap w' env f :
  object_decodes → pure_templates →
  w_faults w = [] → env_wf (w_env w) (w_next_uuid w) → unreserved (environment_values (w_env w)) →
  fetchSnapshot aud w = (Ok snap, w') → env ∈ s_environments snap →
  order1 ≡ₚ map_to_list (f_Values (f_YAML f)) → order2 ≡ₚ map_to_list (f_Values (f_YAML f)) →
  computed_disjoint (e_Kind env) (map_to_list (f_Values (f_YAML f))) →
  (∀ values, HelmValues order1 aud f (e_ID env) w = (Ok values, w) ↔
     desired order2 snap env f = Ok values) ∧
  ∀ dep d, ra_Feature dep = f → computeAction order2 snap env dep = Ok d →
    IsFailure (dd_Action d) = false →
    ∃ values, dd_Values d = Some values ∧ HelmValues order1 aud f (e_ID env) w = (Ok values, w).
Proof.
  intros Hobj Hpure Hf [_ Htids _ _ Hids _ Hkeys] Hres Hs Henv H1 H2 Hdis.
  pose proof (fetchSnapshot_parts _ _ _ _ Hs) as [_ Hse]. rewrite Hse in Henv.
  apply list_elem_of_fmap in Henv as (te & -> & [_ Hte]%list_elem_of_filter).
  apply elem_of_tenants in Hte as (e & t & He & Ht & Hid & ->).
  cbn [environment_of e_ID e_Kind te_of te_ID te_Kind] in *.
  pose proof (fetchSnapshot_values _ _ _ _ Hs) as (_ & _ & Hv).
  destruct (envValues_entry w aud _ t e Hids Htids He Ht Hid Hv) as (parsed & v & Hp & Hin & Hl).
  pose proof (MappingValues_now w aud t e parsed v Hf Hids Htids He Ht Hid Hobj Hkeys Hres Hp Hin) as Hmv.
  assert (Hiff : ∀ values, HelmValues order1 aud f (er_ID e) w = (Ok values, w) ↔
    desired order2 snap (environment_of (te_of t e)) f = Ok values).
  { intros values. unfold desired. cbn [environment_of e_ID e_Kind te_of te_ID te_Kind].
    rewrite (configs_agree _ _ _ _ _ _ _ Hs), Hl.
    destruct (fetchHelmRenderData_now w aud f t e parsed v _ Hf Hids He Hmv eq_refl) as [secret Hfetch].
    unfold HelmValues, mbind, M_bind. rewrite Hfetch.
    set (vals := MergeConfigs _ _ _). destruct (MakeHelmConfigMap vals) as [m|err|p]; [|done..].
    cbn [obind fst]. unfold lift. set (data := {| MV := _ |}).
    split; intros Hr.
    - injection Hr as Hr. rewrite <-Hr. symmetry. pose proof Hr as Hr'. unfold RenderHelmValues in Hr'.
      apply obind_Ok in Hr' as (r & Hg & _). by eapply RenderHelmValues_order.
    - rewrite <-Hr. f_equal. symmetry. pose proof Hr as Hr'. unfold RenderHelmValues in Hr'.
      apply obind_Ok in Hr' as (r & Hg & _). by eapply RenderHelmValues_order. }
  split; [done|]. intros dep d Hdep Hc Hfail.
  destruct (computeAction_cases _ _ _ _ _ Hc) as [(a & msg & Ha & ->)|(values & hash & _ & Hd & _ & Hcmp)].
  - cbn in Hfail. congruence.
  - exists values. rewrite Hdep in Hd. split; [|by apply Hiff]. destruct (compareLatest _ _). by rewrite Hcmp.
Qed.

(** ** Secrets *)

(** The two worlds have the same environments and tenants, and values that differ at most
    in secret ones. *)
Record same_but_secrets (w1 w2 : world) : Prop := {
  sb_tenants : tenants (w_env w1) = tenants (w_env w2);
  sb_environments : environments (w_env w1) = environments (w_env w2);
  sb_values : Forall2 (λ v1 v2, ev_EnvironmentID v1 = ev_EnvironmentID v2 ∧ ev_Key v1 = ev_Key v2 ∧
    ev_Secret v1 = ev_Secret v2 ∧ (ev_Secret v1 = false → ev_Value v1 = ev_Value v2))
    (environment_values (w_env w1)) (environment_values (w_env w2));
  sb_feature : w_feature w1 = w_feature w2;
  sb_faults : w_faults w1 = w_faults w2;
}.

Lemma masked_pairs id vs1 vs2 :
  Forall2 (λ v1 v2, ev_EnvironmentID v1 = ev_EnvironmentID v2 ∧ ev_Key v1 = ev_Key v2 ∧
    ev_Secret v1 = ev_Secret v2 ∧ (ev_Secret v1 = false → ev_Value v1 = ev_Value v2)) vs1 vs2 →
  mapping_pair false <$> filter (λ v, ev_EnvironmentID v = id) vs1 =
  mapping_pair false <$> filter (λ v, ev_EnvironmentID v = id) vs2.
Proof.
  induction 1 as [|v1 v2 vs1 vs2 (Hi & Hk & Hs & Hv) _ IH]; [done|]. rewrite !filter_cons, Hi.
  destruct (decide _); [|done]. rewrite !fmap_cons, IH. f_equal. unfold mapping_pair. rewrite Hk, <-Hs.
  destruct (ev_Secret v1); [done|]. cbn. by rewrite Hv.
Qed.

(** What [m] returns, and does to such worlds, does not depend on the secrets. *)
Definition blind {A} (m : IO A) : Prop :=
  ∀ w1 w2, same_but_secrets w1 w2 → (m w1).1 = (m w2).1 ∧ same_but_secrets (m w1).2 (m w2).2.

Lemma blind_ret {A} (a : A) : blind (mret a).
Proof. by intros w1 w2 H. Qed.

Lemma blind_lift {A} (o : outcome A) : blind (lift o).
Proof. by intros w1 w2 H. Qed.

Lemma blind_bind {A B} (m : IO A) (f : A → IO B) : blind m → (∀ a, blind (f a)) → blind (m ≫= f).
Proof.
  intros Hm Hf w1 w2 H. destruct (Hm _ _ H) as [Ho Hw]. unfold mbind, M_bind.
  destruct (m w1) as [o1 w1'], (m w2) as [o2 w2']. cbn in Ho, Hw. subst o2.
  destruct o1; [by apply Hf|done..].
Qed.

Lemma blind_wrapping {A} p (m : IO A) : blind m → blind (wrapping p m).
Proof.
  intros Hm w1 w2 H. destruct (Hm _ _ H) as [Ho Hw]. unfold wrapping.
  destruct (m w1) as [o1 w1'], (m w2) as [o2 w2']. cbn in *. by subst o2.
Qed.

Lemma blind_attempt {A} (m : IO A) : blind m → blind (attempt m).
Proof.
  intros Hm w1 w2 H. destruct (Hm _ _ H) as [Ho Hw]. unfold attempt.
  destruct (m w1) as [o1 w1'], (m w2) as [o2 w2']. cbn in *. subst o2. by destruct o1.
Qed.

Lemma blind_query {A} (f : world → outcome A) :
  (∀ w1 w2, same_but_secrets w1 w2 → f w1 = f w2) → blind (query f).
Proof.
  intros Hf w1 w2 H. unfold query, external. pose proof (sb_faults _ _ H) as Hfs.
  unfold next_fault, mbind, M_bind. rewrite Hfs.
  assert (Hset : ∀ g, same_but_secrets (set_w_faults g w1) (set_w_faults g w2))
    by (intros g; destruct H; split; cbn; congruence).
  destruct (w_faults w2) as [|[e|] fs]; cbn; (split; [|by auto]); [by apply Hf|done|by apply Hf, Hset].
Qed.

Lemma blind_MappingValues aud envID : blind (MappingValuesForEnvironment aud envID false).
Proof.
  unfold MappingValuesForEnvironment.
  apply blind_bind; [apply blind_wrapping, blind_query|intros env].
  { intros v1 v2 Hs. by rewrite (sb_environments _ _ Hs). }
  apply blind_bind; [apply blind_wrapping, blind_query|intros t].
  { intros v1 v2 Hs. by rewrite (sb_tenants _ _ Hs). }
  apply blind_bind; [apply blind_attempt, blind_query|intros [rows|err]].
  - intros v1 v2 Hs. rewrite (sb_environments _ _ Hs). do 2 f_equal. apply list_fmap_ext.
    intros i e _. f_equal. apply masked_pairs, (sb_values _ _ Hs).
  - apply blind_bind; [apply blind_lift|intros; apply blind_ret].
  - destruct (errors_is err ErrNoRows); [apply blind_ret|apply blind_wrapping]. by intros v1 v2 Hs.
Qed.

(** A reader who may not see secrets learns nothing about them: if two databases differ
    only in the values of secret rows, [MappingValuesForEnvironment] without sensitive
    values returns the same for both, on every outcome, errors included. *)
Theorem secrets_hidden aud envID w1 w2 :
  same_but_secrets w1 w2 →
  (MappingValuesForEnvironment aud envID false w1).1 = (MappingValuesForEnvironment aud envID false w2).1.
Proof. intros H. by apply blind_MappingValues. Qed.
End preview.

(** ** Examples *)

#[local] Abbreviation example_object :=
  {| unmarshal_object pairs := Ok (list_to_map ((λ p, (p.1, VMap ∅)) <$> pairs)) |}.

Lemma example_object_decodes : object_decodes (ext := echo) (obj := example_object).
Proof.
  intros pairs Hnd _. eexists. split; [reflexivity|]. intros k x.
  assert (Hn : NoDup ((λ p : string * string, (p.1, VMap ∅)) <$> pairs).*1)
    by by rewrite <-list_fmap_compose.
  rewrite <-elem_of_list_to_map, list_elem_of_fmap by exact Hn. split.
  - intros ([k' text] & [= -> ->] & Hp). by exists text.
  - intros (text & Hp & [= <-]). by exists (k, text).
Qed.

Definition example_value (key value : string) (secret : bool) : EnvironmentValueRow :=
  {| ev_EnvironmentID := 7; ev_Key := key; ev_Value := value; ev_Secret := secret |}.

Definition with_token (token : string) : world :=
  set_w_env (set_environment_values (λ _,
    [example_value "region" "eu" false; example_value "token" token true])) example_world.

Lemma with_token_wf token : env_wf (w_env (with_token token)) (w_next_uuid (with_token token)).
Proof.
  split; cbn; repeat constructor;
    try (intros H; repeat (apply elem_of_cons in H as [H|H]; [discriminate H|]); by apply elem_of_nil in H).
Qed.

Lemma preview_is_deployed_witness :
  let f := example_feature example_values in
  let order := map_to_list example_values in
  ∃ snap env values,
    fetchSnapshot (ext := echo) (pg := example_pg) (codec := example_codec) "" (with_token "s3cr3t")
      = (Ok snap, with_token "s3cr3t") ∧
    env ∈ s_environments snap ∧
    HelmValues (ext := echo) (pg := example_pg) (obj := example_object) (reverse order) "" f (e_ID env)
      (with_token "s3cr3t") = (Ok values, with_token "s3cr3t").
Proof.
  intros f order.
  destruct (fetchSnapshot (ext := echo) (pg := example_pg) (codec := example_codec) ""
    (with_token "s3cr3t")) as [[snap|e|p] w'] eqn:E; [|vm_compute in E; discriminate E..].
  assert (Hw : w' = with_token "s3cr3t") by (apply (f_equal snd) in E; vm_compute in E |- *; by rewrite <-E).
  destruct (s_environments snap) as [|env envs] eqn:Eenv;
    [apply (f_equal fst) in E; vm_compute in E; injection E as <-; discriminate Eenv|].
  destruct (desired (ext := echo) order snap env f) as [values|e|p] eqn:Ev;
    [|apply (f_equal fst) in E; vm_compute in E; injection E as <-; cbn in Eenv;
      injection Eenv as <- _; vm_compute in Ev; discriminate Ev..].
  exists snap, env, values. split; [by rewrite <-Hw|]. split; [rewrite Eenv; left|].
  refine (proj2 (proj1 (preview_is_deployed (ext := echo) (pg := example_pg) (obj := example_object)
    (codec := example_codec) (reverse order) order "" (with_token "s3cr3t") snap w' env f
    example_object_decodes echo_pure eq_refl (with_token_wf _) _ E _ _ _ _) values) Ev).
  - intros v Hv. cbn in Hv. repeat (apply elem_of_cons in Hv as [->|Hv]; [by split|]).
    by apply elem_of_nil in Hv.
  - rewrite Eenv. left.
  - apply reverse_Permutation.
  - reflexivity.
  - apply (f_equal fst) in E. vm_compute in E. injection E as <-. cbn in Eenv. injection Eenv as <- _.
    apply example_disjoint.
Defined.

Lemma secrets_hidden_witness :
  with_token "a" ≠ with_token "b" ∧
  (MappingValuesForEnvironment (pg := example_pg) (obj := example_object) "" 7 false (with_token "a")).1 =
  (MappingValuesForEnvironment (pg := example_pg) (obj := example_object) "" 7 false (with_token "b")).1.
Proof.
  split; [discriminate|].
  apply (secrets_hidden (pg := example_pg) (obj := example_object) "" 7 (with_token "a") (with_token "b")).
  split; [reflexivity|reflexivity| |reflexivity..]. cbn. repeat constructor. intros H. discriminate H.
Defined.
