(* ===== verification/FeatureEnvs.v ===== *)
(** * internal/ui/featureenvs: the environments of a feature

    The list on a feature's pages: every environment an assignment of the feature matches,
    with the assignment that wins there and its status.  It selects the winners on its own,
    over assignments it has keyed by the text of their targets. *)

From S2P Require Import Winning Preview.
From S2P Require Export AuditTrail ConfigStore Overview Invariant.

Record FeatureEnvironment := {
  fe_TenantName : string; fe_TenantSlug : string; fe_EnvironmentName : string; fe_Version : string;
  fe_AssignmentID : string; fe_Enabled : bool; fe_DisableReason : string;
  fe_EnvReconcileDisabled : bool; fe_LastModified : time; fe_Status : string;
}.

Definition targetMatchesLabels (target envLabels : Labels) : bool :=
  forallb (λ kv, bool_decide (default "" (envLabels !! kv.1) = kv.2)) (map_to_list target).

Definition targetKey (labels : Labels) : string :=
  foldl (λ ret k, ret +:+ (k +:+ ("=" +:+ (default "" (labels !! k) +:+ ";")))) ""
    (sort_strings (map_to_list labels).*1).

Definition latestAssignmentPerTarget : list FeatureAssignment → list FeatureAssignment :=
  distinct_first (targetKey ∘ fa_TargetLabels) [].

Definition consider_env (env : TenantEnvironment) (winners : gmap N FeatureAssignment)
    (fa : FeatureAssignment) : gmap N FeatureAssignment :=
  if negb (targetMatchesLabels (fa_TargetLabels fa) (te_Labels env)) then winners
  else match winners !! te_ID env with
       | None => <[te_ID env := fa]> winners
       | Some existing =>
           if IsMoreSpecific (fa_TargetLabels fa) (fa_TargetLabels existing) (fa_Created fa) (fa_Created existing)
           then <[te_ID env := fa]> winners else winners
       end.

Definition winningAssignments (assignments : list FeatureAssignment) (envs : list TenantEnvironment)
    : gmap N FeatureAssignment :=
  foldl (λ winners env, foldl (consider_env env) winners assignments) ∅ envs.

Section feature_envs.
Context `{ext : External} `{pg : Postgres} `{codec : FeatureCodec} (uuid_String : uuid → string).

Definition targetedEnvironments : IO (list TenantEnvironment) :=
  envs ← attempt (ListTenantEnvironments false);
  mret (match envs with inl l => l | inr _ => [] end).

Definition status_key (faID envID : uuid) : string := uuid_String faID +:+ (":" +:+ uuid_String envID).

Definition add_statuses (statusesByFA : gmap N (list FeatureReconcileStatus))
    (ret : gmap string FeatureReconcileStatus) (fa : FeatureAssignment) : gmap string FeatureReconcileStatus :=
  foldl (λ ret s, <[status_key (fa_ID fa) (frs_EnvironmentID s) := s]> ret) ret
    (default [] (statusesByFA !! fa_ID fa)).

Definition reconcileStatuses (assignments : list FeatureAssignment) : IO (gmap string FeatureReconcileStatus) :=
  statusesByFA ← attempt AllReconcileStatuses;
  mret (match statusesByFA with
        | inr _ => ∅
        | inl m => foldl (add_statuses m) ∅ assignments
        end).

(** The body of the loop; [None] is its [continue]. *)
Definition environment_row (featureName : string) (winners : gmap N FeatureAssignment)
    (statusByAssignmentEnv : gmap string FeatureReconcileStatus) (disabledByEnv : gmap N time)
    (env : TenantEnvironment) : IO (option FeatureEnvironment) :=
  match winners !! te_ID env with
  | None => mret None
  | Some winner =>
      reason ← (match disabledByEnv !! te_ID env with
                | Some _ => LatestDisableReason featureName (te_ID env)
                | None => mret ""
                end : IO string);
      let disabledAt := disabledByEnv !! te_ID env in
      let (status, lastModified) :=
        if negb (te_Reconcile env) then ("DISABLED", default time_zero disabledAt)
        else match disabledAt with
             | Some t => ("DISABLED", t)
             | None =>
                 match statusByAssignmentEnv !! status_key (fa_ID winner) (te_ID env) with
                 | Some s => (NormalizeStatus (frs_State s), frs_LastModified s)
                 | None => ("UNKNOWN", time_zero)
                 end
             end in
      mret (Some {| fe_TenantName := te_TenantName env; fe_TenantSlug := te_TenantName env;
                    fe_EnvironmentName := te_Name env; fe_Version := f_Version (fa_Feature winner);
                    fe_AssignmentID := uuid_String (fa_ID winner); fe_Enabled := negb (bool_decide (is_Some disabledAt));
                    fe_DisableReason := reason; fe_EnvReconcileDisabled := negb (te_Reconcile env);
                    fe_LastModified := lastModified; fe_Status := status |})
  end.

Definition row_order (a b : FeatureEnvironment) : bool :=
  if bool_decide (fe_TenantName a = fe_TenantName b)
  then String.leb (fe_EnvironmentName a) (fe_EnvironmentName b)
  else String.leb (fe_TenantName a) (fe_TenantName b).

Definition LoadEnvironments (feature : Feature) : IO (list FeatureEnvironment) :=
  assignments ← attempt (ListByFeature (f_Name feature));
  match assignments with
  | inr _ | inl [] => mret []
  | inl assignments =>
      let assignments := latestAssignmentPerTarget assignments in
      targetedEnvs ← targetedEnvironments;
      let winners := winningAssignments assignments targetedEnvs in
      statusByAssignmentEnv ← reconcileStatuses assignments;
      disabledByEnv ← attempt (ListDisabledEnvironmentsForFeature (f_Name feature));
      match disabledByEnv with
      | inr _ => mret []
      | inl disabledByEnv =>
          rows ← map_each (environment_row (f_Name feature) winners statusByAssignmentEnv disabledByEnv) targetedEnvs;
          mret (isort row_order (omap id rows))
      end
  end.
End feature_envs.

(** ** The text of a target *)

(** Neither an equals sign nor the separator. *)
Definition plain_label (sep : ascii) (s : string) : Prop := has_char "=" s = false ∧ has_char sep s = false.
Definition plain_labels (sep : ascii) (labels : Labels) : Prop :=
  ∀ k v, labels !! k = Some v → plain_label sep k ∧ plain_label sep v.

(** Different targets can have the same text: one with two labels, and one with a single
    label whose value looks like the rest. *)
Theorem targetKey_clash :
  let a : Labels := {[ "a" := "1"; "b" := "2" ]} in let b : Labels := {[ "a" := "1;b=2" ]} in
  a ≠ b ∧ targetKey a = targetKey b.
Proof. split; [by apply (bool_decide_unpack _); vm_compute|vm_compute; reflexivity]. Qed.

Definition pair_text (sep : ascii) (kv : string * string) : string :=
  kv.1 +:+ ("=" +:+ (kv.2 +:+ String sep "")).

Fixpoint pairs_text (sep : ascii) (l : list (string * string)) : string :=
  match l with [] => "" | kv :: l => pair_text sep kv +:+ pairs_text sep l end.

Lemma pairs_text_cons sep k v l :
  pairs_text sep ((k, v) :: l) = k +:+ String "=" (v +:+ String sep (pairs_text sep l)).
Proof.
  change (pairs_text sep ((k, v) :: l)) with ((k +:+ ("=" +:+ (v +:+ String sep ""))) +:+ pairs_text sep l).
  rewrite !str_app_assoc. done.
Qed.

Lemma pairs_text_inj sep l1 l2 :
  Forall (λ kv, plain_label sep kv.1 ∧ plain_label sep kv.2) l1 →
  Forall (λ kv, plain_label sep kv.1 ∧ plain_label sep kv.2) l2 →
  pairs_text sep l1 = pairs_text sep l2 → l1 = l2.
Proof.
  intros H1. revert l2. induction H1 as [|[k v] l1 [[Hk _] [_ Hv]] _ IH]; intros l2 H2 Ht;
    destruct H2 as [|[k' v'] l2 [[Hk' _] [_ Hv']] H2]; [done|by destruct k'|by destruct k|].
  rewrite !pairs_text_cons in Ht. cbn [fst snd] in *.
  apply (f_equal (cut_char "=")) in Ht. rewrite !cut_char_here in Ht by done. injection Ht as -> Ht.
  apply (f_equal (cut_char sep)) in Ht.
  rewrite !cut_char_here in Ht by done. injection Ht as -> Ht. f_equal. by apply IH.
Qed.

Definition sorted_pairs (labels : Labels) : list (string * string) :=
  (λ k, (k, default "" (labels !! k))) <$> sort_strings (map_to_list labels).*1.

Lemma targetKey_pairs labels : targetKey labels = pairs_text ";" (sorted_pairs labels).
Proof.
  unfold targetKey, sorted_pairs.
  assert (H : ∀ l s, foldl (λ ret k, ret +:+ (k +:+ ("=" +:+ (default "" (labels !! k) +:+ ";")))) s l =
    s +:+ pairs_text ";" ((λ k, (k, default "" (labels !! k))) <$> l)); [|by rewrite H].
  induction l as [|k l IH]; intros s; cbn [foldl]; [by rewrite str_app_nil_r|].
  rewrite IH, fmap_cons. cbn [pairs_text pair_text fst snd]. by rewrite str_app_assoc.
Qed.

Lemma elem_of_sorted_pairs labels k v : (k, v) ∈ sorted_pairs labels ↔ labels !! k = Some v.
Proof.
  unfold sorted_pairs. rewrite list_elem_of_fmap. split.
  - intros (k' & [= <- ->] & Hk). apply elem_of_sort_strings, list_elem_of_fmap in Hk as ([k2 v2] & -> & Hk).
    apply elem_of_map_to_list in Hk. cbn. by rewrite Hk.
  - intros Hk. exists k. rewrite Hk. split; [done|].
    apply elem_of_sort_strings, list_elem_of_fmap. exists (k, v). by rewrite elem_of_map_to_list.
Qed.

(** Without those characters the text tells targets apart, whatever separates the labels. *)
Lemma sorted_pairs_inj sep a b :
  plain_labels sep a → plain_labels sep b →
  pairs_text sep (sorted_pairs a) = pairs_text sep (sorted_pairs b) → a = b.
Proof.
  intros Ha Hb Ht. apply pairs_text_inj in Ht.
  - apply map_eq. intros k. apply option_eq. intros v. by rewrite <-!elem_of_sorted_pairs, Ht.
  - apply Forall_forall. intros [k v] Hk. apply elem_of_sorted_pairs in Hk. by apply (Ha k v).
  - apply Forall_forall. intros [k v] Hk. apply elem_of_sorted_pairs in Hk. by apply (Hb k v).
Qed.

Lemma targetKey_inj a b : plain_labels ";" a → plain_labels ";" b → targetKey a = targetKey b → a = b.
Proof. rewrite !targetKey_pairs. apply sorted_pairs_inj. Qed.

(** ** The winner in one environment *)

Lemma targetMatchesLabels_contain target labels :
  (∀ k, target !! k ≠ Some "") → targetMatchesLabels target labels = jsonb_contains labels target.
Proof. intros Hne. by rewrite jsonb_contains_labels. Qed.

Definition matching (labels : Labels) : list FeatureAssignment → list FeatureAssignment :=
  filter (λ fa, targetMatchesLabels (fa_TargetLabels fa) labels = true).

Lemma consider_env_fold env name l winners :
  (∀ fa, fa ∈ l → t_name fa = name) → winners !! te_ID env = None →
  foldl (consider_env env) winners l !! te_ID env = foldl consider ∅ (matching (te_Labels env) l) !! name.
Proof.
  intros Hn Hnone. induction l as [|fa l IH] using rev_ind.
  { cbn. by rewrite Hnone, lookup_empty. }
  unfold matching. rewrite filter_app, !foldl_app. cbn [foldl]. rewrite filter_cons, filter_nil.
  fold (matching (te_Labels env) l). specialize (IH (λ x Hx, Hn x (proj2 (elem_of_app _ _ _) (or_introl Hx)))).
  set (m := foldl (consider_env env) winners l) in *. set (m' := foldl consider ∅ _) in *.
  assert (Hname : t_name fa = name) by (apply Hn, elem_of_app; right; left).
  unfold consider_env at 1. destruct (targetMatchesLabels _ _) eqn:E; cbn [negb].
  - rewrite decide_True by done. cbn [foldl]. unfold consider. rewrite Hname, <-IH.
    destruct (m !! te_ID env) as [e|] eqn:Em; [|by rewrite !lookup_insert_eq].
    change (t_labels fa) with (fa_TargetLabels fa). change (t_labels e) with (fa_TargetLabels e).
    change (t_created fa) with (fa_Created fa). change (t_created e) with (fa_Created e).
    destruct (IsMoreSpecific _ _ _ _); [by rewrite !lookup_insert_eq|]. by rewrite Em, <-IH.
  - rewrite decide_False by done. by rewrite IH.
Qed.

Lemma consider_env_other env l winners k :
  te_ID env ≠ k → foldl (consider_env env) winners l !! k = winners !! k.
Proof.
  intros Hk. induction l as [|fa l IH] using rev_ind; [done|]. rewrite foldl_app. cbn [foldl].
  unfold consider_env at 1. destruct (negb _); [done|]. destruct (_ !! te_ID env) as [e|] eqn:E.
  - destruct (IsMoreSpecific _ _ _ _); [by rewrite lookup_insert_ne|done].
  - by rewrite lookup_insert_ne.
Qed.

Lemma consider_envs_other l envs winners k :
  (∀ e, e ∈ envs → te_ID e ≠ k) →
  foldl (λ winners env, foldl (consider_env env) winners l) winners envs !! k = winners !! k.
Proof.
  revert winners. induction envs as [|e envs IH]; intros winners Hk; [done|]. cbn [foldl].
  rewrite IH by (intros; apply Hk; by right). apply consider_env_other, Hk. left.
Qed.

Lemma consider_envs_fold name l envs env winners :
  (∀ fa, fa ∈ l → t_name fa = name) → NoDup (te_ID <$> envs) → env ∈ envs →
  (∀ e, e ∈ envs → winners !! te_ID e = None) →
  foldl (λ winners env, foldl (consider_env env) winners l) winners envs !! te_ID env =
    foldl consider ∅ (matching (te_Labels env) l) !! name.
Proof.
  intros Hn. revert winners. induction envs as [|e envs IH]; intros winners Hnd Hin Hempty; [by apply elem_of_nil in Hin|].
  rewrite fmap_cons in Hnd. apply NoDup_cons in Hnd as [He Hnd]. cbn [foldl].
  assert (Hne : ∀ e', e' ∈ envs → te_ID e' ≠ te_ID e).
  { intros e' He' Heq. apply He. rewrite <-Heq. by apply list_elem_of_fmap_2. }
  apply elem_of_cons in Hin as [-> |Hin].
  - rewrite consider_envs_other by done. apply consider_env_fold; [done|]. apply Hempty. left.
  - apply IH; [done|done|]. intros e' He'. rewrite consider_env_other by (by apply not_eq_sym, Hne).
    apply Hempty. by right.
Qed.

(** The winner of each environment is the one [consider] finds among the assignments that
    match it. *)
Lemma winningAssignments_lookup name l envs env :
  (∀ fa, fa ∈ l → t_name fa = name) → NoDup (te_ID <$> envs) → env ∈ envs →
  winningAssignments l envs !! te_ID env = foldl consider ∅ (matching (te_Labels env) l) !! name.
Proof. intros Hn Hnd Hin. by apply consider_envs_fold. Qed.

(** ** The assignments both read *)

Section agrees.
Context `{ext : External} `{pg : Postgres} `{codec : FeatureCodec} (uuid_String : uuid → string).

(** The active rows of a feature, joined with their versions. *)
Definition feature_rows (w : world) (name : string) : list LatestAssignmentRow :=
  filter (λ r, fd_Name (la_data r) = name ∧ ar_Active (la_assignment r) = true) (all_rows w).

Lemma ListByFeature_now w name fas w' :
  w_faults w = [] → ListByFeature name w = (Ok fas, w') →
  w' = w ∧ omapM row_assignment (isort created_desc (feature_rows w name)) = Ok fas.
Proof.
  intros Hf H. unfold ListByFeature, mbind, M_bind in H. rewrite query_now in H by done.
  unfold lift in H. by injection H as H <-.
Qed.

Lemma elem_of_all_rows w r :
  r ∈ all_rows w ↔ la_assignment r ∈ feature_assignments (w_feature w) ∧ la_data r ∈ feature_data (w_feature w) ∧
    fd_Name (la_data r) = ar_FeatureName (la_assignment r) ∧ fd_Version (la_data r) = ar_Version (la_assignment r).
Proof.
  unfold all_rows. rewrite elem_of_concat. split.
  - intros (l & Hr & (a & -> & Ha)%list_elem_of_fmap). unfold join_data in Hr.
    apply list_elem_of_fmap in Hr as (d & -> & [Hd Hin]%list_elem_of_filter). cbn. naive_solver.
  - intros (Ha & Hd & Hn & Hv). exists (join_data w (la_assignment r)).
    split; [|by apply list_elem_of_fmap_2]. unfold join_data. apply list_elem_of_fmap.
    exists (la_data r). split; [by destruct r|]. by apply list_elem_of_filter.
Qed.

(** An active row is determined by its feature and target. *)
Lemma row_by_target w r r' n :
  feature_wf (w_feature w) n → r ∈ all_rows w → r' ∈ all_rows w →
  ar_Active (la_assignment r) = true → ar_Active (la_assignment r') = true →
  target_key (la_assignment r) = target_key (la_assignment r') → r = r'.
Proof.
  intros [Hdata Hact _ _ _ _ _ _ _ _ _] Hr Hr' Ha Ha' Hk.
  apply elem_of_all_rows in Hr as (Hr & Hd & Hn & Hv). apply elem_of_all_rows in Hr' as (Hr' & Hd' & Hn' & Hv').
  assert (la_assignment r = la_assignment r') as Heq.
  { apply (NoDup_fmap_inj_on target_key (active_rows (feature_assignments (w_feature w)))); [done|..|done];
      by apply list_elem_of_filter. }
  assert (la_data r = la_data r') as Hdeq.
  { apply (NoDup_fmap_inj_on (λ f, (fd_Name f, fd_Version f)) (feature_data (w_feature w))); [done..|].
    cbn. by rewrite Hn, Hv, Hn', Hv', Heq. }
  destruct r, r'. cbn in *. by subst.
Qed.

Lemma row_assignment_fields r fa :
  row_assignment r = Ok fa →
  fa_TargetLabels fa = ar_Target (la_assignment r) ∧ fa_Created fa = ar_Created (la_assignment r) ∧
  fa_ID fa = ar_ID (la_assignment r).
Proof.
  unfold row_assignment, featureAssignmentFromSQL. intros H%wrap_Ok.
  by apply obind_Ok in H as (f & _ & [= <-]).
Qed.

Lemma elem_of_listed rows fas fa :
  omapM row_assignment rows = Ok fas → fa ∈ fas ↔ ∃ r, r ∈ rows ∧ row_assignment r = Ok fa.
Proof.
  rewrite omapM_Forall2. intros H2. split.
  - intros (i & Hi)%list_elem_of_lookup. destruct (Forall2_lookup_r _ _ _ _ _ H2 Hi) as (r & Hr & Hra).
    exists r. split; [by eapply list_elem_of_lookup_2|done].
  - intros (r & (i & Hi)%list_elem_of_lookup & Hra).
    destruct (Forall2_lookup_l _ _ _ _ _ H2 Hi) as (fa' & Hfa & Hra'). rewrite Hra in Hra'. injection Hra' as ->.
    by eapply list_elem_of_lookup_2.
Qed.

(** What [LoadEnvironments] needs of the tables. *)
Record featureenvs_ok (w : world) (name : string) (fas : list FeatureAssignment) : Prop := {
  ok_wf : feature_wf (w_feature w) (w_next_uuid w);
  ok_env : env_wf (w_env w) (w_next_uuid w);
  ok_listed : omapM row_assignment (isort created_desc (feature_rows w name)) = Ok fas;
  ok_plain : ∀ a, a ∈ feature_assignments (w_feature w) → plain_labels ";" (ar_Target a);
  ok_nonempty : ∀ a, a ∈ feature_assignments (w_feature w) → ∀ k, ar_Target a !! k ≠ Some "";
  ok_created : ∀ x y, x ∈ fas → y ∈ fas → fa_Created x = fa_Created y → x = y;
}.

Lemma elem_of_listed_row w name fas fa :
  featureenvs_ok w name fas →
  fa ∈ fas ↔ ∃ r, r ∈ all_rows w ∧ ar_FeatureName (la_assignment r) = name ∧
    ar_Active (la_assignment r) = true ∧ row_assignment r = Ok fa.
Proof.
  intros Hok. rewrite (elem_of_listed _ _ _ (ok_listed _ _ _ Hok)). setoid_rewrite elem_of_isort.
  unfold feature_rows. setoid_rewrite list_elem_of_filter. split.
  - intros (r & [[Hn Ha] Hr] & Hra). exists r. split_and!; try done.
    apply elem_of_all_rows in Hr as (_ & _ & Hn' & _). congruence.
  - intros (r & Hr & Hn & Ha & Hra). exists r. split_and!; try done.
    apply elem_of_all_rows in Hr as (_ & _ & Hn' & _). congruence.
Qed.

(** Keyed by a text that tells the targets apart, no assignment is lost. *)
Lemma elem_of_distinct_targets (key : Labels → string) w name fas fa :
  featureenvs_ok w name fas →
  (∀ a b, a ∈ feature_assignments (w_feature w) → b ∈ feature_assignments (w_feature w) →
     key (ar_Target a) = key (ar_Target b) → ar_Target a = ar_Target b) →
  fa ∈ distinct_first (key ∘ fa_TargetLabels) [] fas ↔ fa ∈ fas.
Proof.
  intros Hok Hinj. split; [by intros [? _]%elem_of_distinct_first|]. intros Hfa.
  assert (Hk : key (fa_TargetLabels fa) ∈ (key ∘ fa_TargetLabels) <$>
    distinct_first (key ∘ fa_TargetLabels) [] fas).
  { apply distinct_first_key; [|by apply not_elem_of_nil].
    apply list_elem_of_fmap. by exists fa. }
  apply list_elem_of_fmap in Hk as (fa' & Hk & Hin). pose proof Hin as [Hin' _]%elem_of_distinct_first.
  assert (fa = fa') as ->; [|done].
  apply (elem_of_listed_row _ _ _ _ Hok) in Hfa as (r & Hr & Hn & Ha & Hra).
  apply (elem_of_listed_row _ _ _ _ Hok) in Hin' as (r' & Hr' & Hn' & Ha' & Hra').
  destruct (row_assignment_fields _ _ Hra) as (Ht & _ & _). destruct (row_assignment_fields _ _ Hra') as (Ht' & _ & _).
  cbn in Hk. rewrite Ht, Ht' in Hk.
  apply Hinj in Hk; [|by apply elem_of_all_rows in Hr as [? _]|by apply elem_of_all_rows in Hr' as [? _]].
  assert (r = r') as ->; [|congruence]. eapply row_by_target; [apply Hok|done..|].
  unfold target_key. congruence.
Qed.

Lemma elem_of_latest w name fas fa :
  featureenvs_ok w name fas → fa ∈ latestAssignmentPerTarget fas ↔ fa ∈ fas.
Proof.
  intros Hok. apply (elem_of_distinct_targets _ w name); [done|]. intros a b Ha Hb.
  apply targetKey_inj; by apply (ok_plain _ _ _ Hok).
Qed.

(** The rows the single read chooses from are the listed ones that match. *)
Lemma elem_of_matching_rows w name e r :
  NoDup (er_ID <$> environments (w_env w)) → e ∈ environments (w_env w) →
  feature_wf (w_feature w) (w_next_uuid w) →
  r ∈ filter (λ r, ar_FeatureName (la_assignment r) = name) (distinct_rows (matching_rows w (er_ID e))) ↔
  r ∈ all_rows w ∧ ar_FeatureName (la_assignment r) = name ∧ ar_Active (la_assignment r) = true ∧
    jsonb_contains (er_Labels e) (ar_Target (la_assignment r)) = true.
Proof.
  intros Hu He Hwf. rewrite list_elem_of_filter.
  assert (Hm : ∀ r, r ∈ matching_rows w (er_ID e) ↔ r ∈ all_rows w ∧ ar_Active (la_assignment r) = true ∧
    jsonb_contains (er_Labels e) (ar_Target (la_assignment r)) = true).
  { intros r0. unfold matching_rows. rewrite (filter_unique_id w e Hu He), elem_of_concat. split.
    - intros (l & Hr & (a & -> & [Hact Ha]%list_elem_of_filter)%list_elem_of_fmap).
      cbn in Hr. rewrite app_nil_r in Hr. destruct (jsonb_contains _ _) eqn:Ej; [|by apply elem_of_nil in Hr].
      pose proof Hr as (Hla & _ & _)%join_data_assignment. rewrite Hla. split_and!; try done.
      unfold all_rows. apply elem_of_concat. eexists. split; [exact Hr|by apply list_elem_of_fmap_2].
    - intros (Hr & Hact & Hj). exists (join_data w (la_assignment r0)).
      apply elem_of_all_rows in Hr as (Ha & Hd & Hn & Hv). split.
      + apply list_elem_of_fmap. exists (la_data r0). split; [by destruct r0|]. by apply list_elem_of_filter.
      + apply list_elem_of_fmap. exists (la_assignment r0). cbn. rewrite Hj, app_nil_r.
        split; [done|]. by apply list_elem_of_filter. }
  assert (Hd : r ∈ distinct_rows (matching_rows w (er_ID e)) ↔ r ∈ matching_rows w (er_ID e)).
  { split; [by apply elem_of_distinct_rows|]. intros Hr. unfold distinct_rows.
    set (key := λ r, (ar_FeatureName (la_assignment r), ar_Target (la_assignment r))).
    assert (Hk : key r ∈ key <$> distinct_first key [] (isort latest_order (matching_rows w (er_ID e)))).
    { apply distinct_first_key; [|by apply not_elem_of_nil]. apply list_elem_of_fmap. exists r.
      by rewrite elem_of_isort. }
    apply list_elem_of_fmap in Hk as (r' & Hk & Hin). pose proof Hin as [Hr'%elem_of_isort _]%elem_of_distinct_first.
    apply Hm in Hr as (Hr & Ha & _). apply Hm in Hr' as (Hr' & Ha' & _).
    assert (r = r') as ->; [|done]. by eapply row_by_target. }
  rewrite Hd, Hm. naive_solver.
Qed.

(** ** One environment at a time *)

(** The reference: every environment asks for its winner, the statuses of that assignment
    and the day the feature was disabled, each with a query of its own. *)
Definition single_row (name : string) (te : TenantEnvironment) : IO (option FeatureEnvironment) :=
  found ← attempt (WinningAssignment (te_ID te) name);
  match found with
  | inr _ => mret None
  | inl winner =>
      statuses ← ReconcileStatuses (fa_ID winner);
      disabled ← GetFeatureDisabledAt (te_ID te) name;
      reason ← (if disabled.2 then LatestDisableReason name (te_ID te) else mret "" : IO string);
      let '(status, lastModified) :=
        if negb (te_Reconcile te) || disabled.2 then ("DISABLED", disabled.1)
        else match find (λ s, bool_decide (frs_EnvironmentID s = te_ID te)) statuses with
             | Some s => (NormalizeStatus (frs_State s), frs_LastModified s)
             | None => ("UNKNOWN", time_zero)
             end in
      mret (Some {| fe_TenantName := te_TenantName te; fe_TenantSlug := te_TenantName te;
                    fe_EnvironmentName := te_Name te; fe_Version := f_Version (fa_Feature winner);
                    fe_AssignmentID := uuid_String (fa_ID winner); fe_Enabled := negb disabled.2;
                    fe_DisableReason := reason; fe_EnvReconcileDisabled := negb (te_Reconcile te);
                    fe_LastModified := lastModified; fe_Status := status |})
  end.

Definition single_rows (name : string) : IO (list FeatureEnvironment) :=
  envs ← ListTenantEnvironments false;
  rows ← map_each (single_row name) envs;
  mret (isort row_order (omap id rows)).

Lemma map_each_same {A B} (f g : A → IO B) l w :
  (∀ x, x ∈ l → ∃ y, f x w = (Ok y, w) ∧ g x w = (Ok y, w)) → map_each f l w = map_each g l w ∧
  ∃ ys, map_each g l w = (Ok ys, w).
Proof.
  induction l as [|x l IH]; intros H; [by split; [|exists []]|].
  destruct (H x) as (y & Hf & Hg); [left|]. destruct IH as [IH (ys & Hys)]; [intros; apply H; by right|].
  cbn [map_each]. rewrite (bind_run _ _ _ _ _ Hf), (bind_run _ _ _ _ _ Hg).
  rewrite Hys in IH. rewrite (bind_run _ _ _ _ _ IH), (bind_run _ _ _ _ _ Hys). by split; [|exists (y :: ys)].
Qed.

(** *** The winner *)

Lemma single_winner {A} `{Targeted A} (deps : list A) k :
  (∀ d, d ∈ deps → t_name d = k) →
  pick_winners deps = match foldl consider ∅ deps !! k with Some x => [x] | None => [] end.
Proof.
  intros Hn.
  assert (Hk : ∀ x, x ∈ pick_winners deps → foldl consider ∅ deps !! k = Some x).
  { intros x Hx. apply pick_winners_fold in Hx as Hf. rewrite <-(Hn x); [done|].
    by destruct (pick_winners_wins _ _ Hx). }
  destruct (foldl consider ∅ deps !! k) as [x|] eqn:E.
  - assert (Hx : x ∈ pick_winners deps).
    { apply pick_winners_fold. pose proof (consider_fold deps k) as Hc. rewrite E in Hc.
      by destruct Hc as (_ & -> & _). }
    pose proof (pick_winners_names deps) as Hnd.
    destruct (pick_winners deps) as [|y [|z l]]; [by apply elem_of_nil in Hx|..].
    + f_equal. by apply list_elem_of_singleton in Hx.
    + exfalso. assert (y = x) as -> by (injection (Hk y ltac:(left)); congruence).
      assert (z = x) as -> by (injection (Hk z ltac:(right; left)); congruence).
      rewrite !fmap_cons in Hnd. apply NoDup_cons in Hnd as [Hnd _]. apply Hnd. left.
  - destruct (pick_winners deps) as [|y l]; [done|]. by specialize (Hk y ltac:(left)).
Qed.

(** The order of the assignments does not matter when no two of them tie. *)
Lemma consider_same_elements {A} `{Targeted A} (l1 l2 : list A) k :
  (∀ x, x ∈ l1 ↔ x ∈ l2) →
  (∀ x y, x ∈ l1 → y ∈ l1 → t_created x = t_created y → x = y) →
  foldl consider ∅ l1 !! k = foldl consider ∅ l2 !! k.
Proof.
  intros Hel Htie. pose proof (consider_fold l1 k) as H1. pose proof (consider_fold l2 k) as H2.
  destruct (foldl consider ∅ l1 !! k) as [x|], (foldl consider ∅ l2 !! k) as [y|]; [|..|done].
  - destruct H1 as (Hx & Hnx & H1), H2 as (Hy & Hny & H2). apply Hel in Hx as Hx2. apply Hel in Hy as Hy1.
    f_equal. apply Htie; [done..|]. specialize (H1 y Hy1 Hny). specialize (H2 x Hx2 Hnx).
    unfold less_specific in *. lia.
  - destruct H1 as (Hx & Hnx & _). apply Hel in Hx. by apply H2 in Hx.
  - destruct H2 as (Hy & Hny & _). apply Hel in Hy. by apply H1 in Hy.
Qed.

Lemma omapM_total {A B} (f : A → outcome B) l : (∀ x, x ∈ l → ∃ y, f x = Ok y) → ∃ k, omapM f l = Ok k.
Proof.
  induction l as [|x l IH]; intros H; [by exists []|]. destruct (H x) as (y & Hy); [left|].
  destruct IH as (k & Hk); [intros; apply H; by right|]. exists (y :: k). cbn [omapM]. by rewrite Hy, Hk.
Qed.

(** *** Both ways agree *)

Context (jsonb_total : ∀ x y, jsonb_leb x y = true ∨ jsonb_leb y x = true)
  (jsonb_trans : ∀ x y z, jsonb_leb x y = true → jsonb_leb y z = true → jsonb_leb x z = true)
  (uuid_plain : ∀ a, has_char ":" (uuid_String a) = false)
  (uuid_inj : ∀ a b, uuid_String a = uuid_String b → a = b).

Lemma status_key_inj a b a' b' :
  status_key uuid_String a b = status_key uuid_String a' b' → a = a' ∧ b = b'.
Proof.
  unfold status_key. intros Hk. apply (f_equal (cut_char ":")) in Hk.
  change (":" +:+ uuid_String b) with (String ":" (uuid_String b)) in Hk.
  change (":" +:+ uuid_String b') with (String ":" (uuid_String b')) in Hk.
  rewrite !cut_char_here in Hk by done. injection Hk as Ha Hb. by split; apply uuid_inj.
Qed.

Lemma insert_statuses_lookup a b e (l : list FeatureReconcileStatus)
    (out : gmap string FeatureReconcileStatus) :
  NoDup (frs_EnvironmentID <$> l) →
  foldl (λ ret s, <[status_key uuid_String a (frs_EnvironmentID s) := s]> ret) out l
      !! status_key uuid_String b e =
  if decide (a = b) then from_option Some (out !! status_key uuid_String b e)
      (find (λ s, bool_decide (frs_EnvironmentID s = e)) l)
  else out !! status_key uuid_String b e.
Proof.
  revert out. induction l as [|s l IH]; intros out Hnd; [by case_decide|].
  rewrite fmap_cons in Hnd. apply NoDup_cons in Hnd as [Hs Hnd]. cbn [foldl find].
  rewrite IH by done. case_decide as Hab; [subst b|].
  - case_bool_decide as He; [subst e|].
    + destruct (find _ l) as [s'|] eqn:Ef; [|cbn; apply lookup_insert_eq].
      apply find_some in Ef as [Hin Hid%bool_decide_eq_true]. exfalso. apply Hs. rewrite <-Hid.
      apply list_elem_of_fmap_2, list_elem_of_In, Hin.
    + destruct (find _ l); [done|]. cbn. apply lookup_insert_ne. by intros [_ ?]%status_key_inj.
  - apply lookup_insert_ne. by intros [? _]%status_key_inj.
Qed.

Lemma statuses_lookup (m : gmap N (list FeatureReconcileStatus)) l fa e :
  (∀ a, NoDup (frs_EnvironmentID <$> default [] (m !! a))) → fa ∈ l →
  foldl (add_statuses uuid_String m) ∅ l !! status_key uuid_String (fa_ID fa) e =
    find (λ s, bool_decide (frs_EnvironmentID s = e)) (default [] (m !! fa_ID fa)).
Proof.
  intros Hnd.
  assert (H : foldl (add_statuses uuid_String m) ∅ l !! status_key uuid_String (fa_ID fa) e =
    if decide (fa_ID fa ∈ fa_ID <$> l)
    then find (λ s, bool_decide (frs_EnvironmentID s = e)) (default [] (m !! fa_ID fa)) else None).
  { induction l as [|x l IH] using rev_ind; [by rewrite decide_False by apply not_elem_of_nil|].
    rewrite foldl_app. cbn [foldl]. unfold add_statuses at 1. rewrite insert_statuses_lookup, IH by done.
    rewrite fmap_app. destruct (decide (fa_ID x = fa_ID fa)) as [Hx|Hx].
    - rewrite (decide_True (P := fa_ID fa ∈ _ ++ _)) by (apply elem_of_app; right; rewrite <-Hx; left).
      rewrite Hx. destruct (find _ _); [done|]. cbn. by case_decide.
    - assert (Hiff : fa_ID fa ∈ (fa_ID <$> l) ++ (fa_ID <$> [x]) ↔ fa_ID fa ∈ fa_ID <$> l).
      { cbn [fmap list_fmap]. rewrite elem_of_app, list_elem_of_singleton. naive_solver. }
      by rewrite (decide_ext _ _ _ _ Hiff). }
  intros Hin. rewrite H, decide_True; [done|]. by apply list_elem_of_fmap_2.
Qed.

Lemma disabled_lookup w name e :
  (list_to_map ((λ kv, (kv.1.1, kv.2)) <$>
     filter (λ kv, kv.1.2 = name) (map_to_list (disabled_features (w_feature w)))) : gmap N time) !! e =
  disabled_features (w_feature w) !! (e, name).
Proof.
  apply option_eq. intros t. rewrite <-elem_of_list_to_map.
  - rewrite list_elem_of_fmap. setoid_rewrite list_elem_of_filter. split.
    + intros ([[e' n] t'] & [= -> ->] & Hn & Hin). cbn in Hn. subst n. by apply elem_of_map_to_list in Hin.
    + intros H. exists ((e, name), t). by rewrite elem_of_map_to_list.
  - rewrite <-list_fmap_compose. apply NoDup_fmap_2_strong.
    + intros [[e1 n1] t1] [[e2 n2] t2] [H1 Hi1]%list_elem_of_filter [H2 Hi2]%list_elem_of_filter He.
      cbn in H1, H2, He. subst. apply elem_of_map_to_list in Hi1, Hi2. congruence.
    + apply NoDup_filter, NoDup_map_to_list.
Qed.

Lemma tenant_environments_ids w n : env_wf (w_env w) n → NoDup (te_ID <$> tenant_environments w).
Proof.
  intros [_ Ht _ _ He _ _]. unfold tenant_environments. rewrite isort_perm.
  induction (environments (w_env w)) as [|e l IH]; [apply NoDup_nil_2|].
  rewrite fmap_cons in He. apply NoDup_cons in He as [Hn He]. rewrite fmap_cons. cbn [concat].
  rewrite fmap_app. apply NoDup_app. split_and!; [|intros i Hi Hi2|by apply IH].
  - destruct (join_tenant w e) as [|te k] eqn:Ej; [apply NoDup_nil_2|]. rewrite <-Ej.
    assert (Hte : te ∈ join_tenant w e) by (rewrite Ej; left). apply join_tenant_te in Hte as (t & Hin & Hid & _).
    rewrite (unique_tenant w t e Ht Hin Hid). apply NoDup_singleton.
  - apply Hn. apply list_elem_of_fmap in Hi as (te & -> & (t & _ & _ & ->)%join_tenant_te).
    apply list_elem_of_fmap in Hi2 as (te2 & Hid & (l2 & Hte2 & (e2 & -> & He2)%list_elem_of_fmap)%elem_of_concat).
    apply join_tenant_te in Hte2 as (t2 & _ & _ & ->). cbn in Hid. rewrite Hid. by apply list_elem_of_fmap_2.
Qed.

Lemma all_tenant_environments w :
  w_faults w = [] → ListTenantEnvironments false w = (Ok (tenant_environments w), w).
Proof. intros Hf. unfold ListTenantEnvironments. rewrite query_now by done. by rewrite filter_all. Qed.

(** The row the single read makes an assignment of is one of the listed ones. *)
Lemma matching_assignments w name fas l te :
  featureenvs_ok w name fas → (∀ fa, fa ∈ l ↔ fa ∈ fas) → te ∈ tenant_environments w →
  ∃ fas2, omapM row_assignment (filter (λ r, ar_FeatureName (la_assignment r) = name)
      (distinct_rows (matching_rows w (te_ID te)))) = Ok fas2 ∧
    (∀ fa, fa ∈ fas2 ↔ fa ∈ matching (te_Labels te) l).
Proof.
  intros Hok Hel (e & He & Hid & Hl)%elem_of_tenant_environments. rewrite Hid, Hl.
  set (rows := filter _ _).
  assert (Hrows : ∀ r, r ∈ rows ↔ r ∈ all_rows w ∧ ar_FeatureName (la_assignment r) = name ∧
    ar_Active (la_assignment r) = true ∧ jsonb_contains (er_Labels e) (ar_Target (la_assignment r)) = true).
  { intros r. apply elem_of_matching_rows; [apply Hok|done|apply Hok]. }
  assert (Htot : ∀ r, r ∈ rows → ∃ fa, row_assignment r = Ok fa).
  { intros r (Hr & Hn & Ha & _)%Hrows.
    pose proof (proj1 (omapM_Forall2 _ _ _) (ok_listed _ _ _ Hok)) as H2.
    assert (Hin : r ∈ isort created_desc (feature_rows w name)).
    { apply elem_of_isort. unfold feature_rows. apply list_elem_of_filter.
      apply elem_of_all_rows in Hr as Hr'. destruct Hr' as (_ & _ & Hn' & _). split_and!; congruence. }
    apply list_elem_of_lookup in Hin as (i & Hi). destruct (Forall2_lookup_l _ _ _ _ _ H2 Hi) as (fa & _ & Hfa).
    by exists fa. }
  destruct (omapM_total _ _ Htot) as (fas2 & H2). exists fas2. split; [done|]. intros fa.
  rewrite (elem_of_listed _ _ _ H2). unfold matching. rewrite list_elem_of_filter, Hel,
    (elem_of_listed_row _ _ _ _ Hok). split.
  - intros (r & (Hr & Hn & Ha & Hj)%Hrows & Hra). split; [|by exists r].
    destruct (row_assignment_fields _ _ Hra) as (-> & _ & _). rewrite targetMatchesLabels_contain; [done|].
    apply (ok_nonempty _ _ _ Hok). by apply elem_of_all_rows in Hr as [? _].
  - intros (Hm & r & Hr & Hn & Ha & Hra). exists r. split; [|done]. apply Hrows. split_and!; try done.
    destruct (row_assignment_fields _ _ Hra) as (Ht & _ & _). rewrite Ht in Hm.
    rewrite targetMatchesLabels_contain in Hm; [done|].
    apply (ok_nonempty _ _ _ Hok). by apply elem_of_all_rows in Hr as [? _].
Qed.

Lemma listed_name w name fas fa : featureenvs_ok w name fas → fa ∈ fas → t_name fa = name.
Proof.
  intros Hok (r & Hr & Hn & _ & Hra)%(elem_of_listed_row _ _ _ _ Hok).
  change (t_name fa) with (f_Name (fa_Feature fa)). rewrite (row_assignment_name _ _ Hra).
  apply elem_of_all_rows in Hr as (_ & _ & Hn' & _). congruence.
Qed.

(** The batch's winner of an environment is what the single read answers. *)
Lemma winner_agrees w name fas l te :
  w_faults w = [] → featureenvs_ok w name fas → (∀ fa, fa ∈ l ↔ fa ∈ fas) → te ∈ tenant_environments w →
  ∃ err, attempt (WinningAssignment (te_ID te) name) w =
    (Ok (from_option inl (inr err)
       (winningAssignments l (tenant_environments w) !! te_ID te)), w).
Proof.
  intros Hf Hok Hl Hte. destruct (matching_assignments _ _ _ _ _ Hok Hl Hte) as (fas2 & H2 & Hel).
  set (ms := matching (te_Labels te) l) in *.
  assert (Hms : ∀ x, x ∈ ms → x ∈ fas).
  { intros x [_ Hx]%list_elem_of_filter. by apply Hl. }
  rewrite (winningAssignments_lookup name); [|intros fa Hfa|by eapply tenant_environments_ids, Hok|done].
  2: { eapply listed_name; [done|]. by apply Hl. }
  fold ms. rewrite (consider_same_elements ms fas2).
  2: { intros. symmetry. apply Hel. }
  2: { intros x y Hx Hy. apply (ok_created _ _ _ Hok); by apply Hms. }
  unfold attempt, WinningAssignment, mostSpecificAssignment,
    ListFeatureAssignmentsForFeatureInEnvironment, wrapping, mbind, M_bind. rewrite query_now by done. cbn [wrap].
  rewrite (distinct_rows_filter jsonb_total jsonb_trans) by by intros ?? ->.
  set (rows := filter _ (distinct_rows _)) in *. unfold lift.
  pose proof (single_winner fas2 name) as Hp. unfold fa_mostSpecificPerFeature.
  destruct rows as [|r rows']; [injection H2 as <-; by eexists|]. rewrite H2, Hp.
  - destruct (foldl consider ∅ fas2 !! name); [by exists (not_found name "")|by eexists].
  - intros d Hd. eapply listed_name; [done|]. by apply Hms, Hel.
Qed.

Lemma ReconcileStatuses_NoDup fa w l w' :
  ReconcileStatuses fa w = (Ok l, w') → NoDup (frs_EnvironmentID <$> l).
Proof.
  unfold ReconcileStatuses. intros (dec & w1 & _ & (dep & w2 & _ & [= <- _])%bind_Ok)%bind_Ok.
  unfold joinReconcileSignals. rewrite <-list_fmap_compose.
  rewrite (list_fmap_ext _ id) by (intros; apply env_status_id). rewrite list_fmap_id.
  apply signal_envs_NoDup.
Qed.

(** No assignment has two rows about one environment in the tables of current states. *)
Definition current_distinct (w : world) : Prop :=
  NoDup ((λ r, (cl_FeatureAssignmentID r, cl_EnvironmentID r)) <$> (map_to_list (decision_current (w_rec w))).*2) ∧
  NoDup ((λ r, (dl_FeatureAssignmentID r, dl_EnvironmentID r)) <$> (map_to_list (deploy_current (w_rec w))).*2).

Lemma statuses_read w :
  w_faults w = [] → current_distinct w →
  ∃ statuses, AllReconcileStatuses w = (Ok statuses, w) ∧
    (∀ fa, ReconcileStatuses fa w = (Ok (default [] (statuses !! fa)), w)) ∧
    (∀ a, NoDup (frs_EnvironmentID <$> default [] (statuses !! a))).
Proof.
  intros Hf [Hdec Hdep]. destruct (all_statuses_run w 0 Hf Hdec Hdep) as (statuses & Hall & _). exists statuses.
  assert (Hone : ∀ fa, ReconcileStatuses fa w = (Ok (default [] (statuses !! fa)), w)).
  { intros fa. destruct (all_statuses_run w fa Hf Hdec Hdep) as (all & Ha & Hr).
    rewrite Hall in Ha. by injection Ha as <-. }
  split_and!; [done..|]. intros a. eapply ReconcileStatuses_NoDup, Hone.
Qed.

Lemma listed_now w name fas :
  w_faults w = [] → featureenvs_ok w name fas → ListByFeature name w = (Ok fas, w).
Proof.
  intros Hf Hok. unfold ListByFeature, mbind, M_bind. rewrite query_now by done. unfold lift.
  change (filter _ _) with (feature_rows w name). by rewrite (ok_listed _ _ _ Hok).
Qed.

(** A feature without assignments has a row nowhere. *)
Lemma single_row_nothing w name te :
  w_faults w = [] → featureenvs_ok w name [] → te ∈ tenant_environments w →
  single_row name te w = (Ok None, w).
Proof.
  intros Hf Hok Hte. destruct (winner_agrees _ _ _ [] _ Hf Hok (λ _, iff_refl _) Hte) as (err & Hw).
  unfold single_row. rewrite (bind_run _ _ _ _ _ Hw), (winningAssignments_lookup name);
    [done|by intros ? ?%elem_of_nil|by eapply tenant_environments_ids, Hok|done].
Qed.

Lemma map_each_nothing {A B} (f : A → IO (option B)) l w :
  (∀ x, x ∈ l → f x w = (Ok None, w)) → ∃ ys, map_each f l w = (Ok ys, w) ∧ omap id ys = [].
Proof.
  induction l as [|x l IH]; intros H; [by exists []|]. cbn [map_each].
  rewrite (bind_run _ _ _ _ _ (H x ltac:(left))). destruct IH as (ys & Hys & Hn); [intros; apply H; by right|].
  rewrite (bind_run _ _ _ _ _ Hys). by exists (None :: ys).
Qed.

(** The row of the batch is the row of the single reads. *)
Lemma row_agrees w name fas assignments statuses disabled te :
  w_faults w = [] → featureenvs_ok w name fas → (∀ fa, fa ∈ assignments ↔ fa ∈ fas) → te ∈ tenant_environments w →
  AllReconcileStatuses w = (Ok statuses, w) →
  (∀ fa, ReconcileStatuses fa w = (Ok (default [] (statuses !! fa)), w)) →
  (∀ e, disabled !! e = disabled_features (w_feature w) !! (e, name)) →
  (∀ a, NoDup (frs_EnvironmentID <$> default [] (statuses !! a))) →
  ∃ row, environment_row uuid_String name (winningAssignments assignments (tenant_environments w))
      (foldl (add_statuses uuid_String statuses) ∅ assignments) disabled te w = (Ok row, w) ∧
    single_row name te w = (Ok row, w).
Proof.
  intros Hf Hok Hl Hte Hall Hone Hdis Hnd.
  destruct (winner_agrees _ _ _ assignments _ Hf Hok Hl Hte) as (err & Hw).
  unfold environment_row, single_row. rewrite (bind_run _ _ _ _ _ Hw). rewrite Hdis.
  destruct (winningAssignments _ _ !! te_ID te) as [fa|] eqn:Ewin; cbn [from_option]; [|by eexists].
  assert (Hfa : fa ∈ assignments).
  { rewrite (winningAssignments_lookup name) in Ewin; [|intros x Hx|by eapply tenant_environments_ids, Hok|done].
    - pose proof (consider_fold (matching (te_Labels te) assignments) name) as Hc. rewrite Ewin in Hc.
      by destruct Hc as ([_ ?]%list_elem_of_filter & _ & _).
    - eapply listed_name; [done|]. by apply Hl. }
  rewrite (bind_run _ _ _ _ _ (Hone (fa_ID fa))), (statuses_lookup _ _ _ _ Hnd Hfa).
  assert (Hd : GetFeatureDisabledAt (te_ID te) name w = (Ok
    (match disabled_features (w_feature w) !! (te_ID te, name) with
     | Some t => (t, true) | None => (time_zero, false) end), w)).
  { unfold GetFeatureDisabledAt, none_if_no_rows, attempt, mbind, M_bind. rewrite query_now by done.
    by destruct (disabled_features _ !! _). }
  rewrite (bind_run _ _ _ _ _ Hd).
  destruct (disabled_features _ !! _) as [t|]; cbn [fst snd].
  - assert (Hr : ∃ reason, LatestDisableReason name (te_ID te) w = (Ok reason, w)).
    { unfold LatestDisableReason, LatestDisableReason_query, attempt, mbind, M_bind. rewrite query_now by done.
      unfold single. destruct (au_Description <$> _); by eexists. }
    destruct Hr as (reason & Hr). rewrite !(bind_run _ _ _ _ _ Hr), orb_true_r.
    destruct (te_Reconcile te); by eexists.
  - unfold mbind, M_bind, mret, M_ret. destruct (te_Reconcile te); [|by eexists].
    destruct (find _ _); by eexists.
Qed.

(** C37.  The list of a feature's environments is the one put together an environment at a
    time: when no query fails and the feature's assignments can be read, [LoadEnvironments]
    shows for every environment the assignment [WinningAssignment] answers there, with the
    status that assignment's own read derives, the day the feature was disabled and why; and
    no row where no assignment matches.  It needs labels without [=] and [;] (the text of a
    target is ambiguous with them) and without empty values, no two assignments of the
    feature made at one instant, and tables of current rows keyed by environment and feature. *)
Theorem LoadEnvironments_agrees w feature fas :
  w_faults w = [] → featureenvs_ok w (f_Name feature) fas → current_distinct w →
  ∃ rows, LoadEnvironments uuid_String feature w = (Ok rows, w) ∧
    single_rows (f_Name feature) w = (Ok rows, w).
Proof.
  intros Hf Hok Hcur. destruct (statuses_read w Hf Hcur) as (statuses & Hall & Hone & Hnd).
  assert (Hlist : attempt (ListByFeature (f_Name feature)) w = (Ok (inl fas), w)).
  { unfold attempt, mbind, M_bind. by rewrite (listed_now _ _ _ Hf Hok). }
  pose proof (all_tenant_environments w Hf) as Hte. unfold single_rows, LoadEnvironments.
  rewrite (bind_run _ _ _ _ _ Hte), (bind_run _ _ _ _ _ Hlist).
  destruct fas as [|fa fas'] eqn:Efas.
  { destruct (map_each_nothing (single_row (f_Name feature)) (tenant_environments w) w) as (ys & Hys & Hn).
    - intros te Hin. by apply single_row_nothing.
    - rewrite (bind_run _ _ _ _ _ Hys), Hn. by exists []. }
  rewrite <-Efas in *. clear Efas. set (assignments := latestAssignmentPerTarget fas).
  assert (Hte' : targetedEnvironments w = (Ok (tenant_environments w), w)).
  { unfold targetedEnvironments, attempt, mbind, M_bind. by rewrite Hte. }
  assert (Hrec : reconcileStatuses uuid_String assignments w =
    (Ok (foldl (add_statuses uuid_String statuses) ∅ assignments), w)).
  { unfold reconcileStatuses, attempt, mbind, M_bind. by rewrite Hall. }
  rewrite (bind_run _ _ _ _ _ Hte'), (bind_run _ _ _ _ _ Hrec). unfold attempt at 1, mbind, M_bind.
  unfold ListDisabledEnvironmentsForFeature at 1. rewrite query_now by done.
  destruct (map_each_same (environment_row uuid_String (f_Name feature)
      (winningAssignments assignments (tenant_environments w))
      (foldl (add_statuses uuid_String statuses) ∅ assignments)
      (list_to_map ((λ kv, (kv.1.1, kv.2)) <$>
         filter (λ kv, kv.1.2 = f_Name feature) (map_to_list (disabled_features (w_feature w))))))
    (single_row (f_Name feature)) (tenant_environments w) w) as [Heq (ys & Hys)].
  - intros te Hin. eapply row_agrees; try done; [intros fa0; by apply (elem_of_latest _ _ _ _ Hok)|].
    intros e. apply disabled_lookup.
  - rewrite Heq, Hys. by eexists.
Qed.
End agrees.

(** ** An example *)

Definition tally (n : uuid) : string := Nat.iter (N.to_nat n) (String "x") "".

Lemma tally_plain n : has_char ":" (tally n) = false.
Proof. unfold tally. induction (N.to_nat n) as [|k IH]; [done|exact IH]. Qed.

Lemma tally_inj a b : tally a = tally b → a = b.
Proof.
  assert (H : ∀ n, String.length (tally n) = N.to_nat n).
  { intros n. unfold tally. induction (N.to_nat n) as [|k IH]; [done|exact (f_equal S IH)]. }
  intros Heq. apply (f_equal String.length) in Heq. rewrite !H in Heq. lia.
Qed.

Definition example_listed : list FeatureAssignment :=
  match ListByFeature (codec := example_codec) "app" example_deployed with (Ok fas, _) => fas | _ => [] end.

Lemma example_featureenvs_ok : featureenvs_ok (codec := example_codec) example_deployed "app" example_listed.
Proof.
  assert (Hone : ∀ a, a ∈ feature_assignments (w_feature example_deployed) → ar_Target a = {[ "kind" := "tenant" ]}).
  { by intros a ->%list_elem_of_singleton. }
  split.
  - split; simpl; try (apply (bool_decide_unpack _); vm_compute; exact I); try by repeat constructor.
    intros a ->%list_elem_of_singleton. eexists. by split; [apply list_elem_of_singleton|].
  - split; simpl; try (apply (bool_decide_unpack _); vm_compute; exact I); by repeat constructor.
  - vm_compute. reflexivity.
  - intros a Ha k v. rewrite (Hone a Ha). by intros [<- <-]%lookup_singleton_Some.
  - intros a Ha k. rewrite (Hone a Ha). by intros [_ ?]%lookup_singleton_Some.
  - intros x y. vm_compute example_listed. by intros ->%list_elem_of_singleton ->%list_elem_of_singleton.
Qed.

Lemma example_current_distinct : current_distinct example_deployed.
Proof. split; apply (bool_decide_unpack _); vm_compute; exact I. Qed.

Lemma LoadEnvironments_agrees_witness :
  ∃ f rows, f_Name f = "app" ∧
    LoadEnvironments (codec := example_codec) tally f example_deployed = (Ok rows, example_deployed) ∧
    single_rows (pg := example_pg) (codec := example_codec) tally "app" example_deployed = (Ok rows, example_deployed) ∧
    fe_Status <$> rows = ["DEPLOYED"].
Proof.
  destruct example_listed as [|fa l] eqn:E; [vm_compute in E; discriminate E|].
  assert (Hn : f_Name (fa_Feature fa) = "app") by (vm_compute in E; injection E as <- _; reflexivity).
  assert (Hok := example_featureenvs_ok). rewrite <-Hn in Hok at 1.
  destruct (LoadEnvironments_agrees (pg := example_pg) (codec := example_codec) tally
    (λ _ _, or_introl eq_refl) (λ _ _ _ _ _, eq_refl) tally_plain tally_inj example_deployed (fa_Feature fa)
    example_listed eq_refl Hok) as (rows & H1 & H2); [exact example_current_distinct|].
  exists (fa_Feature fa), rows. split; [exact Hn|]. split; [exact H1|]. split; [by rewrite <-Hn|].
  rewrite Hn in H2. vm_compute in H2. injection H2 as <-. reflexivity.
Defined.
