(* ===== verification/ConfigItems.v ===== *)
(** * internal/ui/pages: the configuration of a feature, as pages show it

    The table of one environment ([loadFeatureConfigItems] of environment/helpers.go), the
    global one ([loadGlobalConfigItems] of features/feature_config.go) and one key across
    environments (features/feature_config_compare.go, with components/consensus.go).  They
    read the same rows by different queries and overlay them in code of their own; the
    theorem says that they show the same value from the same source. *)

From S2P Require Import ConfigStore ConfigForm FeatureFacts Preview FeatureEnvs.
From S2P Require Import GoStd.

(** components/config.go *)
Record ConfigItem := {
  ci_ID : string; ci_Key : string; ci_DisplayName : string; ci_Description : string;
  ci_Value : string; ci_Source : string; ci_Type : string; ci_IsSecret : bool;
  ci_IsComputed : bool; ci_IsConfigurable : bool; ci_IsOrphaned : bool; ci_Required : bool;
  ci_HasValue : bool; ci_Template : string; ci_MappedCount : nat; ci_FallbackValue : string;
}.

(** A configuration with its declaration: feature/model.go's Configuration. *)
Record PageConfig := {
  pc_ID : uuid; pc_Key : string; pc_Value : option Value; pc_Content : string; pc_Source : string;
}.

Definition source_text (s : ConfigSource) : string :=
  match s with ConfigSourceEnv => "ENV" | ConfigSourceGlobal => "GLOBAL" end.

Definition page_config (c : Configuration) : PageConfig :=
  {| pc_ID := cf_ID c; pc_Key := cf_Key c; pc_Value := None; pc_Content := cf_Content c;
     pc_Source := source_text (cf_Source c) |}.

Definition refers_to (key : string) (kv : string * Value) : bool :=
  negb (bool_decide (kv.1 = key)) &&
  match v_Computed kv.2 with
  | Some c => negb (bool_decide (Template c = "")) && Contains (Template c) (".Configs." +:+ key)
  | None => false
  end.

Definition countTemplateRefs (values : Values) (key : string) : nat :=
  length (filter (λ kv, refers_to key kv = true) (map_to_list values)).

(** The walk of both lookups, down the maps of the rendered values. *)
Fixpoint descend (cur : gval) (keys : list string) : option gval :=
  match keys with
  | [] => Some cur
  | k :: ks => match as_map cur with
               | Some mm => match mm !! k with Some v => descend v ks | None => None end
               | None => None
               end
  end.

Definition rendered_at (m : gomap) (key : string) : option gval :=
  match SmartDotSplit key with
  | Ok [] => None
  | Ok keys => descend (VMap m) keys
  | _ => None
  end.

(** ** components/consensus.go *)

Inductive Emphasis := EmphasisNone | EmphasisConsensus | EmphasisOutlier.

Definition value_counts (values : list string) : gmap string nat :=
  foldl (λ counts v, <[v := S (default 0 (counts !! v))]> counts) ∅ values.

(** One round of the [range] over the counts. *)
Definition dominate (acc : string * nat * bool) (kv : string * nat) : string * nat * bool :=
  let '(dominant, top, tie) := acc in let (v, c) := kv in
  if (top <? c)%nat then (v, c, false) else if (c =? top)%nat then (dominant, top, true) else acc.

(** [order] is what the [range] over the map visits. *)
Definition ColumnConsensus (order : list (string * nat)) (values : list string) : list Emphasis :=
  if (length values <? 2)%nat then (λ _, EmphasisNone) <$> values
  else if (length order =? 1)%nat then (λ _, EmphasisConsensus) <$> values
  else
    let '(dominant, _, tie) := foldl dominate ("", 0%nat, false) order in
    (λ v, if (tie : bool) then EmphasisNone
          else if bool_decide (v = dominant) then EmphasisConsensus else EmphasisOutlier) <$> values.

Section items.
Context `{ext : External} `{pg : Postgres} `{codec : FeatureCodec} `{obj : ObjectCodec} `{json : FormJson}
  (uuid_String : uuid → string) (uuid_NewSHA1 : string → uuid) (Sprint : gval → string).

(** A value is set unless it is absent or null. *)
Definition rawHasValue (raw : string) : bool :=
  if bool_decide (raw = "") then false
  else match form_Unmarshal raw with
       | Ok VNil => false
       | _ => true
       end.

Definition lookupHelmValue (m : gomap) (key : string) : string * bool * bool :=
  match rendered_at m key with
  | None => ("", false, false)
  | Some (VStr v) => (v, true, true)
  | Some VNil => ("", true, false)
  | Some v => match form_Marshal v with Ok b => (b, true, true) | _ => ("", false, false) end
  end.

Definition lookupRenderedValue (m : gomap) (key : string) : string * bool :=
  match rendered_at m key with
  | None => ("", false)
  | Some (VStr v) => (v, true)
  | Some VNil => ("", true)
  | Some v => (Sprint v, true)
  end.

(** ** environment/helpers.go *)

(** The declaration is attached to the first row with its key. *)
Fixpoint attach (key : string) (val : Value) (configs : list PageConfig) : option (list PageConfig) :=
  match configs with
  | [] => None
  | c :: cs =>
      if bool_decide (pc_Key c = key)
      then Some ({| pc_ID := pc_ID c; pc_Key := pc_Key c; pc_Value := Some val;
                    pc_Content := pc_Content c; pc_Source := pc_Source c |} :: cs)
      else (c ::.) <$> attach key val cs
  end.

Definition declare (feat : Feature) (configs : list PageConfig) (kv : string * Value) : list PageConfig :=
  let (key, val) := kv in
  match v_Config val, v_Computed val with
  | None, None => configs
  | _, _ =>
      match attach key val configs with
      | Some configs => configs
      | None =>
          configs ++ [{| pc_ID := uuid_NewSHA1 (f_Name feat +:+ ("|" +:+ key)); pc_Key := key;
                         pc_Value := Some val; pc_Content := default "" (f_ValuesYAML feat !! key);
                         pc_Source := "HELM" |}]
      end
  end.

Definition is_computed (c : PageConfig) : bool :=
  match pc_Value c with Some v => bool_decide (is_Some (v_Computed v)) | None => false end.

Definition fallback (feat : Feature) (globalByKey : gmap string string) (c : PageConfig) : string :=
  if bool_decide (pc_Source c = "ENV") then
    match globalByKey !! pc_Key c with
    | Some gv => RawValueForDisplay gv
    | None => match f_ValuesYAML feat !! pc_Key c with Some raw => RawValueForDisplay raw | None => "" end
    end
  else "".

Definition page_item (feat : Feature) (globalByKey : gmap string string) (c : PageConfig) : ConfigItem :=
  let val {A} (f : Value → A) (d : A) := from_option f d (pc_Value c) in
  {| ci_ID := uuid_String (pc_ID c); ci_Key := pc_Key c;
     ci_DisplayName := val v_DisplayName ""; ci_Description := val v_Description "";
     ci_Value := RawValueForDisplay (pc_Content c); ci_Source := pc_Source c;
     ci_Type := val (λ v, from_option (ToUpper ∘ c_Type) "" (v_Config v)) "";
     ci_IsSecret := val (λ v, from_option c_Secret false (v_Config v)) false;
     ci_IsComputed := is_computed c;
     ci_IsConfigurable := val (λ v, bool_decide (is_Some (v_Config v))) false;
     ci_IsOrphaned := negb (bool_decide (is_Some (pc_Value c))); ci_Required := val v_Required false;
     ci_HasValue := rawHasValue (pc_Content c);
     ci_Template := val (λ v, from_option Template "" (v_Computed v)) "";
     ci_MappedCount := countTemplateRefs (f_Values (f_YAML feat)) (pc_Key c);
     ci_FallbackValue := fallback feat globalByKey c |}.

Definition set_value (v : string) (has : bool) (i : ConfigItem) : ConfigItem :=
  {| ci_ID := ci_ID i; ci_Key := ci_Key i; ci_DisplayName := ci_DisplayName i;
     ci_Description := ci_Description i; ci_Value := v; ci_Source := ci_Source i; ci_Type := ci_Type i;
     ci_IsSecret := ci_IsSecret i; ci_IsComputed := ci_IsComputed i;
     ci_IsConfigurable := ci_IsConfigurable i; ci_IsOrphaned := ci_IsOrphaned i;
     ci_Required := ci_Required i; ci_HasValue := has; ci_Template := ci_Template i;
     ci_MappedCount := ci_MappedCount i; ci_FallbackValue := ci_FallbackValue i |}.

Definition show_rendered (rendered : gomap) (i : ConfigItem) : ConfigItem :=
  if negb (ci_IsComputed i) || ci_IsSecret i || bool_decide (ci_Source i = "ENV") then i
  else let '(v, found, hasVal) := lookupHelmValue rendered (ci_Key i) in
       if (found : bool) then set_value v hasVal i else i.

(** [order] is what the [range] over the feature's values visits, when they are rendered. *)
Definition loadFeatureConfigItems (order : list (string * Value)) (aud : string) (feat : Feature)
    (envID : uuid) : IO (list ConfigItem) :=
  configs ← GetEnvConfig (f_Name feat) envID;
  let configs := foldl (declare feat) (page_config <$> configs) (map_to_list (f_Values (f_YAML feat))) in
  let configs := isort (λ a b, String.leb (pc_Key a) (pc_Key b)) configs in
  rendered ← (if existsb is_computed configs then attempt (HelmValues order aud feat envID)
              else mret (inr (ErrString "")) : IO (gomap + error));
  globalConfigs ← GetGlobalConfig (f_Name feat);
  let globalByKey : gmap string string :=
    foldl (λ m gc, <[cf_Key gc := cf_Content gc]> m) ∅ globalConfigs in
  let items := page_item feat globalByKey <$> configs in
  mret (match rendered with
        | inl rendered => show_rendered rendered <$> items
        | inr _ => items
        end).

(** ** features/feature_config.go *)

Definition populateFromValue (i : ConfigItem) (val : Value) : ConfigItem :=
  {| ci_ID := ci_ID i; ci_Key := ci_Key i; ci_DisplayName := v_DisplayName val;
     ci_Description := v_Description val; ci_Value := ci_Value i; ci_Source := ci_Source i;
     ci_Type := match v_Config val with Some c => ToUpper (c_Type c) | None => ci_Type i end;
     ci_IsSecret := match v_Config val with Some c => c_Secret c | None => ci_IsSecret i end;
     ci_IsComputed := if decide (is_Some (v_Computed val)) then true else ci_IsComputed i;
     ci_IsConfigurable := if decide (is_Some (v_Config val)) then true else ci_IsConfigurable i;
     ci_IsOrphaned := ci_IsOrphaned i; ci_Required := v_Required val; ci_HasValue := ci_HasValue i;
     ci_Template := match v_Computed val with Some c => Template c | None => ci_Template i end;
     ci_MappedCount := ci_MappedCount i; ci_FallbackValue := ci_FallbackValue i |}.

Definition plain_item (id key source value : string) (orphaned : bool) (fallback : string) : ConfigItem :=
  {| ci_ID := id; ci_Key := key; ci_DisplayName := ""; ci_Description := ""; ci_Value := value;
     ci_Source := source; ci_Type := ""; ci_IsSecret := false; ci_IsComputed := false;
     ci_IsConfigurable := false; ci_IsOrphaned := orphaned; ci_Required := false; ci_HasValue := false;
     ci_Template := ""; ci_MappedCount := 0; ci_FallbackValue := fallback |}.

(** The stored rows' items; a row without a declaration is an orphan. *)
Definition global_item (feat : Feature) (cfg : Configuration) : ConfigItem :=
  let item := plain_item (uuid_String (cf_ID cfg)) (cf_Key cfg) (source_text (cf_Source cfg))
                (RawValueForDisplay (cf_Content cfg)) in
  match f_Values (f_YAML feat) !! cf_Key cfg with
  | None => item true ""
  | Some val =>
      populateFromValue
        (item false
           (if bool_decide (source_text (cf_Source cfg) = "GLOBAL")
            then from_option RawValueForDisplay "" (f_ValuesYAML feat !! cf_Key cfg) else "")) val
  end.

Definition unset_item (feat : Feature) (kv : string * Value) : ConfigItem :=
  populateFromValue
    (plain_item (uuid_String (uuid_NewSHA1 (f_Name feat +:+ ("|" +:+ kv.1)))) kv.1 "HELM"
       (RawValueForDisplay (default "" (f_ValuesYAML feat !! kv.1))) false "") kv.2.

Definition item_order (a b : ConfigItem) : bool :=
  if eqb (ci_IsOrphaned a) (ci_IsOrphaned b) then String.leb (ci_Key a) (ci_Key b)
  else negb (ci_IsOrphaned a).

Definition loadGlobalConfigItems (feat : Feature) : IO (list ConfigItem) :=
  configs ← GetGlobalConfig (f_Name feat);
  let usedKeys := cf_Key <$> configs in
  let unused := filter (λ kv, kv.1 ∉ usedKeys) (map_to_list (f_Values (f_YAML feat))) in
  mret (isort item_order ((global_item feat <$> configs) ++ (unset_item feat <$> unused))).

(** ** features/feature_config_compare.go *)

Record compareRow := {
  cr_TenantName : string; cr_EnvName : string; cr_Value : string; cr_Source : string;
  cr_IsSecret : bool; cr_EnvHref : string;
}.

Record configCompareEnv := { cc_ID : uuid; cc_Name : string; cc_TenantName : string }.

Record EnvConfigOverride := { eo_EnvironmentID : uuid; eo_Key : string; eo_Content : string }.

Definition override_of (r : ConfigurationsEnvironment) : EnvConfigOverride :=
  {| eo_EnvironmentID := ce_EnvironmentID r; eo_Key := ce_Key r; eo_Content := ce_Value r |}.

Definition ListAllEnvConfigByFeature_query (feature : string) : IO (list ConfigurationsEnvironment) :=
  query (λ w, Ok (isort (then_by (λ a b, N.leb (ce_EnvironmentID a) (ce_EnvironmentID b))
                                 (λ a b, String.leb (ce_Key a) (ce_Key b)))
    (filter (λ e, ce_Feature e = feature) (configurations_environment (w_feature w))))).

Definition ListAllEnvConfigByFeature (feature : string) : IO (list EnvConfigOverride) :=
  rows ← ListAllEnvConfigByFeature_query feature;
  mret (override_of <$> rows).

Definition env_href (feat : Feature) (key : string) (env : configCompareEnv) : string :=
  "/features/" +:+ (f_Name feat +:+ ("/envs/" +:+ (cc_TenantName env +:+ ("/" +:+ (cc_Name env +:+
    ("/config#config-" +:+ key)))))).

Definition compare_row (feat : Feature) (key : string) (env : configCompareEnv) (value source : string)
    (secret : bool) : compareRow :=
  {| cr_TenantName := cc_TenantName env; cr_EnvName := cc_Name env; cr_Value := value;
     cr_Source := source; cr_IsSecret := secret; cr_EnvHref := env_href feat key env |}.

(** An em dash, for what the rendered values do not have. *)
Definition dash : string := String "226" (String "128" (String "148" "")).

Definition mapping_row (order : list (string * Value)) (aud : string) (feat : Feature) (key : string)
    (env : configCompareEnv) : IO compareRow :=
  rendered ← attempt (HelmValues order aud feat (cc_ID env));
  mret (compare_row feat key env
    (match rendered with
     | inr _ => "(render error)"
     | inl m => let (v, ok) := lookupRenderedValue m key in if (ok : bool) then v else dash
     end) "mapping" false).

Definition stored_row (feat : Feature) (key : string) (isSecret : bool) (globalValue : option string)
    (overrides : gmap N string) (env : configCompareEnv) : compareRow :=
  let (value, source) :=
    match overrides !! cc_ID env, globalValue with
    | Some raw, _ => (RawValueForDisplay raw, "env config")
    | None, Some raw => (RawValueForDisplay raw, "global config")
    | None, None => (RawValueForDisplay (default "" (f_ValuesYAML feat !! key)), "helm value")
    end in
  compare_row feat key env value source isSecret.

Definition compare_order (a b : compareRow) : bool :=
  if bool_decide (cr_TenantName a = cr_TenantName b) then String.leb (cr_EnvName a) (cr_EnvName b)
  else String.leb (cr_TenantName a) (cr_TenantName b).

Definition compareKeyAcrossEnvs (order : list (string * Value)) (aud : string) (feat : Feature)
    (key : string) (envs : list configCompareEnv) : IO (list compareRow) :=
  let val := f_Values (f_YAML feat) !! key in
  let isComputed := bool_decide (is_Some (val ≫= v_Computed)) in
  let isSecret := from_option c_Secret false (val ≫= v_Config) in
  globalConfigs ← GetGlobalConfig (f_Name feat);
  let globalValue := cf_Content <$> find (λ gc, bool_decide (cf_Key gc = key)) globalConfigs in
  envOverrides ← ListAllEnvConfigByFeature (f_Name feat);
  let overrides : gmap N string :=
    foldl (λ m ov, if bool_decide (eo_Key ov = key) then <[eo_EnvironmentID ov := eo_Content ov]> m else m)
      ∅ envOverrides in
  rows ← (if isComputed then map_each (mapping_row order aud feat key) envs
          else mret (stored_row feat key isSecret globalValue overrides <$> envs) : IO (list compareRow));
  mret (isort compare_order rows).

(** The text of a target in this package: with commas, and none after the last label. *)
Definition comma_targetKey (labels : Labels) : string :=
  Join ((λ k, k +:+ ("=" +:+ default "" (labels !! k))) <$> sort_strings (map_to_list labels).*1) ",".

Definition compare_env (te : TenantEnvironment) : configCompareEnv :=
  {| cc_ID := te_ID te; cc_Name := te_Name te; cc_TenantName := te_TenantName te |}.

(** The inner loop over the assignments, for one environment. *)
Definition see_env (assignments : list FeatureAssignment) (acc : list configCompareEnv * gset N)
    (te : TenantEnvironment) : list configCompareEnv * gset N :=
  foldl (λ '(result, seen) dep,
    if targetMatchesLabels (fa_TargetLabels dep) (te_Labels te) && negb (bool_decide (te_ID te ∈ seen))
    then (result ++ [compare_env te], {[te_ID te]} ∪ seen) else (result, seen)) acc assignments.

Definition compare_env_order (a b : configCompareEnv) : bool :=
  if bool_decide (cc_TenantName a = cc_TenantName b) then String.leb (cc_Name a) (cc_Name b)
  else String.leb (cc_TenantName a) (cc_TenantName b).

Definition featureEnvironments (feat : Feature) : IO (list configCompareEnv) :=
  assignments ← ListByFeature (f_Name feat);
  let assignments := distinct_first (comma_targetKey ∘ fa_TargetLabels) [] assignments in
  tenantEnvs ← ListTenantEnvironments false;
  mret (isort compare_env_order (foldl (see_env assignments) ([], ∅) tenantEnvs).1).

(** A cell of the table: the environment's link and names, and the emphasised value and
    source. *)
Definition configCompareRows (value_counts source_counts : list (string * nat)) (rows : list compareRow)
    : list (compareRow * Emphasis * Emphasis) :=
  zip (zip rows (ColumnConsensus value_counts (cr_Value <$> rows)))
    (ColumnConsensus source_counts (cr_Source <$> rows)).
End items.

(** ** Declared keys *)

(** What a row shows: its key, content and source. *)
Definition shown (c : PageConfig) : string * string * string := (pc_Key c, pc_Content c, pc_Source c).

Definition has_declaration (v : Value) : Prop := is_Some (v_Config v) ∨ is_Some (v_Computed v).
#[local] Instance has_declaration_dec v : Decision (has_declaration v).
Proof. unfold has_declaration. apply _. Defined.

Definition helm_entry (feat : Feature) (kv : string * Value) : string * string * string :=
  (kv.1, default "" (f_ValuesYAML feat !! kv.1), "HELM").

Lemma attach_shown key val l :
  match attach key val l with
  | Some l' => shown <$> l' = shown <$> l ∧ key ∈ pc_Key <$> l
  | None => key ∉ pc_Key <$> l
  end.
Proof.
  induction l as [|c l IH]; [apply not_elem_of_nil|]. cbn [attach]. case_bool_decide as Hc.
  - split; [done|]. rewrite <-Hc. left.
  - destruct (attach key val l) as [l'|]; cbn.
    + destruct IH as [-> Hin]. split; [done|]. by right.
    + rewrite elem_of_cons. naive_solver.
Qed.

Lemma shown_keys (l l' : list PageConfig) : shown <$> l = shown <$> l' → pc_Key <$> l = pc_Key <$> l'.
Proof.
  intros H. apply (f_equal (fmap (λ s : string * string * string, s.1.1))) in H.
  by rewrite <-!list_fmap_compose in H.
Qed.

Lemma filter_agree {A} (P Q : A → Prop) `{∀ x, Decision (P x)} `{∀ x, Decision (Q x)} (l : list A) :
  (∀ x, x ∈ l → P x ↔ Q x) → filter P l = filter Q l.
Proof.
  induction l as [|x l IH]; [done|]. intros H1. rewrite !filter_cons, IH by (intros; apply H1; by right).
  apply decide_ext, H1. left.
Qed.

Section facts.
Context (uuid_NewSHA1 : string → uuid).

Lemma declare_shown feat l kv :
  shown <$> declare uuid_NewSHA1 feat l kv =
  (shown <$> l) ++ (if decide (has_declaration kv.2 ∧ kv.1 ∉ pc_Key <$> l) then [helm_entry feat kv] else []).
Proof.
  destruct kv as [key val]. unfold declare. cbn [fst snd].
  assert (H : ∀ l', match attach key val l with
      | Some l' => l'
      | None => l ++ [{| pc_ID := uuid_NewSHA1 (f_Name feat +:+ ("|" +:+ key)); pc_Key := key;
                         pc_Value := Some val; pc_Content := default "" (f_ValuesYAML feat !! key);
                         pc_Source := "HELM" |}]
      end = l' → shown <$> l' = (shown <$> l) ++
        (if decide (key ∉ pc_Key <$> l) then [helm_entry feat (key, val)] else [])).
  { intros l' <-. pose proof (attach_shown key val l) as Ha. destruct (attach key val l) as [l'|].
    - destruct Ha as [Hs Hin]. rewrite decide_False by (intros Hn; by apply Hn). by rewrite app_nil_r.
    - rewrite decide_True by done. by rewrite fmap_app. }
  assert (Hd : has_declaration val ↔ is_Some (v_Config val) ∨ is_Some (v_Computed val)) by done.
  destruct (v_Config val) as [c|], (v_Computed val) as [t|].
  1-3: rewrite (H _ eq_refl); apply (f_equal (app _)), decide_ext; rewrite Hd; split; [|tauto];
    (intros Hk; split; [|exact Hk]); eauto.
  rewrite decide_False; [by rewrite app_nil_r|]. rewrite Hd. by intros [[[? ?]|[? ?]] _].
Qed.

(** All declarations at once: the stored rows stay, and every declared key without one is
    added with the chart's value. *)
Lemma declare_all feat kvs l :
  NoDup kvs.*1 →
  shown <$> foldl (declare uuid_NewSHA1 feat) l kvs =
  (shown <$> l) ++ (helm_entry feat <$> filter (λ kv, has_declaration kv.2 ∧ kv.1 ∉ pc_Key <$> l) kvs).
Proof.
  revert l. induction kvs as [|kv kvs IH]; intros l Hnd; [by rewrite app_nil_r|].
  rewrite fmap_cons in Hnd. apply NoDup_cons in Hnd as [Hkv Hnd]. cbn [foldl]. rewrite IH by done.
  pose proof (declare_shown feat l kv) as Hs. rewrite Hs, <-app_assoc. f_equal. rewrite filter_cons.
  assert (Hf : filter (λ kv', has_declaration kv'.2 ∧ kv'.1 ∉ pc_Key <$> declare uuid_NewSHA1 feat l kv) kvs =
    filter (λ kv', has_declaration kv'.2 ∧ kv'.1 ∉ pc_Key <$> l) kvs).
  { apply filter_agree. intros kv' Hin. apply (f_equal (fmap (λ s : string * string * string, s.1.1))) in Hs.
    rewrite fmap_app, <-!list_fmap_compose in Hs.
    change (pc_Key <$> declare uuid_NewSHA1 feat l kv = (pc_Key <$> l) ++ ((λ s : string * string * string, s.1.1) <$>
      (if decide (has_declaration kv.2 ∧ kv.1 ∉ pc_Key <$> l) then [helm_entry feat kv] else []))) in Hs.
    rewrite Hs, elem_of_app. assert (kv'.1 ≠ kv.1) as Hne.
    { intros Heq. apply Hkv. rewrite <-Heq. by apply list_elem_of_fmap_2. }
    case_decide; cbn; [rewrite list_elem_of_singleton|rewrite elem_of_nil]; naive_solver. }
  rewrite Hf. by case_decide.
Qed.

Lemma attach_value key val l l' c :
  attach key val l = Some l' → c ∈ l' → pc_Value c = Some val ∧ pc_Key c = key ∨ c ∈ l.
Proof.
  revert l'. induction l as [|x l IH]; intros l' H Hc; [done|]. cbn [attach] in H. case_bool_decide as Hx.
  - injection H as <-. apply elem_of_cons in Hc as [-> |Hc]; [left; cbn; by split|right; by right].
  - apply fmap_Some in H as (l2 & H2 & ->). apply elem_of_cons in Hc as [-> |Hc]; [right; left|].
    destruct (IH _ H2 Hc) as [?|?]; [by left|right; by right].
Qed.

Lemma declare_value feat l kv c :
  c ∈ declare uuid_NewSHA1 feat l kv → pc_Value c = Some kv.2 ∧ pc_Key c = kv.1 ∨ c ∈ l.
Proof.
  destruct kv as [key val]. unfold declare. cbn [fst snd].
  pose proof (attach_value key val l) as Ha.
  destruct (v_Config val), (v_Computed val); [..|by right];
    (destruct (attach key val l) as [l'|]; [by eapply Ha|]);
    rewrite elem_of_app, list_elem_of_singleton; (intros [?| ->]; [by right|by left]).
Qed.

(** A declaration is the one of the key. *)
Lemma declared_value feat kvs l c v :
  (∀ c, c ∈ l → pc_Value c = None) →
  c ∈ foldl (declare uuid_NewSHA1 feat) l kvs → pc_Value c = Some v → (pc_Key c, v) ∈ kvs.
Proof.
  intros Hl. induction kvs as [|kv kvs IH] using rev_ind; [cbn; intros Hc; by rewrite Hl|].
  rewrite foldl_app. cbn [foldl]. intros [[Hv Hk]|Hc]%declare_value Hvc; apply elem_of_app.
  - right. apply list_elem_of_singleton. destruct kv. cbn in *. congruence.
  - left. by apply IH.
Qed.
End facts.

(** ** The same value on both pages *)

Lemma last_unique {R} (P : R → Prop) `{∀ x, Decision (P x)} (l : list R) x :
  (∀ x y, x ∈ l → y ∈ l → P x → P y → x = y) → last (filter P l) = Some x ↔ x ∈ l ∧ P x.
Proof.
  intros Hu. split; [intros [? ?]%last_Some_elem_of%list_elem_of_filter; done|]. intros [Hx HP].
  destruct (last (filter P l)) as [y|] eqn:E.
  - apply last_Some_elem_of, list_elem_of_filter in E as [Hy Hin]. f_equal. by apply Hu.
  - apply last_None in E. assert (x ∈ filter P l) as Hin by by apply list_elem_of_filter.
    rewrite E in Hin. by apply elem_of_nil in Hin.
Qed.

Lemma overrides_lookup key env (l : list EnvConfigOverride) :
  foldl (λ (m : gmap N string) ov, if bool_decide (eo_Key ov = key) then <[eo_EnvironmentID ov := eo_Content ov]> m else m)
    ∅ l !! env =
  eo_Content <$> last (filter (λ ov, eo_Key ov = key ∧ eo_EnvironmentID ov = env) l).
Proof.
  induction l as [|ov l IH] using rev_ind; [done|]. rewrite foldl_app, filter_app. cbn [foldl].
  rewrite filter_cons, filter_nil. case_bool_decide as Hk.
  - destruct (decide (eo_EnvironmentID ov = env)) as [He|He].
    + rewrite decide_True, last_snoc, He by done. apply lookup_insert_eq.
    + rewrite decide_False, app_nil_r by tauto. rewrite lookup_insert_ne by done. apply IH.
  - rewrite decide_False, app_nil_r by tauto. apply IH.
Qed.

Lemma elem_of_MergeConfigs global env includeKeys row :
  row ∈ MergeConfigs global env includeKeys ↔ merged_row global env includeKeys (m_Key row) = Some row.
Proof.
  unfold MergeConfigs. rewrite elem_of_isort, elem_of_map_values. setoid_rewrite merged_row_lookup.
  split; [intros [k Hk]; by rewrite (merged_row_key _ _ _ _ _ Hk)|eauto].
Qed.

Lemma MergeConfigs_keys global env includeKeys : NoDup (m_Key <$> MergeConfigs global env includeKeys).
Proof.
  unfold MergeConfigs. rewrite isort_perm. apply NoDup_map_values_keys. intros k v.
  setoid_rewrite merged_row_lookup. apply merged_row_key.
Qed.

Section same_value.
Context `{ext : External} `{pg : Postgres} `{codec : FeatureCodec} `{obj : ObjectCodec} `{json : FormJson}
  (uuid_String : uuid → string) (uuid_NewSHA1 : string → uuid) (Sprint : gval → string).

(** The row of an environment for a key, and the global one. *)
Definition is_env_row (w : world) (feature : string) (env : uuid) (key : string)
    (e : ConfigurationsEnvironment) : Prop :=
  e ∈ configurations_environment (w_feature w) ∧ ce_Feature e = feature ∧ ce_EnvironmentID e = env ∧ ce_Key e = key.
Definition is_global_row (w : world) (feature key : string) (g : ConfigurationsGlobal) : Prop :=
  g ∈ configurations_global (w_feature w) ∧ cg_Feature g = feature ∧ cg_Key g = key.

Lemma env_row_unique w n f env key e e' :
  feature_wf (w_feature w) n → is_env_row w f env key e → is_env_row w f env key e' → e = e'.
Proof.
  intros Hwf (He & Hf & Hi & Hk) (He' & Hf' & Hi' & Hk').
  eapply NoDup_fmap_inj_on; [eapply fw_env; exact Hwf|done|done|cbn; congruence].
Qed.

Lemma global_row_unique w n f key g g' :
  feature_wf (w_feature w) n → is_global_row w f key g → is_global_row w f key g' → g = g'.
Proof.
  intros Hwf (He & Hf & Hk) (He' & Hf' & Hk').
  eapply NoDup_fmap_inj_on; [eapply fw_global; exact Hwf|done|done|cbn; congruence].
Qed.

(** What is stored for a key in an environment, and where. *)
Definition stored (w : world) (f : string) (env : uuid) (key : string) (s : option (string * ConfigSource)) : Prop :=
  (∃ e, is_env_row w f env key e ∧ s = Some (ce_Value e, ConfigSourceEnv)) ∨
  (¬ (∃ e, is_env_row w f env key e)) ∧
    ((∃ g, is_global_row w f key g ∧ s = Some (cg_Value g, ConfigSourceGlobal)) ∨
     (¬ (∃ g, is_global_row w f key g)) ∧ s = None).

Lemma stored_unique w n f env key s s' :
  feature_wf (w_feature w) n → stored w f env key s → stored w f env key s' → s = s'.
Proof.
  intros Hwf. unfold stored.
  intros [(e & He & ->)|[Hne [(g & Hg & ->)|[Hng ->]]]] [(e' & He' & ->)|[Hne' [(g' & Hg' & ->)|[Hng' ->]]]];
    try (exfalso; eauto; fail); try done.
  - by rewrite (env_row_unique _ _ _ _ _ _ _ Hwf He He').
  - by rewrite (global_row_unique _ _ _ _ _ _ Hwf Hg Hg').
Qed.

Definition env_rows (w : world) (f : string) (env : uuid) : list ConfigurationsEnvironment :=
  isort (λ a b, String.leb (ce_Key a) (ce_Key b))
    (filter (λ e, ce_Feature e = f ∧ ce_EnvironmentID e = env) (configurations_environment (w_feature w))).
Definition global_rows (w : world) (f : string) : list ConfigurationsGlobal :=
  isort (λ a b, String.leb (cg_Key a) (cg_Key b))
    (filter (λ g, cg_Feature g = f) (configurations_global (w_feature w))).

Lemma last_env_row w n f env key e :
  feature_wf (w_feature w) n →
  last (filter (λ e, ce_Key e = key) (env_rows w f env)) = Some e ↔ is_env_row w f env key e.
Proof.
  intros Hwf. assert (H : ∀ e, e ∈ env_rows w f env ∧ ce_Key e = key ↔ is_env_row w f env key e).
  { intros x. unfold env_rows, is_env_row. rewrite elem_of_isort, list_elem_of_filter. tauto. }
  rewrite last_unique; [apply H|]. intros x y Hx Hy Hkx Hky.
  eapply env_row_unique; [exact Hwf|apply H; by split|apply H; by split].
Qed.

Lemma last_global_row w n f key g :
  feature_wf (w_feature w) n →
  last (filter (λ g, cg_Key g = key) (global_rows w f)) = Some g ↔ is_global_row w f key g.
Proof.
  intros Hwf. assert (H : ∀ g, g ∈ global_rows w f ∧ cg_Key g = key ↔ is_global_row w f key g).
  { intros x. unfold global_rows, is_global_row. rewrite elem_of_isort, list_elem_of_filter. tauto. }
  rewrite last_unique; [apply H|]. intros x y Hx Hy Hkx Hky.
  eapply global_row_unique; [exact Hwf|apply H; by split|apply H; by split].
Qed.

(** The overlay of the environment's page keeps what is stored. *)
Lemma merged_stored w n f env key :
  feature_wf (w_feature w) n →
  stored w f env key ((λ r, (m_Value r, match m_EnvironmentID r with Some _ => ConfigSourceEnv | None => ConfigSourceGlobal end))
    <$> merged_row (global_rows w f) (env_rows w f env) [] key).
Proof.
  intros Hwf. unfold merged_row, key_included. rewrite bool_decide_eq_true_2 by done. cbn [orb].
  pose proof (λ e, last_env_row w n f env key e Hwf) as He.
  pose proof (λ g, last_global_row w n f key g Hwf) as Hg.
  destruct (last (filter _ (env_rows w f env))) as [e|].
  - left. exists e. split; [by apply He|done].
  - right. split; [intros (e & Hr%He); done|].
    destruct (last (filter _ (global_rows w f))) as [g|].
    + left. exists g. split; [by apply Hg|done].
    + right. split; [intros (g & Hr%Hg); done|done].
Qed.

(** The comparison's lookups too. *)
Lemma global_value_stored w n f key v :
  feature_wf (w_feature w) n →
  cf_Content <$> find (λ gc, bool_decide (cf_Key gc = key)) (globalConfigFromSQL <$> global_rows w f) = Some v ↔
  ∃ g, is_global_row w f key g ∧ cg_Value g = v.
Proof.
  intros Hwf.
  assert (H : ∀ c, c ∈ globalConfigFromSQL <$> global_rows w f ∧ cf_Key c = key ↔
    ∃ g, is_global_row w f key g ∧ c = globalConfigFromSQL g).
  { intros c. rewrite list_elem_of_fmap. unfold global_rows, is_global_row.
    setoid_rewrite elem_of_isort. setoid_rewrite list_elem_of_filter. split.
    - intros [(g & -> & Hf & Hg) Hk]. by exists g.
    - intros (g & (Hg & Hf & Hk) & ->). split; [by exists g|done]. }
  rewrite fmap_Some. split.
  - intros (c & [Hin Hk%bool_decide_eq_true]%find_some & ->).
    destruct (proj1 (H c)) as (g & Hg & ->); [split; [by apply list_elem_of_In|done]|]. by exists g.
  - intros (g & Hg & <-). destruct (proj2 (H (globalConfigFromSQL g))) as [Hin Hk]; [by exists g|].
    destruct (find _ _) as [c|] eqn:Ec.
    + exists c. split; [done|]. apply find_some in Ec as [Hc Hck%bool_decide_eq_true].
      destruct (proj1 (H c)) as (g' & Hg' & ->); [split; [by apply list_elem_of_In|done]|].
      by rewrite (global_row_unique _ _ _ _ _ _ Hwf Hg Hg').
    + apply list_elem_of_In in Hin. pose proof (find_none _ _ Ec _ Hin) as Hn. cbn beta in Hn.
      by rewrite bool_decide_eq_true_2 in Hn.
Qed.

Lemma compare_stored w n f env key :
  feature_wf (w_feature w) n →
  let globalValue := cf_Content <$> find (λ gc, bool_decide (cf_Key gc = key)) (globalConfigFromSQL <$> global_rows w f) in
  let overrides : gmap N string :=
    foldl (λ m ov, if bool_decide (eo_Key ov = key) then <[eo_EnvironmentID ov := eo_Content ov]> m else m) ∅
      (override_of <$>
        isort (then_by (λ a b, N.leb (ce_EnvironmentID a) (ce_EnvironmentID b)) (λ a b, String.leb (ce_Key a) (ce_Key b)))
          (filter (λ e, ce_Feature e = f) (configurations_environment (w_feature w)))) in
  stored w f env key (match overrides !! env, globalValue with
                      | Some raw, _ => Some (raw, ConfigSourceEnv)
                      | None, Some raw => Some (raw, ConfigSourceGlobal)
                      | None, None => None
                      end).
Proof.
  intros Hwf globalValue overrides. unfold overrides. rewrite overrides_lookup.
  set (rows := isort _ _).
  assert (Hrows : ∀ e, e ∈ rows ∧ ce_Key e = key ∧ ce_EnvironmentID e = env ↔ is_env_row w f env key e).
  { intros e. unfold rows, is_env_row. rewrite elem_of_isort, list_elem_of_filter. tauto. }
  assert (Hg : ∀ v, globalValue = Some v ↔ ∃ g, is_global_row w f key g ∧ cg_Value g = v)
    by (intros v; by eapply global_value_stored).
  destruct (last _) as [ov|] eqn:E; cbn.
  - apply last_Some_elem_of, list_elem_of_filter in E as [[Hk He] (e & -> & Hin)%list_elem_of_fmap].
    left. exists e. split; [|done]. by apply Hrows.
  - right. assert (Hno : ¬ (∃ e, is_env_row w f env key e)).
    { intros (e & (Hin & Hk & He)%Hrows). apply last_None in E.
      assert (Hov : override_of e ∈ filter (λ ov, eo_Key ov = key ∧ eo_EnvironmentID ov = env) (override_of <$> rows))
        by (apply list_elem_of_filter; split; [done|by apply list_elem_of_fmap_2]).
      rewrite E in Hov. by apply elem_of_nil in Hov. }
    split; [done|]. destruct globalValue as [v|].
    + left. destruct (proj1 (Hg v) eq_refl) as (g & Hgr & <-). by exists g.
    + right. split; [|done]. intros (g & Hgr). assert (None = Some (cg_Value g)) as [=] by (apply Hg; by exists g).
Qed.

(** What a table shows of a key. *)
Definition shows (feat : Feature) (key : string) (s : option (string * ConfigSource)) (value source : string) : Prop :=
  value = RawValueForDisplay (default (default "" (f_ValuesYAML feat !! key)) (fst <$> s)) ∧
  source = from_option source_text "HELM" (snd <$> s).

(** *** The environment's page *)

Lemma GetEnvConfig_now w f env :
  w_faults w = [] →
  GetEnvConfig f env w = (Ok (merged_configuration <$> MergeConfigs (global_rows w f) (env_rows w f env) []), w).
Proof.
  intros Hf. unfold GetEnvConfig, ListGlobalConfigByFeature, ListEnvConfigByFeature, mbind, M_bind.
  by rewrite !query_now.
Qed.

(** The rows of the page before they are sorted. *)
Definition page_configs (w : world) (feat : Feature) (env : uuid) : list PageConfig :=
  foldl (declare uuid_NewSHA1 feat)
    (page_config <$> (merged_configuration <$> MergeConfigs (global_rows w (f_Name feat)) (env_rows w (f_Name feat) env) []))
    (map_to_list (f_Values (f_YAML feat))).

Lemma page_configs_keys w feat env : NoDup (pc_Key <$> page_configs w feat env).
Proof.
  unfold page_configs. set (l := page_config <$> _).
  assert (Hl : pc_Key <$> l = m_Key <$> MergeConfigs (global_rows w (f_Name feat)) (env_rows w (f_Name feat) env) [])
    by (unfold l; by rewrite <-!list_fmap_compose).
  assert (Hs := declare_all uuid_NewSHA1 feat (map_to_list (f_Values (f_YAML feat))) l (NoDup_fst_map_to_list _)).
  apply (f_equal (fmap (λ s : string * string * string, s.1.1))) in Hs.
  rewrite fmap_app, <-!list_fmap_compose in Hs.
  change (pc_Key <$> foldl (declare uuid_NewSHA1 feat) l (map_to_list (f_Values (f_YAML feat))) =
    (pc_Key <$> l) ++ (fst <$> filter (λ kv, has_declaration kv.2 ∧ kv.1 ∉ pc_Key <$> l)
       (map_to_list (f_Values (f_YAML feat))))) in Hs.
  rewrite Hs. apply NoDup_app. split_and!.
  - rewrite Hl. apply MergeConfigs_keys.
  - intros k Hk (kv & -> & [[_ Hn] _]%list_elem_of_filter)%list_elem_of_fmap. done.
  - apply NoDup_fmap_filter, NoDup_fst_map_to_list.
Qed.

Lemma page_configs_stored w n feat env key val :
  feature_wf (w_feature w) n → f_Values (f_YAML feat) !! key = Some val → is_Some (v_Config val) →
  ∃ c s, c ∈ page_configs w feat env ∧ pc_Key c = key ∧ stored w (f_Name feat) env key s ∧
    pc_Content c = default (default "" (f_ValuesYAML feat !! key)) (fst <$> s) ∧
    pc_Source c = from_option source_text "HELM" (snd <$> s).
Proof.
  intros Hwf Hval Hc. unfold page_configs. set (l := page_config <$> _). set (kvs := map_to_list _).
  pose proof (merged_stored w n (f_Name feat) env key Hwf) as Hst.
  set (rows := MergeConfigs (global_rows w (f_Name feat)) (env_rows w (f_Name feat) env) []) in *.
  pose proof (elem_of_MergeConfigs (global_rows w (f_Name feat)) (env_rows w (f_Name feat) env) []) as Hrows.
  fold rows in Hrows.
  assert (Hin : ∀ s, s ∈ (shown <$> l) ++ (helm_entry feat <$> filter (λ kv, has_declaration kv.2 ∧ kv.1 ∉ pc_Key <$> l) kvs) →
    ∃ c, c ∈ foldl (declare uuid_NewSHA1 feat) l kvs ∧ shown c = s).
  { intros s Hs. rewrite <-(declare_all uuid_NewSHA1 feat kvs l (NoDup_fst_map_to_list _)) in Hs.
    apply list_elem_of_fmap in Hs as (c & -> & Hin). by exists c. }
  destruct (merged_row _ _ [] key) as [row|] eqn:E.
  - assert (Hk : m_Key row = key) by by eapply merged_row_key.
    destruct (Hin (shown (page_config (merged_configuration row)))) as (c & Hcin & Hs).
    + apply elem_of_app. left. do 3 apply list_elem_of_fmap_2. apply Hrows. by rewrite Hk.
    + exists c, (Some (m_Value row, match m_EnvironmentID row with Some _ => ConfigSourceEnv | None => ConfigSourceGlobal end)).
      injection Hs as H1 H2 H3. by rewrite H1, H2, H3, Hk.
  - destruct (Hin (helm_entry feat (key, val))) as (c & Hcin & Hs).
    + apply elem_of_app. right. apply list_elem_of_fmap_2, list_elem_of_filter.
      split; [split; [by left|]|by apply elem_of_map_to_list]. unfold l.
      rewrite <-!list_fmap_compose. intros (row & Hk & Hr)%list_elem_of_fmap. cbn in Hk.
      apply Hrows in Hr. congruence.
    + exists c, None. injection Hs as H1 H2 H3. by rewrite H1, H2, H3.
Qed.

Lemma unique_filter {A K} `{EqDecision K} (f : A → K) (l : list A) x :
  NoDup (f <$> l) → x ∈ l → filter (λ y, f y = f x) l = [x].
Proof.
  induction l as [|y l IH]; [by intros _ ?%elem_of_nil|].
  rewrite fmap_cons, NoDup_cons, elem_of_cons. intros [Hy Hl] [->|Hx]; rewrite filter_cons.
  - rewrite decide_True by done. f_equal. apply filter_none. intros z Hz Hk. apply Hy. rewrite <-Hk.
    by apply list_elem_of_fmap_2.
  - rewrite decide_False; [by apply IH|]. intros Hk. apply Hy. rewrite Hk. by apply list_elem_of_fmap_2.
Qed.

Lemma filter_keyed {A B K} `{EqDecision K} (g : A → B) (f : B → K) (h : A → K) (l : list A) k :
  (∀ x, f (g x) = h x) → filter (λ y, f y = k) (g <$> l) = g <$> filter (λ x, h x = k) l.
Proof.
  intros Hg. induction l as [|x l IH]; [done|]. rewrite fmap_cons, !filter_cons, IH, Hg. by case_decide.
Qed.

(** The rendering only touches the items of computed keys. *)
Lemma page_shows w n order aud feat env key val items w' :
  w_faults w = [] → feature_wf (w_feature w) n →
  f_Values (f_YAML feat) !! key = Some val → is_Some (v_Config val) → v_Computed val = None →
  loadFeatureConfigItems uuid_String uuid_NewSHA1 order aud feat env w = (Ok items, w') →
  ∃ item s, filter (λ i, ci_Key i = key) items = [item] ∧ stored w (f_Name feat) env key s ∧
    shows feat key s (ci_Value item) (ci_Source item).
Proof.
  intros Hf Hwf Hval Hc Hcomp H. unfold loadFeatureConfigItems in H.
  rewrite (bind_run _ _ _ _ _ (GetEnvConfig_now w (f_Name feat) env Hf)) in H.
  fold (page_configs w feat env) in H. set (cs := isort _ (page_configs w feat env)) in H.
  apply bind_Ok in H as (rendered & w1 & _ & (gcs & w2 & _ & [= <- _])%bind_Ok).
  set (globalByKey := foldl _ ∅ gcs).
  destruct (page_configs_stored w n feat env key val Hwf Hval Hc) as (c & s & Hin & Hk & Hs & Hcontent & Hsource).
  assert (Hcs : filter (λ x, pc_Key x = key) cs = [c]).
  { rewrite <-Hk. apply (unique_filter pc_Key).
    - unfold cs. rewrite isort_perm. apply page_configs_keys.
    - by apply elem_of_isort. }
  assert (Hn : is_computed c = false).
  { unfold is_computed. destruct (pc_Value c) as [v|] eqn:Ev; [|done]. unfold page_configs in Hin.
    apply (declared_value _ _ _ _ _ v) in Hin; [|by intros x (? & -> & _)%list_elem_of_fmap|done].
    apply elem_of_map_to_list in Hin. rewrite Hk, Hval in Hin. injection Hin as ->. by rewrite Hcomp. }
  assert (Hp : shows feat key s (ci_Value (page_item uuid_String feat globalByKey c)) (ci_Source (page_item uuid_String feat globalByKey c)))
    by (split; cbn; by rewrite ?Hcontent, ?Hsource).
  assert (Hfilter : filter (λ i, ci_Key i = key) (page_item uuid_String feat globalByKey <$> cs) =
    [page_item uuid_String feat globalByKey c]) by (rewrite (filter_keyed _ ci_Key pc_Key) by done; by rewrite Hcs).
  exists (page_item uuid_String feat globalByKey c), s. split; [|by split].
  destruct rendered as [m|]; [|done]. rewrite (filter_keyed _ ci_Key ci_Key).
  2: { intros i. unfold show_rendered. destruct (_ || _ || _); [done|].
       destruct (lookupHelmValue _ _) as [[v []] h]; done. }
  rewrite Hfilter. cbn [fmap list_fmap]. unfold show_rendered. cbn [ci_IsComputed page_item]. by rewrite Hn.
Qed.

(** *** The comparison *)

Definition source_label (source : string) : string :=
  if bool_decide (source = "ENV") then "env config"
  else if bool_decide (source = "GLOBAL") then "global config" else "helm value".

Lemma compare_shows w n order aud feat key val envs env rows w' :
  w_faults w = [] → feature_wf (w_feature w) n →
  f_Values (f_YAML feat) !! key = Some val → v_Computed val = None → env ∈ envs →
  compareKeyAcrossEnvs Sprint order aud feat key envs w = (Ok rows, w') →
  ∃ row s source, row ∈ rows ∧ cr_TenantName row = cc_TenantName env ∧ cr_EnvName row = cc_Name env ∧
    stored w (f_Name feat) (cc_ID env) key s ∧ shows feat key s (cr_Value row) source ∧
    cr_Source row = source_label source.
Proof.
  intros Hf Hwf Hval Hcomp Henv H. unfold compareKeyAcrossEnvs in H.
  assert (Hg : GetGlobalConfig (f_Name feat) w = (Ok (globalConfigFromSQL <$> global_rows w (f_Name feat)), w))
    by (unfold GetGlobalConfig, ListGlobalConfigByFeature, mbind, M_bind; by rewrite query_now).
  assert (Ho : ListAllEnvConfigByFeature (f_Name feat) w = (Ok (override_of <$>
      isort (then_by (λ a b, N.leb (ce_EnvironmentID a) (ce_EnvironmentID b)) (λ a b, String.leb (ce_Key a) (ce_Key b)))
        (filter (λ e, ce_Feature e = f_Name feat) (configurations_environment (w_feature w)))), w))
    by (unfold ListAllEnvConfigByFeature, ListAllEnvConfigByFeature_query, mbind, M_bind; by rewrite query_now).
  rewrite (bind_run _ _ _ _ _ Hg), (bind_run _ _ _ _ _ Ho), Hval in H.
  cbn [mbind option_bind] in H. rewrite Hcomp in H. rewrite bool_decide_eq_false_2 in H by (by intros [? ?]).
  injection H as <- _.
  pose proof (compare_stored w n (f_Name feat) (cc_ID env) key Hwf) as Hst. cbv zeta in Hst.
  set (overrides := foldl _ ∅ _) in *. set (gv := cf_Content <$> _) in *.
  match type of Hst with stored _ _ _ _ ?s =>
    eexists (stored_row feat key _ gv overrides env), s, (from_option source_text "HELM" (snd <$> s)) end.
  split_and!; [| | |exact Hst| |].
  - apply elem_of_isort. apply (list_elem_of_fmap_2 (stored_row feat key _ gv overrides)), Henv.
  - unfold stored_row. by destruct (overrides !! cc_ID env), gv.
  - unfold stored_row. by destruct (overrides !! cc_ID env), gv.
  - unfold shows, stored_row. by destruct (overrides !! cc_ID env), gv.
  - unfold stored_row. by destruct (overrides !! cc_ID env), gv.
Qed.

(** What is stored decides what is shown: the environment's own row, else the global one,
    else the chart's value. *)
Lemma shows_precedence w n feat env key s value source :
  feature_wf (w_feature w) n → stored w (f_Name feat) env key s → shows feat key s value source →
  (∀ e, is_env_row w (f_Name feat) env key e → value = RawValueForDisplay (ce_Value e) ∧ source = "ENV") ∧
  ((¬ ∃ e, is_env_row w (f_Name feat) env key e) →
   (∀ g, is_global_row w (f_Name feat) key g → value = RawValueForDisplay (cg_Value g) ∧ source = "GLOBAL") ∧
   ((¬ ∃ g, is_global_row w (f_Name feat) key g) →
    value = RawValueForDisplay (default "" (f_ValuesYAML feat !! key)) ∧ source = "HELM")).
Proof.
  intros Hwf Hs [-> ->]. destruct Hs as [(e & He & ->)|[Hne [(g & Hg & ->)|[Hng ->]]]].
  - split; [|by intros []; exists e]. intros e' He'. by rewrite (env_row_unique _ _ _ _ _ _ _ Hwf He He').
  - split; [intros e He; by destruct Hne; exists e|]. intros _. split; [|by intros []; exists g].
    intros g' Hg'. by rewrite (global_row_unique _ _ _ _ _ _ Hwf Hg Hg').
  - split; [intros e He; by destruct Hne; exists e|]. intros _.
    split; [intros g Hg; by destruct Hng; exists g|done].
Qed.

(** C26.  The comparison of a key across environments shows for each environment what that
    environment's own page shows, and both show what is stored: when no query fails and both
    load, the page has exactly one item of a declared key that is not computed, its value and
    source are those of the environment's row in the comparison, and they are the
    environment's own value when it has one, else the global one, else the chart's. *)
Theorem compare_agrees_page w n order order' aud feat key val envs env rows w1 items w2 :
  w_faults w = [] → feature_wf (w_feature w) n →
  f_Values (f_YAML feat) !! key = Some val → is_Some (v_Config val) → v_Computed val = None →
  env ∈ envs →
  compareKeyAcrossEnvs Sprint order aud feat key envs w = (Ok rows, w1) →
  loadFeatureConfigItems uuid_String uuid_NewSHA1 order' aud feat (cc_ID env) w = (Ok items, w2) →
  ∃ row item, row ∈ rows ∧ cr_TenantName row = cc_TenantName env ∧ cr_EnvName row = cc_Name env ∧
    filter (λ i, ci_Key i = key) items = [item] ∧
    ci_Value item = cr_Value row ∧ cr_Source row = source_label (ci_Source item) ∧
    (∀ e, is_env_row w (f_Name feat) (cc_ID env) key e →
       ci_Value item = RawValueForDisplay (ce_Value e) ∧ ci_Source item = "ENV") ∧
    ((¬ ∃ e, is_env_row w (f_Name feat) (cc_ID env) key e) →
     (∀ g, is_global_row w (f_Name feat) key g →
        ci_Value item = RawValueForDisplay (cg_Value g) ∧ ci_Source item = "GLOBAL") ∧
     ((¬ ∃ g, is_global_row w (f_Name feat) key g) →
      ci_Value item = RawValueForDisplay (default "" (f_ValuesYAML feat !! key)) ∧ ci_Source item = "HELM")).
Proof.
  intros Hf Hwf Hval Hc Hcomp Henv Hcmp Hpage.
  destruct (compare_shows _ _ _ _ _ _ _ _ _ _ _ Hf Hwf Hval Hcomp Henv Hcmp)
    as (row & s & source & Hrow & Ht & Hn & Hst & [Hv Hs] & Hlabel).
  destruct (page_shows _ _ _ _ _ _ _ _ _ _ Hf Hwf Hval Hc Hcomp Hpage) as (item & s' & Hitem & Hst' & Hsh').
  destruct (shows_precedence _ _ _ _ _ _ _ _ Hwf Hst' Hsh') as [He Hg]. destruct Hsh' as [Hv' Hs'].
  rewrite (stored_unique _ _ _ _ _ _ _ Hwf Hst Hst') in Hv, Hs.
  exists row, item. split_and!; [done|done|done|done|congruence|congruence|exact He|exact Hg].
Qed.
End same_value.

(** ** The dominant value of a column *)

(** How often a value occurs. *)
Definition occurrences (v : string) (values : list string) : nat := length (filter (.= v) values).

Lemma value_counts_lookup values v :
  value_counts values !! v = match occurrences v values with O => None | c => Some c end.
Proof.
  unfold value_counts, occurrences. induction values as [|x l IH] using rev_ind; [done|].
  rewrite foldl_app, filter_app, length_app. cbn [foldl]. rewrite filter_cons, filter_nil.
  destruct (decide (x = v)) as [->|Hx].
  - rewrite lookup_insert_eq, IH. cbn. rewrite Nat.add_1_r. by destruct (length _).
  - rewrite lookup_insert_ne by done. cbn. by rewrite Nat.add_0_r.
Qed.

(** What the [range] has found: the first of the values seen most often, and whether
    another one is seen as often. *)
Definition dominates (seen : list (string * nat)) (acc : string * nat * bool) : Prop :=
  let '(d, top, tie) := acc in
  (∀ kv, kv ∈ seen → kv.2 ≤ top)%nat ∧
  (0 < top → (d, top) ∈ seen)%nat ∧
  (tie = true ↔ ∃ kv, kv ∈ seen ∧ kv.1 ≠ d ∧ kv.2 = top).

Lemma dominate_fold order :
  NoDup order.*1 → (∀ kv, kv ∈ order → 0 < kv.2)%nat →
  dominates order (foldl dominate ("", 0%nat, false) order).
Proof.
  induction order as [|[v c] l IH] using rev_ind.
  { intros _ _. split; [by intros ? ?%elem_of_nil|]. split; [lia|]. split; [done|].
    by intros (? & ?%elem_of_nil & _). }
  intros Hnd Hpos. rewrite fmap_app in Hnd. apply NoDup_app in Hnd as (Hnd & Hdis & _).
  assert (Hv : ∀ kv, kv ∈ l → kv.1 ≠ v).
  { intros kv Hin Heq. apply (Hdis v); [rewrite <-Heq; by apply list_elem_of_fmap_2|left]. }
  rewrite foldl_app. cbn [foldl]. specialize (IH Hnd (λ kv H, Hpos kv (proj2 (elem_of_app _ _ _) (or_introl H)))).
  destruct (foldl dominate _ l) as [[d top] tie]. destruct IH as (Hmax & Hd & Htie). unfold dominate.
  assert (Hc : (0 < c)%nat) by (apply (Hpos (v, c)), elem_of_app; right; left).
  destruct (Nat.ltb_spec top c) as [Hlt|Hge]; [|destruct (Nat.eqb_spec c top) as [->|Hne]]; split_and!.
  - intros kv [Hin| ->%list_elem_of_singleton]%elem_of_app; [specialize (Hmax _ Hin); lia|cbn; lia].
  - intros _. apply elem_of_app. right. left.
  - split; [done|]. intros (kv & [Hin| ->%list_elem_of_singleton]%elem_of_app & Hk & He); [|done].
    specialize (Hmax _ Hin). lia.
  - intros kv [Hin| ->%list_elem_of_singleton]%elem_of_app; [by apply Hmax|cbn; lia].
  - intros H0. apply elem_of_app. left. by apply Hd.
  - split; [intros _|done]. exists (v, top). split; [apply elem_of_app; right; left|]. split; [|done].
    cbn. intros ->. by apply (Hv (d, top)); [apply Hd|].
  - intros kv [Hin| ->%list_elem_of_singleton]%elem_of_app; [by apply Hmax|cbn; lia].
  - intros H0. apply elem_of_app. left. by apply Hd.
  - rewrite Htie. split; intros (kv & Hin & Hk & He).
    + exists kv. split; [apply elem_of_app; by left|done].
    + apply elem_of_app in Hin as [Hin| ->%list_elem_of_singleton]; [by exists kv|cbn in He; lia].
Qed.

(** A value of the column that occurs more often than every other one. *)
Definition strictly_dominant (values : list string) (d : string) : Prop :=
  d ∈ values ∧ ∀ v, v ∈ values → v ≠ d → (occurrences v values < occurrences d values)%nat.

Lemma occurrences_pos v values : v ∈ values ↔ (0 < occurrences v values)%nat.
Proof.
  unfold occurrences. split.
  - intros Hv. assert (Hin : v ∈ filter (.= v) values) by by apply list_elem_of_filter.
    destruct (filter _ _); [by apply elem_of_nil in Hin|cbn; lia].
  - intros Hl. destruct (filter (.= v) values) as [|x l] eqn:E; [cbn in Hl; lia|].
    assert (Hin : x ∈ filter (.= v) values) by (rewrite E; left).
    by apply list_elem_of_filter in Hin as [-> ?].
Qed.

Lemma elem_of_counts values v c :
  (v, c) ∈ map_to_list (value_counts values) ↔ v ∈ values ∧ c = occurrences v values.
Proof.
  rewrite elem_of_map_to_list, value_counts_lookup, occurrences_pos.
  destruct (occurrences v values); split; [done|lia|intros [= <-]; split; [lia|done]|by intros [_ ->]].
Qed.

Lemma dominate_found order values d top tie :
  Permutation order (map_to_list (value_counts values)) → values ≠ [] →
  foldl dominate ("", 0%nat, false) order = (d, top, tie) →
  ∀ d', strictly_dominant values d' ↔ tie = false ∧ d' = d.
Proof.
  intros HP Hne Hfold.
  assert (Hel : ∀ v c, (v, c) ∈ order ↔ v ∈ values ∧ c = occurrences v values)
    by (intros v c; rewrite HP; apply elem_of_counts).
  assert (Hdom : dominates order (d, top, tie)).
  { rewrite <-Hfold. apply dominate_fold; [rewrite HP; apply NoDup_fst_map_to_list|].
    intros [v c] [Hv ->]%Hel. by apply occurrences_pos. }
  destruct Hdom as (Hmax & Hd & Htie).
  assert (Hle : ∀ v, v ∈ values → (occurrences v values ≤ top)%nat)
    by (intros v Hv; apply (Hmax (v, occurrences v values)), Hel; by split).
  assert (Hdin : d ∈ values ∧ top = occurrences d values).
  { apply Hel, Hd. destruct values as [|v l]; [done|].
    assert (Hv : v ∈ v :: l) by left. specialize (Hle v Hv). apply occurrences_pos in Hv. lia. }
  destruct Hdin as [Hdin Htop]. intros d'. unfold strictly_dominant. split.
  - intros [Hd' Hlt]. destruct (decide (d' = d)) as [->|Hdd].
    + split; [|done]. apply not_true_is_false. intros Ht.
      apply Htie in Ht as ([v c] & Hin & Hk & Hc'). apply Hel in Hin as [Hv Hc]. cbn in *.
      specialize (Hlt v Hv Hk). lia.
    + specialize (Hlt d Hdin (not_eq_sym Hdd)). specialize (Hle d' Hd'). lia.
  - intros [Hfalse ->]. split; [done|]. intros v Hv Hvd. specialize (Hle v Hv).
    destruct (Nat.eq_dec (occurrences v values) top) as [He|He]; [|lia].
    assert (tie = true) by (apply Htie; exists (v, top); split; [by apply Hel|done]). congruence.
Qed.

(** With one count, every cell holds that value. *)
Lemma single_count order values :
  Permutation order (map_to_list (value_counts values)) → values ≠ [] → length order = 1%nat →
  ∃ x, strictly_dominant values x ∧ ∀ v, v ∈ values → v = x.
Proof.
  intros HP Hne Hlen. destruct order as [|[x c] [|]]; [done| |done].
  assert (Hall : ∀ v, v ∈ values → v = x).
  { intros v Hv. assert ((v, occurrences v values) ∈ [(x, c)]) as Hin by (rewrite HP; by apply elem_of_counts).
    apply list_elem_of_singleton in Hin. congruence. }
  exists x. split; [|done]. destruct values as [|v l]; [done|]. split.
  - rewrite <-(Hall v) by left. left.
  - intros v' Hv' Hnx. by apply Hall in Hv'.
Qed.

(** The emphasis of a column does not depend on the order in which the counts are
    visited: when one value occurs strictly more often than every other, its cells are
    consensus and all others outliers; when none does, no cell is emphasised; a column of
    fewer than two cells never is. *)
Theorem ColumnConsensus_spec order values :
  Permutation order (map_to_list (value_counts values)) →
  let out := ColumnConsensus order values in
  length out = length values ∧
  ((length values < 2)%nat → out = (λ _, EmphasisNone) <$> values) ∧
  ((2 ≤ length values)%nat →
    (∀ d, strictly_dominant values d →
       out = (λ v, if bool_decide (v = d) then EmphasisConsensus else EmphasisOutlier) <$> values) ∧
    ((∀ d, ¬ strictly_dominant values d) → out = (λ _, EmphasisNone) <$> values)).
Proof.
  intros HP. cbv zeta. unfold ColumnConsensus.
  destruct (Nat.ltb_spec (length values) 2) as [Hl|Hl]; [split_and!; [by rewrite length_fmap|done|lia]|].
  assert (Hne : values ≠ []) by (intros ->; cbn in Hl; lia).
  destruct (Nat.eqb_spec (length order) 1) as [Ho|_].
  - destruct (single_count _ _ HP Hne Ho) as (x & Hx & Hall). split_and!; [by rewrite length_fmap|lia|].
    intros _. split; [|by intros Hno; destruct (Hno x)]. intros d [Hd _].
    apply list_fmap_ext. intros i v Hv. apply list_elem_of_lookup_2 in Hv.
    by rewrite bool_decide_eq_true_2 by (by rewrite (Hall v Hv), (Hall d Hd)).
  - destruct (foldl dominate _ order) as [[d0 top] tie] eqn:E.
    pose proof (dominate_found _ _ _ _ _ HP Hne E) as Hdom.
    split_and!; [by rewrite length_fmap|lia|]. intros _. split.
    + by intros d [-> ->]%Hdom.
    + intros Hno. destruct tie; [done|]. by destruct (Hno d0 (proj2 (Hdom d0) (conj eq_refl eq_refl))).
Qed.

(** ** Examples *)

Definition example_region : Value :=
  {| v_Description := ""; v_DisplayName := "Region"; v_Required := true; v_Computed := None;
     v_Config := Some {| c_Type := "string"; c_Secret := false |}; v_IgnoreKind := [] |}.

Definition example_configured : world :=
  set_w_feature (set_configurations_global (λ _,
      [{| cg_ID := 20; cg_Feature := "app"; cg_Key := "region"; cg_Value := "eu"; cg_Description := None;
          cg_Secret := false; cg_Created := 5 |}]))
    (set_w_feature (set_configurations_environment (λ _,
      [{| ce_ID := 21; ce_Feature := "app"; ce_Key := "region"; ce_Value := "us"; ce_Description := None;
          ce_Secret := false; ce_Created := 5; ce_EnvironmentID := 7 |}])) example_world).

Definition example_region_row : ConfigurationsEnvironment :=
  {| ce_ID := 21; ce_Feature := "app"; ce_Key := "region"; ce_Value := "us"; ce_Description := None;
     ce_Secret := false; ce_Created := 5; ce_EnvironmentID := 7 |}.

#[local] Instance config_example_decoder : ObjectCodec := {| unmarshal_object _ := Ok ∅ |}.
#[local] Instance config_example_form : FormJson :=
  {| form_Unmarshal s := Ok (VStr s); form_Unmarshal_strings _ := Err (ErrString "not a list");
     form_Unmarshal_string s := Ok s; form_Marshal _ := Ok ""; form_Indent s := Ok s |}.

Definition example_dev : configCompareEnv := {| cc_ID := 7; cc_Name := "dev"; cc_TenantName := "nav" |}.
Definition example_prod : configCompareEnv := {| cc_ID := 8; cc_Name := "prod"; cc_TenantName := "nav" |}.

Lemma example_configured_wf : feature_wf (w_feature example_configured) 1000.
Proof.
  split; simpl; try (apply (bool_decide_unpack _); vm_compute; exact I); try by repeat constructor.
  intros a ->%list_elem_of_singleton. eexists. by split; [apply list_elem_of_singleton|].
Qed.

Lemma compare_agrees_page_witness :
  let f := example_feature {[ "region" := example_region ]} in
  ∃ rows items item,
    compareKeyAcrossEnvs (ext := echo) (pg := example_pg) (λ _, "") [] "" f "region" [example_prod; example_dev]
      example_configured = (Ok rows, example_configured) ∧
    loadFeatureConfigItems (ext := echo) (pg := example_pg) tally (λ _, 0%N) [] "" f 7 example_configured
      = (Ok items, example_configured) ∧
    filter (λ i, ci_Key i = "region") items = [item] ∧ ci_Value item = "us".
Proof.
  intros f.
  destruct (compareKeyAcrossEnvs (ext := echo) (pg := example_pg) (λ _, "") [] "" f "region" [example_prod; example_dev]
    example_configured) as [[rows|e|p] w1] eqn:E1; [|vm_compute in E1; discriminate E1..].
  destruct (loadFeatureConfigItems (ext := echo) (pg := example_pg) tally (λ _, 0%N) [] "" f 7 example_configured)
    as [[items|e|p] w2] eqn:E2; [|vm_compute in E2; discriminate E2..].
  destruct (compare_agrees_page (ext := echo) (pg := example_pg) tally (λ _, 0%N) (λ _, "") example_configured 1000
    [] [] "" f "region" example_region [example_prod; example_dev] example_dev rows w1 items w2)
    as (row & item & Hrow & _ & Hn & Hitem & Hv & _ & Hown & _);
    [reflexivity|exact example_configured_wf|reflexivity|by eexists|reflexivity|right; left|exact E1|exact E2|].
  exists rows, items, item. split; [|split; [|split; [exact Hitem|]]].
  - apply (f_equal snd) in E1. vm_compute in E1. cbn [snd] in E1. by rewrite <-E1.
  - apply (f_equal snd) in E2. vm_compute in E2. cbn [snd] in E2. by rewrite <-E2.
  - eapply eq_trans; [apply (Hown example_region_row); repeat split; left|reflexivity].
Defined.

Lemma ColumnConsensus_spec_witness :
  ColumnConsensus (map_to_list (value_counts ["a"; "b"; "a"])) ["a"; "b"; "a"]
    = [EmphasisConsensus; EmphasisOutlier; EmphasisConsensus].
Proof.
  destruct (ColumnConsensus_spec (map_to_list (value_counts ["a"; "b"; "a"])) ["a"; "b"; "a"]
    (Permutation_refl _)) as (_ & _ & H).
  rewrite (proj1 (H ltac:(cbn; lia)) "a"); [reflexivity|]. split; [left|].
  intros v Hv Hne. repeat (apply elem_of_cons in Hv as [->|Hv]; [first [done|vm_compute; lia]|]).
  by apply elem_of_nil in Hv.
Defined.
