(* ===== verification/AssignmentRows.v ===== *)
(** * ui/pages/features/feature_assignments.go: a feature's assignments and environments

    The overview of a feature has a row for every environment and assignment that match:
    the winner's with its status, the others marked as overridden by it.  The cards of the
    assignments page are the same rows, grouped ([AssignmentCards]).  Winners and statuses are computed as in
    [FeatureEnvs], over assignments keyed by a text of their own. *)

From S2P Require Import ConfigItems Winning.
From S2P Require Export FeatureEnvs History.

Record AssignmentEnvStatus := {
  es_Name : string; es_EnvironmentID : string; es_TenantName : string; es_TenantSlug : string;
  es_Enabled : bool; es_DisableReason : string; es_EnvReconcileDisabled : bool;
  es_LastModified : time; es_LastDeployed : time; es_StatusText : string;
  es_FeatureAssignmentID : string; es_AssignmentVersion : string; es_AssignmentDescription : string;
  es_ChartDescription : string; es_ReleaseVersion : string; es_TargetLabels : Labels;
  es_IsOverridden : bool; es_OverriddenByID : string; es_OverriddenByVersion : string;
  es_OverriddenByLabels : Labels; es_DeployInstructionID : string;
}.

(** What is read once for all rows. *)
Record row_inputs := {
  ri_winners : gmap N FeatureAssignment;
  ri_statuses : gmap string FeatureReconcileStatus;
  ri_disabled : gmap N time;
  ri_deployed : gmap N Instruction;
  ri_instruction : gmap N Instruction;
  ri_release : gmap N ReleaseStatusRow;
}.

(** The first assignment of every target ([latestAssignmentPerTarget] of this package). *)
Definition keyed (fas : list FeatureAssignment) : list FeatureAssignment :=
  distinct_first (comma_targetKey ∘ fa_TargetLabels) [] fas.

Section rows.
Context `{ext : External} `{pg : Postgres} `{codec : FeatureCodec} `{sc : Scan} (uuid_String : uuid → string).

(** One environment that the assignment matches. *)
Definition assignment_row (featureName : string) (inp : row_inputs) (fa : FeatureAssignment)
    (env : TenantEnvironment) : IO AssignmentEnvStatus :=
  let disabledAt := ri_disabled inp !! te_ID env in
  reason ← (match disabledAt with
            | Some _ => LatestDisableReason featureName (te_ID env)
            | None => mret ""
            end : IO string);
  let overriding :=
    match ri_winners inp !! te_ID env with
    | Some winner => if bool_decide (fa_ID winner = fa_ID fa) then None else Some winner
    | None => None
    end in
  let '(status, lastModified) :=
    match overriding with
    | Some _ => ("OVERRIDDEN", default time_zero disabledAt)
    | None =>
        if negb (te_Reconcile env) then ("DISABLED", default time_zero disabledAt)
        else match disabledAt with
             | Some t => ("DISABLED", t)
             | None =>
                 match ri_statuses inp !! status_key uuid_String (fa_ID fa) (te_ID env) with
                 | Some s => (NormalizeStatus (frs_State s), frs_LastModified s)
                 | None => ("UNKNOWN", time_zero)
                 end
             end
    end in
  mret {| es_Name := te_Name env; es_EnvironmentID := uuid_String (te_ID env);
          es_TenantName := te_TenantName env; es_TenantSlug := te_TenantName env;
          es_Enabled := negb (bool_decide (is_Some disabledAt)); es_DisableReason := reason;
          es_EnvReconcileDisabled := negb (te_Reconcile env); es_LastModified := lastModified;
          es_LastDeployed := from_option in_LastModified time_zero (ri_deployed inp !! te_ID env);
          es_StatusText := status; es_FeatureAssignmentID := uuid_String (fa_ID fa);
          es_AssignmentVersion := f_Version (fa_Feature fa);
          es_AssignmentDescription := default "" (fa_Description fa);
          es_ChartDescription := f_Description (fa_Feature fa);
          es_ReleaseVersion := from_option rs_Version "" (ri_release inp !! te_ID env);
          es_TargetLabels := fa_TargetLabels fa;
          es_IsOverridden := bool_decide (is_Some overriding);
          es_OverriddenByID := from_option (uuid_String ∘ fa_ID) "" overriding;
          es_OverriddenByVersion := from_option (f_Version ∘ fa_Feature) "" overriding;
          es_OverriddenByLabels := from_option fa_TargetLabels ∅ overriding;
          es_DeployInstructionID := from_option (uuid_String ∘ in_ID) "" (ri_instruction inp !! te_ID env) |}.

(** The rows of an assignment: [continue] passes over the environments it does not match. *)
Definition assignment_rows (featureName : string) (inp : row_inputs) (envs : list TenantEnvironment)
    (fa : FeatureAssignment) : IO (list AssignmentEnvStatus) :=
  map_each (assignment_row featureName inp fa)
    (filter (λ env, targetMatchesLabels (fa_TargetLabels fa) (te_Labels env) = true) envs).

(** A failing step leaves the page without rows. *)
Definition or_no_rows {A} (m : IO A) (k : A → IO (list AssignmentEnvStatus)) : IO (list AssignmentEnvStatus) :=
  r ← attempt m; match r with inl a => k a | inr _ => mret [] end.

Definition featureAssignmentEnvStatuses (feature : Feature) : IO (list AssignmentEnvStatus) :=
  let name := f_Name feature in
  or_no_rows (ListByFeature name) (λ fas,
  match fas with
  | [] => mret []
  | _ =>
      let fas := keyed fas in
      or_no_rows (ListTenantEnvironments false) (λ envs,
      or_no_rows AllReconcileStatuses (λ statusesByFA,
      or_no_rows (ListDisabledEnvironmentsForFeature name) (λ disabled,
      or_no_rows (LatestDeployedForFeature name) (λ deployed,
      or_no_rows (LatestDeployInstructionsForFeature name) (λ instructions,
      or_no_rows (ReleaseStatusesForFeature name) (λ releases,
        rows ← map_each (assignment_rows name
          {| ri_winners := winningAssignments fas envs;
             ri_statuses := foldl (add_statuses uuid_String statusesByFA) ∅ fas;
             ri_disabled := disabled; ri_deployed := deployed; ri_instruction := instructions;
             ri_release := releases |} envs) fas;
        mret (concat rows)))))))
  end).

Definition currentAssignmentEnvStatuses (envs : list AssignmentEnvStatus) : list AssignmentEnvStatus :=
  filter (λ env, es_IsOverridden env = false) envs.

(** ** The overview and the list of environments *)

Definition overriding (inp : row_inputs) (fa : FeatureAssignment) (env : TenantEnvironment) : option FeatureAssignment :=
  match ri_winners inp !! te_ID env with
  | Some winner => if bool_decide (fa_ID winner = fa_ID fa) then None else Some winner
  | None => None
  end.

Lemma LatestDisableReason_now w name e :
  w_faults w = [] → ∃ reason, LatestDisableReason name e w = (Ok reason, w).
Proof.
  intros Hf. unfold LatestDisableReason, LatestDisableReason_query, attempt, mbind, M_bind. rewrite query_now by done.
  unfold single. destruct (au_Description <$> _); by eexists.
Qed.

(** A row is about its environment and assignment. *)
Lemma assignment_row_now w name inp fa env :
  w_faults w = [] → ∃ row, assignment_row name inp fa env w = (Ok row, w) ∧
    es_EnvironmentID row = uuid_String (te_ID env) ∧ es_FeatureAssignmentID row = uuid_String (fa_ID fa) ∧
    es_AssignmentVersion row = f_Version (fa_Feature fa) ∧
    es_IsOverridden row = bool_decide (is_Some (overriding inp fa env)) ∧
    es_OverriddenByID row = from_option (uuid_String ∘ fa_ID) "" (overriding inp fa env) ∧
    es_OverriddenByVersion row = from_option (f_Version ∘ fa_Feature) "" (overriding inp fa env).
Proof.
  intros Hf. destruct (LatestDisableReason_now w name (te_ID env) Hf) as (reason & Hr).
  unfold assignment_row. fold (overriding inp fa env).
  destruct (ri_disabled inp !! te_ID env); unfold mbind, M_bind, mret, M_ret; rewrite ?Hr;
    destruct (overriding inp fa env), (te_Reconcile env); try destruct (ri_statuses inp !! _);
    (eexists; split; [reflexivity|done]).
Qed.

(** The row shows what the list of environments shows. *)
Definition shows (row : AssignmentEnvStatus) (fe : FeatureEnvironment) : Prop :=
  es_FeatureAssignmentID row = fe_AssignmentID fe ∧ es_AssignmentVersion row = fe_Version fe ∧
  es_StatusText row = fe_Status fe ∧ es_LastModified row = fe_LastModified fe ∧
  es_Enabled row = fe_Enabled fe ∧ es_DisableReason row = fe_DisableReason fe.

(** The row is about another assignment than the one that wins there, which it names. *)
Definition shows_winner (row : AssignmentEnvStatus) (fe : FeatureEnvironment) : Prop :=
  es_FeatureAssignmentID row ≠ fe_AssignmentID fe ∧ es_OverriddenByID row = fe_AssignmentID fe ∧
  es_OverriddenByVersion row = fe_Version fe.

(** Where the assignment wins, the row shows what the list of environments shows. *)
Lemma winner_row w name inp fa env row :
  w_faults w = [] → ri_winners inp !! te_ID env = Some fa → assignment_row name inp fa env w = (Ok row, w) →
  ∃ fe, environment_row uuid_String name (ri_winners inp) (ri_statuses inp) (ri_disabled inp) env w = (Ok (Some fe), w) ∧
    shows row fe.
Proof.
  intros Hf Hw. destruct (LatestDisableReason_now w name (te_ID env) Hf) as (reason & Hr).
  unfold assignment_row, environment_row. rewrite Hw, bool_decide_eq_true_2 by done.
  destruct (ri_disabled inp !! te_ID env); unfold mbind, M_bind, mret, M_ret; rewrite ?Hr;
    destruct (te_Reconcile env); try destruct (ri_statuses inp !! _); intros [= <-];
    (eexists; split; [reflexivity|done]).
Qed.

Lemma map_each_rel {A B} (P : A → B → Prop) (f : A → IO B) l w :
  (∀ x, x ∈ l → ∃ y, f x w = (Ok y, w) ∧ P x y) → ∃ ys, map_each f l w = (Ok ys, w) ∧ Forall2 P l ys.
Proof.
  induction l as [|x l IH]; intros H; [by exists []|]. destruct (H x) as (y & Hy & HP); [left|].
  destruct IH as (ys & Hys & HPs); [intros; apply H; by right|]. exists (y :: ys). cbn [map_each].
  rewrite (bind_run _ _ _ _ _ Hy), (bind_run _ _ _ _ _ Hys). by split; [|constructor].
Qed.

Context (uuid_inj : ∀ a b, uuid_String a = uuid_String b → a = b).

Definition row_of (w : world) (name : string) (inp : row_inputs) (fa : FeatureAssignment) (env : TenantEnvironment)
    (row : AssignmentEnvStatus) : Prop :=
  assignment_row name inp fa env w = (Ok row, w) ∧ es_EnvironmentID row = uuid_String (te_ID env) ∧
  es_IsOverridden row = bool_decide (is_Some (overriding inp fa env)).

(** The rows of one assignment about one environment. *)
Lemma block_rows w name inp fa envs rows te :
  Forall2 (row_of w name inp fa) envs rows → NoDup (te_ID <$> envs) →
  (te ∈ envs → ∃ row, row_of w name inp fa te row ∧
     filter (λ r, es_EnvironmentID r = uuid_String (te_ID te)) rows = [row]) ∧
  (te_ID te ∉ te_ID <$> envs → filter (λ r, es_EnvironmentID r = uuid_String (te_ID te)) rows = []).
Proof.
  intros H2. induction H2 as [|env row envs rows Hrow H2 IH]; intros Hnd; [split; [by intros ?%elem_of_nil|done]|].
  rewrite fmap_cons in Hnd. apply NoDup_cons in Hnd as [Hn Hnd]. destruct (IH Hnd) as [IH1 IH2].
  pose proof Hrow as (_ & Hid & _). rewrite filter_cons, Hid. split.
  - intros [-> |Hin]%elem_of_cons.
    + rewrite decide_True by done. exists row. split; [done|]. f_equal. by apply IH2.
    + rewrite decide_False; [by apply IH1|]. intros Heq%uuid_inj. apply Hn. rewrite Heq. by apply list_elem_of_fmap_2.
  - rewrite fmap_cons, not_elem_of_cons. intros [Hne Hnin].
    rewrite decide_False; [by apply IH2|]. intros Heq%uuid_inj. congruence.
Qed.

(** The current rows about one environment. *)
Definition current_of (te : TenantEnvironment) (rows : list AssignmentEnvStatus) : list AssignmentEnvStatus :=
  filter (λ r, es_EnvironmentID r = uuid_String (te_ID te)) (currentAssignmentEnvStatuses rows).

Lemma current_of_app te l1 l2 : current_of te (l1 ++ l2) = current_of te l1 ++ current_of te l2.
Proof. unfold current_of, currentAssignmentEnvStatuses. by rewrite !filter_app. Qed.

Definition block (w : world) (name : string) (inp : row_inputs) (envs : list TenantEnvironment)
    (fa : FeatureAssignment) : list AssignmentEnvStatus → Prop :=
  Forall2 (row_of w name inp fa) (filter (λ env, targetMatchesLabels (fa_TargetLabels fa) (te_Labels env) = true) envs).

Lemma current_block w name inp fa envs rows te :
  block w name inp envs fa rows → NoDup (te_ID <$> envs) → te ∈ envs →
  (targetMatchesLabels (fa_TargetLabels fa) (te_Labels te) = true → overriding inp fa te = None →
   ∃ row, row_of w name inp fa te row ∧ current_of te rows = [row]) ∧
  (targetMatchesLabels (fa_TargetLabels fa) (te_Labels te) = false ∨ is_Some (overriding inp fa te) →
   current_of te rows = []).
Proof.
  intros Hb Hnd Hte.
  assert (Hnd' : NoDup (te_ID <$> filter (λ env, targetMatchesLabels (fa_TargetLabels fa) (te_Labels env) = true) envs))
    by by apply NoDup_fmap_filter.
  destruct (block_rows _ _ _ _ _ _ te Hb Hnd') as [H1 H2].
  assert (Hc : current_of te rows =
    filter (λ r, es_IsOverridden r = false) (filter (λ r, es_EnvironmentID r = uuid_String (te_ID te)) rows)).
  { unfold current_of, currentAssignmentEnvStatuses. rewrite !list_filter_filter. apply list_filter_iff. tauto. }
  rewrite Hc. split.
  - intros Hm Ho. destruct H1 as (row & Hrow & ->); [by apply list_elem_of_filter|]. exists row.
    split; [done|]. destruct Hrow as (_ & _ & Hov). rewrite filter_cons, Hov, Ho. done.
  - destruct (targetMatchesLabels _ _) eqn:Hm.
    + intros [?|Ho]; [done|]. destruct H1 as (row & (_ & _ & Hov) & ->); [by apply list_elem_of_filter|].
      rewrite filter_cons, Hov, bool_decide_eq_true_2 by done. done.
    + intros _. rewrite H2; [done|]. intros (te' & Hid & [Hm' Hin]%list_elem_of_filter)%list_elem_of_fmap.
      assert (te = te') as <- by (by apply (NoDup_fmap_inj_on te_ID envs)). congruence.
Qed.

(** Of the assignments of distinct identifiers only the winner has a current row. *)
Lemma current_winner w name inp envs l rss te win :
  Forall2 (block w name inp envs) l rss → NoDup (te_ID <$> envs) → te ∈ envs → NoDup (fa_ID <$> l) →
  ri_winners inp !! te_ID te = Some win → win ∈ l →
  targetMatchesLabels (fa_TargetLabels win) (te_Labels te) = true →
  ∃ row, row_of w name inp win te row ∧ current_of te (concat rss) = [row].
Proof.
  intros H2 Hnd Hte. induction H2 as [|fa rows l rss Hb H2 IH]; intros Hl Hw Hin Hm; [by apply elem_of_nil in Hin|].
  rewrite fmap_cons in Hl. apply NoDup_cons in Hl as [Hn Hl]. cbn [concat]. rewrite current_of_app.
  destruct (current_block _ _ _ _ _ _ _ Hb Hnd Hte) as [Hc Hc']. apply elem_of_cons in Hin as [-> |Hin].
  - destruct Hc as (row & Hrow & ->); [done|unfold overriding; by rewrite Hw, bool_decide_eq_true_2|].
    exists row. split; [done|].
    assert (current_of te (concat rss) = []) as ->; [|done]. clear IH Hc' Hb Hm.
    induction H2 as [|fa' rows' l rss Hb' H2 IH]; [done|]. cbn [concat]. rewrite current_of_app.
    rewrite fmap_cons, not_elem_of_cons in Hn. destruct Hn as [Hne Hn].
    rewrite fmap_cons in Hl. apply NoDup_cons in Hl as [_ Hl]. rewrite (IH Hn Hl), app_nil_r.
    apply (current_block _ _ _ _ _ _ _ Hb' Hnd Hte). right. unfold overriding.
    rewrite Hw, bool_decide_eq_false_2 by done. by eexists.
  - rewrite Hc'; [by apply IH|]. right. unfold overriding. rewrite Hw, bool_decide_eq_false_2; [by eexists|].
    intros Hid. apply Hn. rewrite <-Hid. by apply list_elem_of_fmap_2.
Qed.

End rows.

(** ** The text of a target, with commas *)

Lemma Join_pairs (l : list (string * string)) :
  l ≠ [] → GoStd.Join ((λ kv, kv.1 +:+ ("=" +:+ kv.2)) <$> l) "," +:+ "," = pairs_text "," l.
Proof.
  induction l as [|[k v] [|kv l] IH]; intros Hne; [done|..].
  - rewrite fmap_cons, Join_one, pairs_text_cons, !str_app_assoc. done.
  - specialize (IH ltac:(done)). rewrite !fmap_cons, Join_cons in *. rewrite pairs_text_cons, <-IH, !str_app_assoc.
    done.
Qed.

Lemma comma_targetKey_pairs labels :
  comma_targetKey labels = GoStd.Join ((λ kv, kv.1 +:+ ("=" +:+ kv.2)) <$> sorted_pairs labels) ",".
Proof. unfold comma_targetKey, sorted_pairs. by rewrite <-list_fmap_compose. Qed.

Lemma comma_targetKey_inj a b :
  plain_labels "," a → plain_labels "," b → comma_targetKey a = comma_targetKey b → a = b.
Proof.
  intros Ha Hb Hk. apply (sorted_pairs_inj ","); [done..|]. rewrite !comma_targetKey_pairs in Hk.
  destruct (sorted_pairs a) as [|p la] eqn:Ea, (sorted_pairs b) as [|q lb] eqn:Eb; [done|..].
  - destruct q as [[|] v], lb; cbn in Hk; discriminate.
  - destruct p as [[|] v], la; cbn in Hk; discriminate.
  - rewrite <-!Join_pairs by done. by rewrite Hk.
Qed.

(** ** One current row for every environment *)

Section overview.
Context `{ext : External} `{pg : Postgres} `{codec : FeatureCodec} `{sc : Scan} (uuid_String : uuid → string).
Context (jsonb_total : ∀ x y, jsonb_leb x y = true ∨ jsonb_leb y x = true)
  (jsonb_trans : ∀ x y z, jsonb_leb x y = true → jsonb_leb y z = true → jsonb_leb x z = true)
  (uuid_plain : ∀ a, has_char ":" (uuid_String a) = false)
  (uuid_inj : ∀ a b, uuid_String a = uuid_String b → a = b).

Definition no_commas (w : world) : Prop :=
  ∀ a, a ∈ feature_assignments (w_feature w) → plain_labels "," (ar_Target a).

Lemma elem_of_keyed w name fas fa :
  featureenvs_ok w name fas → no_commas w → fa ∈ keyed fas ↔ fa ∈ fas.
Proof.
  intros Hok Hc. apply (elem_of_distinct_targets _ w name); [done|]. intros a b Ha Hb.
  apply comma_targetKey_inj; by apply Hc.
Qed.

Lemma listed_ids w name fas x y :
  featureenvs_ok w name fas → x ∈ fas → y ∈ fas → fa_ID x = fa_ID y → x = y.
Proof.
  intros Hok Hx Hy Hid. destruct (ok_wf _ _ _ Hok) as [Hdata _ Hids _ _ _ _ _ _ _ _].
  apply (elem_of_listed_row _ _ _ _ Hok) in Hx as (r & Hr & _ & _ & Hra).
  apply (elem_of_listed_row _ _ _ _ Hok) in Hy as (r' & Hr' & _ & _ & Hra').
  destruct (row_assignment_fields _ _ Hra) as (_ & _ & Hi). destruct (row_assignment_fields _ _ Hra') as (_ & _ & Hi').
  apply elem_of_all_rows in Hr as (Ha & Hd & Hn & Hv). apply elem_of_all_rows in Hr' as (Ha' & Hd' & Hn' & Hv').
  assert (la_assignment r = la_assignment r') as Heq by (apply (NoDup_fmap_inj_on _ _ _ _ Hids Ha Ha'); congruence).
  assert (la_data r = la_data r') as Hdeq.
  { apply (NoDup_fmap_inj_on _ _ _ _ Hdata Hd Hd'). by rewrite Hn, Hv, Hn', Hv', Heq. }
  assert (r = r') as -> by (destruct r, r'; cbn in *; by subst). congruence.
Qed.

Lemma keyed_ids w name fas : featureenvs_ok w name fas → NoDup (fa_ID <$> keyed fas).
Proof.
  intros Hok. apply NoDup_fmap_2_strong.
  - intros x y [Hx _]%elem_of_distinct_first [Hy _]%elem_of_distinct_first. by eapply listed_ids.
  - eapply NoDup_fmap_1, distinct_first_NoDup.
Qed.

(** A winner is one of the assignments and matches; without one nothing matches. *)
Lemma winner_matches w name l te :
  env_wf (w_env w) (w_next_uuid w) → (∀ fa, fa ∈ l → t_name fa = name) → te ∈ tenant_environments w →
  match winningAssignments l (tenant_environments w) !! te_ID te with
  | Some fa => fa ∈ matching (te_Labels te) l
  | None => ∀ fa, fa ∈ l → targetMatchesLabels (fa_TargetLabels fa) (te_Labels te) = false
  end.
Proof.
  intros Hwf Hn Hte. rewrite (winningAssignments_lookup name); [|done|by eapply tenant_environments_ids|done].
  pose proof (consider_fold (matching (te_Labels te) l) name) as Hc.
  destruct (foldl consider ∅ _ !! name) as [fa|]; [by destruct Hc|].
  intros fa Hfa. destruct (targetMatchesLabels _ _) eqn:E; [|done].
  exfalso. apply (Hc fa); [by apply list_elem_of_filter|by apply Hn].
Qed.

Lemma or_no_rows_run {A} (m : IO A) k w a w' : m w = (Ok a, w') → or_no_rows m k w = k a w'.
Proof. intros Hm. unfold or_no_rows, attempt, mbind, M_bind. by rewrite Hm. Qed.

(** The remaining reads of the page answer. *)
Lemma instructions_now w name :
  w_faults w = [] →
  (∃ m, LatestDeployedForFeature name w = (Ok m, w)) ∧ (∃ m, LatestDeployInstructionsForFeature name w = (Ok m, w)) ∧
  (∃ m, ReleaseStatusesForFeature name w = (Ok m, w)) ∧
  ListDisabledEnvironmentsForFeature name w = (Ok (list_to_map ((λ kv, (kv.1.1, kv.2)) <$>
     filter (λ kv, kv.1.2 = name) (map_to_list (disabled_features (w_feature w))))), w).
Proof.
  intros Hf. unfold LatestDeployedForFeature, LatestDeployInstructionsForFeature, ReleaseStatusesForFeature,
    ListDisabledEnvironmentsForFeature, ListLatestDeployedForFeature, ListLatestDeployInstructionsForFeature, mbind, M_bind.
  rewrite !query_now by done. split_and!; by try eexists.
Qed.

(** The rows, block by block, and what they are made from. *)
Lemma rows_run w feature fas statuses :
  w_faults w = [] → featureenvs_ok w (f_Name feature) fas → fas ≠ [] →
  AllReconcileStatuses w = (Ok statuses, w) →
  ∃ inp rss, featureAssignmentEnvStatuses uuid_String feature w = (Ok (concat rss), w) ∧
    Forall2 (block uuid_String w (f_Name feature) inp (tenant_environments w)) (keyed fas) rss ∧
    ri_winners inp = winningAssignments (keyed fas) (tenant_environments w) ∧
    ri_statuses inp = foldl (add_statuses uuid_String statuses) ∅ (keyed fas) ∧
    ∀ e, ri_disabled inp !! e = disabled_features (w_feature w) !! (e, f_Name feature).
Proof.
  intros Hf Hok Hne Hall. unfold featureAssignmentEnvStatuses.
  destruct (instructions_now w (f_Name feature) Hf) as ((deployed & Hd) & (instructions & Hi) & (releases & Hr) & Hdis).
  rewrite (or_no_rows_run _ _ _ _ _ (listed_now _ _ _ Hf Hok)). destruct fas as [|fa fas']; [done|].
  set (l := keyed _).
  rewrite (or_no_rows_run _ _ _ _ _ (all_tenant_environments w Hf)), (or_no_rows_run _ _ _ _ _ Hall),
    (or_no_rows_run _ _ _ _ _ Hdis), (or_no_rows_run _ _ _ _ _ Hd), (or_no_rows_run _ _ _ _ _ Hi),
    (or_no_rows_run _ _ _ _ _ Hr).
  match goal with |- context [assignment_rows _ _ ?i _] => set (inp := i) end.
  destruct (map_each_rel (block uuid_String w (f_Name feature) inp (tenant_environments w))
    (assignment_rows uuid_String (f_Name feature) inp (tenant_environments w)) l w) as (rss & Hrss & Hb).
  - intros x _. apply map_each_rel. intros env _.
    destruct (assignment_row_now uuid_String w (f_Name feature) inp x env Hf) as (row & Hrow & Hid & _ & _ & Hov & _).
    by exists row.
  - exists inp, rss. rewrite (bind_run _ _ _ _ _ Hrss). split_and!; [done..|]. intros e. apply disabled_lookup.
Qed.

(** A row about an environment comes from an assignment that matches it. *)
Lemma row_from w name inp envs l rss te row :
  Forall2 (block uuid_String w name inp envs) l rss → NoDup (te_ID <$> envs) → te ∈ envs →
  row ∈ concat rss → es_EnvironmentID row = uuid_String (te_ID te) →
  ∃ fa, fa ∈ matching (te_Labels te) l ∧ row_of uuid_String w name inp fa te row.
Proof.
  intros H2 Hnd Hte (rows & Hrow & (i & Hi)%list_elem_of_lookup)%elem_of_concat Hid.
  destruct (Forall2_lookup_r _ _ _ _ _ H2 Hi) as (fa & Hfa & Hb). exists fa.
  apply list_elem_of_lookup in Hrow as (j & Hj).
  destruct (Forall2_lookup_r _ _ _ _ _ Hb Hj) as (env & Henv & Hrow).
  apply list_elem_of_lookup_2, list_elem_of_filter in Henv as [Hm Henv].
  assert (env = te) as ->.
  { apply (NoDup_fmap_inj_on te_ID envs); [done..|]. apply uuid_inj. destruct Hrow as (_ & Hid' & _). congruence. }
  split; [|done]. apply list_elem_of_filter. split; [done|]. by eapply list_elem_of_lookup_2.
Qed.

(** What an overridden row says of the winner. *)
Lemma overridden_row w name inp fa te row :
  w_faults w = [] → row_of uuid_String w name inp fa te row → es_IsOverridden row = true →
  ∃ win, ri_winners inp !! te_ID te = Some win ∧ fa_ID win ≠ fa_ID fa ∧
    es_FeatureAssignmentID row = uuid_String (fa_ID fa) ∧ es_OverriddenByID row = uuid_String (fa_ID win) ∧
    es_OverriddenByVersion row = f_Version (fa_Feature win).
Proof.
  intros Hf (Hrow & _ & Hov) Ho. destruct (assignment_row_now uuid_String w name inp fa te Hf)
    as (row' & Hrow' & _ & Hid & _ & _ & Hbid & Hbv).
  rewrite Hrow in Hrow'. injection Hrow' as <-. rewrite Ho in Hov. symmetry in Hov. apply bool_decide_eq_true in Hov.
  unfold overriding in *. destruct (ri_winners inp !! te_ID te) as [win|]; [|by destruct Hov].
  case_bool_decide; [by destruct Hov|]. by exists win.
Qed.

(** C16.  Every environment has one current assignment: when no query fails and the feature's
    assignments can be read, [featureAssignmentEnvStatuses] has rows of which, for any
    environment, exactly one is not marked as overridden, and it shows the version, the
    status, the day and the reason that [LoadEnvironments] and the single reads show there;
    there is none when no assignment matches.  A row that is marked as overridden is of
    another assignment and names the one that wins.  The labels must be free of [=], [;] and
    commas and not empty, the assignments made at different instants, and the tables of
    current rows keyed by environment and feature, as they are. *)
Theorem overview_one_row w feature fas :
  w_faults w = [] → featureenvs_ok w (f_Name feature) fas → no_commas w → current_distinct w →
  ∃ rows, featureAssignmentEnvStatuses uuid_String feature w = (Ok rows, w) ∧
    ∀ te, te ∈ tenant_environments w →
      ∃ found, single_row uuid_String (f_Name feature) te w = (Ok found, w) ∧
        match found with
        | Some fe =>
            (∃ row, current_of uuid_String te rows = [row] ∧ shows row fe) ∧
            ∀ row, row ∈ rows → es_EnvironmentID row = uuid_String (te_ID te) →
              es_IsOverridden row = true → shows_winner row fe
        | None => filter (λ r, es_EnvironmentID r = uuid_String (te_ID te)) rows = []
        end.
Proof.
  intros Hf Hok Hc Hcur. destruct (statuses_read w Hf Hcur) as (statuses & Hall & Hone & Hnd).
  assert (Hte := tenant_environments_ids w _ (ok_env _ _ _ Hok)).
  destruct (decide (fas = [])) as [-> |Hne].
  { exists []. unfold featureAssignmentEnvStatuses. rewrite (or_no_rows_run _ _ _ _ _ (listed_now _ _ _ Hf Hok)).
    split; [done|]. intros te Hin. exists None. split; [|done]. by apply single_row_nothing. }
  destruct (rows_run w feature fas statuses Hf Hok Hne Hall) as (inp & rss & Hrun & Hb & Hwin & Hst & Hdis).
  exists (concat rss). split; [done|]. intros te Hin.
  assert (Hel : ∀ fa, fa ∈ keyed fas ↔ fa ∈ fas) by (intros fa; by eapply elem_of_keyed).
  destruct (row_agrees uuid_String jsonb_total jsonb_trans uuid_plain uuid_inj w (f_Name feature) fas (keyed fas)
    statuses (ri_disabled inp) te) as (found & Hfound & Hsingle); [done..|].
  exists found. split; [done|]. rewrite <-Hwin, <-Hst in Hfound.
  assert (Hm := winner_matches w (f_Name feature) (keyed fas) te (ok_env _ _ _ Hok)
    (λ fa H, listed_name _ _ _ _ Hok (proj1 (Hel fa) H)) Hin). rewrite <-Hwin in Hm.
  destruct (ri_winners inp !! te_ID te) as [win|] eqn:Ew.
  - apply list_elem_of_filter in Hm as [Hm Hk].
    destruct (current_winner uuid_String uuid_inj _ _ _ _ _ _ te win Hb Hte Hin (keyed_ids _ _ _ Hok) Ew Hk Hm)
      as (row & (Hrow & _) & Hcurrent).
    destruct (winner_row uuid_String w _ inp win te row Hf Ew Hrow) as (fe & Hfe & Hs).
    rewrite Hfe in Hfound. injection Hfound as <-. split; [by exists row|].
    intros row' Hr' Hid Ho. destruct (row_from _ _ _ _ _ _ _ _ Hb Hte Hin Hr' Hid) as (fa & Hfa & Hof).
    destruct (overridden_row _ _ _ _ _ _ Hf Hof Ho) as (win' & Hw' & Hne' & Hi & Hbi & Hbv).
    rewrite Ew in Hw'. injection Hw' as <-.
    destruct (assignment_row_now uuid_String w (f_Name feature) inp win te Hf) as (row2 & Hrow2 & _ & Hid2 & Hv2 & _).
    rewrite Hrow in Hrow2. injection Hrow2 as <-. destruct Hs as (Hs1 & Hs2 & _). unfold shows_winner.
    rewrite <-Hs1, <-Hs2, Hid2, Hv2, Hi. split_and!; [|done..]. by intros ?%uuid_inj.
  - unfold environment_row in Hfound. rewrite Ew in Hfound. injection Hfound as <-.
    destruct (filter _ (concat rss)) as [|row l'] eqn:E; [done|].
    assert (Hr : row ∈ row :: l') by left. rewrite <-E in Hr. apply list_elem_of_filter in Hr as [Hid Hr].
    destruct (row_from _ _ _ _ _ _ _ _ Hb Hte Hin Hr Hid) as (fa & [Hfm Hfa]%list_elem_of_filter & _).
    by rewrite Hm in Hfm.
Qed.
End overview.

(** ** Examples *)

Lemma overview_one_row_witness :
  ∃ f rows te row, f_Name f = "app" ∧
    featureAssignmentEnvStatuses (codec := example_codec) (sc := {| scan l := l |}) tally f example_deployed =
      (Ok rows, example_deployed) ∧
    current_of tally te rows = [row] ∧ es_StatusText row = "DEPLOYED".
Proof.
  destruct example_listed as [|fa l] eqn:E; [vm_compute in E; discriminate E|].
  assert (Hn : f_Name (fa_Feature fa) = "app") by (vm_compute in E; injection E as <- _; reflexivity).
  assert (Hok := example_featureenvs_ok). rewrite <-Hn in Hok at 1.
  destruct (overview_one_row (pg := example_pg) (codec := example_codec) (sc := {| scan l := l |}) tally
    (λ _ _, or_introl eq_refl) (λ _ _ _ _ _, eq_refl) tally_plain tally_inj example_deployed (fa_Feature fa)
    example_listed eq_refl Hok) as (rows & H1 & H2); [|exact example_current_distinct|].
  { intros a ->%list_elem_of_singleton k v.
    change (({[ "kind" := "tenant" ]} : Labels) !! k = Some v → plain_label "," k ∧ plain_label "," v).
    by intros [<- <-]%lookup_singleton_Some. }
  destruct (tenant_environments example_deployed) as [|te tes] eqn:Et; [vm_compute in Et; discriminate Et|].
  destruct (H2 te ltac:(left)) as (found & Hs & Hf). rewrite Hn in Hs.
  assert (Hte : te = hd te (tenant_environments example_deployed)) by (by rewrite Et). clear Et.
  rewrite Hte in Hs at 1. vm_compute in Hs. injection Hs as <-. destruct Hf as [(row & Hr & Hshow) _].
  exists (fa_Feature fa), rows, te, row. split; [exact Hn|]. split; [exact H1|]. split; [exact Hr|].
  destruct Hshow as (_ & _ & -> & _). reflexivity.
Defined.
