(* ===== verification/AssignmentCards.v ===== *)
(** * ui/pages/features/feature_assignments.go: the cards of a feature's assignments

    A card for every assignment, in the order of its first row: its rows, those that another
    assignment overrides last; how many environments are in each status; who created it; and
    the version said to take its place if it is removed.  The labels of all environments are
    what a new assignment can target. *)

From S2P Require Import Winning ConfigItems AuditTrail.
From S2P Require Export AssignmentRows View.

(** ** The cards *)

Definition fallbackVersionMap (envs : list AssignmentEnvStatus) : gmap string string :=
  foldl (λ fallbacks env,
    if es_IsOverridden env && negb (bool_decide (es_OverriddenByID env = ""))
    then <[es_OverriddenByID env := es_AssignmentVersion env]> fallbacks else fallbacks) ∅ envs.

Record card := {
  cd_Title : string; cd_LinkHref : string; cd_Labels : Labels; cd_FeatureAssignmentID : string;
  cd_Creator : string; cd_Description : string; cd_Environments : list AssignmentEnvStatus;
}.

Definition sort_order (a b : AssignmentEnvStatus) : bool :=
  if negb (eqb (es_IsOverridden a) (es_IsOverridden b)) then negb (es_IsOverridden a)
  else if negb (bool_decide (es_TenantName a = es_TenantName b)) then String.leb (es_TenantName a) (es_TenantName b)
  else String.leb (es_Name a) (es_Name b).

Definition sortEnvs : list AssignmentEnvStatus → list AssignmentEnvStatus := isort sort_order.

Definition new_card (featureName : string) (creators : gmap string string) (env : AssignmentEnvStatus) : card :=
  {| cd_Title := es_AssignmentVersion env;
     cd_LinkHref := "/features/" +:+ (featureName +:+ ("/assignments/" +:+ es_FeatureAssignmentID env));
     cd_Labels := es_TargetLabels env; cd_FeatureAssignmentID := es_FeatureAssignmentID env;
     cd_Creator := default "" (creators !! es_FeatureAssignmentID env);
     cd_Description := es_AssignmentDescription env; cd_Environments := [] |}.

Definition set_environments (f : list AssignmentEnvStatus → list AssignmentEnvStatus) (c : card) : card :=
  {| cd_Title := cd_Title c; cd_LinkHref := cd_LinkHref c; cd_Labels := cd_Labels c;
     cd_FeatureAssignmentID := cd_FeatureAssignmentID c; cd_Creator := cd_Creator c;
     cd_Description := cd_Description c; cd_Environments := f (cd_Environments c) |}.

Definition add_to_card (featureName : string) (creators : gmap string string)
    (s : gmap string card * list string) (env : AssignmentEnvStatus) : gmap string card * list string :=
  let '(groups, order) := s in
  let id := es_FeatureAssignmentID env in
  let '(c, order) := match groups !! id with
                     | Some c => (c, order)
                     | None => (new_card featureName creators env, order ++ [id])
                     end in
  (<[id := set_environments (.++ [env]) c]> groups, order).

Definition groupByAssignmentCards (envs : list AssignmentEnvStatus) (featureName : string)
    (creators : gmap string string) : list card :=
  let '(groups, order) := foldl (add_to_card featureName creators) (∅, []) envs in
  omap (λ id, set_environments sortEnvs <$> groups !! id) order.

(** ** What a card shows *)

Definition statusLabel (status : string) : outcome string :=
  if bool_decide (status = "MISSING-DEPS") then Ok "Missing deps"
  else if bool_decide (status = "MISSING-CONFIG") then Ok "Missing config"
  else if bool_decide (status = "RENDER-ERROR") then Ok "Render error"
  else match status with
       | EmptyString => Panic "slice bounds out of range"
       | String c rest => Ok (ToUpper (String c "") +:+ ToLower rest)
       end.

Definition count_statuses (envs : list AssignmentEnvStatus) : gmap string nat :=
  foldl (λ counts e, <[es_StatusText e := S (default 0%nat (counts !! es_StatusText e))]> counts) ∅ envs.

Definition summary_order : list string :=
  ["DEPLOYED"; "INSTALLING"; "SENT"; "PENDING"; "UNKNOWN"; "MISSING-DEPS"; "MISSING-CONFIG"; "RENDER-ERROR";
   "FAILED"; "UNHEALTHY"; "DISABLED"; "OVERRIDDEN"; "INACTIVE"].

Definition summary_statuses (counts : gmap string nat) : list string :=
  let statuses := filter (λ s, (0 < default 0 (counts !! s))%nat) summary_order in
  statuses ++ sort_strings (filter (λ s, s ∉ statuses) (map_to_list counts).*1).

(** The class of the dot and the text with the count. *)
Definition summary_item (counts : gmap string nat) (s : string) : outcome (string * (nat * string)) :=
  let! label := statusLabel s in Ok (StatusClass s, (default 0%nat (counts !! s), label)).

Definition assignmentStatusSummary (envs : list AssignmentEnvStatus) : outcome (list (string * (nat * string))) :=
  let counts := count_statuses envs in omapM (summary_item counts) (summary_statuses counts).

Definition formatLabels (labels : Labels) : string :=
  GoStd.Join ((λ k, k +:+ ("=" +:+ default "" (labels !! k))) <$> sort_strings (map_to_list labels).*1) ", ".

(** The title of the status cell; there is none when it is empty. *)
Definition statusTooltip (env : AssignmentEnvStatus) : string :=
  let running := if bool_decide (es_ReleaseVersion env = "") then "" else " — Running: " +:+ es_ReleaseVersion env in
  if es_IsOverridden env then
    let labels := formatLabels (es_OverriddenByLabels env) in
    GoStd.Join ((if bool_decide (es_OverriddenByVersion env = "") then "Overridden"
                 else "Overridden by " +:+ es_OverriddenByVersion env) ::
                (if bool_decide (labels = "") then [] else ["target: " +:+ labels])) " — "
  else if es_EnvReconcileDisabled env then "Environment reconcile disabled" +:+ running
  else if negb (es_Enabled env) then
    "Feature reconcile disabled" +:+
      ((if bool_decide (es_DisableReason env = "") then ": disabled before we started requiring reason"
        else ": " +:+ es_DisableReason env) +:+ running)
  else if bool_decide (es_StatusText env ∈ ["MISSING-DEPS"; "MISSING-CONFIG"; "RENDER-ERROR"; "FAILED"]) then ""
  else if negb (bool_decide (es_ReleaseVersion env = "")) &&
          negb (bool_decide (es_ReleaseVersion env = es_AssignmentVersion env))
  then "Currently: " +:+ es_ReleaseVersion env
  else if HasPrefix (es_StatusText env) "PENDING" && bool_decide (es_ReleaseVersion env = "")
  then "No release deployed yet"
  else "".

Definition hasDrift (env : AssignmentEnvStatus) : bool :=
  negb (bool_decide (es_ReleaseVersion env = "")) &&
  negb (bool_decide (es_ReleaseVersion env = es_AssignmentVersion env)).

(** What the dialog says before an assignment is removed. *)
Definition removal_text (fallbackVersion : string) : string :=
  if bool_decide (fallbackVersion = "")
  then "This will remove this assignment. It will no longer be reconciled."
  else "This will remove this assignment. Version " +:+ (fallbackVersion +:+ " will take its place.").

Definition assignmentVersionEmphasis (order : list (string * nat))
    (envs : list AssignmentEnvStatus) : list Emphasis :=
  ColumnConsensus order (es_AssignmentVersion <$> envs).

(** The description shown under the version, and the class of the card. *)
Definition shown_description (c : card) : option string :=
  let description := TrimSpace (cd_Description c) in
  if bool_decide (description = "") || bool_decide (description = "Set via UI") then None else Some description.

Definition row_class (c : card) : string :=
  "assignment-row" +:+ (if IsWorkflowActor (cd_Creator c) then "" else " assignment-non-workflow").

Section creators.
Context `{txt : PostgresText} (uuid_String : uuid → string) (uuid_Parse : string → outcome uuid).

(** The identifiers that parse, each once. *)
Definition assignment_ids (envs : list AssignmentEnvStatus) : list uuid :=
  foldl (λ ids env, match uuid_Parse (es_FeatureAssignmentID env) with
                    | Ok id => if bool_decide (id ∈ ids) then ids else ids ++ [id]
                    | _ => ids
                    end) [] envs.

Definition assignmentCreators (envs : list AssignmentEnvStatus) : IO (gmap string string) :=
  creators ← AssignmentCreators uuid_String uuid_Parse (assignment_ids envs);
  mret (list_to_map ((λ kv, (uuid_String kv.1, kv.2)) <$> map_to_list creators)).
End creators.

(** ** What can be targeted *)

Definition add_label (valuesByKey : gmap string (gset string)) (kv : string * string) : gmap string (gset string) :=
  <[kv.1 := {[kv.2]} ∪ default ∅ (valuesByKey !! kv.1)]> valuesByKey.

Definition loadAssignmentLabelOptions : IO (list (string * list string)) :=
  tenantEnvs ← ListTenantEnvironments false;
  let valuesByKey := foldl (λ m te, foldl add_label m (map_to_list (te_Labels te))) ∅ tenantEnvs in
  mret ((λ key, (key, sort_strings (elements (default ∅ (valuesByKey !! key))))) <$>
          sort_strings (map_to_list valuesByKey).*1).


(** ** A card for every assignment *)

Definition rows_about (id : string) (envs : list AssignmentEnvStatus) : list AssignmentEnvStatus :=
  filter (λ e, es_FeatureAssignmentID e = id) envs.

(** The groups partition the list. *)
Lemma group_perm {A} (key : A → string) (ids : list string) (l : list A) :
  NoDup ids → (∀ x, x ∈ l → key x ∈ ids) → concat ((λ i, filter (λ x, key x = i) l) <$> ids) ≡ₚ l.
Proof.
  intros Hnd. revert l. induction Hnd as [|i ids Hi Hnd IH]; intros l Hl.
  - destruct l as [|x l]; [done|]. by specialize (Hl x ltac:(left)) as ?%elem_of_nil.
  - rewrite fmap_cons. cbn [concat]. etrans; [|apply (filter_app_complement (λ x, key x = i) l)].
    apply Permutation_app_head. etrans; [|apply (IH (filter (λ x, ¬ key x = i) l))].
    + match goal with |- ?a ≡ₚ ?b => assert (a = b) as ->; [|done] end. f_equal. apply list_fmap_ext. intros n j Hj%list_elem_of_lookup_2.
      rewrite list_filter_filter. apply list_filter_iff. intros x. split; [|tauto].
      intros Hx. split; [done|]. intros Hx'. congruence.
    + intros x [Hx Hin]%list_elem_of_filter. apply Hl in Hin as [?|?]%elem_of_cons; congruence.
Qed.

Definition card_of (featureName : string) (creators : gmap string string) (envs : list AssignmentEnvStatus)
    (id : string) : option card :=
  match rows_about id envs with
  | [] => None
  | e :: _ => Some (set_environments (λ _, rows_about id envs) (new_card featureName creators e))
  end.

Lemma groups_of featureName creators envs :
  let s := foldl (add_to_card featureName creators) (∅, []) envs in
  (∀ id, s.1 !! id = card_of featureName creators envs id) ∧
  s.2 = distinct_first id [] (es_FeatureAssignmentID <$> envs).
Proof.
  induction envs as [|e envs [IH1 IH2]] using rev_ind; [by split|]. cbv zeta in *.
  rewrite foldl_app. cbn [foldl]. destruct (foldl _ _ envs) as [groups order]. cbn [fst snd] in *. subst order.
  unfold add_to_card. set (i := es_FeatureAssignmentID e). rewrite fmap_app.
  change (es_FeatureAssignmentID <$> [e]) with [i]. rewrite distinct_first_snoc.
  assert (Hof : ∀ id, rows_about id (envs ++ [e]) = rows_about id envs ++ (if decide (i = id) then [e] else [])).
  { intros id. unfold rows_about. by rewrite filter_app, filter_cons, filter_nil. }
  assert (Hin : i ∈ es_FeatureAssignmentID <$> envs ↔ rows_about i envs ≠ []).
  { rewrite list_elem_of_fmap. split.
    - intros (x & Hx & Hin) E. assert (Hx' : x ∈ rows_about i envs) by by apply list_elem_of_filter.
      rewrite E in Hx'. by apply elem_of_nil in Hx'.
    - intros Hne. destruct (rows_about i envs) as [|x l] eqn:E; [done|]. exists x.
      assert (Hx : x ∈ rows_about i envs) by (rewrite E; left). by apply list_elem_of_filter in Hx as [-> ?]. }
  rewrite list_fmap_id, (IH1 i). destruct (card_of featureName creators envs i) as [c|] eqn:Ec;
    unfold card_of in Ec; destruct (rows_about i envs) as [|x l] eqn:Er; try discriminate Ec; cbn [fst snd].
  - rewrite bool_decide_eq_true_2 by (right; by apply Hin). split; [|done]. intros id.
    destruct (decide (i = id)) as [<-|Hne].
    + rewrite lookup_insert_eq. injection Ec as <-. unfold card_of. rewrite Hof, Er, decide_True by done. done.
    + rewrite lookup_insert_ne, IH1 by done. unfold card_of. by rewrite Hof, decide_False, app_nil_r.
  - rewrite bool_decide_eq_false_2; [|by intros [?%elem_of_nil|?%Hin]]. cbn. split; [|done]. intros id.
    destruct (decide (i = id)) as [<-|Hne].
    + rewrite lookup_insert_eq. unfold card_of. rewrite Hof, Er, decide_True by done. done.
    + rewrite lookup_insert_ne, IH1 by done. unfold card_of. by rewrite Hof, decide_False, app_nil_r.
Qed.

Lemma omap_Forall2 {A B} (f : A → option B) l :
  (∀ x, x ∈ l → is_Some (f x)) → Forall2 (λ x y, f x = Some y) l (omap f l).
Proof.
  induction l as [|x l IH]; intros H; [constructor|]. destruct (H x ltac:(left)) as (y & Hy). cbn.
  rewrite Hy. constructor; [done|]. apply IH. intros z Hz. apply H. by right.
Qed.

(** Sorted, the rows that are overridden come last. *)
Definition overridden_last (a b : AssignmentEnvStatus) : Prop := es_IsOverridden a = true → es_IsOverridden b = true.

Lemma insert_overridden x l :
  StronglySorted overridden_last l → StronglySorted overridden_last (insert_by sort_order x l).
Proof.
  induction 1 as [|y l Hs IH Hy]; cbn [insert_by]; [by repeat constructor|].
  destruct (sort_order x y) eqn:E; constructor; [by constructor| |done|].
  - unfold sort_order in E. destruct (es_IsOverridden x) eqn:Ex; [|by apply Forall_true; intros z; unfold overridden_last; rewrite Ex].
    destruct (es_IsOverridden y) eqn:Ey; [|done]. constructor; [by intros _|].
    eapply Forall_impl; [exact Hy|]. intros z Hz _. by apply Hz.
  - rewrite insert_by_perm. constructor; [|done]. intros Ey. unfold sort_order in E. rewrite Ey in E.
    by destruct (es_IsOverridden x).
Qed.

Lemma sortEnvs_split l : ∃ current overridden, sortEnvs l = current ++ overridden ∧
  (∀ e, e ∈ current → es_IsOverridden e = false) ∧ (∀ e, e ∈ overridden → es_IsOverridden e = true).
Proof.
  assert (Hs : StronglySorted overridden_last (sortEnvs l)).
  { unfold sortEnvs. induction l as [|x l IH]; [constructor|]. by apply insert_overridden. }
  induction Hs as [|x k _ (cur & ov & -> & Hc & Ho) Hx]; [exists [], []; split_and!; [done|by intros ? ?%elem_of_nil..]|].
  destruct (es_IsOverridden x) eqn:E.
  - exists [], (x :: cur ++ ov). split_and!; [done|by intros ? ?%elem_of_nil|].
    intros e [-> |He]%elem_of_cons; [done|]. rewrite Forall_forall in Hx. by apply (Hx e).
  - exists (x :: cur), ov. split_and!; [done| |done]. by intros e [-> |He]%elem_of_cons; [|apply Hc].
Qed.

(** Every identifier has the card of its first row. *)
Lemma cards_of envs featureName creators :
  Forall2 (λ i c, ∃ e, head (rows_about i envs) = Some e ∧ es_FeatureAssignmentID e = i ∧
      c = set_environments (λ _, sortEnvs (rows_about i envs)) (new_card featureName creators e))
    (distinct_first id [] (es_FeatureAssignmentID <$> envs)) (groupByAssignmentCards envs featureName creators).
Proof.
  unfold groupByAssignmentCards. destruct (groups_of featureName creators envs) as [Hg Ho].
  destruct (foldl _ _ envs) as [groups order]. cbn [fst snd] in *. subst order.
  eapply Forall2_impl; [apply (omap_Forall2 (λ i, set_environments sortEnvs <$> groups !! i))|].
  - intros i [Hi _]%elem_of_distinct_first. rewrite Hg.
    apply list_elem_of_fmap in Hi as (e & -> & He). unfold card_of.
    destruct (rows_about _ envs) eqn:E; [|by eexists]. exfalso.
    assert (Hx : e ∈ rows_about (es_FeatureAssignmentID e) envs) by by apply list_elem_of_filter.
    rewrite E in Hx. by apply elem_of_nil in Hx.
  - intros i c. cbv beta. rewrite Hg. unfold card_of. destruct (rows_about i envs) as [|e l] eqn:E; [done|].
    cbn. intros [= <-]. assert (He : e ∈ rows_about i envs) by (rewrite E; left).
    apply list_elem_of_filter in He as [He _]. by exists e.
Qed.

Lemma card_found envs featureName creators c :
  c ∈ groupByAssignmentCards envs featureName creators →
  ∃ e, head (rows_about (cd_FeatureAssignmentID c) envs) = Some e ∧
    c = set_environments (λ _, sortEnvs (rows_about (cd_FeatureAssignmentID c) envs)) (new_card featureName creators e).
Proof.
  intros (n & Hn)%list_elem_of_lookup.
  destruct (Forall2_lookup_r _ _ _ _ _ (cards_of _ _ _) Hn) as (i & _ & e & He & Hi & ->).
  exists e. cbn. by rewrite Hi.
Qed.

(** The cards are the assignments of the rows, each once, in the order of their first
    rows; every row is on the card of its assignment, and on no other; and a card takes its
    title, target and description from its first row, shows who created the assignment, and
    has the rows another assignment overrides after the others. *)
Theorem groupByAssignmentCards_spec envs featureName creators :
  let cards := groupByAssignmentCards envs featureName creators in
  cd_FeatureAssignmentID <$> cards = distinct_first id [] (es_FeatureAssignmentID <$> envs) ∧
  concat (cd_Environments <$> cards) ≡ₚ envs ∧
  ∀ c, c ∈ cards →
    (∃ e, head (rows_about (cd_FeatureAssignmentID c) envs) = Some e ∧ cd_Title c = es_AssignmentVersion e ∧
       cd_Labels c = es_TargetLabels e ∧ cd_Description c = es_AssignmentDescription e) ∧
    cd_Creator c = default "" (creators !! cd_FeatureAssignmentID c) ∧
    cd_Environments c ≡ₚ rows_about (cd_FeatureAssignmentID c) envs ∧
    ∃ current overridden, cd_Environments c = current ++ overridden ∧
      (∀ e, e ∈ current → es_IsOverridden e = false) ∧ (∀ e, e ∈ overridden → es_IsOverridden e = true).
Proof.
  cbv zeta. pose proof (cards_of envs featureName creators) as H2. split_and!.
  - induction H2 as [|i c ids cs (e & _ & Hi & ->) H2 IH]; [done|]. by rewrite fmap_cons, IH, <-Hi.
  - etrans; [|apply (group_perm es_FeatureAssignmentID (distinct_first id [] (es_FeatureAssignmentID <$> envs)) envs)].
    + induction H2 as [|i c ids cs (e & _ & Hi & ->) H2 IH]; [done|]. rewrite !fmap_cons. cbn [concat].
      rewrite IH. f_equiv. apply isort_perm.
    + apply (NoDup_fmap_1 id), distinct_first_NoDup.
    + intros e He. rewrite <-(list_fmap_id (distinct_first _ _ _)). apply (distinct_first_key id); [|by apply not_elem_of_nil].
      rewrite list_fmap_id. by apply list_elem_of_fmap_2.
  - intros c (e & He & Heq)%card_found.
    destruct (sortEnvs_split (rows_about (cd_FeatureAssignmentID c) envs)) as (cur & ov & Hs & H).
    assert (Hid : cd_FeatureAssignmentID c = es_FeatureAssignmentID e) by (by rewrite Heq). split_and!.
    + exists e. split; [done|]. by rewrite Heq.
    + rewrite Heq at 1. cbn. by rewrite Hid.
    + rewrite Heq at 1. apply isort_perm.
    + exists cur, ov. split; [|done]. by rewrite Heq at 1.
Qed.

(** ** The summary of a card *)

Definition in_status (s : string) (envs : list AssignmentEnvStatus) : list AssignmentEnvStatus :=
  filter (λ e, es_StatusText e = s) envs.

Lemma count_statuses_lookup envs s :
  count_statuses envs !! s = if decide (in_status s envs = []) then None else Some (length (in_status s envs)).
Proof.
  unfold count_statuses. induction envs as [|e envs IH] using rev_ind; [by rewrite decide_True by done|].
  rewrite foldl_app. cbn [foldl]. unfold in_status. rewrite filter_app, filter_cons, filter_nil. fold (in_status s envs).
  destruct (decide (es_StatusText e = s)) as [Hs|Hs].
  - rewrite Hs, lookup_insert_eq, IH, length_app. rewrite (decide_False (P := _ ++ _ = []))
      by (by intros [_ ?]%app_nil).
    case_decide as E; [by rewrite E|]. cbn. f_equal. lia.
  - by rewrite lookup_insert_ne, IH, app_nil_r.
Qed.

Lemma count_default envs s : default 0%nat (count_statuses envs !! s) = length (in_status s envs).
Proof. rewrite count_statuses_lookup. case_decide as E; [by rewrite E|done]. Qed.

Lemma elem_of_in_status envs s : in_status s envs ≠ [] ↔ s ∈ es_StatusText <$> envs.
Proof.
  rewrite list_elem_of_fmap. split.
  - destruct (in_status s envs) as [|e l] eqn:E; [done|]. intros _. exists e.
    assert (He : e ∈ in_status s envs) by (rewrite E; left). by apply list_elem_of_filter in He as [-> ?].
  - intros (e & -> & He) E. assert (Hx : e ∈ in_status (es_StatusText e) envs) by by apply list_elem_of_filter.
    rewrite E in Hx. by apply elem_of_nil in Hx.
Qed.

(** The statuses of the summary are those of the environments, each once. *)
Lemma summary_statuses_once envs :
  NoDup (summary_statuses (count_statuses envs)) ∧
  ∀ s, s ∈ summary_statuses (count_statuses envs) ↔ s ∈ es_StatusText <$> envs.
Proof.
  unfold summary_statuses. set (known := filter _ summary_order).
  assert (Hkeys : ∀ s, s ∈ (map_to_list (count_statuses envs)).*1 ↔ s ∈ es_StatusText <$> envs).
  { intros s. rewrite <-elem_of_in_status, list_elem_of_fmap. split.
    - intros ([s' n] & -> & Hn%elem_of_map_to_list) E. cbn in *. rewrite count_statuses_lookup, E in Hn. by rewrite decide_True in Hn.
    - intros Hne. exists (s, length (in_status s envs)). split; [done|]. apply elem_of_map_to_list.
      by rewrite count_statuses_lookup, decide_False. }
  assert (Hknown : ∀ s, s ∈ known → s ∈ es_StatusText <$> envs).
  { intros s [Hs _]%list_elem_of_filter. rewrite count_default in Hs. apply elem_of_in_status. by intros E; rewrite E in Hs; inversion Hs. }
  split.
  - apply NoDup_app. split_and!.
    + apply NoDup_filter. apply (bool_decide_unpack _). vm_compute. exact I.
    + intros s Hs. rewrite elem_of_sort_strings, list_elem_of_filter. tauto.
    + unfold sort_strings. rewrite isort_perm. apply NoDup_filter, NoDup_fst_map_to_list.
  - intros s. rewrite elem_of_app, elem_of_sort_strings, list_elem_of_filter, Hkeys. split; [naive_solver|].
    intros Hs. destruct (decide (s ∈ known)); tauto.
Qed.

Lemma statusLabel_total s : s ≠ "" → ∃ l, statusLabel s = Ok l.
Proof. intros Hs. unfold statusLabel. repeat (case_bool_decide; [by eexists|]). destruct s; [done|by eexists]. Qed.

(** The summary counts every environment in one status, unless one has none. *)
Lemma summary_counts envs :
  (∀ e, e ∈ envs → es_StatusText e ≠ "") →
  ∃ items, assignmentStatusSummary envs = Ok items ∧ sum_list ((λ it, it.2.1) <$> items) = length envs ∧
    (0%nat ∉ (λ it, it.2.1) <$> items).
Proof.
  intros Hne. destruct (summary_statuses_once envs) as [Hnd Hel]. unfold assignmentStatusSummary.
  set (statuses := summary_statuses _) in *.
  destruct (omapM_total (summary_item (count_statuses envs)) statuses) as (items & Hi).
  { intros s Hs. apply Hel, list_elem_of_fmap in Hs as (e & -> & He).
    destruct (statusLabel_total _ (Hne e He)) as (l & Hl). unfold summary_item. rewrite Hl. by eexists. }
  exists items. split; [done|]. apply omapM_Forall2 in Hi.
  assert (Hc : (λ it, it.2.1) <$> items = (λ s, length (in_status s envs)) <$> statuses).
  { clear Hnd Hel. induction Hi as [|s it statuses items Hs Hi IH]; [done|]. rewrite !fmap_cons, IH. f_equal.
    unfold summary_item in Hs. destruct (statusLabel s); [|done..]. injection Hs as <-. apply count_default. }
  rewrite Hc. split.
  - assert (Hp : concat ((λ s, in_status s envs) <$> statuses) ≡ₚ envs).
    { apply group_perm; [done|]. intros e He. apply Hel. by apply list_elem_of_fmap_2. }
    rewrite <-(Permutation_length Hp). clear. induction statuses as [|s l IH]; [done|].
    rewrite !fmap_cons. cbn [concat sum_list foldr]. by rewrite length_app, <-IH.
  - intros (s & H0 & Hs)%list_elem_of_fmap. apply Hel, elem_of_in_status in Hs. symmetry in H0. by apply length_zero_iff_nil in H0.
Qed.

(** *** No row is without a status *)

Lemma NormalizeStatus_set s : NormalizeStatus s ≠ "".
Proof. unfold NormalizeStatus. case_bool_decide; [done|]. by destruct s. Qed.

Lemma or_no_rows_elem {A} (m : IO A) k w rows w' row :
  or_no_rows m k w = (Ok rows, w') → row ∈ rows → ∃ a w1 w2, k a w1 = (Ok rows, w2).
Proof.
  unfold or_no_rows. intros (r & w1 & _ & H)%bind_Ok Hr.
  destruct r as [a|e]; [by exists a, w1, w'|]. injection H as <- _. by apply elem_of_nil in Hr.
Qed.

Section summaries.
Context `{ext : External} `{pg : Postgres} `{codec : FeatureCodec} `{sc : Scan} (uuid_String : uuid → string).

Lemma assignment_row_status name inp fa env w row w' :
  assignment_row uuid_String name inp fa env w = (Ok row, w') → es_StatusText row ≠ "".
Proof.
  unfold assignment_row. intros (reason & w1 & _ & H)%bind_Ok. revert H.
  repeat match goal with
  | |- context [match ?x with Some _ => _ | None => _ end] => destruct x
  | |- context [if ?b then _ else _] => destruct b
  end; intros [= <- _]; by try apply NormalizeStatus_set.
Qed.

Lemma rows_status feature w rows w' row :
  featureAssignmentEnvStatuses uuid_String feature w = (Ok rows, w') → row ∈ rows → es_StatusText row ≠ "".
Proof.
  unfold featureAssignmentEnvStatuses. intros H Hr.
  apply (or_no_rows_elem _ _ _ _ _ _ H) in Hr as Hk. destruct Hk as (fas & w1 & w2 & Hk). clear H.
  destruct fas as [|fa fas]; [injection Hk as <- _; by apply elem_of_nil in Hr|].
  do 6 (apply (or_no_rows_elem _ _ _ _ _ _ Hk) in Hr as Hk'; clear w1 Hk; destruct Hk' as (? & w1 & ? & Hk)).
  apply bind_Ok in Hk as (rss & w3 & Hrss & [= <- _]). apply elem_of_concat in Hr as (rs & Hr & Hrs).
  destruct (map_each_elem _ _ _ _ _ _ Hrss Hrs) as (fa' & w4 & w5 & _ & Hf).
  destruct (map_each_elem _ _ _ _ _ _ Hf Hr) as (env & w6 & w7 & _ & Hrow). by eapply assignment_row_status.
Qed.

(** The page of a feature's assignments is rendered: whatever fails on the way, every card
    has a summary, and it counts each of the card's environments in one status. *)
Theorem page_summaries feature w rows w' featureName creators c :
  featureAssignmentEnvStatuses uuid_String feature w = (Ok rows, w') →
  c ∈ groupByAssignmentCards rows featureName creators →
  ∃ items, assignmentStatusSummary (cd_Environments c) = Ok items ∧
    sum_list ((λ it, it.2.1) <$> items) = length (cd_Environments c) ∧ 0%nat ∉ (λ it, it.2.1) <$> items.
Proof.
  intros H (e & _ & Heq)%card_found. apply summary_counts. intros x Hx.
  rewrite Heq in Hx. cbn in Hx. apply elem_of_isort, list_elem_of_filter in Hx as [_ Hx]. by eapply rows_status.
Qed.
End summaries.

(** ** The version that takes over *)

(** Of the rows an assignment overrides the last one decides. *)
Lemma fallbackVersionMap_last envs i :
  i ≠ "" →
  fallbackVersionMap envs !! i =
    last (es_AssignmentVersion <$> filter (λ e, es_IsOverridden e = true ∧ es_OverriddenByID e = i) envs).
Proof.
  intros Hi. unfold fallbackVersionMap. induction envs as [|e envs IH] using rev_ind; [done|].
  rewrite foldl_app. cbn [foldl]. rewrite filter_app, filter_cons, filter_nil, fmap_app.
  destruct (es_IsOverridden e) eqn:Eo; cbn [andb].
  - destruct (decide (es_OverriddenByID e = i)) as [<-|Hne].
    + rewrite bool_decide_eq_false_2 by done. cbn [negb]. rewrite lookup_insert_eq, decide_True by done.
      change (es_AssignmentVersion <$> [e]) with [es_AssignmentVersion e]. by rewrite last_snoc.
    + rewrite decide_False by tauto. rewrite app_nil_r, <-IH. case_bool_decide; cbn [negb]; [done|].
      by rewrite lookup_insert_ne.
  - rewrite decide_False by (by intros [? _]). by rewrite app_nil_r, IH.
Qed.

(** Three assignments of different precision match one environment. *)
Definition layer_data (version : string) : FeatureDatum :=
  {| fd_Name := "app"; fd_Version := version; fd_Chart := "oci://charts/app"; fd_Description := ""; fd_Source := "";
     fd_Kinds := ["tenant"]; fd_Dependencies := "[]"; fd_Values := "{}"; fd_DefaultValues := "{}"; fd_Timeout := 1000;
     fd_TplDetails := "{}" |}.

Definition layer (i : N) (version : string) (target : Labels) (created : time) : AssignmentRow :=
  {| ar_ID := i; ar_FeatureName := "app"; ar_Version := version; ar_Target := target; ar_Created := created;
     ar_GhRef := None; ar_Description := None; ar_Active := true |}.

Definition example_layers : world :=
  set_w_feature (λ d, {|
    feature_data := [layer_data "1.0.0"; layer_data "2.0.0"; layer_data "3.0.0"];
    feature_assignments := [layer 1 "1.0.0" ∅ 5; layer 2 "2.0.0" {[ "kind" := "tenant" ]} 6;
      layer 3 "3.0.0" {[ "kind" := "tenant"; "zone" := "a" ]} 7];
    configurations_global := configurations_global d; configurations_environment := configurations_environment d;
    disabled_features := disabled_features d |})
  (set_w_env (λ d, {| tenants := tenants d;
    environments := [{| er_ID := 7; er_TenantID := 3; er_Name := "dev"; er_Kind := EnvironmentKindTenant;
      er_Description := None; er_Reconcile := true; er_Labels := {[ "kind" := "tenant"; "zone" := "a" ]};
      er_OidcIssuer := None; er_OidcDiscoveryUrl := None |}];
    environment_values := environment_values d |}) example_world).

Definition example_app : Feature :=
  {| f_YAML := {| Dependencies := []; EnvironmentKinds := []; Timeout := 0; f_Values := ∅ |};
     f_Name := "app"; f_Chart := ""; f_Version := ""; f_Description := ""; f_Source := "";
     f_ValuesYAML := ∅; f_SpecVersion := ""; f_TplDetails := "" |}.

(** The dialog that removes the most specific one announces the least specific one, although
    the one in between takes its place. *)
Lemma fallback_not_next :
  match ListByFeature (codec := example_codec) "app" example_layers,
        featureAssignmentEnvStatuses (codec := example_codec) (sc := {| scan l := l |}) tally example_app example_layers with
  | (Ok fas, _), (Ok rows, _) =>
      fallbackVersionMap rows !! tally 3 = Some "1.0.0" ∧
      (λ fa, f_Version (fa_Feature fa)) <$>
        winningAssignments (filter (λ fa, fa_ID fa ≠ 3%N) fas) (tenant_environments example_layers) !! 7%N = Some "2.0.0"
  | _, _ => False
  end.
Proof. vm_compute. split; reflexivity. Qed.

(** ** Examples *)

Lemma page_summaries_witness :
  ∃ rows c items,
    featureAssignmentEnvStatuses (codec := example_codec) (sc := {| scan l := l |}) tally example_app example_layers =
      (Ok rows, example_layers) ∧
    c ∈ groupByAssignmentCards rows "app" ∅ ∧ assignmentStatusSummary (cd_Environments c) = Ok items ∧
    items = [("text-muted", (1%nat, "Unknown"))].
Proof.
  destruct (featureAssignmentEnvStatuses (codec := example_codec) (sc := {| scan l := l |}) tally example_app
    example_layers) as [o w'] eqn:E.
  destruct o as [rows|e|p]; [|vm_compute in E; discriminate E..].
  destruct (groupByAssignmentCards rows "app" ∅) as [|c cs] eqn:Ec.
  { vm_compute in E. injection E as <- _. vm_compute in Ec. discriminate Ec. }
  destruct (page_summaries (codec := example_codec) (sc := {| scan l := l |}) tally example_app example_layers rows w'
    "app" ∅ c E) as (items & Hi & _ & _); [rewrite Ec; left|].
  assert (Hc : c ∈ groupByAssignmentCards rows "app" ∅) by (rewrite Ec; left).
  exists rows, c, items. vm_compute in E. injection E as E1 E2. subst rows w'.
  split; [reflexivity|]. split; [exact Hc|]. split; [exact Hi|].
  vm_compute in Ec. injection Ec as <- _. vm_compute in Hi. injection Hi as <-. reflexivity.
Defined.
