(* ===== verification/Labels.v ===== *)
(** * internal/ui/pages/labels and assignments/preview.go: which environments a target matches

    The page of labels lists every label in use, filters the environments by those selected
    in the URL and links every value to the URL with that value toggled; the form for a new
    assignment previews the environments its target matches.  A URL's query is taken apart
    as net/url does. *)

From S2P Require Import Fetch FeatureEnvs AssignmentCards.
From S2P Require Export Http.
From S2P Require Import GoStd.

(** ** net/url: the values of a query *)

Definition hex_digit (c : ascii) : option N :=
  let n := N_of_ascii c in
  if ((48 <=? n) && (n <=? 57))%N then Some (n - 48)%N
  else if ((97 <=? n) && (n <=? 102))%N then Some (n - 87)%N
  else if ((65 <=? n) && (n <=? 70))%N then Some (n - 55)%N
  else None.

(** [url.QueryUnescape]; [None] is its error. *)
Fixpoint QueryUnescape (s : string) : option string :=
  match s with
  | EmptyString => Some ""
  | String c s' =>
      if bool_decide (c = "%"%char) then
        match s' with
        | String a (String b s'') =>
            x ← hex_digit a; y ← hex_digit b; t ← QueryUnescape s''; Some (String (ascii_of_N (16 * x + y)) t)
        | _ => None
        end
      else t ← QueryUnescape s'; Some (String (if bool_decide (c = "+"%char) then " "%char else c) t)
  end.

(** [url.QueryEscape] *)
Definition query_unreserved (c : ascii) : bool :=
  let n := N_of_ascii c in
  ((97 <=? n) && (n <=? 122) || (65 <=? n) && (n <=? 90) || (48 <=? n) && (n <=? 57))%N ||
  bool_decide (c ∈ ["-"; "_"; "."; "~"]%char).
Definition upper_hex (n : N) : ascii := ascii_of_N (if (n <? 10)%N then 48 + n else 55 + n)%N.
Definition escape_char (c : ascii) : string :=
  if bool_decide (c = " "%char) then "+"
  else if query_unreserved c then String c ""
  else let n := N_of_ascii c in String "%" (String (upper_hex (n / 16)) (String (upper_hex (n mod 16)) "")).
Fixpoint QueryEscape (s : string) : string :=
  match s with EmptyString => "" | String c s' => escape_char c +:+ QueryEscape s' end.

(** One parameter of the query; those that do not decode or hold a semicolon are dropped. *)
Definition query_param (p : string) : option (string * string) :=
  if has_char ";" p || bool_decide (p = "") then None
  else let '(key, value, _) := cut_char "=" p in
       k ← QueryUnescape key; v ← QueryUnescape value; Some (k, v).

(** [url.Query()[key]] *)
Definition query_values (key rawQuery : string) : list string :=
  omap (λ p, kv ← query_param p; if bool_decide (kv.1 = key) then Some kv.2 else None) (split_char "&" rawQuery).

(** What follows the question mark. *)
Definition query_of (href : string) : string := (cut_char "?" href).1.2.

Lemma escape_char_back c t : QueryUnescape (escape_char c +:+ t) = t' ← QueryUnescape t; Some (String c t').
Proof. by destruct c as [[] [] [] [] [] [] [] []]. Qed.

Lemma QueryEscape_roundtrip s : QueryUnescape (QueryEscape s) = Some s.
Proof.
  induction s as [|c s IH]; [done|]. cbn [QueryEscape]. by rewrite escape_char_back, IH.
Qed.

(** What is escaped has none of the bytes that separate parameters. *)
Lemma QueryEscape_clean d s : d ∈ ["&"; ";"; "="; "?"]%char → has_char d (QueryEscape s) = false.
Proof.
  intros Hd. induction s as [|c s IH]; [done|]. cbn [QueryEscape]. rewrite has_char_app, IH, orb_false_r.
  repeat (apply elem_of_cons in Hd as [->|Hd]; [by destruct c as [[] [] [] [] [] [] [] []]|]). by apply elem_of_nil in Hd.
Qed.

(** A single escaped parameter. *)
Lemma query_values_escaped key s :
  has_char "&" key = false → has_char ";" key = false → has_char "=" key = false → QueryUnescape key = Some key →
  query_values key (key +:+ ("=" +:+ QueryEscape s)) = [s].
Proof.
  intros H1 H2 H3 Hk. unfold query_values. change ("=" +:+ QueryEscape s) with (String "=" (QueryEscape s)).
  assert (Hc : ∀ d, d ∈ ["&"; ";"; "="; "?"]%char → has_char d (QueryEscape s) = false) by (intros; by apply QueryEscape_clean).
  rewrite split_char_none by (rewrite has_char_app, H1; apply (Hc "&"%char); by left).
  cbn [omap list_omap]. unfold query_param. rewrite has_char_app, H2. cbn [has_char orb].
  change (has_char ";" (String "=" ?x)) with (has_char ";" x).
  rewrite (Hc ";"%char) by (right; by left).
  rewrite (bool_decide_eq_false_2 (key +:+ String "=" (QueryEscape s) = "")) by by destruct key.
  rewrite cut_char_here by done. rewrite Hk, QueryEscape_roundtrip.
  change (bool_decide (";"%char = "="%char)) with false. cbn [orb mbind option_bind fst snd].
  by rewrite bool_decide_eq_true_2.
Qed.

(** ** The page of labels *)

Record labelEnvRow := { lr_Tenant : string; lr_Environment : string; lr_Labels : Labels }.
Record labelKeyInfo := { ki_Key : string; ki_Values : list string; ki_Count : nat }.

Definition label_row (te : TenantEnvironment) : labelEnvRow :=
  {| lr_Tenant := te_TenantName te; lr_Environment := te_Name te; lr_Labels := te_Labels te |}.

Definition all_labels (tenantEnvs : list TenantEnvironment) : gmap string (gset string) :=
  foldl (λ m te, foldl add_label m (map_to_list (te_Labels te))) ∅ tenantEnvs.

Definition row_before (a b : labelEnvRow) : bool :=
  if bool_decide (lr_Tenant a = lr_Tenant b) then String.leb (lr_Environment a) (lr_Environment b)
  else String.leb (lr_Tenant a) (lr_Tenant b).

Definition parseFilters (values : list string) : Labels :=
  foldl (λ filters lbl, let '(k, v, ok) := cut_char ":" lbl in if (ok : bool) then <[k := v]> filters else filters)
    ∅ values.

Definition buildLabelKeys (allLabels : gmap string (gset string)) (rows : list labelEnvRow) : list labelKeyInfo :=
  (λ k, {| ki_Key := k; ki_Values := sort_strings (elements (default ∅ (allLabels !! k)));
           ki_Count := length (filter (λ row, is_Some (lr_Labels row !! k)) rows) |}) <$>
    sort_strings (map_to_list allLabels).*1.

Definition matchesFilters (row : labelEnvRow) (filters : Labels) : bool :=
  forallb (λ kv, bool_decide (default "" (lr_Labels row !! kv.1) = kv.2)) (map_to_list filters).

(** [label=key:value], unescaped. *)
Definition filter_param (m : Labels) (k : string) : string :=
  "label=" +:+ (k +:+ (":" +:+ default "" (m !! k))).

Definition filterURL (current : Labels) (addKey addValue : string) : string :=
  let merged := <[addKey := addValue]> current in
  "/labels?" +:+ Join (filter_param merged <$> sort_strings (map_to_list merged).*1) "&".

Definition removeFilterURL (current : Labels) (removeKey : string) : string :=
  if bool_decide (size current <= 1)%nat then "/labels"
  else "/labels?" +:+ Join (filter_param current <$> filter (λ k, k ≠ removeKey) (sort_strings (map_to_list current).*1)) "&".

(** Whether a value is shown as selected, and where it links to. *)
Definition value_link (activeFilters : Labels) (key v : string) : bool * string :=
  if bool_decide (default "" (activeFilters !! key) = v) then (true, removeFilterURL activeFilters key)
  else (false, filterURL activeFilters key v).

(** The labels of a row, and which of them are filtered for. *)
Definition matched_tags (activeFilters : Labels) (row : labelEnvRow) : list (string * bool) :=
  (λ k, let v := default "" (lr_Labels row !! k) in
        (k +:+ (": " +:+ v), bool_decide (default "" (activeFilters !! k) = v))) <$>
    sort_strings (map_to_list (lr_Labels row)).*1.

Definition matchTitle (activeFilters : Labels) (shown total : nat) : string :=
  "Matched Environments (" +:+ (pretty shown +:+
    ((if bool_decide (0 < size activeFilters)%nat then " of " +:+ pretty total else "") +:+ ")")).

Definition targetDescription (filters : Labels) (matchCount : nat) : string :=
  if bool_decide (size filters = 0)%nat then "No filters active — targets all environments."
  else "JSON for " +:+ (pretty (size filters) +:+ (" selected label(s), matching " +:+ (pretty matchCount +:+ " environment(s)."))).

Record labels_page := {
  lp_keys : list (labelKeyInfo * list (string * (bool * string)));
  lp_total : nat; lp_target : string; lp_title : string; lp_description : string;
  lp_rows : list labelEnvRow; lp_tags : list (list (string * bool));
}.

Section labels.
(** json.MarshalIndent of a map of strings. *)
Context (json_MarshalIndent : Labels → string).

Definition targetJSON (filters : Labels) : string :=
  if bool_decide (size filters = 0)%nat then "{}" else json_MarshalIndent filters.

(** What the page shows: the keys with the links of their values, and the environments that
    match. *)
Definition labels_content (rows : list labelEnvRow) (labelKeys : list labelKeyInfo) (activeFilters : Labels) : labels_page :=
  let filteredRows := filter (λ row, matchesFilters row activeFilters = true) rows in
  {| lp_keys := (λ info, (info, (λ v, (v, value_link activeFilters (ki_Key info) v)) <$> ki_Values info)) <$> labelKeys;
     lp_total := length rows; lp_target := targetJSON activeFilters;
     lp_title := matchTitle activeFilters (length filteredRows) (length rows);
     lp_description := targetDescription activeFilters (length filteredRows);
     lp_rows := filteredRows; lp_tags := matched_tags activeFilters <$> filteredRows |}.

Definition labels_Handler (rawQuery : string) : page labels_page :=
  tenantEnvs ← or_respond (ListTenantEnvironments false)
    (λ _, http_error StatusInternalServerError "Failed to load environments");
  let rows := isort row_before (label_row <$> tenantEnvs) in
  mret (labels_content rows (buildLabelKeys (all_labels tenantEnvs) rows) (parseFilters (query_values "label" rawQuery))).
End labels.

(** ** The preview of a target *)

Definition matchesLabels (envLabels targetLabels : Labels) : bool :=
  bool_decide (size targetLabels = 0)%nat ||
  forallb (λ kv, bool_decide (default "" (envLabels !! kv.1) = kv.2)) (map_to_list targetLabels).

(** The decoded body, and the environments of the reply. *)
Definition PreviewTargetsHandler (decode : string → outcome Labels) (r : http_request) : page (list labelEnvRow) :=
  req ← or_respond (lift (decode (hr_body r))) (λ _, http_error StatusBadRequest "invalid JSON");
  tenantEnvs ← or_respond (ListTenantEnvironments false)
    (λ _, http_error StatusInternalServerError "failed to load environments");
  mret (label_row <$> filter (λ te, matchesLabels (te_Labels te) req = true) tenantEnvs).

(** ** What is shown is what is matched *)

Lemma matchesLabels_contain labels target : matchesLabels labels target = labelsContain labels target.
Proof.
  unfold matchesLabels, labelsContain. case_bool_decide as H; [|done].
  apply map_size_empty_inv in H as ->. by rewrite map_to_list_empty.
Qed.

Definition listed_envs (w : world) : list TenantEnvironment :=
  filter (λ e, negb false || te_Reconcile e = true) (tenant_environments w).

Lemma listed_envs_all w : listed_envs w = tenant_environments w.
Proof. unfold listed_envs. induction (tenant_environments w) as [|e l IH]; [done|]. rewrite filter_cons_True; [by f_equal|done]. Qed.

Lemma ListTenantEnvironments_now w :
  w_faults w = [] → ListTenantEnvironments false w = (Ok (tenant_environments w), w).
Proof. intros Hf. pose proof (listed_envs_all w) as H. unfold listed_envs in H. unfold ListTenantEnvironments. by rewrite query_now, H. Qed.

(** The environments whose labels a target matches. *)
Definition targeted (target : Labels) : list TenantEnvironment → list TenantEnvironment :=
  filter (λ te, labelsContain (te_Labels te) target = true).

Lemma matching_rows_perm target tes :
  filter (λ row, matchesFilters row target = true) (isort row_before (label_row <$> tes)) ≡ₚ label_row <$> targeted target tes.
Proof.
  rewrite isort_perm. unfold targeted. induction tes as [|te tes IH]; [done|].
  rewrite fmap_cons, !filter_cons. change (matchesFilters (label_row te) target) with (labelsContain (te_Labels te) target).
  destruct (decide _); rewrite ?fmap_cons; by rewrite IH.
Qed.

Definition env_label_row (e : environment) : labelEnvRow :=
  {| lr_Tenant := e_TenantName e; lr_Environment := e_Name e; lr_Labels := e_Labels e |}.

(** The environments of the snapshot that a target matches, and those that rest. *)
Lemma targeted_split target tes :
  label_row <$> targeted target tes ≡ₚ
    (env_label_row <$> filter (λ e, labelsContain (e_Labels e) target = true)
       (environment_of <$> filter (λ e, te_Reconcile e = true) tes)) ++
    (label_row <$> filter (λ te, te_Reconcile te = false) (targeted target tes)).
Proof.
  unfold targeted. induction tes as [|te tes IH]; [done|].
  rewrite !filter_cons. destruct (decide (labelsContain (te_Labels te) target = true)) as [Hm|Hm].
  - destruct (decide (te_Reconcile te = true)) as [Hr|Hr].
    + rewrite !fmap_cons, filter_cons_True, filter_cons_False by (cbn; congruence).
      rewrite fmap_cons. cbn [app]. by rewrite IH.
    + rewrite !filter_cons, decide_True by by destruct (te_Reconcile te). rewrite !fmap_cons, IH. apply Permutation_middle.
  - destruct (decide (te_Reconcile te = true)); [|by rewrite IH].
    rewrite fmap_cons, filter_cons_False by done. by rewrite IH.
Qed.

Section shown.
Context `{ext : External} `{pg : Postgres} `{codec : FeatureCodec}.
Context (json_MarshalIndent : Labels → string) (decode : string → outcome Labels).

Lemma labels_now rawQuery w :
  w_faults w = [] →
  let rows := isort row_before (label_row <$> tenant_environments w) in
  labels_Handler json_MarshalIndent rawQuery w =
    (Ok (inr (labels_content json_MarshalIndent rows (buildLabelKeys (all_labels (tenant_environments w)) rows)
       (parseFilters (query_values "label" rawQuery)))), w).
Proof.
  intros Hf. unfold labels_Handler. by rewrite (page_now _ _ _ _ _ (ListTenantEnvironments_now w Hf)).
Qed.

(** C17.  What the form previews and the page of labels lists is what is deployed to: both show
    the same environments for a target, and when no query fails these are, apart from
    environments that do not reconcile, exactly those of the next snapshot in which an
    assignment with this target takes part. *)
Theorem preview_is_matched r rawQuery aud w snap w1 a :
  w_faults w = [] → fetchSnapshot aud w = (Ok snap, w1) → a ∈ s_assignments snap →
  decode (hr_body r) = Ok (ra_TargetLabels a) → parseFilters (query_values "label" rawQuery) = ra_TargetLabels a →
  ∃ shown pg reached resting,
    PreviewTargetsHandler decode r w = (Ok (inr shown), w) ∧
    labels_Handler json_MarshalIndent rawQuery w = (Ok (inr pg), w) ∧ lp_rows pg ≡ₚ shown ∧
    shown ≡ₚ (env_label_row <$> reached) ++ (label_row <$> resting) ∧
    reached `sublist_of` s_environments snap ∧
    (∀ e, e ∈ s_environments snap → (e ∈ reached ↔ a ∈ matchAssignments (s_assignments snap) e)) ∧
    (∀ te, te ∈ resting → te_Reconcile te = false).
Proof.
  intros Hf Hs Ha Hd Hq. destruct (fetchSnapshot_parts _ _ _ _ Hs) as [_ He].
  eexists _, _, (filter (λ e, labelsContain (e_Labels e) (ra_TargetLabels a) = true) (s_environments snap)),
    (filter (λ te, te_Reconcile te = false) (targeted (ra_TargetLabels a) (tenant_environments w))). split_and!.
  - unfold PreviewTargetsHandler. erewrite page_now by by unfold lift; rewrite Hd.
    by rewrite (page_now _ _ _ _ _ (ListTenantEnvironments_now w Hf)).
  - by apply labels_now.
  - cbn [labels_content lp_rows]. rewrite Hq, matching_rows_perm.
    match goal with |- ?x ≡ₚ ?y => assert (x = y) as ->; [|done] end. unfold targeted. f_equal. apply list_filter_iff. intros te. by rewrite matchesLabels_contain.
  - rewrite He, <-targeted_split.
    match goal with |- ?x ≡ₚ ?y => assert (x = y) as ->; [|done] end. unfold targeted. f_equal. apply list_filter_iff. intros te. by rewrite matchesLabels_contain.
  - apply sublist_filter.
  - intros e Hin. unfold matchAssignments. rewrite !list_elem_of_filter. tauto.
  - intros te [Hr _]%list_elem_of_filter. done.
Qed.
End shown.

(** ** The list of labels *)

Lemma add_labels_lookup (l : list (string * string)) m k v :
  v ∈ default ∅ (foldl add_label m l !! k) ↔ v ∈ default ∅ (m !! k) ∨ (k, v) ∈ l.
Proof.
  revert m. induction l as [|[k' v'] l IH]; intros m; cbn [foldl]; [rewrite elem_of_nil; tauto|].
  rewrite IH, elem_of_cons. unfold add_label at 1. cbn [fst snd]. destruct (decide (k' = k)) as [->|Hne].
  - rewrite lookup_insert_eq. cbn [from_option id]. rewrite elem_of_union, elem_of_singleton. naive_solver.
  - rewrite lookup_insert_ne by done. naive_solver.
Qed.

Lemma add_labels_is_Some (l : list (string * string)) m k :
  is_Some (foldl add_label m l !! k) ↔ is_Some (m !! k) ∨ k ∈ l.*1.
Proof.
  revert m. induction l as [|[k' v'] l IH]; intros m; cbn [foldl]; [rewrite elem_of_nil; tauto|].
  rewrite IH, fmap_cons, elem_of_cons. unfold add_label at 1. cbn [fst snd]. destruct (decide (k' = k)) as [->|Hne].
  - rewrite lookup_insert_eq. naive_solver.
  - rewrite lookup_insert_ne by done. naive_solver.
Qed.

Lemma all_labels_value tes k v :
  v ∈ default ∅ (all_labels tes !! k) ↔ ∃ te, te ∈ tes ∧ te_Labels te !! k = Some v.
Proof.
  unfold all_labels. induction tes as [|te tes IH] using rev_ind; cbn [foldl].
  - rewrite lookup_empty. cbn. set_solver.
  - rewrite foldl_app. cbn [foldl]. rewrite add_labels_lookup, IH, elem_of_map_to_list.
    setoid_rewrite elem_of_app. setoid_rewrite list_elem_of_singleton. naive_solver.
Qed.

Lemma all_labels_key tes k : is_Some (all_labels tes !! k) ↔ ∃ te, te ∈ tes ∧ is_Some (te_Labels te !! k).
Proof.
  unfold all_labels. induction tes as [|te tes IH] using rev_ind; cbn [foldl].
  - rewrite lookup_empty, is_Some_alt. set_solver.
  - rewrite foldl_app. cbn [foldl]. rewrite add_labels_is_Some, IH, list_elem_of_fmap.
    setoid_rewrite elem_of_app. setoid_rewrite list_elem_of_singleton. split.
    + intros [(te' & ? & ?)|([k' v] & -> & Hkv%elem_of_map_to_list)]; [by exists te'; auto|].
      exists te. split; [by right|by exists v].
    + intros (te' & [?| ->] & [v Hv]); [by left; exists te'; split; [|exists v]|].
      right. exists (k, v). split; [done|]. by apply elem_of_map_to_list.
Qed.

Lemma sorted_strings (l : list string) : StronglySorted (λ a b, String.leb a b = true) (sort_strings l).
Proof. apply isort_sorted; [apply leb_total|apply leb_trans]. Qed.

(** Every label in use is listed once, with the values it has somewhere and the number of
    environments that have it, sorted; and the same labels and values are offered as the
    target of a new assignment. *)
Theorem label_keys_spec json_MarshalIndent rawQuery w :
  w_faults w = [] →
  let envs := tenant_environments w in
  ∃ pg, labels_Handler json_MarshalIndent rawQuery w = (Ok (inr pg), w) ∧
    let infos := (lp_keys pg).*1 in
    loadAssignmentLabelOptions w = (Ok ((λ i, (ki_Key i, ki_Values i)) <$> infos), w) ∧
    StronglySorted (λ a b, String.leb a b = true) (ki_Key <$> infos) ∧ NoDup (ki_Key <$> infos) ∧
    (∀ k, k ∈ ki_Key <$> infos ↔ ∃ te, te ∈ envs ∧ is_Some (te_Labels te !! k)) ∧
    ∀ i, i ∈ infos →
      StronglySorted (λ a b, String.leb a b = true) (ki_Values i) ∧ NoDup (ki_Values i) ∧
      (∀ v, v ∈ ki_Values i ↔ ∃ te, te ∈ envs ∧ te_Labels te !! ki_Key i = Some v) ∧
      ki_Count i = length (filter (λ te, is_Some (te_Labels te !! ki_Key i)) envs).
Proof.
  intros Hf envs. eexists. split; [by apply labels_now|]. cbv zeta. fold envs.
  set (m := all_labels envs). set (rows := isort row_before (label_row <$> envs)).
  assert (Hinfos : (lp_keys (labels_content json_MarshalIndent rows (buildLabelKeys m rows)
    (parseFilters (query_values "label" rawQuery)))).*1 = buildLabelKeys m rows).
  { cbn [labels_content lp_keys]. rewrite <-list_fmap_compose. by apply list_fmap_id. }
  rewrite Hinfos. clear Hinfos. unfold buildLabelKeys.
  rewrite <-!list_fmap_compose. cbn [compose ki_Key ki_Values].
  assert (Hid : ∀ g : string → labelKeyInfo, (∀ k, ki_Key (g k) = k) → ∀ ks : list string, (ki_Key ∘ g) <$> ks = ks).
  { intros g Hg ks. induction ks as [|k ks IH]; [done|]. rewrite fmap_cons, IH. by unfold compose; rewrite Hg. }
  rewrite Hid by done. split_and!.
  - unfold loadAssignmentLabelOptions. by rewrite (bind_run _ _ _ _ _ (ListTenantEnvironments_now w Hf)).
  - apply sorted_strings.
  - unfold sort_strings. rewrite isort_perm. apply NoDup_fst_map_to_list.
  - intros k. rewrite elem_of_sort_strings, <-all_labels_key, list_elem_of_fmap. fold m. split.
    + intros ([k' s] & -> & Hk%elem_of_map_to_list). by exists s.
    + intros [s Hs]. exists (k, s). split; [done|]. by apply elem_of_map_to_list.
  - intros i (k & -> & _)%list_elem_of_fmap. cbn [ki_Key ki_Values ki_Count]. split_and!.
    + apply sorted_strings.
    + unfold sort_strings. rewrite isort_perm. apply NoDup_elements.
    + intros v. rewrite elem_of_sort_strings, elem_of_elements. apply all_labels_value.
    + unfold rows. rewrite isort_perm. clear. induction envs as [|te envs IH]; [done|].
      rewrite fmap_cons, !filter_cons. change (lr_Labels (label_row te)) with (te_Labels te).
      destruct (decide _); cbn [length]; by rewrite IH.
Qed.

(** ** The links *)

(** Letters, digits and [-], [.], [_], [~], which URLs leave alone. *)
Definition unreserved (c : ascii) : bool :=
  let n := N_of_ascii c in
  (((48 <=? n) && (n <=? 57)) || ((65 <=? n) && (n <=? 90)) || ((97 <=? n) && (n <=? 122)) ||
   (n =? 45) || (n =? 46) || (n =? 95) || (n =? 126))%N.
Fixpoint plain_text (s : string) : bool :=
  match s with EmptyString => true | String c s' => unreserved c && plain_text s' end.
Definition plain_filters (m : Labels) : Prop := ∀ k v, m !! k = Some v → plain_text k = true ∧ plain_text v = true.

Lemma plain_text_char c s : unreserved c = false → plain_text s = true → has_char c s = false.
Proof.
  intros Hc. induction s as [|d s IH]; [done|]. cbn [plain_text has_char]. intros [Hd Hs]%andb_prop.
  rewrite IH, orb_false_r by done. apply bool_decide_eq_false_2. congruence.
Qed.

Lemma unescape_plain s : has_char "%" s = false → has_char "+" s = false → QueryUnescape s = Some s.
Proof.
  induction s as [|c s IH]; [done|]. cbn [has_char]. intros [Hp Hp']%orb_false_iff [Ha Ha']%orb_false_iff.
  apply bool_decide_eq_false in Hp, Ha. cbn [QueryUnescape]. rewrite !bool_decide_eq_false_2, IH by done. done.
Qed.

Lemma split_char_Join sep l :
  l ≠ [] → Forall (λ s, has_char sep s = false) l → split_char sep (Join l (String sep "")) = l.
Proof.
  intros Hne Hl. destruct l as [|x l]; [done|]. clear Hne. revert x Hl.
  induction l as [|y l IH]; intros x [Hx Hl]%Forall_cons.
  - rewrite Join_one. by apply split_char_none.
  - rewrite Join_cons. change (String sep "" +:+ ?s) with (String sep s). rewrite split_char_here by done. by rewrite IH.
Qed.

Section links.
Context (m : Labels) (Hm : plain_filters m).

Lemma plain_param k v :
  m !! k = Some v → has_char "&" (filter_param m k) = false ∧
    query_param (filter_param m k) = Some ("label", k +:+ String ":" v) ∧ has_char ":" k = false.
Proof.
  intros Hk. destruct (Hm _ _ Hk) as [Hpk Hpv].
  assert (Hchar : ∀ c, unreserved c = false → has_char c k = false ∧ has_char c v = false)
    by (intros c Hc; split; by apply plain_text_char).
  unfold filter_param. rewrite Hk. cbn [from_option id]. change (":" +:+ v) with (String ":" v).
  change ("label=" +:+ ?s) with ("label" +:+ String "=" s).
  assert (Hno : ∀ c, unreserved c = false → bool_decide (c = ":"%char) = false → has_char c (k +:+ String ":" v) = false).
  { intros c Hc Hcolon. rewrite has_char_app. cbn [has_char]. destruct (Hchar c Hc) as [-> ->]. by rewrite Hcolon. }
  split_and!.
  - rewrite has_char_app. cbn [has_char]. by rewrite Hno.
  - unfold query_param. rewrite has_char_app. cbn [has_char]. rewrite (Hno ";"%char) by done.
    rewrite bool_decide_eq_false_2 by done. cbn [orb bool_decide]. rewrite cut_char_here by done.
    cbn [QueryUnescape]. rewrite unescape_plain by by apply Hno. done.
  - by apply Hchar.
Qed.

Lemma params_values ks :
  ks ≠ [] → Forall (λ k, is_Some (m !! k)) ks →
  query_values "label" (Join (filter_param m <$> ks) "&") = (λ k, k +:+ String ":" (default "" (m !! k))) <$> ks.
Proof.
  intros Hne Hks. unfold query_values. rewrite split_char_Join.
  - induction Hks as [|k ks [v Hk] _ IH]; [done|]. rewrite fmap_cons. cbn [omap list_omap].
    destruct (plain_param k v Hk) as (_ & -> & _). cbn [mbind option_bind fst snd].
    rewrite bool_decide_eq_true_2, fmap_cons, Hk by done. cbn [from_option id]. f_equal.
    destruct ks; [done|]. by apply IH.
  - by destruct ks.
  - apply Forall_fmap. eapply Forall_impl; [exact Hks|]. intros k [v Hk]. by destruct (plain_param k v Hk).
Qed.

Lemma parse_params ks :
  Forall (λ k, is_Some (m !! k)) ks →
  parseFilters ((λ k, k +:+ String ":" (default "" (m !! k))) <$> ks) = filter (λ kv, kv.1 ∈ ks) m.
Proof.
  intros Hks. unfold parseFilters. apply map_eq. intros i. rewrite map_lookup_filter.
  induction ks as [|k ks IH] using rev_ind.
  { cbn. rewrite lookup_empty. destruct (m !! i); cbn; [|done]. rewrite option_guard_False; [done|]. apply not_elem_of_nil. }
  apply Forall_app in Hks as [Hks [[v Hk] _]%Forall_cons]. rewrite fmap_app, foldl_app. cbn [fmap list_fmap foldl].
  destruct (plain_param k v Hk) as (_ & _ & Hc). rewrite cut_char_here by done. rewrite Hk. cbn [from_option id].
  destruct (decide (k = i)) as [->|Hne].
  - rewrite lookup_insert_eq, Hk. cbn. rewrite option_guard_True; [done|]. apply elem_of_app. right. left.
  - rewrite lookup_insert_ne, IH by done. destruct (m !! i); cbn; [|done].
    destruct (decide (i ∈ ks)) as [Hi|Hi].
    + rewrite !option_guard_True; [done|apply elem_of_app; by left|done].
    + rewrite !option_guard_False; [done| |done]. rewrite elem_of_app, list_elem_of_singleton. naive_solver.
Qed.

Lemma filters_of_link ks :
  ks ≠ [] → Forall (λ k, is_Some (m !! k)) ks →
  parseFilters (query_values "label" (query_of ("/labels?" +:+ Join (filter_param m <$> ks) "&"))) = filter (λ kv, kv.1 ∈ ks) m.
Proof.
  intros Hne Hks. change ("/labels?" +:+ ?s) with ("/labels" +:+ String "?" s). unfold query_of.
  rewrite cut_char_here by done. cbn [fst snd]. by rewrite params_values, parse_params.
Qed.
End links.

Lemma keys_of_filters (m : Labels) : Forall (λ k, is_Some (m !! k)) (sort_strings (map_to_list m).*1).
Proof.
  apply Forall_forall. intros k. rewrite elem_of_sort_strings, list_elem_of_fmap.
  intros ([k' v] & -> & Hk%elem_of_map_to_list). by exists v.
Qed.

Lemma listed_key (m : Labels) k v : m !! k = Some v → k ∈ sort_strings (map_to_list m).*1.
Proof.
  intros Hk. rewrite elem_of_sort_strings, list_elem_of_fmap. exists (k, v). split; [done|].
  by apply elem_of_map_to_list.
Qed.

Lemma filter_keys (m : Labels) (P : string → Prop) `{∀ k, Decision (P k)} :
  filter (λ kv : string * string, kv.1 ∈ filter P (sort_strings (map_to_list m).*1)) m = filter (λ kv, P kv.1) m.
Proof.
  apply map_filter_ext. intros k v Hk. cbn. rewrite list_elem_of_filter.
  split; [tauto|]. intros Hp. split; [done|]. by eapply listed_key.
Qed.

Lemma size_one (m : Labels) k v : m !! k = Some v → (size m <= 1)%nat ↔ delete k m = ∅.
Proof.
  intros Hk. assert (Hs : size (delete k m) = pred (size m)) by (apply map_size_delete_Some; by exists v).
  split; intros H; [apply map_size_empty_inv; lia|]. rewrite H, map_size_empty in Hs.
  destruct (size m) as [|[|n]]; [lia..|done].
Qed.

Lemma remove_link m key v :
  plain_filters m → m !! key = Some v →
  parseFilters (query_values "label" (query_of (removeFilterURL m key))) = delete key m.
Proof.
  intros Hm Hin. unfold removeFilterURL. case_bool_decide as Hs.
  { apply (size_one _ _ _ Hin) in Hs. by rewrite Hs. }
  rewrite filters_of_link; [|done| |].
  - rewrite filter_keys. apply map_eq. intros i. rewrite map_lookup_filter.
    destruct (decide (i = key)) as [->|Hi].
    + rewrite lookup_delete_eq, Hin. cbn. by rewrite option_guard_False by tauto.
    + rewrite lookup_delete_ne by done. destruct (m !! i); cbn; [|done]. by rewrite option_guard_True.
  - intros Hnil. apply Hs, (size_one _ _ _ Hin), map_empty. intros i. apply lookup_delete_None.
    destruct (decide (key = i)) as [|Hi]; [by left|right]. destruct (m !! i) as [v'|] eqn:Ei; [|done].
    exfalso. apply (elem_of_nil (A := string) i). rewrite <-Hnil. apply list_elem_of_filter. split; [done|].
    by eapply listed_key.
  - apply Forall_forall. intros i [_ Hi]%list_elem_of_filter. revert i Hi. apply Forall_forall, keys_of_filters.
Qed.

Lemma add_link m key v :
  plain_filters (<[key := v]> m) →
  parseFilters (query_values "label" (query_of (filterURL m key v))) = <[key := v]> m.
Proof.
  intros Hm. unfold filterURL. rewrite filters_of_link; [|done| |apply keys_of_filters].
  - apply map_eq. intros i. rewrite map_lookup_filter. destruct (_ !! i) eqn:Ei; cbn; [|done].
    rewrite option_guard_True; [done|]. by eapply listed_key.
  - intros Hnil. apply (elem_of_nil (A := string) key). rewrite <-Hnil.
    eapply listed_key, lookup_insert_eq.
Qed.

(** The link of a value toggles it: followed, the page has the filters it had, without the
    value when it was selected, and with it, in place of another of the same label, when it
    was not.  For labels whose keys and values a URL leaves alone, and a value that is not
    empty. *)
Theorem value_link_toggles filters key v :
  plain_filters filters → plain_text key = true → plain_text v = true → v ≠ "" →
  parseFilters (query_values "label" (query_of (value_link filters key v).2)) =
    if bool_decide (filters !! key = Some v) then delete key filters else <[key := v]> filters.
Proof.
  intros Hm Hk Hv Hne. unfold value_link.
  assert (Hsel : bool_decide (default "" (filters !! key) = v) = bool_decide (filters !! key = Some v)).
  { apply bool_decide_ext. destruct (filters !! key); cbn; naive_solver. }
  rewrite Hsel. clear Hsel. case_bool_decide as Hin; cbn [snd].
  - by eapply remove_link.
  - apply add_link. intros k v' [[<- <-]|[_ H]]%lookup_insert_Some; [done|by apply (Hm k)].
Qed.

(** Of other texts the link may say something else: nothing is escaped. *)
Theorem value_link_unescaped :
  parseFilters (query_values "label" (query_of (filterURL ∅ "team" "r&d"))) = {[ "team" := "r" ]} ∧
  parseFilters (query_values "label" (query_of (filterURL ∅ "team" "a+b"))) = {[ "team" := "a b" ]}.
Proof. split; vm_compute; reflexivity. Qed.

(** An empty value counts as selected when nothing of its label is, and its link then clears
    the filter there is. *)
Theorem empty_value_clears :
  value_link {[ "kind" := "tenant" ]} "beta" "" = (true, "/labels").
Proof. vm_compute. reflexivity. Qed.

(** ** Examples *)

Definition example_filters : Labels := {[ "kind" := "tenant"; "zone" := "a" ]}.

Lemma value_link_toggles_witness :
  plain_filters example_filters ∧
  parseFilters (query_values "label" (query_of (value_link example_filters "zone" "b").2)) = {[ "kind" := "tenant"; "zone" := "b" ]}.
Proof.
  assert (Hp : plain_filters example_filters).
  { unfold plain_filters, example_filters. intros k v [[<- <-]|[_ [<- <-]%lookup_singleton_Some]]%lookup_insert_Some; by split. }
  split; [exact Hp|]. exact (value_link_toggles example_filters "zone" "b" Hp eq_refl eq_refl ltac:(discriminate)).
Defined.

Definition example_request (body : string) : http_request :=
  {| hr_valid_form := true; hr_form _ := []; hr_post_form _ := []; hr_param _ := ""; hr_header _ := "";
     hr_body := body |}.

Lemma preview_is_matched_witness :
  ∃ shown pg, PreviewTargetsHandler (λ _, Ok {[ "kind" := "tenant" ]}) (example_request "{}") example_world =
      (Ok (inr shown), example_world) ∧
    labels_Handler (λ _, "") "label=kind:tenant" example_world = (Ok (inr pg), example_world) ∧
    lp_rows pg ≡ₚ shown ∧ lr_Environment <$> shown = ["dev"].
Proof.
  destruct (fetchSnapshot (ext := echo) (pg := example_pg) (codec := example_codec) "" example_world)
    as [[snap|e|p] w'] eqn:E; [|vm_compute in E; discriminate E..].
  assert (∃ a, a ∈ s_assignments snap ∧ ra_TargetLabels a = {[ "kind" := "tenant" ]}) as (a & Ha & Ht).
  { destruct (s_assignments snap) as [|a l] eqn:El; [|exists a; split; [left|]]; vm_compute in E; injection E as <- <-;
      cbn in El; [discriminate El|]. by injection El as <- _. }
  destruct (preview_is_matched (ext := echo) (pg := example_pg) (codec := example_codec) (λ _, "")
    (λ _, Ok {[ "kind" := "tenant" ]}) (example_request "{}") "label=kind:tenant" "" example_world snap w' a
    eq_refl E Ha) as (shown & pg & reached & resting & H1 & H2 & H3 & _).
  - by rewrite Ht.
  - rewrite Ht. vm_compute. reflexivity.
  - exists shown, pg. split_and!; [exact H1|exact H2|exact H3|]. vm_compute in H1. injection H1 as <-. vm_compute. reflexivity.
Defined.
