(* ===== verification/UiData.v ===== *)
(** * internal/ui/uidata: the reads that only the web pages need

    The deploy instructions of an assignment with the names of their environments, the log
    lines the agents sent about an instruction, the versions of a feature, the features in
    use, and which features of an environment refer to a value of it.  The queries on the
    log order by time only, so the order of lines of one instant is up to PostgreSQL:
    [scan_logs] is the order in which it meets the rows.  The numbers of the log's rows,
    which go into the identifiers of the lines, are not in the model of the table. *)

From S2P Require Import Preview.
From S2P Require Export AssignmentStore Receiver.
From S2P Require Import GoStd.

Record UiDeployInstruction := {
  ui_ID : uuid; ui_EnvironmentID : uuid; ui_FeatureName : string; ui_FeatureVersion : string;
  ui_Status : string; ui_Hash : string; ui_Created : time; ui_LastModified : time;
  ui_FeatureAssignmentID : uuid; ui_EnvironmentName : string; ui_TenantName : string;
}.

Record UiLogLine := { ln_Timestamp : time; ln_Message : string; ln_DeployInstructionID : uuid }.

Record RolloutLog := { rl_ID : uuid; rl_TenantName : string; rl_Environment : string; rl_Lines : list UiLogLine }.

Record EnvironmentFeature := { ef_Name : string; ef_FeatureDisabled : bool }.
Record FeatureVersion := { fv_Version : string; fv_Description : string; fv_Source : string; fv_LastUpdated : time }.
Record FeatureSummary := { fs_Name : string; fs_Description : string; fs_Source : string }.

(** The order in which PostgreSQL meets the rows of the table [logs]. *)
Class LogScan := { scan_logs : list LogRow → list LogRow }.

(** ** Queries *)

(** [deploy_status] joined with the environments and their tenants. *)
Definition instruction_rows (w : world) : list (DeployRow * TenantEnvironment) :=
  concat ((λ r, (λ te, (r, te)) <$> filter (λ te, te_ID te = dl_EnvironmentID r) (tenant_environments w)) <$>
            deploy_status w).

Definition GetDeployInstructionByFeatureAssignmentAndEnvironmentID (faID envID : uuid)
    : IO (DeployRow * TenantEnvironment) :=
  query (λ w, single (filter (λ r, dl_FeatureAssignmentID r.1 = faID ∧ dl_EnvironmentID r.1 = envID)
    (instruction_rows w))).

Definition ListDeployInstructions_query (faID : uuid) : IO (list (DeployRow * TenantEnvironment)) :=
  query (λ w, Ok (isort (λ a b, (dl_Created b.1 <=? dl_Created a.1)%Z)
    (filter (λ r, dl_FeatureAssignmentID r.1 = faID) (instruction_rows w)))).

(** [ORDER BY time] *)
Definition log_time (a b : LogRow) : bool := (lg_Time a <=? lg_Time b)%Z.
Definition log_instruction (a b : LogRow) : bool := (lg_DeployInstruction a <=? lg_DeployInstruction b)%N.

Definition LogsByDeployInstruction `{LogScan} (id : uuid) : IO (list LogRow) :=
  query (λ w, Ok (isort log_time (filter (λ r, lg_DeployInstruction r = id) (scan_logs (logs (w_rec w)))))).

Definition LogsByDeployInstructions `{LogScan} (ids : list uuid) : IO (list LogRow) :=
  query (λ w, Ok (isort (then_by log_instruction log_time)
    (filter (λ r, lg_DeployInstruction r ∈ ids) (scan_logs (logs (w_rec w)))))).

(** [MAX(COALESCE(fa.created, '0001-01-01 00:00:00+00'))] over the left join: the zero time
    when nothing is assigned. *)
Definition last_updated (w : world) (d : FeatureDatum) : time :=
  match ar_Created <$> filter (λ a, ar_FeatureName a = fd_Name d ∧ ar_Version a = fd_Version d)
          (feature_assignments (w_feature w)) with
  | [] => time_zero
  | t :: l => foldl Z.max t l
  end.

(** [ORDER BY last_updated DESC, version DESC] *)
Definition FeatureVersions_query (featureName : string) : IO (list (FeatureDatum * time)) :=
  query (λ w, Ok (isort (then_by (λ a b, (b.2 <=? a.2)%Z) (λ a b, String.leb (fd_Version b.1) (fd_Version a.1)))
    ((λ d, (d, last_updated w d)) <$> filter (λ d, fd_Name d = featureName) (feature_data (w_feature w))))).

(** [DISTINCT ON (feature_name) .. ORDER BY feature_name, created DESC] of the active rows. *)
Definition ListActiveFeatures_query : IO (list LatestAssignmentRow) :=
  query (λ w, Ok (distinct_first (λ r, ar_FeatureName (la_assignment r)) []
    (isort (then_by (λ a b, String.leb (ar_FeatureName (la_assignment a)) (ar_FeatureName (la_assignment b))) created_desc)
      (filter (λ r, ar_Active (la_assignment r) = true) (all_rows w))))).

(** ** Reads *)

Section uidata.
Context `{pg : Postgres} `{codec : FeatureCodec} `{ls : LogScan}.

(** [encoding/json] on the details of a template: the keys under [Env], [Envs] and
    [Management]. *)
Context (unmarshal_details : string → outcome (list string * list string * list string)).

Definition ListEnvironmentFeatures (environmentID : uuid) : IO (list EnvironmentFeature) :=
  assignments ← ListForEnvironment environmentID;
  mret (isort (λ a b, String.leb (ef_Name a) (ef_Name b))
    ((λ a, {| ef_Name := f_Name (fa_Feature a); ef_FeatureDisabled := fa_FeatureDisabled a |}) <$> assignments)).

Definition ui_instruction (row : DeployRow * TenantEnvironment) : UiDeployInstruction :=
  {| ui_ID := dl_Diid row.1; ui_EnvironmentID := dl_EnvironmentID row.1; ui_FeatureName := dl_FeatureName row.1;
     ui_FeatureVersion := dl_FeatureVersion row.1; ui_Status := dl_Status row.1; ui_Hash := dl_Hash row.1;
     ui_Created := dl_Created row.1; ui_LastModified := dl_Created row.1;
     ui_FeatureAssignmentID := dl_FeatureAssignmentID row.1; ui_EnvironmentName := te_Name row.2;
     ui_TenantName := te_TenantName row.2 |}.

Definition ListDeployInstructions (featureAssignmentID : uuid) : IO (list UiDeployInstruction) :=
  rows ← ListDeployInstructions_query featureAssignmentID; mret (ui_instruction <$> rows).

Definition logLineFromSQL (log : LogRow) : UiLogLine :=
  {| ln_Timestamp := lg_Time log; ln_Message := lg_Message log; ln_DeployInstructionID := lg_DeployInstruction log |}.

Definition GetLogLines (deployInstructionID : uuid) : IO (list UiLogLine) :=
  logs ← LogsByDeployInstruction deployInstructionID; mret (logLineFromSQL <$> logs).

Definition add_line (out : gmap N (list UiLogLine)) (log : LogRow) : gmap N (list UiLogLine) :=
  <[lg_DeployInstruction log := default [] (out !! lg_DeployInstruction log) ++ [logLineFromSQL log]]> out.

Definition GetLogLinesForDeployInstructions (ids : list uuid) : IO (gmap N (list UiLogLine)) :=
  match ids with
  | [] => mret ∅
  | _ => logs ← LogsByDeployInstructions ids; mret (foldl add_line ∅ logs)
  end.

Definition GetFeatureLog (featureAssignmentID environmentID : uuid) : IO (option RolloutLog) :=
  found ← attempt (GetDeployInstructionByFeatureAssignmentAndEnvironmentID featureAssignmentID environmentID);
  match found with
  | inr e => if errors_is e ErrNoRows then mret None else fail (ErrWrap "get deploy instruction" e)
  | inl di =>
      lines ← wrapping "get logs" (GetLogLines (dl_Diid di.1));
      mret (Some {| rl_ID := dl_Diid di.1; rl_TenantName := te_TenantName di.2;
                    rl_Environment := te_Name di.2; rl_Lines := lines |})
  end.

(** The set of keys a feature refers to; details that do not decode are passed over. *)
Definition seen_keys (tplDetails : string) : option (gset string) :=
  if bool_decide (tplDetails = "") then None
  else match unmarshal_details tplDetails with
       | Ok (env, envs, management) => Some (list_to_set env ∪ list_to_set envs ∪ list_to_set management)
       | _ => None
       end.

Definition add_references (refSets : gmap string (gset string)) (dep : FeatureAssignment)
    : gmap string (gset string) :=
  match seen_keys (f_TplDetails (fa_Feature dep)) with
  | None => refSets
  | Some seen =>
      foldl (λ m key, <[key := {[f_Name (fa_Feature dep)]} ∪ default ∅ (m !! key)]> m) refSets (elements seen)
  end.

(** The names of a key come in the order of a [range] over a map. *)
Definition GetEnvironmentValueReferences (envID : uuid) : IO (gmap string (list string)) :=
  assignments ← wrapping "list feature assignments for environment" (ListForEnvironment envID);
  mret (elements <$> foldl add_references ∅ assignments).

Definition FeatureVersions (name : string) : IO (list FeatureVersion) :=
  rows ← wrapping ("list versions for " +:+ json_quote name) (FeatureVersions_query name);
  mret ((λ row, {| fv_Version := fd_Version row.1; fv_Description := fd_Description row.1;
                   fv_Source := fd_Source row.1; fv_LastUpdated := row.2 |}) <$> rows).

Definition ListActiveFeatures : IO (list FeatureSummary) :=
  rows ← ListActiveFeatures_query;
  mret ((λ r, {| fs_Name := fd_Name (la_data r); fs_Description := fd_Description (la_data r);
                 fs_Source := fd_Source (la_data r) |}) <$> rows).
End uidata.

(** ** Lines of the log, one instruction at a time or many *)

Definition lines_of (id : uuid) (l : list LogRow) : list LogRow := filter (λ r, lg_DeployInstruction r = id) l.

Lemma add_lines_lookup l id :
  foldl add_line ∅ l !! id = match lines_of id l with [] => None | k => Some (logLineFromSQL <$> k) end.
Proof.
  unfold lines_of. induction l as [|r l IH] using rev_ind; [done|].
  rewrite foldl_app. cbn [foldl]. rewrite filter_app, filter_cons, filter_nil. unfold add_line at 1.
  destruct (decide (lg_DeployInstruction r = id)) as [->|Hne].
  - rewrite lookup_insert_eq, IH. destruct (filter _ l) as [|x k]; [done|].
    change (Some ((logLineFromSQL <$> x :: k) ++ [logLineFromSQL r]) = Some (logLineFromSQL <$> (x :: k) ++ [r])). by rewrite fmap_app.
  - by rewrite lookup_insert_ne, IH, app_nil_r.
Qed.

Lemma log_time_total x y : log_time x y = true ∨ log_time y x = true.
Proof. unfold log_time. rewrite !Z.leb_le. lia. Qed.
Lemma log_time_trans x y z : log_time x y = true → log_time y z = true → log_time x z = true.
Proof. unfold log_time. rewrite !Z.leb_le. lia. Qed.
Lemma log_instruction_total x y : log_instruction x y = true ∨ log_instruction y x = true.
Proof. unfold log_instruction. rewrite !N.leb_le. lia. Qed.
Lemma log_instruction_trans x y z :
  log_instruction x y = true → log_instruction y z = true → log_instruction x z = true.
Proof. unfold log_instruction. rewrite !N.leb_le. lia. Qed.

Definition by_time (l : list UiLogLine) : Prop := StronglySorted (λ a b, (ln_Timestamp a <= ln_Timestamp b)%Z) l.

Lemma sorted_lines l :
  StronglySorted (λ a b, log_time a b = true) l → by_time (logLineFromSQL <$> l).
Proof.
  unfold by_time. induction 1 as [|x l Hs IH Hx]; [constructor|]. rewrite fmap_cons. constructor; [done|].
  apply Forall_fmap. eapply Forall_impl; [exact Hx|]. intros y Hy. by apply Z.leb_le in Hy.
Qed.

(** What the batch has about one instruction. *)
Lemma batch_lines id l :
  lines_of id (isort (then_by log_instruction log_time) l) = isort log_time (lines_of id l).
Proof.
  apply isort_then_by_filter; [apply log_instruction_total|apply log_instruction_trans|apply log_time_total
    |apply log_time_trans|]. intros x y _ _ Hx Hy. unfold log_instruction. rewrite Hx, Hy. apply N.leb_refl.
Qed.

(** The lines of an instruction read alone and read with those of others: the same lines,
    sorted by time, and in the same order unless two lines have one time. *)
Theorem GetLogLines_agree (one many : LogScan) w ids id :
  w_faults w = [] → (∀ l, @scan_logs one l ≡ₚ l) → (∀ l, @scan_logs many l ≡ₚ l) → id ∈ ids →
  ∃ lines m, GetLogLines (ls := one) id w = (Ok lines, w) ∧
    GetLogLinesForDeployInstructions (ls := many) ids w = (Ok m, w) ∧
    (m !! id = None ↔ lines = []) ∧ default [] (m !! id) ≡ₚ lines ∧ by_time lines ∧ by_time (default [] (m !! id)) ∧
    (NoDup (lg_Time <$> lines_of id (logs (w_rec w))) → default [] (m !! id) = lines).
Proof.
  intros Hf H1 H2 Hid. unfold GetLogLines, GetLogLinesForDeployInstructions, mbind, M_bind,
    LogsByDeployInstruction, LogsByDeployInstructions.
  destruct ids as [|i ids]; [by apply elem_of_nil in Hid|]. set (all := i :: ids) in *.
  rewrite !query_now by done. eexists _, _. split; [reflexivity|]. split; [reflexivity|].
  rewrite add_lines_lookup, batch_lines.
  set (l1 := @scan_logs one _). set (l2 := lines_of id (filter _ _)). fold (lines_of id l1).
  assert (Hp : lines_of id l1 ≡ₚ lines_of id (logs (w_rec w))) by (unfold lines_of, l1; by rewrite H1).
  assert (Hp2 : l2 ≡ₚ lines_of id (logs (w_rec w))).
  { unfold l2, lines_of. rewrite list_filter_filter, H2.
    match goal with |- ?a ≡ₚ ?b => assert (a = b) as ->; [|done] end. apply list_filter_iff. intros r.
    split; [tauto|]. by intros ->. }
  assert (Hm : default [] (match isort log_time l2 with [] => None | k => Some (logLineFromSQL <$> k) end) =
    logLineFromSQL <$> isort log_time l2) by by destruct (isort log_time l2).
  rewrite Hm. split_and!.
  - assert (Hl : length (isort log_time l2) = length (isort log_time (lines_of id l1)))
      by by rewrite !isort_perm, Hp, Hp2.
    by destruct (isort log_time l2), (isort log_time (lines_of id l1)).
  - by rewrite !isort_perm, Hp, Hp2.
  - apply sorted_lines, isort_sorted; [apply log_time_total|apply log_time_trans].
  - apply sorted_lines, isort_sorted; [apply log_time_total|apply log_time_trans].
  - intros Hnd. f_equal. apply (StronglySorted_unique_strong (λ a b, log_time a b = true)).
    + intros x y Hx%elem_of_isort Hy%elem_of_isort Hxy%Z.leb_le Hyx%Z.leb_le.
      rewrite Hp2 in Hx. rewrite Hp in Hy. eapply NoDup_fmap_inj_on; [exact Hnd|done..|lia].
    + apply isort_sorted; [apply log_time_total|apply log_time_trans].
    + apply isort_sorted; [apply log_time_total|apply log_time_trans].
    + by rewrite !isort_perm, Hp, Hp2.
Qed.

(** ** References *)

Section references.
Context `{pg : Postgres} `{codec : FeatureCodec}.
Context (unmarshal_details : string → outcome (list string * list string * list string)).

(** The assignment's feature refers to the key. *)
Definition refers (dep : FeatureAssignment) (key : string) : Prop :=
  ∃ seen, seen_keys unmarshal_details (f_TplDetails (fa_Feature dep)) = Some seen ∧ key ∈ seen.

Lemma add_keys_lookup name keys (m : gmap string (gset string)) key n :
  n ∈ default ∅ (foldl (λ m key, <[key := {[name]} ∪ default ∅ (m !! key)]> m) m keys !! key) ↔
    n ∈ default ∅ (m !! key) ∨ (key ∈ keys ∧ n = name).
Proof.
  induction keys as [|k keys IH] using rev_ind; [rewrite elem_of_nil; tauto|].
  rewrite foldl_app. cbn [foldl]. rewrite elem_of_app, list_elem_of_singleton. destruct (decide (k = key)) as [->|Hne].
  - rewrite lookup_insert_eq. cbn. rewrite elem_of_union, elem_of_singleton, IH. naive_solver.
  - rewrite lookup_insert_ne, IH by done. naive_solver.
Qed.

Lemma add_references_lookup deps key n :
  n ∈ default ∅ (foldl (add_references unmarshal_details) ∅ deps !! key) ↔
    ∃ dep, dep ∈ deps ∧ refers dep key ∧ n = f_Name (fa_Feature dep).
Proof.
  induction deps as [|d deps IH] using rev_ind.
  { split; [by intros ?%not_elem_of_empty|by intros (d & ?%elem_of_nil & _)]. }
  rewrite foldl_app. cbn [foldl]. setoid_rewrite elem_of_app. setoid_rewrite list_elem_of_singleton.
  unfold add_references at 1. unfold refers in *. destruct (seen_keys _ (f_TplDetails (fa_Feature d))) as [seen|] eqn:E.
  - rewrite add_keys_lookup, IH. setoid_rewrite elem_of_elements. split.
    + intros [(d' & Hd & Hr & ->)|[Hk ->]]; [by exists d'; split; [left|]|].
      exists d. split; [by right|]. split; [by exists seen|done].
    + intros (d' & [Hd| ->] & (s & Hs & Hk) & ->); [left; by exists d'; split_and!; [|exists s|]|].
      right. rewrite E in Hs. injection Hs as <-. done.
  - rewrite IH. split; [by intros (d' & Hd & Hr); exists d'; split; [left|]|].
    intros (d' & [Hd| ->] & Hr); [by exists d'|]. destruct Hr as [(s & Hs & _) _]. congruence.
Qed.

(** No key is listed without a name. *)
Lemma add_references_nonempty deps key : foldl (add_references unmarshal_details) ∅ deps !! key ≠ Some ∅.
Proof.
  revert key. induction deps as [|d deps IH] using rev_ind; intros key; [done|]. rewrite foldl_app. cbn [foldl].
  unfold add_references at 1. destruct (seen_keys _ _) as [seen|]; [|done].
  induction (elements seen) as [|k keys IHk] using rev_ind; [done|]. rewrite foldl_app. cbn [foldl].
  destruct (decide (k = key)) as [->|Hne]; [|by rewrite lookup_insert_ne].
  rewrite lookup_insert_eq. intros [= E]. set_solver.
Qed.

(** Which features refer to a value of an environment: those of its assignments whose
    template details name the key, each once; details that cannot be read count for
    nothing; and no key is listed without a feature. *)
Theorem GetEnvironmentValueReferences_spec envID w refs w' :
  GetEnvironmentValueReferences unmarshal_details envID w = (Ok refs, w') →
  ∃ deps, ListForEnvironment envID w = (Ok deps, w') ∧
    ∀ key, NoDup (default [] (refs !! key)) ∧
      (∀ n, n ∈ default [] (refs !! key) ↔ ∃ dep, dep ∈ deps ∧ refers dep key ∧ n = f_Name (fa_Feature dep)) ∧
      refs !! key ≠ Some [].
Proof.
  unfold GetEnvironmentValueReferences. intros (deps & w1 & Hd%wrapping_Ok & [= <- <-])%bind_Ok.
  exists deps. split; [done|]. intros key. rewrite lookup_fmap.
  assert (Hn := λ n, add_references_lookup deps key n). set (m := foldl _ ∅ deps) in *.
  assert (Hne : m !! key ≠ Some ∅).
  { apply add_references_nonempty. }
  destruct (m !! key) as [s|]; cbn in *; split_and!; try done.
  - apply NoDup_elements.
  - intros n. by rewrite elem_of_elements.
  - intros [= E]. apply elements_empty_inv in E. apply Hne. f_equal. by apply leibniz_equiv.
  - apply NoDup_nil_2.
  - intros n. rewrite elem_of_nil. rewrite <-Hn. set_solver.
Qed.
End references.

(** ** Versions *)

Lemma foldl_max l t : (∀ x, x = t ∨ x ∈ l → x <= foldl Z.max t l)%Z ∧ (foldl Z.max t l = t ∨ foldl Z.max t l ∈ l).
Proof.
  revert t. induction l as [|y l IH]; intros t; cbn [foldl].
  { split; [by intros x [-> |?%elem_of_nil]; [lia|]|by left]. }
  destruct (IH (Z.max t y)) as [H1 H2]. split.
  - intros x [-> |[-> |Hx]%elem_of_cons]; [|..]; first [specialize (H1 (Z.max t y) (or_introl eq_refl)); lia|apply H1; by right].
  - destruct H2 as [->|H2]; [|right; by right]. destruct (Z.max_spec t y) as [[_ ->]|[_ ->]]; [right; left|by left].
Qed.

Definition version_order : FeatureDatum * time → FeatureDatum * time → bool :=
  then_by (λ a b, (b.2 <=? a.2)%Z) (λ a b, String.leb (fd_Version b.1) (fd_Version a.1)).

(** The versions of a feature: each once, the most recently assigned first, with the instant
    of its last assignment, or the zero time when it was never assigned. *)
Theorem FeatureVersions_spec name w vs w' :
  FeatureVersions name w = (Ok vs, w') → NoDup ((λ d, (fd_Name d, fd_Version d)) <$> feature_data (w_feature w)) →
  (NoDup (fv_Version <$> vs) ∧
   ∀ v, v ∈ fv_Version <$> vs ↔ ∃ d, d ∈ feature_data (w_feature w) ∧ fd_Name d = name ∧ fd_Version d = v) ∧
  StronglySorted (λ a b, (fv_LastUpdated b <= fv_LastUpdated a)%Z) vs ∧
  ∀ v, v ∈ vs →
    let assigned a := a ∈ feature_assignments (w_feature w) ∧ ar_FeatureName a = name ∧ ar_Version a = fv_Version v in
    ((∀ a, ¬ assigned a) ∧ fv_LastUpdated v = time_zero) ∨
    ((∃ a, assigned a ∧ ar_Created a = fv_LastUpdated v) ∧ ∀ a, assigned a → (ar_Created a <= fv_LastUpdated v)%Z).
Proof.
  unfold FeatureVersions. intros (rows & w1 & Hq%wrapping_Ok & [= <- <-])%bind_Ok Hnd.
  pose proof (query_value _ _ _ _ Hq (λ _, eq_refl)) as Hv. 
injection Hv as <-. fold version_order.
  set (ds := filter (λ d, fd_Name d = name) _). set (row := λ d, (d, last_updated w d)).
  set (mk := λ row : FeatureDatum * time, _).
  assert (Hsort : StronglySorted (λ a b, version_order a b = true) (isort version_order (row <$> ds))).
  { apply isort_sorted.
    - apply then_by_total; [intros x y; rewrite !Z.leb_le; lia|intros x y; apply leb_total].
    - apply then_by_trans; intros x y z; [rewrite !Z.leb_le; lia|]. intros H1 H2. by eapply leb_trans. }
  assert (Hp : fv_Version <$> (mk <$> isort version_order (row <$> ds)) ≡ₚ fd_Version <$> ds).
  { rewrite isort_perm, <-!list_fmap_compose. done. }
  assert (Hin : ∀ v, v ∈ mk <$> isort version_order (row <$> ds) → ∃ d, d ∈ ds ∧ v = mk (row d)).
  { intros v (x & -> & Hx)%list_elem_of_fmap. apply elem_of_isort, list_elem_of_fmap in Hx as (d & -> & Hd). by exists d. }
  split_and!.
  - rewrite Hp. apply NoDup_fmap_2_strong.
    + intros x y [Hx Hx']%list_elem_of_filter [Hy Hy']%list_elem_of_filter Hxy.
      apply (NoDup_fmap_inj_on _ _ _ _ Hnd Hx' Hy'). congruence.
    + apply NoDup_filter. by eapply NoDup_fmap_1.
  - intros v. rewrite Hp, list_elem_of_fmap. split.
    + intros (d & -> & [Hn Hd]%list_elem_of_filter). by exists d.
    + intros (d & Hd & Hn & <-). exists d. split; [done|]. by apply list_elem_of_filter.
  - clear Hp Hin. induction Hsort as [|x l Hs IH Hx]; [constructor|]. rewrite fmap_cons. constructor; [done|].
    apply Forall_fmap. eapply Forall_impl; [exact Hx|]. intros y Hy%then_by_true. cbn. destruct Hy as [Hy _].
    by apply Z.leb_le in Hy.
  - intros v (d & [Hn Hd]%list_elem_of_filter & ->)%Hin. cbn. unfold last_updated.
    set (as_ := filter _ (feature_assignments _)).
    assert (Has : ∀ a, a ∈ as_ ↔ a ∈ feature_assignments (w_feature w) ∧ ar_FeatureName a = name ∧ ar_Version a = fd_Version d).
    { intros a. unfold as_. rewrite list_elem_of_filter, Hn. tauto. }
    setoid_rewrite <-Has. destruct as_ as [|a l]; [left; split; [by intros ? ?%elem_of_nil|done]|right]. cbn [fmap list_fmap].
    destruct (foldl_max (ar_Created <$> l) (ar_Created a)) as [H1 H2]. split.
    + destruct H2 as [H2|(b & H2 & Hb)%list_elem_of_fmap]; [exists a; by split; [left|]|exists b; by split; [right|]].
    + intros b [-> |Hb]%elem_of_cons; apply H1; [by left|right; by apply list_elem_of_fmap_2].
Qed.
