(* ===== verification/Listings.v ===== *)
(** * internal/ui/pages: the lists of assignments, environments and features, and the first page

    The list of assignments with the state of each in all its environments, searched by the
    words of the query; the environments with the health of their agents; the features in
    use; and the first page, with the recent deploys of every version.  The order of a
    [range] over a map of labels is a parameter, and so are the instants at which tenants
    were created, which only the order of the environments depends on. *)

From S2P Require Import UiData Environment TemplateFuncs FeatureEnvs.
From S2P Require Import Api AuditTrail View.
From S2P Require Import GoStd.

Definition InternalError (msg : string) : error → reply := λ _, http_error StatusInternalServerError msg.

(** A step that returns no error. *)
Definition always {A} (m : IO A) : page A := λ w,
  match m w with
  | (Ok a, w') => (Ok (inr a), w')
  | (Err e, w') => (Err e, w')
  | (Panic p, w') => (Panic p, w')
  end.

(** All terms occur in the text. *)
Definition matchesAll (text : string) (terms : list string) : bool := forallb (Contains text) terms.

(** The rows whose text has all words of the query. *)
Definition filtered_rows {A} (matches : string → list string → bool) (text : A → string) (query : string)
    (rows : list A) : list A :=
  if bool_decide (query = "") then rows
  else filter (λ row, matches (ToLower (text row)) (Fields query) = true) rows.

Section lists.
Context `{pg : Postgres} `{codec : FeatureCodec} `{txt : PostgresText}.
Context (uuid_String : uuid → string) (uuid_Parse : string → outcome uuid) (Format : time → string).
Context (range : Labels → list (string * string)).

(** ** Assignments (assignments.go, helpers.go) *)

Record Summary := {
  sm_FeatureName : string; sm_Chart : string; sm_Version : string; sm_Status : string; sm_Target : string;
  sm_Created : string; sm_Completed : string; sm_FeatureAssignmentID : string; sm_TargetLabels : Labels;
  sm_Creator : string; sm_Active : bool; sm_createdAt : time; sm_disabledCount : nat;
}.

(** [: ] becomes [:]. *)
Definition assignment_matches (text : string) (terms : list string) : bool :=
  matchesAll (TemplateFuncs.replace text ": " ":") terms.

Definition latestStatusTime (statuses : list FeatureReconcileStatus) : string :=
  let latest := foldl (λ latest s, if (latest <? frs_LastModified s)%Z then frs_LastModified s else latest)
                  time_zero statuses in
  if bool_decide (latest = time_zero) then "" else FormatTime Format latest.

Definition assignmentTarget (dep : FeatureAssignment) : string :=
  match range (fa_TargetLabels dep) with
  | [] => "All environments"
  | labels => Join ((λ l, l.1 +:+ ("=" +:+ l.2)) <$> labels) ", "
  end.

(** No labels are nil. *)
Definition assignmentTargetLabels (dep : FeatureAssignment) : Labels :=
  foldl (λ out l, <[l.1 := l.2]> out) ∅ (range (fa_TargetLabels dep)).

Definition assignment_state (statuses : list FeatureReconcileStatus) : string * nat :=
  Aggregate ((λ s, ToUpper (frs_State s)) <$> statuses).

Definition assignment_summary (statusesByID : gmap N (list FeatureReconcileStatus)) (creators : gmap N string)
    (fa : FeatureAssignment) : Summary :=
  let statuses := default [] (statusesByID !! fa_ID fa) in
  let '(state, disabledCount) := assignment_state statuses in
  {| sm_FeatureName := f_Name (fa_Feature fa); sm_Chart := f_Chart (fa_Feature fa);
     sm_Version := f_Version (fa_Feature fa); sm_Status := if fa_Active fa then state else "INACTIVE";
     sm_Target := assignmentTarget fa; sm_Created := FormatTime Format (fa_Created fa);
     sm_Completed := latestStatusTime statuses; sm_FeatureAssignmentID := uuid_String (fa_ID fa);
     sm_TargetLabels := assignmentTargetLabels fa; sm_Creator := default "" (creators !! fa_ID fa);
     sm_Active := fa_Active fa; sm_createdAt := fa_Created fa; sm_disabledCount := disabledCount |}.

(** Active ones first, then the newest. *)
Definition listed_before (a b : Summary) : bool :=
  if eqb (sm_Active a) (sm_Active b) then (sm_createdAt b <=? sm_createdAt a)%Z else sm_Active a.

Definition search_text (row : Summary) : string :=
  sm_FeatureName row +:+ (" " +:+ (sm_Target row +:+ (" " +:+ (sm_Version row +:+ (" " +:+
    (sm_Status row +:+ (" " +:+ sm_Creator row))))))).

(** The rows and the query the page shows. *)
Definition assignments_ListHandler (q : string) : page (list Summary * string) :=
  fas ← or_respond ListAll (InternalError "Failed to load assignments");
  statusesByID ← or_respond AllReconcileStatuses (InternalError "Failed to load assignment statuses");
  creators ← or_respond (AssignmentCreators uuid_String uuid_Parse (fa_ID <$> fas))
    (InternalError "Failed to load assignment creators");
  let rows := isort listed_before (assignment_summary statusesByID creators <$> fas) in
  let query := ToLower (TrimSpace q) in
  mret (filtered_rows assignment_matches search_text query rows, query).

(** A deployed assignment that is disabled somewhere has a warning instead, with a title. *)
Definition statusCell (s : Summary) : string * (option (string * string) * string) :=
  if bool_decide (sm_Status s = "DEPLOYED") && (0 <? sm_disabledCount s)%nat
  then ("Disabled in " +:+ (pretty (sm_disabledCount s) +:+ " environment(s)"),
        (Some ("status-success status-icon-inline", "⚠️"), " Deployed"))
  else ("", Status (sm_Status s)).

Definition targetPills (labels : Labels) : list string :=
  if bool_decide (size labels = 0)%nat then ["All environments"]
  else (λ k, k +:+ (": " +:+ default "" (labels !! k))) <$> sort_strings (range labels).*1.

(** The cells of a row: the class, feature and version with their links, the pills, the
    status, the creator. *)
Definition assignments_row (dep : Summary)
    : string * (string * string) * list string * (string * string) *
      (string * (option (string * string) * string)) * actor_node :=
  let feature := "/features/" +:+ sm_FeatureName dep in
  (if IsWorkflowActor (sm_Creator dep) then "" else "assignment-non-workflow",
   (feature, sm_FeatureName dep), targetPills (sm_TargetLabels dep),
   (feature +:+ ("/assignments/" +:+ sm_FeatureAssignmentID dep), sm_Version dep),
   statusCell dep, AssignmentCreatorNode (sm_Creator dep)).

(** ** Environments (environments.go) *)

Definition healthyThreshold : duration := 60 * Second.
Definition staleThreshold : duration := 5 * Minute.

Record envRow := { nv_TenantName : string; nv_EnvName : string; nv_Report : option time }.

Context (tenant_created : uuid → time).

Definition ListTenants : IO (list TenantRow) :=
  query (λ w, Ok (isort (then_by (λ a b, (tenant_created (t_ID b) <=? tenant_created (t_ID a))%Z)
                                 (λ a b, String.leb (t_Name a) (t_Name b))) (tenants (w_env w)))).

Definition Tenant_Environments (tenantID : uuid) : IO (list EnvironmentRow) :=
  query (λ w, Ok (isort (then_by management_first (λ a b, String.leb (er_Name a) (er_Name b)))
    (filter (λ e, er_TenantID e = tenantID) (environments (w_env w))))).

(** The start of the year 2000. *)
Definition year_2000 : time := 946684800 * Second.

(** A report before the year 2000, or none that can be read, is no report. *)
Definition env_row (tenant : TenantRow) (env : EnvironmentRow) : IO envRow :=
  health ← attempt (Health_Get (er_ID env));
  mret {| nv_TenantName := t_Name tenant; nv_EnvName := er_Name env;
          nv_Report := match health with
                       | inl t => if (year_2000 <=? t)%Z then Some t else None
                       | inr _ => None
                       end |}.

(** A tenant whose environments cannot be read is passed over. *)
Definition tenant_env_rows (tenant : TenantRow) : IO (list envRow) :=
  envs ← attempt (Tenant_Environments (t_ID tenant));
  match envs with inl envs => map_each (env_row tenant) envs | inr _ => mret [] end.

Definition buildRows (tenants : list TenantRow) : IO (list envRow) :=
  rows ← map_each tenant_env_rows tenants; mret (concat rows).

Definition env_text (row : envRow) : string := nv_TenantName row +:+ (" " +:+ nv_EnvName row).

Definition environments_Handler (q : string) : page (list envRow * string) :=
  tenants ← or_respond ListTenants (InternalError "Failed to load tenants");
  rows ← always (buildRows tenants);
  let query := ToLower (TrimSpace q) in
  mret (filtered_rows matchesAll env_text query rows, query).

Definition agentHealth (row : envRow) (now : time) : string * string :=
  match nv_Report row with
  | None => ("status-error", "no report")
  | Some reportedAt =>
      let age := time_since now reportedAt in
      if (age <? healthyThreshold)%Z then ("status-success", "healthy")
      else if (age <? staleThreshold)%Z then ("status-pending", "stale")
      else ("status-error", "dead")
  end.

Definition healthCell (row : envRow) (now : time) : string * string * string :=
  let '(class, label) := agentHealth row now in
  ("status-badge " +:+ class,
   match nv_Report row with None => "Never reported" | Some t => "Last reported: " +:+ FormatTime Format t end, label).

(** ** Features (features.go) *)

Definition feature_text (feature : FeatureSummary) : string :=
  Join [fs_Name feature; fs_Description feature; fs_Source feature] " ".

Definition featureIndexMatches (feature : FeatureSummary) (query : string) : bool :=
  match Fields (ToLower query) with
  | [] => true
  | terms => forallb (Contains (ToLower (feature_text feature))) terms
  end.

Definition features_IndexHandler (q : string) : page (list FeatureSummary * string) :=
  features ← or_respond ListActiveFeatures (InternalError "Failed to load features");
  let query := TrimSpace q in
  mret (isort (λ a b, String.leb (fs_Name a) (fs_Name b))
          (filter (λ feature, query = "" ∨ featureIndexMatches feature query = true) features), query).

(** ** The first page (features.go) *)

Record deployRow := {
  dr_FeatureName : string; dr_Version : string; dr_Total : nat; dr_Deployed : nat; dr_Failed : nat;
  dr_Pending : nat; dr_When : time; dr_Actor : string;
}.

(** json.Unmarshal into a struct with [assignmentId]: other types of value are an error. *)
Definition metadata_assignment_id (metadata : option gval) : string :=
  match metadata with
  | Some (VStrMap m) => default "" (m !! "assignmentId")
  | Some (VMap m) => match m !! "assignmentId" with Some (VStr id) => id | _ => "" end
  | _ => ""
  end.

Definition is_assignment_created (a : Entry) : bool :=
  bool_decide (en_ObjectType a = "assignment") && bool_decide (en_Action a = "created").

Definition add_actor (ret : gmap string string) (a : Entry) : gmap string string :=
  if negb (is_assignment_created a) then ret
  else let id := metadata_assignment_id (en_Metadata a) in
       if bool_decide (id = "") then ret else <[id := en_Actor a]> ret.

Definition assignmentActorsByID (audits : list Entry) : gmap string string := foldl add_actor ∅ audits.

Definition deploy_row (assignmentActors : gmap string string) (d : RecentDeploy) : deployRow :=
  {| dr_FeatureName := rd_FeatureName d; dr_Version := rd_FeatureVersion d; dr_Total := rd_Total d;
     dr_Deployed := rd_Deployed d; dr_Failed := rd_Failed d; dr_Pending := rd_Pending d;
     dr_When := rd_LastDeploy d;
     dr_Actor := default "" (assignmentActors !! uuid_String (rd_FeatureAssignmentID d)) |}.

(** The counts of the roll-up that are not zero. *)
Definition rollup_parts (r : deployRow) : list (nat * string) :=
  filter (λ p, 0 < p.1)%nat
    [(dr_Deployed r, "deployed"); (dr_Failed r, "failed"); (dr_Pending r, "pending");
     ((dr_Total r - dr_Deployed r - dr_Failed r - dr_Pending r)%nat, "unknown")].

(** Class, symbol and text. *)
Definition deployRollupStatus (r : deployRow) : string * string * string :=
  if (0 <? dr_Total r)%nat && (dr_Deployed r =? dr_Total r)%nat then ("status-success", "✓", " Deployed")
  else let '(class, icon) := if (0 <? dr_Failed r)%nat then ("status-error", "✗") else ("status-pending", "⏳") in
       (class, icon, " " +:+ Join ((λ p, pretty p.1 +:+ (" " +:+ p.2)) <$> rollup_parts r) ", ").

(** The first ten entries that are not about a new assignment. *)
Definition recentActivity (audits : list Entry) : list Entry :=
  take 10 (filter (λ a, is_assignment_created a = false) audits).

(** A failing read shows nothing. *)
Definition or_nothing {A} (m : IO (list A)) : IO (list A) :=
  r ← attempt m; mret (match r with inl l => l | inr _ => [] end).

Definition features_ListHandler : IO (list deployRow * list Entry) :=
  deploys ← or_nothing (ListRecentDeploys 10);
  audits ← or_nothing (ListRecent 200);
  mret (deploy_row (assignmentActorsByID audits) <$> deploys, recentActivity audits).

(** A row: the feature, the version, the status, the actor, when, and the link to the run. *)
Definition recent_row (now : time) (r : deployRow)
    : (string * string) * string * (string * string * string) * string * (string * string) * string :=
  (("/features/" +:+ dr_FeatureName r, dr_FeatureName r), dr_Version r, deployRollupStatus r, ActorName (dr_Actor r),
   (FormatTime Format (dr_When r), RelativeTime Format now (dr_When r)), ActorWorkflowURL (dr_Actor r)).
End lists.

(** ** The state of an assignment *)

Lemma NormalizeStatus_upper s : ToUpper (NormalizeStatus s) = NormalizeStatus s.
Proof. unfold NormalizeStatus. case_bool_decide; [done|apply ToUpper_idem]. Qed.

Lemma joined_upper faID decisions deploys s :
  s ∈ joinReconcileSignals faID decisions deploys → ToUpper (frs_State s) = frs_State s.
Proof.
  unfold joinReconcileSignals. intros (envID & -> & _)%list_elem_of_fmap. unfold env_status.
  destruct (deriveState _ _) as [state src]. apply NormalizeStatus_upper.
Qed.

Lemma ReconcileStatuses_upper fa w l w' :
  ReconcileStatuses fa w = (Ok l, w') → (λ s, ToUpper (frs_State s)) <$> l = frs_State <$> l.
Proof.
  unfold ReconcileStatuses. intros H. apply bind_Ok in H as (decs & w1 & _ & H).
  apply bind_Ok in H as (deps & w2 & _ & H). injection H as <- _.
  apply list_fmap_ext. intros i s Hs%list_elem_of_lookup_2. by eapply joined_upper.
Qed.

Section lists_facts.
Context `{ext : External} `{pg : Postgres} `{codec : FeatureCodec} `{txt : PostgresText} `{api : ApiCodec}
  `{json : FormJson} `{enc : FeatureEncoder} `{tpl : TemplateParse}.
Context (uuid_String : uuid → string) (uuid_Parse : string → outcome uuid) (Format : time → string).
Context (range : Labels → list (string * string)).
Context (uuid_back : ∀ id, uuid_Parse (uuid_String id) = Ok id).

(** The creators of all assignments can be read. *)
Lemma AssignmentCreators_now ids w :
  w_faults w = [] → ∃ creators, AssignmentCreators uuid_String uuid_Parse ids w = (Ok creators, w).
Proof.
  intros Hf. unfold AssignmentCreators, ListAssignmentCreators, wrapping, lift, mbind, M_bind.
  rewrite query_now by done. cbn [wrap]. set (rows := fst <$> _).
  assert (Hrows : ∀ row, row ∈ rows → ∃ id, row.1 = uuid_String id).
  { intros row ([[id actor] t] & -> & Hr)%list_elem_of_fmap. apply elem_of_distinct_first in Hr as [Hr _].
    apply elem_of_isort, list_elem_of_omap in Hr as (a & _ & Ha). unfold created_of in Ha.
    destruct (_ && _); [|done]. destruct (jsonb_get_text _ _) as [id'|]; [|done]. cbn in Ha.
    destruct (bool_decide_reflect (id' ∈ uuid_String <$> ids)) as [Hin|]; [|done]. injection Ha as <- _ _.
    apply list_elem_of_fmap in Hin as (x & -> & _). by exists x. }
  clearbody rows. generalize (∅ : gmap N string) as acc. revert Hrows.
  induction rows as [|row rows IH]; intros Hrows acc; [by eexists|]. cbn [ofold].
  destruct (Hrows row) as [id Hid]; [left|]. cbv beta. rewrite Hid, uuid_back. cbn [wrap obind].
  apply IH. intros r Hr. apply Hrows. by right.
Qed.

Lemma listed_before_total a b : listed_before a b = true ∨ listed_before b a = true.
Proof. unfold listed_before. destruct (sm_Active a), (sm_Active b); cbn; rewrite ?Z.leb_le; [lia|auto..|lia]. Qed.
Lemma listed_before_trans a b c : listed_before a b = true → listed_before b c = true → listed_before a c = true.
Proof.
  unfold listed_before. destruct (sm_Active a), (sm_Active b), (sm_Active c); cbn; rewrite ?Z.leb_le; try done; lia.
Qed.

Lemma assignments_run w fas statuses creators q :
  ListAll w = (Ok fas, w) → AllReconcileStatuses w = (Ok statuses, w) →
  AssignmentCreators uuid_String uuid_Parse (fa_ID <$> fas) w = (Ok creators, w) →
  assignments_ListHandler uuid_String uuid_Parse Format range q w =
    (Ok (inr (filtered_rows assignment_matches search_text (ToLower (TrimSpace q))
       (isort listed_before (assignment_summary uuid_String Format range statuses creators <$> fas)), ToLower (TrimSpace q))), w).
Proof.
  intros H1 H2 H3. unfold assignments_ListHandler.
  rewrite (page_now _ _ _ _ _ H1), (page_now _ _ _ _ _ H2), (page_now _ _ _ _ _ H3). done.
Qed.

(** What the API reports of an assignment. *)
Lemma api_state w r allow id state w' statuses :
  w_faults w = [] → ReconcileStatuses id w = (Ok statuses, w) →
  Api_GetFeatureAssignment uuid_Parse allow r w = (Ok (inr (id, state)), w') →
  state = (Aggregate (frs_State <$> statuses)).1.
Proof.
  intros Hf Hs H. unfold Api_GetFeatureAssignment in H.
  apply page_bind_inr in H as (u & w1 & Ht & H). apply validateToken_now in Ht as ->; [|done].
  apply page_bind_inr in H as (id' & w2 & Hid & H). apply or_respond_inr in Hid. injection Hid as Hid <-.
  apply page_bind_inr in H as (row & w3 & Hrow & H). apply or_respond_inr in Hrow.
  assert (w3 = w) as -> by (unfold GetFeatureAssignment_query in Hrow; rewrite query_now in Hrow by done; by injection Hrow).
  apply page_bind_inr in H as (sts & w4 & Hst & H). apply or_respond_inr in Hst. injection H as <- <- _.
  unfold attempt in Hst. rewrite Hs in Hst. by injection Hst as <- _.
Qed.

(** C28.  The list of assignments and the API agree: when no query fails and the assignments
    can be read, the list has a row for each, active ones first and then the newest, whose
    status is [INACTIVE] for one that was replaced and otherwise the state the API reports to
    whoever asks about the assignment; and a search keeps, in that order, the rows in whose
    text every word of the query occurs.  The tables of current rows are keyed by environment
    and feature. *)
Theorem assignments_list_agrees w fas q :
  w_faults w = [] → ListAll w = (Ok fas, w) → current_distinct w →
  ∃ all shown query,
    assignments_ListHandler uuid_String uuid_Parse Format range "" w = (Ok (inr (all, "")), w) ∧
    sm_FeatureAssignmentID <$> all ≡ₚ uuid_String ∘ fa_ID <$> fas ∧
    StronglySorted (λ a b, listed_before a b = true) all ∧
    (∀ row, row ∈ all → ∃ fa, fa ∈ fas ∧ sm_FeatureAssignmentID row = uuid_String (fa_ID fa) ∧
       (fa_Active fa = false → sm_Status row = "INACTIVE") ∧
       ∀ r allow state w', fa_Active fa = true →
         Api_GetFeatureAssignment uuid_Parse allow r w = (Ok (inr (fa_ID fa, state)), w') → sm_Status row = state) ∧
    assignments_ListHandler uuid_String uuid_Parse Format range q w = (Ok (inr (shown, query)), w) ∧
    (query ≠ "" → shown = filter (λ row, Forall (λ t,
       Contains (TemplateFuncs.replace (ToLower (search_text row)) ": " ":") t = true) (Fields query)) all).
Proof.
  intros Hf Hl Hcur. destruct (statuses_read w Hf Hcur) as (statuses & Hall & Hone & _).
  destruct (AssignmentCreators_now (fa_ID <$> fas) w Hf) as [creators Hc].
  set (all := isort listed_before (assignment_summary uuid_String Format range statuses creators <$> fas)).
  assert (Hrow : ∀ fa, sm_FeatureAssignmentID (assignment_summary uuid_String Format range statuses creators fa) = uuid_String (fa_ID fa)
    ∧ sm_Status (assignment_summary uuid_String Format range statuses creators fa) =
        if fa_Active fa then (assignment_state (default [] (statuses !! fa_ID fa))).1 else "INACTIVE").
  { intros fa. unfold assignment_summary. by destruct (assignment_state _). }
  exists all. eexists _, _. split_and!; [exact (assignments_run _ _ _ _ _ Hl Hall Hc)| | | |exact (assignments_run _ _ _ _ _ Hl Hall Hc)|].
  - unfold all. rewrite isort_perm, <-list_fmap_compose.
    match goal with |- ?x ≡ₚ ?y => assert (x = y) as ->; [|done] end. apply list_fmap_ext. intros i fa _. apply Hrow.
  - apply isort_sorted; [apply listed_before_total|apply listed_before_trans].
  - intros row (fa & -> & Hfa)%elem_of_isort%list_elem_of_fmap. destruct (Hrow fa) as [Hid Hst].
    exists fa. split_and!; [done..|by intros Ha; rewrite Hst, Ha|]. intros r allow state w' Ha Hapi.
    rewrite (api_state _ _ _ _ _ _ _ Hf (Hone _) Hapi), Hst, Ha. unfold assignment_state.
    by rewrite (ReconcileStatuses_upper _ _ _ _ (Hone _)).
  - intros Hq. unfold filtered_rows. rewrite bool_decide_eq_false_2 by done. apply list_filter_iff. intros row.
    unfold assignment_matches, matchesAll. 
    rewrite forallb_forall, Forall_forall. by setoid_rewrite list_elem_of_In.
Qed.
End lists_facts.

(** ** The health of the agents *)

Section health.
Context `{ext : External} `{pg : Postgres} `{codec : FeatureCodec} (tenant_created : uuid → time).

(** The instant a report is shown with. *)
Definition shown_report (w : world) (id : uuid) : option time :=
  match health_statuses (w_rec w) !! id with
  | Some t => if (year_2000 <=? t)%Z then Some t else None
  | None => None
  end.

Lemma env_row_now w t e :
  w_faults w = [] →
  env_row t e w = (Ok {| nv_TenantName := t_Name t; nv_EnvName := er_Name e; nv_Report := shown_report w (er_ID e) |}, w).
Proof.
  intros Hf. unfold env_row, shown_report, Health_Get. set (h := health_statuses (w_rec w) !! er_ID e).
  assert (Hq : query (λ w, match health_statuses (w_rec w) !! er_ID e with Some t => Ok t | None => Err ErrNoRows end) w
    = (match h with Some t => Ok t | None => Err ErrNoRows end, w)) by by rewrite query_now.
  unfold attempt, mbind, M_bind. rewrite Hq. clear Hq. clearbody h. by destruct h.
Qed.

(** The environments of a tenant, in the order of the list. *)
Definition environments_of (w : world) (t : TenantRow) : list EnvironmentRow :=
  isort (then_by management_first (λ a b, String.leb (er_Name a) (er_Name b)))
    (filter (λ e, er_TenantID e = t_ID t) (environments (w_env w))).
Definition row_of (w : world) (t : TenantRow) (e : EnvironmentRow) : envRow :=
  {| nv_TenantName := t_Name t; nv_EnvName := er_Name e; nv_Report := shown_report w (er_ID e) |}.

Lemma environments_run w :
  w_faults w = [] →
  ∃ rows, environments_Handler tenant_created "" w = (Ok (inr (rows, "")), w) ∧
    ∀ t e, t ∈ tenants (w_env w) → e ∈ environments (w_env w) → er_TenantID e = t_ID t → row_of w t e ∈ rows.
Proof.
  intros Hf. set (ts := isort (then_by (λ a b, (tenant_created (t_ID b) <=? tenant_created (t_ID a))%Z)
    (λ a b, String.leb (t_Name a) (t_Name b))) (tenants (w_env w))).
  assert (Hb : buildRows ts w = (Ok (concat ((λ t, row_of w t <$> environments_of w t) <$> ts)), w)).
  { unfold buildRows. erewrite bind_run; [done|]. apply map_each_now. intros t _. unfold tenant_env_rows.
    rewrite (bind_run _ _ w (inl (environments_of w t)) w) by (apply attempt_now; unfold Tenant_Environments; by rewrite query_now). cbv beta iota. apply map_each_now. intros e _. by apply env_row_now. }
  eexists. split.
  - unfold environments_Handler. rewrite (page_now _ _ _ w ts) by (unfold ListTenants; by rewrite query_now).
    unfold mbind at 1, page_bind at 1, always. by rewrite Hb.
  - intros t e Ht He Hte. apply elem_of_concat. exists (row_of w t <$> environments_of w t). split.
    + apply list_elem_of_fmap_2. unfold environments_of. by apply elem_of_isort, list_elem_of_filter.
    + apply list_elem_of_fmap. exists t. split; [done|]. by apply elem_of_isort.
Qed.

(** What the snapshot knows of an environment's agent. *)
Lemma snapshot_health aud w snap w1 id :
  fetchSnapshot aud w = (Ok snap, w1) → s_healthByEnv snap !! id = health_statuses (w_rec w) !! id.
Proof.
  unfold fetchSnapshot. intros H. read_bind H envs He S1. read_bind H health Hh S2. read_bind H rows Hr S3.
  read_bind H deps Hd S4. read_bind H dis Hdis S5. read_bind H gc Hgc S6.
  read_bind H ec Hec S7. read_bind H vs Hvs S8. read_bind H ins Hins S9.
  read_bind H dep Hdep S10. injection H as <- _. cbn [s_healthByEnv].
  apply wrapping_Ok, query_value in Hh; [|done]. injection Hh as <-. rewrite <-(same_world_rec _ _ S1).
  apply option_eq. intros t. rewrite <-elem_of_list_to_map, elem_of_reverse, elem_of_map_to_list; [done|].
  rewrite fmap_reverse, reverse_Permutation. apply NoDup_fst_map_to_list.
Qed.
(** C29.  The badge of an agent tells what the reconciler will do: when no query fails, every
    environment has a row in the list, and at the instant of the page and of its snapshot an
    environment shown as healthy is healthy for the reconciler, and to one shown as dead or
    without report nothing is deployed.  Of stale ones nothing is said. *)
Theorem health_badge_honest aud w snap w1 :
  w_faults w = [] → fetchSnapshot aud w = (Ok snap, w1) → (year_2000 + 3 * Minute < w_now w)%Z →
  ∃ rows, environments_Handler tenant_created "" w = (Ok (inr (rows, "")), w) ∧
    ∀ t e env dep, t ∈ tenants (w_env w) → e ∈ environments (w_env w) → er_TenantID e = t_ID t → e_ID env = er_ID e →
      ∃ row, row ∈ rows ∧ nv_TenantName row = t_Name t ∧ nv_EnvName row = er_Name e ∧
        let label := (agentHealth row (w_now w)).2 in
        (label = "healthy" → env_healthy snap (λ _, w_now w) env = true) ∧
        (label = "dead" ∨ label = "no report" →
           dispatch_one snap (λ _, w_now w) env dep = TSkip (decision env dep ActionSkipUnhealthy "naisd is unhealthy" None "")) ∧
        label ∈ ["healthy"; "stale"; "dead"; "no report"].
Proof.
  intros Hf Hs Hnow. destruct (environments_run w Hf) as (rows & Hrows & Hin). exists rows. split; [done|].
  intros t e env dep Ht He Hte Hid. exists (row_of w t e). split_and!; [by apply Hin|done..|]. cbv zeta.
  unfold agentHealth, row_of, shown_report. cbn [nv_Report].
  assert (Hh : env_healthy snap (λ _, w_now w) env =
    match health_statuses (w_rec w) !! er_ID e with
    | Some r => bool_decide (time_since (w_now w) r ≤ 3 * Minute)%Z | None => false end)
    by (unfold env_healthy; by rewrite (snapshot_health _ _ _ _ _ Hs), Hid).
  unfold dispatch_one. rewrite Hh. clear Hh Hrows Hin.
  destruct (health_statuses (w_rec w) !! er_ID e) as [r|]; [|cbn; split_and!; [done|done|set_solver]].
  assert (Minute = 60000000000 ∧ healthyThreshold = 60000000000 ∧ staleThreshold = 300000000000)%Z as (Em & Eh & Es) by done.
  destruct (Z.leb_spec year_2000 r) as [Hy|Hy].
  - rewrite Eh, Es, Em. destruct (Z.ltb_spec (time_since (w_now w) r) 60000000000);
      [|destruct (Z.ltb_spec (time_since (w_now w) r) 300000000000)]; cbn [snd].
    + rewrite bool_decide_eq_true_2 by lia. split_and!; [done|by intros [?|?]|set_solver].
    + split_and!; [done|by intros [?|?]|set_solver].
    + rewrite bool_decide_eq_false_2 by lia. split_and!; [done|done|set_solver].
  - rewrite bool_decide_eq_false_2; [split_and!; [done|done|set_solver]|].
    intros Hle. apply time_since_le in Hle; [|by rewrite Em]. lia.
Qed.
End health.

(** ** The roll-up of a version *)

Lemma counts_bound (l : list DeployRow) :
  (count_status ["DEPLOYED"] l + count_status ["FAILED"] l + count_status ["SENT"; "INSTALLING"] l <= length l)%nat.
Proof.
  unfold count_status. induction l as [|r l IH]; [done|]. rewrite !filter_cons.
  generalize dependent (NormalizeStatus (dl_Status r)). intros s.
  destruct (decide (s ∈ ["DEPLOYED"])) as [->%list_elem_of_singleton|_]; [rewrite !decide_False by set_solver; cbn; lia|].
  destruct (decide (s ∈ ["FAILED"])) as [->%list_elem_of_singleton|_]; [rewrite !decide_False by set_solver; cbn; lia|].
  destruct (decide (s ∈ _)); cbn; lia.
Qed.

Lemma parts_sum r :
  (dr_Deployed r + dr_Failed r + dr_Pending r <= dr_Total r)%nat → sum_list (rollup_parts r).*1 = dr_Total r.
Proof.
  intros H. unfold rollup_parts. rewrite !filter_cons, filter_nil. cbn [fst].
  repeat destruct (decide (_ < _)%nat); cbn; lia.
Qed.

(** The counts the first page shows for a version are those of all its instructions in the
    log it read, each instruction once: they add up to its total, and none is shown that is zero. *)
Theorem rollup_shown `{ext : External} `{txt : PostgresText} uuid_String w rows activity w' :
  features_ListHandler uuid_String w = (Ok (rows, activity), w') →
  ∀ r, r ∈ rows → sum_list (rollup_parts r).*1 = dr_Total r ∧ ∀ p, p ∈ rollup_parts r → (0 < p.1)%nat.
Proof.
  unfold features_ListHandler. intros H r Hr.
  apply bind_Ok in H as (deploys & w1 & Hd & H). apply bind_Ok in H as (audits & w2 & _ & [= <- _ _]).
  split; [|by intros p [? _]%list_elem_of_filter].
  apply list_elem_of_fmap in Hr as (d & -> & Hin). apply parts_sum. cbn.
  assert (∃ rows, d ∈ aggregateRecentDeploys rows 10) as [rows Hg].
  { unfold or_nothing in Hd. apply bind_Ok in Hd as (o & w3 & Ho & [= Hd _]). unfold attempt in Ho.
    destruct (ListRecentDeploys 10 w) as [[l|e|p] w4] eqn:E; injection Ho as <- _ || done; [|by rewrite <-Hd in Hin; apply elem_of_nil in Hin].
    unfold ListRecentDeploys in E. apply bind_Ok in E as (rs & w5 & _ & [= E _]). exists rs. by rewrite E, Hd. }
  destruct (aggregateRecentDeploys_spec rows 10) as [_ Hall]. rewrite Forall_forall in Hall.
  destruct (Hall d Hg) as (_ & -> & -> & -> & -> & _). apply counts_bound.
Qed.

(** ** Examples *)

Definition example_summary : Summary :=
  {| sm_FeatureName := "app"; sm_Chart := ""; sm_Version := "1.0.0"; sm_Status := "DEPLOYED"; sm_Target := "kind=tenant";
     sm_Created := ""; sm_Completed := ""; sm_FeatureAssignmentID := "1"; sm_TargetLabels := {[ "kind" := "tenant" ]};
     sm_Creator := "me"; sm_Active := true; sm_createdAt := 5; sm_disabledCount := 0 |}.

(** What the list shows as a target is not what a search finds: the pill reads [kind: tenant],
    but neither that nor [kind:tenant] finds the row, only [kind=tenant] does. *)
Theorem pill_not_found :
  targetPills map_to_list (sm_TargetLabels example_summary) = ["kind: tenant"] ∧
  filtered_rows assignment_matches search_text "kind: tenant" [example_summary] = [] ∧
  filtered_rows assignment_matches search_text "kind:tenant" [example_summary] = [] ∧
  filtered_rows assignment_matches search_text "kind=tenant" [example_summary] = [example_summary].
Proof. vm_compute. done. Qed.

Definition listing_text : PostgresText := {| pg_lower := Datatypes.id; jsonb_print _ := "" |}.
Definition untally (s : string) : outcome uuid := Ok (N.of_nat (String.length s)).

Lemma untally_tally id : untally (tally id) = Ok id.
Proof.
  unfold untally. enough (String.length (tally id) = N.to_nat id) as -> by (by rewrite N2Nat.id).
  unfold tally. induction (N.to_nat id) as [|k IH]; [done|exact (f_equal S IH)].
Qed.

Definition listed (q : string) : outcome (reply + list Summary * string) * world :=
  assignments_ListHandler (codec := example_codec) (txt := listing_text) tally untally (λ _, "") map_to_list q example_deployed.

Lemma assignments_list_agrees_witness :
  ∃ all shown query, listed "" = (Ok (inr (all, "")), example_deployed) ∧ sm_Status <$> all = ["DEPLOYED"] ∧
    listed "APP" = (Ok (inr (shown, query)), example_deployed) ∧ length shown = 1%nat.
Proof.
  destruct (ListAll (codec := example_codec) example_deployed) as [[fas|e|p] w'] eqn:E; [|vm_compute in E; discriminate E..].
  assert (w' = example_deployed) as -> by (vm_compute in E; by injection E as _ <-).
  destruct (assignments_list_agrees (codec := example_codec) (txt := listing_text) (api := linked_api) tally untally (λ _, "")
    map_to_list untally_tally example_deployed fas "APP" eq_refl E example_current_distinct)
    as (all & shown & query & H1 & _ & _ & _ & H2 & _).
  exists all, shown, query. split_and!; [exact H1| |exact H2|].
  - vm_compute in H1. injection H1 as <-. reflexivity.
  - vm_compute in H2. injection H2 as <- <-. reflexivity.
Defined.

(** An agent that reported at instant 100, seen 30 s later: the clock of the example is moved
    past the year 2000. *)
Definition recent_world : world :=
  set_w_now (λ _, (year_2000 + Hour)%Z) (set_w_rec (set_health_statuses (λ _, {[ 7%N := (year_2000 + Hour - 30 * Second)%Z ]})) example_world).

Lemma health_badge_honest_witness :
  ∃ snap w1 rows, fetchSnapshot (ext := echo) (pg := example_pg) (codec := example_codec) "" recent_world = (Ok snap, w1) ∧
    environments_Handler (λ _, 0%Z) "" recent_world = (Ok (inr (rows, "")), recent_world) ∧
    ∃ row, row ∈ rows ∧ nv_EnvName row = "dev" ∧ (agentHealth row (w_now recent_world)).2 ∈ ["healthy"; "stale"; "dead"; "no report"].
Proof.
  destruct (fetchSnapshot (ext := echo) (pg := example_pg) (codec := example_codec) "" recent_world)
    as [[snap|e|p] w1] eqn:E; [|vm_compute in E; discriminate E..].
  destruct (health_badge_honest (ext := echo) (pg := example_pg) (codec := example_codec) (λ _, 0%Z) "" recent_world snap w1
    eq_refl E) as (rows & H1 & H2); [reflexivity|].
  exists snap, w1, rows. split; [reflexivity|]. split; [exact H1|].
  destruct (H2 {| t_ID := 3; t_Name := "nav"; t_Description := None; t_CI := false |}
    {| er_ID := 7; er_TenantID := 3; er_Name := "dev"; er_Kind := EnvironmentKindTenant; er_Description := None;
       er_Reconcile := true; er_Labels := {[ "kind" := "tenant" ]}; er_OidcIssuer := None; er_OidcDiscoveryUrl := None |}
    (example_env ∅) (example_assignment ∅ 5)) as (row & Hr & _ & Hn & _ & _ & Hl);
    [left|left|reflexivity|reflexivity|]. exists row. split; [exact Hr|]. split; [exact Hn|exact Hl].
Defined.
