(* ===== verification/ChartVersions.v ===== *)
(** * internal/helm/versions.go: the versions of a chart in its registry

    A registry answers a request for the tags of a chart in pages, each with a link to the
    next; the versions are the tags of all pages, the newest upload first.  The registry is a
    function of the URL, the order of a [range] over the manifests of a page is that of their
    list, and resolving a link against a URL is a parameter.  Nothing bounds the number of
    pages, so the loop takes fuel, and enough is proved to give the result. *)

From S2P Require Import ConfigForm.
From S2P Require Export Queries.
From S2P Require Import GoStd.

(** [strconv.ParseInt(s, 10, 64)] *)
Definition ParseInt10 (s : string) : option Z :=
  let '(neg, digits) :=
    match s with
    | String c rest => if is_sign c then (bool_decide (c = "-"%char), rest) else (false, s)
    | EmptyString => (false, s)
    end in
  if bool_decide (digits = "") || has_underscore digits then None
  else match digits_value 10 0 digits with
       | inr _ => None
       | inl n => if (neg : bool) then if (2 ^ 63 <? n)%Z then None else Some (- n)%Z
                  else if (2 ^ 63 <=? n)%Z then None else Some n
       end.

(** [strings.Trim(s, "<>")] *)
Definition is_angle (c : ascii) : bool := bool_decide (c = "<"%char) || bool_decide (c = ">"%char).
Fixpoint trim_angles_left (s : string) : string :=
  match s with String c s' => if is_angle c then trim_angles_left s' else s | EmptyString => EmptyString end.
Definition trim_angles (s : string) : string := str_rev (trim_angles_left (str_rev (trim_angles_left s))).

(** The tags of a manifest and the text of its upload time. *)
Record registry_manifest := { mf_Tags : list string; mf_UploadedMillis : string }.
Record tagsListResponse := { tl_Tags : list string; tl_Manifests : list registry_manifest }.

(** A reply: status, body decoded, what closing it gives, the header [Link], and the URL of
    the request after redirects. *)
Record registry_reply := {
  rr_StatusCode : Z; rr_Status : string; rr_page : outcome tagsListResponse; rr_close : outcome unit;
  rr_Link : string; rr_URL : string;
}.

Section versions.
Context (registry : string → outcome registry_reply).
(** [base.ResolveReference(ref).String()] of a parsed reference; an error of [url.Parse]. *)
Context (resolve : string → string → option string).
(** Whether Google's credentials can be found, and the host of a parsed reference. *)
Context (FindDefaultCredentials : outcome unit) (url_Hostname : string → option string).

Fixpoint next_link (links : list string) (base : string) : string :=
  match links with
  | [] => ""
  | link :: links =>
      let '(partA, partB, ok) := cut_char ";" link in
      if negb ok || negb (bool_decide (TrimSpace partB = "rel=" +:+ json_quote "next")) then next_link links base
      else default "" (resolve base (trim_angles (TrimSpace partA)))
  end.

Definition nextTagsPageURL (linkHeader base : string) : string := next_link (split_char "," linkHeader) base.

Definition add_manifest (uploaded : gmap string Z) (m : registry_manifest) : gmap string Z :=
  match ParseInt10 (mf_UploadedMillis m) with
  | None => uploaded
  | Some millis => foldl (λ u tag, <[tag := millis]> u) uploaded (mf_Tags m)
  end.
Definition add_page (uploaded : gmap string Z) (p : tagsListResponse) : gmap string Z :=
  foldl add_manifest uploaded (tl_Manifests p).

(** One page: its contents and the URL of the next. *)
Definition get_page (url : string) : outcome (tagsListResponse * string) :=
  let! resp := registry url in
  if negb (rr_StatusCode resp =? 200)%Z then Err (ErrString ("registry returned " +:+ rr_Status resp))
  else let! p := wrap "decode tags list" (rr_page resp) in
       let! _ := wrap "close tags list response" (rr_close resp) in
       Ok (p, nextTagsPageURL (rr_Link resp) (rr_URL resp)).

(** [None] when the fuel runs out. *)
Fixpoint list_pages (fuel : nat) (nextURL : string) (tags : list string) (uploaded : gmap string Z)
    : option (outcome (list string * gmap string Z)) :=
  match fuel with
  | O => None
  | S fuel =>
      if bool_decide (nextURL = "") then Some (Ok (tags, uploaded))
      else match get_page nextURL with
           | Ok (p, next) => list_pages fuel next (tags ++ tl_Tags p) (add_page uploaded p)
           | Err e => Some (Err e)
           | Panic m => Some (Panic m)
           end
  end.

Definition tags_url (host repoPath : string) : string :=
  "https://" +:+ (host +:+ ("/v2/" +:+ (repoPath +:+ "/tags/list"))).

Definition listTags (fuel : nat) (host repoPath : string) : option (outcome (list string * gmap string Z)) :=
  list_pages fuel (tags_url host repoPath) [] ∅.

Definition isGoogleArtifactRegistry (chartRef : string) : bool :=
  match url_Hostname chartRef with Some host => HasSuffix host ".pkg.dev" | None => false end.

(** Newest upload first, then the greatest tag. *)
Definition newest_upload (uploaded : gmap string Z) (a b : string) : bool :=
  let ta := default 0%Z (uploaded !! a) in let tb := default 0%Z (uploaded !! b) in
  if bool_decide (ta = tb) then String.leb b a else (tb <? ta)%Z.

Definition ListChartVersions (fuel : nat) (chartRef : string) : option (outcome (list string)) :=
  match (if isGoogleArtifactRegistry chartRef
         then wrap ("find Google credentials for OCI chart " +:+ json_quote chartRef) FindDefaultCredentials
         else Ok tt) with
  | Err e => Some (Err e)
  | Panic m => Some (Panic m)
  | Ok _ =>
      let '(host, repoPath, ok) := cut_char "/" (TrimPrefix chartRef "oci://") in
      if negb ok || bool_decide (host = "") || bool_decide (repoPath = "")
      then Some (Err (ErrString ("invalid OCI chart reference " +:+ json_quote chartRef)))
      else r ← listTags fuel host repoPath;
           Some (let! found := wrap ("list versions for OCI chart " +:+ json_quote chartRef) r in
                 Ok (isort (newest_upload found.2) found.1))
  end.

(** ** Enough fuel gives all pages *)

(** The pages the registry serves from a URL on. *)
Inductive serves : string → list tagsListResponse → Prop :=
  | serves_end : serves "" []
  | serves_page url p next ps : url ≠ "" → get_page url = Ok (p, next) → serves next ps → serves url (p :: ps).

Lemma list_pages_serves url ps fuel tags uploaded :
  serves url ps → (length ps < fuel)%nat →
  list_pages fuel url tags uploaded = Some (Ok (tags ++ concat (tl_Tags <$> ps), foldl add_page uploaded ps)).
Proof.
  intros Hs. revert fuel tags uploaded. induction Hs as [|url p next ps Hne Hp _ IH]; intros [|fuel] tags uploaded Hf; [cbn in Hf; lia| |cbn in Hf; lia|].
  - cbn. by rewrite app_nil_r.
  - cbn [list_pages]. rewrite bool_decide_eq_false_2, Hp by done. rewrite IH by (cbn in Hf; lia).
    rewrite fmap_cons. cbn [concat foldl]. by rewrite app_assoc.
Qed.

Lemma newest_total u a b : newest_upload u a b = true ∨ newest_upload u b a = true.
Proof.
  unfold newest_upload. set (x := default _ (u !! a)). set (y := default _ (u !! b)).
  destruct (bool_decide_reflect (x = y)) as [E|E]; [rewrite (bool_decide_eq_true_2 (y = x)) by done; by apply leb_total|].
  rewrite (bool_decide_eq_false_2 (y = x)) by congruence. rewrite !Z.ltb_lt. lia.
Qed.
Lemma newest_trans u a b c : newest_upload u a b = true → newest_upload u b c = true → newest_upload u a c = true.
Proof.
  unfold newest_upload. set (x := default _ (u !! a)). set (y := default _ (u !! b)). set (z := default _ (u !! c)).
  clearbody x y z. repeat case_bool_decide; rewrite ?Z.ltb_lt; try lia. intros. by eapply leb_trans.
Qed.

(** All versions, newest first: for a well-formed reference to a chart whose registry serves
    finitely many pages, [ListChartVersions] returns, with as much fuel as there are pages and
    one more, the tags of all pages, each as often as the registry names it; a tag that was
    uploaded later comes before, where one without a known upload counts as uploaded at the
    epoch, and among equals the greater tag comes first. *)
Theorem ListChartVersions_spec fuel host repoPath ps :
  has_char "/" host = false → host ≠ "" → repoPath ≠ "" →
  (isGoogleArtifactRegistry ("oci://" +:+ (host +:+ String "/" repoPath)) = true → FindDefaultCredentials = Ok tt) →
  serves (tags_url host repoPath) ps → (length ps < fuel)%nat →
  let uploaded := foldl add_page ∅ ps in
  let at_ tag := default 0%Z (uploaded !! tag) in
  ∃ versions, ListChartVersions fuel ("oci://" +:+ (host +:+ String "/" repoPath)) = Some (Ok versions) ∧
    versions ≡ₚ concat (tl_Tags <$> ps) ∧
    StronglySorted (λ a b, at_ b < at_ a ∨ at_ a = at_ b ∧ String.leb b a = true)%Z versions.
Proof.
  intros Hh Hne Hr Hc Hs Hf uploaded at_. exists (isort (newest_upload uploaded) (concat (tl_Tags <$> ps))). split_and!.
  - unfold ListChartVersions. set (ref := "oci://" +:+ _) in *.
    assert ((if isGoogleArtifactRegistry ref
      then wrap ("find Google credentials for OCI chart " +:+ json_quote ref) FindDefaultCredentials else Ok tt) = Ok tt) as ->.
    { destruct (isGoogleArtifactRegistry _); [by rewrite Hc|done]. }
    unfold ref at 1. rewrite TrimPrefix_app, cut_char_here by done. rewrite !bool_decide_eq_false_2 by done. cbn [negb orb].
    unfold listTags. rewrite (list_pages_serves _ ps) by done. done.
  - apply isort_perm.
  - eapply StronglySorted_impl; [|apply isort_sorted; [apply newest_total|apply newest_trans]].
    intros a b. unfold newest_upload, at_. case_bool_decide; [by right|rewrite Z.ltb_lt; by left].
Qed.

(** A page that links to itself is never left: no fuel is enough. *)
Theorem list_pages_loops url p fuel tags uploaded :
  url ≠ "" → get_page url = Ok (p, url) → list_pages fuel url tags uploaded = None.
Proof.
  intros Hne Hp. revert tags uploaded. induction fuel as [|fuel IH]; intros tags uploaded; [done|].
  cbn [list_pages]. rewrite bool_decide_eq_false_2, Hp by done. apply IH.
Qed.
End versions.

(** ** Examples *)

(** The registry of versions_test.go: two pages; [latest] has no upload time. *)
Definition example_manifest (tag millis : string) : registry_manifest := {| mf_Tags := [tag]; mf_UploadedMillis := millis |}.
Definition example_reply (tags : list string) (ms : list registry_manifest) (link url : string) : registry_reply :=
  {| rr_StatusCode := 200; rr_Status := "200 OK"; rr_page := Ok {| tl_Tags := tags; tl_Manifests := ms |};
     rr_close := Ok tt; rr_Link := link; rr_URL := url |}.
Definition example_first : string := "https://localhost/v2/charts/example/tags/list".
Definition example_second : string := "https://localhost/v2/charts/example/tags/list?last=1.2.3_build.1".
Definition example_registry (url : string) : outcome registry_reply :=
  if bool_decide (url = example_first) then
    Ok (example_reply ["1.0.0"; "1.2.3_build.1"] [example_manifest "1.0.0" "1000"; example_manifest "1.2.3_build.1" "2000"]
          ("<" +:+ (example_second +:+ (">; rel=" +:+ json_quote "next"))) url)
  else Ok (example_reply ["latest"; "2.1.0"; "2026-09-09-095744-e41bab5"]
             [example_manifest "2.1.0" "3000"; example_manifest "2026-09-09-095744-e41bab5" "4000"] "" url).

Lemma ListChartVersions_spec_witness :
  ∃ versions, ListChartVersions example_registry (λ _ ref, Some ref) (Ok tt) (λ _, Some "localhost") 3
      "oci://localhost/charts/example" = Some (Ok versions) ∧
    versions = ["2026-09-09-095744-e41bab5"; "2.1.0"; "1.2.3_build.1"; "1.0.0"; "latest"].
Proof.
  destruct (ListChartVersions_spec example_registry (λ _ ref, Some ref) (Ok tt) (λ _, Some "localhost") 3 "localhost"
    "charts/example" [ {| tl_Tags := ["1.0.0"; "1.2.3_build.1"];
                          tl_Manifests := [example_manifest "1.0.0" "1000"; example_manifest "1.2.3_build.1" "2000"] |};
                       {| tl_Tags := ["latest"; "2.1.0"; "2026-09-09-095744-e41bab5"];
                          tl_Manifests := [example_manifest "2.1.0" "3000"; example_manifest "2026-09-09-095744-e41bab5" "4000"] |} ])
    as (versions & H & _).
  - reflexivity.
  - discriminate.
  - discriminate.
  - reflexivity.
  - apply (serves_page _ _ _ _ example_second); [discriminate|vm_compute; reflexivity|].
    apply (serves_page _ _ _ _ ""); [discriminate|vm_compute; reflexivity|]. constructor.
  - vm_compute. lia.
  - exists versions. split; [exact H|]. vm_compute in H. injection H as <-. reflexivity.
Defined.
