(* ===== verification/FeaturePage.v ===== *)
(** * ui/pages/environment/helpers.go: the page of a feature in an environment

    Everything the page shows is read in one handler: the feature as the winning assignment
    has it, its status, the configuration, the log of the latest instruction, the history of
    instructions with their logs, the assignments that match the environment most
    specifically, and the latest audit entries.  Some reads fail the page, some only leave a
    part of it empty.  The crumbs and the table of the environment's own fields are left out. *)

From S2P Require Import Winning Preview ConfigForm.
From S2P Require Export ConfigItems FeatureEnvs UiData View.
From S2P Require Export AuditTrail History.
From S2P Require Import GoStd.

Record EnvAssignmentItem := {
  ea_ID : string; ea_Version : string; ea_Status : string; ea_TargetLabels : Labels; ea_Created : string;
}.

Record PageLine := { pl_Timestamp : string; pl_Message : string }.

Record FeaturePage := {
  fp_Tenant : TenantRow; fp_TenantSlug : string; fp_Environment : EnvironmentRow; fp_Feature : Feature;
  fp_Enabled : bool; fp_DisableReason : string; fp_ConfigItems : list ConfigItem;
  fp_FeatureEnvs : list FeatureEnvironment; fp_ActiveTab : string; fp_Status : string; fp_StatusMessage : string;
  fp_FeatureLog : option (list PageLine); fp_WinningAssignment : option FeatureAssignment;
  fp_RecentDeployHistory : list Instruction; fp_DeployLogs : gmap N (list PageLine);
  fp_Release : option ReleaseStatusRow; fp_DecisionHistory : list DecisionLogEntry;
  fp_Assignments : list EnvAssignmentItem; fp_AuditEntries : list Entry;
}.

Definition labelsMatch (envLabels target : Labels) : bool :=
  forallb (λ kv, bool_decide (default "" (envLabels !! kv.1) = kv.2)) (map_to_list target).

(** A read whose failure leaves a part of the page empty. *)
Definition or_empty {A} (empty : A) (m : IO A) : IO A :=
  r ← attempt m; mret (match r with inl a => a | inr _ => empty end).

Section page.
Context `{ext : External} `{pg : Postgres} `{codec : FeatureCodec} `{obj : ObjectCodec} `{json : FormJson}
  `{sc : Scan} `{ls : LogScan} (uuid_String : uuid → string) (uuid_NewSHA1 : string → uuid) (Format : time → string).

(** The assignments of the environment that have the most labels. *)
Record candidate := { cn_fa : FeatureAssignment; cn_status : string }.

Definition candidate_of (envID : uuid) (statusesByFA : gmap N (list FeatureReconcileStatus)) (dep : FeatureAssignment)
    : candidate :=
  {| cn_fa := dep;
     cn_status := match find (λ s, bool_decide (frs_EnvironmentID s = envID)) (default [] (statusesByFA !! fa_ID dep)) with
                  | Some s => NormalizeStatus (frs_State s)
                  | None => "UNKNOWN"
                  end |}.

Definition candidate_item (c : candidate) : EnvAssignmentItem :=
  {| ea_ID := uuid_String (fa_ID (cn_fa c)); ea_Version := f_Version (fa_Feature (cn_fa c)); ea_Status := cn_status c;
     ea_TargetLabels := fa_TargetLabels (cn_fa c); ea_Created := FormatTime Format (fa_Created (cn_fa c)) |}.

Definition created_last_first (a b : EnvAssignmentItem) : bool := String.leb (ea_Created b) (ea_Created a).

Definition most_labels (cs : list candidate) : nat :=
  foldl (λ n c, if (n <? size (fa_TargetLabels (cn_fa c)))%nat then size (fa_TargetLabels (cn_fa c)) else n) 0%nat cs.

Definition assignment_items (candidates : list candidate) : list EnvAssignmentItem :=
  isort created_last_first
    (candidate_item <$> filter (λ c, size (fa_TargetLabels (cn_fa c)) = most_labels candidates) candidates).

Definition loadEnvironmentAssignments (featureName : string) (envID : uuid) : IO (list EnvAssignmentItem) :=
  or_empty [] (envLabels ← GetLabels envID;
    assignments ← ListByFeature featureName;
    statusesByFA ← AllReconcileStatuses;
    mret (assignment_items (candidate_of envID statusesByFA <$>
      filter (λ dep, labelsMatch envLabels (fa_TargetLabels dep) = true) assignments))).

Definition page_line (line : UiLogLine) : PageLine :=
  {| pl_Timestamp := FormatTime Format (ln_Timestamp line); pl_Message := ln_Message line |}.

Definition page_lines (lines : list UiLogLine) : list PageLine := page_line <$> lines.

Definition loadFeatureLog (envID : uuid) (feat : Feature) : IO (option (list PageLine)) :=
  or_empty None (di ← GetLatestDeployInstruction envID (f_Name feat);
    lines ← GetLogLines (in_ID di);
    mret (Some (page_lines lines))).

Definition loadDeployLogs (history : list Instruction) : IO (gmap N (list PageLine)) :=
  match history with
  | [] => mret ∅
  | _ => or_empty ∅ (byID ← GetLogLinesForDeployInstructions (in_ID <$> history); mret (page_lines <$> byID))
  end.

(** The status and its message: none when it cannot be read. *)
Definition page_status (env : EnvironmentRow) (disabled : bool) (featureName : string) : IO (string * string) :=
  if negb (er_Reconcile env) || disabled then mret ("DISABLED", "")
  else or_empty ("", "") (s ← FeatureStatusForEnvironment (er_ID env) featureName;
                          mret (if bool_decide (efs_Status s = "") then ("", "") else (efs_Status s, efs_Message s))).

(** What the configuration tab adds, and what the tab of assignments does. *)
Record merged_part := {
  mp_Winning : option FeatureAssignment; mp_History : list Instruction; mp_Logs : gmap N (list PageLine);
  mp_Release : option ReleaseStatusRow; mp_Decisions : list DecisionLogEntry; mp_Assignments : list EnvAssignmentItem;
}.

Definition load_merged (envID : uuid) (featureName : string) : IO merged_part :=
  winning ← or_empty None (dep ← WinningAssignment envID featureName; mret (Some dep));
  recent ← or_empty [] (ListRecentDeployInstructions envID featureName 50);
  deployLogs ← loadDeployLogs recent;
  release ← or_empty None (GetReleaseStatus envID featureName);
  decisions ← or_empty [] (ListDecisionLog envID featureName);
  mret {| mp_Winning := winning; mp_History := recent; mp_Logs := deployLogs; mp_Release := release;
          mp_Decisions := decisions; mp_Assignments := [] |}.

Definition load_assignments_tab (envID : uuid) (featureName : string) : IO merged_part :=
  assignments ← loadEnvironmentAssignments featureName envID;
  mret {| mp_Winning := None; mp_History := []; mp_Logs := ∅; mp_Release := None; mp_Decisions := [];
          mp_Assignments := assignments |}.

Definition loadFeaturePageData (order : list (string * Value)) (aud tenantSlug envName featureName activeTab : string)
    : IO FeaturePage :=
  tenant ← GetTenantByName tenantSlug;
  env ← GetByName (t_ID tenant) envName;
  feat ← FeatureForEnvironment (er_ID env) featureName;
  disabledAt ← GetFeatureDisabledAt (er_ID env) featureName;
  let disabled := disabledAt.2 in
  disableReason ← (if disabled then LatestDisableReason featureName (er_ID env) else mret "" : IO string);
  featureEnvs ← LoadEnvironments uuid_String feat;
  status ← page_status env disabled featureName;
  let merged := negb (bool_decide (activeTab = "assignments")) in
  configItems ← (if merged then loadFeatureConfigItems uuid_String uuid_NewSHA1 order aud feat (er_ID env)
                 else mret [] : IO (list ConfigItem));
  featureLog ← loadFeatureLog (er_ID env) feat;
  part ← (if merged then load_merged (er_ID env) featureName else load_assignments_tab (er_ID env) featureName);
  entries ← wrapping "load audit entries" (ListForFeatureInEnvironment featureName (er_ID env) 3);
  mret {| fp_Tenant := tenant; fp_TenantSlug := tenantSlug; fp_Environment := env; fp_Feature := feat;
          fp_Enabled := negb disabled; fp_DisableReason := disableReason; fp_ConfigItems := configItems;
          fp_FeatureEnvs := featureEnvs; fp_ActiveTab := activeTab; fp_Status := status.1;
          fp_StatusMessage := status.2; fp_FeatureLog := featureLog; fp_WinningAssignment := mp_Winning part;
          fp_RecentDeployHistory := mp_History part; fp_DeployLogs := mp_Logs part; fp_Release := mp_Release part;
          fp_DecisionHistory := mp_Decisions part; fp_Assignments := mp_Assignments part;
          fp_AuditEntries := entries |}.
End page.

(** ** The tab of assignments starts with the winner *)

Lemma labelsMatch_target envLabels target : labelsMatch envLabels target = targetMatchesLabels target envLabels.
Proof. done. Qed.

Lemma most_labels_spec cs :
  (∀ c, c ∈ cs → (size (fa_TargetLabels (cn_fa c)) ≤ most_labels cs)%nat) ∧
  (cs ≠ [] → ∃ c, c ∈ cs ∧ size (fa_TargetLabels (cn_fa c)) = most_labels cs).
Proof.
  unfold most_labels. induction cs as [|c cs IH] using rev_ind; [by split; [intros c ?%elem_of_nil|]|].
  rewrite foldl_app. cbn [foldl]. destruct IH as [H1 H2]. set (n := foldl _ _ cs) in *.
  destruct (Nat.ltb_spec n (size (fa_TargetLabels (cn_fa c)))) as [Hlt|Hge]; split.
  - intros d [Hd|Hd%list_elem_of_singleton]%elem_of_app; [specialize (H1 d Hd); lia|by subst].
  - intros _. exists c. split; [|done]. apply elem_of_app. right. left.
  - intros d [Hd|Hd%list_elem_of_singleton]%elem_of_app; [by apply H1|by subst].
  - intros _. destruct (decide (cs = [])) as [->|Hne].
    + exists c. split; [left|]. cbn in *. subst n. lia.
    + destruct (H2 Hne) as (d & Hd & Hs). exists d. split; [|done]. apply elem_of_app. by left.
Qed.

Section assignments_tab.
Context `{ext : External} `{pg : Postgres} `{codec : FeatureCodec} (uuid_String : uuid → string) (Format : time → string).

Lemma created_last_first_total a b : created_last_first a b = true ∨ created_last_first b a = true.
Proof. unfold created_last_first. destruct (leb_total (ea_Created a) (ea_Created b)); tauto. Qed.
Lemma created_last_first_trans a b c :
  created_last_first a b = true → created_last_first b c = true → created_last_first a c = true.
Proof. unfold created_last_first. intros H1 H2. by eapply leb_trans. Qed.

(** Among assignments made at different instants, which their texts order, the winner is
    the first. *)
Lemma winner_first envID statuses l name win :
  (∀ fa, fa ∈ l → t_name fa = name) → foldl consider ∅ l !! name = Some win →
  (∀ x y, x ∈ l → y ∈ l → fa_Created x = fa_Created y → x = y) →
  (∀ x y, x ∈ l → y ∈ l → (fa_Created x < fa_Created y)%Z →
     String.leb (FormatTime Format (fa_Created y)) (FormatTime Format (fa_Created x)) = false) →
  head (assignment_items uuid_String Format (candidate_of envID statuses <$> l)) =
    Some (candidate_item uuid_String Format (candidate_of envID statuses win)).
Proof.
  intros Hn Hwin Htie Hord. pose proof (consider_fold l name) as Hc. rewrite Hwin in Hc. destruct Hc as (Hin & _ & Hmax).
  unfold assignment_items. set (cs := candidate_of envID statuses <$> l).
  destruct (most_labels_spec cs) as [H1 H2].
  assert (Hcs : ∀ c, c ∈ cs → ∃ fa, fa ∈ l ∧ c = candidate_of envID statuses fa).
  { intros c (fa & -> & Hfa)%list_elem_of_fmap. by exists fa. }
  assert (Hwc : candidate_of envID statuses win ∈ cs) by by apply list_elem_of_fmap_2.
  assert (Hsize : size (fa_TargetLabels win) = most_labels cs).
  { specialize (H1 _ Hwc). cbn in H1. destruct H2 as (c & (fa & Hfa & ->)%Hcs & Hs); [intros E; rewrite E in Hwc; by apply elem_of_nil in Hwc|].
    cbn in Hs. specialize (Hmax fa Hfa (Hn fa Hfa)). unfold less_specific in Hmax.
    change (t_labels ?x) with (fa_TargetLabels x) in Hmax. lia. }
  apply isort_first; [apply created_last_first_total|apply created_last_first_trans| |].
  - apply list_elem_of_fmap_2, list_elem_of_filter. by split.
  - intros y (c & -> & [Hs (fa & Hfa & ->)%Hcs]%list_elem_of_filter)%list_elem_of_fmap. cbn in Hs.
    specialize (Hmax fa Hfa (Hn fa Hfa)). unfold less_specific in Hmax.
    change (t_labels ?x) with (fa_TargetLabels x) in Hmax. change (t_created ?x) with (fa_Created x) in Hmax.
    destruct (decide (fa_Created fa = fa_Created win)) as [He|He]; [left; by rewrite (Htie fa win Hfa Hin He)|].
    right. unfold created_last_first. cbn. apply Hord; [done..|]. lia.
Qed.

Context (jsonb_total : ∀ x y, jsonb_leb x y = true ∨ jsonb_leb y x = true)
  (jsonb_trans : ∀ x y z, jsonb_leb x y = true → jsonb_leb y z = true → jsonb_leb x z = true)
  (uuid_plain : ∀ a, has_char ":" (uuid_String a) = false)
  (uuid_inj : ∀ a b, uuid_String a = uuid_String b → a = b).

Lemma GetLabels_now w te n :
  w_faults w = [] → env_wf (w_env w) n → te ∈ tenant_environments w → GetLabels (te_ID te) w = (Ok (te_Labels te), w).
Proof.
  intros Hf [_ _ _ _ Hids _ _] (e & He & Hid & Hl)%elem_of_tenant_environments.
  unfold GetLabels. rewrite query_now by done. by rewrite Hid, (filter_unique_id w e Hids He), Hl.
Qed.

(** What the tab reads when nothing fails. *)
Lemma tab_now w name fas te statuses :
  w_faults w = [] → featureenvs_ok w name fas → te ∈ tenant_environments w → AllReconcileStatuses w = (Ok statuses, w) →
  loadEnvironmentAssignments uuid_String Format name (te_ID te) w =
    (Ok (assignment_items uuid_String Format (candidate_of (te_ID te) statuses <$> matching (te_Labels te) fas)), w).
Proof.
  intros Hf Hok Hte Hall. unfold loadEnvironmentAssignments, or_empty, attempt. unfold mbind at 1, M_bind at 1.
  rewrite (bind_run _ _ _ _ _ (GetLabels_now _ _ _ Hf (ok_env _ _ _ Hok) Hte)), (bind_run _ _ _ _ _ (listed_now _ _ _ Hf Hok)),
    (bind_run _ _ _ _ _ Hall). done.
Qed.

(** The tab of assignments starts with the one that wins: when no query fails and the
    feature's assignments can be read, its first entry is the assignment the list of
    environments shows for this environment, in the same version, and with the same status
    unless reconciling is switched off there; and it is empty when none matches.  The
    assignments were made at different instants, and the texts of these are ordered as
    the instants are. *)
Theorem assignments_tab_first w name fas te :
  w_faults w = [] → featureenvs_ok w name fas → current_distinct w → te ∈ tenant_environments w →
  (∀ x y, x ∈ fas → y ∈ fas → (fa_Created x < fa_Created y)%Z →
     String.leb (FormatTime Format (fa_Created y)) (FormatTime Format (fa_Created x)) = false) →
  ∃ items found, loadEnvironmentAssignments uuid_String Format name (te_ID te) w = (Ok items, w) ∧
    single_row uuid_String name te w = (Ok found, w) ∧
    match found with
    | None => items = []
    | Some fe => ∃ item rest, items = item :: rest ∧ ea_ID item = fe_AssignmentID fe ∧ ea_Version item = fe_Version fe ∧
        (fe_Enabled fe = true → fe_EnvReconcileDisabled fe = false → ea_Status item = fe_Status fe)
    end.
Proof.
  intros Hf Hok Hcur Hte Hord. destruct (statuses_read w Hf Hcur) as (statuses & Hall & Hone & Hnd).
  destruct (row_agrees uuid_String jsonb_total jsonb_trans uuid_plain uuid_inj w name fas fas statuses _ te Hf Hok
    (λ _, iff_refl _) Hte Hall Hone (disabled_lookup w name) Hnd) as (found & Hrow & Hsingle).
  eexists _, found. split; [by apply tab_now|]. split; [done|].
  assert (Hnames : ∀ fa, fa ∈ fas → t_name fa = name) by (intros fa; by apply (listed_name w name fas)).
  unfold environment_row in Hrow. rewrite (winningAssignments_lookup name) in Hrow;
    [|done|by eapply tenant_environments_ids, Hok|done].
  pose proof (consider_fold (matching (te_Labels te) fas) name) as Hc.
  assert (Hms : ∀ fa, fa ∈ matching (te_Labels te) fas → fa ∈ fas) by by intros fa [_ ?]%list_elem_of_filter.
  destruct (foldl consider ∅ _ !! name) as [win|] eqn:Ewin.
  - destruct Hc as (Hin & _).
    assert (Hhead := winner_first (te_ID te) statuses _ _ _ (λ fa H, Hnames fa (Hms fa H)) Ewin
      (λ x y Hx Hy, ok_created _ _ _ Hok x y (Hms x Hx) (Hms y Hy)) (λ x y Hx Hy, Hord x y (Hms x Hx) (Hms y Hy))).
    destruct (assignment_items _ _ _) as [|item rest]; [done|]. injection Hhead as ->.
    rewrite (statuses_lookup uuid_String uuid_plain uuid_inj statuses fas win (te_ID te) Hnd (Hms _ Hin)) in Hrow.
    apply bind_Ok in Hrow as (reason & w1 & _ & Hrow).
    set (dis := list_to_map _ !! te_ID te) in Hrow. clearbody dis.
    destruct found as [fe|]; [exists (candidate_item uuid_String Format (candidate_of (te_ID te) statuses win)), rest|].
    all: destruct (find (λ s, _) _) as [s|] eqn:Efind in Hrow; destruct (te_Reconcile te), dis; try discriminate Hrow; injection Hrow as <- _;
      split_and!; try reflexivity; try discriminate; intros _ _; cbn; by rewrite Efind.
  - injection Hrow as <-. destruct (matching (te_Labels te) fas) as [|fa l] eqn:E; [done|].
    exfalso. apply (Hc fa); [left|]. apply Hnames, Hms. rewrite ?E. left.
Qed.
End assignments_tab.

(** ** The page and the list of environments *)

(** Reading changes nothing when no call fails. *)
Definition steady (w : world) {A} (m : IO A) : Prop := preserves (λ w', w' = w) m.

Lemma steady_query w {A} (f : world → outcome A) : w_faults w = [] → steady w (query f).
Proof. intros Hf w' ->. by rewrite query_now. Qed.

Lemma steady_run w {A} (m : IO A) o w' : steady w m → m w = (o, w') → w' = w.
Proof. intros Hm H. specialize (Hm w eq_refl). by rewrite H in Hm. Qed.

Ltac steady :=
  repeat match goal with
  | |- steady _ _ => unfold steady
  | |- preserves _ (query _) => by apply steady_query
  | |- preserves _ (mret _) => apply preserves_ret
  | |- preserves _ (fail _) => apply preserves_fail
  | |- preserves _ (lift _) => apply preserves_lift
  | |- preserves _ (attempt _) => apply preserves_attempt
  | |- preserves _ (wrapping _ _) => apply preserves_wrapping
  | |- preserves _ (map_each _ _) => apply preserves_map_each; intros ?
  | |- preserves _ (_ ≫= _) => apply preserves_bind; [|intros ?]
  | |- preserves _ (match ?x with _ => _ end) => destruct x
  | |- preserves _ (let _ := _ in _) => cbv zeta
  end.

Section page_facts.
Context `{ext : External} `{pg : Postgres} `{codec : FeatureCodec} `{obj : ObjectCodec} `{json : FormJson}
  `{sc : Scan} `{ls : LogScan} (uuid_String : uuid → string) (uuid_NewSHA1 : string → uuid) (Format : time → string).

Lemma steady_winner w envID name : w_faults w = [] → steady w (mostSpecificAssignment envID name).
Proof.
  intros Hf. unfold mostSpecificAssignment, ListFeatureAssignmentsForFeatureInEnvironment. steady.
Qed.

Lemma steady_LoadEnvironments w f : w_faults w = [] → steady w (LoadEnvironments uuid_String f).
Proof.
  intros Hf. unfold LoadEnvironments, ListByFeature, targetedEnvironments, ListTenantEnvironments, reconcileStatuses,
    AllReconcileStatuses, ListDisabledEnvironmentsForFeature, ListAllDecisionStatuses, ListAllDeployStatuses,
    environment_row, LatestDisableReason, LatestDisableReason_query. steady.
Qed.

Lemma steady_status w envID name : w_faults w = [] → steady w (FeatureStatusForEnvironment envID name).
Proof.
  intros Hf. unfold FeatureStatusForEnvironment, WinningAssignment, mostSpecificAssignment,
    ListFeatureAssignmentsForFeatureInEnvironment, ReconcileStatuses, ListDecisionStatuses, ListDeployStatuses. steady.
Qed.

Lemma steady_config w order aud f envID :
  w_faults w = [] → steady w (loadFeatureConfigItems uuid_String uuid_NewSHA1 order aud f envID).
Proof.
  intros Hf. unfold loadFeatureConfigItems, GetEnvConfig, GetGlobalConfig, ListGlobalConfigByFeature, ListEnvConfigByFeature,
    HelmValues, fetchHelmRenderData, MappingValuesForEnvironment, ListMappingValuesForTenant, ListSecretKeysForTenant,
    Get, GetTenant, ListGlobalConfigByFeature, ListEnvConfigByFeature. steady.
Qed.

Lemma steady_log w envID f : w_faults w = [] → steady w (loadFeatureLog Format envID f).
Proof.
  intros Hf. unfold loadFeatureLog, or_empty, GetLatestDeployInstruction, GetLatestDeployInstruction_query, GetLogLines,
    LogsByDeployInstruction. steady.
Qed.

Lemma steady_merged w envID name : w_faults w = [] → steady w (load_merged Format envID name).
Proof.
  intros Hf. unfold load_merged, or_empty, loadDeployLogs, WinningAssignment, mostSpecificAssignment,
    ListFeatureAssignmentsForFeatureInEnvironment, ListRecentDeployInstructions, ListDeployLog,
    GetLogLinesForDeployInstructions, LogsByDeployInstructions, GetReleaseStatus, ListDecisionLog, ListDecisionLog_query.
  steady. unfold or_empty, GetLogLinesForDeployInstructions, LogsByDeployInstructions. steady.
Qed.

Lemma steady_tab w envID name : w_faults w = [] → steady w (load_assignments_tab uuid_String Format envID name).
Proof.
  intros Hf. unfold load_assignments_tab, loadEnvironmentAssignments, or_empty, GetLabels, ListByFeature, AllReconcileStatuses,
    ListAllDecisionStatuses, ListAllDeployStatuses. steady.
Qed.

Lemma steady_bind w {A B} (m : IO A) (f : A → IO B) b w' :
  steady w m → (m ≫= f) w = (Ok b, w') → ∃ a, m w = (Ok a, w) ∧ f a w = (Ok b, w').
Proof.
  intros Hm (a & w1 & H1 & H2)%bind_Ok. pose proof (steady_run _ _ _ _ Hm H1) as ->. by exists a.
Qed.

(** A state that was read needs no further normalizing. *)
Lemma NormalizeStatus_twice s : NormalizeStatus (NormalizeStatus s) = NormalizeStatus s.
Proof.
  unfold NormalizeStatus at 2 3. case_bool_decide as Hs; [done|]. unfold NormalizeStatus.
  rewrite bool_decide_eq_false_2 by by destruct s. apply ToUpper_idem.
Qed.

Lemma ReconcileStatuses_now w fa :
  w_faults w = [] → ∃ l, ReconcileStatuses fa w = (Ok l, w) ∧ ∀ s, s ∈ l → NormalizeStatus (frs_State s) = frs_State s.
Proof.
  intros Hf. unfold ReconcileStatuses, ListDecisionStatuses, ListDeployStatuses, mbind, M_bind, wrapping.
  rewrite !query_now by done. eexists. split; [reflexivity|]. intros s (e & -> & _)%list_elem_of_fmap.
  unfold env_status. destruct (deriveState _ _). apply NormalizeStatus_twice.
Qed.

Lemma efs_Status_set envID statuses s : status_in envID statuses = Some s →
  ∃ x, find (λ s, bool_decide (frs_EnvironmentID s = envID)) statuses = Some x ∧ efs_Status s = frs_State x.
Proof. unfold status_in. destruct (find _ _) as [x|]; [|done]. intros [= <-]. by exists x. Qed.

(** The status on the page and the one of a row with the same winner. *)
Lemma page_status_now w env te disabled name dep statuses :
  w_faults w = [] → te_ID te = er_ID env → te_Reconcile te = er_Reconcile env →
  WinningAssignment (er_ID env) name w = (Ok dep, w) → ReconcileStatuses (fa_ID dep) w = (Ok statuses, w) →
  ∃ status, page_status env disabled name w = (Ok status, w) ∧
    status.1 = (if negb (te_Reconcile te) || disabled then "DISABLED"
                else from_option frs_State "" (find (λ s, bool_decide (frs_EnvironmentID s = te_ID te)) statuses)).
Proof.
  intros Hf Hid Hre Hdep Hst. unfold page_status. rewrite Hre, Hid. destruct (negb (er_Reconcile env) || disabled); [by eexists|].
  unfold or_empty, attempt, FeatureStatusForEnvironment. unfold mbind at 1, M_bind at 1.
  unfold mbind at 1, M_bind at 1. rewrite (bind_run _ _ _ _ _ Hdep), (bind_run _ _ _ _ _ Hst).
  unfold status_in. destruct (find _ statuses) as [s|]; cbn; [|by eexists].
  case_bool_decide as E; cbn; eexists; (split; [reflexivity|]); [by rewrite E|done].
Qed.

Lemma found_environment w slug tenant envName env :
  w_faults w = [] → GetTenantByName slug w = (Ok tenant, w) → GetByName (t_ID tenant) envName w = (Ok env, w) →
  ∃ te, te ∈ tenant_environments w ∧ te_ID te = er_ID env ∧ te_Name te = envName ∧ te_TenantName te = slug ∧
    te_Reconcile te = er_Reconcile env.
Proof.
  intros Hf Ht He. unfold GetTenantByName, GetByName in *. rewrite query_now in Ht by done. rewrite query_now in He by done.
  injection Ht as Ht. injection He as He. apply single_Ok, list_elem_of_filter in Ht as [Hn Ht].
  apply single_Ok, list_elem_of_filter in He as [[Hid Hen] He].
  set (te := {| te_ID := er_ID env; te_Name := er_Name env; te_Kind := er_Kind env; te_Labels := er_Labels env;
                te_Reconcile := er_Reconcile env; te_TenantID := t_ID tenant; te_TenantName := t_Name tenant |}).
  exists te. split_and!; try done. unfold tenant_environments. rewrite elem_of_isort. apply elem_of_concat.
  exists (join_tenant w env). split; [|by apply list_elem_of_fmap_2]. unfold join_tenant. apply list_elem_of_fmap.
  exists tenant. split; [done|]. by apply list_elem_of_filter.
Qed.

Lemma GetFeatureDisabledAt_now w envID name :
  w_faults w = [] → GetFeatureDisabledAt envID name w = (Ok
    (match disabled_features (w_feature w) !! (envID, name) with Some t => (t, true) | None => (time_zero, false) end), w).
Proof.
  intros Hf. unfold GetFeatureDisabledAt, none_if_no_rows, attempt, mbind, M_bind. rewrite query_now by done.
  by destruct (disabled_features _ !! _).
Qed.

Lemma single_row_winner w name te dep statuses dis reason :
  WinningAssignment (te_ID te) name w = (Ok dep, w) → ReconcileStatuses (fa_ID dep) w = (Ok statuses, w) →
  GetFeatureDisabledAt (te_ID te) name w = (Ok dis, w) →
  (if dis.2 then LatestDisableReason name (te_ID te) else mret "" : IO string) w = (Ok reason, w) →
  ∃ fe, single_row uuid_String name te w = (Ok (Some fe), w) ∧ fe_AssignmentID fe = uuid_String (fa_ID dep) ∧
    fe_Version fe = f_Version (fa_Feature dep) ∧ fe_Enabled fe = negb dis.2 ∧ fe_DisableReason fe = reason ∧
    fe_Status fe = (if negb (te_Reconcile te) || dis.2 then "DISABLED"
      else from_option (NormalizeStatus ∘ frs_State) "UNKNOWN"
             (find (λ s, bool_decide (frs_EnvironmentID s = te_ID te)) statuses)).
Proof.
  intros Hdep Hst Hdis Hr. unfold single_row, attempt. unfold mbind at 1, M_bind at 1. rewrite Hdep.
  rewrite (bind_run _ _ _ _ _ Hst), (bind_run _ _ _ _ _ Hdis), (bind_run _ _ _ _ _ Hr).
  destruct (negb (te_Reconcile te) || dis.2); [by eexists|]. destruct (find _ _); by eexists.
Qed.

Lemma or_empty_run {A} (e : A) (m : IO A) w a w' : m w = (Ok a, w') → or_empty e m w = (Ok a, w').
Proof. intros Hm. unfold or_empty, attempt, mbind, M_bind. by rewrite Hm. Qed.

Lemma merged_winning w envID name dep part w' :
  WinningAssignment envID name w = (Ok dep, w) → load_merged Format envID name w = (Ok part, w') →
  mp_Winning part = Some dep.
Proof.
  intros Hdep. unfold load_merged. intros (winning & w1 & Hw & H)%bind_Ok.
  rewrite (or_empty_run None _ w (Some dep) w) in Hw by by rewrite (bind_run _ _ _ _ _ Hdep).
  injection Hw as <- _. do 4 (apply bind_Ok in H as (? & ? & _ & H)). by injection H as <- _.
Qed.

(** C18.  The page of a feature in an environment agrees with the list of environments: when
    no call fails and the page loads, loading it has changed nothing, and its version,
    whether it is switched off and why, and its status are those of the row the single
    reads make for that environment; only where that row says [UNKNOWN] the page has no
    status.  Outside the tab of assignments it also names the winning assignment. *)
Theorem page_shows_row order aud slug envName name tab w p w' :
  w_faults w = [] →
  loadFeaturePageData uuid_String uuid_NewSHA1 Format order aud slug envName name tab w = (Ok p, w') →
  w' = w ∧ ∃ te fe, te ∈ tenant_environments w ∧ te_TenantName te = slug ∧ te_Name te = envName ∧
    single_row uuid_String name te w = (Ok (Some fe), w) ∧
    f_Version (fp_Feature p) = fe_Version fe ∧ fp_Enabled p = fe_Enabled fe ∧
    fp_DisableReason p = fe_DisableReason fe ∧
    (fp_Status p = fe_Status fe ∨ fp_Status p = "" ∧ fe_Status fe = "UNKNOWN") ∧
    (tab ≠ "assignments" → ∃ dep, fp_WinningAssignment p = Some dep ∧ uuid_String (fa_ID dep) = fe_AssignmentID fe).
Proof.
  intros Hf H. unfold loadFeaturePageData in H.
  apply steady_bind in H as (tenant & Ht & H); [|by apply steady_query].
  apply steady_bind in H as (env & He & H); [|by apply steady_query].
  apply steady_bind in H as (feat & Hfeat & H); [|unfold FeatureForEnvironment; steady; by apply steady_winner].
  unfold FeatureForEnvironment in Hfeat. apply steady_bind in Hfeat as (dep & Hdep & [= Hfe]); [|by apply steady_winner].
  apply steady_bind in H as (dis & Hdis & H); [|unfold GetFeatureDisabledAt, none_if_no_rows; steady].
  apply steady_bind in H as (reason & Hreason & H);
    [|destruct dis.2; unfold LatestDisableReason, LatestDisableReason_query; steady].
  apply steady_bind in H as (envs & _ & H); [|by apply steady_LoadEnvironments].
  destruct (found_environment _ _ _ _ _ Hf Ht He) as (te & Hte & Hid & Hname & Htn & Hre).
  destruct (ReconcileStatuses_now w (fa_ID dep) Hf) as (statuses & Hst & Hnorm).
  destruct (page_status_now w env te dis.2 name dep statuses Hf Hid Hre Hdep Hst) as (status & Hps & Hs).
  rewrite (bind_run _ _ _ _ _ Hps) in H.
  apply steady_bind in H as (items & _ & H); [|case_bool_decide; cbn [negb]; [steady|by apply steady_config]].
  apply steady_bind in H as (log & _ & H); [|by apply steady_log].
  apply steady_bind in H as (part & Hpart & H); [|case_bool_decide; cbn [negb]; [by apply steady_tab|by apply steady_merged]].
  apply steady_bind in H as (entries & _ & [= <- <-]);
    [|unfold ListForFeatureInEnvironment, ListForFeatureInEnvironment_query, list_audits; steady].
  split; [done|]. rewrite <-Hid in Hdep, Hdis, Hreason.
  destruct (single_row_winner w name te dep statuses dis reason Hdep Hst Hdis Hreason)
    as (fe & Hsingle & Hi & Hv & Hen & Hrs & Hfs).
  exists te, fe. cbn. rewrite Hv, Hen, Hrs, Hfs, Hs, Hi, <-Hfe. split_and!; try done.
  - destruct (negb _ || _); [by left|].
    destruct (find _ statuses) as [s|] eqn:Ef; [left|by right]. apply find_some in Ef as [Hin _].
    cbn. symmetry. apply Hnorm. by apply list_elem_of_In.
  - intros Htab. exists dep. split; [|done]. rewrite bool_decide_eq_false_2 in Hpart by done.
    rewrite Hid in Hdep. by eapply merged_winning.
Qed.
End page_facts.

(** ** Examples *)

#[local] Existing Instances echo example_pg example_codec.
#[local] Instance page_decoder : ObjectCodec := {| unmarshal_object _ := Ok ∅ |}.
#[local] Instance page_form : FormJson :=
  {| form_Unmarshal s := Ok (VStr s); form_Unmarshal_strings _ := Err (ErrString "not a list");
     form_Unmarshal_string s := Ok s; form_Marshal _ := Ok ""; form_Indent s := Ok s |}.
#[local] Instance page_scan : Scan := {| scan l := l |}.
#[local] Instance page_logs : LogScan := {| scan_logs l := l |}.

Definition example_page (tab : string) : IO FeaturePage :=
  loadFeaturePageData tally (λ _, 0%N) (λ _, "2006") [] "" "nav" "dev" "app" tab.

Lemma page_shows_row_witness :
  ∃ p te fe, example_page "overview" example_deployed = (Ok p, example_deployed) ∧
    single_row tally "app" te example_deployed = (Ok (Some fe), example_deployed) ∧
    fp_Status p = "DEPLOYED" ∧ f_Version (fp_Feature p) = fe_Version fe.
Proof.
  destruct (example_page "overview" example_deployed) as [[p|e|m] w'] eqn:E; [|vm_compute in E; discriminate E..].
  destruct (page_shows_row tally (λ _, 0%N) (λ _, "2006") [] "" "nav" "dev" "app" "overview" example_deployed p w'
    eq_refl E) as (Hw & te & fe & _ & _ & _ & Hs & Hv & _).
  exists p, te, fe. split; [by rewrite Hw|]. split; [exact Hs|]. split; [|exact Hv].
  vm_compute in E. injection E as <- _. reflexivity.
Defined.

Lemma assignments_tab_first_witness :
  ∃ te item rest, loadEnvironmentAssignments tally (λ t, pretty t) "app" (te_ID te) example_deployed =
      (Ok (item :: rest), example_deployed) ∧ ea_Status item = "DEPLOYED".
Proof.
  destruct (tenant_environments example_deployed) as [|te tes] eqn:Et; [vm_compute in Et; discriminate Et|].
  assert (Hin : te ∈ tenant_environments example_deployed) by (rewrite Et; left).
  destruct (assignments_tab_first (pg := example_pg) (codec := example_codec) tally (λ t, pretty t) (λ _ _, or_introl eq_refl) (λ _ _ _ _ _, eq_refl) tally_plain
    tally_inj example_deployed "app" example_listed te eq_refl example_featureenvs_ok example_current_distinct Hin)
    as (items & found & H1 & H2 & H3).
  { intros x y Hx Hy Hlt. exfalso. vm_compute example_listed in Hx, Hy.
    apply list_elem_of_singleton in Hx as ->. apply list_elem_of_singleton in Hy as ->. lia. }
  assert (Hte : te = hd te (tenant_environments example_deployed)) by (by rewrite Et).
  rewrite Hte in H2 at 1. clear Hte. vm_compute in Et. injection Et as <- _. vm_compute in H2. injection H2 as <-.
  destruct H3 as (item & rest & -> & _ & _ & Hs). eexists _, item, rest. split; [exact H1|]. rewrite Hs; reflexivity.
Defined.
