(* ===== verification/Operations.v ===== *)
(** * Every operation keeps the tables' integrity

    The triples of the operations of the API, of the receiver, of the reconcile loop and
    of the deployer, whatever fails on the way. *)

From S2P Require Export Invariant.

Create HintDb safe.
#[export] Hint Resolve safe_audit_Create safe_for_each safe_exec_other : safe.

(** Follows the structure of an operation down to the statements that change tables. *)
Ltac safe_op :=
  cbv beta zeta;
  repeat (cbv beta zeta; first
    [ solve [apply safe_triple; eauto with safe nocore]
    | solve [apply safe_triple, safe_reads; unfold Get, GetByName, GetTenant, GetTenantByName, GetLabels; solve_reads]
    | apply triple_wrapping | apply safe_attempt | apply safe_none_if_no_rows | apply safe_WithTx
    | apply safe_bind; [|intros ?]
    | match goal with |- triple _ (if ?b then _ else _) _ => destruct b
                    | |- triple _ (match ?x with _ => _ end) _ => destruct x end ]).

(** ** Environments *)

Section environments.
Context (actor : string).

Lemma key_free {A K} `{EqDecision K} (key : A → K) (p : A → bool) l x :
  existsb p l = false → (∀ y, key y = key x → p y = true) → ∀ y, y ∈ l → key y ≠ key x.
Proof.
  intros He Hp y Hy Hk. apply not_true_iff_false in He. apply He, existsb_exists.
  exists y. split; [by apply list_elem_of_In|]. by apply Hp.
Qed.

Lemma fresh_key {A} (id : A → uuid) n l y : Forall (λ x, id x ≠ n) l → y ∈ l → id y ≠ n.
Proof. rewrite Forall_forall. auto. Qed.

Lemma triple_insert_unique P clash f :
  (∀ fs w, P w → P (set_w_faults fs w)) →
  (∀ w, server_wf w → P w → clash w = false → server_wf (f w) ∧ later w (f w)) →
  triple P (insert_unique clash f) (λ _ _, True).
Proof.
  intros HP Hf. unfold insert_unique. apply triple_external; [done|].
  intros w Hw Hp. destruct (clash w) eqn:E; simpl; [by split_and!; auto using later_refl|].
  destruct (Hf w Hw Hp E). by split_and!.
Qed.

Lemma safe_new {B} (k : uuid → IO B) :
  (∀ id, triple (fresh id) (k id) (λ _ _, True)) → safe (uuid_New ≫= k).
Proof.
  intros Hk. apply (triple_bind _ _ (λ id w, True ∧ fresh id w)); [by apply triple_uuid_New|].
  intros id. eapply triple_weaken; [apply Hk|by intros w []|done].
Qed.

Lemma triple_insert_tenant row :
  triple (fresh (t_ID row))
    (insert_unique (λ w, existsb (λ t, bool_decide (t_Name t = t_Name row)) (tenants (w_env w)))
      (set_w_env (set_tenants (λ l, l ++ [row])))) (λ _ _, True).
Proof.
  apply triple_insert_unique; [done|]. intros w Hw (Hlt & Hfr & _) Hc.
  apply server_wf_env; [done|]. destruct (sw_env _ Hw). split; simpl; try done.
  - apply NoDup_snoc_key; [done|]. apply (key_free _ _ _ _ Hc). intros y Hy. by apply bool_decide_eq_true.
  - apply NoDup_snoc_key; [done|]. intros y. by apply fresh_key.
  - by apply below_snoc.
Qed.

Lemma triple_CreateEnvironment_query row :
  triple (fresh (er_ID row)) (CreateEnvironment_query row) (λ _ _, True).
Proof.
  apply triple_insert_unique; [done|]. intros w Hw (Hlt & _ & Hfr & _) Hc.
  apply server_wf_env; [done|]. destruct (sw_env _ Hw). split; simpl; try done.
  - by apply NoDup_names_snoc.
  - apply NoDup_snoc_key; [done|]. intros y. by apply fresh_key.
  - by apply below_snoc.
Qed.

Lemma safe_CreateTenant name description : safe (CreateTenant actor name description).
Proof.
  apply safe_WithTx_undo; [apply rollback_but_env_partial|]. apply safe_new. intros id.
  eapply triple_bind; [|intros ?; safe_op]. set (row := {| t_ID := id |}). exact (triple_insert_tenant row).
Qed.

Lemma safe_Environment_Create env : safe (Environment_Create actor env).
Proof.
  apply safe_WithTx_undo; [apply rollback_but_env_partial|]. unfold create_in_tx.
  apply safe_bind; [safe_op|]. intros t. apply safe_new. intros id.
  eapply triple_bind; [|intros ?; safe_op]. set (row := {| er_ID := id |}).
  exact (triple_CreateEnvironment_query row).
Qed.

(** Rewriting rows in place without touching what identifies them. *)
Lemma fmap_key {A K} (key : A → K) (f : A → A) (l : list A) :
  (∀ x, key (f x) = key x) → key <$> (f <$> l) = key <$> l.
Proof. intros Hf. induction l as [|x l IH]; [done|]. by rewrite !fmap_cons, Hf, IH. Qed.

Lemma below_fmap {A} (id : A → uuid) n (f : A → A) (l : list A) :
  (∀ x, id (f x) = id x) → below id n l → below id n (f <$> l).
Proof. intros Hf Hl. apply Forall_fmap. eapply Forall_impl; [exact Hl|]. intros x Hx. simpl. by rewrite Hf. Qed.

Lemma below_filter {A} (id : A → uuid) n (P : A → Prop) `{∀ x, Decision (P x)} l :
  below id n l → below id n (filter P l).
Proof. unfold below. rewrite !Forall_forall. intros Hl x [_ Hx]%list_elem_of_filter. by apply Hl. Qed.

Lemma safe_SetLabels id labels : safe (SetLabels actor id labels).
Proof.
  unfold SetLabels. apply safe_bind; [safe_op|]. intros e. apply safe_bind; [|intros ?; safe_op].
  apply safe_exec_env. intros d n []. split; simpl; try done.
  - rewrite fmap_key; [done|]. intros x. by case_bool_decide.
  - rewrite fmap_key; [done|]. intros x. by case_bool_decide.
  - apply below_fmap; [|done]. intros x. by case_bool_decide.
Qed.

Lemma triple_guarded {A} P (m : IO A) :
  (∀ fs w, P w → P (set_w_faults fs w)) →
  (∀ w, server_wf w → P w → server_wf (m w).2 ∧ later w (m w).2) →
  triple P (external m) (λ _ _, True).
Proof.
  intros HP Hm. apply triple_external; [done|]. intros w Hw Hp.
  destruct (Hm w Hw Hp). by split_and!.
Qed.

Lemma unchanged_wf w : server_wf w → server_wf w ∧ later w w.
Proof. auto using later_refl. Qed.

Lemma upsert_value_wf row d n :
  env_wf d n → env_wf (set_environment_values (upsert_value row) d) n.
Proof.
  intros []. split; simpl; try done. unfold upsert_value. destruct (existsb _ _) eqn:E.
  - rewrite fmap_key; [done|]. intros x.
    destruct (bool_decide (ev_EnvironmentID x = _) && _) eqn:Ex; [|done].
    apply andb_true_iff in Ex as [Hx1%bool_decide_eq_true Hx2%bool_decide_eq_true]. by rewrite Hx1, Hx2.
  - apply NoDup_snoc_key; [done|]. apply (key_free (λ v, (ev_EnvironmentID v, ev_Key v)) _ _ _ E). intros y [= Hy1 Hy2].
    by rewrite !bool_decide_eq_true_2.
Qed.

Lemma safe_SetEnvironmentValue row : safe (SetEnvironmentValue actor row).
Proof.
  apply safe_WithTx_undo; [apply rollback_but_env_partial|].
  apply safe_bind; [|intros ?; safe_op]. apply triple_wrapping, triple_guarded; [done|]. intros w Hw _.
  destruct (existsb _ _); [|by apply unchanged_wf]. apply server_wf_env; [done|].
  apply upsert_value_wf, (sw_env _ Hw).
Qed.

Lemma safe_filter_values (P : EnvironmentValueRow → Prop) `{∀ v, Decision (P v)} :
  safe (exec (set_w_env (set_environment_values (filter P)))).
Proof.
  apply safe_exec_env. intros d n []. split; simpl; try done. by apply NoDup_fmap_filter.
Qed.

Lemma safe_DeleteEnvironmentValue id key : safe (DeleteEnvironmentValue actor id key).
Proof.
  apply safe_WithTx_undo; [apply rollback_but_env_partial|].
  apply safe_bind; [|intros ?; safe_op]. apply triple_wrapping, safe_filter_values.
Qed.
End environments.

(** ** Assignments *)

Section assignments.
Context `{pg : Postgres} `{codec : FeatureCodec} `{enc : FeatureEncoder} `{tpl : TemplateParse}.



Lemma safe_insert_feature_data d : safe (insert_feature_data d).
Proof.
  apply triple_guarded; [done|]. intros w Hw _.
  repeat (match goal with |- context [if ?b then _ else _] => destruct b eqn:?E end;
          [by apply unchanged_wf|]). simpl.
  apply server_wf_feature; [done|]. destruct (sw_feature _ Hw). split; simpl; try done.
  - apply NoDup_snoc_key; [done|].
    apply (key_free (λ f, (fd_Name f, fd_Version f)) _ _ _ E1). intros y [= Hy1 Hy2].
    by rewrite !bool_decide_eq_true_2.
  - intros a (f & Hf & Hn)%fw_foreign_key. exists f. split; [apply elem_of_app; by left|done].
Qed.

Lemma safe_deactivate_where p : safe (deactivate_where p).
Proof.
  apply (safe_exec_feature (λ _, _)). intros _ d n []. split; simpl; try done.
  - by apply deactivated_NoDup.
  - rewrite fmap_key; [done|]. intros x. by destruct (p x).
  - apply below_fmap; [|done]. intros x. by destruct (p x).
  - intros a (a' & -> & Ha)%list_elem_of_fmap. destruct (fw_foreign_key a' Ha) as (f & ?).
    exists f. by destruct (p a').
Qed.

Lemma safe_CreateFeatureAssignment_query name version target ghRef desc :
  safe (CreateFeatureAssignment_query name version target ghRef desc).
Proof.
  apply safe_new. intros id. apply triple_guarded; [done|]. intros w Hw Hfr. cbv zeta.
  destruct (negb _) eqn:Ed; [by apply unchanged_wf|].
  destruct (existsb (active_for _ _) _) eqn:Ea; [by apply unchanged_wf|].
  apply server_wf_feature; [done|]. destruct Hfr as (Hlt & _ & _ & Hfr & _).
  destruct (sw_feature _ Hw). split; simpl; try done.
  - unfold active_rows. rewrite filter_app, filter_cons, decide_True by done.
    change (filter _ []) with (@nil AssignmentRow).
    apply existsb_active_for in Ea. apply NoDup_snoc_key; [done|]. intros y Hy Hk. apply Ea.
    apply list_elem_of_fmap. exists y. by rewrite Hk.
  - apply NoDup_snoc_key; [done|]. intros y. by apply fresh_key.
  - by apply below_snoc.
  - intros a [Ha| ->%list_elem_of_singleton]%elem_of_app; [by apply fw_foreign_key|]. simpl.
    apply negb_false_iff, existsb_exists in Ed as (f & Hf%list_elem_of_In & Hb).
    apply andb_true_iff in Hb as [H1%bool_decide_eq_true H2%bool_decide_eq_true]. by exists f.
Qed.
#[local] Hint Resolve safe_insert_feature_data safe_deactivate_where
  safe_CreateFeatureAssignment_query : safe.

Context (ChartDownloader : string → string → outcome Feature) (uuid_String : uuid → string)
  (actor : string).

Lemma safe_Create i : safe (Create ChartDownloader uuid_String actor i).
Proof.
  unfold Create, createFeatureAssignment, stored, CreateFeatureData,
    DeactivateActiveFeatureAssignmentForTarget.
  apply safe_bind; [apply triple_wrapping, triple_external; [done|]; safe_op|]. intros feat. safe_op.
Qed.

Lemma safe_Deactivate id : safe (Deactivate uuid_String actor id).
Proof. unfold Deactivate, GetFeatureAssignment_query, DeactivateFeatureAssignment. safe_op. Qed.

Lemma safe_DeactivateByFeatureAndTarget name target :
  safe (DeactivateByFeatureAndTarget actor name target).
Proof.
  unfold DeactivateByFeatureAndTarget, DeactivateActiveFeatureAssignmentForTarget. safe_op.
Qed.
End assignments.

(** ** Configuration and switches *)

Section config.
Context `{pg : Postgres} `{raw : RawJson} (actor : string).

(** [ON CONFLICT DO UPDATE] keeps the rows' keys, and adds the new one only if it is not
    there. *)
Lemma upsert_row_keys {A K} (key : A → K) same (upd : A → A) new l :
  (∀ x, key (upd x) = key x) →
  (key <$> (upsert_row same upd new l).1 = key <$> l) ∨
  (existsb same l = false ∧ (upsert_row same upd new l).1 = l ++ [new]).
Proof.
  intros Hu. induction l as [|x l IH]; simpl; [by right|].
  destruct (same x) eqn:E; simpl; [left; by rewrite Hu|].
  destruct (upsert_row same upd new l) as [l' r]; simpl in *.
  destruct IH as [IH|[He ->]]; [left; by f_equal|by right].
Qed.

Lemma upsert_row_below {A} (id : A → uuid) n same (upd : A → A) new l :
  (∀ x, id (upd x) = id x) → below id n l → (id new < n)%N →
  below id n (upsert_row same upd new l).1.
Proof.
  intros Hu Hl Hn. induction l as [|x l IH]; simpl; [by repeat constructor|].
  apply Forall_cons in Hl as [Hx Hl]. destruct (same x); simpl.
  - constructor; [by rewrite Hu|done].
  - destruct (upsert_row same upd new l) as [l' r]. constructor; [done|by apply IH].
Qed.

Lemma upsert_row_ids {A} (id : A → uuid) same (upd : A → A) new l :
  (∀ x, id (upd x) = id x) → NoDup (id <$> l) → Forall (λ x, id x ≠ id new) l →
  NoDup (id <$> (upsert_row same upd new l).1).
Proof.
  intros Hu Hl Hn. destruct (upsert_row_keys id same upd new l Hu) as [-> |[_ ->]]; [done|].
  apply NoDup_snoc_key; [done|]. by rewrite Forall_forall in Hn.
Qed.

Lemma upsert_row_NoDup {A K} `{EqDecision K} (key : A → K) same (upd : A → A) new l :
  (∀ x, key (upd x) = key x) → (∀ y, key y = key new → same y = true) →
  NoDup (key <$> l) → NoDup (key <$> (upsert_row same upd new l).1).
Proof.
  intros Hu Hs Hl. destruct (upsert_row_keys key same upd new l Hu) as [-> |[He ->]]; [done|].
  apply NoDup_snoc_key; [done|]. by apply (key_free _ _ _ _ He).
Qed.

Lemma safe_UpsertGlobalConfig feature desc secret key value :
  safe (UpsertGlobalConfig feature desc secret key value).
Proof.
  apply safe_new. intros id. apply triple_guarded; [done|]. intros w Hw Hfr. cbv zeta.
  set (new := {| cg_ID := id; cg_Created := _ |}).
  set (up := upsert_row _ _ _ _). assert (Hup : up = upsert_row (global_has feature key)
    (revalue_global value desc) new (configurations_global (w_feature w))) by done.
  destruct up as [l r]. simpl. apply server_wf_feature; [done|].
  destruct Hfr as (Hlt & _ & _ & _ & Hfr & _).
  assert (Hl : l = (upsert_row (global_has feature key) (revalue_global value desc) new
    (configurations_global (w_feature w))).1) by by rewrite <-Hup.
  destruct (sw_feature _ Hw). split; simpl; try done; rewrite Hl.
  - apply upsert_row_NoDup; [done| |done]. intros y [= Hy1 Hy2]. unfold global_has.
    by rewrite !bool_decide_eq_true_2.
  - by apply upsert_row_ids.
  - by apply upsert_row_below.
Qed.

Lemma safe_UpsertEnvConfig env feature desc secret key value :
  safe (UpsertEnvConfig env feature desc secret key value).
Proof.
  apply safe_new. intros id. apply triple_guarded; [done|]. intros w Hw Hfr. cbv zeta.
  set (new := {| ce_ID := id; ce_Created := _ |}).
  set (up := upsert_row _ _ _ _). assert (Hup : up = upsert_row (env_has env feature key)
    (revalue_env value desc) new (configurations_environment (w_feature w))) by done.
  destruct up as [l r]. simpl. apply server_wf_feature; [done|].
  destruct Hfr as (Hlt & _ & _ & _ & _ & Hfr & _).
  assert (Hl : l = (upsert_row (env_has env feature key) (revalue_env value desc) new
    (configurations_environment (w_feature w))).1) by by rewrite <-Hup.
  destruct (sw_feature _ Hw). split; simpl; try done; rewrite Hl.
  - apply upsert_row_NoDup; [done| |done]. intros y [= Hy1 Hy2 Hy3]. unfold env_has.
    by rewrite !bool_decide_eq_true_2.
  - by apply upsert_row_ids.
  - by apply upsert_row_below.
Qed.

Lemma safe_UpdateGlobalConfig id desc value : safe (UpdateGlobalConfig id desc value).
Proof.
  apply triple_guarded; [done|]. intros w Hw _. cbv zeta.
  destruct (find _ _); [|by apply unchanged_wf]. simpl. apply server_wf_feature; [done|].
  destruct (sw_feature _ Hw). split; simpl; try done.
  1,2: rewrite fmap_key; [done|]; intros x; by case_bool_decide.
  apply below_fmap; [|done]. intros x. by case_bool_decide.
Qed.

Lemma safe_UpdateEnvConfig_query id desc value : safe (UpdateEnvConfig_query id desc value).
Proof.
  apply triple_guarded; [done|]. intros w Hw _. cbv zeta.
  destruct (find _ _); [|by apply unchanged_wf]. simpl. apply server_wf_feature; [done|].
  destruct (sw_feature _ Hw). split; simpl; try done.
  1,2: rewrite fmap_key; [done|]; intros x; by case_bool_decide.
  apply below_fmap; [|done]. intros x. by case_bool_decide.
Qed.

Lemma safe_DeleteGlobalConfig id : safe (DeleteGlobalConfig id).
Proof.
  apply (safe_exec_feature (λ _, _)). intros _ d n [].
  split; simpl; try done; by apply NoDup_fmap_filter || by apply below_filter.
Qed.

Lemma safe_DeleteEnvConfig_query id : safe (DeleteEnvConfig_query id).
Proof.
  apply (safe_exec_feature (λ _, _)). intros _ d n [].
  split; simpl; try done; by apply NoDup_fmap_filter || by apply below_filter.
Qed.

Lemma safe_disabled (g : world → gmap (N * string) time → gmap (N * string) time) :
  safe (exec (λ w, set_w_feature (set_disabled_features (g w)) w)).
Proof. apply (safe_exec_feature (λ w, set_disabled_features (g w))). intros w d n []. by split. Qed.
#[local] Hint Resolve safe_UpsertGlobalConfig safe_UpsertEnvConfig safe_UpdateGlobalConfig
  safe_UpdateEnvConfig_query safe_DeleteGlobalConfig safe_DeleteEnvConfig_query safe_disabled : safe.

Ltac safe_config := unfold writeConfigUpsertAudit, GetGlobalConfigByKey, GetEnvConfigByKey,
  GetGlobalConfigByID, GetEnvConfigByID; safe_op.

Lemma safe_CreateEnvConfig c : safe (CreateEnvConfig actor c).
Proof. unfold CreateEnvConfig. safe_config. Qed.
Lemma safe_CreateGlobalConfig c : safe (CreateGlobalConfig actor c).
Proof. unfold CreateGlobalConfig. safe_config. Qed.
Lemma safe_UpdateConfig in_tx id c : safe (UpdateConfig actor in_tx id c).
Proof. unfold UpdateConfig. safe_config. Qed.
Lemma safe_DeleteConfig in_tx id : safe (DeleteConfig actor in_tx id).
Proof. unfold DeleteConfig. safe_config. Qed.
Lemma safe_UpdateEnvConfig in_tx id c : safe (UpdateEnvConfig actor in_tx id c).
Proof. unfold UpdateEnvConfig. safe_config. Qed.
Lemma safe_DeleteEnvConfig in_tx id : safe (DeleteEnvConfig actor in_tx id).
Proof. unfold DeleteEnvConfig. safe_config. Qed.
Lemma safe_DisableFeature env name reason : safe (DisableFeature actor env name reason).
Proof. unfold DisableFeature, SetDisabledFeature. safe_config. Qed.
Lemma safe_EnableFeature env name : safe (EnableFeature actor env name).
Proof. unfold EnableFeature. safe_config. Qed.
End config.

(** ** The deploy log *)

(** The new row repeats what a row of the log says, but for its status. *)
Definition repeats (p : AppendDeploysParams) (r : DeployRow) : Prop :=
  ap_Diid p = dl_Diid r ∧ ap_EnvironmentID p = dl_EnvironmentID r ∧
  ap_FeatureAssignmentID p = dl_FeatureAssignmentID r ∧ ap_FeatureName p = dl_FeatureName r ∧
  ap_FeatureVersion p = dl_FeatureVersion r ∧ ap_Hash p = dl_Hash r.

Lemma insert_deploy_repeats p r w :
  server_wf w → r ∈ deploy_log (w_rec w) → repeats p r →
  server_wf (insert_deploy (deploy_of p) w) ∧ later w (insert_deploy (deploy_of p) w).
Proof.
  intros [E F L [R1 R2] P] Hr (Hd & He & Ha & Hn & Hv & Hh).
  set (new := deploy_of p (next_log_id (w_rec w)) (w_now w)).
  assert (Hcase : ∀ x, x ∈ deploy_log (w_rec w) ++ [new] →
    ∃ y, y ∈ deploy_log (w_rec w) ∧ dl_Diid x = dl_Diid y ∧ dl_EnvironmentID x = dl_EnvironmentID y ∧
      dl_FeatureAssignmentID x = dl_FeatureAssignmentID y ∧ dl_FeatureName x = dl_FeatureName y ∧
      dl_FeatureVersion x = dl_FeatureVersion y ∧ dl_Hash x = dl_Hash y).
  { intros x [Hx| ->%list_elem_of_singleton]%elem_of_app; [by exists x|by exists r]. }
  split.
  - split; try done; [by apply insert_deploy_wf|]. split; simpl.
    + intros x (y & Hy & Hxd & _ & _ & Hxn & Hxv & Hxh)%Hcase.
      destruct (R1 y Hy) as (tm & Htm & Hm). exists tm. split; [done|].
      unfold instruction_of_row. by rewrite Hxd, Hxn, Hxv, Hxh.
    + intros x x' (y & Hy & Hxd & Hxe & Hxa & _)%Hcase (y' & Hy' & Hxd' & Hxe' & Hxa' & _)%Hcase Hdd.
      rewrite Hxe, Hxa, Hxe', Hxa'. apply R2; [done..|congruence].
  - split; [done|done|exists []; by rewrite app_nil_r|]. exists [new]. split; [done|].
    intros x ->%list_elem_of_singleton. left. by exists r.
Qed.

Lemma row_stable r : stable (λ w, r ∈ deploy_log (w_rec w)).
Proof. intros w w' _ [_ _ _ (l & -> & _)] Hr. apply elem_of_app. by left. Qed.

(** ** Status messages *)

Section receiver.
Context `{codec : MessageCodec} (slackChannel : string).

Lemma triple_none_if_no_rows {A} (m : IO A) Q :
  triple (λ _, True) m Q →
  triple (λ _, True) (none_if_no_rows m) (λ o w, match o with Some a => Q a w | None => True end).
Proof.
  intros Hm w Hw Hp. destruct (Hm w Hw Hp) as (H1 & H2 & HQ).
  unfold none_if_no_rows, attempt, mbind, M_bind.
  destruct (m w) as [[a|e|p] w1]; simpl in *; [| |by split_and!].
  - split_and!; [done..|]. intros o [= <-]. by apply HQ.
  - destruct (errors_is e ErrNoRows); simpl; split_and!; try done. by intros o [= <-].
Qed.

Lemma triple_LatestDeployByDIID diid :
  triple (λ _, True) (LatestDeployByDIID diid)
    (λ r w, r ∈ deploy_log (w_rec w) ∧ dl_Diid r = diid).
Proof.
  apply triple_external; [done|]. intros w Hw _. split_and!; [done|apply later_refl|].
  unfold deploy_newest_first. cbn [fst snd]. intros a Ha.
  destruct (isort _ _) as [|r l] eqn:E in Ha; [done|]. injection Ha as <-.
  assert (Hin : r ∈ r :: l) by by left.
  rewrite <-E in Hin. apply elem_of_isort, list_elem_of_filter in Hin as [??]. done.
Qed.

Lemma safe_handlerHelm msg : safe (handlerHelm slackChannel msg).
Proof.
  unfold handlerHelm. destruct (decode_Helm (st_Data msg)) as [h|]; [|safe_op].
  eapply triple_bind; [apply triple_none_if_no_rows, triple_LatestDeployByDIID|].
  intros [r|]; [|safe_op].
  assert (Hst : stable (λ w, r ∈ deploy_log (w_rec w) ∧ dl_Diid r = h_DIID h)).
  { intros w w' Hw Hl [Hr Hd]. split; [by eapply row_stable|done]. }
  apply triple_bind_stable; [safe_op|done|]. intros [env|]; [|safe_op].
  apply triple_bind_stable; [|done|].
  - destruct (bool_decide _); [|safe_op]. apply safe_bind; [safe_op|]. intros t.
    apply safe_bind; [|intros ?; safe_op]. apply safe_attempt, safe_exec_other. by intros w.
  - intros _. apply triple_wrapping, triple_exec; [done|]. intros w Hw [Hr Hd].
    destruct (insert_deploy_repeats
      {| ap_Diid := h_DIID h; ap_EnvironmentID := dl_EnvironmentID r;
         ap_FeatureAssignmentID := dl_FeatureAssignmentID r; ap_FeatureName := dl_FeatureName r;
         ap_FeatureVersion := dl_FeatureVersion r; ap_Status := h_RolloutStatus h;
         ap_Hash := dl_Hash r; ap_Vals := "{}" |} r w Hw Hr); [done|]. by split_and!.
Qed.

Lemma safe_releaseStatus msg : safe (releaseStatus msg).
Proof.
  unfold releaseStatus, message_env. destruct (decode_HelmRelease _); [|safe_op].
  apply safe_bind; [safe_op|]. intros [env|]; [|safe_op].
  apply safe_WithTx_undo; [apply rollback_but_rec_partial|].
  apply safe_bind; [apply triple_wrapping, safe_exec_rec; by intros d|]. intros _.
  apply safe_for_each. intros rel. apply triple_wrapping, safe_exec_rec. by intros d.
Qed.

Lemma safe_healthStatus msg : safe (healthStatus msg).
Proof.
  unfold healthStatus, message_env. destruct (decode_Health _); [|safe_op].
  apply safe_bind; [safe_op|]. intros [env|]; [|safe_op]. apply safe_exec_rec. by intros d.
Qed.

Lemma safe_handleStatusLog msg : safe (handleStatusLog msg).
Proof.
  unfold handleStatusLog. destruct (decode_StatusLog _); [|safe_op].
  apply safe_bind; [|intros ?; safe_op]. apply safe_attempt. unfold logCreate, LogsCreate.
  case_bool_decide; [safe_op|]. apply safe_exec_rec. by intros d.
Qed.

Lemma safe_handler msg : safe (handler slackChannel msg).
Proof.
  unfold handler. destruct (st_Type msg); auto using safe_handlerHelm, safe_releaseStatus,
    safe_healthStatus, safe_handleStatusLog; safe_op.
Qed.
End receiver.

(** ** The reconcile loop *)

Section loop.
Context `{ext : External} `{pg : Postgres} `{codec : FeatureCodec}.

Lemma insert_decision_server_wf p w :
  server_wf w → server_wf (insert_decision (decision_of p) w) ∧
    later w (insert_decision (decision_of p) w).
Proof.
  intros [E F L R P]. split; [|by apply later_same].
  split; try done. by apply insert_decision_wf.
Qed.

Lemma safe_writeResultLogs results : safe (writeResultLogs results).
Proof.
  unfold writeResultLogs, ListLatestDecisions. apply safe_bind; [safe_op|]. intros latest. cbv zeta.
  destruct (bool_decide _); [safe_op|]. apply triple_wrapping, triple_exec; [done|].
  intros w Hw _. generalize (changed_decisions (prev_decisions latest) results). intros ps.
  assert (server_wf (foldl (λ w p, insert_decision (decision_of p) w) w ps) ∧
          later w (foldl (λ w p, insert_decision (decision_of p) w) w ps)) as [? ?]; [|done].
  revert w Hw. induction ps as [|p ps IH]; intros w Hw; simpl; [by apply unchanged_wf|].
  destruct (insert_decision_server_wf p w Hw) as [Hw1 Hl1]. destruct (IH _ Hw1).
  split; [done|]. by eapply later_trans.
Qed.

Lemma safe_TimeoutPendingDeploys : safe TimeoutPendingDeploys.
Proof.
  unfold TimeoutPendingDeploys. apply safe_bind; [|intros ?; safe_op]. apply safe_attempt.
  apply triple_exec; [done|]. intros w Hw _. unfold timeout_pending.
  set (late := filter _ _).
  assert (Hin : ∀ r, r ∈ late → r ∈ deploy_log (w_rec w)).
  { intros r [_ Hr]%list_elem_of_filter.
    apply elem_of_deploy_status in Hr; [|apply Hw].
    pose proof (log_to_current_latest (deploy_log (w_rec w)) (log_key r)) as Hl.
    rewrite <-(wf_deploy_current _ (sw_logs _ Hw)), Hr in Hl. apply Hl. }
  clearbody late. cut (server_wf (foldl (λ w r, insert_deploy (deploy_of (fail_row r)) w) w late) ∧
    later w (foldl (λ w r, insert_deploy (deploy_of (fail_row r)) w) w late)).
  { by intros [? ?]. }
  revert w Hw Hin. induction late as [|r late IH]; intros w Hw Hin; simpl; [by apply unchanged_wf|].
  destruct (insert_deploy_repeats (fail_row r) r w Hw) as [Hw1 Hl1]; [apply Hin; by left|done|].
  destruct (IH _ Hw1) as [? ?].
  - intros r' Hr'. eapply row_stable; [done|exact Hl1|]. apply Hin. by right.
  - split; [done|]. by eapply later_trans.
Qed.

(** ** Handing over and recording *)

(** The two halves of [pubSub_Deploy]. *)
Definition publish_decisions (decisions : list DeployDecision) : IO (list AppendDeploysParams) :=
  toPublish ← map_each prepare (filter (λ d, dd_Action d = ActionDeploy) decisions);
  publish_all toPublish.
Definition append_published (rows : list AppendDeploysParams) : IO unit :=
  if bool_decide (rows = []) then mret tt
  else wrapping "append deploys" (AppendDeploys rows).

Lemma pubSub_Deploy_halves decisions w :
  pubSub_Deploy decisions w = (publish_decisions decisions ≫= append_published) w.
Proof.
  unfold pubSub_Deploy, publish_decisions, append_published, mbind, M_bind.
  by destruct (map_each _ _ w) as [[]].
Qed.

(** Rows whose message was handed to the client and that are not in the log yet. *)
Record pending_wf (rows : list AppendDeploysParams) (w : world) : Prop := {
  pw_ids : NoDup (ap_Diid <$> rows);
  pw_published : ∀ p, p ∈ rows → ∃ tm, tm ∈ published w ∧
    instruction_of_row (deploy_of p 0 0%Z) tm.2;
  pw_new : ∀ p r, p ∈ rows → r ∈ deploy_log (w_rec w) → dl_Diid r ≠ ap_Diid p;
}.

(** Nobody else records them. *)
Lemma pending_stable rows : stable (pending_wf rows).
Proof.
  intros w w' _ [_ _ [l Hp] (l' & Hl & Hnew)] [H1 H2 H3]. split; [done|..].
  - intros p (tm & Htm & Hi)%H2. exists tm. split; [|done]. rewrite Hp. apply elem_of_app. by left.
  - intros p r Hpr. rewrite Hl. intros [Hr|Hr]%elem_of_app; [by apply H3|].
    destruct (Hnew r Hr) as [(r0 & Hr0 & <-)|Hn]; [by apply H3|].
    destruct (H2 p Hpr) as (tm & Htm & Hid & _). intros Hd. apply Hn.
    apply list_elem_of_fmap. exists tm. split; [|done]. simpl. by rewrite Hid, Hd.
Qed.

Lemma prepare_all_ids ds w o w' :
  map_each prepare ds w = (o, w') →
  w' = set_w_next_uuid (λ _, w_next_uuid w') w ∧ (w_next_uuid w <= w_next_uuid w')%N ∧
  ∀ items, o = Ok items → NoDup (pi_diid <$> items) ∧
    Forall (λ i, (w_next_uuid w <= pi_diid i < w_next_uuid w')%N) items.
Proof.
  revert w o w'. induction ds as [|d ds IH]; intros w o w' H; simpl in H.
  { injection H as <- <-. split_and!; [by destruct w|done|]. intros items [= <-].
    split; constructor. }
  unfold mbind at 1, M_bind at 1 in H.
  assert (∃ o1, prepare d w = (o1, set_w_next_uuid N.succ w) ∧
    ∀ i, o1 = Ok i → pi_diid i = w_next_uuid w) as (o1 & E1 & Hi).
  { unfold prepare, uuid_New, lift, mbind, M_bind. simpl.
    destruct (wrap _ _); eexists; (split; [done|]); by intros i [= <-]. }
  rewrite E1 in H. destruct o1 as [i|e|p];
    [|injection H as <- <-; split_and!; [done|simpl; lia|done]..].
  specialize (Hi i eq_refl). unfold mbind, M_bind in H.
  destruct (map_each prepare ds _) as [o2 w2] eqn:E2. destruct (IH _ _ _ E2) as (Hw & Hle & Hitems).
  simpl in Hle, Hw. assert (w' = w2) as -> by (by destruct o2; injection H as _ <-).
  split_and!; [by rewrite Hw|lia|]. intros items ->.
  destruct o2 as [items'| |]; [|done..]. injection H as <-.
  destruct (Hitems items' eq_refl) as [Hnd Hb]. split.
  - rewrite fmap_cons. constructor; [|done]. intros (j & Hj & Hin)%list_elem_of_fmap.
    rewrite Forall_forall in Hb. apply Hb in Hin. simpl in Hin. lia.
  - constructor; [lia|]. eapply Forall_impl; [exact Hb|]. simpl. lia.
Qed.

Lemma deploy_rows_ids (items : list publishItem) : ap_Diid <$> (deploy_row <$> items) = pi_diid <$> items.
Proof. induction items as [|i l IH]; [done|]. by rewrite !fmap_cons, IH. Qed.

Lemma message_ids (items : list publishItem) :
  Forall (λ i, di_ID (pi_instruction i) = pi_diid i) items →
  published_ids (message_of <$> items) = pi_diid <$> items.
Proof.
  induction 1 as [|i l Hi _ IH]; [done|]. unfold published_ids in *.
  rewrite !fmap_cons, IH. simpl. by rewrite Hi.
Qed.

(** Fresh identifiers are handed over, and the rows returned are to be recorded. *)
Lemma publish_decisions_run decisions w o w' :
  server_wf w → publish_decisions decisions w = (o, w') →
  server_wf w' ∧ later w w' ∧ deploy_log (w_rec w') = deploy_log (w_rec w) ∧
  ∀ rows, o = Ok rows → pending_wf rows w' ∧
    ∀ p, p ∈ rows → ap_Diid p ∉ published_ids (published w).
Proof.
  intros Hw H. unfold publish_decisions, mbind, M_bind in H.
  destruct (map_each prepare _ w) as [oi w1] eqn:E1.
  destruct (prepare_all_ids _ _ _ _ E1) as (Hw1 & Hle & Hitems).
  assert (server_wf w1 ∧ later w w1) as [Hwf1 Hl1].
  { destruct Hw as [E F L R P]. rewrite Hw1. split.
    - split; simpl; [by eapply env_wf_mono|by eapply feature_wf_mono| |done|by eapply published_wf_mono].
      by eapply logs_wf_mono; [..|exact L].
    - split; simpl; [lia|done|exists []; by rewrite app_nil_r|]. exists []. rewrite app_nil_r.
      split; [done|]. by intros r Hr%elem_of_nil. }
  assert (Hlog1 : deploy_log (w_rec w1) = deploy_log (w_rec w)) by by rewrite Hw1.
  assert (Hpub1 : published w1 = published w) by by rewrite Hw1.
  destruct oi as [items|e|p]; [|by injection H as <- <-..].
  destruct (Hitems items eq_refl) as [Hnd Hb].
  pose proof (prepare_all_Ok _ _ _ _ E1) as Hfor.
  destruct (publish_all_run items w1 (items_encoded _ _ Hfor)) as (w2 & E2 & Hpub & Hs & _).
  rewrite E2 in H. injection H as <- <-.
  assert (Hrec : w_rec w2 = w_rec w1) by by rewrite Hs.
  assert (Hi : ∀ i, i ∈ items → item_for (pi_res i) i).
  { destruct (items_of _ _ Hfor) as [_ Hall]. by rewrite Forall_forall in Hall. }
  assert (Hids : published_ids (published w2) =
    published_ids (published w) ++ (pi_diid <$> items)).
  { rewrite Hpub, published_ids_app, Hpub1. f_equal. apply message_ids, Forall_forall.
    intros i Hi'. destruct (Hi i Hi') as (_ & -> & _). done. }
  assert (Hnew : ∀ i, i ∈ items → (w_next_uuid w <= pi_diid i < w_next_uuid w1)%N).
  { intros i Hi'. rewrite Forall_forall in Hb. by apply Hb. }
  assert (Hold : ∀ id, id ∈ published_ids (published w) → (id < w_next_uuid w)%N).
  { destruct (sw_published _ Hw) as [_ Hlt]. by rewrite Forall_forall in Hlt. }
  assert (Hnext : w_next_uuid w2 = w_next_uuid w1) by by rewrite Hs.
  assert (Hlw : later w1 w2).
  { split; [by rewrite Hs|by rewrite Hs|by eexists|]. exists []. rewrite app_nil_r, Hrec.
    split; [done|]. by intros r Hr%elem_of_nil. }
  split_and!.
  - destruct Hwf1 as [E F L R P]. split.
    + by rewrite Hs.
    + by rewrite Hs.
    + eapply logs_wf_mono; [exact Hrec|by rewrite Hs|done].
    + rewrite Hrec, Hpub. by apply rows_wf_mono.
    + split; rewrite Hids.
      * apply NoDup_app. split_and!; [apply (sw_published _ Hw)| |done].
        intros id Hid (i & -> & Hi')%list_elem_of_fmap. apply Hold in Hid. apply Hnew in Hi'. lia.
      * apply Forall_app. split; apply Forall_forall.
        -- intros id Hid%Hold. rewrite Hnext. lia.
        -- intros id (i & -> & Hi'%Hnew)%list_elem_of_fmap. rewrite Hnext. lia.
  - by eapply later_trans.
  - by rewrite Hrec.
  - intros rows [= <-]. split; [split|].
    + by rewrite deploy_rows_ids.
    + intros p (i & -> & Hi')%list_elem_of_fmap. exists (message_of i).
      split; [rewrite Hpub; apply elem_of_app; right; by apply list_elem_of_fmap_2|].
      destruct (Hi i Hi') as (_ & Hinst & _). simpl. by rewrite Hinst.
    + intros p r (i & -> & Hi')%list_elem_of_fmap Hr. rewrite Hrec, Hlog1 in Hr.
      destruct (rw_published _ _ (sw_rows _ Hw) r Hr) as (tm & Htm & Hid & _).
      assert (dl_Diid r ∈ published_ids (published w)) as Hlt%Hold.
      { apply list_elem_of_fmap. by exists tm. }
      apply Hnew in Hi'. simpl. lia.
    + intros p (i & -> & Hi'%Hnew)%list_elem_of_fmap Hid%Hold. simpl in Hid. lia.
Qed.

Lemma append_deploys_frame ps w :
  let w' := foldl (λ w p, insert_deploy (deploy_of p) w) w ps in
  w_env w' = w_env w ∧ w_feature w' = w_feature w ∧ w_next_uuid w' = w_next_uuid w ∧
  w_now w' = w_now w ∧ published w' = published w.
Proof.
  revert w. induction ps as [|p ps IH]; intros w; [done|]. cbn [foldl].
  destruct (IH (insert_deploy (deploy_of p) w)) as (H1 & H2 & H3 & H4 & H5).
  cbn zeta. by rewrite H1, H2, H3, H4, H5.
Qed.

(** Recording what was handed over. *)
Lemma append_published_run rows w o w' :
  server_wf w → pending_wf rows w → append_published rows w = (o, w') →
  server_wf w' ∧ w_next_uuid w' = w_next_uuid w ∧ w_now w' = w_now w ∧ published w' = published w ∧
  ∃ l, deploy_log (w_rec w') = deploy_log (w_rec w) ++ l ∧
    (∀ r, r ∈ l → dl_Diid r ∈ ap_Diid <$> rows) ∧
    (is_Ok o = true → Forall2 (λ p r, ∃ id, r = deploy_of p id (w_now w)) rows l).
Proof.
  intros Hw [Hnd Hpub Hnew] H. unfold append_published in H. case_bool_decide as Hrows.
  { injection H as <- <-. split_and!; [done..|]. exists []. rewrite app_nil_r.
    split_and!; [done|by intros r Hr%elem_of_nil|]. subst rows. constructor. }
  unfold wrapping, AppendDeploys, exec, external, mbind, M_bind in H.
  destruct (next_fault w) as [fl w1] eqn:E. pose proof (next_fault_same _ _ _ E) as Hs.
  destruct (server_wf_same_world _ _ Hs Hw) as [Hw1 _]. pose proof (same_world_rec _ _ Hs) as Hr1.
  assert (H1 : w_next_uuid w1 = w_next_uuid w ∧ w_now w1 = w_now w ∧ published w1 = published w)
    by (rewrite Hs; by repeat split).
  destruct H1 as (Hu1 & Hn1 & Hp1).
  destruct fl as [[e|]|e|p]; unfold fail, modify in H; cbn [wrap] in H; injection H as <- <-;
    try (split_and!; [done..|]; exists []; rewrite app_nil_r, Hr1; split_and!;
         [done|by intros r Hr%elem_of_nil|done]).
  destruct (append_deploys_frame rows w1) as (F1 & F2 & F3 & F4 & F5).
  destruct (append_deploys_log rows w1) as (l & Hl & Hf & _).
  pose proof (append_deploys_wf rows w1 (sw_logs _ Hw1)) as Hlogs.
  set (w2 := foldl _ w1 rows) in *.
  assert (Hrow : ∀ r, r ∈ l → ∃ p, p ∈ rows ∧ ∃ id, r = deploy_of p id (w_now w)).
  { intros r Hr. apply list_elem_of_lookup in Hr as [i Hi].
    destruct (Forall2_lookup_r _ _ _ _ _ Hf Hi) as (p & Hp & id & ->).
    exists p. split; [by eapply list_elem_of_lookup_2|]. exists id. by rewrite Hn1. }
  split_and!; [|congruence..|].
  - destruct Hw1 as [We Wf _ [Wr1 Wr2] Wp]. split; rewrite ?F1, ?F2, ?F3, ?F5; try done.
    rewrite Hl, Hr1, Hp1. rewrite Hr1 in Wr1, Wr2. rewrite Hp1 in Wr1. split.
    + intros r [Hr|Hr]%elem_of_app; [by apply Wr1|]. destruct (Hrow r Hr) as (p & Hp & id & ->).
      destruct (Hpub p Hp) as (tm & Htm & Hi). by exists tm.
    + intros r r' [Hr|Hr]%elem_of_app [Hr'|Hr']%elem_of_app Hd; [by apply Wr2|..].
      * destruct (Hrow r' Hr') as (p & Hp & id & ->). by destruct (Hnew p r Hp Hr).
      * destruct (Hrow r Hr) as (p & Hp & id & ->). by destruct (Hnew p r' Hp Hr').
      * destruct (Hrow r Hr) as (p & Hp & id & ->), (Hrow r' Hr') as (p' & Hp' & id' & ->).
        assert (p = p') as ->; [|done]. by apply (NoDup_fmap_inj_on ap_Diid rows).
  - exists l. rewrite Hl, Hr1. split_and!; [done| |by rewrite <-Hn1].
    intros r Hr. destruct (Hrow r Hr) as (p & Hp & id & ->). by apply (list_elem_of_fmap_2 ap_Diid).
Qed.

Lemma safe_pubSub_Deploy decisions : safe (pubSub_Deploy decisions).
Proof.
  intros w Hw _. rewrite pubSub_Deploy_halves. unfold mbind, M_bind.
  destruct (publish_decisions decisions w) as [o w1] eqn:E1.
  destruct (publish_decisions_run _ _ _ _ Hw E1) as (Hw1 & Hl1 & Hlog & Hrows).
  destruct o as [rows|e|p]; [|by split_and!..]. destruct (Hrows rows eq_refl) as [Hpend Hfresh].
  destruct (append_published rows w1) as [o w2] eqn:E2.
  destruct (append_published_run _ _ _ _ Hw1 Hpend E2) as (Hw2 & Hu & Hn & Hp & l & Hl & Hd & _).
  cbn [fst snd]. split_and!; [done| |done]. destruct Hl1 as [L1 L2 L3 L4].
  split; [by rewrite Hu|by rewrite Hn|by rewrite Hp|]. exists l. rewrite Hl, Hlog. split; [done|].
  intros r (p & Hrp & Hp')%Hd%list_elem_of_fmap. right. rewrite Hrp. by apply Hfresh.
Qed.

Lemma triple_hand_over topic m :
  triple (fresh (di_ID m)) (modify (set_published (λ l, l ++ [(topic, m)]))) (λ _ _, True).
Proof.
  apply triple_modify. intros w [E F L R [P1 P2]] (Hlt & _ & _ & _ & _ & _ & Hfr).
  assert (Hids : published_ids (published w ++ [(topic, m)]) =
    published_ids (published w) ++ [di_ID m]) by by rewrite published_ids_app.
  split_and!; [|split; [done|done|by eexists|]|done].
  - split; try done; simpl; [by eapply logs_wf_mono; [..|exact L]|by apply rows_wf_mono|].
    split; rewrite Hids.
    + apply NoDup_app. split_and!; [done| |apply NoDup_singleton].
      intros id Hid ->%list_elem_of_singleton. done.
    + apply Forall_app. split; [done|]. by apply Forall_singleton.
  - exists []. rewrite app_nil_r. split; [done|]. by intros r Hr%elem_of_nil.
Qed.

Lemma triple_Publish topic m :
  triple (fresh (di_ID m)) (Publish topic m) (λ _ _, True).
Proof.
  intros w Hw Hf. destruct (marshal_instruction m) as [data|e|p] eqn:Hm;
    [|destruct (Publish_unencoded marshal_instruction false (λ _, topic_Publish topic m) m w) as [Hs _];
      [by rewrite Hm|unfold Publish; rewrite Hs; by split_and!; [..|apply later_refl|]]..].
  destruct (triple_hand_over topic m w Hw Hf) as (Hw1 & Hl1 & _).
  rewrite (Publish_run _ _ _ _ Hm). unfold modify in Hw1, Hl1. cbn [fst snd] in *.
  destruct (next_fault_world (set_published (λ l, l ++ [(topic, m)]) w)) as [Hs _].
  destruct (server_wf_same_world _ _ Hs Hw1). split_and!; [done|by eapply later_trans|done].
Qed.

Lemma safe_Reconciler_Uninstall tenantName envName releaseName :
  safe (Reconciler_Uninstall (Some pubSubDeployer) tenantName envName releaseName).
Proof.
  unfold Reconciler_Uninstall. destruct (_ || _); [safe_op|]. apply safe_new. intros id.
  cbn [Uninstall pubSubDeployer]. unfold pubSub_Uninstall.
  match goal with |- triple _ (Publish ?t ?m ≫= _) _ => apply (triple_bind _ _ _ _ _ (triple_Publish t m)) end.
  intros ?. safe_op.
Qed.

Lemma safe_Redeploy aud env name : safe (Redeploy aud (Some pubSubDeployer) env name).
Proof.
  unfold Redeploy. apply safe_bind; [apply triple_wrapping, safe_reads, fetchSnapshot_reads|].
  intros snap. destruct (find _ _) as [e|]; [|safe_op]. cbv zeta. destruct (find _ _) as [dep|]; [|safe_op].
  apply safe_bind; [safe_op|]. intros now. destruct (negb _); [safe_op|].
  destruct (feature_disabled _ _ _); [safe_op|]. apply safe_bind; [safe_op|]. intros d.
  destruct (negb _); [safe_op|]. apply triple_wrapping, safe_pubSub_Deploy.
Qed.
End loop.
