(* ===== verification/Pages.v ===== *)
(** * internal/ui/pages: the pages that change something

    The POST handlers of the user interface: configuration of a feature in an environment
    and of all environments, one value or many at once; switching a feature off and on;
    redeploying, uninstalling; assigning and ending assignments.  They read the form,
    call the operations of the packages below and answer with a redirect or an error.
    What the Referer header says is a parameter of the request's reading. *)

From S2P Require Export ConfigForm Http Operations Catalog.

(** What the handlers read with the help of libraries: identifiers (google/uuid); the path of
    the Referer header, when it is a URL of this host (net/url); and json.Unmarshal into a
    map of labels that may hold some already, which can have changed the map and fail. *)
Class WebInput := {
  uuid_Parse : string → outcome uuid;
  referer_path : http_request → option string;
  json_Unmarshal_labels : string → Labels → Labels * option error;
}.

Section pages.
Context `{ext : External} `{pg : Postgres} `{raw : RawJson} `{codec : FeatureCodec} `{json : FormJson}
  `{web : WebInput}.
Context (actor : string).

(** ** Where a page leads *)

Definition featureBasePathValues (tenant env feature : string) : string :=
  "/features/" +:+ (feature +:+ ("/envs/" +:+ (tenant +:+ ("/" +:+ env)))).
Definition featureBasePath (r : http_request) : string :=
  featureBasePathValues (URLParam r "tenant") (URLParam r "env") (URLParam r "feature").

Definition redirectOrDefault (r : http_request) (defaultURL : string) : string :=
  match FormValue r "redirect" with
  | String c _ as dest => if bool_decide (c = "/"%char) then dest else defaultURL
  | EmptyString => defaultURL
  end.

(** ** What the handlers share *)

Definition fails (code : Z) (prefix : string) (e : error) : reply := http_error code (prefix +:+ error_msg e).

Definition parsed_form (r : http_request) : page unit :=
  require (hr_valid_form r) (http_error StatusBadRequest "Invalid form data").

Definition page_environment (r : http_request) : page (TenantRow * EnvironmentRow) :=
  tenant ← or_respond (GetTenantByName (URLParam r "tenant"))
    (fails StatusInternalServerError "Failed to get environment: ");
  env ← or_respond (GetByName (t_ID tenant) (URLParam r "env"))
    (fails StatusInternalServerError "Failed to get environment: ");
  mret (tenant, env).

Definition page_feature (envID : uuid) (featureName : string) : page Feature :=
  or_respond (FeatureForEnvironment envID featureName) (λ e,
    fails (if errors_is e ErrFeatureNotFound then StatusNotFound else StatusInternalServerError)
      "Failed to get feature: " e).

Definition page_config_id (r : http_request) : page uuid :=
  or_respond (lift (uuid_Parse (URLParam r "id"))) (λ _, http_error StatusBadRequest "Invalid configuration id").

(** The value of the form, parsed and encoded. *)
Definition page_value (r : http_request) (msg : string) : page string :=
  value ← or_respond (lift (ParseConfigValue (FormValue r "value") (FormValue r "type") (FormValue r "mode")))
    (fails StatusBadRequest msg);
  or_respond (lift (form_Marshal value)) (λ _, http_error StatusBadRequest "Failed to encode value").

Definition declared_secret (feat : Feature) (key : string) : bool :=
  match f_Values (f_YAML feat) !! key with
  | Some v => match v_Config v with Some c => c_Secret c | None => false end
  | None => false
  end.

(** ** Configuration in an environment (environment/feature.go) *)

Definition UpdateConfigHandler (r : http_request) : IO reply := reply_of (
  parsed_form r ;;
  configID ← page_config_id r;
  value ← page_value r "Invalid value format: ";
  or_respond (WithTx false (UpdateEnvConfig actor true configID {| uc_Description := None; uc_Value := value |}))
    (fails StatusInternalServerError "Failed to update configuration: ") ;;
  mret (see_other true (featureBasePath r +:+ "/config"))).

Definition deleteConfigHandler (deleteConfig : uuid → IO unit) (r : http_request) : IO reply := reply_of (
  configID ← page_config_id r;
  or_respond (WithTx false (deleteConfig configID))
    (fails StatusInternalServerError "Failed to delete configuration: ") ;;
  mret (see_other true (featureBasePath r +:+ "/config"))).
Definition DeleteConfigHandler : http_request → IO reply := deleteConfigHandler (DeleteEnvConfig actor true).
Definition Environment_DeleteGlobalConfigHandler : http_request → IO reply :=
  deleteConfigHandler (DeleteConfig actor true).

Definition ConfigOverrideSubmitHandler (r : http_request) : IO reply := reply_of (
  parsed_form r ;;
  te ← page_environment r;
  value ← page_value r "Invalid value format: ";
  feat ← page_feature (er_ID te.2) (URLParam r "feature");
  or_respond (WithTx false (CreateEnvConfig actor
      {| nc_EnvironmentID := Some (er_ID te.2); nc_Feature := URLParam r "feature"; nc_Description := None;
         nc_Key := FormValue r "key"; nc_Value := value;
         nc_Secret := declared_secret feat (FormValue r "key") |}))
    (fails StatusInternalServerError "Failed to create configuration: ") ;;
  mret (see_other true (featureBasePath r +:+ "/config"))).

(** *** Many values at once *)

Definition BulkKeysField : string := "keys".
Definition BulkValueField (key : string) : string := "value:" +:+ key.
Definition BulkOrigField (key : string) : string := "orig:" +:+ key.
Definition BulkTypeField (key : string) : string := "type:" +:+ key.
Definition BulkIDField (key : string) : string := "id:" +:+ key.

(** One key of the form; [false] when its value is the one the form was rendered with. *)
Definition batch_key (envID : uuid) (featureName : string) (feat : Feature) (r : http_request)
    (key : string) : IO bool :=
  let newValue := PostFormValue r (BulkValueField key) in
  if bool_decide (newValue = PostFormValue r (BulkOrigField key)) then mret false
  else
    value ← lift (match ParseConfigValueAuto newValue (PostFormValue r (BulkTypeField key)) with
                  | Err e => Err (ErrConfigParse key e) | o => o end);
    raw ← wrapping (key +:+ ": encode value") (lift (form_Marshal value));
    (let id := PostFormValue r (BulkIDField key) in
     if negb (bool_decide (id = "")) then
       configID ← wrapping (key +:+ ": invalid configuration id") (lift (uuid_Parse id));
       wrapping key (UpdateEnvConfig actor true configID {| uc_Description := None; uc_Value := raw |})
     else
       wrapping key (CreateEnvConfig actor
         {| nc_EnvironmentID := Some envID; nc_Feature := featureName; nc_Description := None;
            nc_Key := key; nc_Value := raw; nc_Secret := declared_secret feat key |})) ;;
    mret true.

Definition BatchUpdateConfigHandler (r : http_request) : IO reply := reply_of (
  parsed_form r ;;
  te ← page_environment r;
  feat ← page_feature (er_ID te.2) (URLParam r "feature");
  changed ← or_respond
    (WithTx false (map_each (batch_key (er_ID te.2) (URLParam r "feature") feat r)
                     (hr_post_form r BulkKeysField)))
    (λ e, fails (if errors_as_config_parse e then StatusBadRequest else StatusInternalServerError)
            "Failed to update configuration: " e);
  mret (see_other (existsb id changed) (featureBasePath r +:+ "/config"))).

(** ** Switching a feature off and on *)

Definition ToggleFeatureStateHandler (r : http_request) : IO reply := reply_of (
  parsed_form r ;;
  te ← page_environment r;
  feature ← page_feature (er_ID te.2) (URLParam r "feature");
  let enabled := bool_decide (FormValue r "enabled" = "true") in
  let reason := if enabled then "" else TrimSpace (FormValue r "reason") in
  require (enabled || negb (bool_decide (reason = "")))
    (http_error StatusBadRequest "A reason is required to disable reconcile.") ;;
  require (enabled || (String.length reason <=? 1000)%nat)
    (http_error StatusBadRequest "Reason must be at most 1000 characters.") ;;
  or_respond (if enabled then EnableFeature actor (er_ID te.2) (f_Name feature)
              else DisableFeature actor (er_ID te.2) (f_Name feature) reason)
    (fails StatusInternalServerError "Failed to toggle feature state: ") ;;
  mret (see_other true (redirectOrDefault r (featureBasePath r)))).

(** ** Redeploying and uninstalling *)

(** The reconciler in the request's context, and its deployer. *)
Context (aud : string) (rec : option (option Deployer)) (uuid_String : uuid → string).

Definition reconciler_or_fail : page (option Deployer) :=
  match rec with
  | Some deployer => mret deployer
  | None => respond (http_error StatusInternalServerError "Reconciler unavailable")
  end.

Definition redeploy_audit (featureName : string) (envID : uuid) : CreateParams :=
  {| cp_Action := "redeploy"; cp_Description := ""; cp_ObjectType := "feature"; cp_ObjectID := featureName;
     cp_Feature := featureName; cp_EnvironmentID := Some envID; cp_Metadata := None |}.

Definition RedeployHandler (r : http_request) : IO reply := reply_of (
  te ← page_environment r;
  feature ← page_feature (er_ID te.2) (URLParam r "feature");
  deployer ← reconciler_or_fail;
  or_respond (Redeploy aud deployer (er_ID te.2) (f_Name feature)) (λ err,
    if errors_is err ErrRedeployNotSettled || errors_is err ErrRedeployTargetNotFound
    then see_other false (redirectOrDefault r (featureBasePath r))
    else fails StatusInternalServerError "Failed to redeploy: " err) ;;
  or_respond (audit_Create actor (redeploy_audit (f_Name feature) (er_ID te.2)))
    (fails StatusInternalServerError "Failed to record audit entry: ") ;;
  mret (see_other false (redirectOrDefault r (featureBasePath r)))).

Definition uninstall_audit (releaseName : string) (envID diid : uuid) : CreateParams :=
  {| cp_Action := "uninstall"; cp_Description := ""; cp_ObjectType := "feature"; cp_ObjectID := releaseName;
     cp_Feature := releaseName; cp_EnvironmentID := Some envID;
     cp_Metadata := Some (VStrMap {[ "diid" := uuid_String diid ]}) |}.

Definition UninstallReleaseHandler (r : http_request) : IO reply := reply_of (
  te ← page_environment r;
  deployer ← reconciler_or_fail;
  diid ← or_respond
    (Reconciler_Uninstall deployer (t_Name te.1) (er_Name te.2) (URLParam r "release")) (λ err,
      if errors_is err ErrUninstallProtected
      then fails StatusBadRequest "Release cannot be uninstalled: " err
      else fails StatusInternalServerError "Failed to uninstall: " err);
  or_respond (audit_Create actor (uninstall_audit (URLParam r "release") (er_ID te.2) diid))
    (fails StatusInternalServerError "Failed to record audit entry: ") ;;
  mret (see_other false ("/tenants/" +:+ (URLParam r "tenant" +:+
    ("/envs/" +:+ (URLParam r "env" +:+ "?tab=helm")))))).

(** ** Configuration of all environments (features/feature_config.go) *)

Definition config_page (r : http_request) : string := "/features/" +:+ (URLParam r "feature" +:+ "/config").

Definition UpdateGlobalConfigHandler (r : http_request) : IO reply := reply_of (
  parsed_form r ;;
  configID ← page_config_id r;
  value ← page_value r "Invalid value: ";
  or_respond (WithTx false (UpdateConfig actor true configID {| uc_Description := None; uc_Value := value |}))
    (fails StatusInternalServerError "Failed to update: ") ;;
  mret (see_other true (config_page r))).

Definition DeleteGlobalConfigHandler (r : http_request) : IO reply := reply_of (
  configID ← page_config_id r;
  or_respond (WithTx false (DeleteConfig actor true configID))
    (fails StatusInternalServerError "Failed to delete: ") ;;
  mret (see_other true (config_page r))).

Definition SetGlobalConfigHandler (r : http_request) : IO reply := reply_of (
  parsed_form r ;;
  require (negb (bool_decide (FormValue r "key" = ""))) (http_error StatusBadRequest "Key is required") ;;
  feat ← or_respond (FeatureByName (URLParam r "feature")) (λ _, http_error StatusNotFound "Feature not found");
  value ← page_value r "Invalid value: ";
  or_respond (WithTx false (CreateGlobalConfig actor
      {| nc_EnvironmentID := None; nc_Feature := URLParam r "feature"; nc_Description := None;
         nc_Key := FormValue r "key"; nc_Value := value;
         nc_Secret := declared_secret feat (FormValue r "key") |}))
    (fails StatusInternalServerError "Failed to save: ") ;;
  mret (see_other true (config_page r))).

(** ** Assignments (assignments/create.go, deactivate.go) *)

Context `{enc : FeatureEncoder} `{tpl : TemplateParse}.
Context (ChartDownloader : string → string → outcome Feature).

Definition requestedVersion (r : http_request) : string :=
  let version := TrimSpace (FormValue r "version") in
  if bool_decide (version = "__custom__") then TrimSpace (FormValue r "version_custom") else version.

(** A selected label; the empty one is skipped. *)
Definition add_label (target : Labels) (raw : string) : outcome Labels :=
  if bool_decide (raw = "") then Ok target
  else let '(k, v, ok) := cut_char "=" raw in
       if negb ok || bool_decide (k = "") then Err (ErrString ("invalid target_label: " +:+ raw))
       else Ok (<[k := v]> target).

(** A line of the free text. *)
Definition add_line (target : Labels) (line : string) : outcome Labels :=
  let line := TrimSpace line in
  if bool_decide (line = "") then Ok target
  else let '(k, v, ok) := cut_char "=" line in
       if negb ok || bool_decide (k = "") then Err (ErrString ("invalid target label: " +:+ line))
       else Ok (<[TrimSpace k := TrimSpace v]> target).

(** JSON first, then lines of [key=value]; what JSON left in the map stays. *)
Definition requested_target (r : http_request) : outcome Labels :=
  let! target := ofold add_label ∅ (hr_form r "target_label") in
  let raw := TrimSpace (FormValue r "target_labels_raw") in
  if bool_decide (raw = "") then Ok target
  else match json_Unmarshal_labels raw target with
       | (target, None) => Ok target
       | (target, Some _) => ofold add_line target (split_char "010" raw)
       end.

(** [strings.Trim(s, "/")] *)
Fixpoint trim_slashes_left (s : string) : string :=
  match s with
  | String c s' => if bool_decide (c = "/"%char) then trim_slashes_left s' else s
  | EmptyString => EmptyString
  end.
Definition trim_slashes (s : string) : string :=
  str_rev (trim_slashes_left (str_rev (trim_slashes_left s))).

Definition newAssignmentDetailURL (refererPath : string) (id : uuid) : string :=
  match split_char "/" (trim_slashes refererPath) with
  | [a; feature; b; old] =>
      if bool_decide (a = "features") && bool_decide (b = "assignments") && is_Ok (uuid_Parse old)
      then "/features/" +:+ (feature +:+ ("/assignments/" +:+ uuid_String id)) else ""
  | _ => ""
  end.

Definition CreateHandler (r : http_request) : IO reply := reply_of (
  parsed_form r ;;
  let chart := TrimSpace (FormValue r "chart") in
  let version := requestedVersion r in
  let description := TrimSpace (FormValue r "description") in
  require (negb (bool_decide (chart = "") || bool_decide (version = "")))
    (http_error StatusBadRequest "chart and version are required") ;;
  target ← or_respond (lift (requested_target r)) (fails StatusBadRequest "");
  created ← or_respond (Create ChartDownloader uuid_String actor
      {| ca_Chart := chart; ca_Version := version;
         ca_Description := if bool_decide (description = "") then None else Some description;
         ca_Commit := None; ca_Target := target |})
    (fails StatusInternalServerError "Failed to create assignment: ");
  mret (see_other true
    match referer_path r with
    | Some path =>
        let detail := newAssignmentDetailURL path created.1 in
        if bool_decide (detail = "") then path else detail
    | None => "/assignments"
    end)).

Definition deactivateRedirect (r : http_request) : string :=
  let redirect := FormValue r "redirect" in
  if HasPrefix redirect "/" then redirect
  else match referer_path r with
       | Some path => if HasPrefix path "/features/" then path else "/assignments"
       | None => "/assignments"
       end.

Definition deactivateRedirectForFeature (r : http_request) (featureName : string) : IO string :=
  hasActive ← attempt (HasActiveAssignments featureName);
  mret (match hasActive with inl false => "/features" | _ => deactivateRedirect r end).

Definition page_assignment_id (r : http_request) : page uuid :=
  or_respond (lift (uuid_Parse (URLParam r "id")))
    (λ _, http_error StatusInternalServerError "Failed to parse assignment ID").

Definition DeactivateHandler (r : http_request) : IO reply := reply_of (
  id ← page_assignment_id r;
  featureName ← or_respond (Deactivate uuid_String actor id)
    (fails StatusInternalServerError "Failed to deactivate assignment: ");
  url ← or_respond (deactivateRedirectForFeature r featureName) (fails StatusInternalServerError "");
  mret (see_other true url)).

Definition DeactivateByFeatureAndTargetHandler (r : http_request) : IO reply := reply_of (
  id ← page_assignment_id r;
  fa ← or_respond (GetFeatureAssignment id) (fails StatusInternalServerError "Failed to load assignment: ");
  or_respond (DeactivateByFeatureAndTarget actor (f_Name (fa_Feature fa)) (fa_TargetLabels fa))
    (fails StatusInternalServerError "Failed to deactivate assignments: ") ;;
  url ← or_respond (deactivateRedirectForFeature r (f_Name (fa_Feature fa))) (fails StatusInternalServerError "");
  mret (see_other true url)).

(** ** The routes that change something (internal/ui/server/routes.go) *)

Inductive page_request :=
  | UninstallReleasePage | CreateAssignmentPage | RemoveAssignmentPage | RemoveMatchingPage
  | EditConfigPage | DeleteConfigPage | DeleteGlobalConfigPage | OverrideConfigPage | BatchConfigPage
  | ToggleReconcilePage | RedeployPage | EditFeatureConfigPage | DeleteFeatureConfigPage
  | SetFeatureConfigPage.

Definition serve_page (p : page_request) : http_request → IO reply :=
  match p with
  | UninstallReleasePage => UninstallReleaseHandler
  | CreateAssignmentPage => CreateHandler
  | RemoveAssignmentPage => DeactivateHandler
  | RemoveMatchingPage => DeactivateByFeatureAndTargetHandler
  | EditConfigPage => UpdateConfigHandler
  | DeleteConfigPage => DeleteConfigHandler
  | DeleteGlobalConfigPage => Environment_DeleteGlobalConfigHandler
  | OverrideConfigPage => ConfigOverrideSubmitHandler
  | BatchConfigPage => BatchUpdateConfigHandler
  | ToggleReconcilePage => ToggleFeatureStateHandler
  | RedeployPage => RedeployHandler
  | EditFeatureConfigPage => UpdateGlobalConfigHandler
  | DeleteFeatureConfigPage => DeleteGlobalConfigHandler
  | SetFeatureConfigPage => SetGlobalConfigHandler
  end.
End pages.

(** ** Every page keeps the tables' integrity *)

Lemma safe_page_bind {A B} (m : page A) (f : A → page B) :
  safe m → (∀ a, safe (f a)) → safe (mbind (M := page) f m).
Proof.
  intros Hm Hf w Hw Hp. destruct (Hm w Hw Hp) as (Hw1 & Hl1 & _). unfold mbind, page_bind.
  destruct (m w) as [[[r|a]|e|p] w1]; cbn [fst snd] in *; [by split_and!| |by split_and!..].
  destruct (Hf a w1 Hw1 I) as (Hw2 & Hl2 & _). split_and!; [done|by eapply later_trans|done].
Qed.

Lemma safe_or_respond {A} (m : IO A) k : safe m → safe (or_respond m k).
Proof.
  intros Hm w Hw Hp. destruct (Hm w Hw Hp) as (H1 & H2 & _). unfold or_respond.
  by destruct (m w) as [[a|e|p] w1].
Qed.

Lemma safe_reply_of (m : page reply) : safe m → safe (reply_of m).
Proof.
  intros Hm w Hw Hp. destruct (Hm w Hw Hp) as (H1 & H2 & _). unfold reply_of.
  by destruct (m w) as [[[r|r]|e|p] w1].
Qed.

Lemma safe_require b r : safe (require b r).
Proof. apply safe_reads, reads_require. Qed.
Lemma safe_page_ret {A} (a : A) : safe (mret (M := page) a).
Proof. apply safe_reads, reads_page_ret. Qed.
Lemma safe_respond {A} r : safe (respond (A := A) r).
Proof. apply safe_reads, reads_respond. Qed.

Lemma safe_map_each {A B} (f : A → IO B) l : (∀ x, safe (f x)) → safe (map_each f l).
Proof.
  intros Hf. induction l as [|x l IH]; [apply safe_reads, reads_ret|]. cbn [map_each].
  apply safe_bind; [done|]. intros y. apply safe_bind; [done|]. intros ys. apply safe_reads, reads_ret.
Qed.
Lemma safe_reconciler_bind {A} d (f : option Deployer → page A) :
  safe (f d) → safe (mbind (M := page) f (reconciler_or_fail (Some d))).
Proof. exact id. Qed.

#[export] Hint Resolve safe_require safe_page_ret safe_respond : safe.

(** What pages read before they change something. *)
Lemma reads_FeatureForEnvironment `{pg : Postgres} `{codec : FeatureCodec} envID name :
  reads (FeatureForEnvironment envID name).
Proof.
  unfold FeatureForEnvironment, mostSpecificAssignment, ListFeatureAssignmentsForFeatureInEnvironment.
  apply reads_bind; [|intros; apply reads_ret].
  apply reads_bind; [solve_reads|]. intros [|row rows]; [apply reads_fail|].
  apply reads_bind; [apply reads_lift|]. intros deps. destruct (fa_mostSpecificPerFeature deps); solve_reads.
Qed.

Section page_reads.
Context `{pg : Postgres} `{codec : FeatureCodec} `{json : FormJson} `{web : WebInput}.

Lemma reads_parsed_form r : reads (parsed_form r).
Proof. apply reads_require. Qed.
Lemma reads_page_environment r : reads (page_environment r).
Proof.
  apply reads_page_bind; [apply reads_or_respond, reads_query|]. intros tenant.
  apply reads_page_bind; [apply reads_or_respond, reads_query|]. intros env. apply reads_page_ret.
Qed.
Lemma reads_page_feature envID name : reads (page_feature envID name).
Proof. apply reads_or_respond, reads_FeatureForEnvironment. Qed.
Lemma reads_page_config_id r : reads (page_config_id r).
Proof. apply reads_or_respond, reads_lift. Qed.
Lemma reads_page_value r msg : reads (page_value r msg).
Proof.
  apply reads_page_bind; [apply reads_or_respond, reads_lift|]. intros v. apply reads_or_respond, reads_lift.
Qed.
Lemma reads_page_assignment_id r : reads (page_assignment_id r).
Proof. apply reads_or_respond, reads_lift. Qed.
End page_reads.

Create HintDb page_reads.
#[export] Hint Resolve reads_parsed_form reads_page_environment reads_page_feature reads_page_config_id
  reads_page_value reads_page_assignment_id reads_require reads_page_ret reads_respond : page_reads.

(** Follows a handler down to the operations it calls. *)
Ltac safe_page :=
  cbv beta zeta;
  repeat (cbv beta zeta; first
    [ solve [apply safe_reads; eauto with page_reads nocore]
    | apply safe_reply_of
    | apply safe_reconciler_bind
    | apply safe_page_bind; [|intros ?]
    | apply safe_or_respond ]).

Section page_integrity.
Context `{ext : External} `{pg : Postgres} `{raw : RawJson} `{codec : FeatureCodec} `{json : FormJson}
  `{web : WebInput} `{enc : FeatureEncoder} `{tpl : TemplateParse}.
Context (actor aud : string) (uuid_String : uuid → string)
  (ChartDownloader : string → string → outcome Feature).

Lemma safe_batch_key envID name feat r key : safe (batch_key actor envID name feat r key).
Proof.
  unfold batch_key. cbv zeta. case_bool_decide; [safe_op|].
  apply safe_bind; [safe_op|]. intros value. apply safe_bind; [safe_op|]. intros v.
  apply safe_bind; [|intros ?; safe_op]. destruct (negb _).
  - apply safe_bind; [safe_op|]. intros id. apply triple_wrapping, safe_UpdateEnvConfig.
  - apply triple_wrapping, safe_CreateEnvConfig.
Qed.

Lemma safe_deactivateRedirectForFeature r name : safe (deactivateRedirectForFeature r name).
Proof. unfold deactivateRedirectForFeature, HasActiveAssignments. safe_op. Qed.

Lemma safe_serve_page p r :
  safe (serve_page actor aud (Some (Some pubSubDeployer)) uuid_String ChartDownloader p r).
Proof.
  destruct p; cbn [serve_page];
    unfold UninstallReleaseHandler, CreateHandler, DeactivateHandler, DeactivateByFeatureAndTargetHandler,
      UpdateConfigHandler, DeleteConfigHandler, Environment_DeleteGlobalConfigHandler, deleteConfigHandler,
      ConfigOverrideSubmitHandler, BatchUpdateConfigHandler, ToggleFeatureStateHandler, RedeployHandler,
      UpdateGlobalConfigHandler, DeleteGlobalConfigHandler, SetGlobalConfigHandler; safe_page;
    try solve [safe_op|apply safe_deactivateRedirectForFeature].
  - apply safe_Reconciler_Uninstall.
  - apply safe_Create.
  - apply safe_Deactivate.
  - apply safe_DeactivateByFeatureAndTarget.
  - apply safe_WithTx, safe_UpdateEnvConfig.
  - apply safe_WithTx, safe_DeleteEnvConfig.
  - apply safe_WithTx, safe_DeleteConfig.
  - apply safe_WithTx, safe_CreateEnvConfig.
  - apply safe_WithTx, safe_map_each. intros key. apply safe_batch_key.
  - destruct (bool_decide _); [apply safe_EnableFeature|apply safe_DisableFeature].
  - apply safe_Redeploy.
  - apply safe_WithTx, safe_UpdateConfig.
  - apply safe_WithTx, safe_DeleteConfig.
  - apply safe_WithTx, safe_CreateGlobalConfig.
Qed.
End page_integrity.

(** ** An example of what the libraries answer *)

Definition example_web : WebInput := {|
  uuid_Parse s := if bool_decide (s = "") then Err (ErrString "invalid UUID length: 0") else Ok 1%N;
  referer_path _ := None;
  json_Unmarshal_labels _ l := (l, Some (ErrString "json"));
|}.
