(* ===== verification/PageFacts.v ===== *)
(** * What the pages promise

    The pages that work in one transaction change everything or nothing, and trigger the
    reconcile loop exactly when they may have changed something; values declared secret do
    not get into the audit log; and what is switched off is not deployed. *)

From S2P Require Import Winning.
From S2P Require Export Pages.

(** ** All or nothing, and then a trigger *)

(** The handlers whose changes are one transaction. *)
Definition transactional (p : page_request) : bool :=
  match p with
  | UninstallReleasePage | RedeployPage | CreateAssignmentPage => false
  | _ => true
  end.

(** What such a handler does. *)
Definition settled (m : page reply) : Prop :=
  ∀ w o w', m w = (o, w') →
    match o with
    | Ok (inl r) => succeeded r = false ∧ rp_triggered r = false ∧ same_tables w w'
    | Ok (inr r) => rp_triggered r = false → same_tables w w'
    | _ => same_tables w w'
    end.

Lemma settled_bind_reads {A} (m : page A) (f : A → page reply) :
  reads m → errors_early m → (∀ a, settled (f a)) → settled (m ≫= f).
Proof.
  intros Hm He Hf w o w'. unfold mbind, page_bind. destruct (m w) as [[[r|a]|e|p] w1] eqn:E.
  - intros [= <- <-]. destruct (He _ _ _ E). split_and!; [done..|]. by eapply same_world_tables, Hm.
  - intros H. specialize (Hf a _ _ _ H). apply Hm, same_world_tables in E.
    destruct o as [[r|r]|e|p]; [|intros Ht; specialize (Hf Ht)|..];
      [destruct Hf as (? & ? & Hf); split_and!; [done..|]| | |]; by eapply same_tables_trans.
  - intros [= <- <-]. by eapply same_world_tables, Hm.
  - intros [= <- <-]. by eapply same_world_tables, Hm.
Qed.

(** The change, and then what always answers with a trigger. *)
Lemma settled_change {A} (m : IO A) k (f : A → page reply) :
  all_or_nothing m → (∀ e, succeeded (k e) = false ∧ rp_triggered (k e) = false) →
  (∀ a w w1 o w', m w = (Ok a, w1) → f a w1 = (o, w') →
     ∃ r, o = Ok (inr r) ∧ (rp_triggered r = false → same_tables w w')) →
  settled (or_respond m k ≫= f).
Proof.
  intros Hm Hk Hf w o w'. unfold mbind, page_bind, or_respond. destruct (m w) as [[a|e|p] w1] eqn:E.
  - intros H. by destruct (Hf a _ _ _ _ E H) as (r & -> & Hr).
  - intros [= <- <-]. destruct (Hk e). split_and!; [done..|]. by eapply Hm.
  - intros [= <- <-]. by eapply Hm.
Qed.

Lemma settled_triggers {A} (m : IO A) k (url : A → string) :
  all_or_nothing m → (∀ e, succeeded (k e) = false ∧ rp_triggered (k e) = false) →
  settled (or_respond m k ≫= λ a, mret (see_other true (url a))).
Proof.
  intros Hm Hk. apply settled_change; [done..|]. intros a w w1 o w' _ [= <- <-]. by eexists.
Qed.

Section promises.
Context `{ext : External} `{pg : Postgres} `{raw : RawJson} `{codec : FeatureCodec} `{json : FormJson}
  `{web : WebInput} `{enc : FeatureEncoder} `{tpl : TemplateParse}.
Context (actor aud : string) (rec : option (option Deployer)) (uuid_String : uuid → string)
  (ChartDownloader : string → string → outcome Feature).

(** A key that is not changed is not touched. *)
Lemma batch_key_unchanged envID name feat r key w w' :
  batch_key actor envID name feat r key w = (Ok false, w') → w' = w.
Proof.
  unfold batch_key. cbv zeta. case_bool_decide as Hd; [by intros [= <-]|]. intros H. exfalso.
  apply bind_Ok in H as (v & w1 & _ & H). apply bind_Ok in H as (x & w2 & _ & H).
  by apply bind_Ok in H as (u & w3 & _ & [= H _]).
Qed.

Lemma batch_unchanged envID name feat r keys w changed w' :
  map_each (batch_key actor envID name feat r) keys w = (Ok changed, w') →
  existsb id changed = false → w' = w.
Proof.
  revert w changed. induction keys as [|key keys IH]; cbn [map_each]; intros w changed; [by intros [= _ <-]|].
  intros H. apply bind_Ok in H as (c & w1 & Hk & H). apply bind_Ok in H as (cs & w2 & Hks & [= <- <-]).
  cbn [existsb id]. intros [-> Hcs]%orb_false_iff. apply batch_key_unchanged in Hk as ->. by eapply IH.
Qed.

Lemma never_deactivateRedirectForFeature r name : never_fails (deactivateRedirectForFeature r name).
Proof.
  intros w. unfold deactivateRedirectForFeature, HasActiveAssignments, attempt, query, external, next_fault,
    mbind, M_bind. by destruct (w_faults w) as [|[e|] fs].
Qed.

Lemma settled_deactivated {A} (m : IO A) k (name : A → string) r k' :
  all_or_nothing m → (∀ e, succeeded (k e) = false ∧ rp_triggered (k e) = false) →
  settled (or_respond m k ≫= λ a,
    url ← or_respond (deactivateRedirectForFeature r (name a)) k'; mret (see_other true url)).
Proof.
  intros Hm Hk. apply settled_change; [done..|]. intros a w w1 o w' _ H.
  unfold mbind, page_bind, or_respond in H.
  pose proof (never_deactivateRedirectForFeature r (name a) w1) as Hn.
  destruct (deactivateRedirectForFeature r (name a) w1) as [[url|e|p] w2]; [|done..].
  injection H as <- <-. by eexists.
Qed.

Lemma errors_page_environment r : errors_early (page_environment r).
Proof.
  apply errors_bind; [by apply errors_or_respond|]. intros t.
  apply errors_bind; [by apply errors_or_respond|]. intros e. apply errors_ret.
Qed.
Lemma errors_page_feature envID name : errors_early (page_feature envID name).
Proof. apply errors_or_respond. intros e. by destruct (errors_is e ErrFeatureNotFound). Qed.
Lemma errors_page_value r msg : errors_early (page_value r msg).
Proof. apply errors_bind; [by apply errors_or_respond|]. intros v. by apply errors_or_respond. Qed.
Lemma errors_page_config_id r : errors_early (page_config_id r).
Proof. by apply errors_or_respond. Qed.
Lemma errors_page_assignment_id r : errors_early (page_assignment_id r).
Proof. by apply errors_or_respond. Qed.
Lemma errors_parsed_form r : errors_early (parsed_form r).
Proof. by apply errors_require. Qed.
Lemma reads_FeatureByName name : reads (FeatureByName name).
Proof. unfold FeatureByName, LatestFeatureData. solve_reads. Qed.

Lemma aon_toggle (b : bool) envID name reason :
  all_or_nothing (if b then EnableFeature actor envID name else DisableFeature actor envID name reason).
Proof.
  destruct b; [apply aon_WithTx|]. unfold DisableFeature. cbv zeta. case_bool_decide; [apply aon_fail|].
  destruct (_ <? _)%nat; [apply aon_fail|apply aon_WithTx].
Qed.

Hint Resolve errors_page_environment errors_page_feature errors_page_value errors_page_config_id
  errors_page_assignment_id errors_parsed_form : page_reads.

(** Past the reads of a handler. *)
Ltac past_reads :=
  repeat (cbv beta zeta; apply settled_bind_reads;
    [solve [eauto with page_reads nocore]|solve [eauto with page_reads nocore]|intros ?]).

(** The handler behind [reply_of]. *)
Lemma settled_reply m w o w' :
  settled m → reply_of m w = (o, w') →
  match o with
  | Ok rp => rp_triggered rp = false → same_tables w w'
  | _ => same_tables w w'
  end.
Proof.
  intros Hm. unfold reply_of. destruct (m w) as [[[r|r]|e|p] w1] eqn:E; intros [= <- <-];
    apply Hm in E; naive_solver.
Qed.

(** A reply that is no error is the last one. *)
Lemma reply_of_success m w r w' :
  reply_of m w = (Ok r, w') → succeeded r = true → errors_early m → m w = (Ok (inr r), w').
Proof.
  unfold reply_of. destruct (m w) as [[[r0|r0]|e|p] w1] eqn:E; intros [= -> ->] Hs Hm; [|done].
  apply Hm in E as [E _]. congruence.
Qed.

(** C12.  A page that works in one transaction changes everything or nothing, whatever fails on
    the way, the commit included: unless its answer triggers the reconcile loop, it has
    changed no table and written no audit entry.  So an error page means that nothing
    happened, and no change stays without a reconciliation. *)
Theorem page_change_triggers p r w o w' :
  transactional p = true →
  serve_page actor aud rec uuid_String ChartDownloader p r w = (o, w') →
  match o with
  | Ok rp => rp_triggered rp = false → same_tables w w'
  | _ => same_tables w w'
  end.
Proof.
  intros Hp. destruct p; try done; cbn [serve_page]; apply settled_reply.
  - apply settled_bind_reads; [eauto with page_reads nocore..|]. intros id.
    apply settled_deactivated; [apply aon_WithTx|done].
  - apply settled_bind_reads; [eauto with page_reads nocore..|]. intros id.
    apply settled_bind_reads; [apply reads_or_respond|by apply errors_or_respond|].
    { unfold GetFeatureAssignment, GetFeatureAssignment_query. solve_reads. }
    intros fa. apply (settled_deactivated _ _ (λ _, f_Name (fa_Feature fa))); [apply aon_WithTx|done].
  - past_reads. apply settled_triggers; [apply aon_WithTx|done].
  - past_reads. apply settled_triggers; [apply aon_WithTx|done].
  - past_reads. apply settled_triggers; [apply aon_WithTx|done].
  - past_reads. apply settled_triggers; [apply aon_WithTx|done].
  - past_reads. apply settled_change; [apply aon_WithTx|intros e; by destruct (errors_as_config_parse e)|].
    intros changed w0 w1 o' w2 Htx [= <- <-]. eexists. split; [done|]. cbn [see_other rp_triggered].
    intros Hc. apply WithTx_Ok in Htx as (w3 & w4 & S3 & Hm & S4).
    apply batch_unchanged in Hm as ->; [|done]. by eapply same_world_tables, same_world_trans.
  - apply settled_bind_reads; [eauto with page_reads nocore..|]. intros u.
    apply settled_bind_reads; [eauto with page_reads nocore..|]. intros te.
    apply settled_bind_reads; [eauto with page_reads nocore..|]. intros feature.
    apply settled_bind_reads; [apply reads_require|by apply errors_require|]. intros _.
    apply settled_bind_reads; [apply reads_require|by apply errors_require|]. intros _.
    apply settled_triggers; [apply aon_toggle|done].
  - past_reads. apply settled_triggers; [apply aon_WithTx|done].
  - past_reads. apply settled_triggers; [apply aon_WithTx|done].
  - apply settled_bind_reads; [eauto with page_reads nocore..|]. intros u.
    apply settled_bind_reads; [apply reads_require|by apply errors_require|]. intros _.
    apply settled_bind_reads; [apply reads_or_respond, reads_FeatureByName|by apply errors_or_respond|].
    intros feat. past_reads. apply settled_triggers; [apply aon_WithTx|done].
Qed.
End promises.

(** ** Secrets stay out of the audit log *)

Definition hidden (a : AuditRow) : Prop := au_Metadata a = Some (VStrMap {[ "secret" := "true" ]}).

(** Whatever happens, [m] adds only audit entries that hide the values. *)
Definition adds_hidden {A} (m : IO A) (w : world) : Prop :=
  ∀ o w', m w = (o, w') → ∃ l, audits w' = audits w ++ l ∧ Forall hidden l.

Lemma hidden_same {A} (m : IO A) w : (∀ o w', m w = (o, w') → audits w' = audits w) → adds_hidden m w.
Proof. intros Hm o w' H. exists []. rewrite app_nil_r. split; [by eapply Hm|constructor]. Qed.

Lemma hidden_reads {A} (m : IO A) w : reads m → adds_hidden m w.
Proof. intros Hm. apply hidden_same. intros o w' H. by apply Hm, same_world_tables in H as (_ & _ & _ & H). Qed.

Lemma hidden_bind {A B} (m : IO A) (f : A → IO B) w :
  adds_hidden m w → (∀ a w1, m w = (Ok a, w1) → adds_hidden (f a) w1) → adds_hidden (m ≫= f) w.
Proof.
  intros Hm Hf o w' H. unfold mbind, M_bind in H. destruct (m w) as [[a|e|p] w1] eqn:E;
    destruct (Hm _ _ E) as (l & Hl & Hh); [|injection H as _ <-; by exists l..].
  destruct (Hf a w1 eq_refl _ _ H) as (l' & Hl' & Hh'). exists (l ++ l').
  split; [by rewrite Hl', Hl, app_assoc|by apply Forall_app].
Qed.

Lemma hidden_page_bind {A B} (m : page A) (f : A → page B) w :
  adds_hidden m w → (∀ a w1, m w = (Ok (inr a), w1) → adds_hidden (f a) w1) →
  adds_hidden (mbind (M := page) f m) w.
Proof.
  intros Hm Hf o w' H. unfold mbind, page_bind in H. destruct (m w) as [[[r|a]|e|p] w1] eqn:E;
    destruct (Hm _ _ E) as (l & Hl & Hh); [injection H as _ <-; by exists l| |injection H as _ <-; by exists l..].
  destruct (Hf a w1 eq_refl _ _ H) as (l' & Hl' & Hh'). exists (l ++ l').
  split; [by rewrite Hl', Hl, app_assoc|by apply Forall_app].
Qed.

Lemma hidden_or_respond {A} (m : IO A) k w : adds_hidden m w → adds_hidden (or_respond m k) w.
Proof.
  intros Hm o w' H. unfold or_respond in H. destruct (m w) as [[a|e|p] w1] eqn:E; injection H as _ <-;
    by apply Hm in E.
Qed.

Lemma hidden_reply_of (m : page reply) w : adds_hidden m w → adds_hidden (reply_of m) w.
Proof.
  intros Hm o w' H. unfold reply_of in H. destruct (m w) as [[[r|r]|e|p] w1] eqn:E; injection H as _ <-;
    by apply Hm in E.
Qed.

Lemma hidden_audit_Create email p w :
  cp_Metadata p = Some (VStrMap {[ "secret" := "true" ]}) → adds_hidden (audit_Create email p) w.
Proof.
  intros Hp o w' H. unfold audit_Create, exec, external, next_fault, mbind, M_bind in H.
  destruct (w_faults w) as [|[e|] fs]; injection H as _ <-.
  2: { exists []. rewrite app_nil_r. split; [done|constructor]. }
  all: eexists; split; [done|]; by repeat constructor.
Qed.

Lemma hidden_external {A} (m : IO A) w :
  (∀ v, audits (m v).2 = audits v) → adds_hidden (external m) w.
Proof.
  intros Hm. apply hidden_same. intros o w' H. unfold external, next_fault, mbind, M_bind in H.
  destruct (w_faults w) as [|[e|] fs]; [| |].
  - by rewrite <-(Hm w), H.
  - by injection H as _ <-.
  - by specialize (Hm (set_w_faults (λ _, fs) w)); rewrite H in Hm.
Qed.

Lemma hidden_WithTx {A} (m : IO A) w : (∀ v, adds_hidden m v) → adds_hidden (WithTx false m) w.
Proof.
  intros Hm o w' H. destruct o as [a|e|p].
  2,3: apply WithTx_atomic in H as (_ & _ & _ & ->); [|done]; exists []; rewrite app_nil_r;
    split; [done|constructor].
  apply WithTx_Ok in H as (w1 & w2 & S1 & H & S2).
  apply same_world_tables in S1 as (_ & _ & _ & S1). apply same_world_tables in S2 as (_ & _ & _ & S2).
  apply Hm in H as (l & Hl & Hh). exists l. by rewrite S2, Hl, S1.
Qed.

Section secrets.
Context `{ext : External} `{pg : Postgres} `{raw : RawJson} `{codec : FeatureCodec} `{json : FormJson}
  `{web : WebInput} `{enc : FeatureEncoder} `{tpl : TemplateParse}.
Context (actor aud : string) (rec : option (option Deployer)) (uuid_String : uuid → string)
  (ChartDownloader : string → string → outcome Feature).

Lemma hidden_uuid_New {B} (f : uuid → IO B) w :
  (∀ id v, adds_hidden (f id) v) → adds_hidden (uuid_New ≫= f) w.
Proof.
  intros Hf. apply hidden_bind; [|intros id v _; apply Hf].
  apply hidden_same. intros o w' H. unfold uuid_New in H. by injection H as _ <-.
Qed.

Lemma hidden_upsert_audit had info w :
  ai_secret info = true → adds_hidden (writeConfigUpsertAudit actor had info) w.
Proof. intros Hs. apply hidden_audit_Create. cbn. unfold configChangeMetadata. by rewrite Hs. Qed.

Lemma hidden_CreateEnvConfig c w : nc_Secret c = true → adds_hidden (CreateEnvConfig actor c) w.
Proof.
  intros Hs. unfold CreateEnvConfig. apply hidden_bind; [apply hidden_reads, reads_lift|intros v w1 _].
  destruct (nc_EnvironmentID c) as [env|]; [|apply hidden_reads, reads_lift].
  apply hidden_bind; [apply hidden_reads; unfold none_if_no_rows, GetEnvConfigByKey; solve_reads|intros existing w2 _].
  apply hidden_bind; [apply hidden_reads; unfold GetGlobalConfigByKey; solve_reads|intros prev w3 _].
  cbv zeta.
  match goal with |- context [UpsertEnvConfig _ _ _ _ _ _ ≫= ?k] => set (write := k) end.
  assert (Hw : ∀ v, adds_hidden (UpsertEnvConfig env (nc_Feature c) (nc_Description c) (nc_Secret c) (nc_Key c)
    v ≫= write) w3).
  { intros v'. apply hidden_bind; [|intros config w4 _].
    - apply hidden_uuid_New. intros id w4. apply hidden_external. intros w5. cbv beta zeta. by case_match.
    - apply hidden_bind; [by apply hidden_upsert_audit|]. intros ? ? _. apply hidden_reads, reads_ret. }
  destruct existing as [e|]; [|apply Hw]. destruct (_ && _); [apply hidden_reads, reads_ret|apply Hw].
Qed.

Lemma hidden_CreateGlobalConfig c w : nc_Secret c = true → adds_hidden (CreateGlobalConfig actor c) w.
Proof.
  intros Hs. unfold CreateGlobalConfig. apply hidden_bind; [apply hidden_reads, reads_lift|intros v w1 _].
  apply hidden_bind; [apply hidden_reads; unfold none_if_no_rows, GetGlobalConfigByKey; solve_reads|intros existing w2 _].
  cbv zeta.
  match goal with |- context [UpsertGlobalConfig _ _ _ _ _ ≫= ?k] => set (write := k) end.
  assert (Hw : ∀ v, adds_hidden (UpsertGlobalConfig (nc_Feature c) (nc_Description c) (nc_Secret c) (nc_Key c)
    v ≫= write) w2).
  { intros v'. apply hidden_bind; [|intros config w4 _].
    - apply hidden_uuid_New. intros id w4. apply hidden_external. intros w5. cbv beta zeta. by case_match.
    - apply hidden_bind; [by apply hidden_upsert_audit|]. intros ? ? _. apply hidden_reads, reads_ret. }
  destruct existing as [e|]; [|apply Hw]. destruct (_ && _); [apply hidden_reads, reads_ret|apply Hw].
Qed.

(** The declaration of the feature a form for a new value is about. *)
Definition declaration (p : page_request) (r : http_request) : page Feature :=
  match p with
  | OverrideConfigPage => te ← page_environment r; page_feature (er_ID te.2) (URLParam r "feature")
  | _ => or_respond (FeatureByName (URLParam r "feature")) (λ _, http_error StatusNotFound "Feature not found")
  end.

Lemma page_value_same r msg w v w1 : page_value r msg w = (Ok (inr v), w1) → w1 = w.
Proof.
  unfold page_value. intros (a & w2 & H1 & H2)%page_bind_inr.
  apply or_respond_inr in H1, H2. injection H1 as _ <-. by injection H2 as _ <-.
Qed.

(** C23.  Values declared secret stay out of the audit log where a value is stored by key: when
    the page that overrides a key in an environment or the page that sets a key for all
    environments is sent a value for a key that the feature declares secret, whatever the
    form says and whatever fails, every audit entry that is added says no more than that the
    value is secret.  Nothing is claimed of the pages that edit or delete a stored value:
    they go by the flag stored with it, which need not be what the feature now declares. *)
Theorem declared_secret_hidden p r w o w' feat w1 :
  p = OverrideConfigPage ∨ p = SetFeatureConfigPage →
  declaration p r w = (Ok (inr feat), w1) → declared_secret feat (FormValue r "key") = true →
  serve_page actor aud rec uuid_String ChartDownloader p r w = (o, w') →
  ∃ l, audits w' = audits w ++ l ∧ Forall hidden l.
Proof.
  intros Hp Hd Hs. revert o w'. change (adds_hidden (serve_page actor aud rec uuid_String ChartDownloader p r) w).
  destruct Hp as [-> | ->]; cbn [serve_page declaration] in *; apply hidden_reply_of.
  - apply hidden_page_bind; [apply hidden_reads, reads_parsed_form|intros [] w2 [_ ->]%require_inr].
    apply hidden_page_bind; [apply hidden_reads, reads_page_environment|intros te w3 Hte].
    apply hidden_page_bind; [apply hidden_reads, reads_page_value|intros v w4 ->%page_value_same].
    apply hidden_page_bind; [apply hidden_reads, reads_page_feature|intros feat' w5 Hf].
    apply page_bind_inr in Hd as (te' & w3' & Hte' & Hd). rewrite Hte in Hte'. injection Hte' as <- <-.
    rewrite Hf in Hd. injection Hd as <- <-.
    apply hidden_page_bind; [|intros c w6 _; apply hidden_reads, reads_page_ret].
    apply hidden_or_respond, hidden_WithTx. intros v'. by apply hidden_CreateEnvConfig.
  - apply hidden_page_bind; [apply hidden_reads, reads_parsed_form|intros [] w2 [_ ->]%require_inr].
    apply hidden_page_bind; [apply hidden_reads, reads_require|intros [] w2 [_ ->]%require_inr].
    apply hidden_page_bind; [apply hidden_reads, reads_or_respond, reads_FeatureByName|intros feat' w3 Hf].
    rewrite Hf in Hd. injection Hd as <- <-.
    apply hidden_page_bind; [apply hidden_reads, reads_page_value|intros v w4 _].
    apply hidden_page_bind; [|intros c w6 _; apply hidden_reads, reads_page_ret].
    apply hidden_or_respond, hidden_WithTx. intros v'. by apply hidden_CreateGlobalConfig.
Qed.
End secrets.

(** ** What is switched off is not deployed *)

Section switched_off.
Context `{ext : External} `{pg : Postgres} `{codec : FeatureCodec}.

Lemma mostSpecificAssignment_name envID name w fa w' :
  mostSpecificAssignment envID name w = (Ok fa, w') → f_Name (fa_Feature fa) = name.
Proof.
  unfold mostSpecificAssignment. intros H. apply bind_Ok in H as (rows & w1 & Hr & H).
  apply wrapping_Ok, query_value in Hr; [|done]. injection Hr as Hr.
  assert (Hn : ∀ r, r ∈ rows → fd_Name (la_data r) = name).
  { intros r. rewrite <-Hr. intros [Hname Hin]%elem_of_distinct_rows%list_elem_of_filter.
    rewrite <-Hname. by eapply matching_rows_joined. }
  destruct rows as [|r0 rows0]; [done|].
  apply bind_Ok in H as (deps & w2 & Hd & H). unfold lift in Hd. injection Hd as Hd _.
  change (omapM row_assignment (r0 :: rows0) = Ok deps) in Hd. apply omapM_Forall2 in Hd.
  destruct (fa_mostSpecificPerFeature deps) as [|winner ws] eqn:Ew; [done|]. injection H as -> _.
  assert (fa ∈ deps) as (i & Hi)%list_elem_of_lookup.
  { assert (fa ∈ pick_winners deps) as Hp by (unfold fa_mostSpecificPerFeature in Ew; rewrite Ew; by left).
    by apply pick_winners_wins in Hp as (Hp & _). }
  destruct (Forall2_lookup_r _ _ _ _ _ Hd Hi) as (r & Hri & Hra).
  apply row_assignment_name in Hra as ->. apply Hn. by eapply list_elem_of_lookup_2.
Qed.

Lemma snapshot_disabled aud w snap w' envID name t :
  fetchSnapshot aud w = (Ok snap, w') → disabled_features (w_feature w) !! (envID, name) = Some t →
  default false (default ∅ (s_disabledByEnv snap !! envID) !! name) = true.
Proof.
  unfold fetchSnapshot. intros H Hd.
  read_bind H envs He S1. read_bind H health Hh S2. read_bind H rows Hr S3.
  read_bind H deps Hdeps S4. read_bind H dis Hdis S5. read_bind H gc Hgc S6.
  read_bind H ec Hec S7. read_bind H vs Hvs S8. read_bind H ins Hins S9.
  read_bind H dep Hdep S10. injection H as <- _. cbn [s_disabledByEnv].
  apply wrapping_Ok, query_value in Hdis; [|done]. injection Hdis as <-.
  apply same_world_feature in S1, S2, S3, S4. rewrite S4, S3, S2, S1.
  rewrite (index_lookup _ _ _ _ _ _ (envID, name)).
  - rewrite decide_True; [done|]. apply Exists_exists. exists (envID, name). split; [|done].
    apply list_elem_of_fmap. exists ((envID, name), t). by rewrite elem_of_map_to_list.
  - intros [a b] _. cbn. by intros -> ->.
Qed.

(** While the mark stands, no turn of the loop decides to deploy. *)
Lemma disabled_not_deployed aud clock numWorkers w results w' d t :
  0 < numWorkers → ComputeDesiredState aud clock numWorkers w results w' →
  d ∈ results → dd_Action d = ActionDeploy →
  disabled_features (w_feature w) !! decision_key d ≠ Some t.
Proof.
  intros Hn (snap & p & Hf & Hs & Hp & <-) Hin Ha Hd.
  destruct (deploy_decision_source _ _ _ _ _ _ Hn Hs Hp Hin Ha) as (env & dep & ra & _ & _ & Hc & _ & _ & Hdis).
  assert (Hk : decision_key d = (e_ID env, f_Name (ra_Feature dep))).
  { exact (task_result_key snap (TWork {| wi_env := env; wi_dep := dep |}) d Hc). }
  rewrite Hk in Hd. apply (snapshot_disabled aud w snap w') in Hd; [|done]. congruence.
Qed.
End switched_off.

Section toggle.
Context `{ext : External} `{pg : Postgres} `{codec : FeatureCodec} (actor : string).

End toggle.

(** ** Examples *)

Section examples.
Definition page_json : FormJson := {|
  form_Unmarshal _ := Err (ErrString "json"); form_Unmarshal_strings _ := Err (ErrString "json");
  form_Unmarshal_string s := Ok s; form_Marshal _ := Ok (json_quote "hunter2"); form_Indent s := Ok s;
|}.
(** The feature app with a single value, password, which is secret. *)
Definition secret_codec : FeatureCodec := {|
  decode_Dependencies _ := Ok [];
  json_Unmarshal_Values _ := Ok {[ "password" := {| v_Config := Some {| c_Type := "string"; c_Secret := true |};
    v_Computed := None; v_Required := false; v_DisplayName := ""; v_Description := ""; v_IgnoreKind := [] |} ]};
  decode_DefaultValues _ := Ok ∅;
|}.
#[local] Existing Instances echo example_pg example_raw secret_codec page_json example_web example_encoder
  example_parse.

Definition page_form (fields : string → string) : http_request :=
  {| hr_valid_form := true;
     hr_form k := if bool_decide (fields k = "") then [] else [fields k];
     hr_post_form k := if bool_decide (fields k = "") then [] else [fields k];
     hr_param k := if bool_decide (k = "tenant") then "nav" else if bool_decide (k = "env") then "dev"
                   else if bool_decide (k = "feature") then "app" else "old-app";
     hr_header _ := ""; hr_body := "" |}.

#[local] Abbreviation example_serve :=
  (serve_page "me" "" (Some (Some pubSubDeployer)) (λ _, "id") example_download) (only parsing).

Definition toggle_form : http_request :=
  page_form (λ k, if bool_decide (k = "enabled") then "false" else if bool_decide (k = "reason") then "flaky" else "").
Definition override_form : http_request :=
  page_form (λ k, if bool_decide (k = "key") then "password" else if bool_decide (k = "value") then "hunter2" else "").

(** The database goes away just before the commit. *)
Definition commit_fails : world :=
  set_w_faults (λ _, [None; None; None; None; None; None; Some (ErrString "connection reset")]) example_world.

Lemma page_change_triggers_witness :
  ∃ rp w', example_serve ToggleReconcilePage toggle_form commit_fails = (Ok rp, w') ∧
    rp_status rp = 500%Z ∧ w_faults w' = [] ∧ same_tables commit_fails w'.
Proof.
  destruct (example_serve ToggleReconcilePage toggle_form commit_fails) as [o w'] eqn:E.
  pose proof (page_change_triggers "me" "" (Some (Some pubSubDeployer)) (λ _, "id") example_download
    ToggleReconcilePage toggle_form commit_fails o w' eq_refl E) as H.
  vm_compute in E. destruct o as [rp|e|p]; [|discriminate E..]. injection E as Hr Hw.
  exists rp, w'. split; [reflexivity|]. split; [by subst rp|]. split; [by subst w'|].
  apply H. by subst rp.
Defined.

Lemma declared_secret_hidden_witness :
  ∃ rp w', example_serve OverrideConfigPage override_form example_world = (Ok rp, w') ∧
    length (audits w') = 1%nat ∧ Forall hidden (audits w').
Proof.
  destruct (declaration OverrideConfigPage override_form example_world) as [od w1] eqn:Ed.
  destruct (example_serve OverrideConfigPage override_form example_world) as [o w'] eqn:E.
  pose proof Ed as Ed'. vm_compute in Ed'. destruct od as [[rd|feat]|e|p]; [discriminate Ed'| |discriminate Ed'..].
  injection Ed' as Hfeat _.
  destruct (declared_secret_hidden "me" "" (Some (Some pubSubDeployer)) (λ _, "id") example_download
    OverrideConfigPage override_form example_world o w' feat w1 (or_introl eq_refl) Ed) as (l & Hl & Hh);
    [subst feat; vm_compute; reflexivity|exact E|].
  vm_compute in E. destruct o as [rp|e|p]; [|discriminate E..]. injection E as Hr Hw.
  exists rp, w'. split; [reflexivity|]. split; [by subst w'|]. by rewrite Hl.
Defined.

(** A turn of the loop after app was switched off in dev. *)
Definition switched_off_world : world := (ToggleFeatureStateHandler "me" toggle_form example_world).2.
Definition switched_off_snap : snapshot :=
  match (fetchSnapshot "" switched_off_world).1 with Ok s => s | _ => example_snapshot end.
Definition switched_off_decision : DeployDecision :=
  match dispatch_tasks switched_off_snap example_clock with TSkip d :: _ => d | _ => example_decision end.

Lemma switched_off_turn :
  ComputeDesiredState "" example_clock 1 switched_off_world [switched_off_decision] switched_off_world.
Proof.
  exists switched_off_snap, (Build_pool [] [] true [Exited] [] true [switched_off_decision]).
  split; [vm_compute; reflexivity|]. split; [|done].
  assert (dispatch_tasks switched_off_snap example_clock = [TSkip switched_off_decision]) as -> by
    (vm_compute; reflexivity).
  unfold pool_init. simpl. eapply steps_cons; [apply step_skip; simpl; lia|].
  eapply steps_cons; [apply step_close|]. simpl.
  eapply steps_cons; [apply (step_exit _ _ _ [] [] [])|]. simpl.
  eapply steps_cons; [apply step_finish; by repeat constructor|].
  eapply steps_cons; [apply step_receive|]. apply steps_refl.
Qed.


(** *** What the pages do besides *)

(** A destination that begins with two slashes is another host's, and is accepted. *)
Theorem redirect_leaves_host :
  redirectOrDefault (page_form (λ k, if bool_decide (k = "redirect") then "//evil.example" else "")) "/features" =
    "//evil.example" ∧
  deactivateRedirect (page_form (λ k, if bool_decide (k = "redirect") then "//evil.example" else "")) =
    "//evil.example".
Proof. split; vm_compute; reflexivity. Qed.

(** A value that was stored before its key was declared secret shows in the audit log when it
    is edited, the old one as well as the new one. *)
Definition stored_plainly : world :=
  set_w_feature (set_configurations_environment (λ _,
    [{| ce_ID := 1; ce_Feature := "app"; ce_Key := "password"; ce_Value := "hunter1"; ce_Description := None;
        ce_Secret := false; ce_Created := 5; ce_EnvironmentID := 7 |}])) example_world.

Theorem edited_secret_shows :
  ∃ rp w' feat w1, declaration OverrideConfigPage override_form stored_plainly = (Ok (inr feat), w1) ∧
    declared_secret feat "password" = true ∧
    example_serve EditConfigPage override_form stored_plainly = (Ok rp, w') ∧
    length (audits w') = 1%nat ∧ ¬ Forall hidden (audits w').
Proof.
  eexists _, _, _, _. split; [vm_compute; reflexivity|]. split; [vm_compute; reflexivity|].
  split; [vm_compute; reflexivity|]. split; [reflexivity|].
  intros H. apply Forall_cons_1 in H as [H _]. vm_compute in H. discriminate H.
Qed.

(** The answer to a request to uninstall is an error although the instruction is sent, when
    only the audit entry could not be written. *)
Theorem uninstall_reported_failed :
  ∃ rp w', example_serve UninstallReleasePage (page_form (λ _, ""))
      (set_w_faults (λ _, [None; None; None; Some (ErrString "connection reset")]) example_world) = (Ok rp, w') ∧
    rp_status rp = 500%Z ∧ length (published w') = 1%nat ∧ audits w' = [].
Proof. eexists _, _. split_and!; vm_compute; reflexivity. Qed.
End examples.
