(* ===== verification/AuditView.v ===== *)
(** * internal/ui/auditview and internal/ui/pages/auditlog: the audit trail on the pages

    How an entry of the audit trail is shown: what was done, to which resource and where
    that is, what changed, and by whom.  A node is the text and the link it consists of.
    The metadata of an entry is the JSON value it was written as. *)

From S2P Require Import Listings Labels UiData Pages AssignmentStore ConfigStore Environment Catalog.
From S2P Require Import AuditTrail View.
From S2P Require Import GoStd.

(** ** Metadata *)

(** json.Unmarshal into a [map[string]any]; [None] is its error. *)
Definition object_any (v : gval) : option gomap :=
  match v with
  | VNil => Some ∅
  | VMap m => Some m
  | VStrMap m => Some (VStr <$> m)
  | _ => None
  end.

(** A value decoded into a string: null leaves it empty. *)
Definition string_value (v : gval) : option string :=
  match v with VStr s => Some s | VNil => Some "" | _ => None end.

(** json.Unmarshal into a [map[string]string]. *)
Definition object_strings (v : gval) : option Labels :=
  match v with
  | VStrMap m => Some m
  | VMap m =>
      if forallb (λ kv, bool_decide (is_Some (string_value kv.2))) (map_to_list m)
      then Some (omap string_value m : Labels) else None
  | VNil => Some ∅
  | _ => None
  end.

Definition metadataString (meta : option gval) (key : string) : string :=
  default "" (v ← meta; m ← object_any v; x ← m !! key; as_str x).

(** ** Actions, descriptions and resources *)

Definition isRedeploy (e : Entry) : bool :=
  bool_decide (en_ObjectType e = "assignment") &&
  (bool_decide (en_Action e = "triggered") || bool_decide (en_Action e = "redeploy")).

Definition DisplayAction (e : Entry) : string := if isRedeploy e then "redeployed" else en_Action e.

Definition Display (t : string) : string :=
  if bool_decide (t = "environment_value") then "env value"
  else if bool_decide (t = "configuration") then "config" else t.

Definition Entry_Summary (e : Entry) : string :=
  let s := en_Action e +:+ (" " +:+ (Display (en_ObjectType e) +:+ (" " +:+ en_ObjectID e))) in
  if bool_decide (en_Description e = "") then s else s +:+ (" (" +:+ (en_Description e +:+ ")")).

Definition IsDescriptionRedundant (e : Entry) : bool :=
  bool_decide (en_ObjectType e = "configuration") || isRedeploy e.

(** The target an assignment was recorded with, unless it is empty. *)
Definition recorded_target (meta : option gval) : option Labels :=
  v ← meta; m ← object_any v;
  target ← match m !! "target" with None => None | Some t => object_strings t end;
  if bool_decide (target = ∅) then None else Some target.

(** [parts[1]] of [strings.Split(s, sep)]. *)
Definition second_part (s sep : string) : option string :=
  match Split s sep with _ :: p :: _ => Some p | _ => None end.

Definition auditTargetDescription (e : Entry) : string :=
  match recorded_target (en_Metadata e) with
  | Some target => AssignmentStore.formatLabels target
  | None =>
      let target := TrimSpace (default "" (second_part (en_Description e) "→")) in
      if bool_decide (target = "") then "all environments" else target
  end.

Definition Description (e : Entry) : string :=
  if bool_decide (en_ObjectType e = "assignment") && bool_decide (en_Action e = "created") then
    let description := TrimSpace (en_Description e) in
    let version := TrimSpace (TrimPrefix (first (Split description "→")) "version") in
    if bool_decide (version = "") then description
    else "version " +:+ (version +:+ (" → " +:+ auditTargetDescription e))
  else if bool_decide (en_Description e = "") then Entry_Summary e else en_Description e.

Section auditview.
Context (uuid_Parse : string → outcome uuid).

Definition AssignmentHref (e : Entry) : string :=
  if negb (bool_decide (en_ObjectType e = "assignment")) then ""
  else let depID := metadataString (en_Metadata e) "assignmentId" in
       if bool_decide (depID = "") then ""
       else "/features/" +:+ (en_ObjectID e +:+ ("/assignments/" +:+ depID)).

Definition env_href (e : Entry) : string := "/tenants/" +:+ (en_TenantName e +:+ ("/envs/" +:+ en_EnvironmentName e)).

(** Whether an entry names the environment it is about. *)
Definition has_environment (e : Entry) : bool :=
  negb (bool_decide (en_TenantName e = "")) && negb (bool_decide (en_EnvironmentName e = "")).

Definition ResourceHref (e : Entry) : string :=
  let t := en_ObjectType e in
  if bool_decide (t = "feature") then "/features/" +:+ en_ObjectID e
  else if bool_decide (t = "assignment") then
    if bool_decide (en_ObjectID e = "all") then ""
    else match uuid_Parse (en_ObjectID e) with Ok _ => "" | _ => "/features/" +:+ en_ObjectID e end
  else if bool_decide (t = "configuration") then
    let '(feature, key, ok) := cut_char "/" (en_ObjectID e) in
    if negb ok || bool_decide (feature = "") then ""
    else if bool_decide (is_Some (en_EnvironmentID e)) && has_environment e
    then "/features/" +:+ (feature +:+ ("/envs/" +:+ (en_TenantName e +:+ ("/" +:+
           (en_EnvironmentName e +:+ ("/config#config-" +:+ key))))))
    else "/features/" +:+ (feature +:+ ("/config#config-" +:+ key))
  else if bool_decide (t ∈ ["environment"; "environment_value"]) then
    if has_environment e then env_href e else ""
  else "".

(** A text and where it links to; without a link the second is empty. *)
Definition node : Type := string * string.

Definition assignment_nodes (e : Entry) : list node :=
  if bool_decide (en_ObjectType e = "assignment") && negb (bool_decide (en_ObjectID e = "all")) then
    let depID := metadataString (en_Metadata e) "assignmentId" in
    if negb (bool_decide (depID = ""))
    then [("assignment", "/features/" +:+ (en_ObjectID e +:+ ("/assignments/" +:+ depID))); (" of ", "");
          (en_ObjectID e, "/features/" +:+ en_ObjectID e)]
    else if isRedeploy e then [(en_ObjectID e, "/features/" +:+ en_ObjectID e)] else []
  else [].

Definition ResourceLink (e : Entry) : list node :=
  match assignment_nodes e with
  | [] => [(Display (en_ObjectType e) +:+ (" " +:+ en_ObjectID e), ResourceHref e)]
  | nodes => nodes
  end.

(** [None] is the empty text. *)
Definition EnvLink (e : Entry) : option node :=
  if has_environment e then Some (en_TenantName e +:+ ("/" +:+ en_EnvironmentName e), env_href e)
  else if bool_decide (en_ObjectType e = "configuration") then Some ("🌐 global", "") else None.

(** ** What changed *)

Definition cleanVal (s : string) : string :=
  let quote := String "034" "" in TrimSuffix (TrimPrefix s quote) quote.

Definition truncateVal (s : string) : string :=
  if (String.length s <=? 24)%nat then s else String.substring 0 24 s +:+ "…".

(** A value: its title and its text. *)
Definition shown_value (v : string) : string * string := (v, truncateVal v).

Inductive change_node :=
  | SecretChange
  | ValueSet (new : string * string)
  | ValueDeleted (old : string * string)
  | ValueChanged (old new : string * string).

Definition ConfigChangeNode (e : Entry) : option change_node :=
  if negb (bool_decide (en_ObjectType e = "configuration")) then None
  else v ← en_Metadata e; meta ← object_strings v;
       if bool_decide (default "" (meta !! "secret") = "true") then Some SecretChange
       else match meta !! "old", meta !! "new" with
            | None, None => None
            | None, Some new => Some (ValueSet (shown_value (cleanVal new)))
            | Some old, None => Some (ValueDeleted (shown_value (cleanVal old)))
            | Some old, Some new => Some (ValueChanged (shown_value (cleanVal old)) (shown_value (cleanVal new)))
            end.

Definition uninstallLogsLink (e : Entry) : option string :=
  if negb (bool_decide (en_Action e = "uninstall")) then None
  else let diid := metadataString (en_Metadata e) "diid" in
       if bool_decide (diid = "") then None else Some ("/auditlog/uninstall-logs/" +:+ diid).

(** The description, unless it adds nothing. *)
Definition shown_description (e : Entry) : option string :=
  if bool_decide (Description e = "") || IsDescriptionRedundant e then None else Some (Description e).

Record details := { de_change : option change_node; de_description : option string; de_logs : option string }.

Definition DetailNode (e : Entry) : details :=
  {| de_change := ConfigChangeNode e; de_description := shown_description e; de_logs := uninstallLogsLink e |}.

(** ** Rows *)

Context (Format : time → string).

Record activity_row := {
  ac_action : string; ac_resource : list node; ac_environment : option node; ac_details : details;
  ac_actor : actor_node; ac_when : string * string;
}.

Definition ActivityRow (now : time) (e : Entry) : activity_row :=
  {| ac_action := DisplayAction e; ac_resource := ResourceLink e; ac_environment := EnvLink e;
     ac_details := DetailNode e; ac_actor := ActorNode (en_Actor e);
     ac_when := (FormatTime Format (en_CreatedAt e), RelativeTime Format now (en_CreatedAt e)) |}.

Definition ActivityTable (now : time) (entries : list Entry) : list activity_row := ActivityRow now <$> entries.

Definition locationChip (e : Entry) (scopeEnv : string) : option node :=
  if negb (has_environment e)
  then if bool_decide (en_ObjectType e = "configuration") then EnvLink e else None
  else if bool_decide (en_TenantName e +:+ ("/" +:+ en_EnvironmentName e) = scopeEnv) then None else EnvLink e.

Record activity_item := {
  ai_action : string; ai_actor : option actor_node; ai_when : string * string; ai_resource : list node;
  ai_location : option node; ai_change : option change_node; ai_description : option string;
}.

(** Without a function of its own the sidebar shows the resource with [ResourceLink]. *)
Definition ActivityItem (resourceFn : Entry → list node) (scopeEnv : string) (now : time) (e : Entry) : activity_item :=
  {| ai_action := DisplayAction e;
     ai_actor := if bool_decide (en_Actor e = "") then None else Some (ActorNode (en_Actor e));
     ai_when := (FormatTime Format (en_CreatedAt e), RelativeTime Format now (en_CreatedAt e));
     ai_resource := resourceFn e; ai_location := locationChip e scopeEnv;
     ai_change := ConfigChangeNode e; ai_description := shown_description e |}.

Definition ActivityList (resourceNode : option (Entry → list node)) (scopeEnv : string) (now : time)
    (entries : list Entry) : option (list activity_item) :=
  match entries with
  | [] => None
  | _ => Some (ActivityItem (default ResourceLink resourceNode) scopeEnv now <$> entries)
  end.

(** The sidebar of a feature: configuration keys without the feature, and assignments as a
    bare link. *)
Definition key_of (objectID : string) : option string :=
  let '(feature, key, ok) := cut_char "/" objectID in
  if negb ok || bool_decide (feature = "") then None else Some key.

Definition featureActivityResourceNode (e : Entry) : list node :=
  if bool_decide (en_ObjectType e = "configuration") then
    match key_of (en_ObjectID e) with Some key => [(key, "")] | None => ResourceLink e end
  else if bool_decide (en_ObjectType e = "assignment") then
    if bool_decide (AssignmentHref e = "") then ResourceLink e else [("assignment", AssignmentHref e)]
  else ResourceLink e.

Definition envResourceNode (e : Entry) : list node :=
  if bool_decide (en_ObjectType e = "configuration") then
    match key_of (en_ObjectID e) with Some key => [(key, "")] | None => ResourceLink e end
  else ResourceLink e.

Record sidebar := { sb_title : string; sb_all : string; sb_items : list activity_item }.

Definition all_activity (query : string) : string := "/auditlog?q=" +:+ QueryEscape query.

(** The sidebar of a feature's pages (features.go); none without entries. *)
Definition feature_sidebar (now : time) (featureName activeTab : string) (entries : list Entry) : option sidebar :=
  items ← ActivityList (Some featureActivityResourceNode) "" now entries;
  Some {| sb_title := if bool_decide (activeTab = "assignments") then "Assignment activity"
                      else if bool_decide (activeTab = "config") then "Config activity" else "Recent activity";
          sb_all := all_activity featureName; sb_items := items |}.

(** The sidebar of a feature's pages in an environment (environment/feature.go). *)
Definition envActivitySidebar (now : time) (tenant env featureName : string) (entries : list Entry) : option sidebar :=
  items ← ActivityList (Some envResourceNode) (tenant +:+ ("/" +:+ env)) now entries;
  Some {| sb_title := "Recent activity";
          sb_all := all_activity (featureName +:+ (" " +:+ (tenant +:+ ("/" +:+ env)))); sb_items := items |}.

(** ** The page of the audit log *)

Context `{txt : PostgresText} `{ls : LogScan}.

(** [None] is the note that nothing is recorded. *)
Definition activityTable (now : time) (entries : list Entry) : option (list activity_row) :=
  match entries with [] => None | _ => Some (ActivityTable now entries) end.

Definition auditlog_Handler (now : time) (rawQuery : string) : page (option (list activity_row)) :=
  let query := TrimSpace (first (query_values "q" rawQuery)) in
  entries ← or_respond (if bool_decide (query = "") then ListRecent 200 else SearchRecent (Fields query) 200)
    (InternalError "Failed to load audit log");
  mret (activityTable now entries).

(** A line: its instant and its text. *)
Definition uninstall_line (line : UiLogLine) : string * string :=
  (FormatTime Format (ln_Timestamp line) +:+ "  ", ln_Message line).

Definition UninstallLogsFragmentHandler (r : http_request) : page (list (string * string)) :=
  diid ← or_respond (lift (uuid_Parse (URLParam r "diid")))
    (λ _, http_error StatusBadRequest "Invalid log id");
  lines ← or_respond (GetLogLines diid) (InternalError "Failed to load logs");
  mret (uninstall_line <$> lines).
End auditview.

(** ** Texts *)

(** Space is trimmed off up to the next byte that is none. *)
Lemma trim_left_until a c b : is_space c = false → trim_left (a +:+ String c b) = trim_left a +:+ String c b.
Proof. intros Hc. induction a as [|d a IH]; cbn; [by rewrite Hc|]. by destruct (is_space d). Qed.

Lemma trim_left_length s : (String.length (trim_left s) <= String.length s)%nat.
Proof. induction s as [|c s IH]; cbn; [done|]. destruct (is_space c); cbn; lia. Qed.

Lemma trim_left_same s : String.length (trim_left s) = String.length s → trim_left s = s.
Proof.
  destruct s as [|c s]; [done|]. cbn. pose proof (trim_left_length s). destruct (is_space c); [lia|done].
Qed.

Lemma str_rev_length s : String.length (str_rev s) = String.length s.
Proof.
  induction s as [|c s IH]; [done|]. unfold str_rev. cbn [str_rev_app].
  rewrite str_rev_app_spec, str_length_app, IH. cbn. lia.
Qed.

(** A text without space around it comes back from a text with it. *)
Lemma TrimSpace_around s : TrimSpace s = s → s ≠ "" → TrimSpace (" " +:+ (s +:+ " ")) = s.
Proof.
  intros Hs Hne. assert (Hl : trim_left s = s).
  { apply trim_left_same. pose proof (trim_left_length s) as H1.
    pose proof (trim_left_length (str_rev (trim_left s))) as H2. rewrite str_rev_length in H2.
    apply (f_equal String.length) in Hs. unfold TrimSpace in Hs. rewrite str_rev_length in Hs. lia. }
  unfold TrimSpace. change (trim_left (" " +:+ ?x)) with (trim_left x).
  assert (Hl2 : trim_left (s +:+ " ") = s +:+ " ").
  { destruct s as [|c s]; [done|]. change (String c s +:+ " ") with (String c (s +:+ " ")). cbn in Hl |- *.
    destruct (is_space c); [|done]. pose proof (trim_left_length s) as Hle. rewrite Hl in Hle. cbn in Hle. lia. }
  rewrite Hl2, str_rev_app_distr. change (str_rev " ") with " ". change (trim_left (" " +:+ ?x)) with (trim_left x).
  rewrite <-Hl at 1. exact Hs.
Qed.

(** What comes before a separator is a part; the separator begins with a byte that
    does not come back in it. *)
Lemma prefix_inside c p a b :
  has_char c p = false → String.prefix p (a +:+ String c b) = true → String.prefix p a = true.
Proof.
  revert a. induction p as [|d p IH]; intros a Hc H; [by destruct a|]. cbn [has_char] in Hc.
  apply orb_false_iff in Hc as [Hd Hc]. apply bool_decide_eq_false in Hd. destruct a as [|e a].
  - change ("" +:+ ?x) with x in H. rewrite str_prefix_cons in H. apply andb_prop in H as [H _].
    by apply bool_decide_eq_true in H as ->.
  - change (String e a +:+ ?x) with (String e (a +:+ x)) in H. rewrite str_prefix_cons in H |- *.
    apply andb_prop in H as [-> H]. by apply IH.
Qed.

Lemma split_skip sep p b : split_from sep (String.length p) (p +:+ b) = split_from sep 0 b.
Proof. induction p as [|c p IH]; [done|]. exact IH. Qed.

Lemma Split_here c p a b :
  has_char c p = false → Contains a (String c p) = false →
  Split (a +:+ (String c p +:+ b)) (String c p) = a :: Split b (String c p).
Proof.
  intros Hp. unfold Split. induction a as [|d a IH]; intros Ha.
  - change ("" +:+ ?x) with x. change (String c p +:+ b) with (String c (p +:+ b)). cbn [split_from].
    rewrite str_prefix_cons, bool_decide_eq_true_2, str_prefix_app by done. cbn [andb String.length].
    rewrite Nat.sub_succ, Nat.sub_0_r. by rewrite split_skip.
  - cbn [Contains] in Ha. apply orb_false_iff in Ha as [Hd Ha]. specialize (IH Ha).
    change (String d a +:+ ?x) with (String d (a +:+ x)). cbn [split_from].
    destruct (String.prefix (String c p) (String d (a +:+ (String c p +:+ b)))) eqn:E.
    + rewrite str_prefix_cons in E, Hd. apply andb_prop in E as [Ec E]. rewrite Ec in Hd.
      apply (prefix_inside c) in E; [|done]. by rewrite E in Hd.
    + by rewrite IH.
Qed.

(** A text that is nowhere on either side of a byte it does not have. *)
Lemma Contains_apart c p a b :
  has_char c p = false → Contains a p = false → Contains b p = false → Contains (a +:+ String c b) p = false.
Proof.
  intros Hp. induction a as [|d a IH]; intros Ha Hb.
  - change ("" +:+ ?x) with x. cbn [Contains] in Ha |- *. rewrite Hb, orb_false_r in *.
    apply not_true_is_false. intros H. apply (prefix_inside c p "" b) in H; [|done]. by rewrite H in Ha.
  - cbn [Contains] in Ha. apply orb_false_iff in Ha as [Hd Ha].
    change (String d a +:+ ?x) with (String d (a +:+ x)). cbn [Contains]. rewrite (IH Ha Hb), orb_false_r.
    apply not_true_is_false. intros H. apply (prefix_inside c p (String d a) b) in H; [|done]. by rewrite H in Hd.
Qed.

(** ** An entry is listed *)

Lemma left_join_elem {A B} (f : A → list B) (x : A) : ∃ o, (x, o) ∈ left_join f x ∧ (f x = [] → o = None).
Proof.
  unfold left_join. destruct (f x) as [|y l]; [exists None; by split; [left|]|].
  exists (Some y). by split; [left|].
Qed.

Lemma filter_nothing {A} (P : A → Prop) `{∀ x, Decision (P x)} (l : list A) : (∀ x, ¬ P x) → filter P l = [].
Proof. intros HP. induction l as [|x l IH]; [done|]. by rewrite filter_cons, decide_False. Qed.

Lemma joined_entry w a : a ∈ audits w →
  ∃ r, r ∈ joined_audits w ∧ al_audit r = a ∧
    (au_EnvironmentID a = None → al_EnvironmentName r = None ∧ al_TenantName r = None).
Proof.
  intros Ha. destruct (left_join_elem (audit_environments w) a) as (oe & He & Hne).
  destruct (left_join_elem (row_tenants w) (a, oe)) as (ot & Ht & Hnt).
  eexists. split_and!.
  - unfold joined_audits. apply list_elem_of_bind. exists a. split; [|done].
    apply list_elem_of_bind. exists (a, oe). split; [|exact He].
    apply list_elem_of_bind. exists (a, oe, ot). split; [|exact Ht]. by apply list_elem_of_singleton.
  - done.
  - intros Hnone. cbn.
    assert (oe = None) as -> by (apply Hne; unfold audit_environments; rewrite Hnone; by apply filter_nothing).
    rewrite Hnt; [done|]. by apply filter_nothing.
Qed.

(** With room for all entries, every one of them is listed. *)
Lemma listed_with_room (p : AuditListRow → bool) limit w r :
  w_faults w = [] → (Z.of_nat (length (joined_audits w)) <= limit)%Z → r ∈ joined_audits w → p r = true →
  ∃ rows, list_audits p limit w = (Ok rows, w) ∧ r ∈ rows.
Proof.
  intros Hf Hl Hr Hp. unfold list_audits. rewrite query_now by done. unfold limited.
  rewrite (proj2 (Z.ltb_ge _ _)) by lia. eexists. split; [reflexivity|]. rewrite take_ge.
  - apply elem_of_isort, list_elem_of_filter. by split.
  - rewrite (Permutation_length (isort_perm _ _)). pose proof (length_filter (λ r, p r = true) (joined_audits w)). lia.
Qed.

(** ** Assignments *)

Lemma before_arrow v : Contains v "→" = false → Contains ("version " +:+ (v +:+ " ")) "→" = false.
Proof.
  intros Ha. change ("version " +:+ (v +:+ " ")) with ("version" +:+ String " " (v +:+ String " " "")).
  by repeat apply Contains_apart.
Qed.

Lemma assignment_description v labels :
  TrimSpace v = v → v ≠ "" → Contains v "→" = false →
  TrimSpace (TrimPrefix (first (Split (TrimSpace ("version " +:+ (v +:+ (" → " +:+ labels)))) "→")) "version") = v.
Proof.
  intros Hs Hne Ha. set (arrow := String "226" (String "134" "")).
  assert (Ht : ∃ rest, TrimSpace ("version " +:+ (v +:+ (" → " +:+ labels))) =
    ("version " +:+ (v +:+ " ")) +:+ ("→" +:+ rest)).
  { exists (str_rev (trim_left (str_rev (" " +:+ labels)))). unfold TrimSpace.
    change (trim_left ("version " +:+ ?x)) with ("version " +:+ x).
    change (" → " +:+ labels) with (" " +:+ (arrow +:+ String "146" (" " +:+ labels))).
    change ("→" +:+ ?x) with (arrow +:+ String "146" x).
    rewrite <-!str_app_assoc. generalize (((("version " +:+ v) +:+ " ") +:+ arrow)). intros p.
    change (String "146" (" " +:+ labels)) with (String "146" "" +:+ (" " +:+ labels)).
    rewrite !str_rev_app_distr. change (str_rev (String "146" "")) with (String "146" "").
    rewrite str_app_assoc. change (String "146" "" +:+ str_rev p) with (String "146" (str_rev p)).
    rewrite trim_left_until by done. rewrite str_rev_app_distr.
    change (String "146" (str_rev p)) with (String "146" "" +:+ str_rev p).
    by rewrite str_rev_app_distr, str_rev_involutive, str_app_assoc. }
  destruct Ht as [rest ->]. rewrite Split_here; [|done|].
  - cbn [first]. change ("version " +:+ ?x) with ("version" +:+ (" " +:+ x)). rewrite TrimPrefix_app. by apply TrimSpace_around.
  - by apply before_arrow.
Qed.

Lemma recorded_target_created id chart target :
  recorded_target (Some (VMap {[ "assignmentId" := id; "chart" := chart; "target" := VStrMap target ]})) =
    if bool_decide (target = ∅) then None else Some target.
Proof.
  unfold recorded_target. cbn [object_any mbind option_bind].
  rewrite !lookup_insert_ne, lookup_singleton_eq by done. done.
Qed.

(** The text of the column of an assignment: the version and the labels of its target. *)
Lemma Description_created e v target id chart :
  en_ObjectType e = "assignment" → en_Action e = "created" →
  en_Description e = "version " +:+ (v +:+ (" → " +:+ AssignmentStore.formatLabels target)) →
  en_Metadata e = Some (VMap {[ "assignmentId" := id; "chart" := chart; "target" := VStrMap target ]}) →
  TrimSpace v = v → v ≠ "" → Contains v "→" = false →
  Description e = en_Description e.
Proof.
  intros Ho Hac Hd Hm Hs Hne Ha. unfold Description. rewrite Ho, Hac, Hd. cbn [andb bool_decide].
  rewrite assignment_description, !bool_decide_eq_true_2, bool_decide_eq_false_2 by done. cbn [andb].
  do 3 f_equal. unfold auditTargetDescription. rewrite Hm, recorded_target_created.
  case_bool_decide as Ht; [|done]. subst target. rewrite Hd. unfold second_part.
  change (" → " +:+ ?x) with (" " +:+ ("→" +:+ (" " +:+ x))).
  rewrite <-(str_app_assoc v), <-(str_app_assoc "version ").
  rewrite Split_here by first [done|by apply before_arrow]. vm_compute. done.
Qed.

Lemma metadataString_map m k s : m !! k = Some (VStr s) → metadataString (Some (VMap m)) k = s.
Proof. unfold metadataString. cbn [mbind option_bind object_any]. by intros ->. Qed.

Lemma metadataString_strings m k s : m !! k = Some s → metadataString (Some (VStrMap m)) k = s.
Proof. unfold metadataString. cbn [mbind option_bind object_any]. rewrite lookup_fmap. by intros ->. Qed.

Section shown.
Context `{pg : Postgres} `{enc : FeatureEncoder} `{tpl : TemplateParse} `{txt : PostgresText}.
Context (ChartDownloader : string → string → outcome Feature)
  (uuid_String : uuid → string) (uuid_Parse : string → outcome uuid) (Format : time → string).

(** A new assignment is in the audit trail of its feature as what it is: by whom it was
    created, with its version and the labels of its target, and with links to its page and
    to its feature.  When nothing fails, the list has room for all entries, the version is
    one the form accepts (no space around it, not empty) without an arrow in it, and the
    feature is not named [all]. *)
Theorem created_entry_shown actor i w id name w' limit now :
  Create ChartDownloader uuid_String actor i w = (Ok (id, name), w') → w_faults w = [] →
  (Z.of_nat (length (joined_audits w')) <= limit)%Z → name ≠ "all" → uuid_String id ≠ "" →
  TrimSpace (ca_Version i) = ca_Version i → ca_Version i ≠ "" → Contains (ca_Version i) "→" = false →
  let href := "/features/" +:+ (name +:+ ("/assignments/" +:+ uuid_String id)) in
  ∃ l e, ListAssignmentsForFeature name limit w' = (Ok l, w') ∧ e ∈ l ∧ AssignmentHref e = href ∧
    ActivityRow uuid_Parse Format now e =
      {| ac_action := "created"; ac_resource := [("assignment", href); (" of ", ""); (name, "/features/" +:+ name)];
         ac_environment := None;
         ac_details := {| de_change := None; de_logs := None;
           de_description := Some ("version " +:+ (ca_Version i +:+ (" → " +:+
             AssignmentStore.formatLabels (ca_Target i)))) |};
         ac_actor := ActorNode (actorOrUnknown actor);
         ac_when := (FormatTime Format (w_now w'), RelativeTime Format now (w_now w')) |}.
Proof.
  intros H Hf Hl Hall Hid Hs Hne Hv href. destruct (Create_audited _ _ _ _ _ _ _ _ H Hf) as [Hf' Ha].
  match type of Ha with _ = _ ++ [?r] => set (row := r) in Ha end.
  destruct (joined_entry w' row) as (r & Hr & Hrow & Henv).
  { rewrite Ha. apply elem_of_app. right. left. }
  destruct (listed_with_room (λ r, of_feature name r && of_type "assignment" r) limit w' r Hf' Hl Hr) as (rows & Hq & Hin).
  { unfold of_feature, of_type. rewrite Hrow. by rewrite !bool_decide_eq_true_2. }
  exists (entry <$> rows), (entry r). split; [|split; [by apply list_elem_of_fmap_2|split]].
  { unfold ListAssignmentsForFeature, ListAssignmentsForFeature_query. by rewrite (bind_run _ _ _ _ _ Hq). }
  all: set (e := entry r).
  all: assert (Ho : en_ObjectType e = "assignment") by (unfold e, entry; by rewrite Hrow).
  all: assert (Hac : en_Action e = "created") by (unfold e, entry; by rewrite Hrow).
  all: assert (Hobj : en_ObjectID e = name) by (unfold e, entry; by rewrite Hrow).
  all: assert (Hmeta : metadataString (en_Metadata e) "assignmentId" = uuid_String id)
    by (unfold e, entry; cbn [en_Metadata]; rewrite Hrow; by apply metadataString_map).
  - unfold AssignmentHref. by rewrite Ho, Hmeta, Hobj, (bool_decide_eq_false_2 (uuid_String id = "")).
  - unfold ActivityRow. f_equal.
    + unfold DisplayAction, isRedeploy. by rewrite Hac, Ho.
    + unfold ResourceLink, assignment_nodes. 
      by rewrite Ho, Hmeta, Hobj, (bool_decide_eq_false_2 (name = "all")), (bool_decide_eq_false_2 (uuid_String id = "")).
    + unfold EnvLink, has_environment. rewrite Ho. unfold e, entry. cbn [en_TenantName].
      by rewrite (proj2 (Henv eq_refl)).
    + unfold DetailNode, ConfigChangeNode, uninstallLogsLink, shown_description. rewrite Hac, Ho. cbn [bool_decide negb].
      assert (Hdesc : Description e = "version " +:+ (ca_Version i +:+ (" → " +:+ AssignmentStore.formatLabels (ca_Target i)))).
      { rewrite (Description_created e (ca_Version i) (ca_Target i) (VStr (uuid_String id)) (VStr (ca_Chart i))); try done;
          unfold e, entry; by rewrite Hrow. }
      rewrite Hdesc. unfold IsDescriptionRedundant, isRedeploy. by rewrite Ho, Hac.
    + unfold e, entry. by rewrite Hrow.
    + unfold e, entry. by rewrite Hrow.
Qed.
(** What an entry of [audit_Create] is shown as; its environment may be gone. *)
Lemma audited_listed email p (q : AuditListRow → bool) limit w w' :
  audit_Create email p w = (Ok tt, w') → w_faults w = [] →
  (Z.of_nat (length (joined_audits w')) <= limit)%Z →
  (∀ r, au_Feature (al_audit r) = cp_Feature p → au_EnvironmentID (al_audit r) = cp_EnvironmentID p → q r = true) →
  w_faults w' = [] ∧ ∃ rows r, list_audits q limit w' = (Ok rows, w') ∧ entry r ∈ entry <$> rows ∧
    en_Action (entry r) = cp_Action p ∧ en_Description (entry r) = cp_Description p ∧
    en_ObjectType (entry r) = cp_ObjectType p ∧ en_ObjectID (entry r) = cp_ObjectID p ∧
    en_EnvironmentID (entry r) = cp_EnvironmentID p ∧ en_Metadata (entry r) = cp_Metadata p ∧
    en_Actor (entry r) = actorOrUnknown email.
Proof.
  intros Ha Hf Hl Hq. unfold audit_Create in Ha. rewrite exec_now in Ha by done. injection Ha as <-.
  match goal with |- context [set_audits ?g w] => set (w' := set_audits g w) in * end.
  split; [done|]. match eval cbv beta delta [w'] in w' with set_audits (λ l, l ++ [?x]) w => set (row := x) in w' end.
  destruct (joined_entry w' row) as (r & Hr & Hrow & _); [apply elem_of_app; right; left|].
  destruct (listed_with_room q limit w' r Hf Hl Hr) as (rows & Hrows & Hin).
  { apply Hq; by rewrite Hrow. }
  exists rows, r. split; [done|]. split; [by apply list_elem_of_fmap_2|]. unfold entry. by rewrite Hrow.
Qed.

(** What is shown of a change. *)
Definition change_shown (info : configAuditInfo) : option change_node :=
  if ai_secret info then Some SecretChange
  else match ai_oldVal info, ai_newVal info with
       | None, None => None
       | None, Some new => Some (ValueSet (shown_value (cleanVal new)))
       | Some old, None => Some (ValueDeleted (shown_value (cleanVal old)))
       | Some old, Some new => Some (ValueChanged (shown_value (cleanVal old)) (shown_value (cleanVal new)))
       end.

(** A change of a configuration is shown in the audit trail of its feature as what
    changed: the old value, the new one or both, at the key; of a secret only that it
    changed, whatever its values, and no part of the entry repeats the values in words.
    When nothing fails and the list has room for all entries. *)
Theorem config_change_shown actor action feature key envID info w w' limit :
  audit_Create actor (config_audit action feature key envID info) w = (Ok tt, w') → w_faults w = [] →
  (Z.of_nat (length (joined_audits w')) <= limit)%Z → action ≠ "uninstall" →
  ∃ l e, ListForFeature feature limit w' = (Ok l, w') ∧ e ∈ l ∧ DisplayAction e = action ∧
    ResourceLink uuid_Parse e = [("config " +:+ (feature +:+ ("/" +:+ key)), ResourceHref uuid_Parse e)] ∧
    DetailNode e = {| de_change := change_shown info; de_description := None; de_logs := None |} ∧
    (envID = None → has_char "/" feature = false → feature ≠ "" →
     ResourceHref uuid_Parse e = "/features/" +:+ (feature +:+ ("/config#config-" +:+ key))).
Proof.
  intros Ha Hf Hl Hun. destruct (audited_listed _ _ (of_feature feature) limit _ _ Ha Hf Hl)
    as (Hf' & rows & r & Hq & Hin & Hac & Hd & Ho & Hobj & Henv & Hm & _).
  { intros r Hr _. unfold of_feature. by rewrite Hr, bool_decide_eq_true_2. }
  exists (entry <$> rows), (entry r). set (e := entry r) in *. clearbody e.
  cbn [cp_Action cp_ObjectType cp_Metadata cp_ObjectID cp_EnvironmentID config_audit] in *. split_and!.
  - unfold ListForFeature, ListForFeature_query. by rewrite (bind_run _ _ _ _ _ Hq).
  - done.
  - unfold DisplayAction, isRedeploy. by rewrite Ho.
  - unfold ResourceLink, assignment_nodes. by rewrite Ho, Hobj.
  - unfold DetailNode, uninstallLogsLink, shown_description, IsDescriptionRedundant.
    rewrite Hac, Ho, (bool_decide_eq_false_2 (action = "uninstall")) by done.
    change (bool_decide ("configuration" = "configuration")) with true. cbn [negb orb]. rewrite orb_true_r.
    f_equal. unfold ConfigChangeNode. rewrite Ho, Hm. change (bool_decide ("configuration" = "configuration")) with true.
    cbn [negb mbind option_bind].
    unfold configChangeMetadata, change_shown. destruct (ai_secret info); [done|].
    destruct (ai_oldVal info) as [old|], (ai_newVal info) as [new|]; [..|done].
    all: rewrite bool_decide_eq_false_2 by (apply insert_non_empty); cbn [object_strings mbind option_bind].
    all: rewrite ?lookup_insert_eq, ?lookup_insert_ne, ?lookup_insert_eq, ?lookup_empty by done; done.
  - intros -> Hs Hne. unfold ResourceHref. rewrite Ho, Hobj, Henv. cbn [bool_decide].
    change ("/" +:+ key) with (String "/" key). rewrite cut_char_here by done.
    by rewrite (bool_decide_eq_false_2 (feature = "")).
Qed.
(** The entry of an uninstall links to the log of that uninstall: the handler of the link
    returns every line the agent sent under the instruction's identifier and no other, by
    time.  When nothing fails, the list has room for all entries and the identifier can be
    printed and parsed. *)
Theorem uninstall_log_linked `{ls : LogScan} email release envID diid w w' limit (req : http_request) :
  audit_Create email (uninstall_audit uuid_String release envID diid) w = (Ok tt, w') → w_faults w = [] →
  (Z.of_nat (length (joined_audits w')) <= limit)%Z → uuid_String diid ≠ "" →
  uuid_Parse (uuid_String diid) = Ok diid → (∀ l, scan_logs l ≡ₚ l) → URLParam req "diid" = uuid_String diid →
  ∃ l e lines, ListForFeatureInEnvironment release envID limit w' = (Ok l, w') ∧ e ∈ l ∧
    uninstallLogsLink e = Some ("/auditlog/uninstall-logs/" +:+ uuid_String diid) ∧
    UninstallLogsFragmentHandler uuid_Parse Format req w' = (Ok (inr (uninstall_line Format <$> lines)), w') ∧
    lines ≡ₚ (logLineFromSQL <$> lines_of diid (logs (w_rec w'))) ∧ by_time lines.
Proof.
  intros Ha Hf Hl Hs Hp Hscan Hurl.
  destruct (audited_listed _ _ (λ r, of_feature release r && of_environment envID r) limit _ _ Ha Hf Hl)
    as (Hf' & rows & r & Hq & Hin & Hac & _ & _ & _ & _ & Hm & _).
  { intros r Hr He. unfold of_feature, of_environment. by rewrite Hr, He, !bool_decide_eq_true_2. }
  eexists _, (entry r), _. split; [|split; [exact Hin|split; [|split]]].
  - unfold ListForFeatureInEnvironment, ListForFeatureInEnvironment_query. by rewrite (bind_run _ _ _ _ _ Hq).
  - unfold uninstallLogsLink. rewrite Hac, Hm. cbn [cp_Action cp_Metadata uninstall_audit].
    rewrite (metadataString_strings _ _ (uuid_String diid)) by by rewrite lookup_singleton_eq.
    by rewrite (bool_decide_eq_false_2 (uuid_String diid = "")).
  - unfold UninstallLogsFragmentHandler. rewrite Hurl. erewrite page_now by (unfold lift; by rewrite Hp).
    erewrite page_now; [reflexivity|]. unfold GetLogLines, LogsByDeployInstruction.
    erewrite bind_run by by rewrite query_now. reflexivity.
  - split; [by rewrite isort_perm, Hscan|]. apply sorted_lines, isort_sorted;
      [apply log_time_total|apply log_time_trans].
Qed.
End shown.

(** ** Words *)

Fixpoint spaceless (s : string) : bool :=
  match s with EmptyString => true | String c s' => negb (is_space c) && spaceless s' end.

Lemma spaceless_app a b : spaceless (a +:+ b) = spaceless a && spaceless b.
Proof. induction a as [|c a IH]; [done|]. cbn. by rewrite <-andb_assoc, <-IH. Qed.

Lemma spaceless_rev s : spaceless (str_rev s) = spaceless s.
Proof.
  induction s as [|c s IH]; [done|]. unfold str_rev. cbn [str_rev_app].
  rewrite str_rev_app_spec, spaceless_app, IH. cbn. by rewrite andb_true_r, andb_comm.
Qed.

Lemma trim_left_word a b : spaceless a = true → a ≠ "" → trim_left (a +:+ b) = a +:+ b.
Proof. destruct a as [|c a]; [done|]. cbn. by destruct (is_space c). Qed.

(** Two words and a space. *)
Lemma TrimSpace_words a b :
  spaceless a = true → spaceless b = true → a ≠ "" → b ≠ "" → TrimSpace (a +:+ (" " +:+ b)) = a +:+ (" " +:+ b).
Proof.
  intros Ha Hb Hna Hnb. unfold TrimSpace. rewrite trim_left_word by done.
  rewrite !str_rev_app_distr, str_app_assoc, trim_left_word.
  - by rewrite !str_rev_app_distr, !str_rev_involutive, str_app_assoc.
  - by rewrite spaceless_rev.
  - intros H. apply Hnb. apply (f_equal str_rev) in H. by rewrite str_rev_involutive in H.
Qed.

Lemma split_space_word a : spaceless a = true → split_space a = [a].
Proof. induction a as [|c a IH]; [done|]. cbn. destruct (is_space c); [done|]. intros H. by rewrite IH. Qed.

Lemma split_space_words a b : spaceless a = true → split_space (a +:+ (" " +:+ b)) = a :: split_space b.
Proof.
  induction a as [|c a IH]; [done|]. change (String c a +:+ ?x) with (String c (a +:+ x)).
  cbn [spaceless split_space]. destruct (is_space c); [done|]. intros H. by rewrite IH.
Qed.

Lemma Fields_words a b :
  spaceless a = true → spaceless b = true → a ≠ "" → b ≠ "" → Fields (a +:+ (" " +:+ b)) = [a; b].
Proof.
  intros Ha Hb Hna Hnb. unfold Fields. rewrite split_space_words, split_space_word by done.
  by rewrite !filter_cons, !decide_True.
Qed.

(** ** A field of an entry is found *)

Lemma utf8_chars_app a b : starts_char b → utf8_chars (a +:+ b) = utf8_chars a ++ utf8_chars b.
Proof.
  intros Hb. induction a as [|c a IH]; [done|]. change (String c a +:+ b) with (String c (a +:+ b)).
  destruct a as [|d a].
  - change ("" +:+ b) with b. by rewrite utf8_chars_cons.
  - change (String d a +:+ b) with (String d (a +:+ b)) in *.
    change (utf8_chars (String c (String d (a +:+ b)))) with
      (if continuation d then match utf8_chars (String d (a +:+ b)) with
         ch :: chs => String c ch :: chs | [] => [String c ""] end
       else String c "" :: utf8_chars (String d (a +:+ b))).
    change (utf8_chars (String c (String d a))) with
      (if continuation d then match utf8_chars (String d a) with
         ch :: chs => String c ch :: chs | [] => [String c ""] end
       else String c "" :: utf8_chars (String d a)).
    rewrite IH. destruct (continuation d); [|done].
    pose proof (utf8_chars_nonempty d a). by destruct (utf8_chars (String d a)).
Qed.

Lemma occurs_here l a b : occurs l (a ++ l ++ b) = true.
Proof.
  induction a as [|x a IH].
  - destruct l as [|y l], b as [|z b]; cbn [app occurs]; apply orb_true_iff; left; apply bool_decide_eq_true_2;
      try apply prefix_nil; by exists (z :: b) || by exists [].
  - cbn [app occurs]. rewrite IH. apply orb_true_r.
Qed.

Lemma occurs_inside l a b :
  starts_char l → starts_char b → occurs (utf8_chars l) (utf8_chars (a +:+ (l +:+ b))) = true.
Proof.
  intros Hl Hb. rewrite !utf8_chars_app by (done || by destruct l). apply occurs_here.
Qed.
(** The environment and the tenant of an entry are those of its identifier. *)
Lemma short_one {A} (l : list A) x : (length l <= 1)%nat → x ∈ l → l = [x].
Proof.
  destruct l as [|y [|z l]]; cbn; [by intros _ ?%elem_of_nil| |lia]. by intros _ ->%list_elem_of_singleton.
Qed.

Lemma joined_names w env t r :
  ids_unique w → env ∈ environments (w_env w) → t ∈ tenants (w_env w) → t_ID t = er_TenantID env →
  r ∈ joined_audits w → au_EnvironmentID (al_audit r) = Some (er_ID env) →
  al_EnvironmentName r = Some (er_Name env) ∧ al_TenantName r = Some (t_Name t).
Proof.
  intros [Hue Hut] He Ht Hid Hr Hau. unfold joined_audits in Hr.
  apply list_elem_of_bind in Hr as (a & Hr & _). apply list_elem_of_bind in Hr as (ae & Hr & Hae).
  apply list_elem_of_bind in Hr as (aet & Hr%list_elem_of_singleton & Haet).
  assert (au_EnvironmentID a = Some (er_ID env)) as Ha.
  { rewrite <-Hau, Hr. unfold left_join in Hae, Haet. cbn. destruct (row_tenants w ae), (audit_environments w a).
    all: rewrite ?list_elem_of_singleton in *; try apply list_elem_of_fmap in Hae as (? & -> & _);
      try apply list_elem_of_fmap in Haet as (? & -> & _); subst; done. }
  assert (audit_environments w a = [env]) as He1.
  { apply short_one; [apply filter_key_short; exact Hue|]. apply list_elem_of_filter. by rewrite Ha. }
  unfold left_join in Hae. rewrite He1 in Hae. apply list_elem_of_singleton in Hae as ->.
  assert (row_tenants w (a, Some env) = [t]) as Ht1.
  { apply short_one; [apply filter_key_short; exact Hut|]. apply list_elem_of_filter. cbn. by rewrite Hid. }
  unfold left_join in Haet. rewrite Ht1 in Haet. apply list_elem_of_singleton in Haet as ->. by subst r.
Qed.

Section all_link.
Context `{txt : PostgresText} (uuid_Parse : string → outcome uuid) (Format : time → string).

(** What the code relies on of PostgreSQL: lowering a text lowers its words. *)
Definition lowers_words : Prop := ∀ a b, pg_lower (a +:+ (" " +:+ b)) = pg_lower a +:+ (" " +:+ pg_lower b).

Lemma field_inside t l :
  lowers_words → t ∈ l → ∃ a b, pg_lower (String.concat " " l) = a +:+ (pg_lower t +:+ b) ∧ starts_char b.
Proof.
  intros Hlow. induction l as [|x l IH]; [by intros ?%elem_of_nil|]. destruct l as [|y l].
  - intros ->%list_elem_of_singleton. exists "", "". by rewrite str_app_nil_r.
  - change (String.concat " " (x :: y :: l)) with (x +:+ (" " +:+ String.concat " " (y :: l))). rewrite Hlow.
    intros [->|Hin]%elem_of_cons; [by exists "", (" " +:+ pg_lower (String.concat " " (y :: l)))|].
    destruct (IH Hin) as (a & b & -> & Hb). exists (pg_lower x +:+ (" " +:+ a)), b. by rewrite !str_app_assoc.
Qed.

Lemma mentions_field t (fields : list (option string)) :
  lowers_words → plain t → Some t ∈ fields → mentions (concat_ws " " fields) t = true.
Proof.
  intros Hlow (_ & Ht & _) Hin. unfold mentions, concat_ws.
  destruct (field_inside t (omap id fields) Hlow) as (a & b & -> & Hb); [|by apply occurs_inside].
  apply list_elem_of_omap. by exists (Some t).
Qed.

(** C30.  The link to all activity of a feature in an environment leads to the entries shown
    there: the page behind the link, whose query is escaped, taken apart, split into words
    and searched for, lists every entry of the sidebar.  For names without white space that
    mean themselves in LIKE, when nothing fails and no more entries match than the page
    shows. *)
Theorem all_link_finds w w' now t env name n es sb :
  let place := t_Name t +:+ ("/" +:+ er_Name env) in
  w_faults w = [] → ids_unique w → env ∈ environments (w_env w) → t ∈ tenants (w_env w) →
  t_ID t = er_TenantID env → name ≠ "" → spaceless name = true → spaceless place = true →
  plain name → plain place → lowers_words →
  (length (filter (λ r, forallb (mentions (search_text r)) [name; place] = true) (joined_audits w)) <= 200)%nat →
  ListForFeatureInEnvironment name (er_ID env) n w = (Ok es, w') →
  envActivitySidebar uuid_Parse Format now (t_Name t) (er_Name env) name es = Some sb →
  ∃ rows, auditlog_Handler uuid_Parse Format now (query_of (sb_all sb)) w = (Ok (inr (Some rows)), w) ∧
    ∀ e, e ∈ es → ActivityRow uuid_Parse Format now e ∈ rows.
Proof.
  intros place Hf Hu He Ht Hid Hne Hs1 Hs2 Hp1 Hp2 Hlow Hroom Hes Hsb.
  assert (Hall : sb_all sb = all_activity (name +:+ (" " +:+ place)) ∧ es ≠ []).
  { unfold envActivitySidebar in Hsb. destruct es; [done|]. by injection Hsb as <-. }
  destruct Hall as [-> Hnil].
  set (found := filter (λ r, forallb (mentions (search_text r)) [name; place] = true) (joined_audits w)) in *.
  assert (Hin : ∀ e, e ∈ es → e ∈ entry <$> take (Z.to_nat 200) (isort newer found)).
  { intros e Hin. rewrite take_ge by (rewrite (Permutation_length (isort_perm _ _)); exact Hroom).
    unfold ListForFeatureInEnvironment, ListForFeatureInEnvironment_query, list_audits in Hes.
    apply bind_Ok in Hes as (rows & w1 & Hq & [= <- <-]). rewrite query_now in Hq by done. injection Hq as Hq <-.
    apply list_elem_of_fmap in Hin as (r & -> & Hr). apply list_elem_of_fmap_2, elem_of_isort, list_elem_of_filter.
    unfold limited in Hq. destruct (n <? 0)%Z; [done|]. injection Hq as <-.
    apply elem_of_take in Hr as (k & Hr%list_elem_of_lookup_2 & _).
    apply elem_of_isort, list_elem_of_filter in Hr as [Hp Hr]. split; [|done].
    unfold of_feature, of_environment in Hp. apply andb_prop in Hp as [Hn%bool_decide_eq_true Hen%bool_decide_eq_true].
    destruct (joined_names _ _ _ _ Hu He Ht Hid Hr Hen) as [Hen1 Ht1].
    assert (mentions (search_text r) name = true) as H1.
    { apply mentions_field; [done..|]. rewrite Hn. do 5 right. by left. }
    assert (mentions (search_text r) place = true) as H2.
    { apply mentions_field; [done..|]. rewrite Hen1, Ht1. do 6 right. by left. }
    cbn [forallb]. by rewrite H1, H2. }
  assert (Hplace : place ≠ "") by (by destruct (t_Name t)).
  assert (Hq : first (query_values "q" (query_of (all_activity (name +:+ (" " +:+ place))))) = name +:+ (" " +:+ place)).
  { unfold query_of, all_activity. change ("/auditlog?q=" +:+ ?x) with ("/auditlog" +:+ String "?" ("q" +:+ ("=" +:+ x))).
    rewrite cut_char_here by done. cbn [fst snd]. by rewrite query_values_escaped. }
  unfold auditlog_Handler. rewrite Hq, TrimSpace_words, Fields_words by done.
  rewrite bool_decide_eq_false_2 by by destruct name.
  erewrite page_now by (apply SearchRecent_now; [done|lia|by rewrite !Forall_cons, Forall_nil]). fold found.
  unfold activityTable. destruct (entry <$> _) as [|e0 l0] eqn:E.
  - destruct es as [|e es]; [done|]. by destruct (proj1 (elem_of_nil _) (Hin e ltac:(left))).
  - eexists. split; [reflexivity|]. intros e He'. by apply list_elem_of_fmap_2, Hin.
Qed.
End all_link.

(** ** What the pages do not show as meant *)

(** A redeploy is recorded for the feature, and the pages look for one recorded for an
    assignment: its entry is never shown as [redeployed]. *)
Theorem redeploy_not_recognised featureName envID e :
  en_ObjectType e = cp_ObjectType (redeploy_audit featureName envID) → isRedeploy e = false.
Proof. unfold isRedeploy. by intros ->. Qed.

(** A long value is cut between two bytes, which may be those of one letter. *)
Theorem truncated_inside_letter :
  truncateVal "abcdefghijklmnopqrstuvwåb" = "abcdefghijklmnopqrstuvw" +:+ String "195" "…".
Proof. reflexivity. Qed.

(** ** Examples *)

#[local] Instance example_text : PostgresText := {| pg_lower := Datatypes.id; jsonb_print _ := "" |}.

Lemma created_entry_shown_witness :
  ∃ w' l e, Create (pg := example_pg) (enc := example_encoder) (tpl := example_parse) example_download
      pretty "me" example_assign example_world = (Ok (1000%N, "app"), w') ∧
    ListAssignmentsForFeature "app" 10 w' = (Ok l, w') ∧ e ∈ l ∧
    AssignmentHref e = "/features/app/assignments/1000".
Proof.
  destruct (Create (pg := example_pg) (enc := example_encoder) (tpl := example_parse)
    example_download pretty "me" example_assign example_world) as [o w'] eqn:E.
  pose proof E as E'. vm_compute in E'. destruct o as [[id name]|e|p]; [|discriminate E'..].
  injection E' as Hid Hn Hw. subst id name.
  destruct (created_entry_shown (pg := example_pg) (enc := example_encoder) (tpl := example_parse)
    example_download pretty (λ _, Err ErrNoRows) (λ _, "") "me" example_assign example_world 1000 "app" w' 10 0 E)
    as (l & e & Hl & He & Hh & _).
  - reflexivity.
  - subst w'. vm_compute. discriminate.
  - discriminate.
  - discriminate.
  - reflexivity.
  - discriminate.
  - reflexivity.
  - exists w', l, e. split; [reflexivity|]. split; [exact Hl|]. split; [exact He|exact Hh].
Defined.

#[local] Abbreviation example_info secret := {| ai_feature := "app"; ai_key := "url"; ai_envID := None;
  ai_secret := secret; ai_oldVal := Some "hunter2"; ai_newVal := Some "hunter3" |}.

Lemma config_change_shown_witness :
  ∃ w' l e, audit_Create "me" (config_audit "updated" "app" "url" None (example_info true)) example_world = (Ok tt, w') ∧
    ListForFeature "app" 10 w' = (Ok l, w') ∧ e ∈ l ∧ de_change (DetailNode e) = Some SecretChange.
Proof.
  eexists. destruct (config_change_shown (λ _, Err ErrNoRows) "me" "updated" "app" "url" None (example_info true) example_world
    (audit_Create "me" (config_audit "updated" "app" "url" None (example_info true)) example_world).2 10)
    as (l & e & Hl & He & _ & _ & Hd & _).
  - reflexivity.
  - reflexivity.
  - vm_compute. discriminate.
  - discriminate.
  - exists l, e. split; [reflexivity|]. split; [exact Hl|]. split; [exact He|]. rewrite Hd. reflexivity.
Defined.

#[local] Abbreviation audited_world := (DisableFeature "me" 7 "app" " flaky " example_world).2.

Lemma all_link_finds_witness :
  ∃ es sb rows, length es = 1%nat ∧ ListForFeatureInEnvironment "app" 7 10 audited_world = (Ok es, audited_world) ∧
    envActivitySidebar (λ _, Err ErrNoRows) (λ _, "") 0 "nav" "dev" "app" es = Some sb ∧
    auditlog_Handler (λ _, Err ErrNoRows) (λ _, "") 0 (query_of (sb_all sb)) audited_world =
      (Ok (inr (Some rows)), audited_world) ∧
    ∀ e, e ∈ es → ActivityRow (λ _, Err ErrNoRows) (λ _, "") 0 e ∈ rows.
Proof.
  destruct (ListForFeatureInEnvironment "app" 7 10 audited_world) as [o w'] eqn:E.
  pose proof E as E'. vm_compute in E'. destruct o as [es|e|p]; [|discriminate E'..].
  destruct (envActivitySidebar (λ _, Err ErrNoRows) (λ _, "") 0 "nav" "dev" "app" es) as [sb|] eqn:Hsb;
    [|injection E' as <- _; vm_compute in Hsb; discriminate Hsb].
  destruct (all_link_finds (λ _, Err ErrNoRows) (λ _, "") audited_world w' 0
    {| t_ID := 3; t_Name := "nav"; t_Description := None; t_CI := false |}
    {| er_ID := 7; er_TenantID := 3; er_Name := "dev"; er_Kind := EnvironmentKindTenant; er_Description := None;
       er_Reconcile := true; er_Labels := {[ "kind" := "tenant" ]}; er_OidcIssuer := None; er_OidcDiscoveryUrl := None |}
    "app" 10 es sb) as (rows & H1 & H2).
  - reflexivity.
  - split; vm_compute; apply NoDup_singleton.
  - apply list_elem_of_singleton. reflexivity.
  - apply list_elem_of_singleton. reflexivity.
  - reflexivity.
  - discriminate.
  - reflexivity.
  - reflexivity.
  - repeat constructor; discriminate.
  - repeat constructor; discriminate.
  - intros a b. reflexivity.
  - apply Nat.leb_le. vm_compute. reflexivity.
  - exact E.
  - exact Hsb.
  - exists es, sb, rows. split; [injection E' as <- _; reflexivity|].
    split; [injection E' as _ <-; vm_compute; reflexivity|].
    split; [exact Hsb|]. split; [exact H1|exact H2].
Defined.
