(* ===== verification/TemplateTest.v ===== *)
(** * internal/ui/pages/templatetest: trying out a template

    The page renders a template in an environment, on its own or as the template of a key of
    a feature.  On its own it sees the values of the environment with the secret ones masked;
    for a feature it is rendered as a deploy would render it, and the value at the key is
    shown. *)

From S2P Require Import ConfigForm ConfigItems Preview Pages Listings AssignmentStore Environment.
From S2P Require Import GoStd.

(** ** featurepkg *)

Section tester.
Context `{ext : External} `{pg : Postgres} `{obj : ObjectCodec} `{codec : FeatureCodec} `{form : FormJson}.

Definition RenderSingleTemplate (values : ComputedValues) (tpl : string) : outcome string :=
  let! r := template_execute values tpl in Ok r.1.

(** ** templatetest.go *)

Definition previewKey : string := "template-tester.preview".

Definition no_value : Value :=
  {| v_Description := ""; v_DisplayName := ""; v_Required := false; v_Computed := None; v_Config := None;
     v_IgnoreKind := [] |}.

Definition with_template (tpl : string) (v : Value) : Value :=
  {| v_Description := v_Description v; v_DisplayName := v_DisplayName v; v_Required := v_Required v;
     v_Computed := Some {| Template := tpl |}; v_Config := v_Config v; v_IgnoreKind := v_IgnoreKind v |}.

(** The feature with another template for one of its values. *)
Definition modifiedFeat (feat : Feature) (key tpl : string) : Feature :=
  let vals := f_Values (f_YAML feat) in
  {| f_YAML := {| Dependencies := Dependencies (f_YAML feat); EnvironmentKinds := EnvironmentKinds (f_YAML feat);
                  Timeout := Timeout (f_YAML feat);
                  f_Values := <[key := with_template tpl (default no_value (vals !! key))]> vals |};
     f_Name := f_Name feat; f_Chart := f_Chart feat; f_Version := f_Version feat;
     f_Description := f_Description feat; f_Source := f_Source feat; f_ValuesYAML := f_ValuesYAML feat;
     f_SpecVersion := f_SpecVersion feat; f_TplDetails := f_TplDetails feat |}.

Definition lookupHelmValue (m : gomap) (key : string) : string * bool :=
  match rendered_at m key with
  | None => ("", false)
  | Some (VStr v) => (v, true)
  | Some VNil => ("", true)
  | Some v => match form_Marshal v with Ok b => (b, true) | _ => ("", false) end
  end.

(** The order in which the [range] over a feature's values visits them. *)
Context (range : Feature → list (string * Value)) (aud : string).

Definition renderWithFeature (featureName : string) (envID : uuid) (key tpl : string) : IO string :=
  feat ← FeatureForEnvironment envID featureName;
  rendered ← HelmValues (range (modifiedFeat feat key tpl)) aud (modifiedFeat feat key tpl) envID;
  mret (let '(v, ok) := lookupHelmValue rendered key in if ok then v else "").

(** Tenant and environment from the combined value or from parameters of their own. *)
Definition chosen_environment (r : http_request) : string * string :=
  let '(tenantName, envName, ok) := cut_char "/" (FormValue r "env") in
  if negb ok || bool_decide (tenantName = "") then (FormValue r "tenant", FormValue r "env") else (tenantName, envName).

(** [None] is uuid.Nil. *)
Definition chosen_id (tenantName envName : string) : IO (option uuid) :=
  if bool_decide (tenantName = "") || bool_decide (envName = "") then mret None
  else tenant ← attempt (GetTenantByName tenantName);
       match tenant with
       | inr _ => mret None
       | inl tenant =>
           env ← attempt (GetByName (t_ID tenant) envName);
           mret (match env with inl env => Some (er_ID env) | inr _ => None end)
       end.

Definition feature_names (envID : option uuid) : page (list string) :=
  match envID with
  | None => mret []
  | Some envID =>
      assignments ← or_respond (ListForEnvironment envID) (InternalError "Failed to load features");
      mret (sort_strings ((λ a, f_Name (fa_Feature a)) <$> assignments))
  end.

(** The feature's own template of the key, unless one is given. *)
Definition prefill (envID : option uuid) (featureName key tpl : string) : IO string :=
  match envID with
  | Some envID =>
      if bool_decide (tpl = "") && negb (bool_decide (featureName = "")) && negb (bool_decide (key = "")) then
        feat ← attempt (FeatureForEnvironment envID featureName);
        mret (match feat with
              | inl feat => match f_Values (f_YAML feat) !! key ≫= v_Computed with
                            | Some c => Template c
                            | None => tpl
                            end
              | inr _ => tpl
              end)
      else mret tpl
  | None => mret tpl
  end.

Inductive tested := NotTested | Failed (e : error) | Tested (result : string).

Definition render_result (envID : option uuid) (featureName key tpl : string) : IO tested :=
  match envID with
  | Some envID =>
      if bool_decide (tpl = "") then mret NotTested
      else
        result ← attempt (
          if negb (bool_decide (featureName = ""))
          then renderWithFeature featureName envID (if bool_decide (key = "") then previewKey else key) tpl
          else mv ← MappingValuesForEnvironment aud envID false; lift (RenderSingleTemplate mv.1 tpl));
        mret (match result with inl r => Tested r | inr e => Failed e end)
  | None => mret NotTested
  end.

(** ** The page *)

(** An option of a select: its value, its text, and whether it is selected. *)
Definition env_option (tenant env : string) (te : TenantEnvironment) : string * string * bool :=
  (te_TenantName te +:+ ("/" +:+ te_Name te), te_TenantName te +:+ (" / " +:+ te_Name te),
   bool_decide (te_TenantName te = tenant) && bool_decide (te_Name te = env)).

Definition feature_options (featureNames : list string) (featureName : string) : list (string * string * bool) :=
  ("", "(no feature)", false) ::
  ((λ name, (name, name, bool_decide (name = featureName))) <$>
    (if negb (bool_decide (featureName = "")) && negb (bool_decide (featureName ∈ featureNames))
     then featureNames ++ [featureName] else featureNames)).

Inductive result_node := ResultError (e : error) | Result (s : string) | ResultHint.

Definition result_of (t : tested) : result_node :=
  match t with
  | Failed e => ResultError e
  | Tested r => if bool_decide (r = "") then ResultHint else Result r
  | NotTested => ResultHint
  end.

Fixpoint count_lines (s : string) : nat :=
  match s with
  | EmptyString => 1
  | String c s' => (if bool_decide (c = "010"%char) then 1 else 0) + count_lines s'
  end.

Record tester_page := {
  tp_environments : list (string * string * bool); tp_features : list (string * string * bool);
  tp_features_disabled : bool; tp_template : string; tp_rows : nat; tp_result : result_node;
  tp_key : option string; tp_configs_listed : bool;
}.

Definition templateTestPage (tenantEnvs : list TenantEnvironment) (featureNames : list string) (hasEnv : bool)
    (tpl tenant env featureName key : string) (t : tested) : tester_page :=
  {| tp_environments := ("", "Select environment…", false) :: (env_option tenant env <$> tenantEnvs);
     tp_features := feature_options featureNames featureName; tp_features_disabled := negb hasEnv;
     tp_template := tpl; tp_rows := Nat.max (count_lines tpl) 6; tp_result := result_of t;
     tp_key := if bool_decide (key = "") then None else Some key;
     tp_configs_listed := negb (bool_decide (featureName = "")) |}.

Definition templatetest_Handler (r : http_request) : page tester_page :=
  tenantEnvs ← or_respond (ListTenantEnvironments false) (InternalError "Failed to load environments");
  let featureName := FormValue r "feature" in
  let key := FormValue r "key" in
  let '(tenantName, envName) := chosen_environment r in
  envID ← always (chosen_id tenantName envName);
  featureNames ← feature_names envID;
  tpl ← always (prefill envID featureName key (FormValue r "template"));
  result ← always (render_result envID featureName key tpl);
  mret (templateTestPage tenantEnvs featureNames (bool_decide (is_Some envID)) tpl tenantName envName featureName key result).
End tester.

(** ** What is tested is what is deployed *)

Section spec.
Context `{ext : External} `{pg : Postgres} `{obj : ObjectCodec} `{codec : FeatureCodec} `{form : FormJson}.
Context (range : Feature → list (string * Value)) (aud : string).

Lemma rendered_at_path m key p : SmartDotSplit key = Ok p → p ≠ [] → rendered_at m key = get_path m p.
Proof.
  intros Hp Hne. unfold rendered_at. rewrite Hp. destruct p as [|k ks]; [done|]. clear Hp Hne. revert m k.
  induction ks as [|k2 ks IH]; intros m k; cbn [descend as_map get_path]; destruct (m !! k) as [v|] eqn:E; try done.
  destruct v; try done. apply IH.
Qed.

(** The text of a value on the page. *)
Definition value_text (v : gval) : string :=
  match v with
  | VStr s => s
  | VNil => ""
  | v => match form_Marshal v with Ok b => b | _ => "" end
  end.

Lemma lookup_text m key p v :
  SmartDotSplit key = Ok p → p ≠ [] → get_path m p = Some v →
  (let '(text, ok) := lookupHelmValue m key in if ok then text else "") = value_text v.
Proof.
  intros Hp Hne Hv. unfold lookupHelmValue. rewrite (rendered_at_path _ _ _ Hp Hne), Hv.
  destruct v; cbn; try done; by destruct (form_Marshal _).
Qed.

(** Only [fasit] is set after the templates. *)
Lemma RenderHelmValues_path order data f mp p :
  RenderHelmValues order data f true = Ok mp → head p ≠ Some "fasit" →
  ∃ m mv, GenerateWith order (EnvKind data) (MV data) (ConfigMap data) = Ok (m, mv) ∧ get_path mp p = get_path m p.
Proof.
  unfold RenderHelmValues. intros ([m mv] & Hg & H)%obind_Ok Hp. exists m, mv. split; [done|].
  destruct (default ∅ (cv_Env mv) !! "name") as [[]|]; try done. destruct (ValidateFields _ _ _ _); [|done].
  injection H as <-. destruct p as [|k ks]; [done|]. cbn [get_path]. rewrite lookup_insert_ne; [done|].
  intros <-. by apply Hp.
Qed.

(** A template tested for a key of a feature shows the value the key would be deployed
    with: what the configuration has for it, else what the template renders to over the data
    of a deploy, secret values included.  When templates do not change what they read, the
    key's path is no other computed one's prefix, and the kind of the environment does not
    ignore the key. *)
Theorem tester_shows_template featureName envID key tpl p w text w' :
  pure_templates → (∀ f, range f ≡ₚ map_to_list (f_Values (f_YAML f))) →
  renderWithFeature range aud featureName envID key tpl w = (Ok text, w') →
  SmartDotSplit key = Ok p → head p ≠ Some "fasit" →
  ∃ feat data secrets w1, FeatureForEnvironment envID featureName w = (Ok feat, w1) ∧
    fetchHelmRenderData aud (modifiedFeat feat key tpl) envID w1 = (Ok (data, secrets), w') ∧
    (EnvKind data ∉ v_IgnoreKind (default no_value (f_Values (f_YAML feat) !! key)) →
     computed_disjoint (EnvKind data) (map_to_list (f_Values (f_YAML (modifiedFeat feat key tpl)))) →
     ∃ val values, values = with_Configs (MV data) (copyMap (Some (ConfigMap data))) ∧
       renderTemplate values tpl = Ok (val, values) ∧
       text = value_text (default val (get_path (ConfigMap data) p))).
Proof.
  intros Hpure Hrange H Hp Hhead. unfold renderWithFeature in H.
  apply bind_Ok in H as (feat & w1 & Hfeat & (mp & w2 & Hmp & [= <- <-])%bind_Ok).
  unfold HelmValues in Hmp. apply bind_Ok in Hmp as ([data secrets] & w3 & Hdata & [= Hr <-]). cbn in Hr.
  exists feat, data, secrets, w1. split_and!; [done..|]. intros Hkind Hdisj.
  destruct (RenderHelmValues_path _ _ _ _ p Hr Hhead) as (m & mv & Hg & Hpath).
  apply (GenerateWith_perm (f_Values (f_YAML (modifiedFeat feat key tpl))) _
    (map_to_list (f_Values (f_YAML (modifiedFeat feat key tpl))))) in Hg; [|done..].
  assert (Hmv : mv = with_Configs (MV data) (copyMap (Some (ConfigMap data)))) by (by eapply generate_fold_pure).
  destruct (GenerateWith_spec _ _ _ _ _ _ Hpure Hdisj Hg) as [Hspec _].
  destruct (Hspec key (with_template tpl (default no_value (f_Values (f_YAML feat) !! key))) {| Template := tpl |} p)
    as (val & Hval & Hget); [|done..|]. { apply lookup_insert_eq. }
  exists val, mv. split_and!; [done..|]. rewrite <-Hpath in Hget. apply (lookup_text _ key p); [done| |done].
  intros ->. by cbn in Hget.
Qed.

Lemma modifiedFeat_own feat key v c :
  f_Values (f_YAML feat) !! key = Some v → v_Computed v = Some c → modifiedFeat feat key (Template c) = feat.
Proof.
  intros Hv Hc. unfold modifiedFeat. rewrite Hv. destruct feat as [yaml], yaml as [deps kinds timeout vals], v, c.
  cbn in *. f_equal. f_equal. subst. by apply insert_id.
Qed.

(** The template a feature has for a key shows the value of the preview at that key. *)
Theorem own_template_previewed feat envID key v c w w1 mp w2 :
  FeatureForEnvironment envID (f_Name feat) w = (Ok feat, w1) →
  f_Values (f_YAML feat) !! key = Some v → v_Computed v = Some c →
  HelmValues (range feat) aud feat envID w1 = (Ok mp, w2) →
  renderWithFeature range aud (f_Name feat) envID key (Template c) w =
    (Ok (let '(text, ok) := lookupHelmValue mp key in if ok then text else ""), w2).
Proof.
  intros Hf Hv Hc Hmp. unfold renderWithFeature. rewrite (bind_run _ _ _ _ _ Hf).
  by rewrite (modifiedFeat_own _ _ _ _ Hv Hc), (bind_run _ _ _ _ _ Hmp).
Qed.
End spec.

(** ** Secrets *)

Section secrets.
Context `{ext : External} `{pg : Postgres} `{obj : ObjectCodec} `{codec : FeatureCodec} `{form : FormJson}.
Context (range : Feature → list (string * Value)) (aud : string).

Lemma blind_or_respond {A} (m : IO A) k : blind m → blind (or_respond m k).
Proof.
  intros Hm w1 w2 H. destruct (Hm _ _ H) as [Ho Hw]. unfold or_respond.
  destruct (m w1) as [o1 w1'], (m w2) as [o2 w2']. cbn in *. subst o2. by destruct o1.
Qed.

Lemma blind_always {A} (m : IO A) : blind m → blind (always m).
Proof.
  intros Hm w1 w2 H. destruct (Hm _ _ H) as [Ho Hw]. unfold always.
  destruct (m w1) as [o1 w1'], (m w2) as [o2 w2']. cbn in *. subst o2. by destruct o1.
Qed.

Lemma blind_page_bind {A B} (m : page A) (f : A → page B) : blind m → (∀ a, blind (f a)) → blind (m ≫= f).
Proof.
  intros Hm Hf w1 w2 H. destruct (Hm _ _ H) as [Ho Hw]. unfold mbind, page_bind.
  destruct (m w1) as [o1 w1'], (m w2) as [o2 w2']. cbn in Ho, Hw. subst o2.
  destruct o1 as [[r|a]|e|q]; [done|by apply Hf|done..].
Qed.

Lemma blind_page_ret {A} (a : A) : blind (mret (M := page) a).
Proof. by intros w1 w2 H. Qed.

Lemma blind_chosen tenantName envName : blind (chosen_id tenantName envName).
Proof.
  unfold chosen_id. destruct (_ || _); [apply blind_ret|].
  apply blind_bind; [apply blind_attempt, blind_query|intros [t|e]; [|apply blind_ret]].
  { intros w1 w2 H. by rewrite (sb_tenants _ _ H). }
  apply blind_bind; [apply blind_attempt, blind_query|intros; apply blind_ret].
  intros w1 w2 H. by rewrite (sb_environments _ _ H).
Qed.

Lemma blind_feature_names envID : blind (feature_names envID).
Proof.
  destruct envID as [envID|]; [|apply blind_page_ret]. apply blind_page_bind; [|intros; apply blind_page_ret].
  apply blind_or_respond. unfold ListForEnvironment. apply blind_bind; [apply blind_wrapping, blind_query|intros rows].
  { intros w1 w2 H. unfold matching_rows, join_data. by rewrite (sb_feature _ _ H), (sb_environments _ _ H). }
  apply blind_bind; [apply blind_lift|intros; apply blind_ret].
Qed.

(** Without a feature the page is blind to secrets: if two databases differ only in
    values of secret rows, it returns the same for both whatever is asked of it, errors
    included. *)
Theorem tester_blind_without_feature r w1 w2 :
  FormValue r "feature" = "" → same_but_secrets w1 w2 →
  (templatetest_Handler range aud r w1).1 = (templatetest_Handler range aud r w2).1.
Proof.
  intros Hfeat H. assert (Hb : blind (templatetest_Handler range aud r)); [|by apply Hb].
  unfold templatetest_Handler. rewrite Hfeat.
  apply blind_page_bind; [apply blind_or_respond, blind_query|intros tenantEnvs].
  { intros v1 v2 Hs. unfold tenant_environments, join_tenant. by rewrite (sb_tenants _ _ Hs), (sb_environments _ _ Hs). }
  destruct (chosen_environment r) as [tenantName envName].
  apply blind_page_bind; [apply blind_always, blind_chosen|intros envID].
  apply blind_page_bind; [apply blind_feature_names|intros names].
  apply blind_page_bind; [apply blind_always|intros tpl].
  { unfold prefill. destruct envID; [|apply blind_ret]. rewrite andb_false_r. apply blind_ret. }
  apply blind_page_bind; [apply blind_always|intros result; apply blind_page_ret].
  unfold render_result. destruct envID as [envID|]; [|apply blind_ret]. case_bool_decide; [apply blind_ret|].
  apply blind_bind; [apply blind_attempt|intros; apply blind_ret]. cbn [negb bool_decide].
  apply blind_bind; [apply blind_MappingValues|intros; apply blind_lift].
Qed.
End secrets.

(** ** Examples *)

(** A template is the name of a value of the environment and renders to its text. *)
#[local] Abbreviation show_value := {|
  template_execute v t := Ok (match cv_Env v ≫= (λ m, m !! t) with Some (VStr s) => s | _ => "" end, v);
  yaml_Unmarshal s := Ok (VStr s); json_Marshal m := Ok "{}"; json_Unmarshal s := Ok (VStr s); sha256_hex s := s |}.
#[local] Abbreviation pairs_object :=
  {| unmarshal_object pairs := Ok (list_to_map ((λ p, (p.1, VStr p.2)) <$> pairs)) |}.
#[local] Abbreviation plain_form := {| form_Unmarshal s := Ok (VStr s); form_Unmarshal_strings _ := Err (ErrString "not a list");
  form_Unmarshal_string s := Ok s; form_Marshal _ := Ok ""; form_Indent s := Ok s |}.
#[local] Abbreviation visit := (λ f, map_to_list (f_Values (f_YAML f))).

(** With a feature the page shows a secret of the environment that it masks without one. *)
Theorem tester_reveals_secret :
  let render name := render_result (ext := show_value) (pg := example_pg) (obj := pairs_object) (codec := example_codec)
    (form := plain_form) visit "" (Some 7%N) name "" "token" (with_token "s3cr3t") in
  (render "").1 = Ok (Tested (jsonb_text (Postgres := example_pg) masked)) ∧ (render "app").1 = Ok (Tested "s3cr3t").
Proof. split; vm_compute; reflexivity. Qed.

Lemma tester_shows_template_witness :
  ∃ w' feat data secrets w1 val, renderWithFeature (ext := show_value) (pg := example_pg) (obj := pairs_object)
      (codec := example_codec) (form := plain_form) visit "" "app" 7 "url" "region" (with_token "s3cr3t") = (Ok "eu", w') ∧
    fetchHelmRenderData (pg := example_pg) (obj := pairs_object) ""
      (modifiedFeat feat "url" "region") 7 w1 = (Ok (data, secrets), w') ∧
    "eu" = value_text (form := plain_form) (default val (get_path (ConfigMap data) ["url"])).
Proof.
  destruct (renderWithFeature (ext := show_value) (pg := example_pg) (obj := pairs_object) (codec := example_codec)
    (form := plain_form) visit "" "app" 7 "url" "region" (with_token "s3cr3t")) as [o w'] eqn:E.
  pose proof E as E'. vm_compute in E'. destruct o as [text|e|p]; [|discriminate E'..]. injection E' as Ht _. subst text.
  destruct (tester_shows_template (ext := show_value) (pg := example_pg) (obj := pairs_object) (codec := example_codec)
    (form := plain_form) visit "" "app" 7 "url" "region" ["url"] (with_token "s3cr3t") "eu" w')
    as (feat & data & secrets & w1 & Hf & Hd & Hval).
  - intros v t r v' H. injection H as _ H. exact (eq_sym H).
  - reflexivity.
  - exact E.
  - reflexivity.
  - discriminate.
  - vm_compute in Hf. injection Hf as Hfeat Hw. subst feat w1.
    destruct Hval as (val & values & _ & _ & Htext).
    + apply not_elem_of_nil.
    + intros a b p q Ha Hb Hab Hp Hq. vm_compute in Ha, Hb.
      match type of Ha with list_elem_of _ ?l => change (a ∈ l) in Ha; change (b ∈ l) in Hb end.
      rewrite !elem_of_cons, elem_of_nil in Ha, Hb.
      destruct Ha as [-> |[-> |[-> |[]]]], Hb as [-> |[-> |[-> |[]]]];
        try (destruct (Hab eq_refl)); vm_compute in Hp, Hq; injection Hp as <-; injection Hq as <-;
        apply incomparable_ne; discriminate.
    + eexists w', _, data, secrets, _, val. split; [reflexivity|]. split; [exact Hd|exact Htext].
Defined.

#[local] Abbreviation ask tpl := {| hr_valid_form := true;
  hr_form key := if bool_decide (key = "env") then ["nav/dev"] else if bool_decide (key = "template") then [tpl] else [];
  hr_post_form _ := []; hr_param _ := ""; hr_header _ := ""; hr_body := "" |}.

Lemma tester_blind_without_feature_witness :
  let page w := (templatetest_Handler (ext := show_value) (pg := example_pg) (obj := pairs_object) (codec := example_codec)
    (form := plain_form) visit "" (ask "token") w).1 in
  page (with_token "a") = page (with_token "b") ∧
  match page (with_token "a") with
  | Ok (inr p) => tp_result p = Result (jsonb_text (Postgres := example_pg) masked)
  | _ => False
  end.
Proof.
  intros page. split.
  - apply (tester_blind_without_feature (ext := show_value) (pg := example_pg) (obj := pairs_object) (codec := example_codec)
      (form := plain_form) visit "" (ask "token") (with_token "a") (with_token "b")); [reflexivity|].
    split; [reflexivity|reflexivity| |reflexivity..]. cbn. repeat constructor. intros H. discriminate H.
  - vm_compute. reflexivity.
Defined.
