(* ===== verification/System.v ===== *)
(** * The server as a transition system

    Requests to the pages, the HTTP API and the management API, status messages, the
    reconcile loop and its timer run concurrently.  Each request, message or tick is one
    step; the loop is cut where other steps can come between: after computing the decisions,
    after logging them, and between handing over the instructions and recording them.  A
    restart may lose the turn in progress at any of these points. *)

From S2P Require Import Management Api Pages.
From S2P Require Export Operations.

(** What the API, the agents' messages and the workers ask of the server. *)
Inductive request :=
  | CreateTenantRequest (name : string) (description : option string)
  | CreateEnvironmentRequest (env : EnvironmentCreate)
  | SetLabelsRequest (environmentID : uuid) (labels : Labels)
  | SetEnvironmentValueRequest (row : EnvironmentValueRow)
  | DeleteEnvironmentValueRequest (environmentID : uuid) (key : string)
  | AssignRequest (i : CreateFeatureAssignment)
  | DeactivateRequest (featureAssignmentID : uuid)
  | DeactivateTargetRequest (featureName : string) (target : Labels)
  | CreateEnvConfigRequest (c : NewConfiguration)
  | CreateGlobalConfigRequest (c : NewConfiguration)
  | UpdateConfigRequest (id : uuid) (c : UpdateConfiguration)
  | DeleteConfigRequest (id : uuid)
  | UpdateEnvConfigRequest (id : uuid) (c : UpdateConfiguration)
  | DeleteEnvConfigRequest (id : uuid)
  | DisableFeatureRequest (envID : uuid) (featureName reason : string)
  | EnableFeatureRequest (envID : uuid) (featureName : string)
  | RedeployRequest (envID : uuid) (featureName : string)
  | UninstallRequest (tenantName envName releaseName : string)
  | PageRequest (p : page_request) (r : http_request)
  | ManagementRequest (c : management_call)
  | ApiAssignRequest (r : http_request)
  | StatusMessage (msg : Status)
  | TimeoutTick.

(** How far the reconcile loop is in its turn. *)
Inductive phase :=
  | Waiting
  | Computed (results : list DeployDecision)
  | Logged (results : list DeployDecision)
  | Published (rows : list AppendDeploysParams).

Record server := { sv_world : world; sv_phase : phase }.

Section system.
Context `{ext : External} `{pg : Postgres} `{codec : FeatureCodec} `{raw : RawJson}
  `{enc : FeatureEncoder} `{tpl : TemplateParse} `{msgs : MessageCodec} `{json : FormJson}
  `{web : WebInput} `{api : ApiCodec}.
Context (ChartDownloader : string → string → outcome Feature) (uuid_String : uuid → string)
  (jsonb_valid : string → bool) (AllowAll : bool) (aud slackChannel : string).

Definition forget {A} (m : IO A) : IO unit := m ;; mret tt.

(** The operation behind a request by [actor]. *)
Definition serve (actor : string) (r : request) : IO unit :=
  match r with
  | CreateTenantRequest name desc => forget (CreateTenant actor name desc)
  | CreateEnvironmentRequest env => forget (Environment_Create actor env)
  | SetLabelsRequest id labels => SetLabels actor id labels
  | SetEnvironmentValueRequest row => SetEnvironmentValue actor row
  | DeleteEnvironmentValueRequest id key => DeleteEnvironmentValue actor id key
  | AssignRequest i => forget (Create ChartDownloader uuid_String actor i)
  | DeactivateRequest id => forget (Deactivate uuid_String actor id)
  | DeactivateTargetRequest name target => DeactivateByFeatureAndTarget actor name target
  | CreateEnvConfigRequest c => forget (WithTx false (CreateEnvConfig actor c))
  | CreateGlobalConfigRequest c => forget (WithTx false (CreateGlobalConfig actor c))
  | UpdateConfigRequest id c => forget (UpdateConfig actor false id c)
  | DeleteConfigRequest id => DeleteConfig actor false id
  | UpdateEnvConfigRequest id c => forget (UpdateEnvConfig actor false id c)
  | DeleteEnvConfigRequest id => DeleteEnvConfig actor false id
  | DisableFeatureRequest env name reason => DisableFeature actor env name reason
  | EnableFeatureRequest env name => EnableFeature actor env name
  | RedeployRequest env name => Redeploy aud (Some pubSubDeployer) env name
  | UninstallRequest tenant env release =>
      forget (Reconciler_Uninstall (Some pubSubDeployer) tenant env release)
  | PageRequest p r => forget (serve_page actor aud (Some (Some pubSubDeployer)) uuid_String ChartDownloader p r)
  | ManagementRequest c => manage uuid_String uuid_Parse jsonb_valid c
  | ApiAssignRequest r => forget (Api_CreateFeatureAssignment uuid_String ChartDownloader AllowAll r)
  | StatusMessage msg => handler slackChannel msg
  | TimeoutTick => TimeoutPendingDeploys
  end.

Inductive server_step : server → server → Prop :=
  (* a request, at any time, with any outcome *)
  | step_request w ph actor r :
      server_step {| sv_world := w; sv_phase := ph |}
                  {| sv_world := (serve actor r w).2; sv_phase := ph |}
  (* the loop *)
  | step_compute w clock numWorkers results w' :
      ComputeDesiredState aud clock numWorkers w results w' →
      server_step {| sv_world := w; sv_phase := Waiting |}
                  {| sv_world := w'; sv_phase := Computed results |}
  | step_log w results o w' :
      writeResultLogs results w = (o, w') →
      server_step {| sv_world := w; sv_phase := Computed results |}
                  {| sv_world := w'; sv_phase := if is_Ok o then Logged results else Waiting |}
  | step_publish w results o w' :
      publish_decisions results w = (o, w') →
      server_step {| sv_world := w; sv_phase := Logged results |}
                  {| sv_world := w';
                     sv_phase := match o with Ok rows => Published rows | _ => Waiting end |}
  | step_record w rows o w' :
      append_published rows w = (o, w') →
      server_step {| sv_world := w; sv_phase := Published rows |}
                  {| sv_world := w'; sv_phase := Waiting |}
  (* a restart *)
  | step_restart w ph :
      server_step {| sv_world := w; sv_phase := ph |} {| sv_world := w; sv_phase := Waiting |}
  (* time passes, and what will fail next is decided *)
  | step_time w ph (d : duration) faults :
      (0 <= d)%Z →
      server_step {| sv_world := w; sv_phase := ph |}
                  {| sv_world := set_w_faults (λ _, faults) (set_w_now (λ t, (t + d)%Z) w);
                     sv_phase := ph |}.

Lemma safe_forget {A} (m : IO A) : safe m → safe (forget m).
Proof. intros Hm. apply safe_bind; [done|]. intros a. safe_op. Qed.

Lemma triple_or_status {A} P (m : IO A) Q code msg :
  triple P m Q → triple P (or_status m code msg) (λ _ _, True).
Proof.
  intros Hm w Hw Hp. destruct (Hm w Hw Hp) as (H1 & H2 & _).
  unfold or_status, mbind, M_bind, attempt. by destruct (m w) as [[a|e|p] w1].
Qed.

Lemma safe_writeAudit p : safe (writeAudit p).
Proof. unfold writeAudit. safe_op. Qed.
#[local] Hint Resolve safe_writeAudit : safe.

Lemma safe_StoreValue_query row : safe (StoreValue_query jsonb_valid row).
Proof.
  apply triple_guarded; [done|]. intros w Hw _. destruct (negb _); [by apply unchanged_wf|].
  destruct (existsb _ _); [|by apply unchanged_wf]. apply server_wf_env; [done|].
  apply upsert_value_wf, (sw_env _ Hw).
Qed.

Lemma safe_UpdateEnvironment_query id msg : safe (UpdateEnvironment_query id msg).
Proof.
  apply triple_guarded; [done|]. intros w Hw _. cbn [fst snd]. apply server_wf_env; [done|].
  destruct (sw_env _ Hw). split; simpl; try done.
  - rewrite fmap_key; [done|]. intros x. by case_bool_decide.
  - rewrite fmap_key; [done|]. intros x. by case_bool_decide.
  - apply below_fmap; [|done]. intros x. by case_bool_decide.
Qed.

Lemma safe_manage c : safe (manage uuid_String uuid_Parse jsonb_valid c).
Proof.
  destruct c as [name desc|msg|msg|msg|id key]; cbn [manage]; (apply safe_bind; [|intros ?; safe_op]).
  - unfold Management_CreateTenant. destruct (_ <? _)%nat; [safe_op|].
    apply safe_bind; [|intros ?; safe_op]. eapply triple_or_status, safe_new. intros tid.
    eapply triple_bind; [|intros ?; safe_op]. set (row := {| t_ID := tid |}).
    exact (triple_insert_tenant row).
  - unfold Management_CreateEnvironment. destruct (_ <? _)%nat; [safe_op|].
    apply safe_bind; [eapply triple_or_status; safe_op|intros tid].
    apply safe_bind; [eapply triple_or_status; safe_op|intros t].
    apply safe_bind; [safe_op|intros kind]. apply safe_new. intros eid.
    eapply triple_bind; [|intros ?; safe_op]. set (row := {| er_ID := eid |}).
    eapply triple_or_status. exact (triple_CreateEnvironment_query row).
  - unfold Management_UpdateEnvironment.
    apply safe_bind; [eapply triple_or_status; safe_op|intros eid].
    apply safe_bind; [eapply triple_or_status; safe_op|intros env].
    apply safe_bind; [eapply triple_or_status, safe_UpdateEnvironment_query|intros ?; safe_op].
  - unfold Management_SetEnvironmentValue.
    apply safe_bind; [eapply triple_or_status; safe_op|intros eid].
    apply safe_bind; [eapply triple_or_status, safe_StoreValue_query|intros ?; safe_op].
  - unfold Management_DeleteEnvironmentValue.
    apply safe_bind; [eapply triple_or_status; safe_op|intros eid].
    apply safe_bind; [eapply triple_or_status, safe_filter_values|intros ?; safe_op].
Qed.

Lemma safe_validateToken r : safe (validateToken AllowAll r).
Proof. apply safe_reads, reads_validateToken. Qed.

Lemma safe_Api_CreateFeatureAssignment r :
  safe (Api_CreateFeatureAssignment uuid_String ChartDownloader AllowAll r).
Proof.
  unfold Api_CreateFeatureAssignment. safe_page.
  - apply safe_validateToken.
  - safe_op.
  - apply safe_Create.
Qed.

Lemma safe_serve actor r : safe (serve actor r).
Proof.
  destruct r; cbn [serve];
    try match goal with |- triple _ (forget _) _ => apply safe_forget end.
  - apply safe_CreateTenant.
  - apply safe_Environment_Create.
  - apply safe_SetLabels.
  - apply safe_SetEnvironmentValue.
  - apply safe_DeleteEnvironmentValue.
  - apply safe_Create.
  - apply safe_Deactivate.
  - apply safe_DeactivateByFeatureAndTarget.
  - apply safe_WithTx, safe_CreateEnvConfig.
  - apply safe_WithTx, safe_CreateGlobalConfig.
  - apply safe_UpdateConfig.
  - apply safe_DeleteConfig.
  - apply safe_UpdateEnvConfig.
  - apply safe_DeleteEnvConfig.
  - apply safe_DisableFeature.
  - apply safe_EnableFeature.
  - apply safe_Redeploy.
  - apply safe_Reconciler_Uninstall.
  - apply safe_serve_page.
  - apply safe_manage.
  - apply safe_Api_CreateFeatureAssignment.
  - apply safe_handler.
  - apply safe_TimeoutPendingDeploys.
Qed.

(** ** The invariant of every step *)

Definition phase_wf (s : server) : Prop :=
  match sv_phase s with Published rows => pending_wf rows (sv_world s) | _ => True end.

Definition server_inv (s : server) : Prop := server_wf (sv_world s) ∧ phase_wf s.

Lemma server_wf_time w d faults :
  (0 <= d)%Z → server_wf w →
  let w' := set_w_faults (λ _, faults) (set_w_now (λ t, (t + d)%Z) w) in
  server_wf w' ∧ later w w'.
Proof.
  intros Hd [E F L R P] w'. split.
  - split; try done. eapply logs_wf_mono; [..|exact L]; [done|]. simpl. lia.
  - split; simpl; [lia|lia|exists []; by rewrite app_nil_r|]. exists []. rewrite app_nil_r.
    split; [done|]. by intros r Hr%elem_of_nil.
Qed.

Lemma phase_wf_later w w' ph :
  server_wf w' → later w w' → phase_wf {| sv_world := w; sv_phase := ph |} →
  phase_wf {| sv_world := w'; sv_phase := ph |}.
Proof. unfold phase_wf. simpl. destruct ph; try done. intros Hw Hl. by apply pending_stable. Qed.

Lemma server_step_inv s s' : server_inv s → server_step s s' → server_inv s'.
Proof.
  intros [Hw Hp] Hstep. destruct Hstep; simpl in Hw.
  - destruct (safe_serve actor r w Hw I) as (Hw' & Hl & _).
    split; [done|]. by eapply phase_wf_later.
  - destruct H as (snap & p & Hf & _). apply fetchSnapshot_reads in Hf.
    destruct (server_wf_same_world _ _ Hf Hw). by split.
  - pose proof (safe_writeResultLogs results w Hw I) as (Hw' & _). rewrite H in Hw'.
    split; [done|]. unfold phase_wf. simpl. by destruct (is_Ok o).
  - destruct (publish_decisions_run _ _ _ _ Hw H) as (Hw' & _ & _ & Hrows). split; [done|].
    unfold phase_wf. simpl. destruct o; try done. by apply Hrows.
  - destruct (append_published_run _ _ _ _ Hw Hp H) as (Hw' & _). by split.
  - by split.
  - destruct (server_wf_time w d faults H Hw). split; [done|]. by eapply phase_wf_later.
Qed.

Lemma server_steps_inv s s' : server_inv s → steps server_step s s' → server_inv s'.
Proof. intros Hi Hs. by eapply (steps_invariant server_step server_inv server_step_inv). Qed.

(** The states reached from well-formed tables with the loop waiting. *)
Definition reachable (s : server) : Prop :=
  ∃ w0, server_wf w0 ∧ steps server_step {| sv_world := w0; sv_phase := Waiting |} s.

Lemma reachable_inv s : reachable s → server_inv s.
Proof. intros (w0 & Hw & Hs). refine (server_steps_inv _ _ _ Hs). by split. Qed.

(** C2.  Whatever requests, messages, failures and restarts happen, and however they
    interleave with the reconcile loop, every table keeps its integrity: identifiers and
    keys stay unique, at most one assignment of a feature for a target is active and its
    version is stored, the current rows are those of the logs, and every row of the deploy
    log belongs to a message that was handed to the Pub/Sub client; whether the broker took
    it the server does not wait to know. *)
Theorem reachable_wf s : reachable s → server_wf (sv_world s) ∧ phase_wf s.
Proof. apply reachable_inv. Qed.

(** C4.  In every reachable state, each row of the deploy log, whoever wrote it and
    whatever status it carries, is about exactly one message that was handed to the Pub/Sub
    client (which may yet fail to deliver it, unseen by the server): the one with its
    identifier, for its feature, version and hash, and not an uninstall; and two rows with
    the same identifier agree on environment, assignment, feature, version and hash. *)
Theorem deploys_were_published s r :
  reachable s → r ∈ deploy_log (w_rec (sv_world s)) →
  (∃ topic m, (topic, m) ∈ published (sv_world s) ∧ instruction_of_row r m ∧
     ∀ topic' m', (topic', m') ∈ published (sv_world s) → di_ID m' = dl_Diid r →
       (topic', m') = (topic, m)) ∧
  ∀ r', r' ∈ deploy_log (w_rec (sv_world s)) → dl_Diid r' = dl_Diid r →
    dl_EnvironmentID r' = dl_EnvironmentID r ∧
    dl_FeatureAssignmentID r' = dl_FeatureAssignmentID r ∧
    dl_FeatureName r' = dl_FeatureName r ∧ dl_FeatureVersion r' = dl_FeatureVersion r ∧
    dl_Hash r' = dl_Hash r.
Proof.
  intros Hs Hr. destruct (reachable_inv s Hs) as [[_ _ _ [R1 R2] [Hnd _]] _].
  assert (Huniq : ∀ tm tm', tm ∈ published (sv_world s) → tm' ∈ published (sv_world s) →
    di_ID tm.2 = di_ID tm'.2 → tm = tm').
  { intros tm tm' H1 H2 Hid. by apply (NoDup_fmap_inj_on (di_ID ∘ snd) (published (sv_world s))). }
  destruct (R1 r Hr) as ([topic m] & Hin & Hm). split.
  - exists topic, m. split_and!; [done..|]. intros topic' m' Hin' Hid.
    apply Huniq; [done..|]. simpl. destruct Hm as (Hm & _). simpl in Hm. congruence.
  - intros r' Hr' Hd. destruct (R2 r' r Hr' Hr Hd) as [He Ha].
    destruct (R1 r' Hr') as (tm' & Hin' & Hm'). destruct Hm as (Hi1 & Hi2 & Hi3 & Hi4 & _).
    destruct Hm' as (Hj1 & Hj2 & Hj3 & Hj4 & _). simpl in Hi1, Hi2, Hi3, Hi4.
    assert (tm' = (topic, m)) as -> by (apply Huniq; [done..|]; simpl; congruence).
    simpl in *. split_and!; [done..| | |]; congruence.
Qed.

(** A status message that overtakes the recording of its instruction is lost: between
    handing over and recording, in every reachable state, a Helm status for one of the
    instructions just handed over is acknowledged without any effect, and recording then
    makes the instruction's status [sent]. *)
Theorem early_status_dropped w rows p msg h :
  reachable {| sv_world := w; sv_phase := Published rows |} → p ∈ rows → w_faults w = [] →
  st_Type msg = StatusTypeHelm → decode_Helm (st_Data msg) = Some h → h_DIID h = ap_Diid p →
  handler slackChannel msg w = (Ok tt, w) ∧
  ∃ w' id, append_published rows w = (Ok tt, w') ∧
    deploy_of p id (w_now w) ∈ deploy_log (w_rec w').
Proof.
  intros Hs Hp Hf Ht Hd Hid. destruct (reachable_inv _ Hs) as [Hwf Hpend]. cbn [sv_world] in Hwf.
  unfold phase_wf in Hpend. cbn [sv_phase sv_world] in Hpend. split.
  - unfold handler, handlerHelm. rewrite Ht, Hd. unfold none_if_no_rows, attempt,
      LatestDeployByDIID, query, external, next_fault, mbind, M_bind.
    rewrite Hf. cbn [fst snd].
    destruct (filter (λ r, dl_Diid r = h_DIID h) (deploy_log (w_rec w))) as [|r l] eqn:El; [done|].
    exfalso. assert (r ∈ r :: l) as Hr by by left. rewrite <-El in Hr.
    apply list_elem_of_filter in Hr as [Hr1 Hr2].
    apply (pw_new _ _ Hpend p r Hp Hr2). congruence.
  - destruct (append_published rows w) as [o w'] eqn:E.
    destruct (append_published_run _ _ _ _ Hwf Hpend E) as (_ & _ & _ & _ & l & Hl & _ & Hok).
    assert (o = Ok tt) as ->.
    { unfold append_published in E. case_bool_decide as Hn; [by injection E as <- _|].
      unfold wrapping, AppendDeploys, exec, external, next_fault, mbind, M_bind in E.
      rewrite Hf in E. by injection E as <- _. }
    specialize (Hok eq_refl). apply list_elem_of_lookup in Hp as [i Hp].
    destruct (Forall2_lookup_l _ _ _ _ _ Hok Hp) as (r & Hr & id & ->).
    exists w', id. split; [done|]. rewrite Hl. apply elem_of_app. right.
    by eapply list_elem_of_lookup_2.
Qed.

(** C31.  Nothing stays pending for ever: from every reachable state, even if the server
    restarts in the middle of a turn and no agent ever answers, an hour's wait and one run
    of the timeout worker lead to a state in which no deploy is in progress, and whose log
    extends the one before. *)
Theorem can_settle s :
  reachable s →
  ∃ s', steps server_step s s' ∧ sv_phase s' = Waiting ∧
    (∃ l, deploy_log (w_rec (sv_world s')) = deploy_log (w_rec (sv_world s)) ++ l) ∧
    ∀ k r, deploy_current (w_rec (sv_world s')) !! k = Some r → IsInProgress (dl_Status r) = false.
Proof.
  intros Hs. destruct (reachable_inv s Hs) as [Hwf _]. destruct s as [w ph]. cbn [sv_world] in *.
  set (w1 := set_w_faults (λ _, []) (set_w_now (λ t, (t + (Hour + 1))%Z) w)).
  destruct (server_wf_time w (Hour + 1) [] (ltac:(done)) Hwf) as [Hwf1 _]. fold w1 in Hwf1.
  assert (Hrun : (serve "" TimeoutTick w1).2 = timeout_pending w1) by done.
  exists {| sv_world := timeout_pending w1; sv_phase := Waiting |}. split_and!.
  - eapply steps_cons; [apply step_restart|]. eapply steps_cons.
    { apply (step_time w Waiting (Hour + 1) []). done. }
    rewrite <-Hrun. apply steps_one, step_request.
  - done.
  - pose proof (safe_serve "" TimeoutTick w1 Hwf1 I) as (_ & [_ _ _ (l & Hl & _)] & _).
    rewrite Hrun in Hl. by exists l.
  - intros k r Hr. cbn [sv_world] in Hr. apply not_true_is_false. intros Hprog.
    pose proof (timeout_pending_current w1 k (sw_logs _ Hwf1)) as Hc.
    destruct (deploy_current (w_rec w1) !! k) as [r0|] eqn:E0; [|congruence].
    destruct (timed_out (w_now w1) r0) eqn:Et.
    + destruct Hc as (r' & Hr' & Hst & _). simplify_eq. by rewrite Hst in Hprog.
    + simplify_eq. apply (not_timed_out _ _ Et) in Hprog.
      change (w_rec w1) with (w_rec w) in E0.
      pose proof (log_to_current_latest (deploy_log (w_rec w)) k) as Hlat.
      rewrite <-(wf_deploy_current _ (sw_logs _ Hwf)), E0 in Hlat. destruct Hlat as (Hin & _).
      apply (wf_deploy_bound _ (sw_logs _ Hwf)) in Hin as [_ Hb]. simpl in Hprog. lia.
Qed.
End system.

(** ** A run *)

(** A codec that reads every Helm status as a failure of the first instruction sent. *)
Definition example_failure_codec : MessageCodec := {|
  decode_Helm _ := Some {| h_DIID := 1000; h_Name := "app"; h_Version := "1.0.0";
    h_RolloutStatus := DeployStatusFailed; h_ConfigHash := "h"; h_Log := ""; h_Error := "" |};
  decode_HelmRelease _ := None; decode_Health _ := None; decode_StatusLog _ := None;
|}.

Section example.
#[local] Existing Instances echo example_pg example_codec example_raw example_encoder example_parse
  example_failure_codec example_form example_web example_api.
#[local] Abbreviation example_step :=
  (server_step example_download (λ _, "") (λ _, true) false "" "#deploys") (only parsing).
#[local] Abbreviation example_reachable :=
  (reachable example_download (λ _, "") (λ _, true) false "" "#deploys") (only parsing).

Lemma example_world_server_wf : server_wf example_world.
Proof.
  split; [| |apply example_world_wf| |].
  - split; simpl; try (apply (bool_decide_unpack _); vm_compute; exact I); by repeat constructor.
  - split; simpl; try (apply (bool_decide_unpack _); vm_compute; exact I); try by repeat constructor.
    intros a ->%list_elem_of_singleton. eexists. by split; [apply list_elem_of_singleton|].
  - split; simpl; [by intros r Hr%elem_of_nil|by intros r r' Hr%elem_of_nil].
  - split; constructor.
Qed.

Definition example_snap : snapshot :=
  match (fetchSnapshot "" example_world).1 with Ok s => s | _ => example_snapshot end.
Definition example_item : workItem :=
  match dispatch_tasks example_snap example_clock with TWork w :: _ => w | _ => example_work end.
Definition example_decided : DeployDecision :=
  match computeAction (map_to_list (f_Values (f_YAML (ra_Feature (wi_dep example_item)))))
          example_snap (wi_env example_item) (wi_dep example_item)
  with Ok d => d | _ => example_decision end.

Lemma example_desired :
  ComputeDesiredState "" example_clock 1 example_world [example_decided] example_world.
Proof.
  exists example_snap, (Build_pool [] [] true [Exited] [] true [example_decided]).
  split; [vm_compute; reflexivity|]. split; [|done].
  assert (dispatch_tasks example_snap example_clock = [TWork example_item]) as -> by
    (vm_compute; reflexivity).
  assert (Hd : computes example_snap example_item example_decided).
  { eexists. split; [reflexivity|]. vm_compute. reflexivity. }
  unfold pool_init. simpl.
  eapply steps_cons; [apply step_send; simpl; lia|].
  eapply steps_cons; [apply step_close|]. simpl.
  eapply steps_cons; [apply (step_take _ _ _ [] _ _ _ [] [])|]. simpl.
  eapply steps_cons; [apply (step_emit _ _ _ [] [] _ [] example_item []); [exact Hd|simpl; lia]|].
  simpl. eapply steps_cons; [apply (step_exit _ _ _ [] [] [])|]. simpl.
  eapply steps_cons; [apply step_finish; by repeat constructor|].
  eapply steps_cons; [apply step_receive|]. apply steps_refl.
Qed.

(** The loop decided, logged and handed over; nothing is recorded yet. *)
Definition example_logged_world : world := (writeResultLogs [example_decided] example_world).2.
Definition example_published_world : world := (publish_decisions [example_decided] example_logged_world).2.
Definition example_rows : list AppendDeploysParams :=
  match (publish_decisions [example_decided] example_logged_world).1 with Ok rows => rows | _ => [] end.
Definition example_recorded_world : world := (append_published example_rows example_published_world).2.

Lemma example_published :
  example_reachable {| sv_world := example_published_world; sv_phase := Published example_rows |}.
Proof.
  exists example_world. split; [apply example_world_server_wf|].
  eapply steps_cons; [eapply step_compute; exact example_desired|].
  eapply steps_cons; [apply (step_log _ _ _ _ _ _ _ _ (Ok tt) example_logged_world); vm_compute; reflexivity|].
  apply steps_one. apply (step_publish _ _ _ _ _ _ _ _ (Ok example_rows)). vm_compute. reflexivity.
Qed.

Lemma example_recorded :
  example_reachable {| sv_world := example_recorded_world; sv_phase := Waiting |}.
Proof.
  destruct example_published as (w0 & Hw & Hs). exists w0. split; [exact Hw|].
  eapply steps_trans; [exact Hs|]. apply steps_one.
  apply (step_record _ _ _ _ _ _ _ _ (Ok tt)). vm_compute. reflexivity.
Qed.

Lemma reachable_wf_witness :
  server_wf example_recorded_world ∧ length (deploy_log (w_rec example_recorded_world)) = 1%nat.
Proof.
  split; [|vm_compute; reflexivity].
  exact (proj1 (reachable_wf example_download (λ _, "") (λ _, true) false "" "#deploys" _ example_recorded)).
Defined.

Lemma deploys_were_published_witness :
  ∃ r topic m, r ∈ deploy_log (w_rec example_recorded_world) ∧
    (topic, m) ∈ published example_recorded_world ∧ instruction_of_row r m.
Proof.
  destruct (deploy_log (w_rec example_recorded_world)) as [|r l] eqn:E;
    [vm_compute in E; discriminate|].
  destruct (deploys_were_published example_download (λ _, "") (λ _, true) false "" "#deploys" _ r example_recorded)
    as [(topic & m & Hin & Hm & _) _].
  - cbn [sv_world]. rewrite E. left.
  - exists r, topic, m. split; [left|]. split; [exact Hin|exact Hm].
Defined.

Lemma early_status_dropped_witness :
  ∃ p, p ∈ example_rows ∧
    handler "#deploys" (example_status StatusTypeHelm) example_published_world =
      (Ok tt, example_published_world).
Proof.
  destruct example_rows as [|p l] eqn:E; [vm_compute in E; discriminate|].
  exists p. split; [left|].
  refine (proj1 (early_status_dropped example_download (λ _, "") (λ _, true) false "" "#deploys"
    example_published_world example_rows p (example_status StatusTypeHelm) _ example_published
    _ _ _ _ _)).
  - rewrite E. left.
  - vm_compute. reflexivity.
  - reflexivity.
  - reflexivity.
  - vm_compute in E. injection E as <- _. vm_compute. reflexivity.
Defined.

Lemma can_settle_witness :
  ∃ s', steps example_step {| sv_world := example_recorded_world; sv_phase := Waiting |} s' ∧
    ∀ k r, deploy_current (w_rec (sv_world s')) !! k = Some r → IsInProgress (dl_Status r) = false.
Proof.
  destruct (can_settle example_download (λ _, "") (λ _, true) false "" "#deploys" _ example_recorded)
    as (s' & Hs & _ & _ & H).
  exists s'. split; [exact Hs|exact H].
Defined.
End example.
