(* ===== verification/ConfigTable.v ===== *)
(** * ui/components/config.go and the configuration table of ui/pages/environment/feature.go

    What a row of the table shows, the controls of its editor, and the form they belong to.
    What a browser makes of the controls is a class with the laws of HTML's forms; the
    handler that receives the form is [Pages.BatchUpdateConfigHandler].  The theorem is
    about both: what the user typed is stored and shown, and nothing else changes. *)

From S2P Require Import Preview Pages PageFacts FeaturePage Labels TemplateTest TemplateFuncs.
From S2P Require System.
From S2P Require Import GoStd.

(** ** Cells (components/config.go) *)

Definition newline : string := String "010" "".

Definition IsMultilineValue (s : string) : bool := Contains s newline.

(** What a cell shows of a value, with the title of its element. *)
Inductive value_node :=
  | ShownText (s : string)
  | ReadonlyValueTextarea (s : string)
  | Masked
  | EmptyNote (title : option string) (s : string)
  | ComputedText (title s : string)
  | ComputedLines (title s : string).

Record key_node := {
  kn_label : string; kn_title : option string; kn_required : bool; kn_description : option string;
}.

Definition some_text (s : string) : option string := if bool_decide (s = "") then None else Some s.

Definition ConfigKeyCell (item : ConfigItem) : key_node :=
  {| kn_label := if bool_decide (ci_DisplayName item = "") then ci_Key item else ci_DisplayName item;
     kn_title := if bool_decide (ci_DisplayName item = "") then None else Some (ci_Key item);
     kn_required := ci_Required item; kn_description := some_text (ci_Description item) |}.

(** An option of a select: its value, and whether it is selected. *)
Definition Option (value current : string) : string * bool := (value, bool_decide (value = current)).
Definition notSetOption : string * bool := ("", true).

Inductive control :=
  | Hidden (name value : string)
  | TextInput (name value : string)
  | Textarea (name : string) (rows : nat) (text : string)
  | Select (name : string) (options : list (string * bool)).

Definition control_name (c : control) : string :=
  match c with Hidden n _ | TextInput n _ | Textarea n _ _ | Select n _ => n end.

Definition bool_options (current : string) : list (string * bool) :=
  let opts := [Option "true" current; Option "false" current] in
  if bool_decide (TrimSpace current = "") then notSetOption :: opts else opts.

Definition bulkValueWidget (item : ConfigItem) : control :=
  let name := BulkValueField (ci_Key item) in
  let type := ToUpper (ci_Type item) in
  if bool_decide (type = "BOOL") then Select name (bool_options (ci_Value item))
  else if bool_decide (type = "INT") then TextInput name (ci_Value item)
  else if IsMultilineValue (ci_Value item)
  then Textarea name (Nat.min (Nat.max (count_lines (ci_Value item) + 1) 2) 12) (ci_Value item)
  else TextInput name (ci_Value item).

Record kebab := { kb_id : string; kb_compare : string; kb_extra : list (string * string) }.

Definition ConfigKebab (featureName configKey : string) (extraItems : list (string * string)) : kebab :=
  {| kb_id := "config-kebab-" +:+ replace configKey "." "-";
     kb_compare := "/features/" +:+ (featureName +:+ ("/config-compare/" +:+ QueryEscape configKey));
     kb_extra := extraItems |}.

(** The confirmation that deletes a value: a text that spans lines is laid out. *)
Record delete_confirm := {
  dc_id : string; dc_action : string; dc_title : string; dc_label : string; dc_message : option string;
  dc_fallback : option (bool * string);
}.

Definition fallbackValueNode (v : string) : bool * string := (Contains v newline, v).

Definition ConfigDeleteConfirm (popoverID action title confirmLabel message fallbackValue : string) : delete_confirm :=
  {| dc_id := popoverID; dc_action := action; dc_title := title; dc_label := confirmLabel;
     dc_message := some_text message; dc_fallback := fallbackValueNode <$> some_text fallbackValue |}.

Definition TemplateCell (item : ConfigItem) : string := ci_Template item.

Section cells.
Context `{json : FormJson}.

(** The text is what [json.MarshalIndent] makes of the value; [false] when it is no JSON
    object or array. *)
Definition TryPrettyJSON (s : string) : string * bool :=
  let trimmed := TrimSpace s in
  if opens_json trimmed then
    match (let! v := form_Unmarshal trimmed in let! b := form_Marshal v in form_Indent b) with
    | Ok b => (b, true)
    | _ => (s, false)
    end
  else (s, false).

Definition ValueDisplay (value configType : string) : value_node :=
  let display :=
    if bool_decide (configType = "STRING") || bool_decide (configType = "STRING_ARRAY") || bool_decide (configType = "")
    then let (pretty, ok) := TryPrettyJSON value in if (ok : bool) then pretty else value
    else value in
  if IsMultilineValue display then ReadonlyValueTextarea display else ShownText display.

Definition ConfigValueCell (item : ConfigItem) : value_node :=
  if ci_IsSecret item then Masked else ValueDisplay (ci_Value item) (ci_Type item).

(** The value as it is shown, and the controls that edit it, which belong to a form. *)
Record bulk_cell := { bc_form : string; bc_display : value_node; bc_controls : list control }.

Definition BulkConfigCell (formID idForUpdate : string) (item : ConfigItem) : bulk_cell :=
  {| bc_form := formID;
     bc_display :=
       if negb (ci_HasValue item) then EmptyNote None "<not set>"
       else if ci_IsSecret item then Masked
       else if bool_decide (ci_Value item = "") then EmptyNote None "(empty string)"
       else ValueDisplay (ci_Value item) (ci_Type item);
     bc_controls :=
       [bulkValueWidget item; Hidden BulkKeysField (ci_Key item);
        Hidden (BulkTypeField (ci_Key item)) (ci_Type item);
        Hidden (BulkOrigField (ci_Key item)) (ci_Value item);
        Hidden (BulkIDField (ci_Key item)) idForUpdate] |}.

Definition ComputedValueCell (item : ConfigItem) : value_node :=
  if ci_IsSecret item then Masked
  else if negb (ci_HasValue item) then EmptyNote (Some (ci_Template item)) "<not set>"
  else if bool_decide (ci_Value item = "") then EmptyNote (Some (ci_Template item)) "(empty string)"
  else if IsMultilineValue (ci_Value item) then ComputedLines (ci_Template item) (ci_Value item)
  else ComputedText (ci_Template item) (ci_Value item).

(** The editor of one value: a choice, a number, or a text that is JSON or not. *)
Inductive value_editor :=
  | BoolEditor (options : list (string * bool))
  | NumberEditor (value : string)
  | TextEditor (is_json : bool) (rows : nat) (text : string).

Definition StringEditor (currentValue : string) : value_editor :=
  let (pretty, isJSON) := TryPrettyJSON currentValue in
  let display := if (isJSON : bool) then pretty else currentValue in
  TextEditor isJSON (Nat.min (Nat.max (count_lines display + 1) 4) 20) display.

Definition ConfigValueEditor (item : ConfigItem) (currentValue : string) : value_editor :=
  let type := ToUpper (ci_Type item) in
  if bool_decide (type = "BOOL") then BoolEditor (bool_options currentValue)
  else if bool_decide (type = "INT") then NumberEditor currentValue
  else StringEditor currentValue.

Record edit_popover := {
  ep_id : string; ep_action : string; ep_title : string; ep_submit : string; ep_key : string;
  ep_editor : value_editor; ep_fields : list control;
}.

Definition ConfigEditPopover (popoverID action title submitLabel : string) (item : ConfigItem)
    (extraFields : list control) : edit_popover :=
  {| ep_id := popoverID; ep_action := action; ep_title := title; ep_submit := submitLabel; ep_key := ci_Key item;
     ep_editor := ConfigValueEditor item (ci_Value item); ep_fields := extraFields |}.

Definition isEmptyConfigValue (value : string) : bool :=
  bool_decide (value = "") ||
  match form_Unmarshal value with
  | Ok VNil => true
  | Ok (VStr s) => bool_decide (s = "")
  | Ok (VList l) => match l with [] => true | _ => false end
  | Ok v => match as_map v with Some m => bool_decide (m = ∅) | None => false end
  | _ => false
  end.

(** ** The table (environment/feature.go) *)

Definition featureBasePathForPage (p : FeaturePage) : string :=
  featureBasePathValues (fp_TenantSlug p) (er_Name (fp_Environment p)) (f_Name (fp_Feature p)).

Record badge := { bg_class : string; bg_label : string; bg_title : string }.

Definition sourceBadge (item : ConfigItem) : badge :=
  if bool_decide (ci_Source item = "ENV") then
    {| bg_class := "source-badge source-env-set"; bg_label := "env config"; bg_title := "Set for this environment" |}
  else
    let (label, title) :=
      if bool_decide (ci_Source item = "GLOBAL") then ("global config", "Set for all environments (feature config)")
      else if ci_IsComputed item then
        if ci_IsConfigurable item
        then ("computed default", "Default is computed from a template — set a value to override it")
        else ("computed", "Computed from a template")
      else if isEmptyConfigValue (ci_Value item)
      then ("none", "No value set — the chart declares this config but provides no default")
      else ("values.yaml", "Chart default from values.yaml") in
    {| bg_class := "source-badge"; bg_label := label; bg_title := title |}.

(** A badge, and the confirmation behind the button next to it. *)
Definition source_cell : Type := badge * option delete_confirm.

Definition sourceLabelCell (item : ConfigItem) : source_cell := (sourceBadge item, None).

Definition sourceCell (p : FeaturePage) (item : ConfigItem) : source_cell :=
  if negb (bool_decide (ci_Source item = "ENV")) then sourceLabelCell item
  else (sourceBadge item, Some (ConfigDeleteConfirm ("clear-" +:+ ci_ID item)
          (featureBasePathForPage p +:+ ("/config/delete/" +:+ ci_ID item)) "Clear value" "Clear" ""
          (ci_FallbackValue item))).

Record config_row := {
  rw_id : string; rw_class : string; rw_key : key_node; rw_value : value_node; rw_controls : list control;
  rw_source : source_cell; rw_kebab : option kebab;
}.

Definition configurableRow (p : FeaturePage) (formID : string) (item : ConfigItem) : config_row :=
  let valDef := f_Values (f_YAML (fp_Feature p)) !! ci_Key item in
  let warn := from_option v_Required false valDef && bool_decide (ci_Source item = "HELM") &&
              isEmptyConfigValue (ci_Value item) in
  let idForUpdate := if bool_decide (ci_Source item = "ENV") then ci_ID item else "" in
  let cell := BulkConfigCell formID idForUpdate item in
  {| rw_id := "config-" +:+ ci_Key item; rw_class := if warn then "config-warning" else "";
     rw_key := ConfigKeyCell item; rw_value := bc_display cell; rw_controls := bc_controls cell;
     rw_source := sourceCell p item;
     rw_kebab := Some (ConfigKebab (f_Name (fp_Feature p)) (ci_Key item) []) |}.

Definition test_link (p : FeaturePage) (item : ConfigItem) : list (string * string) :=
  if bool_decide (ci_Template item = "") then []
  else [("Test template",
         "/template-test?feature=" +:+ (QueryEscape (f_Name (fp_Feature p)) +:+
         ("&tenant=" +:+ (QueryEscape (fp_TenantSlug p) +:+
         ("&env=" +:+ (QueryEscape (er_Name (fp_Environment p)) +:+
         ("&key=" +:+ QueryEscape (ci_Key item))))))))].

Definition computedRow (p : FeaturePage) (item : ConfigItem) : config_row :=
  {| rw_id := "config-" +:+ ci_Key item; rw_class := "config-row-computed"; rw_key := ConfigKeyCell item;
     rw_value := ComputedValueCell item; rw_controls := []; rw_source := sourceLabelCell item;
     rw_kebab := Some (ConfigKebab (f_Name (fp_Feature p)) (ci_Key item) (test_link p item)) |}.

Definition staleRow (p : FeaturePage) (item : ConfigItem) : config_row :=
  let global := bool_decide (ci_Source item = "GLOBAL") in
  let action := featureBasePathForPage p +:+
    ((if global then "/config/delete-global/" else "/config/delete/") +:+ ci_ID item) in
  let message :=
    if global then "This removes the global value for " +:+ (json_quote (ci_Key item) +:+ " from all environments.")
    else "This removes the stored value for " +:+ (json_quote (ci_Key item) +:+ " from this environment.") in
  {| rw_id := ""; rw_class := "config-row-stale";
     rw_key := {| kn_label := ci_Key item; kn_title := None; kn_required := false; kn_description := None |};
     rw_value := ConfigValueCell item; rw_controls := [];
     rw_source := (sourceBadge item, Some (ConfigDeleteConfirm ("stale-del-" +:+ ci_ID item) action
                     "Delete unused value" "Delete" message ""));
     rw_kebab := None |}.

(** The form is there when there is something to edit. *)
Record config_table := { ct_stale : list config_row; ct_form : option string; ct_rows : list config_row }.

Definition formID : string := "config-batch-form".

Definition configTable (p : FeaturePage) (configurable computed orphaned : list ConfigItem) : option config_table :=
  match configurable, computed, orphaned with
  | [], [], [] => None
  | _, _, _ =>
      Some {| ct_stale := staleRow p <$> orphaned;
              ct_form := match configurable with
                         | [] => None | _ => Some (featureBasePathForPage p +:+ "/config/batch") end;
              ct_rows := (configurableRow p formID <$> configurable) ++ (computedRow p <$> computed) |}
  end.

Definition editable (item : ConfigItem) : bool := negb (ci_IsOrphaned item) && ci_IsConfigurable item.
Definition only_computed (item : ConfigItem) : bool := negb (ci_IsOrphaned item) && negb (ci_IsConfigurable item).

Definition overviewTab (p : FeaturePage) : option config_table :=
  let items := fp_ConfigItems p in
  configTable p (filter (λ i, editable i = true) items) (filter (λ i, only_computed i = true) items)
    (filter (λ i, ci_IsOrphaned i = true) items).
End cells.

(** ** The browser *)

(** HTML carries a text unchanged unless it is not UTF-8 or has a NUL or a carriage return;
    a control sends a value, [Some t] when the user has changed it to [t]. *)
Class Browser := { carries : string → bool; submitted : control → option string → string }.

Definition starts_line (s : string) : bool := HasPrefix s newline.

(** What a user can put into a control. *)
Definition can_enter `{Browser} (c : control) (t : string) : bool :=
  match c with
  | Hidden _ _ => false
  | TextInput _ _ => carries t && negb (IsMultilineValue t)
  | Textarea _ _ _ => carries t
  | Select _ options => bool_decide (t ∈ options.*1)
  end.

(** HTML's forms: a hidden or text field sends its value; so does a text area, but the
    parser drops a newline at its start; a select sends the option that is selected and,
    when none is, the first. *)
Record HtmlForms `{Browser} : Prop := {
  hf_empty : carries "" = true;
  hf_hidden : ∀ n v, carries v = true → submitted (Hidden n v) None = v;
  hf_text : ∀ n v, carries v = true → IsMultilineValue v = false → submitted (TextInput n v) None = v;
  hf_area : ∀ n rows v, carries v = true → starts_line v = false → submitted (Textarea n rows v) None = v;
  hf_area_newline : ∀ n rows v, carries v = true → submitted (Textarea n rows (newline +:+ v)) None = v;
  hf_selected : ∀ n options v, filter (λ o, o.2 = true) options = [(v, true)] →
    submitted (Select n options) None = v;
  hf_first : ∀ n options v, filter (λ o, o.2 = true) ((v, false) :: options) = [] →
    submitted (Select n ((v, false) :: options)) None = v;
  hf_edited : ∀ c t, can_enter c t = true → submitted c (Some t) = t;
}.

Section form.
Context `{json : FormJson} `{browser : Browser}.

Definition is_hidden (c : control) : bool := match c with Hidden _ _ => true | _ => false end.

(** What the form sends for the row of a key, when the user has changed the values of some
    keys. *)
Definition row_entries (edits : string → option string) (p : FeaturePage) (item : ConfigItem) : list (string * string) :=
  (λ c, (control_name c, submitted c (if is_hidden c then None else edits (ci_Key item)))) <$>
    rw_controls (configurableRow p formID item).

Definition posted (edits : string → option string) (p : FeaturePage) (name : string) : list string :=
  snd <$> filter (λ e, e.1 = name)
    (concat (row_entries edits p <$> filter (λ i, editable i = true) (fp_ConfigItems p))).

(** What a key is changed to: the JSON of what was typed, if that differs from what was
    there. *)
Definition typed (t : string) (item : ConfigItem) : outcome string :=
  let! v := ParseConfigValueAuto t (ci_Type item) in form_Marshal v.

Definition changed (edits : string → option string) (item : ConfigItem) : option string :=
  match edits (ci_Key item) with
  | Some t => if bool_decide (t = ci_Value item) then None
              else match typed t item with Ok raw => Some raw | _ => None end
  | None => None
  end.

(** An editor that, left alone, sends the value it was given. *)
Definition faithful (item : ConfigItem) : bool :=
  if bool_decide (ToUpper (ci_Type item) = "BOOL") then bool_decide (ci_Value item ∈ ["true"; "false"; ""])
  else if bool_decide (ToUpper (ci_Type item) = "INT") then negb (IsMultilineValue (ci_Value item))
  else negb (starts_line (ci_Value item)).

(** The row can be sent: its texts are carried, and the user left a faithful editor alone or
    typed what the key's type allows. *)
Definition sendable (edits : string → option string) (p : FeaturePage) (item : ConfigItem) : Prop :=
  carries (ci_Key item) = true ∧ carries (ci_Type item) = true ∧ carries (ci_Value item) = true ∧
  carries (ci_ID item) = true ∧
  match edits (ci_Key item) with
  | None => faithful item = true
  | Some t => can_enter (bulkValueWidget item) t = true ∧ (t = ci_Value item ∨ is_Ok (typed t item) = true)
  end.

Context (forms : HtmlForms).

Lemma untouched_widget item :
  faithful item = true → carries (ci_Value item) = true →
  submitted (bulkValueWidget item) None = ci_Value item.
Proof.
  intros Hf Hc. unfold faithful in Hf. unfold bulkValueWidget.
  case_bool_decide as Hb; [|case_bool_decide as Hi].
  - apply bool_decide_eq_true in Hf. apply (hf_selected forms).
    rewrite !elem_of_cons in Hf. destruct Hf as [->|[->|[->|Hf]]]; [reflexivity..|by apply elem_of_nil in Hf].
  - apply (hf_text forms); [done|]. by apply negb_true_iff.
  - destruct (IsMultilineValue (ci_Value item)) eqn:Em.
    + apply (hf_area forms); [done|]. by apply negb_true_iff.
    + by apply (hf_text forms).
Qed.

Lemma value_sent edits p item :
  sendable edits p item → submitted (bulkValueWidget item) (edits (ci_Key item)) = default (ci_Value item) (edits (ci_Key item)).
Proof.
  intros (_ & _ & Hv & _ & H). destruct (edits (ci_Key item)) as [t|]; cbn.
  - by apply (hf_edited forms), H.
  - by apply untouched_widget.
Qed.

(** *** The fields of the form *)

Lemma widget_name item : control_name (bulkValueWidget item) = BulkValueField (ci_Key item).
Proof. unfold bulkValueWidget. by repeat case_match. Qed.
Lemma widget_visible item : is_hidden (bulkValueWidget item) = false.
Proof. unfold bulkValueWidget. by repeat case_match. Qed.

Definition update_id (item : ConfigItem) : string := if bool_decide (ci_Source item = "ENV") then ci_ID item else "".

Lemma row_sent edits p item :
  sendable edits p item →
  row_entries edits p item =
    [(BulkValueField (ci_Key item), default (ci_Value item) (edits (ci_Key item)));
     (BulkKeysField, ci_Key item); (BulkTypeField (ci_Key item), ci_Type item);
     (BulkOrigField (ci_Key item), ci_Value item);
     (BulkIDField (ci_Key item), update_id item)].
Proof.
  intros Hs. unfold row_entries, configurableRow, BulkConfigCell. cbn [rw_controls bc_controls fmap list_fmap].
  rewrite widget_name, widget_visible, (value_sent _ _ _ Hs). destruct Hs as (Hk & Ht & Hv & Hi & _).
  cbn [control_name is_hidden]. fold (update_id item). rewrite !(hf_hidden forms); try done.
  unfold update_id. case_bool_decide; [done|apply (hf_empty forms)].
Qed.

(** The value of one field, when every row has it for its own key only. *)
Lemma fields_sent edits p (name : string) (g : ConfigItem → string) (P : ConfigItem → Prop) `{∀ i, Decision (P i)} l :
  (∀ i, i ∈ l → sendable edits p i) →
  (∀ i, i ∈ l → sendable edits p i →
     snd <$> filter (λ e, e.1 = name) (row_entries edits p i) = if decide (P i) then [g i] else []) →
  snd <$> filter (λ e, e.1 = name) (concat (row_entries edits p <$> l)) = g <$> filter P l.
Proof.
  intros Hs H1. induction l as [|i l IH]; [done|].
  rewrite fmap_cons. cbn [concat]. rewrite filter_app, fmap_app, filter_cons, (H1 i), IH;
    [|intros; apply Hs; by right|intros; apply H1; [by right|done]|left|apply Hs; left].
  by case_decide.
Qed.

Ltac field_sent Hs :=
  rewrite (row_sent _ _ _ Hs), !filter_cons, filter_nil; cbn [fst]; repeat case_decide; simplify_eq; done.

Section sent.
Context (edits : string → option string) (p : FeaturePage) (r : http_request)
  (Hpost : ∀ name, hr_post_form r name = posted edits p name)
  (Hsend : ∀ i, i ∈ filter (λ i, editable i = true) (fp_ConfigItems p) → sendable edits p i)
  (Hkeys : NoDup (ci_Key <$> fp_ConfigItems p)).

Lemma keys_sent : hr_post_form r BulkKeysField = ci_Key <$> filter (λ i, editable i = true) (fp_ConfigItems p).
Proof.
  rewrite Hpost. unfold posted. rewrite (fields_sent edits p BulkKeysField ci_Key (λ _, True) _ Hsend);
    [by rewrite filter_all|]. intros i _ Hs. field_sent Hs.
Qed.

Lemma field_of (F : string → string) (g : ConfigItem → string) i :
  i ∈ filter (λ i, editable i = true) (fp_ConfigItems p) →
  (∀ k j, sendable edits p j →
     snd <$> filter (λ e, e.1 = F k) (row_entries edits p j) = if decide (ci_Key j = k) then [g j] else []) →
  PostFormValue r (F (ci_Key i)) = g i.
Proof.
  intros Hi HF. unfold PostFormValue. rewrite Hpost. unfold posted.
  rewrite (fields_sent edits p _ g (λ j, ci_Key j = ci_Key i) _ Hsend) by (intros; by apply HF).
  rewrite (unique_filter ci_Key) by (try done; by apply NoDup_fmap_filter). done.
Qed.

Lemma row_fields_sent i :
  i ∈ filter (λ i, editable i = true) (fp_ConfigItems p) →
  PostFormValue r (BulkValueField (ci_Key i)) = default (ci_Value i) (edits (ci_Key i)) ∧
  PostFormValue r (BulkTypeField (ci_Key i)) = ci_Type i ∧
  PostFormValue r (BulkOrigField (ci_Key i)) = ci_Value i ∧
  PostFormValue r (BulkIDField (ci_Key i)) = update_id i.
Proof.
  intros Hi. split_and!; [apply (field_of BulkValueField (λ i, default (ci_Value i) (edits (ci_Key i))))|
    apply (field_of BulkTypeField ci_Type)|apply (field_of BulkOrigField ci_Value)|
    apply (field_of BulkIDField update_id)]; try done; intros k j Hs; field_sent Hs.
Qed.
End sent.
End form.

(** ** Writing a key *)

Section writing.
Context `{pg : Postgres} `{raw_json : RawJson} (actor : string).

(** Only configuration rows, audit entries and identifiers differ. *)
Definition rewritten (l : list ConfigurationsEnvironment) (a : list AuditRow) (n : N) (w : world) : world :=
  set_audits (λ _, a) (set_w_next_uuid (λ _, n) (set_w_feature (set_configurations_environment (λ _, l)) w)).
Definition configs_only (w w' : world) : Prop := ∃ l a n, w' = rewritten l a n w.

Lemma configs_only_refl w : configs_only w w.
Proof. exists (configurations_environment (w_feature w)), (audits w), (w_next_uuid w). by destruct w as [? [] ? ? ? ? ? ? ?]. Qed.
Lemma configs_only_trans w1 w2 w3 : configs_only w1 w2 → configs_only w2 w3 → configs_only w1 w3.
Proof. intros (? & ? & ? & ->) (l & a & n & ->). by exists l, a, n. Qed.

(** The row of one key has a new value, and every other row is as before. *)
Definition wrote (env : uuid) (f key content : string) (w w' : world) : Prop :=
  configs_only w w' ∧ (∃ e, is_env_row w' f env key e ∧ ce_Value e = content) ∧
  ∀ f' env' key' e, (f', env', key') ≠ (f, env, key) → is_env_row w' f' env' key' e ↔ is_env_row w f' env' key' e.

Lemma env_has_row w env f key e :
  e ∈ configurations_environment (w_feature w) → env_has env f key e = true ↔ is_env_row w f env key e.
Proof. intros He. unfold env_has, is_env_row. rewrite !andb_true_iff, !bool_decide_eq_true. tauto. Qed.

Lemma no_env_row w env f key :
  (¬ ∃ e, is_env_row w f env key e) → find (env_has env f key) (configurations_environment (w_feature w)) = None.
Proof.
  intros Hno. destruct (find _ _) as [e|] eqn:E; [|done]. apply find_some in E as [He%list_elem_of_In Hh].
  exfalso. apply Hno. exists e. by apply env_has_row.
Qed.

Lemma upsert_new {A} (same : A → bool) upd new l : find same l = None → upsert_row same upd new l = (l ++ [new], new).
Proof.
  induction l as [|x l IH]; [done|]. cbn [find upsert_row]. destruct (same x); [done|]. intros H. by rewrite (IH H).
Qed.

(** A key without a row gets one. *)
Lemma create_writes env f key raw secret w :
  w_faults w = [] → Marshal_RawMessage raw = Ok raw → (¬ ∃ e, is_env_row w f env key e) →
  ∃ c w', CreateEnvConfig actor {| nc_EnvironmentID := Some env; nc_Feature := f; nc_Description := None;
      nc_Key := key; nc_Value := raw; nc_Secret := secret |} w = (Ok c, w') ∧ wrote env f key (jsonb_text raw) w w'.
Proof.
  intros Hf Hm Hno. pose proof (no_env_row _ _ _ _ Hno) as Hfind.
  unfold CreateEnvConfig. cbn [nc_Value nc_EnvironmentID nc_Feature nc_Description nc_Key nc_Secret]. rewrite Hm.
  rewrite (bind_run _ _ w raw w) by done.
  assert (He : none_if_no_rows (GetEnvConfigByKey env f key) w = (Ok None, w)).
  { unfold none_if_no_rows, attempt, GetEnvConfigByKey, mbind, M_bind. rewrite query_now by done.
    unfold find_one. by rewrite Hfind. }
  rewrite (bind_run _ _ _ _ _ He).
  assert (Hg : ∃ prev, (global ← attempt (GetGlobalConfigByKey f key);
     mret (match global with inl g => Some (cg_Value g) | inr _ => None end) : IO (option string)) w = (Ok prev, w)).
  { unfold attempt, GetGlobalConfigByKey, mbind, M_bind. rewrite query_now by done. unfold find_one.
    destruct (find (global_has f key) _); (eexists; reflexivity). }
  destruct Hg as (prev & Hg). rewrite (bind_run _ _ _ _ _ Hg).
  unfold UpsertEnvConfig, writeConfigUpsertAudit, audit_Create, uuid_New, mbind, M_bind.
  rewrite external_now by done. cbv zeta.
  rewrite upsert_new by done. rewrite exec_now by done.
  eexists _, _. split; [reflexivity|]. split; [|split].
  - eexists _, _, _. reflexivity.
  - unfold is_env_row. cbn. eexists. split; [split; [apply elem_of_app; right; left|done]|done].
  - intros f' env' key' e Hne. unfold is_env_row. cbn. rewrite elem_of_app, list_elem_of_singleton. split; [|tauto].
    intros ([?| ->] & Hf' & He' & Hk'); [done|]. cbn in *. congruence.
Qed.

(** A row is found by its identifier and gets the new value. *)
Lemma update_writes n env f key e raw w :
  w_faults w = [] → feature_wf (w_feature w) n → is_env_row w f env key e → jsonb_text (ce_Value e) = ce_Value e →
  ∃ c w', UpdateEnvConfig actor true (ce_ID e) {| uc_Description := None; uc_Value := raw |} w = (Ok c, w') ∧
    wrote env f key (jsonb_text raw) w w'.
Proof.
  intros Hf Hwf Hrow Hjson. pose proof Hrow as (He & Hfe & Hen & Hk).
  set (hit x := bool_decide (ce_ID x = ce_ID e)).
  assert (Hid : ∀ x, x ∈ configurations_environment (w_feature w) → hit x = true → x = e).
  { intros x Hx Hh%bool_decide_eq_true. eapply NoDup_fmap_inj_on; [eapply fw_env_ids; exact Hwf|done..]. }
  assert (Hfind : find hit (configurations_environment (w_feature w)) = Some e).
  { destruct (find hit _) as [x|] eqn:E.
    - apply find_some in E as [Hx%list_elem_of_In Hh]. by rewrite (Hid x Hx Hh).
    - apply list_elem_of_In in He. pose proof (find_none _ _ E e He) as Hn. unfold hit in Hn.
      by rewrite bool_decide_eq_true_2 in Hn. }
  unfold UpdateEnvConfig, WithTx, GetEnvConfigByID, mbind, M_bind. rewrite query_now by done. fold hit.
  unfold find_one. rewrite Hfind. cbn [uc_Value uc_Description].
  destruct (bool_decide (ce_Value e = raw) && stringPtrEqual (ce_Description e) None) eqn:Esame.
  - apply andb_true_iff in Esame as [<-%bool_decide_eq_true _]. rewrite Hjson.
    eexists _, w. split; [reflexivity|]. split; [apply configs_only_refl|]. split; [by exists e|done].
  - unfold UpdateEnvConfig_query, audit_Create. rewrite external_now by done. fold hit. rewrite Hfind.
    rewrite exec_now by done. eexists _, _. split; [reflexivity|]. split; [|split].
    + eexists _, _, _. reflexivity.
    + exists (revalue_env raw None e). split; [|done]. split; [|done]. cbn. apply list_elem_of_fmap. exists e.
      split; [|done]. by rewrite bool_decide_eq_true_2.
    + intros f' env' key' x Hne. unfold is_env_row. cbn. rewrite list_elem_of_fmap. split.
      * intros ((y & -> & Hy) & Hf' & He' & Hk'). fold (hit y) in *. destruct (hit y) eqn:Eh; [|done].
        rewrite (Hid y Hy Eh) in Hf', He', Hk'. cbn in *. congruence.
      * intros (Hx & Hf' & He' & Hk'). split; [|done]. exists x. split; [|done].
        fold (hit x). destruct (hit x) eqn:Eh; [|done]. rewrite (Hid x Hx Eh) in Hf', He', Hk'. congruence.
Qed.
End writing.

(** ** Where an item of the page comes from *)

Definition same_row (c c0 : PageConfig) : Prop :=
  pc_ID c = pc_ID c0 ∧ pc_Key c = pc_Key c0 ∧ pc_Source c = pc_Source c0.

Lemma attach_origin key val l l' c : attach key val l = Some l' → c ∈ l' → ∃ c0, c0 ∈ l ∧ same_row c c0.
Proof.
  revert l'. induction l as [|x l IH]; intros l' H Hc; [done|]. cbn [attach] in H. case_bool_decide.
  - injection H as <-. apply elem_of_cons in Hc as [-> |Hc].
    + exists x. split; [left|done].
    + exists c. split; [by right|done].
  - apply fmap_Some in H as (l2 & H2 & ->). apply elem_of_cons in Hc as [-> |Hc].
    + exists x. split; [left|done].
    + destruct (IH _ H2 Hc) as (c0 & Hc0 & ?). exists c0. split; [by right|done].
Qed.

Lemma declare_origin uuid_NewSHA1 feat kvs l c :
  c ∈ foldl (declare uuid_NewSHA1 feat) l kvs → (∃ c0, c0 ∈ l ∧ same_row c c0) ∨ pc_Source c = "HELM".
Proof.
  revert c. induction kvs as [|[key val] kvs IH] using rev_ind; intros c Hc; [left; by exists c|].
  rewrite foldl_app in Hc. cbn [foldl] in Hc. unfold declare at 1 in Hc.
  assert (Ha : c ∈ match attach key val (foldl (declare uuid_NewSHA1 feat) l kvs) with
      | Some configs => configs
      | None => foldl (declare uuid_NewSHA1 feat) l kvs ++
          [{| pc_ID := uuid_NewSHA1 (f_Name feat +:+ ("|" +:+ key)); pc_Key := key; pc_Value := Some val;
              pc_Content := default "" (f_ValuesYAML feat !! key); pc_Source := "HELM" |}]
      end ∨ c ∈ foldl (declare uuid_NewSHA1 feat) l kvs).
  { destruct (v_Config val), (v_Computed val); by (left + right). }
  destruct Ha as [Ha|Ha]; [|by apply IH]. destruct (attach key val _) as [l'|] eqn:E.
  - destruct (attach_origin _ _ _ _ _ E Ha) as (c0 & H0 & Hs). destruct (IH c0 H0) as [(c1 & H1 & Hs1)|Hh].
    + left. exists c1. split; [done|]. unfold same_row in *. naive_solver congruence.
    + right. unfold same_row in Hs. naive_solver congruence.
  - apply elem_of_app in Ha as [Ha| ->%list_elem_of_singleton]; [by apply IH|by right].
Qed.

Section saving.
Context `{ext : External} `{pg : Postgres} `{codec : FeatureCodec} `{obj : ObjectCodec} `{json : FormJson}
  `{sc : Scan} `{ls : LogScan} `{raw_json : RawJson} `{web : WebInput} `{browser : Browser}
  (actor : string) (uuid_String : uuid → string) (uuid_NewSHA1 : string → uuid) (Format : time → string).

(** A row of the page with the source [ENV] is the environment's row of its key, and has
    its identifier; another one is there when the environment has none. *)
Lemma config_origin w n feat env c :
  feature_wf (w_feature w) n → c ∈ page_configs uuid_NewSHA1 w feat env →
  if bool_decide (pc_Source c = "ENV")
  then ∃ e, is_env_row w (f_Name feat) env (pc_Key c) e ∧ ce_ID e = pc_ID c
  else ¬ ∃ e, is_env_row w (f_Name feat) env (pc_Key c) e.
Proof.
  intros Hwf Hc. set (rows := MergeConfigs (global_rows w (f_Name feat)) (env_rows w (f_Name feat) env) []).
  pose proof (elem_of_MergeConfigs (global_rows w (f_Name feat)) (env_rows w (f_Name feat) env) []) as Hrows.
  fold rows in Hrows. pose proof (λ key e, last_env_row uuid_String uuid_NewSHA1 w n (f_Name feat) env key e Hwf) as He.
  assert (Hmerged : ∀ key e, is_env_row w (f_Name feat) env key e →
    merged_row (global_rows w (f_Name feat)) (env_rows w (f_Name feat) env) [] key = Some (Feature.env_row e)).
  { intros key e Hr. unfold merged_row, key_included. rewrite bool_decide_eq_true_2 by done. cbn [orb].
    by rewrite (proj2 (He key e) Hr). }
  pose proof Hc as Hc'. unfold page_configs in Hc. fold rows in Hc.
  apply declare_origin in Hc as [(c0 & (cf & -> & (row & -> & Hr)%list_elem_of_fmap)%list_elem_of_fmap & Hi & Hk & Hs)|Hs].
  - cbn in Hi, Hk, Hs. apply Hrows in Hr. rewrite Hs, Hk, Hi. pose proof (He (m_Key row)) as Her.
    unfold merged_row, key_included in Hr. rewrite bool_decide_eq_true_2 in Hr by done. cbn [orb] in Hr.
    destruct (last (filter (λ e, ce_Key e = m_Key row) _)) as [e|].
    + injection Hr as <-. cbn. exists e. split; [by apply Her|done].
    + apply fmap_Some in Hr as (g & _ & Hg). subst row. cbn.
      rewrite bool_decide_eq_false_2 by done. intros (e & Hrow%Her). done.
  - rewrite Hs. rewrite bool_decide_eq_false_2 by done. intros (e & Hr). pose proof (Hmerged _ _ Hr) as Hm.
    destruct Hr as (_ & _ & _ & Hke).
    assert (Hin : shown (page_config (merged_configuration (Feature.env_row e))) ∈ shown <$> page_configs uuid_NewSHA1 w feat env).
    { unfold page_configs. fold rows. rewrite (declare_all _ _ _ _ (NoDup_fst_map_to_list _)). apply elem_of_app. left.
      do 3 apply list_elem_of_fmap_2. apply Hrows. cbn [Feature.env_row m_Key]. by rewrite Hke. }
    apply list_elem_of_fmap in Hin as (c' & Heq & Hin'). unfold shown in Heq. cbn in Heq. injection Heq as Hk' _ Hs'.
    assert (c' = c) as -> by (eapply NoDup_fmap_inj_on; [apply page_configs_keys|done|done|congruence]).
    congruence.
Qed.

(** What an item of the page says about its row. *)
Definition item_of (i : ConfigItem) (c : PageConfig) : Prop :=
  ci_Key i = pc_Key c ∧ ci_ID i = uuid_String (pc_ID c) ∧ ci_Source i = pc_Source c ∧
  ci_IsConfigurable i = from_option (λ v, bool_decide (is_Some (v_Config v))) false (pc_Value c) ∧
  ci_IsComputed i = is_computed c.

Lemma items_of_page w order aud feat env items w' :
  w_faults w = [] → loadFeatureConfigItems uuid_String uuid_NewSHA1 order aud feat env w = (Ok items, w') →
  NoDup (ci_Key <$> items) ∧ ∀ i, i ∈ items → ∃ c, c ∈ page_configs uuid_NewSHA1 w feat env ∧ item_of i c.
Proof.
  intros Hf H. unfold loadFeatureConfigItems in H.
  rewrite (bind_run _ _ _ _ _ (GetEnvConfig_now w (f_Name feat) env Hf)) in H.
  fold (page_configs uuid_NewSHA1 w feat env) in H. set (cs := isort _ (page_configs uuid_NewSHA1 w feat env)) in H.
  apply bind_Ok in H as (rendered & w1 & _ & (gcs & w2 & _ & [= <- _])%bind_Ok).
  set (globalByKey := foldl _ ∅ gcs).
  assert (Hshow : ∀ m i, ci_Key (show_rendered m i) = ci_Key i ∧ ci_ID (show_rendered m i) = ci_ID i ∧
    ci_Source (show_rendered m i) = ci_Source i ∧ ci_IsConfigurable (show_rendered m i) = ci_IsConfigurable i ∧
    ci_IsComputed (show_rendered m i) = ci_IsComputed i).
  { intros m i. unfold show_rendered. destruct (_ || _ || _); [done|]. by destruct (ConfigItems.lookupHelmValue m _) as [[v []] h]. }
  assert (Hcs : NoDup (pc_Key <$> cs)) by (unfold cs; rewrite isort_perm; apply page_configs_keys).
  assert (Hin : ∀ c, c ∈ cs → c ∈ page_configs uuid_NewSHA1 w feat env) by (intros c; unfold cs; by rewrite elem_of_isort).
  split.
  - destruct rendered as [m|]; rewrite <-!list_fmap_compose; [|done].
    replace (_ <$> cs) with (pc_Key <$> cs); [done|]. apply list_fmap_ext. intros k c _. cbn.
    by destruct (Hshow m (page_item uuid_String feat globalByKey c)) as (-> & _).
  - intros i Hi. destruct rendered as [m|].
    + apply list_elem_of_fmap in Hi as (j & -> & (c & -> & Hc)%list_elem_of_fmap). exists c. split; [by apply Hin|].
      unfold item_of. by destruct (Hshow m (page_item uuid_String feat globalByKey c)) as (-> & -> & -> & -> & ->).
    + apply list_elem_of_fmap in Hi as (c & -> & Hc). exists c. split; [by apply Hin|done].
Qed.

(** ** The request *)

Context (marshalled : ∀ v text, form_Marshal v = Ok text → Marshal_RawMessage text = Ok text)
  (parsed_id : ∀ id, uuid_Parse (uuid_String id) = Ok id) (id_text : ∀ id, uuid_String id ≠ "").

(** What the item says of its row is so in [w]. *)
Definition item_row (env : uuid) (name : string) (w : world) (i : ConfigItem) : Prop :=
  if bool_decide (ci_Source i = "ENV")
  then ∃ e, is_env_row w name env (ci_Key i) e ∧ ci_ID i = uuid_String (ce_ID e) ∧ jsonb_text (ce_Value e) = ce_Value e
  else ¬ ∃ e, is_env_row w name env (ci_Key i) e.

(** The form has the four fields of the item. *)
Definition row_in_form (edits : string → option string) (r : http_request) (i : ConfigItem) : Prop :=
  PostFormValue r (BulkValueField (ci_Key i)) = default (ci_Value i) (edits (ci_Key i)) ∧
  PostFormValue r (BulkTypeField (ci_Key i)) = ci_Type i ∧
  PostFormValue r (BulkOrigField (ci_Key i)) = ci_Value i ∧
  PostFormValue r (BulkIDField (ci_Key i)) = update_id i.

Lemma key_saves edits p r env name feat i w :
  w_faults w = [] → server_wf w → sendable edits p i → row_in_form edits r i → item_row env name w i →
  match changed edits i with
  | None => batch_key actor env name feat r (ci_Key i) w = (Ok false, w)
  | Some raw => ∃ w', batch_key actor env name feat r (ci_Key i) w = (Ok true, w') ∧
      wrote env name (ci_Key i) (jsonb_text raw) w w'
  end.
Proof.
  intros Hf Hwf (_ & _ & _ & _ & Hs) (Hv & Ht & Ho & Hi) Hrow. unfold batch_key, changed. cbv zeta. rewrite Hv, Ho, Ht, Hi.
  destruct (edits (ci_Key i)) as [t|]; cbn [default from_option id]; [|by rewrite bool_decide_eq_true_2].
  case_bool_decide as Hsame; [done|]. destruct Hs as [_ [?|Hok]]; [done|]. unfold typed in *.
  destruct (ParseConfigValueAuto t (ci_Type i)) as [v|e|m]; [|done..]. cbn [obind] in *.
  destruct (form_Marshal v) as [raw|e|m] eqn:Em; [|done..].
  rewrite (bind_run _ _ w v w) by done. rewrite (bind_run _ _ w raw w) by (unfold wrapping, lift; by rewrite Em).
  unfold update_id, item_row in *. destruct (bool_decide (ci_Source i = "ENV")).
  - destruct Hrow as (e & Hr & Hid & Hj).
    destruct (update_writes actor (w_next_uuid w) env name (ci_Key i) e raw w Hf (sw_feature _ Hwf) Hr Hj) as (c & w' & Hu & Hw).
    exists w'. split; [|done]. rewrite Hid, bool_decide_eq_false_2 by done. cbn [negb].
    unfold wrapping, lift, mbind, M_bind. rewrite parsed_id. cbn [wrap]. by rewrite Hu.
  - destruct (create_writes actor env name (ci_Key i) raw (declared_secret feat (ci_Key i)) w Hf (marshalled _ _ Em) Hrow)
      as (c & w' & Hc & Hw).
    exists w'. split; [|done]. rewrite bool_decide_eq_true_2 by done. cbn [negb].
    unfold wrapping, mbind, M_bind. by rewrite Hc.
Qed.

Lemma configs_only_faults w w' : configs_only w w' → w_faults w' = w_faults w.
Proof. by intros (l & a & n & ->). Qed.

Lemma keys_save edits p r env name feat (l : list ConfigItem) w :
  NoDup (ci_Key <$> l) → (∀ i, i ∈ l → sendable edits p i ∧ row_in_form edits r i ∧ item_row env name w i) →
  w_faults w = [] → server_wf w →
  ∃ w', map_each (batch_key actor env name feat r) (ci_Key <$> l) w =
      (Ok ((λ i, bool_decide (is_Some (changed edits i))) <$> l), w') ∧
    configs_only w w' ∧ server_wf w' ∧
    (∀ i raw, i ∈ l → changed edits i = Some raw →
       ∃ e, is_env_row w' name env (ci_Key i) e ∧ ce_Value e = jsonb_text raw) ∧
    (∀ f' env' key' e, ¬ (f' = name ∧ env' = env ∧ ∃ i, i ∈ l ∧ ci_Key i = key' ∧ is_Some (changed edits i)) →
       is_env_row w' f' env' key' e ↔ is_env_row w f' env' key' e).
Proof.
  revert w. induction l as [|i l IH]; intros w Hnd Hl Hf Hwf.
  { exists w. split; [done|]. split; [apply configs_only_refl|]. split_and!; [done|by intros ? ? ?%elem_of_nil|done]. }
  rewrite fmap_cons in Hnd. apply NoDup_cons in Hnd as [Hi Hnd].
  destruct (Hl i) as (Hs & Hr & Hrow); [left|].
  pose proof (key_saves edits p r env name feat i w Hf Hwf Hs Hr Hrow) as Hkey.
  pose proof (safe_batch_key actor env name feat r (ci_Key i) w Hwf I) as (Hwf1 & _ & _).
  rewrite fmap_cons. cbn [map_each].
  assert (∃ w1, batch_key actor env name feat r (ci_Key i) w = (Ok (bool_decide (is_Some (changed edits i))), w1) ∧
    configs_only w w1 ∧
    (∀ raw, changed edits i = Some raw → ∃ e, is_env_row w1 name env (ci_Key i) e ∧ ce_Value e = jsonb_text raw) ∧
    ∀ f' env' key' e, (f', env', key') ≠ (name, env, ci_Key i) ∨ changed edits i = None →
      is_env_row w1 f' env' key' e ↔ is_env_row w f' env' key' e) as (w1 & H1 & Hc1 & Hnew & Hold).
  { destruct (changed edits i) as [raw|].
    - destruct Hkey as (w1 & -> & Hc & (e & He) & Ho). exists w1. split_and!; [done|done| |].
      + intros ? [= <-]. by exists e.
      + intros f' env' key' x [Hne|?]; [by apply Ho|done].
    - exists w. split_and!; [done|apply configs_only_refl|done|done]. }
  rewrite H1 in Hwf1. cbn in Hwf1. rewrite (bind_run _ _ _ _ _ H1).
  destruct (IH w1 Hnd) as (w' & H2 & Hc2 & Hwf2 & Hnew2 & Hold2);
    [|by rewrite (configs_only_faults _ _ Hc1)|done|].
  { intros j Hj. destruct (Hl j) as (Hsj & Hrj & Hrowj); [by right|]. split_and!; [done|done|].
    assert (Hji : ci_Key j ≠ ci_Key i) by (intros E; apply Hi; rewrite <-E; by apply list_elem_of_fmap_2).
    assert (Heq : ∀ e, is_env_row w1 name env (ci_Key j) e ↔ is_env_row w name env (ci_Key j) e)
      by (intros e; apply Hold; left; congruence).
    unfold item_row in *. destruct (bool_decide (ci_Source j = "ENV")).
    - destruct Hrowj as (e & He & H). exists e. split; [by apply Heq|done].
    - intros (e & He%Heq). apply Hrowj. by exists e. }
  exists w'. rewrite (bind_run _ _ _ _ _ H2). split; [done|]. split; [by eapply configs_only_trans|]. split; [done|]. split.
  - intros j raw [-> |Hj]%elem_of_cons Hraw; [|by apply Hnew2]. destruct (Hnew raw Hraw) as (e & He & Hv). exists e. split; [|done].
    apply Hold2; [|done]. intros (_ & _ & j & Hj & Hk & _). apply Hi. rewrite <-Hk. by apply list_elem_of_fmap_2.
  - intros f' env' key' e Hno. rewrite Hold2; [apply Hold|].
    + destruct (changed edits i) as [raw|] eqn:Ec; [left|by right]. intros [= -> -> ->]. apply Hno.
      split_and!; [done..|]. exists i. rewrite Ec. split_and!; [left|done|by eexists].
    + intros (? & ? & j & Hj & ? & ?). apply Hno. split_and!; [done..|]. exists j. split_and!; [by right|done..].
Qed.

(** *** The handler *)

Lemma WithTx_now {A} (m : IO A) w a w' :
  w_faults w = [] → w_faults w' = [] → m w = (Ok a, w') → WithTx false m w = (Ok a, w').
Proof.
  intros Hf Hf' Hm. unfold WithTx, WithTx_undo, wrapping, transaction. unfold mbind at 1, M_bind at 1.
  rewrite external_now by done. cbn. unfold mbind, M_bind. rewrite Hm. by rewrite external_now.
Qed.

Lemma page_run {A B} (m : page A) (f : A → page B) w a w1 : m w = (Ok (inr a), w1) → (m ≫= f) w = f a w1.
Proof. intros Hm. unfold mbind, page_bind. by rewrite Hm. Qed.

Lemma batch_runs r name tenant env feat flags w w' :
  w_faults w = [] → w_faults w' = [] → hr_valid_form r = true →
  GetTenantByName (URLParam r "tenant") w = (Ok tenant, w) → GetByName (t_ID tenant) (URLParam r "env") w = (Ok env, w) →
  URLParam r "feature" = name → FeatureForEnvironment (er_ID env) name w = (Ok feat, w) →
  map_each (batch_key actor (er_ID env) name feat r) (hr_post_form r BulkKeysField) w = (Ok flags, w') →
  BatchUpdateConfigHandler actor r w = (Ok (see_other (existsb id flags) (featureBasePath r +:+ "/config")), w').
Proof.
  intros Hf Hf' Hv Ht He Hn Hfeat Hmap. unfold BatchUpdateConfigHandler, reply_of.
  rewrite (page_run _ _ w tt w) by (unfold parsed_form, require; by rewrite Hv).
  rewrite (page_run _ _ w (tenant, env) w).
  2: { unfold page_environment. by rewrite (page_now _ _ _ _ _ Ht), (page_now _ _ _ _ _ He). }
  cbn [snd]. unfold page_feature. rewrite Hn, (page_now _ _ _ _ _ Hfeat).
  rewrite (page_run _ _ w flags w'); [done|]. unfold or_respond. by rewrite (WithTx_now _ _ _ _ Hf Hf' Hmap).
Qed.

(** *** The page *)

Lemma steady_page_status w env disabled name : w_faults w = [] → steady w (page_status env disabled name).
Proof. intros Hf. unfold page_status, or_empty. steady. by apply steady_status. Qed.

Lemma page_parts order aud slug envName name tab w p w' :
  w_faults w = [] → tab ≠ "assignments" →
  loadFeaturePageData uuid_String uuid_NewSHA1 Format order aud slug envName name tab w = (Ok p, w') →
  GetTenantByName slug w = (Ok (fp_Tenant p), w) ∧ GetByName (t_ID (fp_Tenant p)) envName w = (Ok (fp_Environment p), w) ∧
  FeatureForEnvironment (er_ID (fp_Environment p)) name w = (Ok (fp_Feature p), w) ∧
  loadFeatureConfigItems uuid_String uuid_NewSHA1 order aud (fp_Feature p) (er_ID (fp_Environment p)) w = (Ok (fp_ConfigItems p), w) ∧
  fp_TenantSlug p = slug.
Proof.
  intros Hf Htab H. unfold loadFeaturePageData in H. rewrite bool_decide_eq_false_2 in H by done. cbn [negb] in H.
  apply steady_bind in H as (tenant & Ht & H); [|by apply steady_query].
  apply steady_bind in H as (env & He & H); [|by apply steady_query].
  apply steady_bind in H as (feat & Hfeat & H); [|unfold FeatureForEnvironment; steady; by apply steady_winner].
  apply steady_bind in H as (dis & Hdis & H); [|unfold GetFeatureDisabledAt, none_if_no_rows; steady].
  apply steady_bind in H as (reason & Hreason & H);
    [|destruct dis.2; unfold LatestDisableReason, LatestDisableReason_query; steady].
  apply steady_bind in H as (envs & _ & H); [|by apply steady_LoadEnvironments].
  apply steady_bind in H as (status & _ & H); [|by apply steady_page_status].
  apply steady_bind in H as (items & Hitems & H); [|by apply steady_config].
  do 3 (apply bind_Ok in H as (? & ? & _ & H)). injection H as <- _. done.
Qed.

(** *** What is read again *)

Lemma FeatureForEnvironment_rewritten env f l a n w feat :
  w_faults w = [] → FeatureForEnvironment env f w = (Ok feat, w) →
  FeatureForEnvironment env f (rewritten l a n w) = (Ok feat, rewritten l a n w).
Proof.
  intros Hf. unfold FeatureForEnvironment, mostSpecificAssignment, ListFeatureAssignmentsForFeatureInEnvironment,
    wrapping, mbind, M_bind. rewrite !query_now by done.
  change (matching_rows (rewritten l a n w) env) with (matching_rows w env).
  cbn [wrap]. destruct (distinct_rows _) as [|row rows]; [done|].
  unfold lift. destruct (omapM row_assignment (row :: rows)) as [deps|e|m]; [|done..].
  destruct (fa_mostSpecificPerFeature deps); [done|]. by intros [= <-].
Qed.

(** The pages before and after are of the same feature in the same environment. *)
Lemma same_page order aud slug envName name tab w p l a n p' w'' :
  w_faults w = [] → tab ≠ "assignments" →
  loadFeaturePageData uuid_String uuid_NewSHA1 Format order aud slug envName name tab w = (Ok p, w) →
  loadFeaturePageData uuid_String uuid_NewSHA1 Format order aud slug envName name tab (rewritten l a n w) = (Ok p', w'') →
  loadFeatureConfigItems uuid_String uuid_NewSHA1 order aud (fp_Feature p) (er_ID (fp_Environment p)) (rewritten l a n w) =
    (Ok (fp_ConfigItems p'), rewritten l a n w).
Proof.
  intros Hf Htab H H'.
  destruct (page_parts _ _ _ _ _ _ _ _ _ Hf Htab H) as (Ht & He & Hfeat & _).
  destruct (page_parts _ _ _ _ _ _ (rewritten l a n w) _ _ Hf Htab H') as (Ht' & He' & Hfeat' & Hitems' & _).
  unfold GetTenantByName in Ht, Ht'. rewrite query_now in Ht by done. rewrite query_now in Ht' by done. cbn in Ht'.
  assert (fp_Tenant p' = fp_Tenant p) as Et by congruence. rewrite Et in He'.
  unfold GetByName in He, He'. rewrite query_now in He by done. rewrite query_now in He' by done. cbn in He'.
  assert (fp_Environment p' = fp_Environment p) as Ee by congruence. rewrite Ee in Hfeat', Hitems'.
  rewrite (FeatureForEnvironment_rewritten _ _ _ _ _ _ _ Hf Hfeat) in Hfeat'. injection Hfeat' as Efeat. rewrite Efeat. exact Hitems'.
Qed.

(** An item that is editable and not computed has its declaration. *)
Lemma editable_declared w n order aud feat env items i w' :
  w_faults w = [] → feature_wf (w_feature w) n →
  loadFeatureConfigItems uuid_String uuid_NewSHA1 order aud feat env w = (Ok items, w') →
  i ∈ items → editable i = true → ci_IsComputed i = false →
  ∃ val, f_Values (f_YAML feat) !! ci_Key i = Some val ∧ is_Some (v_Config val) ∧ v_Computed val = None.
Proof.
  intros Hf Hwf H Hi Hed Hnc. destruct (items_of_page _ _ _ _ _ _ _ Hf H) as [_ Hof].
  destruct (Hof i Hi) as (c & Hc & Hk & _ & _ & Hconf & Hcomp).
  unfold editable in Hed. apply andb_true_iff in Hed as [_ Hed]. rewrite Hed in Hconf. rewrite Hnc in Hcomp.
  unfold is_computed in Hcomp. destruct (pc_Value c) as [v|] eqn:Ev; [|done]. cbn in Hconf. symmetry in Hconf, Hcomp.
  apply bool_decide_eq_true in Hconf. apply bool_decide_eq_false in Hcomp. exists v. split_and!; [|done|].
  - rewrite Hk. apply elem_of_map_to_list.
    eapply (declared_value uuid_NewSHA1 feat _ _ c v); [|exact Hc|done]. by intros x (? & -> & _)%list_elem_of_fmap.
  - destruct (v_Computed v); [|done]. exfalso. apply Hcomp. by eexists.
Qed.

(** The stored value of another key is the same. *)
Lemma stored_same w w' f env key s :
  configs_only w w' → (∀ e, is_env_row w' f env key e ↔ is_env_row w f env key e) →
  ConfigItems.stored w f env key s → ConfigItems.stored w' f env key s.
Proof.
  intros (l & a & n & ->) Heq [(e & He & ->)|[Hne Hg]].
  - left. exists e. split; [by apply Heq|done].
  - right. split; [|exact Hg]. intros (e & He%Heq). apply Hne. by exists e.
Qed.

Lemma items_in_form order aud feat env items w w' :
  w_faults w = [] → server_wf w →
  (∀ e, e ∈ configurations_environment (w_feature w) → jsonb_text (ce_Value e) = ce_Value e) →
  loadFeatureConfigItems uuid_String uuid_NewSHA1 order aud feat env w = (Ok items, w') →
  ∀ i, i ∈ items → item_row env (f_Name feat) w i.
Proof.
  intros Hf Hwf Hjson H i Hi. destruct (items_of_page _ _ _ _ _ _ _ Hf H) as [_ Hof].
  destruct (Hof i Hi) as (c & Hc & Hk & Hid & Hsrc & _).
  pose proof (config_origin _ _ _ _ _ (sw_feature _ Hwf) Hc) as Ho. unfold item_row. rewrite Hsrc, Hk, Hid.
  destruct (bool_decide (pc_Source c = "ENV")); [|done]. destruct Ho as (e & He & <-). exists e. split_and!; [done..|].
  apply Hjson, He.
Qed.

(** An item whose key was written is shown with the new value, and another one as before. *)
Lemma item_after edits order aud feat env items items' i w w' w1 w2 :
  w_faults w = [] → server_wf w → server_wf w' → configs_only w w' →
  loadFeatureConfigItems uuid_String uuid_NewSHA1 order aud feat env w = (Ok items, w1) →
  loadFeatureConfigItems uuid_String uuid_NewSHA1 order aud feat env w' = (Ok items', w2) →
  i ∈ items → editable i = true → ci_IsComputed i = false →
  match changed edits i with
  | Some raw => ∃ e, is_env_row w' (f_Name feat) env (ci_Key i) e ∧ ce_Value e = jsonb_text raw
  | None => ∀ e, is_env_row w' (f_Name feat) env (ci_Key i) e ↔ is_env_row w (f_Name feat) env (ci_Key i) e
  end →
  ∃ i', filter (λ j, ci_Key j = ci_Key i) items' = [i'] ∧
    match changed edits i with
    | Some raw => ci_Value i' = RawValueForDisplay (jsonb_text raw) ∧ ci_Source i' = "ENV"
    | None => ci_Value i' = ci_Value i ∧ ci_Source i' = ci_Source i
    end.
Proof.
  intros Hf Hwf Hwf' Honly H H' Hin Hed Hnc Hrow.
  assert (Hf' : w_faults w' = []) by by rewrite (configs_only_faults _ _ Honly).
  destruct (items_of_page _ _ _ _ _ _ _ Hf H) as [Hkeys _].
  destruct (editable_declared _ _ _ _ _ _ _ _ _ Hf (sw_feature _ Hwf) H Hin Hed Hnc) as (val & Hval & Hconf & Hcomp).
  destruct (page_shows _ _ _ _ _ _ _ _ _ _ _ _ Hf (sw_feature _ Hwf) Hval Hconf Hcomp H) as (i0 & s & Hi0 & Hst & Hshow).
  destruct (page_shows _ _ _ _ _ _ _ _ _ _ _ _ Hf' (sw_feature _ Hwf') Hval Hconf Hcomp H') as (i' & s' & Hi' & Hst' & Hshow').
  assert (i0 = i) as -> by (rewrite (unique_filter ci_Key _ _ Hkeys Hin) in Hi0; by injection Hi0).
  exists i'. split; [done|]. destruct (changed edits i) as [raw|].
  - destruct Hrow as (e & Her & Hv).
    assert (Hst2 : ConfigItems.stored w' (f_Name feat) env (ci_Key i) (Some (jsonb_text raw, ConfigSourceEnv)))
      by (left; exists e; by rewrite Hv).
    rewrite (stored_unique _ _ _ _ _ _ _ (sw_feature _ Hwf') Hst' Hst2) in Hshow'. by destruct Hshow' as [-> ->].
  - rewrite (stored_unique _ _ _ _ _ _ _ (sw_feature _ Hwf') Hst' (stored_same _ _ _ _ _ _ Honly Hrow Hst)) in Hshow'.
    destruct Hshow as [-> ->], Hshow' as [-> ->]. done.
Qed.

Lemma existsb_flags {A} (f : A → bool) l : existsb id (f <$> l) = existsb f l.
Proof. induction l as [|x l IH]; [done|]. cbn. by rewrite IH. Qed.

(** C20.  Saving the table of configuration changes exactly what was edited: a user loads the
    page of a feature in an environment, changes some values, and the browser sends the form.
    Then every edited key has the typed value, as its type reads it, stored as the
    environment's own; no other row of configuration is touched, of this feature or another,
    and no other table but the audit log changes.  If nothing was edited nothing happens at
    all, and only an edit triggers a reconciliation.  When the page loads again, then of the
    keys that can be edited and are not computed it shows the edited ones with their new
    value and the others with the value and the source they had; what it shows of computed
    keys is not claimed, since their templates may refer to edited ones.  For texts that HTML
    carries, editors that send what they were given when they are left alone, typed values
    that can be read, and stored values in the form JSONB gives them. *)
Theorem bulk_edit_saves (forms : HtmlForms) order aud slug envName name tab edits r w p :
  w_faults w = [] → server_wf w →
  (∀ e, e ∈ configurations_environment (w_feature w) → jsonb_text (ce_Value e) = ce_Value e) →
  tab ≠ "assignments" →
  loadFeaturePageData uuid_String uuid_NewSHA1 Format order aud slug envName name tab w = (Ok p, w) →
  hr_valid_form r = true → URLParam r "tenant" = slug → URLParam r "env" = envName → URLParam r "feature" = name →
  (∀ field, hr_post_form r field = posted edits p field) →
  (∀ i, i ∈ fp_ConfigItems p → editable i = true → sendable edits p i) →
  let edited i := bool_decide (is_Some (changed edits i)) in
  let rows := filter (λ i, editable i = true) (fp_ConfigItems p) in
  ∃ w', BatchUpdateConfigHandler actor r w =
      (Ok (see_other (existsb edited rows) (featureBasePath r +:+ "/config")), w') ∧
    configs_only w w' ∧ (existsb edited rows = false → w' = w) ∧
    (∀ i raw, i ∈ rows → changed edits i = Some raw →
       ∃ e, is_env_row w' name (er_ID (fp_Environment p)) (ci_Key i) e ∧ ce_Value e = jsonb_text raw) ∧
    (∀ f' env' key e,
       ¬ (f' = name ∧ env' = er_ID (fp_Environment p) ∧ ∃ i, i ∈ rows ∧ ci_Key i = key ∧ is_Some (changed edits i)) →
       is_env_row w' f' env' key e ↔ is_env_row w f' env' key e) ∧
    ∀ p' w'', loadFeaturePageData uuid_String uuid_NewSHA1 Format order aud slug envName name tab w' = (Ok p', w'') →
      ∀ i, i ∈ rows → ci_IsComputed i = false →
        ∃ i', filter (λ j, ci_Key j = ci_Key i) (fp_ConfigItems p') = [i'] ∧
          match changed edits i with
          | Some raw => ci_Value i' = RawValueForDisplay (jsonb_text raw) ∧ ci_Source i' = "ENV"
          | None => ci_Value i' = ci_Value i ∧ ci_Source i' = ci_Source i
          end.
Proof.
  intros Hf Hwf Hjson Htab Hload Hvalid Hslug Henv Hname Hpost Hsend edited rows.
  destruct (page_parts _ _ _ _ _ _ _ _ _ Hf Htab Hload) as (Ht & He & Hfeat & Hitems & _).
  assert (Hfn : f_Name (fp_Feature p) = name).
  { unfold FeatureForEnvironment in Hfeat. apply bind_Ok in Hfeat as (dep & w1 & Hdep & [= <- _]).
    by eapply mostSpecificAssignment_name. }
  destruct (items_of_page _ _ _ _ _ _ _ Hf Hitems) as [Hkeys _].
  pose proof (items_in_form _ _ _ _ _ _ _ Hf Hwf Hjson Hitems) as Hrow. rewrite Hfn in Hrow.
  assert (Hrows : ∀ i, i ∈ rows → i ∈ fp_ConfigItems p ∧ editable i = true)
    by (intros i [? ?]%list_elem_of_filter; done).
  assert (Hs : ∀ i, i ∈ rows → sendable edits p i) by (intros i [? ?]%Hrows; by apply Hsend).
  destruct (keys_save edits p r (er_ID (fp_Environment p)) name (fp_Feature p) rows w) as (w' & Hmap & Honly & Hwf' & Hnew & Hold);
    [by apply NoDup_fmap_filter| |done|done|].
  { intros i Hi. split_and!; [by apply Hs|by eapply row_fields_sent|apply Hrow, Hrows, Hi]. }
  pose proof (keys_sent forms edits p r Hpost Hs) as Hsent. fold rows in Hsent.
  rewrite <-Hsent in Hmap. fold edited in Hmap. exists w'. split_and!.
  - rewrite <-existsb_flags. eapply batch_runs; try done; [by rewrite (configs_only_faults _ _ Honly)|by rewrite Hslug|by rewrite Henv].
  - done.
  - intros Hno. rewrite <-existsb_flags in Hno. by eapply batch_unchanged.
  - done.
  - done.
  - intros p' w'' Hload' i Hi Hnc. pose proof Honly as (l & a & n & ->). destruct (Hrows i Hi) as [Hin Hed].
    eapply (item_after edits); [exact Hf|exact Hwf|exact Hwf'|exact Honly|exact Hitems|by eapply same_page|done..|].
    rewrite Hfn. destruct (changed edits i) as [raw|] eqn:Ec; [by apply Hnew|].
    intros e. apply Hold. intros (_ & _ & j & Hj & Hk & Hc).
    assert (j = i) as -> by (eapply NoDup_fmap_inj_on; [exact Hkeys|apply Hrows, Hj|done|done]).
    by rewrite Ec in Hc; destruct Hc.
Qed.
End saving.

(** ** What an untouched form may change *)

Section faults.
Context `{json : FormJson} `{browser : Browser} (forms : HtmlForms).

(** A value of a switch that is neither [true] nor [false] selects no option, so the form
    sends the first one: saving another key sets this one to true. *)
Theorem untouched_bool_set item :
  ToUpper (ci_Type item) = "BOOL" → TrimSpace (ci_Value item) ≠ "" → ci_Value item ≠ "true" → ci_Value item ≠ "false" →
  submitted (bulkValueWidget item) None = "true".
Proof.
  intros Ht Hb H1 H2. unfold bulkValueWidget. rewrite bool_decide_eq_true_2 by done.
  unfold bool_options, Option. rewrite (bool_decide_eq_false_2 (TrimSpace _ = _)) by done.
  rewrite !bool_decide_eq_false_2 by congruence. by apply (hf_first forms).
Qed.

(** A text that begins with a newline comes back without it. *)
Theorem leading_newline_lost item v :
  ToUpper (ci_Type item) ∉ ["BOOL"; "INT"] → ci_Value item = newline +:+ v → carries v = true →
  submitted (bulkValueWidget item) None = v ∧ v ≠ ci_Value item.
Proof.
  intros Ht Hv Hc. unfold bulkValueWidget.
  rewrite !bool_decide_eq_false_2 by (intros E; rewrite E in Ht; set_solver).
  assert (IsMultilineValue (ci_Value item) = true) as -> by (rewrite Hv; by destruct v).
  rewrite Hv. split; [by apply (hf_area_newline forms)|]. intros E. apply (f_equal String.length) in E. cbn in E. lia.
Qed.

(** A secret is masked in the cell, and in clear in the cell's form. *)
Theorem secret_in_form id item :
  ci_IsSecret item = true → ci_HasValue item = true →
  bc_display (BulkConfigCell formID id item) = Masked ∧
  Hidden (BulkOrigField (ci_Key item)) (ci_Value item) ∈ bc_controls (BulkConfigCell formID id item).
Proof.
  intros Hs Hh. unfold BulkConfigCell. cbn. rewrite Hs, Hh. split; [done|]. do 3 right. left.
Qed.
End faults.

(** ** Examples *)

#[local] Existing Instances echo example_pg example_raw.

Definition plain_config (type : string) : Value :=
  {| v_Description := ""; v_DisplayName := ""; v_Required := false; v_Computed := None;
     v_Config := Some {| c_Type := type; c_Secret := false |}; v_IgnoreKind := [] |}.

#[local] Instance table_codec : FeatureCodec :=
  {| decode_Dependencies _ := Ok [];
     json_Unmarshal_Values _ := Ok {[ "replicas" := plain_config "INT"; "greeting" := plain_config "STRING" ]};
     decode_DefaultValues _ := Ok {[ "greeting" := "hello" ]} |}.
#[local] Instance table_objects : ObjectCodec := {| unmarshal_object _ := Ok ∅ |}.
#[local] Instance table_json : FormJson :=
  {| form_Unmarshal s := Ok (VStr s); form_Unmarshal_strings _ := Err (ErrString "not a list");
     form_Unmarshal_string _ := Err (ErrString "not a string");
     form_Marshal v := match v with VNum n => Ok n | VStr s => Ok s | _ => Err (ErrString "unsupported") end;
     form_Indent s := Ok s |}.
#[local] Instance table_scan : Scan := {| scan l := l |}.
#[local] Instance table_logs : LogScan := {| scan_logs l := l |}.

(** Identifiers of one letter and a tally. *)
Definition lettered (id : uuid) : string := String "i" (tally id).
#[local] Instance table_web : WebInput :=
  {| uuid_Parse s := match s with String _ s' => Ok (N.of_nat (String.length s')) | EmptyString => Err (ErrString "empty") end;
     referer_path _ := None; json_Unmarshal_labels _ l := (l, Some (ErrString "json")) |}.

Lemma lettered_parsed id : uuid_Parse (lettered id) = Ok id.
Proof.
  cbn. enough (String.length (tally id) = N.to_nat id) as -> by (by rewrite N2Nat.id).
  unfold tally. induction (N.to_nat id) as [|k IH]; [done|exact (f_equal S IH)].
Qed.

(** A browser. *)
Definition drop_newline (s : string) : string :=
  match s with String c s' => if bool_decide (c = "010"%char) then s' else s | EmptyString => "" end.
#[local] Instance table_browser : Browser :=
  {| carries s := negb (has_char "013" s);
     submitted c edit := match edit with
       | Some t => t
       | None => match c with
                 | Hidden _ v | TextInput _ v => v
                 | Textarea _ _ v => drop_newline v
                 | Select _ options =>
                     match filter (λ o, o.2 = true) options, options with
                     | (v, _) :: _, _ | [], (v, _) :: _ => v
                     | [], [] => ""
                     end
                 end
       end |}.

Lemma table_forms : HtmlForms.
Proof.
  split; try done.
  - intros n rows v _ Hs. destruct v as [|c v]; [done|]. cbn. case_bool_decide as Hc; [|done]. subst c. by destruct v.
  - intros n options v E. cbn [submitted table_browser]. by rewrite E.
  - intros n options v E. cbn [submitted table_browser]. by rewrite E.
Qed.

Definition table_page : IO FeaturePage :=
  loadFeaturePageData lettered (λ _, 0%N) (λ _, "2006") [] "" "nav" "dev" "app" "overview".

Definition replicas_edit (key : string) : option string := if bool_decide (key = "replicas") then Some "3" else None.

Definition table_request (p : FeaturePage) : http_request :=
  {| hr_valid_form := true; hr_form := posted replicas_edit p; hr_post_form := posted replicas_edit p;
     hr_param k := if bool_decide (k = "tenant") then "nav" else if bool_decide (k = "env") then "dev" else "app";
     hr_header _ := ""; hr_body := "" |}.

(** The page has the two keys, and the request can be sent. *)
Lemma table_sendable p w :
  table_page example_world = (Ok p, w) →
  w = example_world ∧ Forall (sendable replicas_edit p) (fp_ConfigItems p) ∧
  existsb (λ i, bool_decide (is_Some (changed replicas_edit i))) (filter (λ i, editable i = true) (fp_ConfigItems p)) = true ∧
  ∃ i, i ∈ filter (λ i, editable i = true) (fp_ConfigItems p) ∧ ci_IsComputed i = false ∧ ci_Key i = "replicas" ∧
    changed replicas_edit i = Some "3".
Proof.
  intros E. vm_compute in E. injection E as <- <-. split; [reflexivity|]. split; [|split].
  - apply Forall_cons. split; [|apply Forall_cons; split; [|apply Forall_nil]]; try done;
      unfold sendable; vm_compute; split_and!; try reflexivity; by right.
  - vm_compute. reflexivity.
  - eexists. split; [cbn; right; left|]. vm_compute. done.
Qed.

(** The page can be loaded again. *)
Lemma table_reloads p w rp w' :
  table_page example_world = (Ok p, w) → BatchUpdateConfigHandler "me" (table_request p) example_world = (Ok rp, w') →
  ∃ p', table_page w' = (Ok p', w').
Proof.
  intros E H. vm_compute in E. injection E as <- <-. vm_compute in H. injection H as _ <-.
  match goal with |- ∃ _, table_page ?w = _ => destruct (table_page w) as [[p'|e|m] w2] eqn:E2 end;
    vm_compute in E2; [|discriminate E2..].
  injection E2 as <- <-. eexists. reflexivity.
Qed.

Lemma bulk_edit_saves_witness :
  ∃ p w' p' i', table_page example_world = (Ok p, example_world) ∧
    BatchUpdateConfigHandler "me" (table_request p) example_world =
      (Ok (see_other true "/features/app/envs/nav/dev/config"), w') ∧
    table_page w' = (Ok p', w') ∧ filter (λ j, ci_Key j = "replicas") (fp_ConfigItems p') = [i'] ∧
    ci_Value i' = "3" ∧ ci_Source i' = "ENV".
Proof.
  destruct (table_page example_world) as [[p|e|m] w1] eqn:E; [|vm_compute in E; discriminate E..].
  destruct (table_sendable p w1 E) as (-> & Hsend & Hch & i & Hi & Hnc & Hk & Hc). rewrite Forall_forall in Hsend.
  destruct (bulk_edit_saves (raw_json := example_raw) "me" lettered (λ _, 0%N) (λ _, "2006") (λ _ _ _, eq_refl)
    lettered_parsed (λ _ H, ltac:(discriminate H)) table_forms [] "" "nav" "dev" "app" "overview" replicas_edit
    (table_request p) example_world p eq_refl System.example_world_server_wf (λ _ _, eq_refl) ltac:(discriminate) E
    eq_refl eq_refl eq_refl eq_refl (λ _, eq_refl) (λ i Hi _, Hsend i Hi)) as (w' & Hh & _ & _ & _ & _ & Hshow).
  destruct (table_reloads p _ _ w' E Hh) as [p' E2]. rewrite Hch in Hh.
  destruct (Hshow p' w' E2 i Hi Hnc) as (i' & Hi' & H). rewrite Hc in H. rewrite Hk in Hi'. destruct H as [Hv Hs].
  exists p, w', p', i'. split_and!; [reflexivity|exact Hh|exact E2|exact Hi'|rewrite Hv; reflexivity|exact Hs].
Defined.
