(* ===== verification/EnvironmentPage.v ===== *)
(** * ui/pages/environment/environment.go: the page of an environment

    What the handler reads and how the page shows it, on four tabs: the features of the
    environment with their status, its values, the Helm releases the agent has reported, and
    its details.  A release without a matching assignment is marked and can be uninstalled;
    the handler of that form is [Pages.UninstallReleaseHandler].  The creation times of
    tenants and environments, and those of releases, are not in the tables of the model: the
    former are arguments, the columns of the latter are left out. *)

From S2P Require Import Winning Preview Pages PageFacts FeaturePage Labels ConfigTable.
From S2P Require Listings System.
From S2P Require Import GoStd.

(** ** What is read *)

Record MetadataItem := {
  md_Key : string; md_Value : string; md_IsSecret : bool; md_ReferencedBy : option (list string);
}.

Record environmentFeatureRow := {
  nf_Name : string; nf_Status : string; nf_StatusMessage : string; nf_Version : string; nf_LastSuccessful : time;
}.

(** A release, and whether it is installed without a matching assignment. *)
Record releaseRow := { rr_Name : string; rr_Release : ReleaseStatusRow; rr_Orphaned : bool }.

Definition environmentHealthyThreshold : duration := 60 * Second.
Definition environmentStaleThreshold : duration := 5 * Minute.

Definition environmentTabDetails : string := "details".
Definition environmentTabFeatures : string := "features".
Definition environmentTabValues : string := "values".
Definition environmentTabHelm : string := "helm".

Definition environmentTab (tab : string) : string :=
  if bool_decide (tab ∈ [environmentTabDetails; environmentTabValues; environmentTabFeatures; environmentTabHelm])
  then tab else environmentTabFeatures.

Definition addMetadata (items : list MetadataItem) (key value : string) : list MetadataItem :=
  if bool_decide (value = "") then items
  else items ++ [{| md_Key := key; md_Value := value; md_IsSecret := false; md_ReferencedBy := None |}].

Definition addMetadataBool (items : list MetadataItem) (key : string) (value : bool) : list MetadataItem :=
  items ++ [{| md_Key := key; md_Value := if value then "true" else "false"; md_IsSecret := false;
               md_ReferencedBy := None |}].

Section reading.
Context `{ext : External} `{pg : Postgres} `{codec : FeatureCodec} `{json : FormJson} `{sc : Scan}
  (uuid_String : uuid → string) (Format : time → string) (tenant_created : uuid → time)
  (env_created env_modified : uuid → time) (unmarshal_details : string → outcome (list string * list string * list string)).

Definition getEnvironmentMetadata (env : EnvironmentRow) : list MetadataItem :=
  let metadata := addMetadata [] "ID" (uuid_String (er_ID env)) in
  let metadata := addMetadata metadata "Name" (er_Name env) in
  let metadata := match er_Description env with
                  | Some description => addMetadata metadata "Description" description | None => metadata end in
  let metadata := addMetadata metadata "Kind" (er_Kind env) in
  let metadata := addMetadata metadata "Created" (FormatTime Format (env_created (er_ID env))) in
  let metadata := addMetadata metadata "Last Modified" (FormatTime Format (env_modified (er_ID env))) in
  addMetadataBool metadata "Reconcile" (er_Reconcile env).

Definition gcpProjectIDFromValues (values : list EnvironmentValueRow) : string :=
  match find (λ v, bool_decide (ev_Key v = "project_id") && negb (ev_Secret v)) values with
  | Some v => RawValueForDisplay (ev_Value v)
  | None => ""
  end.

Definition feature_row (env : EnvironmentRow) (statuses : gmap string EnvironmentFeatureStatus)
    (latest deployed : gmap string Instruction) (feature : EnvironmentFeature) : environmentFeatureRow :=
  let (status, message) :=
    if negb (er_Reconcile env) || ef_FeatureDisabled feature then ("DISABLED", "")
    else match statuses !! ef_Name feature with
         | Some s => if bool_decide (efs_Status s = "") then ("UNKNOWN", "")
                     else (NormalizeStatus (efs_Status s), efs_Message s)
         | None => ("UNKNOWN", "")
         end in
  {| nf_Name := ef_Name feature; nf_Status := status; nf_StatusMessage := message;
     nf_Version := from_option in_FeatureVersion "" (latest !! ef_Name feature);
     nf_LastSuccessful := from_option in_LastModified time_zero (deployed !! ef_Name feature) |}.

Definition loadEnvironmentFeatureRows (env : EnvironmentRow) : IO (list environmentFeatureRow) :=
  features ← ListEnvironmentFeatures (er_ID env);
  statuses ← (if er_Reconcile env then FeatureStatusesForEnvironment (er_ID env) else mret ∅
              : IO (gmap string EnvironmentFeatureStatus));
  latest ← LatestDeployInstructionsForEnvironment (er_ID env);
  deployed ← LatestDeployedForEnvironment (er_ID env);
  mret (isort (λ a b, String.leb (nf_Name a) (nf_Name b)) (feature_row env statuses latest deployed <$> features)).

Definition buildReleaseRows (envID : uuid) (releases : list (string * ReleaseStatusRow)) : IO (list releaseRow) :=
  assignments ← ListForEnvironment envID;
  let desired : gset string := list_to_set ((λ a, f_Name (fa_Feature a)) <$> assignments) in
  mret ((λ rel, {| rr_Name := rel.1; rr_Release := rel.2; rr_Orphaned := bool_decide (rel.1 ∉ desired) |}) <$> releases).

Definition countOrphans (releases : list releaseRow) : nat := length (filter (λ r, rr_Orphaned r = true) releases).

(** The instant of the last report; one before the year 2000 is none. *)
Definition loadEnvironmentHealth (environmentID : uuid) : IO (option time) :=
  health ← Health_Get environmentID;
  mret (if (Listings.year_2000 <=? health)%Z then Some health else None).

Record environment_data := {
  vd_Tenant : TenantRow; vd_Environment : EnvironmentRow; vd_Metadata : list MetadataItem; vd_Tab : string;
  vd_Tenants : list string; vd_Environments : list string; vd_Labels : Labels; vd_Values : list EnvironmentValueRow;
  vd_Refs : gmap string (list string); vd_ProjectID : string; vd_Email : string;
  vd_Features : list environmentFeatureRow; vd_Releases : list releaseRow; vd_Health : option time;
}.

Definition environment_Handler (tenantSlug envName tab email : string) : page environment_data :=
  tenant ← or_respond (GetTenantByName tenantSlug) (fails StatusInternalServerError "Failed to load environment: ");
  env ← or_respond (GetByName (t_ID tenant) envName) (fails StatusInternalServerError "Failed to load environment: ");
  featureRows ← or_respond (loadEnvironmentFeatureRows env)
    (fails StatusInternalServerError "Failed to load environment: ");
  allTenants ← or_respond (Listings.ListTenants tenant_created)
    (fails StatusInternalServerError "Failed to load tenants: ");
  tenantEnvs ← or_respond (List_environments (t_ID tenant))
    (fails StatusInternalServerError "Failed to load tenant environments: ");
  labels ← or_respond (GetLabels (er_ID env))
    (fails StatusInternalServerError "Failed to load environment labels: ");
  envValues ← or_respond (ListEnvironmentValuesForEnvironment (er_ID env) true)
    (fails StatusInternalServerError "Failed to load environment values: ");
  valueRefs ← or_respond (GetEnvironmentValueReferences unmarshal_details (er_ID env))
    (fails StatusInternalServerError "Failed to load environment value references: ");
  releases ← or_respond (ListReleaseStatuses (er_ID env))
    (fails StatusInternalServerError "Failed to load environment: ");
  releaseRows ← or_respond (buildReleaseRows (er_ID env) releases)
    (fails StatusInternalServerError "Failed to load environment: ");
  health ← or_respond (loadEnvironmentHealth (er_ID env))
    (fails StatusInternalServerError "Failed to load environment: ");
  mret {| vd_Tenant := tenant; vd_Environment := env; vd_Metadata := getEnvironmentMetadata env;
          vd_Tab := environmentTab tab; vd_Tenants := t_Name <$> allTenants; vd_Environments := er_Name <$> tenantEnvs;
          vd_Labels := labels; vd_Values := envValues; vd_Refs := valueRefs;
          vd_ProjectID := gcpProjectIDFromValues envValues; vd_Email := email; vd_Features := featureRows;
          vd_Releases := releaseRows; vd_Health := health |}.
End reading.

(** ** What is shown *)

Definition plural (n : nat) : string := if bool_decide (n = 1%nat) then "" else "s".

(** A number of references, with their names as a tooltip. *)
Definition refs_badge (refs : list string) : string * string :=
  (Join refs ", ", pretty (length refs) +:+ (" ref" +:+ plural (length refs))).

Definition metadataValue (item : MetadataItem) : value_node * option (string * string) :=
  (if md_IsSecret item then Masked else ShownText (md_Value item), refs_badge <$> md_ReferencedBy item).

Definition sortedKeys (m : Labels) : list string := sort_strings (map_to_list m).*1.

(** A text, or one in its place that is muted. *)
Definition textOrMuted (value fallback : string) : bool * string :=
  if bool_decide (value = "") then (true, fallback) else (false, value).

Definition environment_base (tenantName environmentName : string) : string :=
  "/tenants/" +:+ (tenantName +:+ ("/envs/" +:+ environmentName)).

Definition fmtOrphans (n : nat) : string :=
  pretty n +:+ (" orphaned release" +:+ (plural n +:+ " installed without a matching feature assignment")).

(** A link of the sidebar, its text with a badge, and whether it is the page shown. *)
Record nav_item := { nv_href : string; nv_text : string; nv_badge : option (string * string); nv_active : bool }.

Definition environmentSidebar (tenantName environmentName activeTab : string) (orphanCount : nat) : list nav_item :=
  let base := environment_base tenantName environmentName in
  let item tab text badge :=
    {| nv_href := base +:+ ("?tab=" +:+ tab); nv_text := text; nv_badge := badge;
       nv_active := bool_decide (activeTab = tab) |} in
  [item environmentTabFeatures "Features" None; item environmentTabValues "Values" None;
   item environmentTabHelm "Helm Releases"
     (if (0 <? orphanCount)%nat then Some (fmtOrphans orphanCount, pretty orphanCount) else None);
   item environmentTabDetails "Details" None].

Definition LocalDevEmail : string := "local-dev@fasit".

Definition gcpProjectHref (projectID userEmail : string) : string :=
  "https://console.cloud.google.com/welcome?project=" +:+ (projectID +:+
    (if negb (bool_decide (userEmail = "")) && negb (bool_decide (userEmail = LocalDevEmail)) && Contains userEmail "@"
     then "&authuser=" +:+ QueryEscape userEmail else "")).

Definition naisdHealthBucket (health : option time) (now : time) : string * string :=
  match health with
  | None => ("status-error", "no report")
  | Some reportedAt =>
      let age := time_since now reportedAt in
      if (age <? environmentHealthyThreshold)%Z then ("status-success", "healthy")
      else if (age <? environmentStaleThreshold)%Z then ("status-error", "stale")
      else ("status-error", "dead")
  end.

Definition naisdHealthIcon (label : string) : string :=
  if bool_decide (label = "healthy") then "✓"
  else if bool_decide (label = "stale") then "×" else if bool_decide (label = "dead") then "×" else "?".

Definition naisdHealthTitle (label : string) : string :=
  if bool_decide (label = "no report") then "No Naisd report" else "Naisd is " +:+ label.

(** The labels, the project with its link, whether the environment is reconciled, and the
    class, title and text of the agent's badge. *)
Record environment_summary := {
  sy_Labels : list string; sy_Project : option (string * string); sy_Reconcile : string; sy_Naisd : string * string * string;
}.

Definition environmentSummaryNodes (environment : EnvironmentRow) (labels : Labels) (gcpProjectID userEmail : string)
    (health : option time) (now : time) : environment_summary :=
  let '(class, label) := naisdHealthBucket health now in
  {| sy_Labels := (λ k, k +:+ (": " +:+ default "" (labels !! k))) <$> sortedKeys labels;
     sy_Project := if bool_decide (gcpProjectID = "") then None
                   else Some (gcpProjectHref gcpProjectID userEmail, gcpProjectID);
     sy_Reconcile := if er_Reconcile environment then "Reconcile: on" else "Reconcile: off";
     sy_Naisd := ("status-badge " +:+ class, naisdHealthTitle label, naisdHealthIcon label +:+ " naisd") |}.

Definition line_break : string := " \" +:+ (newline +:+ "  ").

Definition naisdInstallCommand (tenantName : string) (environment : EnvironmentRow) (gcpProjectID : string) : string :=
  let gcpProjectID := if bool_decide (gcpProjectID = "") then "<gcp-project-id>" else gcpProjectID in
  let management := if bool_decide (er_Kind environment = EnvironmentKindManagement) then "true" else "false" in
  let lines :=
    ["helm install naisd oci://europe-north1-docker.pkg.dev/nais-io/nais/feature/naisd";
     "--namespace nais-system";
     "--create-namespace";
     "--set tenantName=" +:+ tenantName;
     "--set env=" +:+ er_Name environment;
     "--set envProjectId=" +:+ gcpProjectID;
     "--set deploySubscription=naisd-fasit-" +:+ er_Name environment;
     "--set management=" +:+ management] in
  let lines := if bool_decide (er_Kind environment = EnvironmentKindOnprem)
               then lines ++ ["--set google.useServiceAccountKey=true";
                              "--set-file google.serviceAccountKey=<naisd service account key.json>"]
               else lines in
  Join lines line_break.

(** The command is shown until the agent has reported. *)
Definition naisdBootstrapCard (tenant : TenantRow) (environment : EnvironmentRow) (gcpProjectID : string)
    (health : option time) : option string :=
  match health with
  | Some _ => None
  | None => Some (naisdInstallCommand (t_Name tenant) environment gcpProjectID)
  end.

(** The form of a button: its address, and the script that asks before it is sent. *)
Definition uninstallCell (tenantName environmentName : string) (release : releaseRow) : option (string * string) :=
  if negb (rr_Orphaned release) || bool_decide (rr_Name release = "naisd") || bool_decide (rr_Name release = "fasitd")
  then None
  else Some (environment_base tenantName environmentName +:+ ("/releases/" +:+ (rr_Name release +:+ "/uninstall")),
             "return confirm('Uninstall " +:+ (rr_Name release +:+ (" from " +:+ (tenantName +:+ ("/" +:+ (environmentName +:+
               "? This runs helm uninstall in the environment.')")))))).

Record release_line := {
  rn_Name : string; rn_Orphaned : bool; rn_Status : string; rn_Version : bool * string; rn_LastDeployed : time;
  rn_Revision : Z; rn_Uninstall : option (string * string);
}.

(** The note on releases without assignment, and the table. *)
Definition helmReleasesCard (tenantName environmentName : string) (releases : list releaseRow)
    : option string * list release_line :=
  let releases := isort (λ a b, String.leb (rr_Name a) (rr_Name b)) releases in
  let orphanCount := countOrphans releases in
  (if (0 <? orphanCount)%nat
   then Some (pretty orphanCount +:+ (" release" +:+ (plural orphanCount +:+
                " installed without a matching feature assignment.")))
   else None,
   (λ release,
     {| rn_Name := rr_Name release; rn_Orphaned := rr_Orphaned release; rn_Status := rs_Status (rr_Release release);
        rn_Version := textOrMuted (rs_Version (rr_Release release)) "unknown";
        rn_LastDeployed := rs_LastDeployed (rr_Release release); rn_Revision := rs_Revision (rr_Release release);
        rn_Uninstall := uninstallCell tenantName environmentName release |}) <$> releases).

(** The link of a feature, its tooltip and status, its version, and when it was deployed. *)
Record feature_line := {
  fl_href : string; fl_Name : string; fl_Title : option string; fl_Status : option (string * string) * string;
  fl_Version : bool * string; fl_Deployed : time;
}.

Definition environmentFeaturesCard (tenantName environmentName : string) (features : list environmentFeatureRow)
    : list feature_line :=
  (λ feature,
    {| fl_href := featureBasePathValues tenantName environmentName (nf_Name feature); fl_Name := nf_Name feature;
       fl_Title := some_text (nf_StatusMessage feature); fl_Status := View.Status (nf_Status feature);
       fl_Version := textOrMuted (nf_Version feature) "unknown"; fl_Deployed := nf_LastSuccessful feature |}) <$> features.

Section showing.
Context `{json : FormJson} (Format : time → string).

Definition environmentValuesCard (envValues : list EnvironmentValueRow) (valueRefs : gmap string (list string))
    : list (string * value_node * option (string * string)) :=
  (λ val,
    let refs := default [] (valueRefs !! ev_Key val) in
    (ev_Key val, if ev_Secret val then Masked else ShownText (RawValueForDisplay (ev_Value val)),
     match refs with [] => None | _ => Some (refs_badge refs) end)) <$> envValues.

(** The agent's health: class, icon, title, and the report with its tooltip. *)
Definition naisdHealthOverviewItem (health : option time) (now : time)
    : string * string * string * (option string * string) :=
  let '(class, label) := naisdHealthBucket health now in
  ("environment-health-item " +:+ class, naisdHealthIcon label, naisdHealthTitle label,
   match health with
   | Some t => (Some (FormatTime Format t), "Reported " +:+ RelativeTime Format now t)
   | None => (None, "No health report has been received for this environment.")
   end).

Record details_card := {
  dt_Health : string * string * string * (option string * string);
  dt_Metadata : list (string * (value_node * option (string * string)));
  dt_Project : option (string * string * string); dt_Labels : list (string * string);
}.

Definition environmentDetailsCard (d : environment_data) (now : time) : details_card :=
  {| dt_Health := naisdHealthOverviewItem (vd_Health d) now;
     dt_Metadata := (λ item, (md_Key item, metadataValue item)) <$> vd_Metadata d;
     dt_Project := if bool_decide (vd_ProjectID d = "") then None
                   else Some (vd_ProjectID d, gcpProjectHref (vd_ProjectID d) (vd_Email d),
                              "Open GCP project " +:+ vd_ProjectID d);
     dt_Labels := (λ k, (k, default "" (vd_Labels d !! k))) <$> sortedKeys (vd_Labels d) |}.

Inductive tab_content :=
  | ValuesTab (rows : list (string * value_node * option (string * string)))
  | FeaturesTab (rows : list feature_line)
  | HelmTab (note : option string) (rows : list release_line)
  | DetailsTab (details : details_card).

Definition environmentTabContent (d : environment_data) (now : time) : tab_content :=
  let tenantName := t_Name (vd_Tenant d) in
  let environmentName := er_Name (vd_Environment d) in
  if bool_decide (vd_Tab d = environmentTabValues) then ValuesTab (environmentValuesCard (vd_Values d) (vd_Refs d))
  else if bool_decide (vd_Tab d = environmentTabFeatures)
  then FeaturesTab (environmentFeaturesCard tenantName environmentName (vd_Features d))
  else if bool_decide (vd_Tab d = environmentTabHelm)
  then let (note, rows) := helmReleasesCard tenantName environmentName (vd_Releases d) in HelmTab note rows
  else if bool_decide (vd_Tab d = environmentTabDetails) then DetailsTab (environmentDetailsCard d now)
  else FeaturesTab (environmentFeaturesCard tenantName environmentName (vd_Features d)).

Record environment_content := {
  co_Sidebar : list nav_item; co_Summary : environment_summary; co_Bootstrap : option string; co_Tab : tab_content;
}.

Definition environment_page (d : environment_data) (now : time) : environment_content :=
  let tenantName := t_Name (vd_Tenant d) in
  let environmentName := er_Name (vd_Environment d) in
  {| co_Sidebar := environmentSidebar tenantName environmentName (vd_Tab d) (countOrphans (vd_Releases d));
     co_Summary := environmentSummaryNodes (vd_Environment d) (vd_Labels d) (vd_ProjectID d) (vd_Email d) (vd_Health d) now;
     co_Bootstrap := naisdBootstrapCard (vd_Tenant d) (vd_Environment d) (vd_ProjectID d) (vd_Health d);
     co_Tab := environmentTabContent d now |}.
End showing.

(** ** What can be uninstalled *)

Lemma page_steady {A B} w (m : IO A) k (f : A → page B) b w' :
  steady w m → (or_respond m k ≫= f) w = (Ok (inr b), w') → ∃ a, m w = (Ok a, w) ∧ f a w = (Ok (inr b), w').
Proof.
  intros Hm. unfold mbind, page_bind, or_respond. destruct (m w) as [[a|e|p] w1] eqn:E; [|done..].
  pose proof (steady_run _ _ _ _ Hm E) as ->. intros H. by exists a.
Qed.

Section uninstalling.
Context `{ext : External} `{pg : Postgres} `{codec : FeatureCodec} `{json : FormJson} `{sc : Scan}
  (actor : string) (uuid_String : uuid → string) (Format : time → string) (tenant_created env_created env_modified : uuid → time)
  (unmarshal_details : string → outcome (list string * list string * list string))
  (jsonb_total : ∀ x y, jsonb_leb x y = true ∨ jsonb_leb y x = true)
  (jsonb_trans : ∀ x y z, jsonb_leb x y = true → jsonb_leb y z = true → jsonb_leb x z = true).

Lemma steady_ListForEnvironment w envID : w_faults w = [] → steady w (ListForEnvironment envID).
Proof. intros Hf. unfold ListForEnvironment, ListFeatureAssignmentsForEnvironment. steady. Qed.

Lemma steady_feature_rows w env : w_faults w = [] → steady w (loadEnvironmentFeatureRows env).
Proof.
  intros Hf. unfold loadEnvironmentFeatureRows, ListEnvironmentFeatures, FeatureStatusesForEnvironment,
    AllReconcileStatuses, ListAllDecisionStatuses, ListAllDeployStatuses, LatestDeployInstructionsForEnvironment, LatestDeployedForEnvironment,
    ListLatestDeployInstructionsForEnvironment, ListLatestDeployedForEnvironment,
    ListForEnvironment, ListFeatureAssignmentsForEnvironment.
  steady.
Qed.

(** The parts of a page that was loaded. *)
Lemma handler_parts w slug envName tab email d w' :
  w_faults w = [] →
  environment_Handler uuid_String Format tenant_created env_created env_modified unmarshal_details slug envName tab email w =
    (Ok (inr d), w') →
  w' = w ∧ GetTenantByName slug w = (Ok (vd_Tenant d), w) ∧
  GetByName (t_ID (vd_Tenant d)) envName w = (Ok (vd_Environment d), w) ∧
  loadEnvironmentFeatureRows (vd_Environment d) w = (Ok (vd_Features d), w) ∧
  (∃ releases, ListReleaseStatuses (er_ID (vd_Environment d)) w = (Ok releases, w) ∧
    buildReleaseRows (er_ID (vd_Environment d)) releases w = (Ok (vd_Releases d), w)) ∧
  loadEnvironmentHealth (er_ID (vd_Environment d)) w = (Ok (vd_Health d), w).
Proof.
  intros Hf H. unfold environment_Handler in H.
  apply page_steady in H as (tenant & Ht & H); [|by apply steady_query].
  apply page_steady in H as (env & He & H); [|by apply steady_query].
  apply page_steady in H as (rows & Hrows & H); [|by apply steady_feature_rows].
  apply page_steady in H as (tenants & _ & H); [|by apply steady_query].
  apply page_steady in H as (envs & _ & H); [|by apply steady_query].
  apply page_steady in H as (labels & _ & H); [|by apply steady_query].
  apply page_steady in H as (values & _ & H); [|by apply steady_query].
  apply page_steady in H as (refs & _ & H);
    [|unfold GetEnvironmentValueReferences; steady; by apply steady_ListForEnvironment].
  apply page_steady in H as (releases & Hrel & H); [|by apply steady_query].
  apply page_steady in H as (rels & Hb & H); [|unfold buildReleaseRows; steady; by apply steady_ListForEnvironment].
  apply page_steady in H as (health & Hh & H); [|unfold loadEnvironmentHealth, Health_Get; steady].
  injection H as <- <-. split_and!; try done. by exists releases.
Qed.

Lemma omapM_members {A B} (f : A → outcome B) l k :
  omapM f l = Ok k → (∀ b, b ∈ k → ∃ a, a ∈ l ∧ f a = Ok b) ∧ (∀ a, a ∈ l → ∃ b, b ∈ k ∧ f a = Ok b).
Proof.
  rewrite omapM_Forall2. induction 1 as [|a b l k Hab H [IH1 IH2]]; [by split; intros ? ?%elem_of_nil|].
  split; intros x [->|Hx]%elem_of_cons.
  - exists a. split; [by left|done].
  - destruct (IH1 x Hx) as (y & Hy & Hf). exists y. split; [by right|done].
  - exists b. split; [by left|done].
  - destruct (IH2 x Hx) as (y & Hy & Hf). exists y. split; [by right|done].
Qed.

(** The rows that match an environment are the snapshot's with matching labels. *)
Lemma matching_latest w e r :
  NoDup (er_ID <$> environments (w_env w)) → e ∈ environments (w_env w) →
  r ∈ distinct_rows (matching_rows w (er_ID e)) ↔ r ∈ latest_assignments w ∧ label_match (er_Labels e) r.
Proof.
  intros Hu He. set (n := ar_FeatureName (la_assignment r)).
  assert (Hn : ∀ l, r ∈ l ↔ r ∈ filter (λ r, ar_FeatureName (la_assignment r) = n) l)
    by (intros l; rewrite list_elem_of_filter; unfold n; tauto).
  rewrite (Hn (distinct_rows _)), <-(distinct_rows_filter jsonb_total jsonb_trans) by by intros ?? ->.
  rewrite (winning_rows jsonb_total jsonb_trans) by done. rewrite <-Hn, list_elem_of_filter. tauto.
Qed.

(** A feature has an assignment among those of the environment exactly if some assignment of
    the snapshot has its name and a target the environment's labels satisfy. *)
Lemma desired_matched w e deps ws w' name :
  w_faults w = [] → NoDup (er_ID <$> environments (w_env w)) → e ∈ environments (w_env w) →
  (∀ a, a ∈ feature_assignments (w_feature w) → ∀ k, ar_Target a !! k ≠ Some "") →
  omapM assignmentFromRow (latest_assignments w) = Ok deps → ListForEnvironment (er_ID e) w = (Ok ws, w') →
  (∃ a, a ∈ ws ∧ f_Name (fa_Feature a) = name) ↔
  ∃ d, d ∈ deps ∧ f_Name (ra_Feature d) = name ∧ labelsContain (er_Labels e) (ra_TargetLabels d) = true.
Proof.
  intros Hf Hu He Hne Hdeps Hws. destruct (ListForEnvironment_now _ _ _ _ Hf Hws) as (_ & rows & fas & Hrows & Hfas & ->).
  destruct (omapM_members _ _ _ Hdeps) as [Hd1 Hd2]. destruct (omapM_members _ _ _ Hfas) as [Hf1 Hf2].
  assert (Hname : ∀ r d, assignmentFromRow r = Ok d →
    f_Name (ra_Feature d) = ar_FeatureName (la_assignment r) ∧ ra_TargetLabels d = ar_Target (la_assignment r))
    by (intros r d H; unfold assignmentFromRow in H; inv_ok; done).
  assert (Hwin : ∀ p fa, p ∈ rows → (let! dep := row_assignment p.1 in
      Ok {| fa_ID := fa_ID dep; fa_Feature := fa_Feature dep; fa_Description := fa_Description dep;
            fa_TargetLabels := fa_TargetLabels dep; fa_Created := fa_Created dep; fa_Active := fa_Active dep;
            fa_GHRef := fa_GHRef dep; fa_FeatureDisabled := p.2 |}) = Ok fa →
      f_Name (fa_Feature fa) = ar_FeatureName (la_assignment p.1)).
  { intros p fa Hp (dep & Hdep & [= <-])%obind_Ok. cbn. rewrite (row_assignment_name _ _ Hdep).
    apply matching_rows_joined with w (er_ID e). apply elem_of_distinct_rows. rewrite <-Hrows. by apply list_elem_of_fmap_2. }
  assert (Hlab : ∀ r, r ∈ latest_assignments w → label_match (er_Labels e) r ↔ labelsContain (er_Labels e) (ar_Target (la_assignment r)) = true).
  { intros r Hr. unfold label_match. rewrite jsonb_contains_labels; [done|]. apply Hne. by apply rows_joined in Hr as [? _]. }
  split.
  - intros (a & Ha & Hn). apply pick_winners_wins in Ha as (Ha & _ & _). apply Hf1 in Ha as (p & Hp & Hfa).
    pose proof (Hwin p a Hp Hfa) as Hpn.
    assert (Hr : p.1 ∈ distinct_rows (matching_rows w (er_ID e))) by (rewrite <-Hrows; by apply list_elem_of_fmap_2).
    apply matching_latest in Hr as [Hr Hm]; [|done..]. destruct (Hd2 _ Hr) as (d & Hd & Hrd).
    destruct (Hname _ _ Hrd) as [Hdn Hdt]. exists d. rewrite Hdn, Hdt, <-Hpn. split_and!; [done|done|by apply Hlab].
  - intros (d & Hd & Hn & Hm). destruct (Hd1 _ Hd) as (r & Hr & Hrd). destruct (Hname _ _ Hrd) as [Hdn Hdt].
    rewrite Hdt in Hm. apply Hlab in Hm; [|done].
    assert (Hin : r ∈ rows.*1) by (rewrite Hrows; by apply matching_latest).
    apply list_elem_of_fmap in Hin as (p & -> & Hp). destruct (Hf2 _ Hp) as (fa & Hfa & Hpf).
    destruct (pick_winners_total fas fa Hfa) as (win & Hwi & Hwn). exists win. split; [done|].
    change (f_Name (fa_Feature win) = f_Name (fa_Feature fa)) in Hwn. rewrite Hwn, (Hwin p fa Hp Hpf). congruence.
Qed.

(** A row for every reported release, marked when no assignment of its name applies. *)
Lemma release_rows_spec w envID releases rows :
  w_faults w = [] → ListReleaseStatuses envID w = (Ok releases, w) → buildReleaseRows envID releases w = (Ok rows, w) →
  ∃ ws, ListForEnvironment envID w = (Ok ws, w) ∧ ∀ row, row ∈ rows ↔
    release_statuses (w_rec w) !! (envID, rr_Name row) = Some (rr_Release row) ∧
    (rr_Orphaned row = true ↔ ¬ (∃ a, a ∈ ws ∧ f_Name (fa_Feature a) = rr_Name row)).
Proof.
  intros Hf Hl Hb. unfold ListReleaseStatuses in Hl. rewrite query_now in Hl by done. injection Hl as <-.
  unfold buildReleaseRows in Hb. apply steady_bind in Hb as (ws & Hws & Hb); [|by apply steady_ListForEnvironment].
  injection Hb as <-. exists ws. split; [done|]. intros row. rewrite list_elem_of_fmap. split.
  - intros ([name rel] & -> & Hin). apply elem_of_isort, list_elem_of_fmap in Hin as ([[id n] v] & [= -> ->] & Hin).
    apply list_elem_of_filter in Hin as [[= ->] Hin%elem_of_map_to_list]. cbn in *. split; [done|].
    rewrite bool_decide_eq_true, elem_of_list_to_set, list_elem_of_fmap. naive_solver.
  - intros (Hr & Ho). exists (rr_Name row, rr_Release row). split.
    + destruct row as [n rel o]. cbn in *. f_equal. apply Bool.eq_iff_eq_true. rewrite Ho, bool_decide_eq_true.
      rewrite elem_of_list_to_set, list_elem_of_fmap. naive_solver.
    + apply elem_of_isort, list_elem_of_fmap. exists ((envID, rr_Name row), rr_Release row). split; [done|].
      apply list_elem_of_filter. split; [done|]. by apply elem_of_map_to_list.
Qed.

(** What is sent to uninstall a release. *)
Definition uninstall_instruction (diid : uuid) (name : string) : DeployInstruction :=
  {| di_ID := diid; di_Name := name; di_Version := ""; di_Chart := ""; di_ConfigHash := ""; di_Timeout := 0;
     di_Values := None; di_Uninstall := true |}.

Lemma Uninstall_now w tenantName envName name :
  w_faults w = [] → name ∉ ["naisd"; "fasitd"; ""] →
  Reconciler_Uninstall (Some pubSubDeployer) tenantName envName name w = (Ok (w_next_uuid w),
    set_published (λ l, l ++ [(naisdTopicID tenantName envName, uninstall_instruction (w_next_uuid w) name)])
      (set_w_next_uuid N.succ w)).
Proof.
  intros Hf Hn. unfold Reconciler_Uninstall.
  rewrite !bool_decide_eq_false_2 by (unfold protectedReleases; intros ?; apply Hn; set_solver). cbn [orb].
  cbn [Uninstall pubSubDeployer]. unfold uuid_New, pubSub_Uninstall, mbind, M_bind.
  rewrite (Publish_run _ _ "null") by done. unfold next_fault. cbn. by rewrite Hf.
Qed.

(** Submitting the form sends one instruction, whatever is assigned. *)
Lemma uninstall_runs w r tenant env :
  w_faults w = [] → GetTenantByName (URLParam r "tenant") w = (Ok tenant, w) →
  GetByName (t_ID tenant) (URLParam r "env") w = (Ok env, w) → URLParam r "release" ∉ ["naisd"; "fasitd"; ""] →
  ∃ w', UninstallReleaseHandler actor (Some (Some pubSubDeployer)) uuid_String r w =
      (Ok (see_other false (environment_base (URLParam r "tenant") (URLParam r "env") +:+ "?tab=helm")), w') ∧
    published w' = published w ++ [(naisdTopicID (t_Name tenant) (er_Name env),
      uninstall_instruction (w_next_uuid w) (URLParam r "release"))] ∧
    w_env w' = w_env w ∧ w_feature w' = w_feature w ∧ w_rec w' = w_rec w ∧ w_now w' = w_now w ∧ w_faults w' = [].
Proof.
  intros Hf Ht He Hn. unfold UninstallReleaseHandler, reply_of. eexists. split.
  - rewrite (page_run _ _ w (tenant, env) w)
      by (unfold page_environment; by rewrite (page_now _ _ _ _ _ Ht), (page_now _ _ _ _ _ He)).
    rewrite (page_run _ _ w (Some pubSubDeployer) w) by done. cbn [fst snd].
    erewrite page_run by (unfold or_respond; by rewrite Uninstall_now).
    erewrite page_run by (unfold or_respond, audit_Create; by rewrite exec_now).
    unfold environment_base. rewrite <-!str_app_assoc. reflexivity.
  - by split_and!.
Qed.

(** The rows of the table with a button. *)
Lemma offered_rows tenantName envName releases name :
  (∃ row, row ∈ (helmReleasesCard tenantName envName releases).2 ∧ rn_Name row = name ∧ is_Some (rn_Uninstall row)) ↔
  ∃ row, row ∈ releases ∧ rr_Name row = name ∧ rr_Orphaned row = true ∧ name ∉ ["naisd"; "fasitd"].
Proof.
  assert (Hcell : ∀ row, is_Some (uninstallCell tenantName envName row) ↔
    rr_Orphaned row = true ∧ rr_Name row ∉ ["naisd"; "fasitd"]).
  { intros row. unfold uninstallCell. destruct (rr_Orphaned row); cbn; [|by split; [intros []|intros []]].
    do 2 case_bool_decide; cbn; (split; [intros []; try done|intros [_ Hx]]); try (by eexists); try (by destruct Hx; set_solver).
    split; [done|]. set_solver. }
  unfold helmReleasesCard. cbn [snd]. split.
  - intros (line & (row & -> & Hrow%elem_of_isort)%list_elem_of_fmap & Hn & Hu). cbn in Hn, Hu. apply Hcell in Hu as [Ho Hx].
    exists row. by rewrite <-Hn.
  - intros (row & Hrow & Hn & Ho & Hx). eexists. split; [apply list_elem_of_fmap_2, elem_of_isort, Hrow|].
    cbn. split; [done|]. apply Hcell. by rewrite Hn.
Qed.

(** C22.  A page of an environment offers to uninstall exactly the releases the agent has
    reported for which the reconciler, at that moment, has no assignment: none of its
    snapshot's assignments of that name has a target the environment's labels satisfy;
    except for the agents themselves, which are never offered.  Submitting such a form
    answers with the page of releases and sends exactly one instruction, to the
    environment's agent, to uninstall that release; no table changes but the audit log.
    For the case that no query fails and no target label is the empty string, which Go and
    SQL match differently. *)
Theorem uninstall_offered aud w snap w1 slug envName tab email d w2 :
  w_faults w = [] → NoDup (er_ID <$> environments (w_env w)) →
  (∀ a, a ∈ feature_assignments (w_feature w) → ∀ k, ar_Target a !! k ≠ Some "") →
  fetchSnapshot aud w = (Ok snap, w1) →
  environment_Handler uuid_String Format tenant_created env_created env_modified unmarshal_details slug envName tab email w =
    (Ok (inr d), w2) →
  let env := vd_Environment d in
  let rows := (helmReleasesCard (t_Name (vd_Tenant d)) (er_Name env) (vd_Releases d)).2 in
  w2 = w ∧ ∀ name,
    let offered := ∃ row, row ∈ rows ∧ rn_Name row = name ∧ is_Some (rn_Uninstall row) in
    (offered ↔ is_Some (release_statuses (w_rec w) !! (er_ID env, name)) ∧ (name ∉ ["naisd"; "fasitd"]) ∧
       ∀ a, a ∈ s_assignments snap → f_Name (ra_Feature a) = name →
         labelsContain (er_Labels env) (ra_TargetLabels a) = false) ∧
    (offered → name ≠ "" → ∀ r,
       URLParam r "tenant" = slug → URLParam r "env" = envName → URLParam r "release" = name →
       ∃ w', UninstallReleaseHandler actor (Some (Some pubSubDeployer)) uuid_String r w =
           (Ok (see_other false (environment_base slug envName +:+ "?tab=helm")), w') ∧
         published w' = published w ++ [(naisdTopicID slug envName, uninstall_instruction (w_next_uuid w) name)] ∧
         w_env w' = w_env w ∧ w_feature w' = w_feature w ∧ w_rec w' = w_rec w).
Proof.
  intros Hf Hu Hne Hs Hpage env rows.
  destruct (handler_parts _ _ _ _ _ _ _ Hf Hpage) as (-> & Ht & He & _ & (releases & Hl & Hb) & _). fold env in He, Hl, Hb.
  split; [done|]. intros name offered.
  destruct (release_rows_spec _ _ _ _ Hf Hl Hb) as (ws & Hws & Hrows).
  apply fetchSnapshot_parts in Hs as [Hdeps _].
  destruct (found_environment _ _ _ _ _ Hf Ht He) as (te & _ & _ & _ & Htn & _).
  assert (Hin : env ∈ environments (w_env w) ∧ er_Name env = envName ∧ t_Name (vd_Tenant d) = slug).
  { unfold GetTenantByName, GetByName in *. rewrite query_now in Ht by done. rewrite query_now in He by done. injection Ht as Ht. injection He as He.
    apply single_Ok, list_elem_of_filter in Ht as [Hn _]. by apply single_Ok, list_elem_of_filter in He as [[_ ?] ?]. }
  destruct Hin as (Hin & Hen & Htname).
  pose proof (desired_matched w env _ ws w name Hf Hu Hin Hne Hdeps Hws) as Hwin.
  assert (Hoff : offered ↔ ∃ row, row ∈ vd_Releases d ∧ rr_Name row = name ∧ rr_Orphaned row = true ∧ name ∉ ["naisd"; "fasitd"])
    by apply offered_rows.
  assert (Hmain : offered ↔ is_Some (release_statuses (w_rec w) !! (er_ID env, name)) ∧ (name ∉ ["naisd"; "fasitd"]) ∧
      ∀ a, a ∈ s_assignments snap → f_Name (ra_Feature a) = name →
        labelsContain (er_Labels env) (ra_TargetLabels a) = false).
  { rewrite Hoff. split.
    - intros (row & [Hr Ho]%Hrows & Hn & Horph & Hp). rewrite Hn in Hr, Ho. split_and!; [by rewrite Hr|done|].
      intros a Ha Han. apply not_true_is_false. intros Hm. apply Ho in Horph. apply Horph, Hwin. by exists a.
    - intros ([rel Hr] & Hp & Hno). exists {| rr_Name := name; rr_Release := rel; rr_Orphaned := true |}.
      split_and!; [|done..]. apply Hrows. split; [done|]. split; [|done]. intros _ Hx%Hwin.
      destruct Hx as (a & Ha & Han & Hm). by rewrite (Hno a Ha Han) in Hm. }
  split; [exact Hmain|]. intros (_ & Hp & _)%Hmain Hne' r Hrt Hre Hrn.
  rewrite <-Hrt in Ht. rewrite <-Hre in He. destruct (uninstall_runs w r _ _ Hf Ht He) as (w' & Hh & Hpub & H1 & H2 & H3 & _).
  { rewrite Hrn. intros Hx. apply Hp. set_solver. }
  rewrite Hrt, Hre in Hh. rewrite Htname, Hen, Hrn in Hpub. by exists w'.
Qed.

Lemma filter_one {A} (f : A → string) l x : NoDup (f <$> l) → x ∈ l → filter (λ y, f y = f x) l = [x].
Proof.
  induction l as [|y l IH]; [by intros _ ?%elem_of_nil|]. rewrite fmap_cons, NoDup_cons. intros [Hy Hl] [->|Hx]%elem_of_cons.
  - rewrite filter_cons, decide_True by done. f_equal. apply filter_none. intros z Hz E. apply Hy. rewrite <-E. by apply list_elem_of_fmap_2.
  - rewrite filter_cons, decide_False; [by apply IH|]. intros E. apply Hy. rewrite E. by apply list_elem_of_fmap_2.
Qed.

(** *** The table of features and the page of a feature *)

(** The winners of an environment, with their switches. *)
Lemma ListForEnvironment_flags w envID ws w' a :
  w_faults w = [] → ListForEnvironment envID w = (Ok ws, w') → a ∈ ws →
  fa_FeatureDisabled a = bool_decide (is_Some (disabled_features (w_feature w) !! (envID, f_Name (fa_Feature a)))).
Proof.
  intros Hf H Ha. unfold ListForEnvironment, ListFeatureAssignmentsForEnvironment in H.
  unfold wrapping, mbind, M_bind in H. rewrite query_now in H by done. cbn [wrap] in H. unfold lift in H.
  destruct (featureAssignmentsFromRows _) as [deps|e|p] eqn:Ed; [|done..]. injection H as <- <-.
  apply pick_winners_wins in Ha as (Ha & _ & _). apply omapM_members in Ed as [Ed _].
  apply Ed in Ha as (p & (r & -> & Hr)%list_elem_of_fmap & (dep & Hdep & [= <-])%obind_Ok). cbn in *.
  rewrite (row_assignment_name _ _ Hdep), (matching_rows_joined w envID r); [done|]. by apply elem_of_distinct_rows.
Qed.

Lemma feature_row_name env statuses latest deployed feature :
  nf_Name (feature_row env statuses latest deployed feature) = ef_Name feature.
Proof. unfold feature_row. by destruct (if _ : bool then _ else _). Qed.

(** The rows of the table: one for each feature of the environment. *)
Lemma feature_rows_of w env rows w' :
  w_faults w = [] → loadEnvironmentFeatureRows env w = (Ok rows, w') →
  ∃ ws statuses latest deployed, ListForEnvironment (er_ID env) w = (Ok ws, w) ∧
    (if er_Reconcile env then FeatureStatusesForEnvironment (er_ID env) w = (Ok statuses, w) else statuses = ∅) ∧
    LatestDeployInstructionsForEnvironment (er_ID env) w = (Ok latest, w) ∧
    LatestDeployedForEnvironment (er_ID env) w = (Ok deployed, w) ∧
    rows ≡ₚ (λ a, feature_row env statuses latest deployed
      {| ef_Name := f_Name (fa_Feature a); ef_FeatureDisabled := fa_FeatureDisabled a |}) <$> ws.
Proof.
  intros Hf H. unfold loadEnvironmentFeatureRows in H.
  apply steady_bind in H as (features & Hfe & H); [|unfold ListEnvironmentFeatures; steady; by apply steady_ListForEnvironment].
  apply steady_bind in H as (statuses & Hst & H).
  2: { destruct (er_Reconcile env); [|steady]. unfold FeatureStatusesForEnvironment, AllReconcileStatuses,
       ListAllDecisionStatuses, ListAllDeployStatuses. steady. by apply steady_ListForEnvironment. }
  apply steady_bind in H as (latest & Hla & H);
    [|unfold LatestDeployInstructionsForEnvironment, ListLatestDeployInstructionsForEnvironment; steady].
  apply steady_bind in H as (deployed & Hde & [= <- _]);
    [|unfold LatestDeployedForEnvironment, ListLatestDeployedForEnvironment; steady].
  unfold ListEnvironmentFeatures in Hfe. apply steady_bind in Hfe as (ws & Hws & [= <-]); [|by apply steady_ListForEnvironment].
  exists ws, statuses, latest, deployed. split_and!; [done| |done|done|].
  - destruct (er_Reconcile env); [done|]. by injection Hst as <-.
  - rewrite isort_perm, isort_perm, <-list_fmap_compose. done.
Qed.

Context `{obj : ObjectCodec} `{ls : LogScan} (uuid_NewSHA1 : string → uuid).

(** What the page of a feature says of its status. *)
Lemma page_status_of order aud slug envName name tab w p w' :
  w_faults w = [] →
  loadFeaturePageData uuid_String uuid_NewSHA1 Format order aud slug envName name tab w = (Ok p, w') →
  ∃ tenant dep, GetTenantByName slug w = (Ok tenant, w) ∧ GetByName (t_ID tenant) envName w = (Ok (fp_Environment p), w) ∧
    WinningAssignment (er_ID (fp_Environment p)) name w = (Ok dep, w) ∧
    page_status (fp_Environment p) (bool_decide (is_Some (disabled_features (w_feature w) !! (er_ID (fp_Environment p), name)))) name w =
      (Ok (fp_Status p, fp_StatusMessage p), w).
Proof.
  intros Hf H. unfold loadFeaturePageData in H.
  apply steady_bind in H as (tenant & Ht & H); [|by apply steady_query].
  apply steady_bind in H as (env & He & H); [|by apply steady_query].
  apply steady_bind in H as (feat & Hfeat & H); [|unfold FeatureForEnvironment; steady; by apply steady_winner].
  unfold FeatureForEnvironment in Hfeat. apply steady_bind in Hfeat as (dep & Hdep & _); [|by apply steady_winner].
  rewrite (bind_run _ _ _ _ _ (GetFeatureDisabledAt_now _ _ _ Hf)) in H.
  apply steady_bind in H as (reason & _ & H);
    [|destruct (disabled_features _ !! _); unfold LatestDisableReason, LatestDisableReason_query; steady].
  apply steady_bind in H as (envs & _ & H); [|by apply steady_LoadEnvironments].
  apply steady_bind in H as (status & Hs & H); [|by apply steady_page_status].
  do 4 (apply bind_Ok in H as (? & ? & _ & H)). injection H as <- _. cbn. exists tenant, dep.
  split_and!; [done|done|done|]. destruct status. destruct (disabled_features _ !! _); exact Hs.
Qed.

(** The table of an environment's features says what the page of each of them says: when no
    query fails and both pages load, the feature has exactly one row, with the status and
    message of its page; where the page has no status the row says [UNKNOWN].  For current
    rows that name at most one row per assignment and environment. *)
Theorem feature_rows_agree w slug envName tab email d w2 order aud name ptab p w3 :
  w_faults w = [] →
  NoDup ((λ r, (cl_FeatureAssignmentID r, cl_EnvironmentID r)) <$> (map_to_list (decision_current (w_rec w))).*2) →
  NoDup ((λ r, (dl_FeatureAssignmentID r, dl_EnvironmentID r)) <$> (map_to_list (deploy_current (w_rec w))).*2) →
  environment_Handler uuid_String Format tenant_created env_created env_modified unmarshal_details slug envName tab email w =
    (Ok (inr d), w2) →
  loadFeaturePageData uuid_String uuid_NewSHA1 Format order aud slug envName name ptab w = (Ok p, w3) →
  ∃ row, filter (λ r, nf_Name r = name) (vd_Features d) = [row] ∧
    (nf_Status row = fp_Status p ∨ fp_Status p = "" ∧ nf_Status row = "UNKNOWN") ∧
    nf_StatusMessage row = fp_StatusMessage p.
Proof.
  intros Hf Hdec Hdep Hpage Hload.
  destruct (handler_parts _ _ _ _ _ _ _ Hf Hpage) as (-> & Ht & He & Hrows & _).
  destruct (page_status_of _ _ _ _ _ _ _ _ _ Hf Hload) as (tenant & win & Ht' & He' & Hwin & Hps).
  assert (tenant = vd_Tenant d) as -> by congruence.
  assert (Henv : fp_Environment p = vd_Environment d) by congruence. rewrite Henv in *.
  destruct (feature_rows_of _ _ _ _ Hf Hrows) as (ws & statuses & latest & deployed & Hws & Hst & _ & _ & Hperm).
  destruct (WinningAssignment_now jsonb_total jsonb_trans _ _ _ _ _ Hf Hwin) as (_ & fas & Hfas & Hin).
  destruct (ListForEnvironment_now _ _ _ _ Hf Hws) as (_ & rows & deps & Hr & Hd & Hwsd).
  destruct (winner_in_batch _ _ _ _ _ _ _ Hr Hd Hfas Hin) as (a & Ha & Hname & Hid). rewrite <-Hwsd in Ha.
  pose proof (ListForEnvironment_flags _ _ _ _ _ Hf Hws Ha) as Hflag. rewrite Hname in Hflag.
  set (row := feature_row (vd_Environment d) statuses latest deployed
    {| ef_Name := f_Name (fa_Feature a); ef_FeatureDisabled := fa_FeatureDisabled a |}).
  assert (Hrow : row ∈ vd_Features d) by (rewrite Hperm; apply list_elem_of_fmap; by exists a).
  assert (Hnames : NoDup (nf_Name <$> vd_Features d)).
  { rewrite Hperm, <-list_fmap_compose, Hwsd. erewrite list_fmap_ext; [exact (pick_winners_names deps)|].
    intros i x _. apply feature_row_name. }
  assert (Hrn : nf_Name row = name) by (rewrite <-Hname; apply feature_row_name).
  exists row. split; [rewrite <-Hrn; by apply (filter_one nf_Name _ row)|].
  unfold row, feature_row. cbn [ef_Name ef_FeatureDisabled]. rewrite Hflag, Hname.
  unfold page_status in Hps. destruct (negb (er_Reconcile (vd_Environment d)) || _) eqn:Eoff.
  { injection Hps as <- <-. cbn. by split; [left|]. }
  apply orb_false_iff in Eoff as [Ere%negb_false_iff _]. rewrite Ere in Hst.
  destruct (ReconcileStatuses_now w (fa_ID win) Hf) as (sts & Hsts & Hnorm).
  assert (Hone : FeatureStatusForEnvironment (er_ID (vd_Environment d)) name w =
    (Ok (default {| efs_Status := ""; efs_Message := "" |} (status_in (er_ID (vd_Environment d)) sts)), w)).
  { unfold FeatureStatusForEnvironment. by rewrite (bind_run _ _ _ _ _ Hwin), (bind_run _ _ _ _ _ Hsts). }
  pose proof (FeatureStatusesForEnvironment_agrees jsonb_total jsonb_trans _ _ _ _ _ _ _ Hf Hdec Hdep Hst Hone) as Hs.
  unfold or_empty, attempt, mbind, M_bind in Hps. rewrite Hone in Hps. cbn in Hps.
  destruct (statuses !! name) as [s|]; cbn in Hs; rewrite Hs in Hps; cbn in Hps; [|by injection Hps as <- <-; split; [right|]].
  destruct (bool_decide (efs_Status s = "")) eqn:Es; cbn in Hps; injection Hps as <- <-; cbn; (split; [|done]); [by right|left].
  destruct (status_in (er_ID (vd_Environment d)) sts) as [s'|] eqn:E; cbn in Hs; subst s; [|done].
  apply efs_Status_set in E as (x & Hx & ->). apply find_some in Hx as [Hx _]. apply Hnorm. by apply list_elem_of_In.
Qed.

(** *** The agent's badge *)

(** The page and the list of environments give an agent the same label, and the same class
    unless it is stale: the list shows that as pending, the page as an error. *)
Theorem stale_badge_differs row now :
  let list := Listings.agentHealth row now in
  let page := naisdHealthBucket (Listings.nv_Report row) now in
  list.2 = page.2 ∧ (list.2 = "stale" → list.1 = "status-pending" ∧ page.1 = "status-error") ∧
  (list.2 ≠ "stale" → list.1 = page.1).
Proof.
  unfold Listings.agentHealth, naisdHealthBucket, environmentHealthyThreshold, environmentStaleThreshold,
    Listings.healthyThreshold, Listings.staleThreshold.
  destruct (Listings.nv_Report row) as [t|]; [|done].
  destruct (_ <? 60 * Second)%Z; [done|]. by destruct (_ <? 5 * Minute)%Z.
Qed.

(** *** The reconciler does not notice *)

(** A computation that answers alike in two worlds and changes neither. *)
Definition alike {A} (w w' : world) (m : IO A) : Prop := ∃ o, m w = (o, w) ∧ m w' = (o, w').

Lemma alike_query {A} w w' (f : world → outcome A) :
  w_faults w = [] → w_faults w' = [] → f w' = f w → alike w w' (query f).
Proof. intros Hf Hf' E. exists (f w). by rewrite !query_now, E. Qed.

Lemma alike_lift {A} w w' (o : outcome A) : alike w w' (lift o).
Proof. by exists o. Qed.

Lemma alike_ret {A} w w' (a : A) : alike w w' (mret (M := IO) a).
Proof. by exists (Ok a). Qed.

Lemma alike_bind {A B} w w' (m : IO A) (f : A → IO B) :
  alike w w' m → (∀ a, alike w w' (f a)) → alike w w' (m ≫= f).
Proof.
  intros (o & E & E') Hf. unfold alike, mbind, M_bind. rewrite E, E'. destruct o as [a|e|p]; [apply Hf|by eexists..].
Qed.

Lemma alike_wrapping {A} w w' s (m : IO A) : alike w w' m → alike w w' (wrapping s m).
Proof. intros (o & E & E'). unfold alike, wrapping. rewrite E, E'. by eexists. Qed.

(** The reconciler reads only the tables. *)
Lemma alike_fetchSnapshot aud w w' :
  w_faults w = [] → w_faults w' = [] → w_env w' = w_env w → w_feature w' = w_feature w → w_rec w' = w_rec w →
  alike w w' (fetchSnapshot aud).
Proof.
  intros Hf Hf' He Hft Hr.
  assert (Hte : tenant_environments w' = tenant_environments w) by (unfold tenant_environments, join_tenant; by rewrite He).
  assert (Hds : deploy_status w' = deploy_status w) by (unfold deploy_status; by rewrite Hr).
  assert (Hla : latest_assignments w' = latest_assignments w) by (unfold latest_assignments, join_data; by rewrite Hft).
  unfold fetchSnapshot, buildGlobalConfigMap, buildEnvConfigMap, buildEnvValues, ListAllTenantEnvironments,
    ListHealthStatuses, ListLatestFeatureAssignments, ListDisabledFeatures, ListAllGlobalConfigs, ListAllEnvConfigs,
    ListAllEnvironmentValues, ListLatestDeploys, ListDeployedFeatures.
  repeat first [apply alike_ret | apply alike_lift | apply alike_wrapping
    | apply alike_query; [done|done|by rewrite ?Hte, ?Hds, ?Hla, ?He, ?Hft, ?Hr]
    | apply alike_bind; [|intros ?]].
Qed.

(** The handler does not ask whether the release is assigned, although it is meant for those
    that are not: also a release that is wanted is uninstalled, for example from a page
    loaded before it was assigned.  The next reconciliation then reads the snapshot it would
    have read anyway, in which the release is recorded as deployed. *)
Theorem uninstall_unnoticed aud w snap slug envName tenant env name r :
  w_faults w = [] → fetchSnapshot aud w = (Ok snap, w) →
  GetTenantByName slug w = (Ok tenant, w) → GetByName (t_ID tenant) envName w = (Ok env, w) →
  name ∉ ["naisd"; "fasitd"; ""] →
  URLParam r "tenant" = slug → URLParam r "env" = envName → URLParam r "release" = name →
  ∃ w', UninstallReleaseHandler actor (Some (Some pubSubDeployer)) uuid_String r w =
      (Ok (see_other false (environment_base slug envName +:+ "?tab=helm")), w') ∧
    published w' = published w ++ [(naisdTopicID (t_Name tenant) (er_Name env), uninstall_instruction (w_next_uuid w) name)] ∧
    fetchSnapshot aud w' = (Ok snap, w').
Proof.
  intros Hf Hs Ht He Hn <- <- <-. destruct (uninstall_runs w r _ _ Hf Ht He Hn) as (w' & Hh & Hpub & H1 & H2 & H3 & _ & Hf').
  exists w'. split_and!; [done|done|]. destruct (alike_fetchSnapshot aud w w' Hf Hf' H1 H2 H3) as (o & E & E').
  rewrite Hs in E. by injection E as <-.
Qed.
End uninstalling.

(** ** Examples *)

#[local] Existing Instances echo example_pg example_codec.
#[local] Instance environment_form : FormJson :=
  {| form_Unmarshal s := Ok (VStr s); form_Unmarshal_strings _ := Err (ErrString "not a list");
     form_Unmarshal_string s := Ok s; form_Marshal _ := Ok ""; form_Indent s := Ok s |}.
#[local] Instance environment_scan : Scan := {| scan l := l |}.

Definition release_10 : ReleaseStatusRow :=
  {| rs_Version := "1.0.0"; rs_Status := "deployed"; rs_Revision := 3; rs_LastDeployed := 90 |}.

(** The agent has reported the release that is assigned, one that no longer is, and itself. *)
Definition example_releases : world :=
  set_w_rec (set_release_statuses (λ _, {[ (7%N, "app") := release_10; (7%N, "old-app") := release_10;
    (7%N, "naisd") := release_10 ]})) example_deployed.

Definition example_environment_page : IO (reply + environment_data) :=
  environment_Handler (λ _, "id") (λ _, "2006") (λ _, 0%Z) (λ _, 0%Z) (λ _, 0%Z) (λ _, Ok ([], [], []))
    "nav" "dev" "helm" "ann@nav.no".

Lemma uninstall_offered_witness :
  ∃ d w', example_environment_page example_releases = (Ok (inr d), example_releases) ∧
    (∃ row, row ∈ (helmReleasesCard "nav" "dev" (vd_Releases d)).2 ∧ rn_Name row = "old-app" ∧ is_Some (rn_Uninstall row)) ∧
    ¬ (∃ row, row ∈ (helmReleasesCard "nav" "dev" (vd_Releases d)).2 ∧ rn_Name row = "app" ∧ is_Some (rn_Uninstall row)) ∧
    UninstallReleaseHandler "me" (Some (Some pubSubDeployer)) (λ _, "id") (PageFacts.page_form (λ _, "")) example_releases =
      (Ok (see_other false "/tenants/nav/envs/dev?tab=helm"), w') ∧ length (published w') = 1%nat.
Proof.
  destruct (fetchSnapshot "" example_releases) as [[snap|e|p] w1] eqn:Es; [|vm_compute in Es; discriminate Es..].
  destruct (example_environment_page example_releases) as [[[rp|d]|e|p] w2] eqn:E; [vm_compute in E; discriminate E| |vm_compute in E; discriminate E..].
  assert (Hne : ∀ a, a ∈ feature_assignments (w_feature example_releases) → ∀ k, ar_Target a !! k ≠ Some "").
  { intros a Ha k Hk. apply list_elem_of_singleton in Ha as ->. cbn in Hk. by apply lookup_singleton_Some in Hk as [_ Hk]. }
  destruct (uninstall_offered (pg := example_pg) "me" (λ _, "id") (λ _, "2006") (λ _, 0%Z) (λ _, 0%Z) (λ _, 0%Z)
    (λ _, Ok ([], [], [])) (λ _ _, or_introl eq_refl) (λ _ _ _ _ _, eq_refl) "" example_releases snap w1 "nav" "dev" "helm"
    "ann@nav.no" d w2 eq_refl (NoDup_singleton _) Hne Es E) as [-> H].
  destruct (H "old-app") as [Hold Hsend]. destruct (H "app") as [Happ _].
  assert (Hd : er_ID (vd_Environment d) = 7%N ∧ er_Name (vd_Environment d) = "dev" ∧
      er_Labels (vd_Environment d) = {[ "kind" := "tenant" ]} ∧ t_Name (vd_Tenant d) = "nav").
  { clear -E. vm_compute in E. injection E as <-. split_and!; vm_compute; reflexivity. }
  destruct Hd as (Hid & Hen & Hlab & Ht). rewrite Hid, Hen, Hlab, Ht in *.
  assert (Hsn : s_assignments snap ≠ [] ∧ ∀ a, a ∈ s_assignments snap → f_Name (ra_Feature a) = "app" ∧
      labelsContain {[ "kind" := "tenant" ]} (ra_TargetLabels a) = true).
  { clear -Es. vm_compute in Es. injection Es as <- _. split; [discriminate|].
    intros a ->%list_elem_of_singleton. split; vm_compute; reflexivity. }
  destruct Hsn as [Hsome Hsn].
  assert (Ho : ∃ row, row ∈ (helmReleasesCard "nav" "dev" (vd_Releases d)).2 ∧ rn_Name row = "old-app" ∧ is_Some (rn_Uninstall row)).
  { apply Hold. split; [exists release_10; vm_compute; reflexivity|].
    split; [by apply (bool_decide_eq_false_1 ("old-app" ∈ ["naisd"; "fasitd"])); vm_compute|]. intros a Ha Hn. destruct (Hsn a Ha) as [Hn' _]. congruence. }
  destruct (Hsend Ho ltac:(discriminate) (PageFacts.page_form (λ _, "")) eq_refl eq_refl eq_refl) as (w' & Hw & Hp & _).
  exists d, w'. split; [reflexivity|]. split; [exact Ho|]. split; [|split; [exact Hw|by rewrite Hp]].
  intros (_ & _ & Hno)%Happ. destruct (s_assignments snap) as [|a l]; [destruct (Hsome eq_refl)|].
  destruct (Hsn a (list_elem_of_here _ _)) as [Hn Hm]. rewrite (Hno a (list_elem_of_here _ _) Hn) in Hm. discriminate Hm.
Defined.

#[local] Instance environment_objects : ObjectCodec := {| unmarshal_object _ := Ok ∅ |}.
#[local] Instance environment_logs : LogScan := {| scan_logs l := l |}.

Definition example_feature_page : IO FeaturePage :=
  loadFeaturePageData (λ _, "id") (λ _, 0%N) (λ _, "2006") [] "" "nav" "dev" "app" "overview".

Lemma feature_rows_agree_witness :
  ∃ d p row, example_environment_page example_releases = (Ok (inr d), example_releases) ∧
    example_feature_page example_releases = (Ok p, example_releases) ∧
    filter (λ r, nf_Name r = "app") (vd_Features d) = [row] ∧ nf_Status row = "DEPLOYED" ∧ fp_Status p = "DEPLOYED" ∧
    nf_StatusMessage row = fp_StatusMessage p.
Proof.
  destruct (example_environment_page example_releases) as [[[rp|d]|e|m] w2] eqn:E; [vm_compute in E; discriminate E| |vm_compute in E; discriminate E..].
  destruct (example_feature_page example_releases) as [[p|e|m] w3] eqn:Ep; [|vm_compute in Ep; discriminate Ep..].
  assert (Hp : fp_Status p = "DEPLOYED" ∧ w3 = example_releases) by (clear -Ep; vm_compute in Ep; injection Ep as <- <-; by vm_compute).
  assert (w2 = example_releases) as -> by (clear -E; vm_compute in E; injection E as _ <-; vm_compute; reflexivity).
  destruct Hp as [Hp ->].
  destruct (feature_rows_agree (pg := example_pg) (λ _, "id") (λ _, "2006") (λ _, 0%Z) (λ _, 0%Z) (λ _, 0%Z)
    (λ _, Ok ([], [], [])) (λ _ _, or_introl eq_refl) (λ _ _ _ _ _, eq_refl) (λ _, 0%N) example_releases "nav" "dev" "helm"
    "ann@nav.no" d example_releases [] "" "app" "overview" p example_releases eq_refl) as (row & Hrow & Hst & Hmsg); [| |exact E|exact Ep|].
  1-2: apply (bool_decide_unpack _); vm_compute; exact I.
  exists d, p, row. split_and!; [reflexivity|reflexivity|exact Hrow| |exact Hp|exact Hmsg].
  destruct Hst as [Hst|[Hst _]]; rewrite Hp in Hst; [exact Hst|discriminate Hst].
Defined.
