(* ===== verification/FeatureHeader.v ===== *)
(** * ui/pages/environment/feature.go: around the table of a feature's page

    The header of the page of a feature in an environment (what is installed, what the
    reconciler still has to do, why it is switched off), its menu with the popovers the menu
    opens, the two sidebars and the tab of assignments, with the small components they use
    (components/kebab.go, popovers.go, feature_sidebar.go).  Icons and layout are left out. *)

From S2P Require Import Preview Pages PageFacts FeaturePage Labels ConfigTable EnvironmentPage.
From S2P Require Import GoStd.

(** ** Addresses *)

(** [url.PathEscape] *)
Definition path_unescaped (c : ascii) : bool :=
  query_unreserved c || bool_decide (c ∈ ["$"; "&"; "+"; ":"; "="; "@"]%char).
Fixpoint PathEscape (s : string) : string :=
  match s with
  | EmptyString => ""
  | String c s' =>
      (if path_unescaped c then String c ""
       else let n := N_of_ascii c in String "%" (String (upper_hex (n / 16)) (String (upper_hex (n mod 16)) ""))) +:+
      PathEscape s'
  end.

Definition LokiExploreURL (tenant env feature : string) : string :=
  let ds := tenant +:+ "-logs" in
  Join ["https://monitoring.nais.io/a/grafana-lokiexplore-app/explore/service_name/"; feature; "/logs";
        "?patterns=%5B%5D&from=now-15m&to=now&var-lineFormat=";
        "&var-ds="; ds;
        "&var-filters=k8s_cluster_name%7C%3D%7C"; PathEscape env;
        "&var-filters=service_name%7C%3D%7C"; PathEscape feature;
        "&var-fields=&var-levels=&var-metadata=&var-jsonFields=&var-patterns=";
        "&var-lineFilterV2=&var-lineFilters=&timezone=browser&var-all-fields=";
        "&displayedFields=%5B%5D&urlColumns=%5B%5D&visualizationType=%22logs%22";
        "&prettifyLogMessage=false&sortOrder=%22Descending%22&wrapLogMessage=false"] "".

(** The old addresses of the page's audit entries and logs. *)
Definition AuditRedirectHandler (r : http_request) : IO reply :=
  mret (see_other false ("/auditlog?q=" +:+
    QueryEscape (URLParam r "feature" +:+ (" " +:+ (URLParam r "tenant" +:+ ("/" +:+ URLParam r "env")))))).
Definition FeatureLogsRedirectHandler (r : http_request) : IO reply :=
  mret (see_other false ("/features/" +:+ (URLParam r "feature" +:+ ("/envs/" +:+
    (URLParam r "tenant" +:+ ("/" +:+ URLParam r "env")))))).

(** ** Menus and popovers (components) *)

(** What an item does: follow a link, load a dialog, open a popover, or nothing. *)
Inductive menu_action :=
  | Follow (href : string)
  | Modal (url : string)
  | Opens (popoverID : string)
  | NotNow (title : string).
Record menu_item := { mi_class : string; mi_text : string; mi_action : menu_action }.

(** What a popover holds. *)
Record history_item := {
  hi_open : bool; hi_version : string; hi_status : option (string * string) * string; hi_title : string; hi_when : string;
  hi_log : option (string * string);
}.
Inductive popover_body :=
  | ConfirmForm (action : string) (fields : list (string * string)) (question : string) (reasonID : option string) (submit : string)
  | HistoryList (items : list history_item)
  | DecisionTable (rows : list ((string * string) * string * string * (string * string)))
  | LogText (id text : string).
Record popover := { po_id : string; po_class : string; po_title : string; po_body : popover_body }.

(** The menu, under its identifier, and the popovers next to it. *)
Record kebab_menu := { km_id : string; km_items : list menu_item; km_popovers : list popover }.

Definition KebabWrap (id : string) (items : list menu_item) (extra : list (option popover)) : kebab_menu :=
  {| km_id := id; km_items := items; km_popovers := omap Datatypes.id extra |}.

Definition LokiLogsItem (lokiURL : string) : menu_item :=
  {| mi_class := "kebab-item"; mi_text := "Loki logs ↗"; mi_action := Follow lokiURL |}.

Definition redirectField (url : string) : list (string * string) :=
  if bool_decide (url = "") then [] else [("redirect", url)].

Definition RedeployPopover (popoverID action featureName envName : string) (enabled : bool) (redirectURL : string)
    : option popover :=
  if negb enabled then None
  else Some {| po_id := popoverID; po_class := ""; po_title := "Confirm redeploy";
               po_body := ConfirmForm action (redirectField redirectURL)
                 ("Force a fresh deploy of " +:+ (featureName +:+ (" in " +:+ (envName +:+ "?")))) None "Trigger redeploy" |}.

Definition ReconcilePopover (popoverID action featureName envName : string) (enabled : bool) (redirectURL : string)
    : popover :=
  if enabled then
    {| po_id := popoverID; po_class := ""; po_title := "Disable reconcile";
       po_body := ConfirmForm action (("enabled", "false") :: redirectField redirectURL)
         ("Disable reconcile for " +:+ (featureName +:+ (" in " +:+ (envName +:+
            "? Reconciliation will stop until re-enabled."))))
         (Some (popoverID +:+ "-reason")) "Disable reconcile" |}
  else
    {| po_id := popoverID; po_class := ""; po_title := "Enable reconcile";
       po_body := ConfirmForm action (("enabled", "true") :: redirectField redirectURL)
         ("Enable reconcile for " +:+ (featureName +:+ (" in " +:+ (envName +:+ "?")))) None "Enable reconcile" |}.

(** An environment in the sidebar: its link and class, the class and title of its dot, its
    text. *)
Definition featureEnvironmentItem (featureName : string) (env : FeatureEnvironment) (active : bool)
    : string * string * (string * string) * string :=
  ("/features/" +:+ (featureName +:+ ("/envs/" +:+ (fe_TenantSlug env +:+ ("/" +:+ fe_EnvironmentName env)))),
   if active then "feature-env-link active" else "feature-env-link",
   ("feature-env-dot " +:+ StatusClass (fe_Status env), fe_Status env),
   fe_TenantName env +:+ (" / " +:+ fe_EnvironmentName env)).

Definition FeatureSidebar (featureName activeTab activeTenant activeEnvironment : string) (envs : list FeatureEnvironment)
    : list (string * string * bool) * list (string * string * (string * string) * string) :=
  let base := "/features/" +:+ featureName in
  ([(base, "Overview", bool_decide (activeTab = "overview"));
    (base +:+ "/versions", "Versions", bool_decide (activeTab = "versions"));
    (base +:+ "/assignments", "Assignments", bool_decide (activeTab = "assignments"));
    (base +:+ "/config", "Config", bool_decide (activeTab = "config"))],
   (λ env, featureEnvironmentItem featureName env
      (bool_decide (fe_TenantSlug env = activeTenant) && bool_decide (fe_EnvironmentName env = activeEnvironment))) <$> envs).

(** ** The header *)

(** A feature is redeployed only from a settled state. *)
Definition isRedeployable (p : FeaturePage) : bool :=
  fp_Enabled p && (bool_decide (fp_Status p = "DEPLOYED") || bool_decide (fp_Status p = "FAILED")).

Definition isConverged (p : FeaturePage) : bool := bool_decide (fp_Status p ∈ ["DEPLOYED"; "DISABLED"; "UNKNOWN"; ""]).

(** The lines of the latest deploy's log, when there are any. *)
Definition current_log (p : FeaturePage) : option (list PageLine) :=
  match fp_FeatureLog p with Some (line :: lines) => Some (line :: lines) | _ => None end.

(** A button that opens the log. *)
Definition logsLink (p : FeaturePage) (label : string) : option menu_item :=
  match current_log p with
  | Some _ => Some {| mi_class := "btn-link"; mi_text := label; mi_action := Opens "deploy-logs" |}
  | None => None
  end.

Definition targetVersionSuffix (p : FeaturePage) : string :=
  match fp_WinningAssignment p with
  | Some a => if bool_decide (f_Version (fa_Feature a) = "") then "" else " " +:+ f_Version (fa_Feature a)
  | None => ""
  end.

Definition disabled_reason (reason : string) : string :=
  if bool_decide (reason = "") then "disabled before we started requiring reason" else reason.

(** The class and title of the badge, and its text. *)
Definition reconcileHeaderStatus (p : FeaturePage) : string * string * string :=
  if fp_Enabled p then ("reconcile-header-status status-success", "Reconcile enabled", "Reconcile enabled")
  else ("reconcile-header-status status-error",
        "Reconcile disabled: " +:+ disabled_reason (fp_DisableReason p), "Reconcile disabled").

(** An alert: its class, its icon ([None] for the spinner), its text, age and log. *)
Record alert := {
  al_class : string; al_icon : option string; al_text : string; al_age : option string; al_logs : option menu_item;
}.

Definition alertLine (kind : string) (icon : option string) (text age : string) (logs : option menu_item) : alert :=
  {| al_class := "reconcile-alert reconcile-alert-" +:+ kind; al_icon := icon; al_text := text;
     al_age := if bool_decide (age = "") then None else Some ("· " +:+ age); al_logs := logs |}.

Section header.
Context (uuid_String : uuid → string) (Format : time → string) (now : time).

Definition lastDeployAge (p : FeaturePage) : string :=
  match fp_RecentDeployHistory p with di :: _ => RelativeTime Format now (in_LastModified di) | [] => "" end.

Definition reconcileAlertLine (p : FeaturePage) : option alert :=
  let status := fp_Status p in
  if bool_decide (status = "FAILED")
  then Some (alertLine "error" (Some "⚠") "Reconcile failed" (lastDeployAge p) (logsLink p "View logs"))
  else if bool_decide (status ∈ ["SENT"; "INSTALLING"])
  then Some (alertLine "pending" None ("Reconciling" +:+ (targetVersionSuffix p +:+ "…")) "" (logsLink p "View logs"))
  else if bool_decide (status = "PENDING")
  then Some (alertLine "pending" None "Reconcile pending" "" (logsLink p "View logs"))
  else if bool_decide (status ∈ ["MISSING-CONFIG"; "MISSING-DEPS"; "UNHEALTHY"; "RENDER-ERROR"])
  then Some (alertLine "warning" (Some "⚠")
         ("Reconcile blocked: " +:+ (if bool_decide (fp_StatusMessage p = "") then "reconcile blocked" else fp_StatusMessage p))
         "" None)
  else None.

(** What is installed: version, status, when, and the log. *)
Inductive runtime :=
  | NoRelease
  | Installed (version : string) (status : option (string * string) * string) (title when : string) (logs : option menu_item).

Definition runtimeLine (p : FeaturePage) : runtime :=
  match fp_Release p with
  | None => NoRelease
  | Some rel =>
      Installed (rs_Version rel)
        (if bool_decide (ToLower (rs_Status rel) = "deployed") then (Some ("status-success", "✓ Installed"), "")
         else View.Status (ToUpper (rs_Status rel)))
        (FormatTime Format (rs_LastDeployed rel)) ("updated " +:+ RelativeTime Format now (rs_LastDeployed rel))
        (if isConverged p then logsLink p "Logs" else None)
  end.

(** The reason for which it is switched off, the alert, and what is installed. *)
Record header_left := { hd_reason : option string; hd_alert : option alert; hd_runtime : runtime }.

Definition deployHeaderLeft (p : FeaturePage) : header_left :=
  {| hd_reason := if fp_Enabled p then None else Some (disabled_reason (fp_DisableReason p));
     hd_alert := reconcileAlertLine p; hd_runtime := runtimeLine p |}.

(** ** Popovers *)

Definition reconcilePopover (p : FeaturePage) : popover :=
  ReconcilePopover "toggle-reconcile" (featureBasePathForPage p +:+ "/toggle-reconcile") (f_Name (fp_Feature p))
    (er_Name (fp_Environment p)) (fp_Enabled p) "".

Definition redeployPopover (p : FeaturePage) : option popover :=
  RedeployPopover "redeploy" (featureBasePathForPage p +:+ "/redeploy") (f_Name (fp_Feature p))
    (er_Name (fp_Environment p)) (isRedeployable p) "".

Definition log_text (line : PageLine) : string :=
  if bool_decide (pl_Timestamp line = "") then pl_Message line else pl_Timestamp line +:+ (" " +:+ pl_Message line).

Definition logBlock (id : string) (lines : list PageLine) : string * string := (id, Join (log_text <$> lines) newline).

Definition deployLogsPopover (p : FeaturePage) : option popover :=
  match current_log p with
  | None => None
  | Some lines =>
      let (id, text) := logBlock "current-deploy-log" lines in
      Some {| po_id := "deploy-logs"; po_class := "popover-wide"; po_title := "Logs"; po_body := LogText id text |}
  end.

(** The deploy asked for is open, or else the latest. *)
Definition expanded_index (history : list Instruction) (expandedLogID : string) : nat :=
  if bool_decide (expandedLogID = "") then 0%nat
  else from_option fst 0%nat (list_find (λ di, uuid_String (in_ID di) = expandedLogID) history).

Definition history_entry (p : FeaturePage) (expandIndex i : nat) (di : Instruction) : history_item :=
  {| hi_open := bool_decide (i = expandIndex); hi_version := in_FeatureVersion di;
     hi_status := View.Status (ToUpper (in_Status di)); hi_title := FormatTime Format (in_Created di);
     hi_when := RelativeTime Format now (in_Created di);
     hi_log := match default [] (fp_DeployLogs p !! in_ID di) with
               | [] => None
               | lines => Some (logBlock ("deploy-log-" +:+ uuid_String (in_ID di)) lines)
               end |}.

Definition deployHistoryPopover (p : FeaturePage) (expandedLogID : string) : option popover :=
  match fp_RecentDeployHistory p with
  | [] => None
  | history =>
      Some {| po_id := "deploy-history"; po_class := "popover-wide"; po_title := "Deploy history";
              po_body := HistoryList (imap (history_entry p (expanded_index history expandedLogID)) history) |}
  end.

Definition decisionActionBadge (action : string) : string * string :=
  (if bool_decide (action ∈ ["missing-deps"; "missing-config"; "render-error"]) then "status-warning"
   else if bool_decide (action ∈ ["disabled"; "unhealthy"]) then "status-disabled"
   else if bool_decide (action = "in-progress") then "status-pending"
   else if bool_decide (action ∈ ["deploy"; "unchanged"]) then "status-success"
   else "text-muted", action).

Definition decisionHistoryPopover (p : FeaturePage) : option popover :=
  match fp_DecisionHistory p with
  | [] => None
  | decisions =>
      Some {| po_id := "decision-history"; po_class := "popover-wide"; po_title := "Reconciler log";
              po_body := DecisionTable ((λ d,
                (decisionActionBadge (de_Action d), de_FeatureVersion d,
                 if bool_decide (de_Message d = "") then "—" else de_Message d,
                 (FormatTime Format (de_Created d), RelativeTime Format now (de_Created d)))) <$> decisions) |}
  end.

(** ** The menu *)

Definition pageKebab (p : FeaturePage) (expandedLogID : string) : kebab_menu :=
  let feature := f_Name (fp_Feature p) in
  let item class text action := {| mi_class := class; mi_text := text; mi_action := action |} in
  let items :=
    [LokiLogsItem (LokiExploreURL (t_Name (fp_Tenant p)) (er_Name (fp_Environment p)) feature);
     item "kebab-item" "Render Helm values" (Modal (featureBasePathForPage p +:+ "/helm-values"));
     if fp_Enabled p then item "kebab-item kebab-item-danger" "Disable reconcile" (Opens "toggle-reconcile")
     else item "kebab-item" "Enable reconcile" (Opens "toggle-reconcile")] ++
    (match fp_WinningAssignment p with
     | Some a =>
         [item "kebab-item" "View assignment"
            (Follow ("/features/" +:+ (feature +:+ ("/assignments/" +:+ uuid_String (fa_ID a)))));
          if isRedeployable p then item "kebab-item" "Redeploy" (Opens "redeploy")
          else item "kebab-item kebab-item-disabled" "Redeploy"
                 (NotNow "Redeploy is only available when the feature is enabled and in a settled state (deployed or failed)")]
     | None => []
     end) ++
    (match fp_RecentDeployHistory p with
     | [] => [] | _ => [item "kebab-item" "Deploy history" (Opens "deploy-history")] end) ++
    (match fp_DecisionHistory p with
     | [] => [] | _ => [item "kebab-item" "Reconciler log" (Opens "decision-history")] end) in
  KebabWrap "page-kebab" items
    [Some (reconcilePopover p); redeployPopover p; decisionHistoryPopover p; deployHistoryPopover p expandedLogID;
     deployLogsPopover p].

(** ** The tab of assignments *)

Definition labelPills (labels : Labels) : list string :=
  if bool_decide (size labels = 0%nat) then ["All environments"]
  else (λ k, k +:+ (": " +:+ default "" (labels !! k))) <$> sort_strings (map_to_list labels).*1.

(** A row: the link with the first eight letters of the identifier, version, status, target
    and creation. *)
Definition assignmentsTab (p : FeaturePage)
    : option (list ((string * string) * string * (option (string * string) * string) * list string * string)) :=
  match fp_Assignments p with
  | [] => None
  | deps =>
      Some ((λ dep,
        (("/features/" +:+ (f_Name (fp_Feature p) +:+ ("/assignments/" +:+ ea_ID dep)), String.substring 0 8 (ea_ID dep)),
         ea_Version dep, View.Status (ea_Status dep), labelPills (ea_TargetLabels dep), ea_Created dep)) <$> deps)
  end.
End header.

(** ** The page *)

Record page_content := {
  pc_Title : string; pc_Sidebar : list (string * string * bool) * list (string * string * (string * string) * string);
  pc_Header : option header_left; pc_Status : string * string * string; pc_Menu : kebab_menu;
  pc_Config : option config_table;
  pc_Assignments : option (list ((string * string) * string * (option (string * string) * string) * list string * string));
}.

Section handler.
Context `{ext : External} `{pg : Postgres} `{codec : FeatureCodec} `{obj : ObjectCodec} `{json : FormJson}
  `{sc : Scan} `{ls : LogScan} (uuid_String : uuid → string) (uuid_NewSHA1 : string → uuid) (Format : time → string) (now : time).

(** The sidebar of recent activity is [AuditView.envActivitySidebar]. *)
Definition featurePageContent (p : FeaturePage) (expandedLogID : string) : page_content :=
  let merged := negb (bool_decide (fp_ActiveTab p = "assignments")) in
  {| pc_Title := f_Name (fp_Feature p) +:+ (" / " +:+ (t_Name (fp_Tenant p) +:+ (" / " +:+ er_Name (fp_Environment p))));
     pc_Sidebar := FeatureSidebar (f_Name (fp_Feature p)) "" (fp_TenantSlug p) (er_Name (fp_Environment p)) (fp_FeatureEnvs p);
     pc_Header := if merged then Some (deployHeaderLeft Format now p) else None;
     pc_Status := reconcileHeaderStatus p; pc_Menu := pageKebab uuid_String Format now p expandedLogID;
     pc_Config := if merged then overviewTab p else None;
     pc_Assignments := if merged then None else assignmentsTab p |}.

Definition FeatureContextTabHandler (order : list (string * Value)) (aud activeTab tenant env feature logs : string)
    : page page_content :=
  p ← or_respond (loadFeaturePageData uuid_String uuid_NewSHA1 Format order aud tenant env feature activeTab)
    (fails StatusInternalServerError "Failed to load data: ");
  mret (featurePageContent p logs).

(** ** What the header can show *)

(** The states that [deriveState] knows, as they are shown. *)
Definition shown_states : list string :=
  ["DISABLED"; "SENT"; "INSTALLING"; "UNHEALTHY"; "MISSING-DEPS"; "MISSING-CONFIG"; "RENDER-ERROR"; "DEPLOYED"; "FAILED";
   "PENDING"; "UNKNOWN"].

Lemma deriveState_shown deploy action : NormalizeStatus (deriveState deploy action).1 ∈ shown_states.
Proof.
  unfold deriveState, IsInProgress.
  repeat match goal with
  | |- context [is_action action ?a] => destruct (is_action action a); cbn [orb]
  | |- context [bool_decide (deploy = ?s)] => destruct (bool_decide_reflect (deploy = s)) as [->|]; cbn [orb]
  end; vm_compute; repeat (first [by left|right]).
Qed.

Lemma ReconcileStatuses_shown w fa :
  w_faults w = [] → ∃ l, ReconcileStatuses fa w = (Ok l, w) ∧ ∀ s, s ∈ l → frs_State s ∈ shown_states.
Proof.
  intros Hf. unfold ReconcileStatuses, ListDecisionStatuses, ListDeployStatuses, mbind, M_bind, wrapping.
  rewrite !query_now by done. eexists. split; [reflexivity|]. intros s (e & -> & _)%list_elem_of_fmap.
  unfold env_status. match goal with |- context [deriveState ?d ?a] => pose proof (deriveState_shown d a) as Hd end.
  by destruct (deriveState _ _).
Qed.

(** A page shows one of them, or nothing. *)
Lemma page_status_shown order aud slug envName name tab w p w' :
  w_faults w = [] →
  loadFeaturePageData uuid_String uuid_NewSHA1 Format order aud slug envName name tab w = (Ok p, w') →
  fp_Status p ∈ "" :: shown_states.
Proof.
  intros Hf H. destruct (page_status_of _ _ _ _ _ _ _ _ _ _ _ _ Hf H) as (tenant & dep & _ & _ & Hwin & Hps).
  unfold page_status in Hps. destruct (negb (er_Reconcile _) || _); [injection Hps as <- _; right; left|].
  unfold or_empty, attempt, FeatureStatusForEnvironment in Hps.
  unfold mbind at 1, M_bind at 1 in Hps. unfold mbind at 1, M_bind at 1 in Hps. rewrite (bind_run _ _ _ _ _ Hwin) in Hps.
  destruct (ReconcileStatuses_shown w (fa_ID dep) Hf) as (l & Hl & Hin). rewrite (bind_run _ _ _ _ _ Hl) in Hps.
  destruct (status_in _ l) as [s|] eqn:E; cbn in Hps; [|injection Hps as <- _; by left].
  destruct (bool_decide (efs_Status s = "")); cbn in Hps; injection Hps as <- _; [by left|right].
  apply efs_Status_set in E as (x & Hx & ->). apply find_some in Hx as [Hx _]. by apply Hin, list_elem_of_In.
Qed.

(** *** Buttons and what they open *)

Definition header_buttons (hd : header_left) : list menu_item :=
  (match hd_alert hd with Some al => option_list (al_logs al) | None => [] end) ++
  (match hd_runtime hd with Installed _ _ _ _ logs => option_list logs | NoRelease => [] end).

(** The buttons of the header and of the menu. *)
Definition page_buttons (c : page_content) : list menu_item :=
  km_items (pc_Menu c) ++ match pc_Header c with Some hd => header_buttons hd | None => [] end.

Definition popover_ids (c : page_content) : list string := po_id <$> km_popovers (pc_Menu c).

Lemma popover_ids_of p logs :
  popover_ids (featurePageContent p logs) =
    ["toggle-reconcile"] ++ (if isRedeployable p then ["redeploy"] else []) ++
    (if bool_decide (fp_DecisionHistory p = []) then [] else ["decision-history"]) ++
    (if bool_decide (fp_RecentDeployHistory p = []) then [] else ["deploy-history"]) ++
    (if bool_decide (is_Some (current_log p)) then ["deploy-logs"] else []).
Proof.
  unfold popover_ids, featurePageContent, pageKebab, KebabWrap. cbn [pc_Menu km_popovers].
  unfold redeployPopover, RedeployPopover, decisionHistoryPopover, deployHistoryPopover, deployLogsPopover.
  destruct (isRedeployable p), (fp_DecisionHistory p), (fp_RecentDeployHistory p), (current_log p);
    cbn; unfold reconcilePopover, ReconcilePopover; by destruct (fp_Enabled p).
Qed.
Lemma option_member {A} (o : option A) x : x ∈ option_list o → o = Some x.
Proof. destruct o; [|by intros ?%elem_of_nil]. by intros ->%list_elem_of_singleton. Qed.

Lemma logs_open p label b : logsLink p label = Some b → mi_action b = Opens "deploy-logs" ∧ is_Some (current_log p).
Proof. unfold logsLink. destruct (current_log p); [|done]. intros [= <-]. by split. Qed.

(** Whether the header has a button for the log, in either line. *)
Lemma header_log p b :
  b ∈ header_buttons (deployHeaderLeft Format now p) → mi_action b = Opens "deploy-logs" ∧ is_Some (current_log p).
Proof.
  unfold header_buttons, deployHeaderLeft. cbn [hd_alert hd_runtime]. intros [Hb|Hb]%elem_of_app.
  - unfold reconcileAlertLine in Hb.
    repeat match goal with H : context [if ?c then _ else _] |- _ => destruct c; cbn in H end;
      try by apply elem_of_nil in Hb.
    all: apply option_member in Hb; by eapply logs_open.
  - unfold runtimeLine in Hb. destruct (fp_Release p); [|by apply elem_of_nil in Hb].
    destruct (isConverged p); [|by apply elem_of_nil in Hb]. apply option_member in Hb. by eapply logs_open.
Qed.

Lemma menu_opens p logs b id :
  b ∈ km_items (pageKebab uuid_String Format now p logs) → mi_action b = Opens id →
  id = "toggle-reconcile" ∨ id = "redeploy" ∧ isRedeployable p = true ∨
  id = "deploy-history" ∧ fp_RecentDeployHistory p ≠ [] ∨ id = "decision-history" ∧ fp_DecisionHistory p ≠ [].
Proof.
  unfold pageKebab, KebabWrap, LokiLogsItem. cbn [km_items]. intros Hb Hid.
  apply elem_of_app in Hb as [Hb|[Hb|[Hb|Hb]%elem_of_app]%elem_of_app].
  - rewrite !elem_of_cons in Hb. destruct Hb as [->|[->|[Hb|Hb%elem_of_nil]]]; [done..| |done].
    destruct (fp_Enabled p); subst b; injection Hid as <-; by left.
  - destruct (fp_WinningAssignment p) as [a|]; [|by apply elem_of_nil in Hb].
    rewrite !elem_of_cons in Hb. destruct Hb as [->|[Hb|Hb%elem_of_nil]]; [done| |done].
    destruct (isRedeployable p); subst b; [|done]. injection Hid as <-. right. by left.
  - destruct (fp_RecentDeployHistory p) as [|d l]; [by apply elem_of_nil in Hb|].
    apply list_elem_of_singleton in Hb as ->. injection Hid as <-. right. right. by left.
  - destruct (fp_DecisionHistory p) as [|d l]; [by apply elem_of_nil in Hb|].
    apply list_elem_of_singleton in Hb as ->. injection Hid as <-. by do 3 right.
Qed.

Lemma buttons_open p logs b id :
  b ∈ page_buttons (featurePageContent p logs) → mi_action b = Opens id → id ∈ popover_ids (featurePageContent p logs).
Proof.
  rewrite popover_ids_of. unfold page_buttons, featurePageContent. cbn [pc_Menu pc_Header].
  intros [Hb|Hb]%elem_of_app Hid.
  - rewrite !elem_of_app. destruct (menu_opens _ _ _ _ Hb Hid) as [->|[[-> E]|[[-> E]|[-> E]]]].
    + left. by left.
    + right; left. rewrite E. by left.
    + do 3 right; left. rewrite bool_decide_eq_false_2 by done. by left.
    + do 2 right; left. rewrite bool_decide_eq_false_2 by done. by left.
  - destruct (negb _); [|by apply elem_of_nil in Hb]. apply header_log in Hb as [Hb Hl]. rewrite Hb in Hid. injection Hid as <-.
    rewrite !elem_of_app. do 4 right. rewrite bool_decide_eq_true_2 by done. by left.
Qed.

(** What is left to do is said exactly when the reconciler is not done, for the states a
    page can show. *)
Lemma alert_shown p :
  fp_Status p ∈ "" :: shown_states → is_Some (reconcileAlertLine Format now p) ↔ isConverged p = false.
Proof.
  unfold shown_states, reconcileAlertLine, isConverged. rewrite !elem_of_cons, elem_of_nil. generalize (fp_Status p). intros s Hs.
  repeat (destruct Hs as [->|Hs]; [cbn; split; [intros [? ?]; done|]; try done; by eexists|]). done.
Qed.
Lemma one_log_button p :
  fp_Status p ∈ "" :: shown_states → (length (header_buttons (deployHeaderLeft Format now p)) ≤ 1)%nat.
Proof.
  intros Hs%alert_shown. unfold header_buttons, deployHeaderLeft, runtimeLine. cbn [hd_alert hd_runtime].
  destruct (isConverged p).
  - destruct (reconcileAlertLine Format now p) as [a|]; [by assert (true = false) by by apply Hs|].
    cbn. destruct (fp_Release p); [|cbn; lia]. destruct (logsLink p "Logs"); cbn; lia.
  - destruct (reconcileAlertLine Format now p) as [a|]; [|destruct (fp_Release p); cbn; lia].
    rewrite length_app. destruct (al_logs a), (fp_Release p); cbn; lia.
Qed.

(** *** The history of deploys *)

Lemma expanded_index_spec history expandedLogID :
  history ≠ [] → ∃ di, history !! expanded_index uuid_String history expandedLogID = Some di ∧
    ((expandedLogID ≠ "" ∧ ∃ d, d ∈ history ∧ uuid_String (in_ID d) = expandedLogID) → uuid_String (in_ID di) = expandedLogID) ∧
    (¬ (expandedLogID ≠ "" ∧ ∃ d, d ∈ history ∧ uuid_String (in_ID d) = expandedLogID) → history !! 0%nat = Some di).
Proof.
  intros Hne. assert (∃ d0, history !! 0%nat = Some d0) as [d0 H0] by (destruct history; [done|by eexists]).
  unfold expanded_index. destruct (bool_decide_reflect (expandedLogID = "")) as [->|He].
  - exists d0. split_and!; [done|by intros [? _]|done].
  - destruct (list_find _ history) as [[i di]|] eqn:E; cbn.
    + apply list_find_Some in E as (Hi & Hd & _). exists di. split_and!; [done|done|].
      intros Hno. destruct Hno. split; [done|]. exists di. split; [by eapply list_elem_of_lookup_2|done].
    + exists d0. split_and!; [done| |done]. intros (_ & d & Hd & Hid). apply list_find_None in E.
      rewrite Forall_forall in E. by destruct (E d Hd).
Qed.

(** Exactly one deploy of the history is unfolded: the one asked for, if it is there, and
    else the newest. *)
Lemma one_entry_open p expandedLogID po :
  deployHistoryPopover uuid_String Format now p expandedLogID = Some po →
  ∃ items i item di, po_body po = HistoryList items ∧ length items = length (fp_RecentDeployHistory p) ∧
    items !! i = Some item ∧ fp_RecentDeployHistory p !! i = Some di ∧ hi_open item = true ∧ hi_version item = in_FeatureVersion di ∧
    (∀ j item', items !! j = Some item' → hi_open item' = true → j = i) ∧
    (uuid_String (in_ID di) = expandedLogID ∨
     i = 0%nat ∧ (expandedLogID = "" ∨ ∀ d, d ∈ fp_RecentDeployHistory p → uuid_String (in_ID d) ≠ expandedLogID)).
Proof.
  unfold deployHistoryPopover. destruct (fp_RecentDeployHistory p) as [|d l] eqn:Eh; [done|]. rewrite <-Eh. intros [= <-]. cbn [po_body].
  set (h := fp_RecentDeployHistory p). set (k := expanded_index uuid_String h expandedLogID).
  destruct (expanded_index_spec h expandedLogID) as (di & Hdi & Hyes & Hno); [unfold h; by rewrite Eh|]. fold k in Hdi.
  exists (imap (history_entry uuid_String Format now p k) h), k, (history_entry uuid_String Format now p k k di), di.
  split_and!; [done|by rewrite length_imap|by rewrite list_lookup_imap, Hdi|done|cbn; by rewrite bool_decide_eq_true|done| |].
  - intros j item'. rewrite list_lookup_imap. destruct (h !! j); [|done]. intros [= <-]. cbn. by rewrite bool_decide_eq_true.
  - destruct (decide (expandedLogID ≠ "" ∧ Exists (λ d, uuid_String (in_ID d) = expandedLogID) h)) as [[Hne Hex]|Hn].
    + left. apply Hyes. split; [done|]. by apply Exists_exists.
    + destruct (decide (expandedLogID = "")) as [->|Hne].
      * right. split; [|by left]. unfold k, expanded_index. by rewrite bool_decide_eq_true_2.
      * right. assert (Hall : ∀ d, d ∈ h → uuid_String (in_ID d) ≠ expandedLogID).
        { intros d' Hd' E. apply Hn. split; [done|]. apply Exists_exists. by exists d'. }
        split; [|by right]. unfold k, expanded_index. rewrite bool_decide_eq_false_2 by done.
        destruct (list_find _ h) as [[i d']|] eqn:E; [|done]. apply list_find_Some in E as (Hi & Hd' & _).
        exfalso. eapply Hall; [by eapply list_elem_of_lookup_2|done].
Qed.

Lemma history_popover p logs po :
  po ∈ km_popovers (pc_Menu (featurePageContent p logs)) → po_id po = "deploy-history" →
  deployHistoryPopover uuid_String Format now p logs = Some po.
Proof.
  unfold featurePageContent, pageKebab, KebabWrap. cbn [pc_Menu km_popovers]. rewrite list_elem_of_omap.
  intros (o & Ho & E) Hid. cbn in E. subst o. rewrite !elem_of_cons, elem_of_nil in Ho.
  destruct Ho as [Ho|[Ho|[Ho|[Ho|[Ho|[]]]]]]; [| | |done|].
  - injection Ho as ->. unfold reconcilePopover, ReconcilePopover in Hid. by destruct (fp_Enabled p).
  - unfold redeployPopover, RedeployPopover in Ho. destruct (isRedeployable p); [|done]. by injection Ho as ->.
  - unfold decisionHistoryPopover in Ho. destruct (fp_DecisionHistory p); [done|]. by injection Ho as ->.
  - unfold deployLogsPopover in Ho. destruct (current_log p); [|done]. by injection Ho as ->.
Qed.

Lemma page_tab order aud slug envName name tab w p w' :
  loadFeaturePageData uuid_String uuid_NewSHA1 Format order aud slug envName name tab w = (Ok p, w') → fp_ActiveTab p = tab.
Proof.
  unfold loadFeaturePageData. intros H. do 11 (apply bind_Ok in H as (? & ? & _ & H)). by injection H as <- _.
Qed.

(** The page of a feature in an environment is consistent in itself.  When no query
    fails and the page loads: the popovers next to its menu have different identifiers, and
    every button of the header and of the menu opens one of them.  On the main tab there is
    an alert exactly when the reconciler is not done with the feature there, at most one
    button for the log, and in the history of deploys exactly one deploy is unfolded, the one
    asked for if it is in the history and else the newest. *)
Theorem page_consistent order aud tab slug envName name logs w c w' :
  w_faults w = [] →
  FeatureContextTabHandler order aud tab slug envName name logs w = (Ok (inr c), w') →
  NoDup (popover_ids c) ∧
  (∀ b id, b ∈ page_buttons c → mi_action b = Opens id → id ∈ popover_ids c) ∧
  ∃ p, loadFeaturePageData uuid_String uuid_NewSHA1 Format order aud slug envName name tab w = (Ok p, w') ∧
    (tab ≠ "assignments" → ∃ hd, pc_Header c = Some hd ∧
       (is_Some (hd_alert hd) ↔ isConverged p = false) ∧ (length (header_buttons hd) ≤ 1)%nat) ∧
    (∀ po items, po ∈ km_popovers (pc_Menu c) → po_id po = "deploy-history" → po_body po = HistoryList items →
       ∃ i item di, fp_RecentDeployHistory p !! i = Some di ∧ items !! i = Some item ∧ hi_open item = true ∧
         (∀ j item', items !! j = Some item' → hi_open item' = true → j = i) ∧
         (uuid_String (in_ID di) = logs ∨
          i = 0%nat ∧ (logs = "" ∨ ∀ d, d ∈ fp_RecentDeployHistory p → uuid_String (in_ID d) ≠ logs))).
Proof.
  intros Hf H. unfold FeatureContextTabHandler in H. apply page_bind_inr in H as (p & w1 & Hp%or_respond_inr & [= <- <-]).
  pose proof (page_status_shown _ _ _ _ _ _ _ _ _ Hf Hp) as Hs.
  split_and!; [| |exists p; split_and!; [done| |]].
  - rewrite popover_ids_of. destruct (isRedeployable p); do 3 case_bool_decide; apply (bool_decide_unpack _); vm_compute; exact I.
  - apply buttons_open.
  - intros Htab. pose proof (page_tab _ _ _ _ _ _ _ _ _ Hp) as Ht.
    unfold featurePageContent. cbn [pc_Header]. rewrite Ht, bool_decide_eq_false_2 by done. eexists. split; [done|].
    split; [by apply alert_shown|by apply one_log_button].
  - intros po items Hin Hid Hbody.
    pose proof (history_popover _ _ _ Hin Hid) as Hh.
    destruct (one_entry_open _ _ _ Hh) as (items' & i & item & di & Hb & _ & Hi & Hd & Ho & _ & Hu & Hr).
    rewrite Hbody in Hb. injection Hb as <-. by exists i, item, di.
Qed.
End handler.

(** ** Examples *)

#[local] Existing Instances echo example_pg example_codec.
#[local] Instance header_form : FormJson :=
  {| form_Unmarshal s := Ok (VStr s); form_Unmarshal_strings _ := Err (ErrString "not a list");
     form_Unmarshal_string s := Ok s; form_Marshal _ := Ok ""; form_Indent s := Ok s |}.
#[local] Instance header_scan : Scan := {| scan l := l |}.
#[local] Instance header_objects : ObjectCodec := {| unmarshal_object _ := Ok ∅ |}.
#[local] Instance header_logs : LogScan := {| scan_logs l := l |}.

(** The world after a deploy that failed. *)
Definition example_failed : world :=
  insert_deploy (deploy_of {| ap_Diid := 10; ap_EnvironmentID := 7; ap_FeatureAssignmentID := 1;
    ap_FeatureName := "app"; ap_FeatureVersion := "1.0.0"; ap_Status := DeployStatusFailed;
    ap_Hash := "h"; ap_Vals := "{}" |}) example_deployed.

Definition example_header_page : IO (reply + page_content) :=
  FeatureContextTabHandler (λ n, tally n) (λ _, 0%N) (λ _, "2006") 100 [] "" "overview" "nav" "dev" "app" "".

Lemma page_consistent_witness :
  ∃ c w' hd, example_header_page example_failed = (Ok (inr c), w') ∧
    popover_ids c = ["toggle-reconcile"; "redeploy"; "deploy-history"] ∧
    NoDup (popover_ids c) ∧ pc_Header c = Some hd ∧ is_Some (hd_alert hd).
Proof.
  destruct (example_header_page example_failed) as [[[rp|c]|e|m] w'] eqn:E; [vm_compute in E; discriminate E| |vm_compute in E; discriminate E..].
  destruct (page_consistent (λ n, tally n) (λ _, 0%N) (λ _, "2006") 100 [] "" "overview" "nav" "dev" "app" ""
    example_failed c w' eq_refl E) as (Hnd & _ & p & Hp & Hhd & _).
  destruct (Hhd ltac:(discriminate)) as (hd & Hhead & Halert & _).
  exists c, w', hd. split; [reflexivity|]. split; [clear -E; vm_compute in E; injection E as <- _; vm_compute; reflexivity|].
  split; [exact Hnd|]. split; [exact Hhead|]. apply Halert.
  clear -Hp. vm_compute in Hp. injection Hp as <- _. vm_compute. reflexivity.
Defined.
