(* ===== verification/Agent.v ===== *)
(** * internal/naisd: the agent in an environment

    deploy_manager.go, status_reporter.go, health_reporter.go, upgrade_naisd.go and
    selfupgrade/upgrade.go: what the agent does with an instruction, which Helm commands it
    runs and which statuses it publishes.  Helm, Kubernetes, YAML and the JSON of a
    message are parameters ([AgentEnv]); every call to them may fail by the script of
    faults.  The agent's log lines are buffered here and published when the logger is
    closed; the goroutines of the logger are modelled in [AgentLog]. *)

From S2P Require Export Receiver.

(** ** Durations as text ([time.Duration.String]) from one second up *)

Fixpoint trim_zeros (s : string) : string :=
  match s with
  | "" => ""
  | String c s' =>
      match trim_zeros s' with
      | "" => if ascii_dec c "0" then "" else String c ""
      | t => String c t
      end
  end.

Definition zero_padded (width : nat) (n : Z) : string :=
  let s := pretty (Z.to_N n) in
  String.concat "" (replicate (width - String.length s) "0") +:+ s.

Definition Duration_String (d : duration) : string :=
  let u := Z.abs d in
  let secs := (u / Second)%Z in
  let frac := trim_zeros (zero_padded 9 (u mod Second)) in
  let s := pretty (Z.to_N (secs mod 60)) +:+ ((if bool_decide (frac = "") then "" else "." +:+ frac) +:+ "s") in
  let s := if (secs <? 60)%Z then s else pretty (Z.to_N (secs / 60 mod 60)) +:+ ("m" +:+ s) in
  let s := if (secs <? 3600)%Z then s else pretty (Z.to_N (secs / 3600)) +:+ ("h" +:+ s) in
  if (d <? 0)%Z then "-" +:+ s else s.

(** [t.UTC().Format("20060102-150405")], by the proleptic Gregorian calendar. *)
Definition civil (days : Z) : Z * Z * Z :=
  let z := (days + 719468)%Z in
  let era := (z / 146097)%Z in
  let doe := (z mod 146097)%Z in
  let yoe := ((doe - doe / 1460 + doe / 36524 - doe / 146096) / 365)%Z in
  let doy := (doe - (365 * yoe + yoe / 4 - yoe / 100))%Z in
  let mp := ((5 * doy + 2) / 153)%Z in
  let d := (doy - (153 * mp + 2) / 5 + 1)%Z in
  let m := (if mp <? 10 then mp + 3 else mp - 9)%Z in
  ((yoe + era * 400 + (if m <=? 2 then 1 else 0))%Z, m, d).

Definition Format_suffix (t : time) : string :=
  let secs := (t / Second)%Z in
  let '(y, m, d) := civil (secs / 86400) in
  let s := (secs mod 86400)%Z in
  zero_padded 4 y +:+ (zero_padded 2 m +:+ (zero_padded 2 d +:+ ("-" +:+
    (zero_padded 2 (s / 3600) +:+ (zero_padded 2 (s / 60 mod 60) +:+ zero_padded 2 (s mod 60)))))).

Example Duration_String_minutes : Duration_String (5 * Minute) = "5m0s".
Proof. vm_compute. reflexivity. Qed.
Example Duration_String_mixed : Duration_String (Hour + 90 * Second + 500 * Millisecond) = "1h1m30.5s".
Proof. vm_compute. reflexivity. Qed.
Example Format_suffix_2020 : Format_suffix (1577836800 * Second) = "20200101-000000".
Proof. vm_compute. reflexivity. Qed.
Example Format_suffix_leap : Format_suffix (1709216131 * Second) = "20240229-141531".
Proof. vm_compute. reflexivity. Qed.

(** ** The agent's state *)

(** What upgrade.go reads and sets of Kubernetes' pods. *)
Record Container := {
  ct_Name : string; ct_Image : string; ct_Args : list string;
  ct_VolumeMounts : list (string * string * bool);   (* name, path, read-only *)
}.
Record PodSpec := {
  ps_Containers : list Container; ps_RestartPolicy : string;
  ps_Volumes : list (string * string);   (* name, secret *)
  ps_NodeName : string; ps_SchedulerName : string;
}.
Record Job := {
  jb_Name : string; jb_Labels : gmap string string; jb_BackoffLimit : Z; jb_Completions : Z;
  jb_TTLSecondsAfterFinished : Z; jb_Spec : PodSpec;
}.
Record Secret := { sc_Name : string; sc_Owner : string; sc_Data : gmap string string }.

Record Event := {
  ev_Added : bool; ev_IsEvent : bool; ev_Type : string; ev_Object : string;
  ev_APIVersion : string; ev_Kind : string; ev_Message : string;
}.

Record agent := {
  ag_inProgress : Z;
  ag_lastChecked : time;
  ag_performNaisdUpgrades : bool;
  ag_stopped : bool;
  ag_now : time;
  ag_faults : list (option error);
  ag_statuses : list Status;          (* published, oldest first *)
  ag_lines : list LogLine;            (* the current logger's buffer *)
  ag_files : list string;             (* values files on disk *)
  ag_next_file : N;
  ag_commands : list (list string);   (* arguments of the helm commands run *)
  ag_jobs : list Job;
  ag_secrets : list Secret;
}.
Definition set_ag_inProgress (f : Z → Z) (a : agent) : agent :=
  {| ag_inProgress := f (ag_inProgress a); ag_lastChecked := ag_lastChecked a;
     ag_performNaisdUpgrades := ag_performNaisdUpgrades a; ag_stopped := ag_stopped a;
     ag_now := ag_now a; ag_faults := ag_faults a; ag_statuses := ag_statuses a; ag_lines :=
     ag_lines a; ag_files := ag_files a; ag_next_file := ag_next_file a; ag_commands :=
     ag_commands a; ag_jobs := ag_jobs a; ag_secrets := ag_secrets a |}.
Definition set_ag_lastChecked (f : time → time) (a : agent) : agent :=
  {| ag_inProgress := ag_inProgress a; ag_lastChecked := f (ag_lastChecked a);
     ag_performNaisdUpgrades := ag_performNaisdUpgrades a; ag_stopped := ag_stopped a;
     ag_now := ag_now a; ag_faults := ag_faults a; ag_statuses := ag_statuses a; ag_lines :=
     ag_lines a; ag_files := ag_files a; ag_next_file := ag_next_file a; ag_commands :=
     ag_commands a; ag_jobs := ag_jobs a; ag_secrets := ag_secrets a |}.
Definition set_ag_performNaisdUpgrades (f : bool → bool) (a : agent) : agent :=
  {| ag_inProgress := ag_inProgress a; ag_lastChecked := ag_lastChecked a;
     ag_performNaisdUpgrades := f (ag_performNaisdUpgrades a); ag_stopped := ag_stopped a;
     ag_now := ag_now a; ag_faults := ag_faults a; ag_statuses := ag_statuses a; ag_lines :=
     ag_lines a; ag_files := ag_files a; ag_next_file := ag_next_file a; ag_commands :=
     ag_commands a; ag_jobs := ag_jobs a; ag_secrets := ag_secrets a |}.
Definition set_ag_stopped (f : bool → bool) (a : agent) : agent :=
  {| ag_inProgress := ag_inProgress a; ag_lastChecked := ag_lastChecked a;
     ag_performNaisdUpgrades := ag_performNaisdUpgrades a; ag_stopped := f (ag_stopped a);
     ag_now := ag_now a; ag_faults := ag_faults a; ag_statuses := ag_statuses a; ag_lines :=
     ag_lines a; ag_files := ag_files a; ag_next_file := ag_next_file a; ag_commands :=
     ag_commands a; ag_jobs := ag_jobs a; ag_secrets := ag_secrets a |}.
Definition set_ag_now (f : time → time) (a : agent) : agent :=
  {| ag_inProgress := ag_inProgress a; ag_lastChecked := ag_lastChecked a;
     ag_performNaisdUpgrades := ag_performNaisdUpgrades a; ag_stopped := ag_stopped a;
     ag_now := f (ag_now a); ag_faults := ag_faults a; ag_statuses := ag_statuses a;
     ag_lines := ag_lines a; ag_files := ag_files a; ag_next_file := ag_next_file a;
     ag_commands := ag_commands a; ag_jobs := ag_jobs a; ag_secrets := ag_secrets a |}.
Definition set_ag_faults (f : list (option error) → list (option error)) (a : agent) : agent :=
  {| ag_inProgress := ag_inProgress a; ag_lastChecked := ag_lastChecked a;
     ag_performNaisdUpgrades := ag_performNaisdUpgrades a; ag_stopped := ag_stopped a;
     ag_now := ag_now a; ag_faults := f (ag_faults a); ag_statuses := ag_statuses a;
     ag_lines := ag_lines a; ag_files := ag_files a; ag_next_file := ag_next_file a;
     ag_commands := ag_commands a; ag_jobs := ag_jobs a; ag_secrets := ag_secrets a |}.
Definition set_ag_statuses (f : list Status → list Status) (a : agent) : agent :=
  {| ag_inProgress := ag_inProgress a; ag_lastChecked := ag_lastChecked a;
     ag_performNaisdUpgrades := ag_performNaisdUpgrades a; ag_stopped := ag_stopped a;
     ag_now := ag_now a; ag_faults := ag_faults a; ag_statuses := f (ag_statuses a);
     ag_lines := ag_lines a; ag_files := ag_files a; ag_next_file := ag_next_file a;
     ag_commands := ag_commands a; ag_jobs := ag_jobs a; ag_secrets := ag_secrets a |}.
Definition set_ag_lines (f : list LogLine → list LogLine) (a : agent) : agent :=
  {| ag_inProgress := ag_inProgress a; ag_lastChecked := ag_lastChecked a;
     ag_performNaisdUpgrades := ag_performNaisdUpgrades a; ag_stopped := ag_stopped a;
     ag_now := ag_now a; ag_faults := ag_faults a; ag_statuses := ag_statuses a; ag_lines :=
     f (ag_lines a); ag_files := ag_files a; ag_next_file := ag_next_file a; ag_commands :=
     ag_commands a; ag_jobs := ag_jobs a; ag_secrets := ag_secrets a |}.
Definition set_ag_files (f : list string → list string) (a : agent) : agent :=
  {| ag_inProgress := ag_inProgress a; ag_lastChecked := ag_lastChecked a;
     ag_performNaisdUpgrades := ag_performNaisdUpgrades a; ag_stopped := ag_stopped a;
     ag_now := ag_now a; ag_faults := ag_faults a; ag_statuses := ag_statuses a; ag_lines :=
     ag_lines a; ag_files := f (ag_files a); ag_next_file := ag_next_file a; ag_commands :=
     ag_commands a; ag_jobs := ag_jobs a; ag_secrets := ag_secrets a |}.
Definition set_ag_next_file (f : N → N) (a : agent) : agent :=
  {| ag_inProgress := ag_inProgress a; ag_lastChecked := ag_lastChecked a;
     ag_performNaisdUpgrades := ag_performNaisdUpgrades a; ag_stopped := ag_stopped a;
     ag_now := ag_now a; ag_faults := ag_faults a; ag_statuses := ag_statuses a; ag_lines :=
     ag_lines a; ag_files := ag_files a; ag_next_file := f (ag_next_file a); ag_commands :=
     ag_commands a; ag_jobs := ag_jobs a; ag_secrets := ag_secrets a |}.
Definition set_ag_commands (f : list (list string) → list (list string)) (a : agent) : agent :=
  {| ag_inProgress := ag_inProgress a; ag_lastChecked := ag_lastChecked a;
     ag_performNaisdUpgrades := ag_performNaisdUpgrades a; ag_stopped := ag_stopped a;
     ag_now := ag_now a; ag_faults := ag_faults a; ag_statuses := ag_statuses a; ag_lines :=
     ag_lines a; ag_files := ag_files a; ag_next_file := ag_next_file a; ag_commands := f
     (ag_commands a); ag_jobs := ag_jobs a; ag_secrets := ag_secrets a |}.
Definition set_ag_jobs (f : list Job → list Job) (a : agent) : agent :=
  {| ag_inProgress := ag_inProgress a; ag_lastChecked := ag_lastChecked a;
     ag_performNaisdUpgrades := ag_performNaisdUpgrades a; ag_stopped := ag_stopped a;
     ag_now := ag_now a; ag_faults := ag_faults a; ag_statuses := ag_statuses a; ag_lines :=
     ag_lines a; ag_files := ag_files a; ag_next_file := ag_next_file a; ag_commands :=
     ag_commands a; ag_jobs := f (ag_jobs a); ag_secrets := ag_secrets a |}.
Definition set_ag_secrets (f : list Secret → list Secret) (a : agent) : agent :=
  {| ag_inProgress := ag_inProgress a; ag_lastChecked := ag_lastChecked a;
     ag_performNaisdUpgrades := ag_performNaisdUpgrades a; ag_stopped := ag_stopped a;
     ag_now := ag_now a; ag_faults := ag_faults a; ag_statuses := ag_statuses a; ag_lines :=
     ag_lines a; ag_files := ag_files a; ag_next_file := ag_next_file a; ag_commands :=
     ag_commands a; ag_jobs := ag_jobs a; ag_secrets := f (ag_secrets a) |}.

(** ** Calls that leave the process *)

Class AgentEnv := {
  yaml_Encode : option gomap → outcome string;
  helm_output : list string → list string;             (* the chunks helm writes *)
  helm_releases : list (list string) → list Release;   (* after these commands *)
  encode_Helm : Helm → outcome string;
  encode_HelmRelease : HelmRelease → outcome string;
  encode_Health : time → outcome string;
  encode_StatusLog : StatusLog → outcome string;
  encode_DeployInstruction : DeployInstruction → outcome string;
  decode_DeployInstruction : string → outcome DeployInstruction;
  decode_tag : string → outcome string;                (* json.Unmarshal into a string *)
  chart_values : string → string → outcome (gmap string string);   (* feature.FromChart *)
  hostname_pod : PodSpec;                              (* the agent's own pod *)
  Error_text : error → string;                         (* Error() *)
}.

Definition agent_fault : M agent (option error) := λ a,
  match ag_faults a with
  | [] => (Ok None, a)
  | f :: fs => (Ok f, set_ag_faults (λ _, fs) a)
  end.

(** A call that has its effect or fails without any. *)
Definition call {A} (m : M agent A) : M agent A :=
  f ← agent_fault; match f with Some e => fail e | None => m end.

(** [defer]: [fin] runs whatever the outcome of [m]; its own error is dropped. *)
Definition deferred {A} (fin : M agent unit) (m : M agent A) : M agent A := λ a,
  match m a with
  | (o, a1) =>
      match fin a1 with
      | (Panic p, a2) => (Panic p, a2)
      | (_, a2) => (o, a2)
      end
  end.

(** ** lockedInt, lockedTime *)

(** Dec never leaves the counter negative. *)
Definition dec_value (v : Z) : Z := if (v - 1 <? 0)%Z then 0%Z else (v - 1)%Z.
Definition Inc : M agent unit := modify (set_ag_inProgress (λ v, (v + 1)%Z)).
Definition Dec : M agent unit := modify (set_ag_inProgress dec_value).
Definition lastChecked_Set : M agent unit := λ a, (Ok tt, set_ag_lastChecked (λ _, ag_now a) a).

(** ** Command lines *)

Definition namespaceFor (featureName : string) : string :=
  if HasPrefix featureName "kyverno" then "kyverno" else "nais-system".

(** [Seconds() > 10] of a duration is exact around ten seconds. *)
Definition helm_timeout (d : duration) : duration :=
  if (10 * Second <? d)%Z then d else (5 * Minute)%Z.

Definition helmUpgradeArgs (m : DeployInstruction) (namespace valuesFile : string)
    : outcome (list string) :=
  Ok ["upgrade"; "--atomic"; "--cleanup-on-fail"; "--history-max"; "10"; "--install"; di_Name m;
      di_Chart m; "--namespace"; namespace; "--create-namespace"; "--version"; di_Version m;
      "-f"; valuesFile; "--timeout"; Duration_String (helm_timeout (di_Timeout m))].

Definition uninstall_args (m : DeployInstruction) : list string :=
  ["uninstall"; "--namespace"; namespaceFor (di_Name m); "--timeout";
   Duration_String (helm_timeout (di_Timeout m)); di_Name m].

Definition errRestartRequired : error := ErrSentinel "restart required".
Definition ErrNack : error := ErrSentinel "nack".
Definition errPostpone : error := ErrWrap "postpone" ErrNack.

Section agent.
Context `{agent_env : AgentEnv} (tenantName envName naisProjectID : string)
  (kubeHost kubeCAFile kubeToken : string) (mock debug republish : bool).

(** ** The logger's buffer (pubsub_logger.go) *)

(** [bytes.Split(bytes.TrimSpace(b), "\n")] *)
Definition log_lines (now : time) (b : string) : list LogLine :=
  (λ line, {| ll_Time := now; ll_Msg := line; ll_Kind := "" |}) <$> split_char "010" (TrimSpace b).
Definition Write (b : string) : M agent unit :=
  now ← gets ag_now; modify (set_ag_lines (λ l, l ++ log_lines now b)).

Definition event_text (e : Event) : string :=
  ev_Object e +:+ (" (" +:+ (ev_APIVersion e +:+ (ev_Kind e +:+ ("): " +:+ ev_Message e)))).
Definition event_line (now : time) (e : Event) : LogLine :=
  {| ll_Time := now; ll_Msg := event_text e; ll_Kind := "event" |}.
Definition AddEvent (e : Event) : M agent unit :=
  now ← gets ag_now; modify (set_ag_lines (λ l, l ++ [event_line now e])).

Definition publish (st : Status) : M agent unit := call (modify (set_ag_statuses (λ l, l ++ [st]))).

(** The status of a log carries no tenant or environment. *)
Definition log_Publish (diid : uuid) : M agent unit :=
  lines ← gets ag_lines;
  modify (set_ag_lines (λ _, [])) ;;
  if bool_decide (lines = []) then mret tt
  else
    b ← lift (encode_StatusLog {| sl_DIID := diid; sl_Logs := lines |});
    publish {| st_Tenant := ""; st_Environment := ""; st_Type := StatusTypeLog; st_Data := b |}.

(** ** Reports *)

Definition publishStatus (msg : Helm) : M agent unit :=
  data ← lift (encode_Helm msg);
  publish {| st_Tenant := tenantName; st_Environment := envName; st_Type := StatusTypeHelm;
             st_Data := data |}.

Definition StatusReporter_Run : M agent unit :=
  releases ← wrapping "client.List" (call (gets (λ a, helm_releases (ag_commands a))));
  now ← gets ag_now;
  hrb ← wrapping "json.Marshal" (lift (encode_HelmRelease {| hr_Created := now; hr_Releases := releases |}));
  publish {| st_Tenant := tenantName; st_Environment := envName;
             st_Type := StatusTypeHelmReleases; st_Data := hrb |}.

(** [Trigger], or nothing before [RepublishHelmList] is set. *)
Definition RepublishHelmList : M agent unit :=
  if republish then attempt StatusReporter_Run ;; mret tt else mret tt.

Definition HealthReporter_Run : M agent unit :=
  now ← gets ag_now;
  hrb ← wrapping "json.Marshal" (lift (encode_Health now));
  publish {| st_Tenant := tenantName; st_Environment := envName; st_Type := StatusTypeHealth;
             st_Data := hrb |}.

(** ** Running Helm *)

Definition connectionFlags : list string :=
  ["--kube-apiserver"; kubeHost; "--kube-ca-file"; kubeCAFile; "--kube-token"; kubeToken].

(** Helm writes its output and then ends well or not. *)
Definition runHelm (args : list string) : M agent string :=
  let helmArgs := args ++ connectionFlags ++ (if debug then ["--debug"] else []) in
  modify (set_ag_commands (λ l, l ++ [helmArgs])) ;;
  for_each Write (helm_output helmArgs) ;;
  call (mret "").

(** The file is there before its contents are encoded; an error leaves it. *)
Definition makeHelmValues (m : DeployInstruction) : M agent string :=
  name ← call (λ a, let name := "values-" +:+ (pretty (ag_next_file a) +:+ ".yaml") in
                    (Ok name, set_ag_files (λ l, l ++ [name]) (set_ag_next_file N.succ a)));
  lift (yaml_Encode (di_Values m)) ;;
  mret name.
Definition remove_file (name : string) : M agent unit :=
  call (modify (set_ag_files (filter (λ f, f ≠ name)))).

(** What the watcher of the namespace's events adds while Helm runs. *)
Definition str_contains (s sub : string) : bool :=
  match String.index 0 sub s with Some _ => true | None => false end.
Definition relevant (m : DeployInstruction) (e : Event) : bool :=
  ev_Added e && ev_IsEvent e &&
  (bool_decide (ev_Type e = "Error") || bool_decide (ev_Type e = "Warning")) &&
  str_contains (ev_Object e) (di_Name m).
Definition listenForEvents (m : DeployInstruction) (events : list Event) : M agent unit :=
  r ← attempt (call (mret tt : M agent unit));
  match r with
  | inr e => Write ("failed to watch events: " +:+ (Error_text e +:+ String "010" ""))
  | inl _ => for_each AddEvent (filter (λ e, relevant m e = true) events)
  end.

(** ** Upgrading the agent itself (selfupgrade/upgrade.go) *)

Definition image (v : gmap string string) : string :=
  let tag := match v !! "image.tag" with
             | Some b => match decode_tag b with Ok t => t | _ => "latest" end
             | None => "latest"
             end in
  "europe-north1-docker.pkg.dev/nais-io/nais/images/naisd:" +:+ tag.

(** The last container named naisd and its index; an empty one and index 0 without. *)
Definition find_container (cs : list Container) : Container * nat :=
  foldl (λ acc ic, if bool_decide (ct_Name ic.2 = "naisd") then (ic.2, ic.1) else acc)
    ({| ct_Name := ""; ct_Image := ""; ct_Args := []; ct_VolumeMounts := [] |}, 0%nat)
    (imap (λ i c, (i, c)) cs).

Definition upgrader (suffix : string) : string := "naisd-self-upgrader-" +:+ suffix.

Definition createJob (suffix : string) (spec : PodSpec) (vals : gmap string string) : outcome Job :=
  let (c, i) := find_container (ps_Containers spec) in
  let c := {| ct_Name := ct_Name c; ct_Image := image vals;
              ct_Args := ["--production"; "--nais-project-id"; naisProjectID; "--env"; envName;
                          "--tenant-name"; tenantName; "upgrade"];
              ct_VolumeMounts :=
                ct_VolumeMounts c ++ [("instruction", "/etc/naisd/self-upgrade", true)] |} in
  if bool_decide (i < length (ps_Containers spec))
  then Ok {| jb_Name := upgrader suffix;
             jb_Labels := {[ "app" := "naisd-self-upgrader"; "app.kubernetes.io/instance" := "naisd" ]};
             jb_BackoffLimit := 1; jb_Completions := 1; jb_TTLSecondsAfterFinished := 10800;
             jb_Spec :=
               {| ps_Containers := <[i := c]> (ps_Containers spec); ps_RestartPolicy := "Never";
                  ps_Volumes := ps_Volumes spec ++ [("instruction", upgrader suffix)];
                  ps_NodeName := ""; ps_SchedulerName := "" |} |}
  else Panic "index out of range".

Definition createSecretValues (suffix : string) (values : DeployInstruction) : outcome Secret :=
  let! buf := encode_DeployInstruction values in
  Ok {| sc_Name := upgrader suffix; sc_Owner := upgrader suffix;
        sc_Data := {[ "deploy_instruction.json" := buf +:+ String "010" "" ]} |}.

Definition StartJob (msg : DeployInstruction) : M agent unit :=
  vals ← call (lift (chart_values (di_Chart msg) (di_Version msg)));
  now ← gets ag_now;
  wrapping "unable to get hostname" (call (mret tt)) ;;
  podSpec ← wrapping "failed to get pod spec" (call (mret hostname_pod));
  job ← lift (createJob (Format_suffix now) podSpec vals);
  wrapping "selfupgrade.Start: create job" (call (modify (set_ag_jobs (λ l, l ++ [job])))) ;;
  secret ← wrapping "selfupgrade.Start: generate secret" (lift (createSecretValues (Format_suffix now) msg));
  wrapping "selfupgrade.Start: create secret" (call (modify (set_ag_secrets (λ l, l ++ [secret])))).

(** ** The handler *)

Definition uninstallHandler (msg : DeployInstruction) : M agent unit :=
  if bool_decide (di_Name msg = "naisd") || bool_decide (di_Name msg = "fasitd") ||
     bool_decide (di_Name msg = "")
  then mret tt
  else
    modify (set_ag_lines (λ _, [])) ;;
    deferred (log_Publish (di_ID msg)) (
      r ← attempt (runHelm (uninstall_args msg));
      RepublishHelmList ;;
      match r with inl _ => mret tt | inr e => fail e end).

(** Whether to go on with the deploy here; an upgrade of the agent is postponed while
    others are in progress, or handed to a job. *)
Definition naisd_guard (msg : DeployInstruction) : M agent unit :=
  perform ← gets ag_performNaisdUpgrades;
  if bool_decide (di_Name msg = "naisd") && negb perform then
    inProgress ← gets ag_inProgress;
    if (0 <? inProgress)%Z then
      due ← gets (λ a, (ag_lastChecked a + 15 * Second <? ag_now a)%Z);
      (if (due : bool) then
         Write ("Postponing naisd upgrade, " +:+ (pretty (Z.to_N inProgress) +:+
           (" deployments in progress" +:+ String "010" ""))) ;;
         lastChecked_Set
       else mret tt) ;;
      fail errPostpone
    else if mock then Write ("MockExecutor, not starting regular naisd upgrade" +:+ String "010" "")
    else
      StartJob msg ;;
      modify (set_ag_now (λ t, (t + Second)%Z)) ;;
      modify (set_ag_stopped (λ _, true)) ;;
      fail errRestartRequired
  else mret tt.

Definition helm_status (msg : DeployInstruction) (status : DeployStatus) (err : string) : Helm :=
  {| h_DIID := di_ID msg; h_Name := ""; h_Version := ""; h_RolloutStatus := status;
     h_ConfigHash := di_ConfigHash msg; h_Log := ""; h_Error := err |}.

Definition final_status (msg : DeployInstruction) (r : string + error) : Helm :=
  match r with
  | inl _ => helm_status msg DeployStatusDeployed ""
  | inr err => helm_status msg DeployStatusFailed (Error_text err)
  end.

Definition run_and_report (msg : DeployInstruction) (events : list Event) (args : list string)
    : M agent unit :=
  listenForEvents msg events ;;
  r ← attempt (runHelm args);
  RepublishHelmList ;;
  publishStatus (final_status msg r).

Definition deploy_with (msg : DeployInstruction) (events : list Event) (valuesFile : string)
    : M agent unit :=
  args ← lift (helmUpgradeArgs msg (namespaceFor (di_Name msg)) valuesFile);
  attempt (publishStatus (helm_status msg DeployStatusInstalling "")) ;;
  run_and_report msg events args.

(** [events] are those the watcher of the namespace sees meanwhile. *)
Definition agent_handler (events : list Event) (msg : DeployInstruction) : M agent unit :=
  if di_Uninstall msg then uninstallHandler msg
  else
    modify (set_ag_lines (λ _, [])) ;;
    deferred (log_Publish (di_ID msg)) (
      naisd_guard msg ;;
      Inc ;;
      deferred Dec (
        valuesFile ← makeHelmValues msg;
        deferred (remove_file valuesFile) (deploy_with msg events valuesFile))).

(** upgrade_naisd.go, with the contents of the mounted file *)
Definition Upgrade (file : string) (events : list Event) : M agent unit :=
  modify (set_ag_performNaisdUpgrades (λ _, true)) ;;
  msg ← wrapping "naisd.Upgrade: unable to get instruction from file"
    (call (lift (decode_DeployInstruction file)));
  agent_handler events msg.

(** ** What the server and the cluster see of the agent *)

Definition is_helm (st : Status) : bool :=
  match st_Type st with StatusTypeHelm => true | _ => false end.
Definition helm_statuses (a : agent) : list Status := filter (λ st, is_helm st = true) (ag_statuses a).

Record view := { v_inProgress : Z; v_perform : bool; v_commands : list (list string);
                 v_files : list string; v_helm : list Status }.
Definition view_of (a : agent) : view :=
  {| v_inProgress := ag_inProgress a; v_perform := ag_performNaisdUpgrades a;
     v_commands := ag_commands a; v_files := ag_files a; v_helm := helm_statuses a |}.

(** Operations nothing of which shows, whatever their outcome. *)
Definition quiet {A} (m : M agent A) : Prop := ∀ a, view_of (m a).2 = view_of a.

Lemma quiet_ret {A} (x : A) : quiet (mret x).
Proof. by intros a. Qed.
Lemma quiet_fail {A} e : quiet (fail (A := A) e).
Proof. by intros a. Qed.
Lemma quiet_gets {A} (f : agent → A) : quiet (gets f).
Proof. by intros a. Qed.
Lemma quiet_lift {A} (o : outcome A) : quiet (lift o).
Proof. by intros a. Qed.
Lemma quiet_modify f : (∀ a, view_of (f a) = view_of a) → quiet (modify f).
Proof. intros Hf a. apply Hf. Qed.
Lemma quiet_bind {A B} (m : M agent A) (f : A → M agent B) :
  quiet m → (∀ x, quiet (f x)) → quiet (m ≫= f).
Proof.
  intros Hm Hf a. specialize (Hm a). unfold mbind, M_bind.
  destruct (m a) as [[x|e|p] a1]; simpl in *; [by rewrite Hf|done..].
Qed.
Lemma quiet_attempt {A} (m : M agent A) : quiet m → quiet (attempt m).
Proof. intros Hm a. specialize (Hm a). unfold attempt. by destruct (m a) as [[] ?]. Qed.
Lemma quiet_wrapping {A} prefix (m : M agent A) : quiet m → quiet (wrapping prefix m).
Proof. intros Hm a. specialize (Hm a). unfold wrapping. by destruct (m a). Qed.
Lemma quiet_fault : quiet agent_fault.
Proof. intros a. unfold agent_fault. by destruct (ag_faults a). Qed.
Lemma quiet_call {A} (m : M agent A) : quiet m → quiet (call m).
Proof.
  intros Hm. apply quiet_bind; [apply quiet_fault|]. intros [e|]; [apply quiet_fail|done].
Qed.
Lemma quiet_for_each {A} (f : A → M agent unit) l : (∀ x, quiet (f x)) → quiet (for_each f l).
Proof. intros Hf. induction l as [|x l IH]; [apply quiet_ret|]. by apply quiet_bind. Qed.

Lemma quiet_Write b : quiet (Write b).
Proof. by intros a. Qed.
Lemma quiet_AddEvent e : quiet (AddEvent e).
Proof. by intros a. Qed.
Lemma quiet_lines f : quiet (modify (set_ag_lines f)).
Proof. by intros a. Qed.

Lemma quiet_publish st : is_helm st = false → quiet (publish st).
Proof.
  intros Hs. apply quiet_call, quiet_modify. intros a. unfold view_of, helm_statuses. simpl.
  rewrite filter_app, filter_cons, decide_False, filter_nil, app_nil_r by congruence. done.
Qed.

Lemma quiet_log_Publish diid : quiet (log_Publish diid).
Proof.
  apply quiet_bind; [apply quiet_gets|]. intros lines. apply quiet_bind; [by apply quiet_lines|].
  intros _. destruct (bool_decide _); [apply quiet_ret|]. apply quiet_bind; [apply quiet_lift|].
  intros b. by apply quiet_publish.
Qed.

Lemma quiet_RepublishHelmList : quiet RepublishHelmList.
Proof.
  unfold RepublishHelmList. destruct republish; [|apply quiet_ret].
  apply quiet_bind; [|intros; apply quiet_ret]. apply quiet_attempt.
  apply quiet_bind; [by apply quiet_wrapping, quiet_call, quiet_gets|]. intros rels.
  apply quiet_bind; [apply quiet_gets|]. intros now.
  apply quiet_bind; [apply quiet_wrapping, quiet_lift|]. intros b. by apply quiet_publish.
Qed.

Lemma quiet_listenForEvents msg events : quiet (listenForEvents msg events).
Proof.
  apply quiet_bind; [apply quiet_attempt, quiet_call, quiet_ret|].
  intros [_|e]; [apply quiet_for_each; intros; apply quiet_AddEvent|apply quiet_Write].
Qed.

Lemma run_cases {A B} (m : M agent A) (f : A → M agent B) a o a' :
  (m ≫= f) a = (o, a') →
  (∃ x a1, m a = (Ok x, a1) ∧ f x a1 = (o, a')) ∨
  (∃ o1, m a = (o1, a') ∧ is_Ok o1 = false ∧ is_Ok o = false).
Proof.
  unfold mbind, M_bind. destruct (m a) as [[x|e|p] a1] eqn:E; intros H; [left; by exists x, a1|..];
    injection H as <- <-; right; by eexists.
Qed.

Lemma run_quiet {A B} (m : M agent A) (f : A → M agent B) a o a' :
  quiet m → (m ≫= f) a = (o, a') →
  (view_of a' = view_of a ∧ is_Ok o = false) ∨
  ∃ x a1, view_of a1 = view_of a ∧ f x a1 = (o, a').
Proof.
  intros Hm [(x & a1 & E & H)|(o1 & E & Ho1 & Ho)]%run_cases; specialize (Hm a); rewrite E in Hm;
    [right; by exists x, a1|by left].
Qed.

Definition helm_message (msg : DeployInstruction) (status : DeployStatus) (err : string) (st : Status)
    : Prop :=
  st_Tenant st = tenantName ∧ st_Environment st = envName ∧ st_Type st = StatusTypeHelm ∧
  encode_Helm (helm_status msg status err) = Ok (st_Data st).

(** More commands and Helm statuses. *)
Definition plus (v : view) (cmds : list (list string)) (helm : list Status) : view :=
  {| v_inProgress := v_inProgress v; v_perform := v_perform v; v_commands := v_commands v ++ cmds;
     v_files := v_files v; v_helm := v_helm v ++ helm |}.

Lemma plus_nil v : plus v [] [] = v.
Proof. unfold plus. rewrite !app_nil_r. by destruct v. Qed.
Lemma plus_plus v c1 h1 c2 h2 : plus (plus v c1 h1) c2 h2 = plus v (c1 ++ c2) (h1 ++ h2).
Proof. unfold plus. simpl. by rewrite !app_assoc. Qed.

(** Publishing a Helm status adds it to what is seen, or fails and adds nothing. *)
Lemma publishStatus_run h a o a' :
  publishStatus h a = (o, a') →
  ∃ sts, view_of a' = plus (view_of a) [] sts ∧
    if is_Ok o then ∃ st, sts = [st] ∧ st_Tenant st = tenantName ∧ st_Environment st = envName ∧
      st_Type st = StatusTypeHelm ∧ encode_Helm h = Ok (st_Data st)
    else sts = [].
Proof.
  unfold publishStatus. intros [(b & a1 & E & H)|(o1 & E & Ho1 & ->)]%run_cases.
  2: { injection E as _ <-. exists []. by rewrite plus_nil. }
  injection E as Eb <-. unfold publish, call in H.
  assert (Hq : ∀ f a1, agent_fault a = (f, a1) → view_of a1 = view_of a).
  { intros f a1 Ef. pose proof (quiet_fault a) as Hq. by rewrite Ef in Hq. }
  apply run_cases in H as [(f & a1 & Ef & H)|(o1 & Ef & _ & ->)]; apply Hq in Ef.
  2: { exists []. by rewrite plus_nil, Ef. }
  destruct f as [e|]; unfold fail, modify in H; injection H as <- <-.
  { exists []. by rewrite plus_nil, Ef. }
  eexists [_]. split.
  - unfold plus, view_of, helm_statuses in *. simpl. injection Ef as -> -> -> -> Hh.
    by rewrite filter_app, Hh, filter_cons, decide_True, filter_nil, app_nil_r.
  - cbn [is_Ok]. eexists. split; [done|]. by split_and!.
Qed.

Definition full_command (args : list string) : list string :=
  args ++ connectionFlags ++ (if debug then ["--debug"] else []).

Lemma runHelm_run args a : view_of (runHelm args a).2 = plus (view_of a) [full_command args] [].
Proof.
  unfold runHelm. fold (full_command args). cbv zeta. unfold mbind at 1, M_bind at 1. cbn [modify].
  assert (quiet (for_each Write (helm_output (full_command args)) ;; call (mret "" : M agent string)))
    as Hq; [|rewrite (Hq _); unfold plus; simpl; by rewrite app_nil_r].
  apply quiet_bind; [apply quiet_for_each; intros; apply quiet_Write|].
  intros _. apply quiet_call, quiet_ret.
Qed.

(** The final status of an instruction. *)
Definition final_message (msg : DeployInstruction) (st : Status) : Prop :=
  helm_message msg DeployStatusDeployed "" st ∨
  ∃ err, helm_message msg DeployStatusFailed (Error_text err) st.

(** The statuses a run may have published: at most one while it lasts, and the final one
    exactly when it succeeded. *)
Definition reported (msg : DeployInstruction) (ok : bool) (fin : list Status) : Prop :=
  if ok then ∃ st, fin = [st] ∧ final_message msg st else fin = [].

Lemma report_run msg r a o a' :
  (RepublishHelmList ;; publishStatus (final_status msg r)) a = (o, a') →
  ∃ fin, view_of a' = plus (view_of a) [] fin ∧ reported msg (is_Ok o) fin.
Proof.
  intros [[Hv ->]|(x & a1 & Hv & H)]%run_quiet; [| |apply quiet_RepublishHelmList].
  { exists []. by rewrite plus_nil. }
  apply publishStatus_run in H as (fin & Hv2 & Hf). exists fin. rewrite Hv2, Hv. split; [done|].
  unfold reported. destruct (is_Ok o); [|done]. destruct Hf as (st & -> & H1 & H2 & H3 & H4).
  exists st. split; [done|]. destruct r as [x'|e]; [left|right; exists e]; by split_and!.
Qed.

Lemma run_and_report_run msg events args a o a' :
  run_and_report msg events args a = (o, a') →
  ∃ cmds fin, view_of a' = plus (view_of a) cmds fin ∧ reported msg (is_Ok o) fin ∧
    (cmds = [full_command args] ∨ cmds = [] ∧ is_Ok o = false).
Proof.
  intros [[Hv ->]|(x & a1 & Hv & H)]%run_quiet; [| |apply quiet_listenForEvents].
  { exists [], []. rewrite plus_nil. split_and!; [done|done|by right]. }
  unfold mbind at 1, M_bind at 1, attempt at 1 in H.
  pose proof (runHelm_run args a1) as Hr. destruct (runHelm args a1) as [o1 a2]. cbn [snd] in Hr.
  rewrite Hv in Hr. destruct o1 as [y|e|p].
  3: { injection H as <- <-. exists [full_command args], []. split_and!; [done|done|by left]. }
  all: apply report_run in H as (fin & Hv2 & Hf); exists [full_command args], fin;
    rewrite Hv2, Hr, plus_plus; auto.
Qed.

Lemma deploy_with_run msg events vf a o a' :
  deploy_with msg events vf a = (o, a') →
  ∃ args cmds inst fin, helmUpgradeArgs msg (namespaceFor (di_Name msg)) vf = Ok args ∧
    view_of a' = plus (view_of a) cmds (inst ++ fin) ∧ reported msg (is_Ok o) fin ∧
    (cmds = [full_command args] ∨ cmds = [] ∧ is_Ok o = false) ∧
    (inst = [] ∨ ∃ st, inst = [st] ∧ helm_message msg DeployStatusInstalling "" st).
Proof.
  unfold deploy_with. intros H. destruct (helmUpgradeArgs _ _ _) as [args|e|p] eqn:Ea;
    [|unfold helmUpgradeArgs in Ea; discriminate Ea..].
  exists args. unfold mbind at 1, M_bind at 1 in H. cbn [lift] in H.
  unfold mbind, M_bind, attempt in H.
  destruct (publishStatus _ a) as [o1 a1] eqn:E1.
  apply publishStatus_run in E1 as (inst & Hv1 & Hi).
  assert (Hinst : inst = [] ∨ ∃ st, inst = [st] ∧ helm_message msg DeployStatusInstalling "" st).
  { destruct (is_Ok o1); [right|by left]. destruct Hi as (st & -> & ?). by exists st. }
  destruct o1 as [x|e|p].
  3: { injection H as <- <-. exists [], inst, []. rewrite app_nil_r. split_and!; [done|done|done|by right|done]. }
  all: apply run_and_report_run in H as (cmds & fin & Hv2 & Hf & Hc);
    exists cmds, inst, fin; rewrite Hv2, Hv1, plus_plus; by split_and!.
Qed.

(** A deferred function runs last; it can only turn the outcome into a panic. *)
Lemma deferred_run {A} fin (m : M agent A) a o a' :
  deferred fin m a = (o, a') →
  ∃ o1 a1 fo, m a = (o1, a1) ∧ fin a1 = (fo, a') ∧ (is_Ok o = true → o1 = o).
Proof.
  unfold deferred. destruct (m a) as [o1 a1]. destruct (fin a1) as [fo a2] eqn:E. intros H.
  exists o1, a1, fo. split; [done|].
  destruct fo; injection H as <- <-; (split; [done|]); try done; by intros.
Qed.

Lemma deferred_quiet {A} fin (m : M agent A) a o a' :
  quiet fin → deferred fin m a = (o, a') →
  ∃ o1 a1, m a = (o1, a1) ∧ view_of a' = view_of a1 ∧ (is_Ok o = true → o1 = o).
Proof.
  intros Hq (o1 & a1 & fo & Hm & Hf & Ho)%deferred_run. exists o1, a1.
  specialize (Hq a1). rewrite Hf in Hq. auto.
Qed.

Definition with_inProgress (n : Z) (v : view) : view :=
  {| v_inProgress := n; v_perform := v_perform v; v_commands := v_commands v;
     v_files := v_files v; v_helm := v_helm v |}.
Definition with_files (fs : list string) (v : view) : view :=
  {| v_inProgress := v_inProgress v; v_perform := v_perform v; v_commands := v_commands v;
     v_files := fs; v_helm := v_helm v |}.

Lemma remove_file_run name a o a' :
  remove_file name a = (o, a') → ∃ fs, view_of a' = with_files fs (view_of a).
Proof.
  unfold remove_file, call. intros [(f & a1 & E & H)|(o1 & E & _ & _)]%run_cases;
    pose proof (quiet_fault a) as Hq; rewrite E in Hq; cbn [snd] in Hq.
  - exists (match f with Some _ => ag_files a1 | None => filter (λ f, f ≠ name) (ag_files a1) end).
    destruct f as [e|]; unfold fail, modify in H; injection H as _ <-; rewrite <-Hq; done.
  - exists (ag_files a'). by rewrite <-Hq.
Qed.

Lemma makeHelmValues_run msg a o a' :
  makeHelmValues msg a = (o, a') → ∃ fs, view_of a' = with_files fs (view_of a).
Proof.
  unfold makeHelmValues. intros [(name & a1 & E & H)|(o1 & E & Ho1 & _)]%run_cases.
  - assert (a' = a1) as ->.
    { unfold mbind, M_bind, lift in H. by destruct (yaml_Encode _); injection H as _ <-. }
    clear H. apply run_cases in E as [(f & a2 & E & H)|(o1 & E & _ & ?)]; [|done].
    pose proof (quiet_fault a) as Hq. rewrite E in Hq. cbn [snd] in Hq.
    destruct f as [e|]; [done|]. injection H as _ <-. rewrite <-Hq. by eexists.
  - apply run_cases in E as [(f & a2 & E & H)|(o2 & E & _ & _)];
      pose proof (quiet_fault a) as Hq; rewrite E in Hq; cbn [snd] in Hq.
    + destruct f as [e|]; [|by injection H as <- _].
      injection H as _ <-. rewrite <-Hq. by eexists.
    + rewrite <-Hq. by eexists.
Qed.

Lemma quiet_StartJob msg : quiet (StartJob msg).
Proof.
  unfold StartJob.
  repeat first [apply quiet_wrapping | apply quiet_call | apply quiet_lift | apply quiet_gets
    | apply quiet_ret | by apply quiet_modify | apply quiet_bind; [|intros ?]].
Qed.

(** The guard lets a deploy through, unseen, or ends the handler. *)
Lemma naisd_guard_run msg a o a' :
  naisd_guard msg a = (o, a') →
  view_of a' = view_of a ∧
  (is_Ok o = true → di_Name msg ≠ "naisd" ∨ ag_performNaisdUpgrades a = true ∨ mock = true) ∧
  (is_Ok o = false → di_Name msg = "naisd" ∧ ag_performNaisdUpgrades a = false).
Proof.
  unfold naisd_guard. intros H. unfold mbind at 1, M_bind at 1 in H. cbn [gets] in H.
  destruct (bool_decide (di_Name msg = "naisd") && negb (ag_performNaisdUpgrades a)) eqn:Eg.
  2: { injection H as <- <-. split; [done|]. split; [|done]. intros _.
       apply andb_false_iff in Eg as [Eg%bool_decide_eq_false|Eg%negb_false_iff]; auto. }
  apply andb_true_iff in Eg as [Hn%bool_decide_eq_true Hp%negb_true_iff].
  unfold mbind at 1, M_bind at 1 in H. cbn [gets] in H.
  destruct (0 <? ag_inProgress a)%Z.
  { unfold mbind at 1, M_bind at 1 in H. cbn [gets] in H.
    destruct (_ <? _)%Z in H; injection H as <- <-; by split_and!. }
  destruct mock; [injection H as <- <-; split_and!; auto; done|].
  apply run_quiet in H as [[Hv Ho]|(x & a1 & Hv & H)]; [by rewrite Ho| |apply quiet_StartJob].
  injection H as <- <-. split_and!; [exact Hv|done|done].
Qed.

(** Deploying, once the guard has let the instruction through. *)
Definition deploy_here (msg : DeployInstruction) (events : list Event) : M agent unit :=
  Inc ;;
  deferred Dec (
    valuesFile ← makeHelmValues msg;
    deferred (remove_file valuesFile) (deploy_with msg events valuesFile)).

(** Of two outcomes, the second succeeds only if the first does. *)
Lemma ok_implied {A} (o1 o : outcome A) : (is_Ok o = true → o1 = o) → is_Ok o = true → is_Ok o1 = true.
Proof. intros H Ho. by rewrite (H Ho). Qed.

(** What a deploy adds to what is seen. *)
Definition deploy_effect (msg : DeployInstruction) (ok : bool) (v v' : view) : Prop :=
  ∃ vf cmds inst fin done fs,
    v' = with_files fs (plus v cmds (inst ++ fin)) ∧
    (cmds = [] ∧ ok = false ∨ ∃ args, helmUpgradeArgs msg (namespaceFor (di_Name msg)) vf = Ok args ∧
       cmds = [full_command args]) ∧
    (inst = [] ∨ ∃ st, inst = [st] ∧ helm_message msg DeployStatusInstalling "" st) ∧
    reported msg done fin ∧ (ok = true → done = true).

Lemma deploy_here_run msg events a o a' :
  (0 <= ag_inProgress a)%Z → deploy_here msg events a = (o, a') →
  deploy_effect msg (is_Ok o) (view_of a) (view_of a').
Proof.
  intros Hpos H. unfold deploy_here in H. unfold mbind at 1, M_bind at 1 in H. cbn [Inc modify] in H.
  set (a0 := set_ag_inProgress _ a) in H.
  apply deferred_run in H as (o1 & a1 & fo & H & Hd & Ho).
  assert (Hv' : view_of a' = with_inProgress (dec_value (ag_inProgress a1)) (view_of a1))
    by (by injection Hd as _ <-).
  assert (Hback : ∀ fs cmds helm, view_of a1 = with_files fs (plus (view_of a0) cmds helm) →
    view_of a' = with_files fs (plus (view_of a) cmds helm)).
  { intros fs cmds helm Hv1. rewrite Hv', Hv1. unfold view_of in Hv1. injection Hv1 as Hi _ _ _ _.
    rewrite Hi. unfold with_inProgress, with_files, plus, dec_value. simpl.
    rewrite (proj2 (Z.ltb_ge _ _)) by lia. by replace (ag_inProgress a + 1 - 1)%Z with (ag_inProgress a) by lia. }
  apply run_cases in H as [(vf & a2 & E & H)|(o2 & E & _ & Ho1)].
  - apply makeHelmValues_run in E as [fs2 Hv2].
    apply deferred_run in H as (o3 & a3 & fo3 & H & Hr & Ho3).
    apply deploy_with_run in H as (args & cmds & inst & fin & Hargs & Hv3 & Hrep & Hc & Hi).
    apply remove_file_run in Hr as [fs Hv1].
    exists vf, cmds, inst, fin, (is_Ok o3), fs. split.
    { apply Hback. rewrite Hv1, Hv3, Hv2. done. }
    split; [|split; [done|split; [done|]]].
    + destruct Hc as [Hc|[Hc Ho3']]; [right; by exists args|left; split; [done|]].
      apply not_true_is_false. intros Hok. pose proof (ok_implied _ _ Ho Hok) as Hok1.
      rewrite (ok_implied _ _ Ho3 Hok1) in Ho3'. done.
    + intros Hok. apply (ok_implied _ _ Ho3). by apply (ok_implied _ _ Ho).
  - apply makeHelmValues_run in E as [fs Hv1].
    exists "", [], [], [], false, fs. split; [apply Hback; by rewrite plus_nil|].
    assert (Hnok : is_Ok o = false).
    { apply not_true_is_false. intros Hok. by rewrite (ok_implied _ _ Ho Hok) in Ho1. }
    split; [by left|]. split; [by left|]. split; [done|by rewrite Hnok].
Qed.

(** What a deploy does. *)
Lemma agent_handler_run events msg a o a' :
  di_Uninstall msg = false → (0 <= ag_inProgress a)%Z →
  agent_handler events msg a = (o, a') →
  if bool_decide (di_Name msg = "naisd") && negb (ag_performNaisdUpgrades a) && negb mock
  then view_of a' = view_of a ∧ is_Ok o = false
  else view_of a' = view_of a ∧ is_Ok o = false ∨ deploy_effect msg (is_Ok o) (view_of a) (view_of a').
Proof.
  intros Hun Hpos H. unfold agent_handler in H. rewrite Hun in H.
  unfold mbind at 1, M_bind at 1 in H. cbn [modify] in H. set (a0 := set_ag_lines _ a) in H.
  apply deferred_quiet in H as (o1 & a1 & H & Hv & Ho); [|apply quiet_log_Publish].
  rewrite Hv. change (view_of a) with (view_of a0). change (ag_performNaisdUpgrades a) with
    (ag_performNaisdUpgrades a0). apply run_cases in H as [(x & a2 & E & H)|(o2 & E & Ho2 & Ho1)];
    pose proof (naisd_guard_run _ _ _ _ E) as (Hv2 & Hok & Hno).
  - fold (deploy_here msg events) in H.
    assert (Hpos2 : (0 <= ag_inProgress a2)%Z).
    { unfold view_of in Hv2. injection Hv2 as -> _. exact Hpos. }
    apply deploy_here_run in H; [|done]. rewrite Hv2 in H.
    assert (Heff : deploy_effect msg (is_Ok o) (view_of a0) (view_of a1)).
    { destruct H as (vf & cmds & inst & fin & d & fs & He & Hc & Hi & Hr & Hd).
      exists vf, cmds, inst, fin, d, fs. split; [done|]. split.
      - destruct Hc as [[Hc Hf]|Hc]; [left|by right]. split; [done|]. apply not_true_is_false.
        intros Ht. by rewrite (ok_implied _ _ Ho Ht) in Hf.
      - split; [done|]. split; [done|]. intros Ht. apply Hd. by apply (ok_implied _ _ Ho). }
    specialize (Hok eq_refl). destruct Hok as [Hn|[Hp| ->]].
    + rewrite bool_decide_eq_false_2 by done. by right.
    + rewrite Hp, andb_false_r. by right.
    + rewrite andb_false_r. by right.
  - assert (is_Ok o = false).
    { apply not_true_is_false. intros Ht. by rewrite (ok_implied _ _ Ho Ht) in Ho1. }
    destruct (_ && _ && _); [done|by left].
Qed.

Lemma agent_handler_effect events msg a o a' :
  di_Uninstall msg = false → (0 <= ag_inProgress a)%Z → agent_handler events msg a = (o, a') →
  view_of a' = view_of a ∧ is_Ok o = false ∨ deploy_effect msg (is_Ok o) (view_of a) (view_of a').
Proof. intros Hu Hp H. apply agent_handler_run in H; [|done..]. destruct (_ && _ && _); auto. Qed.

(** C9.  What the agent does with an instruction to deploy, whatever fails: it runs at most
    one Helm command, the upgrade of that chart and version; it publishes at most the
    status [installing] and then one final status, [deployed] or [failed], all carrying the
    instruction's identifier and hash; it returns without error only if the command was run
    and the final status was published; and the count of deploys in progress is as before.
    An upgrade of the agent itself that is postponed or handed to a job runs and reports
    nothing and returns an error. *)
Theorem agent_handler_deploys events msg a o a' :
  di_Uninstall msg = false → (0 <= ag_inProgress a)%Z →
  agent_handler events msg a = (o, a') →
  if bool_decide (di_Name msg = "naisd") && negb (ag_performNaisdUpgrades a) && negb mock
  then view_of a' = view_of a ∧ is_Ok o = false
  else view_of a' = view_of a ∧ is_Ok o = false ∨ deploy_effect msg (is_Ok o) (view_of a) (view_of a').
Proof. apply agent_handler_run. Qed.

(** An uninstall never touches the agents or the empty name; otherwise it runs exactly
    one Helm command, the uninstall of that release, and never publishes a Helm status. *)
Theorem agent_handler_uninstalls events msg a o a' :
  di_Uninstall msg = true → agent_handler events msg a = (o, a') →
  view_of a' = if bool_decide (di_Name msg ∈ ["naisd"; "fasitd"; ""]) then view_of a
               else plus (view_of a) [full_command (uninstall_args msg)] [].
Proof.
  intros Hun H. unfold agent_handler in H. rewrite Hun in H. unfold uninstallHandler in H.
  assert (Heq : bool_decide (di_Name msg ∈ ["naisd"; "fasitd"; ""]) =
    bool_decide (di_Name msg = "naisd") || bool_decide (di_Name msg = "fasitd") ||
    bool_decide (di_Name msg = "")).
  { apply eq_true_iff_eq. rewrite !orb_true_iff, !bool_decide_eq_true.
    rewrite !elem_of_cons, elem_of_nil. tauto. }
  rewrite Heq. destruct (_ || _); [by injection H as _ <-|].
  unfold mbind at 1, M_bind at 1 in H. cbn [modify] in H.
  apply deferred_quiet in H as (o1 & a1 & H & Hv & _); [|apply quiet_log_Publish]. rewrite Hv.
  unfold mbind at 1, M_bind at 1, attempt at 1 in H.
  match type of H with context [runHelm ?args ?s] => pose proof (runHelm_run args s) as Hr;
    destruct (runHelm args s) as [o2 a2] end.
  cbn [snd] in Hr. assert (Hq : ∀ r : string + error, quiet (RepublishHelmList ;;
    match r with inl _ => mret tt | inr e => fail e end : M agent unit)).
  { intros r. apply quiet_bind; [apply quiet_RepublishHelmList|]. intros _.
    destruct r; [apply quiet_ret|apply quiet_fail]. }
  destruct o2 as [x|e|p]; [specialize (Hq (inl x) a2)|specialize (Hq (inr e) a2)|].
  1,2: apply (f_equal snd) in H; cbn [snd] in H; rewrite <-H; etransitivity; [exact Hq|exact Hr].
  by injection H as _ <-.
Qed.

Lemma makeHelmValues_error msg a e :
  ag_faults a = [] → yaml_Encode (di_Values msg) = Err e →
  makeHelmValues msg a = (Err e, set_ag_files (λ l, l ++ ["values-" +:+ (pretty (ag_next_file a) +:+ ".yaml")])
                                   (set_ag_next_file N.succ a)).
Proof.
  intros Hf He. unfold makeHelmValues, call, agent_fault, mbind, M_bind. rewrite Hf. cbn.
  unfold lift. by rewrite He.
Qed.

(** When the values of an instruction cannot be written, the agent stops without a
    word: no command is run and no status is published, although the message is already
    acknowledged, so that the server can only time out; and the values file stays on disk. *)
Theorem agent_values_error events msg a e :
  di_Uninstall msg = false → di_Name msg ≠ "naisd" → (0 <= ag_inProgress a)%Z →
  ag_faults a = [] → yaml_Encode (di_Values msg) = Err e →
  ∃ a' name, agent_handler events msg a = (Err e, a') ∧
    ag_statuses a' = ag_statuses a ∧ ag_commands a' = ag_commands a ∧
    ag_inProgress a' = ag_inProgress a ∧ ag_files a' = ag_files a ++ [name].
Proof.
  intros Hun Hn Hpos Hf He. unfold agent_handler. rewrite Hun.
  unfold mbind at 1, M_bind at 1. cbn [modify]. set (a0 := set_ag_lines _ a).
  assert (Hg : naisd_guard msg a0 = (Ok tt, a0)).
  { unfold naisd_guard, mbind, M_bind. cbn [gets]. by rewrite bool_decide_eq_false_2. }
  unfold deferred at 1. unfold mbind at 1, M_bind at 1. rewrite Hg.
  unfold mbind at 1, M_bind at 1. cbn [Inc modify]. set (a1 := set_ag_inProgress _ a0).
  unfold deferred at 1. unfold mbind at 1, M_bind at 1.
  rewrite (makeHelmValues_error msg a1 e Hf He). cbn [Dec modify].
  eexists _, _. split; [reflexivity|]. split_and!; try reflexivity.
  cbn. unfold dec_value. rewrite (proj2 (Z.ltb_ge _ _)) by lia. lia.
Qed.
End agent.

(** ** Instances *)

#[local] Instance Helm_eq_dec : EqDecision Helm.
Proof. solve_decision. Defined.

(** Statuses are encoded as their text when the given decoder reads them back. *)
Definition example_agent_env (dec : string → option Helm) (vals : outcome string) : AgentEnv := {|
  yaml_Encode _ := vals; helm_output _ := ["done"]; helm_releases _ := [];
  encode_Helm h := if bool_decide (dec (h_RolloutStatus h) = Some h) then Ok (h_RolloutStatus h)
                   else Err (ErrString "json");
  encode_HelmRelease _ := Ok ""; encode_Health _ := Ok ""; encode_StatusLog _ := Ok "";
  encode_DeployInstruction _ := Ok ""; decode_DeployInstruction _ := Err (ErrString "json");
  decode_tag s := Ok s; chart_values _ _ := Ok ∅;
  hostname_pod := {| ps_Containers := [{| ct_Name := "naisd"; ct_Image := ""; ct_Args := [];
                       ct_VolumeMounts := [] |}]; ps_RestartPolicy := ""; ps_Volumes := [];
                     ps_NodeName := "n1"; ps_SchedulerName := "" |};
  Error_text _ := "failed";
|}.

(** Decodes the text as the status of instruction 1000 with hash h. *)
Definition example_decode (s : string) : option Helm :=
  Some {| h_DIID := 1000; h_Name := ""; h_Version := ""; h_RolloutStatus := s; h_ConfigHash := "h";
          h_Log := ""; h_Error := if bool_decide (s = DeployStatusFailed) then "failed" else "" |}.

Definition example_agent : agent :=
  {| ag_inProgress := 0; ag_lastChecked := 0; ag_performNaisdUpgrades := false; ag_stopped := false;
     ag_now := 100; ag_faults := []; ag_statuses := []; ag_lines := []; ag_files := [];
     ag_next_file := 1; ag_commands := []; ag_jobs := []; ag_secrets := [] |}.

Definition example_instruction (name : string) (uninstall : bool) : DeployInstruction :=
  {| di_ID := 1000; di_Name := name; di_Version := "1.0.0"; di_Chart := "oci://charts/app";
     di_ConfigHash := "h"; di_Timeout := 0; di_Values := Some ∅; di_Uninstall := uninstall |}.

#[local] Abbreviation example_agent_handler vals := (agent_handler
  (agent_env := example_agent_env example_decode vals) "nav" "dev" "p" "host" "ca" "token"
  false false true []) (only parsing).

Lemma agent_handler_deploys_witness :
  ∃ a', example_agent_handler (Ok "") (example_instruction "app" false) example_agent = (Ok tt, a') ∧
    length (ag_commands a') = 1%nat ∧ length (helm_statuses a') = 2%nat ∧
    ag_inProgress a' = ag_inProgress example_agent.
Proof.
  destruct (example_agent_handler (Ok "") (example_instruction "app" false) example_agent)
    as [[[]|e|p] a'] eqn:E; [|vm_compute in E; discriminate E..].
  exists a'. split; [reflexivity|].
  split; [vm_compute in E; injection E as <-; reflexivity|].
  split; [vm_compute in E; injection E as <-; reflexivity|].
  apply agent_handler_deploys in E; [|reflexivity|apply Z.le_refl].
  destruct E as [[_ H]|(vf & cmds & inst & fin & d & fs & H & _)];
    [discriminate H|exact (f_equal v_inProgress H)].
Defined.

Lemma agent_handler_uninstalls_witness :
  ∃ a', example_agent_handler (Ok "") (example_instruction "naisd" true) example_agent = (Ok tt, a') ∧
    view_of a' = view_of example_agent.
Proof.
  destruct (example_agent_handler (Ok "") (example_instruction "naisd" true) example_agent)
    as [[[]|e|p] a'] eqn:E; [|vm_compute in E; discriminate E..].
  exists a'. split; [reflexivity|].
  exact (agent_handler_uninstalls (agent_env := example_agent_env example_decode (Ok "")) "nav" "dev" "p"
    "host" "ca" "token" false false true [] (example_instruction "naisd" true) example_agent (Ok tt) a'
    eq_refl E).
Defined.

Lemma agent_values_error_witness :
  ∃ a' name, example_agent_handler (Err (ErrString "yaml")) (example_instruction "app" false)
      example_agent = (Err (ErrString "yaml"), a') ∧ ag_files a' = [name] ∧ ag_statuses a' = [].
Proof.
  destruct (agent_values_error (agent_env := example_agent_env example_decode (Err (ErrString "yaml")))
    "nav" "dev" "p" "host" "ca" "token" false false true [] (example_instruction "app" false)
    example_agent (ErrString "yaml")) as (a' & name & H & H1 & _ & _ & H2);
    [reflexivity|discriminate|apply Z.le_refl|reflexivity|reflexivity|].
  exists a', name. split; [exact H|]. split; [exact H2|exact H1].
Defined.
