(* ===== verification/AgentLog.v ===== *)
(** * internal/naisd/pubsub_logger.go: the log of one instruction

    Lines are written by the handler, by Helm's output and by the events watcher; the
    goroutine [Run] publishes what has gathered every two seconds and once more when the
    logger is closed, and [Close] itself publishes too.  Taking the lines is atomic (the
    lock); publishing is not, and may fail, which drops the batch.  The logger is a
    transition system; [lo_written] and [lo_taken] are ghosts, what was written and the
    batches in the order they were taken. *)

From S2P Require Export Agent.

(** Where the goroutine [Run] is: in its [select], with a batch in hand (the last one or
    not), or returned. *)
Inductive runner := RWait | RHolding (b : list LogLine) (final : bool) | RDone.
(** Where [Close] is: not called, channel closed, with a batch in hand, or returned. *)
Inductive closer := CNot | CClosed | CHolding (b : list LogLine) | CDone.

Record logger := {
  lo_lines : list LogLine;
  lo_closed : bool;
  lo_run : runner;
  lo_close : closer;
  lo_sent : list (list LogLine);
  lo_lost : list (list LogLine);
  lo_written : list LogLine;
  lo_taken : list (list LogLine);
}.

Definition newPubsubLogger : logger :=
  {| lo_lines := []; lo_closed := false; lo_run := RWait; lo_close := CNot; lo_sent := [];
     lo_lost := []; lo_written := []; lo_taken := [] |}.

(** An empty batch is not published. *)
Definition add_batch (b : list LogLine) (bs : list (list LogLine)) : list (list LogLine) :=
  if bool_decide (b = []) then bs else bs ++ [b].

Inductive logger_step : logger → logger → Prop :=
  | lo_write now b l c r cl st lt w tk :
      logger_step (Build_logger l c r cl st lt w tk)
                  (Build_logger (l ++ log_lines now b) c r cl st lt (w ++ log_lines now b) tk)
  | lo_event now e l c r cl st lt w tk :
      logger_step (Build_logger l c r cl st lt w tk)
                  (Build_logger (l ++ [event_line now e]) c r cl st lt (w ++ [event_line now e]) tk)
  (* Run *)
  | lo_tick l c cl st lt w tk :
      logger_step (Build_logger l c RWait cl st lt w tk)
                  (Build_logger [] c (RHolding l false) cl st lt w (tk ++ [l]))
  | lo_final l cl st lt w tk :
      logger_step (Build_logger l true RWait cl st lt w tk)
                  (Build_logger [] true (RHolding l true) cl st lt w (tk ++ [l]))
  | lo_ctx_done l c cl st lt w tk :
      logger_step (Build_logger l c RWait cl st lt w tk) (Build_logger l c RDone cl st lt w tk)
  | lo_run_publish (ok : bool) l c b final cl st lt w tk :
      logger_step (Build_logger l c (RHolding b final) cl st lt w tk)
                  (Build_logger l c (if (final : bool) then RDone else RWait) cl
                     (if ok then add_batch b st else st) (if ok then lt else add_batch b lt) w tk)
  (* Close *)
  | lo_close_channel l c r st lt w tk :
      logger_step (Build_logger l c r CNot st lt w tk) (Build_logger l true r CClosed st lt w tk)
  | lo_close_take l c r st lt w tk :
      logger_step (Build_logger l c r CClosed st lt w tk)
                  (Build_logger [] c r (CHolding l) st lt w (tk ++ [l]))
  | lo_close_publish (ok : bool) l c r b st lt w tk :
      logger_step (Build_logger l c r (CHolding b) st lt w tk)
                  (Build_logger l c r CDone (if ok then add_batch b st else st)
                     (if ok then lt else add_batch b lt) w tk).

Definition held_run (r : runner) : list LogLine := match r with RHolding b _ => b | _ => [] end.
Definition held_close (c : closer) : list LogLine := match c with CHolding b => b | _ => [] end.

Lemma concat_add_batch b bs : concat (add_batch b bs) = concat bs ++ b.
Proof.
  unfold add_batch. case_bool_decide as Hb; [by rewrite Hb, app_nil_r|].
  by rewrite concat_app; simpl; rewrite app_nil_r.
Qed.

Lemma elem_of_add_batch b bs x : x ∈ add_batch b bs → x ∈ bs ∨ x = b.
Proof.
  unfold add_batch. case_bool_decide; [by left|].
  intros [Hx|Hx%list_elem_of_singleton]%elem_of_app; auto.
Qed.

(** Every line is in the buffer, in somebody's hands, published or lost; the batches are
    consecutive pieces of what was written. *)
Record logger_inv (s : logger) : Prop := {
  li_taken : concat (lo_taken s) ++ lo_lines s = lo_written s;
  li_where : concat (lo_taken s) ≡ₚ concat (lo_sent s) ++ concat (lo_lost s) ++
    held_run (lo_run s) ++ held_close (lo_close s);
  li_sent : ∀ b, b ∈ lo_sent s → b ∈ lo_taken s;
  li_held_run : ∀ b f, lo_run s = RHolding b f → b ∈ lo_taken s;
  li_held_close : ∀ b, lo_close s = CHolding b → b ∈ lo_taken s;
  li_closed : lo_close s ≠ CNot → lo_closed s = true;
  li_order : lo_close s = CNot → lo_lost s = [] →
    concat (lo_sent s) ++ held_run (lo_run s) = concat (lo_taken s);
}.

Lemma logger_inv_new : logger_inv newPubsubLogger.
Proof. split; simpl; try done; intros ?; by rewrite elem_of_nil. Qed.

(** Publishing a batch in hand moves it to the sent or the lost ones. *)
Lemma published_where (ok : bool) (b : list LogLine) st lt rest :
  concat st ++ concat lt ++ b ++ rest ≡ₚ
    concat (if ok then add_batch b st else st) ++ concat (if ok then lt else add_batch b lt) ++ rest.
Proof. destruct ok; rewrite concat_add_batch, <-?app_assoc; solve_Permutation. Qed.

Lemma published_sent (ok : bool) (b : list LogLine) (st tk : list (list LogLine)) :
  (∀ x, x ∈ st → x ∈ tk) → b ∈ tk → ∀ x, x ∈ (if ok then add_batch b st else st) → x ∈ tk.
Proof. intros Hst Hb x. destruct ok; [|auto]. intros [Hx | ->]%elem_of_add_batch; auto. Qed.

Lemma taken_more (tk : list (list LogLine)) l : concat (tk ++ [l]) = concat tk ++ l.
Proof. by rewrite concat_app; simpl; rewrite app_nil_r. Qed.

(** [Close] publishes behind what [Run] holds. *)
Lemma published_behind (ok : bool) (b : list LogLine) st lt held :
  concat st ++ concat lt ++ held ++ b ≡ₚ
    concat (if ok then add_batch b st else st) ++ concat (if ok then lt else add_batch b lt) ++ held.
Proof. rewrite <-published_where. solve_Permutation. Qed.

Lemma published_in_order (ok : bool) (b : list LogLine) st lt :
  (if ok then lt else add_batch b lt) = [] →
  lt = [] ∧ concat (if ok then add_batch b st else st) = concat st ++ b.
Proof.
  destruct ok; [by rewrite concat_add_batch|]. unfold add_batch. case_bool_decide as Hb.
  - intros ->. by rewrite Hb, app_nil_r.
  - by intros [_ ?]%app_nil.
Qed.

Lemma logger_step_inv s s' : logger_inv s → logger_step s s' → logger_inv s'.
Proof.
  intros Hinv Hstep.
  destruct Hstep; destruct Hinv as [H1 H2 H3 H4 H5 H6 H7]; simpl in *; split; simpl;
    rewrite ?taken_more, ?app_nil_r; try done; try (by rewrite app_assoc, H1);
    try (by intros ?? [=]); try (intros; simplify_eq; set_solver);
    try (rewrite H2, <-!app_assoc; simpl; solve_Permutation);
    try (apply published_sent; eauto).
  all: try (intros -> Hl; rewrite <-H7 by done; simpl; by rewrite ?app_nil_r).
  - rewrite H2. by destruct final; simpl; rewrite <-published_where.
  - by destruct final.
  - intros Hcl Hl. destruct (published_in_order _ _ st _ Hl) as [-> Hst].
    rewrite Hst, <-(H7 Hcl) by done.
    by destruct final; simpl; rewrite app_nil_r.
  - by rewrite H2, app_nil_r.
  - by rewrite H2, <-published_behind.
Qed.

Lemma logger_reached s : rtc logger_step newPubsubLogger s → logger_inv s.
Proof.
  apply (rtc_ind_r (logger_inv)); [apply logger_inv_new|]. intros x y _ Hxy Hx.
  by eapply logger_step_inv.
Qed.

(** C36.  Whatever the interleaving of the writers, of the goroutine that publishes every two
    seconds and of Close, every line written is exactly once in what was published, in what a
    failed publish dropped, in a batch about to be published or in the buffer; each message
    holds consecutive lines; and until Close, when no publish has failed, the messages carry
    the lines in the order they were written. *)
Theorem logger_delivers s (Hs : rtc logger_step newPubsubLogger s) :
  lo_written s ≡ₚ concat (lo_sent s) ++ concat (lo_lost s) ++ held_run (lo_run s) ++
    held_close (lo_close s) ++ lo_lines s ∧
  (∀ b, b ∈ lo_sent s → ∃ before after, lo_written s = before ++ b ++ after) ∧
  (lo_close s = CNot → lo_lost s = [] →
   concat (lo_sent s) ++ held_run (lo_run s) ++ lo_lines s = lo_written s).
Proof.
  apply logger_reached in Hs as [H1 H2 H3 _ _ _ H7]. split_and!.
  - rewrite <-H1, H2, <-!app_assoc. done.
  - intros b Hb. apply H3, list_elem_of_split in Hb as (t1 & t2 & Ht).
    exists (concat t1), (concat t2 ++ lo_lines s).
    by rewrite <-H1, Ht, concat_app, concat_cons, <-!app_assoc.
  - intros Hc Hl. by rewrite app_assoc, (H7 Hc Hl).
Qed.

(** The end a logger should come to, with nothing more lost. *)
Definition finished (s s' : logger) : Prop :=
  lo_close s' = CDone ∧ lo_run s' = RDone ∧ lo_lines s' = [] ∧
  lo_written s' = lo_written s ∧ lo_lost s' = lo_lost s.

(** Close, then the goroutine's last publish, wherever it is. *)
Lemma logger_finishes s : lo_close s = CNot → ∃ s', rtc logger_step s s' ∧ finished s s'.
Proof.
  destruct s as [l c r cl st lt w tk]. simpl. intros ->.
  assert (Hclose : ∀ s', rtc logger_step
    (Build_logger [] true r CDone (add_batch l st) lt w (tk ++ [l])) s' →
    rtc logger_step (Build_logger l c r CNot st lt w tk) s').
  { intros s' Hs'. eapply rtc_l; [apply lo_close_channel|]. eapply rtc_l; [apply lo_close_take|].
    by eapply rtc_l; [apply (lo_close_publish true)|]. }
  destruct r as [|b [|]|]; eexists; (split; [apply Hclose|]).
  - eapply rtc_l; [apply lo_final|]. apply rtc_once, (lo_run_publish true).
  - done.
  - apply rtc_once, (lo_run_publish true).
  - done.
  - eapply rtc_l; [apply (lo_run_publish true)|].
    eapply rtc_l; [apply lo_final|]. apply rtc_once, (lo_run_publish true).
  - done.
  - apply rtc_refl.
  - done.
Qed.

(** A logger that has not been closed can always be brought to its end, with the buffer
    empty and both Close and the goroutine returned, and then every line written was either
    published or in a batch whose publishing had failed before. *)
Theorem logger_can_finish s (Hs : rtc logger_step newPubsubLogger s) (Hopen : lo_close s = CNot) :
  ∃ s', rtc logger_step s s' ∧ lo_close s' = CDone ∧ lo_run s' = RDone ∧ lo_lines s' = [] ∧
    lo_written s' = lo_written s ∧ lo_lost s' = lo_lost s ∧
    concat (lo_sent s') ++ concat (lo_lost s) ≡ₚ lo_written s.
Proof.
  destruct (logger_finishes s Hopen) as (s' & Hrun & Hc & Hr & Hl & Hw & Hlost).
  exists s'. split_and!; try done.
  assert (Hs' : rtc logger_step newPubsubLogger s') by (by etrans).
  destruct (logger_reached _ Hs') as [H1 H2 _ _ _ _ _].
  rewrite Hr, Hc in H2. simpl in H2. rewrite !app_nil_r, Hlost in H2.
  by rewrite <-Hw, <-H1, Hl, app_nil_r, H2.
Qed.

(** Two lines of Helm and an event; the first publish fails, the goroutine then holds the
    event, and the logger is about to be closed. *)
Definition example_event : Event :=
  {| ev_Added := true; ev_IsEvent := true; ev_Type := "Warning"; ev_Object := "pod";
     ev_APIVersion := "v1"; ev_Kind := "Pod"; ev_Message := "back-off" |}.

Definition example_logger : logger :=
  let ls := log_lines 3 ("a" +:+ String "010" "b") in
  Build_logger [] false (RHolding [event_line 4 example_event] false) CNot [] [ls]
    (ls ++ [event_line 4 example_event]) [ls; [event_line 4 example_event]].

Lemma example_logger_reached : rtc logger_step newPubsubLogger example_logger.
Proof.
  eapply rtc_l; [apply (lo_write 3 ("a" +:+ String "010" "b"))|].
  eapply rtc_l; [apply lo_tick|]. eapply rtc_l; [apply (lo_run_publish false)|].
  eapply rtc_l; [apply (lo_event 4 example_event)|]. apply rtc_once, lo_tick.
Qed.

Lemma logger_delivers_witness :
  lo_written example_logger ≡ₚ
    [] ++ concat (lo_lost example_logger) ++ held_run (lo_run example_logger) ++ [] ++ [].
Proof. apply (proj1 (logger_delivers example_logger example_logger_reached)). Defined.

Lemma logger_can_finish_witness :
  ∃ s', rtc logger_step example_logger s' ∧
    concat (lo_sent s') ++ log_lines 3 ("a" +:+ String "010" "b") ≡ₚ lo_written example_logger.
Proof.
  destruct (logger_can_finish example_logger example_logger_reached eq_refl)
    as (s' & Hs & _ & _ & _ & _ & _ & Hp).
  by exists s'.
Defined.
