(* ===== verification/Versions.v ===== *)
(** * internal/ui/pages/features/feature_versions.go: the versions of a feature

    The list of versions with the environments that run each, and the page of one version:
    its timeout, where it runs, and its values as highlighted YAML.  Encoding as YAML and
    whether a text is a number for strconv.ParseFloat are parameters. *)

From S2P Require Import Agent.
From S2P Require Import Catalog UiData FeatureEnvs ConfigItems AssignmentCards.
From S2P Require Import View.
From S2P Require Import GoStd.

(** ** Environments by version *)

Definition envsByVersion (envs : list FeatureEnvironment) : gmap string (list FeatureEnvironment) :=
  foldl (λ ret env, <[fe_Version env := default [] (ret !! fe_Version env) ++ [env]]> ret) ∅ envs.

(** The environments of a version, as the pages look them up. *)
Definition instances (envs : list FeatureEnvironment) (version : string) : list FeatureEnvironment :=
  default [] (envsByVersion envs !! version).

Definition severity (class : string) : nat :=
  if bool_decide (class = "status-disabled") then 1
  else if bool_decide (class = "status-pending") then 2
  else if bool_decide (class = "status-warning") then 3
  else if bool_decide (class = "status-error") then 4 else 0.

(** The number of healthy ones and the worst class. *)
Definition count_env (s : nat * string) (env : FeatureEnvironment) : nat * string :=
  let class := StatusClass (fe_Status env) in
  if bool_decide (class = "status-success") then (S s.1, s.2)
  else if (severity s.2 <? severity class)%nat then (s.1, class) else s.

(** Class, symbol and count; [None] is the text "none". *)
Definition instancesCell (envs : list FeatureEnvironment) : option (string * string * string) :=
  match envs with
  | [] => None
  | _ =>
      let total := length envs in
      let '(healthy, worstClass) := foldl count_env (0, "") envs in
      let count := pretty healthy +:+ ("/" +:+ pretty total) in
      if (healthy =? total)%nat then Some ("status-success", "✓", count)
      else if bool_decide (worstClass = "status-error") then Some (worstClass, "✗", count)
      else if bool_decide (worstClass = "status-warning") then Some (worstClass, "⚠", count)
      else if bool_decide (worstClass = "status-pending") then Some (worstClass, "⏳", count)
      else Some ("status-disabled", "○", count)
  end.

(** A row of the list: its class, the link, whether it is active, the instances, the time. *)
Definition version_row (featureName : string) (envs : list FeatureEnvironment) (v : FeatureVersion)
    : string * (string * string) * bool * option (string * string * string) * time :=
  let l := instances envs (fv_Version v) in
  let n := length l in
  (if (n =? 0)%nat then "version-inactive" else "",
   ("/features/" +:+ (featureName +:+ ("/versions/" +:+ fv_Version v)), fv_Version v),
   negb (n =? 0)%nat, instancesCell l, fv_LastUpdated v).

(** ** One version *)

Definition defaultDeployTimeout : duration := 5 * Minute.

Definition timeout_text (d : duration) : string :=
  if (10 * Second <? d)%Z then Duration_String d else "Default (" +:+ (Duration_String defaultDeployTimeout +:+ ")").

(** [fs], but the first eight bytes. *)
Definition short_id (assignmentID : string) : string :=
  if (8 <? String.length assignmentID)%nat then String.substring 0 8 assignmentID else assignmentID.

(** The link to an assignment; a dash without one. *)
Definition assignmentIDCell (featureName assignmentID : string) : option string * string :=
  if bool_decide (assignmentID = "") then (None, "—")
  else (Some ("/features/" +:+ (featureName +:+ ("/assignments/" +:+ assignmentID))), short_id assignmentID).

(** Sorted by tenant and environment, with the emphasis of the assignment. *)
Definition versionInstances (order : list (string * nat)) (envs : list FeatureEnvironment)
    : list (FeatureEnvironment * Emphasis) :=
  let sorted := isort row_order envs in
  zip sorted (ColumnConsensus order (fe_AssignmentID <$> sorted)).

(** ** Highlighted YAML *)

Inductive yaml_node := YText (s : string) | YSpan (class s : string).
Definition node_text (n : yaml_node) : string := match n with YText s | YSpan _ s => s end.

(** The leading spaces, and the rest after [strings.TrimLeft(s, " ")]. *)
Fixpoint span_spaces (s : string) : string * string :=
  match s with
  | String c s' => if bool_decide (c = " "%char) then let '(a, b) := span_spaces s' in (String c a, b) else ("", s)
  | EmptyString => ("", "")
  end.

(** [strings.TrimRight(s, "\n")] *)
Fixpoint trim_newlines_left (s : string) : string :=
  match s with
  | String c s' => if bool_decide (c = "010"%char) then trim_newlines_left s' else s
  | EmptyString => EmptyString
  end.
Definition TrimRight_newlines (s : string) : string := str_rev (trim_newlines_left (str_rev s)).

Section yaml.
Context (parses_float : string → bool).

(** [val[0]] panics on an empty text. *)
Definition yamlValueClass (val : string) : outcome string :=
  if bool_decide (val ∈ ["true"; "false"; "null"; "~"]) then Ok "yaml-bool"
  else match val with
       | EmptyString => Panic "index out of range"
       | String c _ =>
           if bool_decide (c = "034"%char) || bool_decide (c = "'"%char) then Ok "yaml-string"
           else if parses_float val then Ok "yaml-number" else Ok "yaml-string"
       end.

Definition highlightYAMLValue (v : string) : outcome (list yaml_node) :=
  let '(lead, val) := span_spaces v in
  let nodes := if bool_decide (lead = "") then [] else [YText lead] in
  if bool_decide (val = "") then Ok nodes
  else let! class := yamlValueClass val in Ok (nodes ++ [YSpan class val]).

(** What is after the indentation and the dash. *)
Definition highlight_rest (rest : string) : outcome (list yaml_node) :=
  if bool_decide (rest = "") then Ok []
  else if HasPrefix rest "#" then Ok [YSpan "yaml-comment" rest]
  else let '(key, after, ok) := cut_char ":" rest in
       if ok && (bool_decide (after = "") || HasPrefix after " ")
       then let! value := highlightYAMLValue after in Ok (YSpan "yaml-key" (key +:+ ":") :: value)
       else highlightYAMLValue rest.

Definition highlightYAMLLine (line : string) : outcome (list yaml_node) :=
  let '(indent, rest) := span_spaces line in
  if HasPrefix rest "- " then
    let! nodes := highlight_rest (TrimPrefix rest "- ") in Ok (YText indent :: YText "- " :: nodes)
  else if bool_decide (rest = "-") then Ok [YText indent; YText "-"]
  else let! nodes := highlight_rest rest in Ok (YText indent :: nodes).

(** A newline before every line but the first. *)
Definition highlightYAML (s : string) : outcome (list yaml_node) :=
  let! lines := omapM highlightYAMLLine (split_char "010" (TrimRight_newlines s)) in
  Ok (match lines with
      | [] => []
      | line :: lines => line ++ concat ((λ nodes, YText (String "010" "") :: nodes) <$> lines)
      end).
End yaml.

(** ** Highlighting loses nothing *)

Definition texts (l : list yaml_node) : string := String.concat "" (node_text <$> l).

Lemma concat_cons x l : String.concat "" (x :: l) = x +:+ String.concat "" l.
Proof. destruct l; [by rewrite str_app_nil_r|done]. Qed.
Lemma texts_cons n l : texts (n :: l) = node_text n +:+ texts l.
Proof. unfold texts. rewrite fmap_cons. apply concat_cons. Qed.
Lemma texts_app a b : texts (a ++ b) = texts a +:+ texts b.
Proof. induction a as [|n a IH]; [done|]. cbn [app]. by rewrite !texts_cons, IH, str_app_assoc. Qed.

Lemma span_spaces_app s : (span_spaces s).1 +:+ (span_spaces s).2 = s.
Proof.
  induction s as [|c s IH]; [done|]. cbn [span_spaces]. case_bool_decide as Hc; [|done].
  destruct (span_spaces s) as [a b]. cbn in *. by rewrite IH.
Qed.

Section lossless.
Context (parses_float : string → bool).

Lemma yamlValueClass_total val : val ≠ "" → ∃ class, yamlValueClass parses_float val = Ok class.
Proof.
  intros Hne. unfold yamlValueClass. case_bool_decide; [by eexists|]. destruct val; [done|].
  destruct (_ || _); [by eexists|]. destruct (parses_float _); by eexists.
Qed.

Lemma highlightYAMLValue_texts v : ∃ nodes, highlightYAMLValue parses_float v = Ok nodes ∧ texts nodes = v.
Proof.
  unfold highlightYAMLValue. pose proof (span_spaces_app v) as Hs. destruct (span_spaces v) as [lead val].
  cbn in Hs. set (nodes := if bool_decide (lead = "") then [] else [YText lead]).
  assert (Hn : texts nodes = lead) by (unfold nodes; case_bool_decide as H; [by rewrite H|done]).
  case_bool_decide as Hv; [exists nodes; split; [done|]; by rewrite Hn, <-Hs, Hv, str_app_nil_r|].
  destruct (yamlValueClass_total val Hv) as [class Hc]. rewrite Hc. cbn [obind]. eexists. split; [done|].
  by rewrite texts_app, Hn.
Qed.

Lemma highlight_rest_texts rest : ∃ nodes, highlight_rest parses_float rest = Ok nodes ∧ texts nodes = rest.
Proof.
  unfold highlight_rest. case_bool_decide as Hr; [exists []; by rewrite Hr|].
  destruct (HasPrefix rest "#"); [by eexists|]. destruct (cut_char ":" rest) as [[key after] ok] eqn:E.
  destruct (ok && _) eqn:Ek; [|apply highlightYAMLValue_texts]. apply andb_prop in Ek as [-> _].
  destruct (highlightYAMLValue_texts after) as (nodes & Hn & Ht). rewrite Hn. cbn [obind]. eexists. split; [done|].
  rewrite texts_cons, Ht. cbn [node_text]. rewrite str_app_assoc. symmetry. by apply cut_char_true.
Qed.

Lemma highlightYAMLLine_texts line : ∃ nodes, highlightYAMLLine parses_float line = Ok nodes ∧ texts nodes = line.
Proof.
  unfold highlightYAMLLine. pose proof (span_spaces_app line) as Hs. destruct (span_spaces line) as [indent rest].
  cbn in Hs. destruct (HasPrefix rest "- ") eqn:Ep.
  - destruct (highlight_rest_texts (TrimPrefix rest "- ")) as (nodes & Hn & Ht). rewrite Hn. eexists. split; [done|].
    rewrite !texts_cons, Ht. cbn [node_text]. by rewrite <-HasPrefix_app.
  - case_bool_decide as Hd; [eexists; split; [done|]; by rewrite <-Hs, Hd|].
    destruct (highlight_rest_texts rest) as (nodes & Hn & Ht). rewrite Hn. eexists. split; [done|].
    by rewrite texts_cons, Ht.
Qed.

Lemma lines_texts s : String.concat (String "010" "") (split_char "010" s) = s.
Proof.
  induction s as [|c s IH]; [done|]. cbn [split_char]. pose proof (split_char_not_nil "010" s) as Hne.
  destruct (split_char "010" s) as [|w ws]; [done|]. case_bool_decide as Hc.
  - rewrite Hc. change (String "010" "" +:+ String.concat (String "010" "") (w :: ws) = String "010" s). by rewrite IH.
  - rewrite <-IH. by destruct ws.
Qed.

Lemma line_nodes_texts lines nodess :
  Forall2 (λ line nodes, texts nodes = line) lines nodess →
  texts (match nodess with
         | [] => []
         | line :: lines => line ++ concat ((λ nodes, YText (String "010" "") :: nodes) <$> lines)
         end) = String.concat (String "010" "") lines.
Proof.
  destruct 1 as [|line nodes lines nodess Hl H]; [done|]. rewrite texts_app, Hl.
  revert line nodes Hl. induction H as [|line' nodes' lines nodess Hl' H IH]; intros line nodes Hl; [apply str_app_nil_r|].
  rewrite fmap_cons. cbn [concat app]. rewrite texts_cons, texts_app, Hl'. rewrite (IH line' nodes' Hl'). done.
Qed.

(** Highlighting shows the values as they are: it never fails, and the texts of its nodes
    one after the other are the YAML it was given, without the newlines at its end. *)
Theorem highlight_lossless s : ∃ nodes, highlightYAML parses_float s = Ok nodes ∧ texts nodes = TrimRight_newlines s.
Proof.
  unfold highlightYAML.
  assert (∃ nodess, omapM (highlightYAMLLine parses_float) (split_char "010" (TrimRight_newlines s)) = Ok nodess ∧
    Forall2 (λ line nodes, texts nodes = line) (split_char "010" (TrimRight_newlines s)) nodess) as (nodess & Ho & H2).
  { induction (split_char _ _) as [|line lines (nodess & Ho & H2)]; [by exists []|].
    destruct (highlightYAMLLine_texts line) as (nodes & Hn & Ht). exists (nodes :: nodess).
    cbn [omapM]. rewrite Hn. cbn [obind]. rewrite Ho. split; [done|by constructor]. }
  rewrite Ho. cbn [obind]. eexists. split; [done|]. rewrite (line_nodes_texts _ _ H2). apply lines_texts.
Qed.
End lossless.

(** ** Environments by version *)

Lemma instances_filter envs version : instances envs version = filter (λ e, fe_Version e = version) envs.
Proof.
  unfold instances, envsByVersion. induction envs as [|e envs IH] using rev_ind; [done|].
  rewrite foldl_app, filter_app, filter_cons, filter_nil. cbn [foldl].
  destruct (decide (fe_Version e = version)) as [<-|Hne].
  - by rewrite lookup_insert_eq, <-IH.
  - by rewrite lookup_insert_ne, IH, app_nil_r.
Qed.

(** The lists of the versions make up the whole list. *)
Lemma instances_partition (versions : list string) envs :
  NoDup versions → (∀ e, e ∈ envs → fe_Version e ∈ versions) →
  concat (instances envs <$> versions) ≡ₚ envs.
Proof.
  intros Hnd Hin. rewrite <-(group_perm fe_Version versions envs Hnd Hin) at 2.
  match goal with |- ?a ≡ₚ ?b => assert (a = b) as ->; [|done] end. f_equal.
  apply list_fmap_ext. intros i v _. apply instances_filter.
Qed.

(** ** The worst status *)

Definition healthy_env (e : FeatureEnvironment) : bool := bool_decide (StatusClass (fe_Status e) = "status-success").
Definition env_severity (e : FeatureEnvironment) : nat := severity (StatusClass (fe_Status e)).

Lemma severity_success : severity "status-success" = 0%nat.
Proof. reflexivity. Qed.

Lemma count_env_fold envs :
  let s := foldl count_env (0%nat, "") envs in
  s.1 = length (filter (λ e, healthy_env e = true) envs) ∧
  (∀ e, e ∈ envs → (env_severity e <= severity s.2)%nat) ∧
  (s.2 = "" ∨ ∃ e, e ∈ envs ∧ StatusClass (fe_Status e) = s.2).
Proof.
  cbv zeta. induction envs as [|e envs (IH1 & IH2 & IH3)] using rev_ind.
  { split_and!; [done|by intros e ?%elem_of_nil|by left]. }
  rewrite foldl_app. cbn [foldl]. destruct (foldl count_env _ envs) as [h worst]. cbn [fst snd] in *.
  rewrite filter_app, filter_cons, filter_nil, length_app. unfold count_env, healthy_env, env_severity in *.
  cbn [fst snd]. set (c := StatusClass (fe_Status e)).
  assert (IH3' : worst = "" ∨ ∃ e', e' ∈ envs ++ [e] ∧ StatusClass (fe_Status e') = worst)
    by (destruct IH3 as [?|(e' & ? & ?)]; [by left|right; exists e'; split; [apply elem_of_app; by left|done]]).
  destruct (bool_decide_reflect (c = "status-success")) as [Hc|Hc].
  - rewrite decide_True by done. cbn [fst snd length]. split_and!; [lia| |done].
    intros e' [?| ->%list_elem_of_singleton]%elem_of_app; [by apply IH2|]. fold c. rewrite Hc, severity_success. lia.
  - rewrite decide_False by done. cbn [length]. destruct (Nat.ltb_spec (severity worst) (severity c)); cbn [fst snd].
    + split_and!; [lia| |right; exists e; split; [apply elem_of_app; right; left|done]].
      intros e' [?| ->%list_elem_of_singleton]%elem_of_app; [|done]. etrans; [by apply IH2|lia].
    + split_and!; [lia| |done]. intros e' [?| ->%list_elem_of_singleton]%elem_of_app; [by apply IH2|done].
Qed.

Lemma filter_length_all {A} (p : A → bool) (l : list A) :
  length (filter (λ x, p x = true) l) = length l ↔ ∀ x, x ∈ l → p x = true.
Proof.
  induction l as [|x l IH]; [split; [by intros _ y ?%elem_of_nil|done]|]. rewrite filter_cons. destruct (decide _) as [Hx|Hx]; cbn [length].
  - rewrite Nat.succ_inj_wd, IH. split; [intros H y [->|?]%elem_of_cons; [done|by apply H]|intros H y ?; apply H; by right].
  - pose proof (length_filter (λ x, p x = true) l). split; [lia|]. intros H'. destruct Hx. apply H'. left.
Qed.

(** The cell of a version shows how many of its environments are healthy, and the symbol of the
    worst: an error when one failed, else a warning, else a pending deploy when there is one,
    and a tick only when all are healthy. *)
Theorem instancesCell_spec envs :
  envs ≠ [] →
  ∃ class icon, instancesCell envs = Some (class, icon,
      pretty (length (filter (λ e, healthy_env e = true) envs)) +:+ ("/" +:+ pretty (length envs))) ∧
    let has s := ∃ e, e ∈ envs ∧ StatusClass (fe_Status e) = s in
    (class = "status-success" ↔ ∀ e, e ∈ envs → StatusClass (fe_Status e) = "status-success") ∧
    (class = "status-error" ↔ has "status-error") ∧
    (class = "status-warning" ↔ ¬ has "status-error" ∧ has "status-warning") ∧
    (class = "status-pending" ↔ ¬ has "status-error" ∧ ¬ has "status-warning" ∧ has "status-pending").
Proof.
  intros Hne. destruct (count_env_fold envs) as (Hh & Hmax & Hw). unfold instancesCell.
  destruct envs as [|e0 envs0]; [done|]. set (envs := e0 :: envs0) in *. clearbody envs. clear Hne.
  destruct (foldl count_env _ envs) as [h worst]. cbn [fst snd] in *. subst h.
  pose proof (filter_length_all healthy_env envs) as Hall.
  set (n := length (filter _ envs)) in *.
  assert (Hsev : ∀ s, (∃ e, e ∈ envs ∧ StatusClass (fe_Status e) = s) → (severity s <= severity worst)%nat)
    by (intros s (e & He & <-); by apply Hmax).
  assert (Hworst : ∀ s, worst = s → s ≠ "" → ∃ e, e ∈ envs ∧ StatusClass (fe_Status e) = s)
    by (intros s <- Hs; by destruct Hw).
  assert (Hsucc : n = length envs ↔ ∀ e, e ∈ envs → StatusClass (fe_Status e) = "status-success").
  { rewrite Hall. unfold healthy_env. by setoid_rewrite bool_decide_eq_true. }
  destruct (Nat.eqb_spec n (length envs)) as [Hn|Hn].
  { eexists _, _. split; [done|]. cbv zeta. pose proof (proj1 Hsucc Hn) as Hn'. clear Hn. rename Hn' into Hn.
    assert (∀ s, s ≠ "status-success" → ¬ ∃ e, e ∈ envs ∧ StatusClass (fe_Status e) = s) as Hnot
      by (intros s Hs (e & He & <-); by apply Hs, Hn).
    pose proof (Hnot "status-error"). pose proof (Hnot "status-warning"). pose proof (Hnot "status-pending"). naive_solver. }
  assert (Hns : ¬ ∀ e, e ∈ envs → StatusClass (fe_Status e) = "status-success") by tauto.
  pose proof (Hsev "status-error") as HE. pose proof (Hsev "status-warning") as HW. pose proof (Hsev "status-pending") as HP.
  pose proof (Hworst "status-error") as KE. pose proof (Hworst "status-warning") as KW. pose proof (Hworst "status-pending") as KP.
  cbv zeta. clear Hmax Hw Hall Hsev Hworst Hsucc Hn.
  set (E := ∃ e, e ∈ envs ∧ StatusClass (fe_Status e) = "status-error") in *.
  set (W := ∃ e, e ∈ envs ∧ StatusClass (fe_Status e) = "status-warning") in *.
  set (P := ∃ e, e ∈ envs ∧ StatusClass (fe_Status e) = "status-pending") in *.
  clearbody E W P. change (severity "status-error") with 4%nat in HE. change (severity "status-warning") with 3%nat in HW.
  change (severity "status-pending") with 2%nat in HP.
  destruct (bool_decide_reflect (worst = "status-error")) as [Hc|H1];
    [|destruct (bool_decide_reflect (worst = "status-warning")) as [Hc|H2];
      [|destruct (bool_decide_reflect (worst = "status-pending")) as [Hc|H3]]].
  1: pose proof (KE Hc ltac:(done)) as K.
  2: pose proof (KW Hc ltac:(done)) as K; assert (¬ E) by (intros HE'; apply HE in HE'; rewrite Hc in HE'; vm_compute in HE'; lia).
  3: pose proof (KP Hc ltac:(done)) as K;
    assert (¬ E) by (intros HE'; apply HE in HE'; rewrite Hc in HE'; vm_compute in HE'; lia);
    assert (¬ W) by (intros HW'; apply HW in HW'; rewrite Hc in HW'; vm_compute in HW'; lia).
  1-3: clear KE KW KP HE HW HP; eexists _, _; (split; [done|]); rewrite Hc in *; split_and!; split; intros; try discriminate; tauto.
  eexists _, _. split; [done|].
  assert (Hlow : (severity worst <= 1)%nat)
    by (unfold severity; rewrite (bool_decide_eq_false_2 _ H1), (bool_decide_eq_false_2 _ H2), (bool_decide_eq_false_2 _ H3);
        case_bool_decide; lia).
  split_and!; split; intros; try discriminate; try tauto; exfalso; intuition lia.
Qed.

(** The timeout the page shows is the one Helm is given. *)
Lemma timeout_shown d :
  timeout_text d = Duration_String (helm_timeout d) ∨
  timeout_text d = "Default (" +:+ (Duration_String (helm_timeout d) +:+ ")").
Proof. unfold timeout_text, helm_timeout. destruct (_ <? _)%Z; [by left|by right]. Qed.
