(* ===== verification/FeatureDetail.v ===== *)
(** * internal/ui/pages/features: the pages of a feature

    What features.go, feature_versions.go and feature_assignment_detail.go read to show a
    feature: its overview, assignments, configuration and versions, and one assignment with
    its state in every environment, the versions it replaced and the one that replaced it.
    The chart's registry and the decoding of a stored commit are parameters; the crumbs and
    the HTML are left out. *)

From S2P Require Import ConfigForm Preview Catalog UiData Listings ConfigItems AssignmentRows AssignmentCards Versions.
From S2P Require Import View Http FeaturePage.
From S2P Require Import GoStd.

Section detail.
Context `{ext : External} `{pg : Postgres} `{codec : FeatureCodec} `{obj : ObjectCodec} `{json : FormJson}
  `{sc : Scan} `{txt : PostgresText}.
Context (uuid_String : uuid → string) (uuid_Parse : string → outcome uuid) (uuid_NewSHA1 : string → uuid).
Context (ListChartVersions : string → outcome (list string)).

(** ** The parts all pages have (features.go) *)

Record detail := {
  dt_Features : list string; dt_CurrentFeature : Feature;
  dt_AssignmentEnvs : list AssignmentEnvStatus; dt_FeatureEnvs : list FeatureEnvironment;
}.

Definition loadFeatureData (featureName : string) : IO detail :=
  features ← FeatureNames;
  feature ← FeatureByName featureName;
  assignmentEnvs ← featureAssignmentEnvStatuses uuid_String feature;
  featureEnvs ← LoadEnvironments uuid_String feature;
  mret {| dt_Features := sort_strings features; dt_CurrentFeature := feature;
          dt_AssignmentEnvs := assignmentEnvs; dt_FeatureEnvs := featureEnvs |}.

Definition handleFeatureLoadError (err : error) : reply :=
  if errors_is err ErrNoRows then see_other false "/features"
  else http_error StatusInternalServerError "Failed to load feature data".

Definition loaded (r : http_request) : page detail :=
  or_respond (loadFeatureData (URLParam r "feature")) handleFeatureLoadError.

Definition feature_name (data : detail) : string := f_Name (dt_CurrentFeature data).

(** The overview: the rows that are not overridden, sorted, and the recent activity. *)
Definition feature_Handler (r : http_request) : page (detail * list AssignmentEnvStatus * list Entry) :=
  data ← loaded r;
  activity ← always (or_nothing (ListForFeature (feature_name data) 10));
  mret (data, sortEnvs (currentAssignmentEnvStatuses (dt_AssignmentEnvs data)), activity).

(** The versions offered, or the message in their place. *)
Definition offered_versions (chart : string) : list string * string :=
  match ListChartVersions chart with
  | Ok versions => (versions, "")
  | _ => ([], "Could not load versions from the chart registry. Enter a version manually.")
  end.

Record specs_page := {
  sp_data : detail; sp_activity : list Entry; sp_cards : list card; sp_fallbacks : gmap string string;
  sp_versions : list string * string; sp_options : list (string * list string);
}.

Definition DeploySpecsHandler (r : http_request) : page specs_page :=
  data ← loaded r;
  activity ← always (or_nothing (ListAssignmentsForFeature (feature_name data) 10));
  creators ← or_respond (assignmentCreators uuid_String uuid_Parse (dt_AssignmentEnvs data))
    (InternalError "Failed to load assignment creators");
  options ← or_respond loadAssignmentLabelOptions (InternalError "Failed to load environment labels");
  mret {| sp_data := data; sp_activity := activity;
          sp_cards := groupByAssignmentCards (dt_AssignmentEnvs data) (feature_name data) creators;
          sp_fallbacks := fallbackVersionMap (dt_AssignmentEnvs data);
          sp_versions := offered_versions (f_Chart (dt_CurrentFeature data)); sp_options := options |}.

Definition ConfigTabHandler (r : http_request) : page (detail * list ConfigItem * list Entry) :=
  data ← loaded r;
  items ← or_respond (loadGlobalConfigItems uuid_String uuid_NewSHA1 (dt_CurrentFeature data)) (InternalError "Failed to load config");
  activity ← always (or_nothing (ListGlobalConfigForFeature (feature_name data) 10));
  mret (data, items, activity).

(** ** Versions (feature_versions.go) *)

Definition VersionsTabHandler (r : http_request) : page (detail * list FeatureVersion) :=
  data ← loaded r;
  versions ← or_respond (FeatureVersions (feature_name data)) (InternalError "Failed to load versions");
  mret (data, versions).

(** The version shown, and the environments that run it. *)
Definition VersionDetailHandler (r : http_request) : page (Feature * list FeatureEnvironment) :=
  data ← loaded r;
  selected ← or_respond (FeatureByNameVersion (feature_name data) (URLParam r "version"))
    (λ _, see_other false ("/features/" +:+ (feature_name data +:+ "/versions")));
  mret (selected, instances (dt_FeatureEnvs data) (f_Version selected)).

(** ** One assignment (feature_assignment_detail.go) *)

Record reconcileStatusRow := {
  sr_TenantName : string; sr_EnvironmentName : string; sr_EnvironmentID : string; sr_State : string;
  sr_Message : string; sr_LastModified : time; sr_DecidedAt : time;
}.

Record matchingAssignment := { ma_ID : string; ma_Version : string; ma_Created : time }.

(** [None] is the [continue] when the environment or its tenant cannot be read. *)
Definition status_row (status : FeatureReconcileStatus) : IO (option reconcileStatusRow) :=
  env ← attempt (Environment.Get (frs_EnvironmentID status));
  match env with
  | inr _ => mret None
  | inl env =>
      tenant ← attempt (GetTenant (er_TenantID env));
      mret match tenant with
           | inr _ => None
           | inl tenant =>
               Some {| sr_TenantName := t_Name tenant; sr_EnvironmentName := er_Name env;
                       sr_EnvironmentID := uuid_String (frs_EnvironmentID status);
                       sr_State := NormalizeStatus (frs_State status); sr_Message := frs_Message status;
                       sr_LastModified := frs_LastModified status; sr_DecidedAt := frs_DecidedAt status |}
           end
  end.

(** Environments in which another assignment wins, unless there is a status there. *)
Definition add_overridden (id : string) (s : list reconcileStatusRow * gset string) (es : AssignmentEnvStatus)
    : list reconcileStatusRow * gset string :=
  let '(rows, seen) := s in
  if negb (bool_decide (es_FeatureAssignmentID es = id)) || negb (es_IsOverridden es) ||
     bool_decide (es_EnvironmentID es ∈ seen)
  then s
  else (rows ++ [{| sr_TenantName := es_TenantName es; sr_EnvironmentName := es_Name es;
                    sr_EnvironmentID := es_EnvironmentID es; sr_State := "OVERRIDDEN"; sr_Message := "";
                    sr_LastModified := time_zero; sr_DecidedAt := time_zero |}],
        {[es_EnvironmentID es]} ∪ seen).

Definition with_overridden (id : string) (rows : list reconcileStatusRow) (envs : list AssignmentEnvStatus)
    : list reconcileStatusRow :=
  (foldl (add_overridden id) (rows, list_to_set (sr_EnvironmentID <$> rows)) envs).1.

Definition matching_assignment (other : FeatureAssignment) : matchingAssignment :=
  {| ma_ID := uuid_String (fa_ID other); ma_Version := f_Version (fa_Feature other); ma_Created := fa_Created other |}.

(** Another assignment with the same target. *)
Definition same_target (d other : FeatureAssignment) : Prop :=
  fa_ID other ≠ fa_ID d ∧ fa_TargetLabels other = fa_TargetLabels d.
#[global] Instance same_target_dec d other : Decision (same_target d other) := _.

Definition supersede (d : FeatureAssignment) (supersededBy : option matchingAssignment) (other : FeatureAssignment)
    : option matchingAssignment :=
  if fa_Active other && (fa_Created d <? fa_Created other)%Z &&
     match supersededBy with None => true | Some m => (ma_Created m <? fa_Created other)%Z end
  then Some (matching_assignment other) else supersededBy.

Definition superseded_by (d : FeatureAssignment) (allByFeature : list FeatureAssignment) : option matchingAssignment :=
  foldl (supersede d) None (filter (same_target d) allByFeature).

Record assignment_page := {
  ap_data : detail; ap_Assignment : FeatureAssignment; ap_StatusRows : list reconcileStatusRow;
  ap_Instructions : list UiDeployInstruction; ap_Matching : list matchingAssignment;
  ap_SupersededBy : option matchingAssignment; ap_Creator : string; ap_Versions : list string * string;
}.

Definition AssignmentDetailHandler (r : http_request) : page assignment_page :=
  data ← loaded r;
  id ← or_respond (lift (uuid_Parse (URLParam r "id"))) (InternalError "Failed to load assignment");
  d ← or_respond (GetFeatureAssignment id)
    (λ e, http_error StatusInternalServerError ("Failed to load assignment: " +:+ error_msg e));
  statuses ← always (or_nothing (ReconcileStatuses id));
  rows ← always (map_each status_row statuses);
  overview ← always (featureAssignmentEnvStatuses uuid_String (dt_CurrentFeature data));
  allInstructions ← or_respond (ListDeployInstructions id)
    (λ e, http_error StatusInternalServerError ("Failed to load deploy instructions: " +:+ error_msg e));
  allByFeature ← always (or_nothing (ListAllByFeature (f_Name (fa_Feature d))));
  creators ← or_respond (AssignmentCreators uuid_String uuid_Parse [id]) (InternalError "Failed to load assignment creator");
  mret {| ap_data := data; ap_Assignment := d;
          ap_StatusRows := with_overridden (uuid_String id) (omap Datatypes.id rows) overview;
          ap_Instructions := distinct_first (uuid_String ∘ ui_EnvironmentID) [] allInstructions;
          ap_Matching := matching_assignment <$> filter (same_target d) allByFeature;
          ap_SupersededBy := superseded_by d allByFeature; ap_Creator := default "" (creators !! id);
          ap_Versions := offered_versions (f_Chart (fa_Feature d)) |}.
(** *** What is shown of it *)

(** json.Unmarshal of a stored commit. *)
Context (unmarshal_commit : string → outcome GitHubCommit).

Definition parseGHRef (raw : option string) : option GitHubCommit :=
  match raw with
  | None | Some EmptyString => None
  | Some raw =>
      match unmarshal_commit raw with
      | Ok ref => if bool_decide (gh_Owner ref = "") && bool_decide (gh_Repo ref = "") && bool_decide (gh_Ref ref = "")
                  then None else Some ref
      | _ => None
      end
  end.

(** The text, with a link when owner, repository and commit are known. *)
Definition ghRefLink (ref : GitHubCommit) : option string * string :=
  let shortSHA := if (7 <? String.length (gh_Ref ref))%nat then String.substring 0 7 (gh_Ref ref) else gh_Ref ref in
  let label := if bool_decide (gh_Repo ref = "") then shortSHA else gh_Repo ref +:+ ("@" +:+ shortSHA) in
  (if bool_decide (gh_Owner ref = "") || bool_decide (gh_Repo ref = "") || bool_decide (gh_Ref ref = "") then None
   else Some ("https://github.com/" +:+ (gh_Owner ref +:+ ("/" +:+ (gh_Repo ref +:+ ("/commit/" +:+ gh_Ref ref))))),
   label).

Definition assignmentTargetPills (labels : Labels) : list string :=
  if bool_decide (size labels = 0)%nat then ["All environments"]
  else (λ k, k +:+ (": " +:+ default "" (labels !! k))) <$> sort_strings (map_to_list labels).*1.

(** An environment that only an instruction names. *)
Definition instruction_row (di : UiDeployInstruction) : reconcileStatusRow :=
  {| sr_TenantName := ui_TenantName di; sr_EnvironmentName := ui_EnvironmentName di;
     sr_EnvironmentID := uuid_String (ui_EnvironmentID di); sr_State := ""; sr_Message := "";
     sr_LastModified := ui_LastModified di; sr_DecidedAt := time_zero |}.

Definition add_instruction (m : gmap string reconcileStatusRow) (di : UiDeployInstruction) : gmap string reconcileStatusRow :=
  let envID := uuid_String (ui_EnvironmentID di) in
  match m !! envID with Some _ => m | None => <[envID := instruction_row di]> m end.

Definition env_rows (rows : list reconcileStatusRow) (instructions : list UiDeployInstruction)
    : gmap string reconcileStatusRow :=
  foldl add_instruction (foldl (λ m s, <[sr_EnvironmentID s := s]> m) ∅ rows) instructions.

Definition instance_before (a b : reconcileStatusRow) : bool :=
  if bool_decide (sr_TenantName a = sr_TenantName b)
  then String.leb (sr_EnvironmentName a) (sr_EnvironmentName b)
  else String.leb (sr_TenantName a) (sr_TenantName b).

Definition instance_rows (rows : list reconcileStatusRow) (instructions : list UiDeployInstruction)
    : list reconcileStatusRow :=
  isort instance_before (map_to_list (env_rows rows instructions)).*2.

(** The link to an environment's log, not for one in which another assignment wins. *)
Definition logs_link (d : FeatureAssignment) (row : reconcileStatusRow) : option string :=
  if bool_decide (sr_State row = "OVERRIDDEN") then None
  else Some ("/assignments/" +:+ (uuid_String (fa_ID d) +:+ ("/logs/" +:+ sr_EnvironmentID row))).

Record assignment_content := {
  ac_Active : bool; ac_Chart : string; ac_Version : string; ac_Created : time; ac_Target : list string; ac_Creator : actor_node; ac_Description : option string;
  ac_Commit : option (option string * string); ac_Banner : option (string * string);
  ac_Rows : list (reconcileStatusRow * (option (string * string) * string) * option string);
  ac_Previous : list (string * string * time);
}.

Definition assignmentDetailPageContent (p : assignment_page) : assignment_content :=
  let d := ap_Assignment p in
  let href id := "/features/" +:+ (f_Name (fa_Feature d) +:+ ("/assignments/" +:+ id)) in
  {| ac_Active := fa_Active d; ac_Chart := f_Chart (fa_Feature d); ac_Version := f_Version (fa_Feature d);
     ac_Created := fa_Created d; ac_Target := assignmentTargetPills (fa_TargetLabels d);
     ac_Creator := AssignmentCreatorNode (ap_Creator p);
     ac_Description := match fa_Description d with Some EmptyString | None => None | Some t => Some t end;
     ac_Commit := ghRefLink <$> parseGHRef (fa_GHRef d);
     ac_Banner := (λ m, (href (ma_ID m), ma_Version m)) <$> ap_SupersededBy p;
     ac_Rows := (λ row, (row, View.Status (sr_State row), logs_link d row)) <$> instance_rows (ap_StatusRows p) (ap_Instructions p);
     ac_Previous := (λ m, (href (ma_ID m), ma_Version m, ma_Created m)) <$> ap_Matching p |}.
End detail.

(** ** The version that replaced an assignment *)

Tactic Notation "each_of_snoc" ident(x) ident(H) := intros x [?| ->%list_elem_of_singleton]%elem_of_app H.

Section banner.
Context `{ext : External} `{pg : Postgres} `{codec : FeatureCodec} `{obj : ObjectCodec} `{json : FormJson}
  `{sc : Scan} `{txt : PostgresText}.
Context (uuid_String : uuid → string) (uuid_Parse : string → outcome uuid).
Context (ListChartVersions : string → outcome (list string)).

(** A newer active assignment with the same target. *)
Definition successor (d other : FeatureAssignment) : Prop :=
  same_target d other ∧ fa_Active other = true ∧ (fa_Created d < fa_Created other)%Z.

Lemma superseded_spec d fas :
  match superseded_by uuid_String d fas with
  | None => ∀ o, o ∈ fas → ¬ successor d o
  | Some m => ∃ o, o ∈ fas ∧ successor d o ∧ m = matching_assignment uuid_String o ∧
      ∀ o', o' ∈ fas → successor d o' → (fa_Created o' <= fa_Created o)%Z
  end.
Proof.
  unfold superseded_by. induction fas as [|f fas IH] using rev_ind; [by intros o ?%elem_of_nil|].
  rewrite filter_app, filter_cons, filter_nil. destruct (decide (same_target d f)) as [Hs|Hs].
  2: { rewrite app_nil_r. destruct (foldl _ None _) as [m|].
       - destruct IH as (o & Ho & Hsuc & -> & Hmax). exists o. split_and!; [apply elem_of_app; by left|done..|].
         each_of_snoc o' Ho'; [by apply Hmax|by destruct Ho'].
       - each_of_snoc o Ho; [by eapply IH|by destruct Ho]. }
  rewrite foldl_app. cbn [foldl]. set (acc := foldl _ None _) in *. unfold supersede.
  destruct (fa_Active f) eqn:Ha; cbn [andb];
    [destruct (Z.ltb_spec (fa_Created d) (fa_Created f)) as [Hlt|Hle]; cbn [andb]|].
  - assert (Hsf : successor d f) by by split.
    destruct acc as [m|]; [destruct IH as (o & Ho & Hsuc & -> & Hmax); cbn [matching_assignment ma_Created];
      destruct (Z.ltb_spec (fa_Created o) (fa_Created f)) as [Hof|Hof]|].
    + exists f. split_and!; [apply elem_of_app; right; left|done..|].
      each_of_snoc o' Ho'; [|done]. etrans; [by apply Hmax|lia].
    + exists o. split_and!; [apply elem_of_app; by left|done..|].
      each_of_snoc o' Ho'; [by apply Hmax|done].
    + exists f. split_and!; [apply elem_of_app; right; left|done..|].
      each_of_snoc o' Ho'; [by destruct (IH o')|done].
  - destruct acc as [m|]; [destruct IH as (o & Ho & Hsuc & -> & Hmax); exists o|].
    + split_and!; [apply elem_of_app; by left|done..|].
      each_of_snoc o' Ho'; [by apply Hmax|destruct Ho' as (_ & _ & ?); lia].
    + each_of_snoc o' Ho'; [by destruct (IH o')|destruct Ho' as (_ & _ & ?); lia].
  - destruct acc as [m|]; [destruct IH as (o & Ho & Hsuc & -> & Hmax); exists o|].
    + split_and!; [apply elem_of_app; by left|done..|].
      each_of_snoc o' Ho'; [by apply Hmax|destruct Ho' as (_ & ? & _); congruence].
    + each_of_snoc o' Ho'; [by destruct (IH o')|destruct Ho' as (_ & ? & _); congruence].
Qed.
(** The assignment of a row. *)
Lemma row_assignment_row r fa :
  row_assignment r = Ok fa →
  fa_ID fa = ar_ID (la_assignment r) ∧ fa_TargetLabels fa = ar_Target (la_assignment r) ∧
  fa_Created fa = ar_Created (la_assignment r) ∧ fa_Active fa = ar_Active (la_assignment r) ∧
  f_Version (fa_Feature fa) = fd_Version (la_data r) ∧ f_Name (fa_Feature fa) = fd_Name (la_data r).
Proof.
  unfold row_assignment, featureAssignmentFromSQL, featureFromSQL. intros H%wrap_Ok.
  apply obind_Ok in H as (f & Hf%wrap_Ok & [= <-]). by apply obind_Ok in Hf as ([y dv] & _ & [= <-]).
Qed.

Lemma always_inr {A} (m : IO A) w a w' : always m w = (Ok (inr a), w') → m w = (Ok a, w').
Proof. unfold always. by destruct (m w) as [[x|e|q] w1]; intros [= <- <-]. Qed.

Lemma steady_overview w f : w_faults w = [] → steady w (featureAssignmentEnvStatuses uuid_String f).
Proof.
  intros Hf. unfold featureAssignmentEnvStatuses, or_no_rows, ListByFeature, ListTenantEnvironments, AllReconcileStatuses,
    ListAllDecisionStatuses, ListAllDeployStatuses, ListDisabledEnvironmentsForFeature, LatestDeployedForFeature,
    ListLatestDeployedForFeature, LatestDeployInstructionsForFeature, ListLatestDeployInstructionsForFeature,
    ReleaseStatusesForFeature, assignment_rows, assignment_row, LatestDisableReason,
    LatestDisableReason_query. steady.
Qed.

Lemma steady_loaded w name : w_faults w = [] → steady w (loadFeatureData uuid_String name).
Proof.
  intros Hf. unfold loadFeatureData. apply preserves_bind; [unfold FeatureNames; steady|intros names].
  apply preserves_bind; [unfold FeatureByName, LatestFeatureData; steady|intros f].
  apply preserves_bind; [by apply steady_overview|intros rows].
  apply preserves_bind; [by apply steady_LoadEnvironments|intros envs]. apply preserves_ret.
Qed.
(** A page of an assignment that loads has read its parts and changed nothing. *)
Lemma assignment_page_parts r w p w' :
  w_faults w = [] →
  AssignmentDetailHandler uuid_String uuid_Parse ListChartVersions r w = (Ok (inr p), w') →
  w' = w ∧ ∃ data id d statuses rows overview instructions all,
    loadFeatureData uuid_String (URLParam r "feature") w = (Ok data, w) ∧ uuid_Parse (URLParam r "id") = Ok id ∧
    GetFeatureAssignment id w = (Ok d, w) ∧ or_nothing (ReconcileStatuses id) w = (Ok statuses, w) ∧
    map_each (status_row uuid_String) statuses w = (Ok rows, w) ∧
    featureAssignmentEnvStatuses uuid_String (dt_CurrentFeature data) w = (Ok overview, w) ∧
    ListDeployInstructions id w = (Ok instructions, w) ∧
    or_nothing (ListAllByFeature (f_Name (fa_Feature d))) w = (Ok all, w) ∧
    ap_Assignment p = d ∧ ap_StatusRows p = with_overridden (uuid_String id) (omap Datatypes.id rows) overview ∧
    ap_Instructions p = distinct_first (uuid_String ∘ ui_EnvironmentID) [] instructions ∧
    ap_SupersededBy p = superseded_by uuid_String d all.
Proof.
  intros Hf H. unfold AssignmentDetailHandler in H.
  apply page_bind_inr in H as (data & w1 & Hd%or_respond_inr & H). pose proof (steady_run _ _ _ _ (steady_loaded _ _ Hf) Hd) as ->.
  apply page_bind_inr in H as (id & w1 & Hid%or_respond_inr & H). injection Hid as Hid <-.
  apply page_bind_inr in H as (d & w1 & Hg%or_respond_inr & H).
  assert (w1 = w) as -> by (eapply steady_run; [|exact Hg]; unfold GetFeatureAssignment, GetFeatureAssignment_query; steady).
  apply page_bind_inr in H as (statuses & w1 & Hs%always_inr & H).
  assert (w1 = w) as -> by (eapply steady_run; [|exact Hs]; unfold or_nothing, ReconcileStatuses, ListDecisionStatuses, ListDeployStatuses; steady).
  apply page_bind_inr in H as (rows & w1 & Hr%always_inr & H).
  assert (w1 = w) as -> by (eapply steady_run; [|exact Hr]; unfold status_row, Environment.Get, GetTenant; steady).
  apply page_bind_inr in H as (overview & w1 & Ho%always_inr & H). pose proof (steady_run _ _ _ _ (steady_overview _ _ Hf) Ho) as ->.
  apply page_bind_inr in H as (instructions & w1 & Hi%or_respond_inr & H).
  assert (w1 = w) as -> by (eapply steady_run; [|exact Hi]; unfold ListDeployInstructions, ListDeployInstructions_query; steady).
  apply page_bind_inr in H as (all & w1 & Ha%always_inr & H).
  assert (w1 = w) as -> by (eapply steady_run; [|exact Ha]; unfold or_nothing, ListAllByFeature; steady).
  apply page_bind_inr in H as (creators & w1 & Hc%or_respond_inr & H).
  assert (w1 = w) as -> by (eapply steady_run; [|exact Hc]; unfold AssignmentCreators, ListAssignmentCreators; steady).
  injection H as <- <-. split; [done|]. exists data, id, d, statuses, rows, overview, instructions, all. by split_and!.
Qed.
Lemma GetFeatureAssignment_row id w d :
  w_faults w = [] → GetFeatureAssignment id w = (Ok d, w) → ∃ r, r ∈ all_rows w ∧ row_assignment r = Ok d.
Proof.
  intros Hf H. unfold GetFeatureAssignment, GetFeatureAssignment_query in H.
  apply bind_Ok in H as (r & w1 & Hr%wrapping_Ok & H). rewrite query_now in Hr by done. injection Hr as Hr <-.
  apply single_Ok, list_elem_of_filter in Hr as [_ Hr]. exists r. split; [done|]. injection H as H%wrap_Ok.
  unfold row_assignment. by rewrite H.
Qed.

Lemma ListAllByFeature_rows name w fas :
  w_faults w = [] → ListAllByFeature name w = (Ok fas, w) →
  ∀ fa, fa ∈ fas ↔ ∃ r, r ∈ all_rows w ∧ fd_Name (la_data r) = name ∧ row_assignment r = Ok fa.
Proof.
  intros Hf H fa. unfold ListAllByFeature, mbind, M_bind in H. rewrite query_now in H by done.
  injection H as H. rewrite (elem_of_listed _ _ _ H). setoid_rewrite elem_of_isort. setoid_rewrite list_elem_of_filter. naive_solver.
Qed.

(** Every row of the feature was read. *)
Lemma readable_row w fas name row :
  w_faults w = [] → ListAllByFeature name w = (Ok fas, w) → row ∈ all_rows w → fd_Name (la_data row) = name →
  ∃ o, o ∈ fas ∧ row_assignment row = Ok o.
Proof.
  intros Hf H Hrow Hn. unfold ListAllByFeature, mbind, M_bind in H. rewrite query_now in H by done.
  injection H as H. apply omapM_Forall2 in H.
  assert (Hin : row ∈ isort (then_by active_desc created_desc) (filter (λ r, fd_Name (la_data r) = name) (all_rows w)))
    by (by apply elem_of_isort, list_elem_of_filter).
  apply list_elem_of_lookup in Hin as [i Hi]. destruct (Forall2_lookup_l _ _ _ _ _ H Hi) as (o & Ho & Hra).
  exists o. split; [by eapply list_elem_of_lookup_2|done].
Qed.

(** The stored row of an assignment that took the place of [d]. *)
Definition replaces (w : world) (d : FeatureAssignment) (a : AssignmentRow) : Prop :=
  a ∈ feature_assignments (w_feature w) ∧ ar_Active a = true ∧ ar_FeatureName a = f_Name (fa_Feature d) ∧
  ar_Target a = fa_TargetLabels d ∧ (fa_Created d < ar_Created a)%Z.

Definition banner_of (a : AssignmentRow) : matchingAssignment :=
  {| ma_ID := uuid_String (ar_ID a); ma_Version := ar_Version a; ma_Created := ar_Created a |}.

Lemma successor_row w n d fas o :
  w_faults w = [] → feature_wf (w_feature w) n → ListAllByFeature (f_Name (fa_Feature d)) w = (Ok fas, w) →
  o ∈ fas → successor d o → ∃ a, replaces w d a ∧ matching_assignment uuid_String o = banner_of a.
Proof.
  intros Hf Hwf Hl Ho ((Hid & Hlab) & Hact & Hlt).
  apply (ListAllByFeature_rows _ _ _ Hf Hl) in Ho as (r & Hr & Hname & Hra). exists (la_assignment r).
  destruct (row_assignment_row _ _ Hra) as (E1 & E2 & E3 & E4 & E5 & E6).
  apply elem_of_all_rows in Hr as (Hin & _ & Hn & Hv). unfold replaces, matching_assignment, banner_of.
  split; [split_and!; [done|congruence|congruence|congruence|by rewrite <-E3]|]. by rewrite E1, E3, E5, Hv.
Qed.

Lemma replaces_unique w n d a a' :
  feature_wf (w_feature w) n → replaces w d a → replaces w d a' → a = a'.
Proof.
  intros [_ Hact _ _ _ _ _ _ _ _ _] (H1 & H2 & H3 & H4 & _) (H1' & H2' & H3' & H4' & _).
  apply (NoDup_fmap_inj_on target_key (active_rows (feature_assignments (w_feature w)))); [done|..].
  1,2: by apply list_elem_of_filter. unfold target_key. congruence.
Qed.

(** What replaced an assignment is among those read. *)
Lemma replaces_listed w n d fas r0 a :
  w_faults w = [] → feature_wf (w_feature w) n → ListAllByFeature (f_Name (fa_Feature d)) w = (Ok fas, w) →
  r0 ∈ all_rows w → row_assignment r0 = Ok d → replaces w d a →
  ∃ o, o ∈ fas ∧ successor d o ∧ matching_assignment uuid_String o = banner_of a.
Proof.
  intros Hf Hwf Hl Hr0 Hra0 (Ha & Hact & Hname & Htgt & Hlt).
  destruct (row_assignment_row _ _ Hra0) as (D1 & D2 & D3 & D4 & D5 & D6).
  pose proof Hr0 as (Hin0 & _ & Hn0 & _)%elem_of_all_rows.
  destruct (fw_foreign_key _ _ Hwf a Ha) as (dat & Hdat & Hdn & Hdv).
  set (row := {| la_assignment := a; la_data := dat |}).
  assert (Hrow : row ∈ all_rows w) by (apply elem_of_all_rows; by split_and!).
  destruct (readable_row w fas _ row Hf Hl Hrow) as (o & Ho & Hra); [cbn; congruence|].
  destruct (row_assignment_row _ _ Hra) as (E1 & E2 & E3 & E4 & E5 & E6). cbn in *. exists o.
  assert (Hne : fa_ID o ≠ fa_ID d).
  { intros Heq. assert (la_assignment r0 = a) as Hra'.
    { apply (NoDup_fmap_inj_on ar_ID (feature_assignments (w_feature w))); [apply Hwf|done..|congruence]. }
    rewrite <-Hra', <-D3 in Hlt. lia. }
  split_and!; [done| |unfold matching_assignment, banner_of; by rewrite E1, E3, E5, Hdv].
  repeat split; [done|congruence|congruence|by rewrite E3].
Qed.

(** The banner of an assignment's page tells the truth: it says that this is a previous version
    exactly when an active assignment of the feature with the same target is newer, and names
    and links to that one, of which there is no other; never on the page of an assignment that
    is active itself.  When no query fails and the feature's assignments can be read. *)
Theorem banner_names_successor r w n p w' fas :
  w_faults w = [] → feature_wf (w_feature w) n →
  AssignmentDetailHandler uuid_String uuid_Parse ListChartVersions r w = (Ok (inr p), w') →
  ListAllByFeature (f_Name (fa_Feature (ap_Assignment p))) w = (Ok fas, w) →
  w' = w ∧ let d := ap_Assignment p in
  (∀ m, ap_SupersededBy p = Some m ↔ ∃ a, replaces w d a ∧ m = banner_of a) ∧
  (∀ a a', replaces w d a → replaces w d a' → a = a') ∧
  (fa_Active d = true → ap_SupersededBy p = None).
Proof.
  intros Hf Hwf H Hl. destruct (assignment_page_parts _ _ _ _ Hf H) as (-> & data & id & d & statuses & rows & overview
    & ins & all & _ & _ & Hg & _ & _ & _ & _ & Hall & Hd & _ & _ & Hsup).
  split; [done|]. cbv zeta. rewrite Hd in Hl |- *. rewrite Hsup.
  assert (all = fas) as ->.
  { unfold or_nothing in Hall. apply bind_Ok in Hall as (o & w1 & Ho & Hm). unfold attempt in Ho. rewrite Hl in Ho.
    injection Ho as <- <-. by injection Hm. }
  destruct (GetFeatureAssignment_row _ _ _ Hf Hg) as (r0 & Hr0 & Hra0).
  destruct (row_assignment_row _ _ Hra0) as (D1 & D2 & D3 & D4 & D5 & D6).
  pose proof Hr0 as (Hin0 & _ & Hn0 & _)%elem_of_all_rows.
  pose proof (superseded_spec d fas) as Hspec.
  assert (Hsuc : ∀ a, replaces w d a → ∃ o, o ∈ fas ∧ successor d o ∧ matching_assignment uuid_String o = banner_of a)
    by (intros a; by eapply replaces_listed).
  split_and!.
  - intros m. destruct (superseded_by uuid_String d fas) as [m'|].
    + destruct Hspec as (o & Ho & Hso & -> & _). destruct (successor_row _ _ _ _ _ Hf Hwf Hl Ho Hso) as (a & Ha & Hm).
      rewrite Hm. split; [intros [= <-]; by exists a|]. intros (a' & Ha' & ->). by rewrite (replaces_unique _ _ _ _ _ Hwf Ha Ha').
    + split; [done|]. intros (a & Ha & _). destruct (Hsuc a Ha) as (o & Ho & Hso & _). by destruct (Hspec o Ho).
  - intros a a'. by apply replaces_unique with n.
  - intros Hact. destruct (superseded_by uuid_String d fas) as [m|]; [|done]. exfalso.
    destruct Hspec as (o & Ho & Hso & _ & _). destruct (successor_row _ _ _ _ _ Hf Hwf Hl Ho Hso) as (a & (Ha & Hact' & Hname & Htgt & Hlt) & _).
    assert (la_assignment r0 = a) as Hra.
    { apply (NoDup_fmap_inj_on target_key (active_rows (feature_assignments (w_feature w)))); [apply Hwf|..].
      1,2: apply list_elem_of_filter; split; congruence. unfold target_key. congruence. }
    rewrite <-Hra, <-D3 in Hlt. lia.
Qed.
(** ** Every environment is under a version *)

Lemma winner_listed l envs id fa : winningAssignments l envs !! id = Some fa → fa ∈ l.
Proof.
  unfold winningAssignments. revert id fa. induction envs as [|env envs IH] using rev_ind; [done|].
  intros id fa. rewrite foldl_app. cbn [foldl]. set (m := foldl _ ∅ envs) in *.
  enough (∀ l', (∀ x, x ∈ l' → x ∈ l) → ∀ id fa, foldl (consider_env env) m l' !! id = Some fa → fa ∈ l) as H by (by apply H).
  induction l' as [|x l' IHl] using rev_ind; [by intros _; apply IH|]. intros Hl. rewrite foldl_app. cbn [foldl].
  assert (Hx : x ∈ l) by (apply Hl, elem_of_app; right; left).
  specialize (IHl (λ y Hy, Hl y (proj2 (elem_of_app _ _ _) (or_introl Hy)))). intros id' fa'.
  unfold consider_env at 1. destruct (negb _); [apply IHl|]. destruct (_ !! te_ID env) as [ex|]; [destruct (IsMoreSpecific _ _ _ _); [|apply IHl]|].
  all: intros [[_ <-]|[_ H]]%lookup_insert_Some; [done|by eapply IHl].
Qed.

Lemma environment_row_version name winners statuses disabled env w e w' :
  environment_row uuid_String name winners statuses disabled env w = (Ok (Some e), w') →
  ∃ fa, winners !! te_ID env = Some fa ∧ fe_Version e = f_Version (fa_Feature fa).
Proof.
  unfold environment_row. destruct (winners !! te_ID env) as [fa|]; [|done]. intros H. exists fa. split; [done|].
  apply bind_Ok in H as (reason & w1 & _ & H). destruct (if negb _ then _ else _) as [st lm]. by injection H as <- _.
Qed.

Lemma LoadEnvironments_versions w f envs w' :
  w_faults w = [] → LoadEnvironments uuid_String f w = (Ok envs, w') →
  ∀ e, e ∈ envs → ∃ d, d ∈ feature_data (w_feature w) ∧ fd_Name d = f_Name f ∧ fd_Version d = fe_Version e.
Proof.
  intros Hf H e He. unfold LoadEnvironments in H. apply bind_Ok in H as (o & w1 & Ho & H).
  destruct o as [fas|err]; [|injection H as <- _; by apply elem_of_nil in He].
  unfold attempt in Ho. destruct (ListByFeature (f_Name f) w) as [[fas'|?|?] w2] eqn:El; try discriminate Ho.
  injection Ho as -> ->. destruct (ListByFeature_now _ _ _ _ Hf El) as [-> Hrows].
  destruct fas as [|fa0 fas]; [injection H as <- _; by apply elem_of_nil in He|]. set (l := fa0 :: fas) in *. clearbody l.
  apply bind_Ok in H as (envs0 & w3 & _ & H). apply bind_Ok in H as (sts & w4 & _ & H).
  apply bind_Ok in H as (dis & w5 & _ & H). destruct dis as [dis|]; [|injection H as <- _; by apply elem_of_nil in He].
  apply bind_Ok in H as (rows & w6 & Hm & [= <- _]). apply elem_of_isort, list_elem_of_omap in He as (o & Ho & Heq).
  cbn in Heq. subst o. destruct (map_each_elem _ _ _ _ _ _ Hm Ho) as (env & w7 & w8 & _ & Hrow).
  destruct (environment_row_version _ _ _ _ _ _ _ _ Hrow) as (fa & Hwin & Hv). rewrite Hv.
  apply winner_listed, elem_of_distinct_first in Hwin as [Hwin _].
  apply (elem_of_listed _ _ _ Hrows) in Hwin as (r & Hr & Hra).
  apply elem_of_isort, list_elem_of_filter in Hr as [[Hn _] Hr].
  destruct (row_assignment_row _ _ Hra) as (_ & _ & _ & _ & E & _).
  apply elem_of_all_rows in Hr as (_ & Hd & _ & _). by exists (la_data r).
Qed.

(** The tab of versions accounts for every environment: when no query fails and it loads, every
    environment the feature is deployed to is counted under exactly one of its versions. *)
Theorem versions_tab_complete r w n data versions w' :
  w_faults w = [] → feature_wf (w_feature w) n →
  VersionsTabHandler uuid_String r w = (Ok (inr (data, versions)), w') →
  NoDup (fv_Version <$> versions) ∧
  concat (instances (dt_FeatureEnvs data) <$> (fv_Version <$> versions)) ≡ₚ dt_FeatureEnvs data.
Proof.
  intros Hf Hwf H. unfold VersionsTabHandler in H.
  apply page_bind_inr in H as (data' & w1 & Hd%or_respond_inr & H). pose proof (steady_run _ _ _ _ (steady_loaded _ _ Hf) Hd) as ->.
  apply page_bind_inr in H as (vs & w1 & Hv%or_respond_inr & H). injection H as -> -> _.
  destruct (FeatureVersions_spec _ _ _ _ Hv (fw_data _ _ Hwf)) as ((Hnd & Hin) & _). split; [done|].
  apply instances_partition; [done|]. intros e He. apply Hin.
  unfold loadFeatureData in Hd. apply bind_Ok in Hd as (names & w2 & Hn & Hd).
  assert (w2 = w) as -> by (eapply steady_run; [|exact Hn]; unfold FeatureNames; steady).
  apply bind_Ok in Hd as (f & w2 & Hfeat & Hd).
  assert (w2 = w) as -> by (eapply steady_run; [|exact Hfeat]; unfold FeatureByName, LatestFeatureData; steady).
  apply bind_Ok in Hd as (rows & w2 & Hr & Hd). pose proof (steady_run _ _ _ _ (steady_overview _ _ Hf) Hr) as ->.
  apply bind_Ok in Hd as (envs & w2 & He' & [= <- _]). cbn in *. by eapply LoadEnvironments_versions.
Qed.
End banner.

(** ** Examples *)

Definition detail_request (id : string) : http_request :=
  {| hr_valid_form := true; hr_form _ := []; hr_post_form _ := []; hr_header _ := ""; hr_body := "";
     hr_param key := if bool_decide (key = "feature") then "app" else id |}.

(** Version 1.0.0 was deployed to the environment before 2.0.0 and 3.0.0 took it over. *)
Definition example_taken_over : world :=
  insert_deploy (deploy_of {| ap_Diid := 9; ap_EnvironmentID := 7; ap_FeatureAssignmentID := 1;
    ap_FeatureName := "app"; ap_FeatureVersion := "1.0.0"; ap_Status := DeployStatusDeployed;
    ap_Hash := "h"; ap_Vals := "{}" |}) example_layers.

Definition detail_of (id : uuid) (w : world) : outcome (reply + assignment_page) * world :=
  AssignmentDetailHandler (codec := example_codec) (sc := {| scan l := l |}) (txt := listing_text)
    tally untally (λ _, Ok []) (detail_request (tally id)) w.

(** The page of an assignment and its card differ: the card says that another assignment has the
    environment, the page that this one is deployed there, since it was. *)
Theorem overridden_still_deployed :
  match detail_of 1 example_taken_over,
        featureAssignmentEnvStatuses (codec := example_codec) (sc := {| scan l := l |}) tally example_app example_taken_over with
  | (Ok (inr p), _), (Ok rows, _) =>
      (λ row, (sr_EnvironmentName row, sr_State row)) <$> instance_rows tally (ap_StatusRows p) (ap_Instructions p) = [("dev", "DEPLOYED")] ∧
      (λ e, (es_Name e, es_StatusText e)) <$> rows_about (tally 1) rows = [("dev", "OVERRIDDEN")]
  | _, _ => False
  end.
Proof. vm_compute. split; reflexivity. Qed.

(** Version 1.0.0 was replaced by 2.0.0, with the same target. *)
Definition retired (a : AssignmentRow) : AssignmentRow :=
  {| ar_ID := ar_ID a; ar_FeatureName := ar_FeatureName a; ar_Version := ar_Version a; ar_Target := ar_Target a;
     ar_Created := ar_Created a; ar_GhRef := ar_GhRef a; ar_Description := ar_Description a; ar_Active := false |}.

Definition example_replaced : world :=
  set_w_feature (λ d, {|
    feature_data := [layer_data "1.0.0"; layer_data "2.0.0"];
    feature_assignments := [retired (layer 1 "1.0.0" ∅ 5); layer 2 "2.0.0" ∅ 6];
    configurations_global := []; configurations_environment := []; disabled_features := ∅ |}) example_world.

Lemma example_replaced_wf : feature_wf (w_feature example_replaced) 1000.
Proof.
  split; simpl; try (apply (bool_decide_unpack _); vm_compute; exact I); try by repeat constructor.
  intros a [->|[->|[]%elem_of_nil]%elem_of_cons]%elem_of_cons.
  - exists (layer_data "1.0.0"). split; [left|done].
  - exists (layer_data "2.0.0"). split; [right; left|done].
Qed.

Lemma banner_names_successor_witness :
  ∃ p, detail_of 1 example_replaced = (Ok (inr p), example_replaced) ∧
    ap_SupersededBy p = Some {| ma_ID := tally 2; ma_Version := "2.0.0"; ma_Created := 6 |}.
Proof.
  destruct (detail_of 1 example_replaced) as [o w'] eqn:E. pose proof E as E'. vm_compute in E'.
  destruct o as [[r|p]|e|m]; [discriminate E'| |discriminate E'..].
  destruct (ListAllByFeature (codec := example_codec) "app" example_replaced) as [[fas|e|m] w1] eqn:El; [|vm_compute in El; discriminate El..].
  assert (w1 = example_replaced) as -> by (vm_compute in El; by injection El as _ <-).
  assert (Hn : f_Name (fa_Feature (ap_Assignment p)) = "app") by (injection E' as <- _; reflexivity).
  assert (Hr : replaces example_replaced (ap_Assignment p) (layer 2 "2.0.0" ∅ 6))
    by (injection E' as <- _; split_and!; [right; left|reflexivity..]).
  destruct (banner_names_successor (codec := example_codec) (sc := {| scan l := l |}) (txt := listing_text)
    tally untally (λ _, Ok []) (detail_request (tally 1)) example_replaced 1000 p w' fas eq_refl example_replaced_wf E)
    as (-> & H & _ & _); [by rewrite Hn|].
  exists p. split; [reflexivity|]. apply (proj2 (H _)). exists (layer 2 "2.0.0" ∅ 6). split; [exact Hr|reflexivity].
Defined.
