(* ===== verification/Messaging.v ===== *)
(** * internal/message: receiving

    subscriber.go: a received message is decoded, handled, and acknowledged or returned
    for redelivery.  JSON is a parameter.  Of the calls to Ack and Nack on one message only
    the first has an effect, as Pub/Sub documents. *)

From S2P Require Export Agent.

(** ** Receiving *)

Inductive ackState := Unsettled | Acked | Nacked.

(** A handler runs on the process's state and the message that its context holds. *)
Record delivery (S : Type) := { dv_state : S; dv_ack : ackState }.
Arguments dv_state {S}.
Arguments dv_ack {S}.
Arguments Build_delivery {S}.

Definition settle (a : ackState) (s : ackState) : ackState :=
  match s with Unsettled => a | _ => s end.

Section receiving.
Context {S T : Type} (decode : string → option T).

Definition Ack : M (delivery S) unit := modify (λ d, Build_delivery (dv_state d) (settle Acked (dv_ack d))).
Definition Nack : M (delivery S) unit := modify (λ d, Build_delivery (dv_state d) (settle Nacked (dv_ack d))).
(** The message is always in the context of a handler that [receive] calls. *)
Definition ForceAck : M (delivery S) unit := Ack.

(** A computation that does not look at the message. *)
Definition on_state {A} (m : M S A) : M (delivery S) A := λ d,
  match m (dv_state d) with (o, s) => (o, Build_delivery s (dv_ack d)) end.

Definition receive (f : T → M (delivery S) unit) (data : string) : M (delivery S) unit :=
  match decode data with
  | None => Ack
  | Some t =>
      r ← attempt (f t);
      match r with
      | inr err => Nack
      | inl _ => Ack
      end
  end.

(** Pub/Sub delivers a message again when it was returned, or never settled. *)
Definition redelivered (d : delivery S) : bool :=
  match dv_ack d with Acked => false | _ => true end.

Lemma on_state_run {A} (m : M S A) s a : on_state m (Build_delivery s a) = ((m s).1, Build_delivery (m s).2 a).
Proof. unfold on_state. simpl. by destruct (m s). Qed.

(** What becomes of a message whose handler leaves the message alone: one that cannot
    be decoded is acknowledged unseen, one whose handler returned an error comes back, with
    the handler's changes kept, and one that was handled does not. *)
Theorem receive_settles (f : T → M S unit) data s o d :
  receive (λ t, on_state (f t)) data (Build_delivery s Unsettled) = (o, d) →
  match decode data with
  | None => o = Ok tt ∧ d = Build_delivery s Acked
  | Some t =>
      dv_state d = (f t s).2 ∧
      match (f t s).1 with
      | Ok _ => o = Ok tt ∧ redelivered d = false
      | Err _ => o = Ok tt ∧ dv_ack d = Nacked ∧ redelivered d = true
      | Panic p => o = Panic p ∧ redelivered d = true
      end
  end.
Proof.
  unfold receive. destruct (decode data) as [t|]; [|by intros [= <- <-]].
  unfold mbind, M_bind, attempt. rewrite on_state_run.
  destruct (f t s) as [[x|e|p] s']; simpl; by intros [= <- <-].
Qed.

(** A handler that begins with ForceAck never sees its message again, whatever it
    returns, even when it asks for it with an error or panics. *)
Theorem forced_never_redelivered (f : T → M S unit) data s o d :
  receive (λ t, ForceAck ;; on_state (f t)) data (Build_delivery s Unsettled) = (o, d) →
  redelivered d = false ∧
  dv_state d = match decode data with Some t => (f t s).2 | None => s end.
Proof.
  unfold receive. destruct (decode data) as [t|]; [|by intros [= _ <-]].
  unfold mbind, M_bind, attempt, ForceAck, Ack, modify. cbn [dv_state dv_ack settle].
  rewrite on_state_run. destruct (f t s) as [[x|e|p] s']; simpl; by intros [= _ <-].
Qed.
End receiving.

(** ** The agent as a subscriber (DeployManager.handler) *)

Section agent.
Context `{agent_env : AgentEnv} (tenantName envName naisProjectID : string)
  (kubeHost kubeCAFile kubeToken : string) (mock debug republish : bool).

Definition DeployManager_handler (events : list Event) (msg : DeployInstruction)
    : M (delivery agent) unit :=
  ForceAck ;;
  on_state (agent_handler tenantName envName naisProjectID kubeHost kubeCAFile kubeToken
              mock debug republish events msg).

(** The log says so, or nothing; jobs are not touched. *)
Lemma log_Publish_jobs diid a : ag_jobs (log_Publish diid a).2 = ag_jobs a.
Proof.
  unfold log_Publish, mbind, M_bind. cbn [gets modify]. case_bool_decide; [done|].
  unfold lift. destruct (encode_StatusLog _) as [b|e|p]; [|done..].
  unfold publish, call, agent_fault, mbind, M_bind. cbn [ag_faults set_ag_lines].
  by destruct (ag_faults a) as [|[e|] l].
Qed.

Lemma naisd_guard_postpones msg a :
  di_Name msg = "naisd" → ag_performNaisdUpgrades a = false → (0 < ag_inProgress a)%Z →
  (naisd_guard tenantName envName naisProjectID mock msg a).1 = Err errPostpone ∧
  ag_jobs (naisd_guard tenantName envName naisProjectID mock msg a).2 = ag_jobs a ∧
  view_of (naisd_guard tenantName envName naisProjectID mock msg a).2 = view_of a.
Proof.
  intros Hn Hp Hi. unfold naisd_guard, mbind, M_bind. cbn [gets].
  rewrite bool_decide_true, Hp by done. cbn [andb negb].
  rewrite (proj2 (Z.ltb_lt _ _) Hi). by destruct (_ <? _)%Z.
Qed.

Lemma agent_handler_postponed events msg a o a' :
  di_Name msg = "naisd" → di_Uninstall msg = false → ag_performNaisdUpgrades a = false →
  (0 < ag_inProgress a)%Z →
  agent_handler tenantName envName naisProjectID kubeHost kubeCAFile kubeToken mock
    debug republish events msg a = (o, a') →
  is_Ok o = false ∧ ag_jobs a' = ag_jobs a ∧ view_of a' = view_of a.
Proof.
  intros Hn Hu Hp Hi H. unfold agent_handler in H. rewrite Hu in H.
  unfold mbind at 1, M_bind at 1 in H. cbn [modify] in H.
  set (a0 := set_ag_lines (λ _, []) a) in H.
  destruct (naisd_guard_postpones msg a0 Hn Hp Hi) as (Ho & Hj & Hv).
  unfold deferred at 1 in H. unfold mbind at 1, M_bind at 1 in H.
  destruct (naisd_guard _ _ _ _ _ _) as [o1 a1]. cbn [fst snd] in *. subst o1.
  pose proof (log_Publish_jobs (di_ID msg) a1) as Hj2. pose proof (quiet_log_Publish (di_ID msg) a1) as Hv2.
  destruct (log_Publish (di_ID msg) a1) as [[x|e|p] a2]; cbn [fst snd] in *; injection H as <- <-;
    (split_and!; [done|by rewrite Hj2|by rewrite Hv2]).
Qed.

(** An upgrade of the agent that is postponed because deploys are in progress is lost:
    the handler asks for redelivery with errPostpone, but the message was acknowledged
    first, so that it does not come back; nothing is run or reported. *)
Theorem postponed_upgrade_lost events data msg a o d :
  decode_DeployInstruction data = Ok msg → di_Name msg = "naisd" → di_Uninstall msg = false →
  ag_performNaisdUpgrades a = false → (0 < ag_inProgress a)%Z →
  receive (λ data, match decode_DeployInstruction data with Ok m => Some m | _ => None end)
    (DeployManager_handler events) data (Build_delivery a Unsettled) = (o, d) →
  errors_is errPostpone ErrNack = true ∧ redelivered d = false ∧ ag_jobs (dv_state d) = ag_jobs a ∧
  view_of (dv_state d) = view_of a.
Proof.
  intros Hdec Hn Hu Hp Hi. unfold receive. rewrite Hdec.
  unfold DeployManager_handler, mbind, M_bind, attempt, ForceAck, Ack, modify.
  cbn [dv_state dv_ack settle]. rewrite on_state_run. intros H. split; [done|].
  destruct (agent_handler _ _ _ _ _ _ _ _ _ _ _ _) as [oa a'] eqn:E.
  apply agent_handler_postponed in E as (Ho & Hj & Hv); [|done..].
  destruct oa as [x|e|p]; [done|..]; injection H as _ <-; by split_and!.
Qed.
End agent.

(** ** Instances *)

Definition example_receive_data (s : string) : option nat :=
  if bool_decide (s = "") then None else Some (String.length s).
Definition example_count (n : nat) : M nat unit :=
  modify (λ k, (k + n)%nat) ;; if bool_decide (n = 3)%nat then fail ErrNack else mret tt.

Lemma receive_settles_witness :
  (receive example_receive_data (λ n, on_state (example_count n)) "abc" (Build_delivery 1%nat Unsettled)).2 =
    Build_delivery 4%nat Nacked ∧
  dv_state (receive example_receive_data (λ n, on_state (example_count n)) "abc"
    (Build_delivery 1%nat Unsettled)).2 = 4%nat.
Proof.
  split; [reflexivity|].
  pose proof (receive_settles example_receive_data example_count "abc" 1%nat _ _
    (surjective_pairing _)) as [H _]. exact H.
Defined.

Lemma forced_never_redelivered_witness :
  redelivered (receive example_receive_data (λ n, ForceAck ;; on_state (example_count n)) "abc"
    (Build_delivery 1%nat Unsettled)).2 = false.
Proof.
  exact (proj1 (forced_never_redelivered example_receive_data example_count "abc" 1%nat _ _
    (surjective_pairing _))).
Defined.

Definition example_upgrade_env : AgentEnv :=
  let env := example_agent_env example_decode (Ok "") in
  {| yaml_Encode := @yaml_Encode env; helm_output := @helm_output env; helm_releases := @helm_releases env;
     encode_Helm := @encode_Helm env; encode_HelmRelease := @encode_HelmRelease env;
     encode_Health := @encode_Health env; encode_StatusLog := @encode_StatusLog env;
     encode_DeployInstruction := @encode_DeployInstruction env;
     decode_DeployInstruction _ := Ok (example_instruction "naisd" false);
     decode_tag := @decode_tag env; chart_values := @chart_values env;
     hostname_pod := @hostname_pod env; Error_text := @Error_text env |}.

Lemma postponed_upgrade_lost_witness :
  ∃ d, redelivered d = false ∧ ag_jobs (dv_state d) = [] ∧ ag_commands (dv_state d) = [].
Proof.
  set (a := set_ag_inProgress (λ _, 1%Z) example_agent).
  destruct (postponed_upgrade_lost (agent_env := example_upgrade_env) "nav" "dev" "p" "host" "ca" "token"
    false false true [] "" (example_instruction "naisd" false) a _ _ eq_refl eq_refl eq_refl eq_refl
    eq_refl (surjective_pairing _)) as (_ & Hr & Hj & Hv).
  eexists. split; [exact Hr|]. split; [exact Hj|exact (f_equal v_commands Hv)].
Defined.
