(* ===== verification/EndToEnd.v ===== *)
(** * From an instruction to its status: the server and an agent together

    What the agent publishes while it handles an instruction, delivered to the server's
    receiver, and what the deploy log and the next turn of the reconcile loop make of it.
    Server and agent are joined by the text of the messages only: what is assumed is that
    decoding reads back what was encoded. *)

From S2P Require Import System.
From S2P Require Import Api Pages.
From S2P Require Export Messaging.

(** ** The server's side: statuses delivered one after the other *)

Section server.
Context `{pg : Postgres} `{msgs : MessageCodec} (slackChannel : string).

Definition deliver (statuses : list Status) : IO unit := for_each (handler slackChannel) statuses.

(** The current deploy of [k] is [r], nothing is about to fail, and its environment exists. *)
Record tracked (w : world) (k : N * string) (r : DeployRow) : Prop := {
  tk_wf : server_wf w;
  tk_faults : w_faults w = [];
  tk_current : deploy_current (w_rec w) !! k = Some r;
  tk_env : ∃ env t, env ∈ environments (w_env w) ∧ er_ID env = dl_EnvironmentID r ∧
    t ∈ tenants (w_env w) ∧ t_ID t = er_TenantID env;
}.

Lemma single_filter {A} (P : A → Prop) `{∀ x, Decision (P x)} (l : list A) x :
  x ∈ l → P x → ∃ y, single (filter P l) = Ok y ∧ y ∈ l ∧ P y.
Proof.
  intros Hx HP. destruct (filter P l) as [|y l'] eqn:E.
  - assert (x ∈ filter P l) as Hin by by apply list_elem_of_filter.
    rewrite E in Hin. by apply elem_of_nil in Hin.
  - exists y. split; [done|]. assert (y ∈ filter P l) as Hy by (rewrite E; left).
    by apply list_elem_of_filter in Hy as [].
Qed.

(** The row a status adds. *)
Definition status_params (r : DeployRow) (h : Helm) : AppendDeploysParams :=
  {| ap_Diid := dl_Diid r; ap_EnvironmentID := dl_EnvironmentID r;
     ap_FeatureAssignmentID := dl_FeatureAssignmentID r; ap_FeatureName := dl_FeatureName r;
     ap_FeatureVersion := dl_FeatureVersion r; ap_Status := h_RolloutStatus h;
     ap_Hash := dl_Hash r; ap_Vals := "{}" |}.

Lemma tracked_latest w k r r0 w' :
  tracked w k r → LatestDeployByDIID (dl_Diid r) w = (Ok r0, w') → r0 = r.
Proof.
  intros [Hwf Hf Hc _] H. apply LatestDeployByDIID_Ok in H as (Hin & Hd & Hmax).
  pose proof (log_to_current_latest (deploy_log (w_rec w)) k) as Hl.
  rewrite <-(wf_deploy_current _ (sw_logs _ Hwf)), Hc in Hl. destruct Hl as (Hr & Hk & Hnew).
  destruct (rw_same _ _ (sw_rows _ Hwf) r0 r Hin Hr Hd) as [He _].
  assert (Hk0 : log_key r0 = k).
  { destruct (rw_published _ _ (sw_rows _ Hwf) r0 Hin) as (tm0 & Ht0 & Hm0).
    destruct (rw_published _ _ (sw_rows _ Hwf) r Hr) as (tm & Ht & Hm).
    assert (tm0 = tm) as ->.
    { apply (NoDup_fmap_inj_on (di_ID ∘ snd) (published w)); [apply (sw_published _ Hwf)|done..|].
      simpl. destruct Hm0 as (-> & _), Hm as (-> & _). done. }
    rewrite <-Hk. unfold log_key. simpl. destruct Hm0 as (_ & <- & _), Hm as (_ & <- & _).
    by rewrite He. }
  apply (is_latest_unique (deploy_log (w_rec w)) k); [apply (wf_deploy_ids _ (sw_logs _ Hwf))|..].
  - split_and!; [done..|]. intros r' Hr' Hk'. eapply newer_false_trans; [by apply Hnew|]. by apply Hmax.
  - by split_and!.
Qed.

Lemma none_if_no_rows_now {A} (m : IO A) w x : m w = (Ok x, w) → none_if_no_rows m w = (Ok (Some x), w).
Proof. intros Hm. unfold none_if_no_rows, attempt, mbind, M_bind. by rewrite Hm. Qed.

Lemma tracked_row w k r : tracked w k r → r ∈ deploy_log (w_rec w) ∧ log_key r = k.
Proof.
  intros [Hwf _ Hc _]. pose proof (log_to_current_latest (deploy_log (w_rec w)) k) as Hl.
  rewrite <-(wf_deploy_current _ (sw_logs _ Hwf)), Hc in Hl. by destruct Hl as (? & ? & _).
Qed.

Lemma LatestDeployByDIID_now w k r :
  tracked w k r → LatestDeployByDIID (dl_Diid r) w = (Ok r, w).
Proof.
  intros Ht. destruct (LatestDeployByDIID (dl_Diid r) w) as [o w'] eqn:E.
  pose proof (λ r0, tracked_latest w k r r0 w Ht) as Huniq.
  unfold LatestDeployByDIID in E, Huniq. rewrite query_now in E, Huniq by apply Ht.
  assert (Hin : r ∈ deploy_newest_first (filter (λ r', dl_Diid r' = dl_Diid r) (deploy_log (w_rec w)))).
  { apply elem_of_isort, list_elem_of_filter. split; [done|]. by apply tracked_row in Ht as []. }
  destruct (deploy_newest_first _) as [|r0 l]; [by apply elem_of_nil in Hin|].
  injection E as <- <-. by rewrite (Huniq r0).
Qed.

Lemma Get_tracked w k r :
  tracked w k r →
  ∃ env t, Get (dl_EnvironmentID r) w = (Ok env, w) ∧ GetTenant (er_TenantID env) w = (Ok t, w).
Proof.
  intros [Hwf Hf _ (env & t & Henv & He & Ht & Htid)]. unfold Get, GetTenant.
  destruct (single_filter (λ e, er_ID e = dl_EnvironmentID r) _ env Henv He) as (env' & E & Hin & He').
  assert (env' = env) as ->.
  { apply (NoDup_fmap_inj_on er_ID (environments (w_env w)));
      [apply (ew_env_ids _ _ (sw_env _ Hwf))|done..|congruence]. }
  destruct (single_filter (λ t', t_ID t' = er_TenantID env) _ t Ht Htid) as (t' & E' & _).
  exists env, t'. by rewrite !query_now, E, E'.
Qed.

(** Telling Slack changes nothing else. *)
Lemma PostMessage_now name w :
  w_faults w = [] →
  ∃ w', attempt (PostMessage slackChannel name) w = (Ok (inl tt), w') ∧ w_rec w' = w_rec w ∧
    w_now w' = w_now w ∧ w_env w' = w_env w ∧ w_faults w' = [].
Proof. intros Hf. unfold attempt, PostMessage. rewrite exec_now by done. by eexists. Qed.

(** A Helm status about the current deploy, when nothing fails. *)
Lemma handler_runs w k r msg h :
  tracked w k r → st_Type msg = StatusTypeHelm → decode_Helm (st_Data msg) = Some h →
  h_DIID h = dl_Diid r →
  ∃ w1, handler slackChannel msg w = (Ok tt, insert_deploy (deploy_of (status_params r h)) w1) ∧
    w_rec w1 = w_rec w ∧ w_now w1 = w_now w ∧ w_env w1 = w_env w ∧ w_faults w1 = [].
Proof.
  intros Ht Hty Hdec Hid. pose proof (tk_faults _ _ _ Ht) as Hf.
  destruct (Get_tracked _ _ _ Ht) as (env & t & E1 & E2).
  destruct (PostMessage_now (dl_FeatureName r) w Hf) as (w1 & E3 & Hrest).
  unfold handler, handlerHelm. rewrite Hty, Hdec, Hid. unfold mbind at 1, M_bind at 1.
  rewrite (none_if_no_rows_now _ _ _ (LatestDeployByDIID_now _ _ _ Ht)).
  unfold mbind at 1, M_bind at 1. rewrite (none_if_no_rows_now _ _ _ E1).
  exists (if bool_decide (h_RolloutStatus h = DeployStatusFailed) then w1 else w).
  unfold wrapping, mbind, M_bind. case_bool_decide.
  - rewrite E2. cbn [wrap]. rewrite E3. unfold AppendDeployStatus. cbn [mret M_ret].
    rewrite exec_now by apply Hrest. by split.
  - unfold AppendDeployStatus. cbn [mret M_ret]. rewrite exec_now by done. by split.
Qed.

Lemma handler_tracked w k r msg h :
  tracked w k r → st_Type msg = StatusTypeHelm → decode_Helm (st_Data msg) = Some h →
  h_DIID h = dl_Diid r →
  ∃ w' id, handler slackChannel msg w = (Ok tt, w') ∧ w_now w' = w_now w ∧
    tracked w' k (deploy_of (status_params r h) id (w_now w)).
Proof.
  intros Ht Hty Hdec Hid. destruct (handler_runs w k r msg h Ht Hty Hdec Hid) as (w1 & E & Hr & Hn & He & Hf1).
  pose proof (safe_handler slackChannel msg w (tk_wf _ _ _ Ht) I) as (Hwf' & _).
  rewrite E in Hwf'. cbn [snd] in Hwf'.
  eexists _, (next_log_id (w_rec w)). split; [exact E|]. split; [exact Hn|].
  destruct Ht as [Hwf Hf Hc Henv]. split; [done|done| |].
  - assert (Hl1 : logs_wf w1) by (apply (logs_wf_mono w w1); [done|lia|apply Hwf]).
    rewrite insert_deploy_current by done. rewrite Hr, Hn.
    pose proof (deploy_current_key _ _ _ (sw_logs _ Hwf) Hc) as <-. apply lookup_insert_eq.
  - unfold insert_deploy. cbn [w_env set_w_rec]. rewrite He. exact Henv.
Qed.

(** The deploy as it is after statuses about it, in their order. *)
Lemma deliver_tracked w k r sts hs :
  tracked w k r →
  Forall2 (λ st h, st_Type st = StatusTypeHelm ∧ decode_Helm (st_Data st) = Some h ∧
                   h_DIID h = dl_Diid r) sts hs →
  ∃ w' r', deliver sts w = (Ok tt, w') ∧ w_now w' = w_now w ∧ tracked w' k r' ∧
    dl_Diid r' = dl_Diid r ∧ dl_Hash r' = dl_Hash r ∧
    dl_Status r' = default (dl_Status r) (last (h_RolloutStatus <$> hs)) ∧
    dl_Created r' = match hs with [] => dl_Created r | _ => w_now w end.
Proof.
  intros Ht Hs. revert w r Ht Hs. induction sts as [|st sts IH] in hs |- *; intros w r Ht Hs.
  { apply Forall2_nil_inv_l in Hs as ->. exists w, r. by split_and!. }
  apply Forall2_cons_inv_l in Hs as (h & hs' & (Hty & Hdec & Hid) & Hs & ->).
  destruct (handler_tracked _ _ _ _ _ Ht Hty Hdec Hid) as (w1 & id & E & Hn & Ht1).
  destruct (IH hs' w1 _ Ht1) as (w' & r' & E' & Hn' & Ht' & Hd & Hh & Hst & Hcr).
  { eapply Forall2_impl; [exact Hs|]. done. }
  exists w', r'. split_and!; [|congruence|done..| |].
  - unfold deliver. cbn [for_each]. unfold mbind, M_bind. rewrite E. exact E'.
  - rewrite Hst. cbn [fmap list_fmap]. rewrite last_cons. by destruct (last _).
  - rewrite Hcr. destruct hs'; [reflexivity|exact Hn].
Qed.
End server.

(** ** The agent's side: a run in which no call fails *)

Section agent.
Context `{agent_env : AgentEnv} (tenantName envName naisProjectID : string)
  (kubeHost kubeCAFile kubeToken : string) (mock debug republish : bool).
#[local] Abbreviation handle := (agent_handler tenantName envName naisProjectID kubeHost kubeCAFile
  kubeToken mock debug republish) (only parsing).

(** Messages can always be encoded. *)
Class Encodes : Prop := {
  enc_Helm : ∀ h, ∃ s, encode_Helm h = Ok s;
  enc_HelmRelease : ∀ h, ∃ s, encode_HelmRelease h = Ok s;
  enc_StatusLog : ∀ l, ∃ s, encode_StatusLog l = Ok s;
}.

(** [m] goes through whenever nothing fails, and publishes these Helm statuses. *)
Definition smooth {A} (m : M agent A) (sts : list Status) : Prop := ∀ a, ag_faults a = [] →
  ∃ x a', m a = (Ok x, a') ∧ ag_faults a' = [] ∧ helm_statuses a' = helm_statuses a ++ sts ∧
    ag_performNaisdUpgrades a' = ag_performNaisdUpgrades a.

Lemma smooth_bind {A B} (m : M agent A) (f : A → M agent B) s1 s2 :
  smooth m s1 → (∀ x, smooth (f x) s2) → smooth (m ≫= f) (s1 ++ s2).
Proof.
  intros Hm Hf a Ha. destruct (Hm a Ha) as (x & a1 & E & Ha1 & H1 & P1).
  destruct (Hf x a1 Ha1) as (y & a2 & E2 & Ha2 & H2 & P2). exists y, a2.
  unfold mbind, M_bind. rewrite E, E2. split_and!; [done..| |congruence]. by rewrite H2, H1, app_assoc.
Qed.

(** The steps before the first status, and those after the last. *)
Lemma smooth_seq_l {A B} (m : M agent A) (f : A → M agent B) s :
  smooth m [] → (∀ x, smooth (f x) s) → smooth (m ≫= f) s.
Proof. apply (smooth_bind _ _ []). Qed.

Lemma smooth_ret {A} (x : A) : smooth (mret x) [].
Proof. intros a Ha. exists x, a. by rewrite app_nil_r. Qed.

Lemma smooth_gets {A} (f : agent → A) : smooth (gets f) [].
Proof. intros a Ha. exists (f a), a. by rewrite app_nil_r. Qed.

Lemma smooth_lift {A} (o : outcome A) : (∃ x, o = Ok x) → smooth (lift o) [].
Proof. intros [x ->] a Ha. exists x, a. by rewrite app_nil_r. Qed.

Lemma smooth_modify f :
  (∀ a, ag_faults (f a) = ag_faults a ∧ ag_statuses (f a) = ag_statuses a ∧
        ag_performNaisdUpgrades (f a) = ag_performNaisdUpgrades a) → smooth (modify f) [].
Proof.
  intros Hf a Ha. destruct (Hf a) as (H1 & H2 & H3). exists tt, (f a).
  rewrite app_nil_r. unfold helm_statuses. rewrite H1, H2, H3. by split_and!.
Qed.

Lemma smooth_call {A} (m : M agent A) s : smooth m s → smooth (call m) s.
Proof. intros Hm a Ha. unfold call, agent_fault, mbind, M_bind. rewrite Ha. by apply Hm. Qed.

Lemma smooth_attempt {A} (m : M agent A) s : smooth m s → smooth (attempt m) s.
Proof.
  intros Hm a Ha. destruct (Hm a Ha) as (x & a1 & E & Hrest). unfold attempt. rewrite E.
  by exists (inl x), a1.
Qed.

Lemma smooth_wrapping {A} prefix (m : M agent A) s : smooth m s → smooth (wrapping prefix m) s.
Proof.
  intros Hm a Ha. destruct (Hm a Ha) as (x & a1 & E & Hrest). unfold wrapping. rewrite E. by exists x, a1.
Qed.

Lemma smooth_deferred {A} fin (m : M agent A) s : smooth fin [] → smooth m s → smooth (deferred fin m) s.
Proof.
  intros Hfin Hm a Ha. destruct (Hm a Ha) as (x & a1 & E & Ha1 & H1 & P1).
  destruct (Hfin a1 Ha1) as (y & a2 & E2 & Ha2 & H2 & P2). exists x, a2. unfold deferred. rewrite E, E2.
  rewrite app_nil_r in H2. split_and!; [done..| |congruence]. by rewrite H2.
Qed.

Lemma smooth_for_each {A} (f : A → M agent unit) l : (∀ x, smooth (f x) []) → smooth (for_each f l) [].
Proof. intros Hf. induction l as [|x l IH]; [apply smooth_ret|]. by apply smooth_seq_l. Qed.

Lemma smooth_publish st : smooth (publish st) (if is_helm st then [st] else []).
Proof.
  apply smooth_call. intros a Ha. eexists _, _. split; [done|]. split_and!; [done| |done].
  unfold helm_statuses. cbn [ag_statuses set_ag_statuses]. rewrite filter_app, filter_cons.
  case_decide as Hd; [by rewrite Hd|]. by apply not_true_is_false in Hd as ->.
Qed.

Context {encodes : Encodes}.

(** The status that carries [h]. *)
Definition status_of (h : Helm) : Status :=
  {| st_Tenant := tenantName; st_Environment := envName; st_Type := StatusTypeHelm;
     st_Data := match encode_Helm h with Ok s => s | _ => "" end |}.

Lemma smooth_publishStatus h : smooth (publishStatus tenantName envName h) [status_of h].
Proof.
  unfold publishStatus. destruct (enc_Helm h) as [s Hs]. unfold status_of. rewrite Hs.
  intros a Ha. exact (smooth_publish {| st_Tenant := tenantName; st_Environment := envName;
    st_Type := StatusTypeHelm; st_Data := s |} a Ha).
Qed.

Lemma smooth_log_Publish diid : smooth (log_Publish diid) [].
Proof.
  apply smooth_seq_l; [apply smooth_gets|]. intros lines.
  apply smooth_seq_l; [by apply smooth_modify|]. intros _.
  case_bool_decide; [apply smooth_ret|]. apply smooth_seq_l; [apply smooth_lift, enc_StatusLog|].
  intros b. apply smooth_publish.
Qed.

Lemma smooth_RepublishHelmList : smooth (RepublishHelmList tenantName envName republish) [].
Proof.
  unfold RepublishHelmList. destruct republish; [|apply smooth_ret].
  apply smooth_seq_l; [|intros; apply smooth_ret]. apply smooth_attempt. unfold StatusReporter_Run.
  apply smooth_seq_l; [apply smooth_wrapping, smooth_call, smooth_gets|]. intros releases.
  apply smooth_seq_l; [apply smooth_gets|]. intros now.
  apply smooth_seq_l; [apply smooth_wrapping, smooth_lift, enc_HelmRelease|]. intros b.
  apply smooth_publish.
Qed.

Lemma smooth_Write b : smooth (Write b) [].
Proof. apply smooth_seq_l; [apply smooth_gets|]. intros now. by apply smooth_modify. Qed.

Lemma smooth_listenForEvents msg events : smooth (listenForEvents msg events) [].
Proof.
  apply smooth_seq_l; [apply smooth_attempt, smooth_call, smooth_ret|]. intros [x|e]; [|apply smooth_Write].
  apply smooth_for_each. intros ev. apply smooth_seq_l; [apply smooth_gets|]. intros now.
  by apply smooth_modify.
Qed.

(** [runHelm] ends well. *)
Lemma attempt_runHelm args a :
  ag_faults a = [] →
  ∃ a', attempt (runHelm kubeHost kubeCAFile kubeToken debug args) a = (Ok (inl ""), a') ∧
    ag_faults a' = [] ∧ helm_statuses a' = helm_statuses a ∧
    ag_performNaisdUpgrades a' = ag_performNaisdUpgrades a.
Proof.
  intros Ha. unfold attempt, runHelm. unfold mbind at 1, M_bind at 1. cbn [modify].
  set (a0 := set_ag_commands _ a).
  destruct (smooth_for_each Write (helm_output (full_command kubeHost kubeCAFile kubeToken debug args))
    smooth_Write a0 Ha) as (x & a1 & E & Ha1 & H1 & P1).
  unfold mbind at 1, M_bind at 1. fold (full_command kubeHost kubeCAFile kubeToken debug args).
  rewrite E. unfold call, agent_fault, mbind, M_bind. rewrite Ha1.
  exists a1. rewrite app_nil_r in H1. by split_and!.
Qed.

Lemma smooth_deploy_with msg events vf :
  smooth (deploy_with tenantName envName kubeHost kubeCAFile kubeToken debug republish msg events vf)
    [status_of (helm_status msg DeployStatusInstalling ""); status_of (helm_status msg DeployStatusDeployed "")].
Proof.
  unfold deploy_with. apply smooth_seq_l; [apply smooth_lift; by eexists|]. intros args.
  apply (smooth_bind _ _ [_] [_]); [apply smooth_attempt, smooth_publishStatus|]. intros _.
  unfold run_and_report. apply smooth_seq_l; [apply smooth_listenForEvents|]. intros _ a Ha.
  destruct (attempt_runHelm args a Ha) as (a1 & E & Ha1 & H1 & P1).
  unfold mbind at 1, M_bind at 1. rewrite E. rewrite <-H1, <-P1. clear E H1 P1. revert a1 Ha1.
  apply smooth_seq_l; [apply smooth_RepublishHelmList|]. intros _. apply smooth_publishStatus.
Qed.

Lemma smooth_makeHelmValues msg :
  (∃ s, yaml_Encode (di_Values msg) = Ok s) → smooth (makeHelmValues msg) [].
Proof.
  intros Hy. unfold makeHelmValues. apply smooth_seq_l.
  - apply smooth_call. intros a Ha. eexists _, _. split; [done|]. rewrite app_nil_r. by split_and!.
  - intros name. apply smooth_seq_l; [by apply smooth_lift|]. intros _. apply smooth_ret.
Qed.

(** Handling a deploy: the instruction, then its two statuses, then nothing more. *)
Lemma smooth_handle events msg :
  di_Uninstall msg = false → di_Name msg ≠ "naisd" → (∃ s, yaml_Encode (di_Values msg) = Ok s) →
  smooth (handle events msg)
    [status_of (helm_status msg DeployStatusInstalling ""); status_of (helm_status msg DeployStatusDeployed "")].
Proof.
  intros Hu Hn Hy. unfold agent_handler. rewrite Hu. apply smooth_seq_l; [by apply smooth_modify|].
  intros _. apply smooth_deferred; [apply smooth_log_Publish|]. apply smooth_seq_l.
  { unfold naisd_guard. apply smooth_seq_l; [apply smooth_gets|]. intros perform.
    rewrite bool_decide_false by done. apply smooth_ret. }
  intros _. apply smooth_seq_l; [by apply smooth_modify|]. intros _.
  apply smooth_deferred; [by apply smooth_modify|].
  apply smooth_seq_l; [by apply smooth_makeHelmValues|]. intros vf.
  apply smooth_deferred; [|apply smooth_deploy_with]. by apply smooth_call, smooth_modify.
Qed.
End agent.

(** ** Both together *)

Section together.
Context `{ext : External} `{pg : Postgres} `{codec : FeatureCodec} `{msgs : MessageCodec}
  `{agent_env : AgentEnv}.
Context (tenantName envName naisProjectID kubeHost kubeCAFile kubeToken : string)
  (mock debug republish : bool) (slackChannel aud : string).
#[local] Abbreviation handle := (agent_handler tenantName envName naisProjectID kubeHost kubeCAFile
  kubeToken mock debug republish) (only parsing).

(** JSON reads back what it wrote. *)
Hypothesis roundtrip : ∀ h s, encode_Helm h = Ok s → decode_Helm s = Some h.

(** A published status and what it says. *)
Definition carries (msg : DeployInstruction) (st : Status) (h : Helm) : Prop :=
  st_Type st = StatusTypeHelm ∧ decode_Helm (st_Data st) = Some h ∧ h_DIID h = di_ID msg.

Lemma helm_message_carries msg status err st :
  helm_message tenantName envName msg status err st → carries msg st (helm_status msg status err).
Proof. intros (_ & _ & Ht & He). split; [done|]. split; [by apply roundtrip|done]. Qed.

(** What the agent published says [installing] at most, then the final status if it got that far. *)
Lemma reported_carries msg done inst fin :
  (inst = [] ∨ ∃ st, inst = [st] ∧ helm_message tenantName envName msg DeployStatusInstalling "" st) →
  reported tenantName envName msg done fin →
  ∃ hs, Forall2 (carries msg) (inst ++ fin) hs ∧
    if done then last (h_RolloutStatus <$> hs) ∈ [Some DeployStatusDeployed; Some DeployStatusFailed]
    else last (h_RolloutStatus <$> hs) ∈ [None; Some DeployStatusInstalling].
Proof.
  intros Hi Hf.
  assert (∃ hi, Forall2 (carries msg) inst hi ∧
    last (h_RolloutStatus <$> hi) ∈ [None; Some DeployStatusInstalling]) as (hi & Hhi & Hlast).
  { destruct Hi as [->|(st & -> & Hm)]; [exists []; split; [done|left]|].
    eexists [_]. split; [constructor; [by apply helm_message_carries|done]|]. right. left. }
  destruct done; [|exists hi; rewrite Hf, app_nil_r; by split].
  destruct Hf as (st & -> & Hfin).
  assert (∃ h, carries msg st h ∧ h_RolloutStatus h ∈ [DeployStatusDeployed; DeployStatusFailed])
    as (h & Hc & Hst).
  { destruct Hfin as [Hm|(err & Hm)]; apply helm_message_carries in Hm; eexists; (split; [exact Hm|]);
      simpl; [left|right; left]. }
  exists (hi ++ [h]). split; [apply Forall2_app; [done|by constructor]|].
  rewrite fmap_app. change (h_RolloutStatus <$> [h]) with [h_RolloutStatus h]. rewrite last_snoc. revert Hst. rewrite !elem_of_cons, !elem_of_nil. intros [->|[->|[]]]; auto.
Qed.

(** The next turn does not deploy the same values again. *)
Lemma computeAction_tracked w k r snap w' order env dep d :
  tracked w k r → fetchSnapshot aud w = (Ok snap, w') → computeAction order snap env dep = Ok d →
  (e_ID env, f_Name (ra_Feature dep)) = k →
  (dd_Action d = ActionDeploy → dd_Hash d ≠ dl_Hash r ∧ IsInProgress (dl_Status r) = false) ∧
  (IsInProgress (dl_Status r) = false → dd_Action d ≠ ActionSkipInProgress).
Proof.
  intros Ht Hs Hd Hk. pose proof (snapshot_latest _ _ _ _ (e_ID env) (f_Name (ra_Feature dep))
    (sw_logs _ (tk_wf _ _ _ Ht)) Hs) as Hl. rewrite Hk, (tk_current _ _ _ Ht) in Hl.
  apply computeAction_cases in Hd as [(a & msg & Ha & ->)|(values & hash & _ & _ & _ & Hd)].
  { split; [|intros _]; simpl; intros ->; discriminate Ha. }
  rewrite Hl in Hd. simpl in Hd. destruct (IsInProgress (dl_Status r)); [by subst d|].
  case_bool_decide as Hh; subst d; simpl; [done|]. split; [by intros|done].
Qed.

(** The statuses of an instruction find their deploy: whatever fails on the agent's side,
    delivering what it published about an instruction, in order, to a server that tracks
    this instruction as a feature's current deploy leaves it the current deploy, with the
    same hash; its status is as before or one of those the agent publishes, and it is
    [deployed] or [failed] if the handler returned without error; and the next turn does not
    deploy the same hash again, nor does it wait for a deploy that ended. *)
Theorem statuses_reach_server events msg a o a' w k r :
  di_Uninstall msg = false → (0 <= ag_inProgress a)%Z → handle events msg a = (o, a') →
  tracked w k r → dl_Diid r = di_ID msg →
  ∃ new w' r', helm_statuses a' = helm_statuses a ++ new ∧
    deliver slackChannel new w = (Ok tt, w') ∧ tracked w' k r' ∧
    dl_Diid r' = di_ID msg ∧ dl_Hash r' = dl_Hash r ∧
    dl_Status r' ∈ [dl_Status r; DeployStatusInstalling; DeployStatusDeployed; DeployStatusFailed] ∧
    (is_Ok o = true → dl_Status r' ∈ [DeployStatusDeployed; DeployStatusFailed]) ∧
    ∀ snap w2 order env dep d,
      fetchSnapshot aud w' = (Ok snap, w2) → computeAction order snap env dep = Ok d →
      (e_ID env, f_Name (ra_Feature dep)) = k →
      (dd_Action d = ActionDeploy → dd_Hash d ≠ dl_Hash r) ∧
      (is_Ok o = true → dd_Action d ≠ ActionSkipInProgress).
Proof.
  intros Hu Hpos H Ht Hd.
  assert (∃ inst fin done, helm_statuses a' = helm_statuses a ++ (inst ++ fin) ∧
    (inst = [] ∨ ∃ st, inst = [st] ∧ helm_message tenantName envName msg DeployStatusInstalling "" st) ∧
    reported tenantName envName msg done fin ∧ (is_Ok o = true → done = true))
    as (inst & fin & done & Hnew & Hi & Hf & Ho).
  { apply agent_handler_effect in H as [[Hv Hno]|Heff]; [| |done..].
    - exists [], [], false. apply (f_equal v_helm) in Hv. simpl in Hv. rewrite app_nil_r.
      split_and!; [done|by left|done|by rewrite Hno].
    - destruct Heff as (vf & cmds & inst & fin & done & fs & Hv & _ & Hi & Hf & Ho).
      exists inst, fin, done. apply (f_equal v_helm) in Hv. by split_and!. }
  destruct (reported_carries msg done inst fin Hi Hf) as (hs & Hcs & Hlast).
  destruct (deliver_tracked slackChannel w k r (inst ++ fin) hs Ht) as (w' & r' & E & _ & Ht' & Hd' & Hh' & Hst & _).
  { eapply Forall2_impl; [exact Hcs|]. intros st h (H1 & H2 & H3). by rewrite Hd. }
  assert (Hfinal : is_Ok o = true → dl_Status r' ∈ [DeployStatusDeployed; DeployStatusFailed]).
  { intros Hok. rewrite (Ho Hok) in Hlast. rewrite Hst. revert Hlast. clear.
    rewrite !elem_of_cons, !elem_of_nil. intros [->|[->|[]]]; simpl; auto. }
  exists (inst ++ fin), w', r'. split_and!; [done|done|done|congruence|done| |done|].
  - rewrite Hst. revert Hlast. clear. destruct done; rewrite !elem_of_cons, !elem_of_nil; intros [->|[->|[]]]; simpl; auto.
  - intros snap w2 order env dep d Hs Hc Hk.
    destruct (computeAction_tracked _ _ _ _ _ _ _ _ _ Ht' Hs Hc Hk) as [H1 H2]. split.
    + intros Ha. rewrite <-Hh'. by apply H1.
    + intros Hok. apply H2. specialize (Hfinal Hok). revert Hfinal.
      rewrite !elem_of_cons, elem_of_nil. by intros [->|[->|[]]].
Qed.

(** C6.  A deploy completes: given an instruction to deploy any feature but the agent itself
    ([naisd], whose upgrades are handed to a job or postponed), which can be encoded and whose
    row is the current one of its feature, when no call fails on either side the agent
    handles the instruction without error, and delivering its two statuses leaves the
    feature's current deploy [deployed], so that the next snapshot counts the feature as
    deployed in that environment and the features that depend on it can follow. *)
Theorem healthy_deploy_completes events msg a w k r :
  Encodes → (∃ s, yaml_Encode (di_Values msg) = Ok s) →
  di_Uninstall msg = false → di_Name msg ≠ "naisd" → ag_faults a = [] →
  tracked w k r → dl_Diid r = di_ID msg →
  ∃ a' new w' r', handle events msg a = (Ok tt, a') ∧
    helm_statuses a' = helm_statuses a ++ new ∧ length new = 2%nat ∧
    deliver slackChannel new w = (Ok tt, w') ∧ tracked w' k r' ∧
    dl_Diid r' = di_ID msg ∧ dl_Hash r' = dl_Hash r ∧ dl_Status r' = DeployStatusDeployed ∧
    ∀ snap w2, fetchSnapshot aud w' = (Ok snap, w2) →
      set_has (default ∅ (s_deployedFeats snap !! k.1)) k.2 = true.
Proof.
  intros Henc Hy Hu Hn Ha Ht Hd.
  destruct (smooth_handle tenantName envName naisProjectID kubeHost kubeCAFile kubeToken mock debug
    republish (encodes := Henc) events msg Hu Hn Hy a Ha) as ([] & a' & E & _ & Hnew & _).
  assert (Hc : ∀ h, h_DIID h = di_ID msg →
    st_Type (status_of tenantName envName h) = StatusTypeHelm ∧
    decode_Helm (st_Data (status_of tenantName envName h)) = Some h ∧ h_DIID h = dl_Diid r).
  { intros h Hh. split; [done|]. split; [|congruence]. unfold status_of. simpl.
    destruct (enc_Helm h) as [s Hs]. rewrite Hs. by apply roundtrip. }
  set (sts := [status_of _ _ _; _]) in Hnew.
  destruct (deliver_tracked slackChannel w k r sts [helm_status msg DeployStatusInstalling "";
    helm_status msg DeployStatusDeployed ""] Ht)
    as (w' & r' & Ed & _ & Ht' & Hd' & Hh' & Hst & _).
  { apply Forall2_cons_2; [by apply Hc|]. apply Forall2_cons_2; [by apply Hc|]. apply Forall2_nil_2. }
  exists a', sts, w', r'. split_and!; [exact E|exact Hnew|done|exact Ed|done|congruence|done|done|].
  intros snap w2 Hs. apply fetchSnapshot_index in Hs as [_ ->].
  destruct k as [env feature]. cbn [fst snd]. apply deployedFeats_lookup; [apply Ht'|].
  rewrite (tk_current _ _ _ Ht'). simpl. by rewrite Hst.
Qed.

(** Order matters, and nothing enforces it: if the final status of a successful deploy
    is delivered before the status [installing], the feature's current deploy says
    [installing] again, and an hour later the timeout worker records it as failed although
    Helm succeeded; nothing deploys it again. *)
Theorem reordered_statuses_fail msg w k r st1 st2 h1 h2 (d : duration) :
  tracked w k r → dl_Diid r = di_ID msg → (Hour < d)%Z →
  carries msg st1 h1 → h_RolloutStatus h1 = DeployStatusInstalling →
  carries msg st2 h2 → h_RolloutStatus h2 = DeployStatusDeployed →
  ∃ w1 r1 w2 r2,
    deliver slackChannel [st2; st1] w = (Ok tt, w1) ∧ deploy_current (w_rec w1) !! k = Some r1 ∧
    dl_Status r1 = DeployStatusInstalling ∧
    TimeoutPendingDeploys (set_w_now (λ t, (t + d)%Z) w1) = (Ok tt, w2) ∧
    deploy_current (w_rec w2) !! k = Some r2 ∧
    dl_Status r2 = DeployStatusFailed ∧ dl_Diid r2 = di_ID msg ∧ dl_Hash r2 = dl_Hash r.
Proof.
  intros Ht Hd Hlate (T1 & D1 & I1) S1 (T2 & D2 & I2) S2.
  destruct (deliver_tracked slackChannel w k r [st2; st1] [h2; h1] Ht)
    as (w1 & r1 & Ed & Hn1 & Ht1 & Hd1 & Hh1 & Hst1 & Hcr1).
  { repeat constructor; congruence. }
  simpl in Hst1, Hcr1. rewrite S1 in Hst1.
  set (w1' := set_w_now (λ t, (t + d)%Z) w1).
  assert (Hl : logs_wf w1').
  { apply (logs_wf_mono w1); [done| |apply Ht1]. assert (0 <= Hour)%Z by done. unfold w1'. simpl. lia. }
  pose proof (timeout_pending_current w1' k Hl) as Hc.
  change (w_rec w1') with (w_rec w1) in Hc. rewrite (tk_current _ _ _ Ht1) in Hc.
  assert (timed_out (w_now w1') r1 = true) as Hto.
  { unfold timed_out. rewrite Hst1, Hcr1, bool_decide_true by (right; left).
    apply Z.ltb_lt. unfold w1'. simpl. lia. }
  rewrite Hto in Hc. destruct Hc as (r2 & Hr2 & Hs2 & Hd2 & Hh2 & _).
  exists w1, r1, (timeout_pending w1'), r2.
  split_and!; [done|apply Ht1|done| |done|done|congruence|congruence].
  unfold TimeoutPendingDeploys, TimeoutPendingDeploys_query, attempt, mbind, M_bind.
  rewrite exec_now; [done|]. apply (tk_faults _ _ _ Ht1).
Qed.
End together.

(** ** A codec that does read back, and the example's instruction *)

Fixpoint bits_text (p : positive) : string :=
  match p with
  | xH => ""
  | xO p => String "0" (bits_text p)
  | xI p => String "1" (bits_text p)
  end.
Fixpoint bits_of (s : string) : positive :=
  match s with
  | "" => xH
  | String c s => if ascii_dec c "0" then xO (bits_of s) else xI (bits_of s)
  end.
Lemma bits_of_text p : bits_of (bits_text p) = p.
Proof. induction p as [p IH|p IH|]; simpl; by rewrite ?IH. Qed.

#[local] Instance Helm_decision : EqDecision Helm.
Proof. solve_decision. Defined.
#[local] Instance Helm_countable : Countable Helm.
Proof.
  apply (inj_countable'
    (λ h, (h_DIID h, h_Name h, h_Version h, h_RolloutStatus h, h_ConfigHash h, h_Log h, h_Error h))
    (λ '(d, n, v, r, c, l, e), {| h_DIID := d; h_Name := n; h_Version := v; h_RolloutStatus := r;
       h_ConfigHash := c; h_Log := l; h_Error := e |})).
  by intros [].
Defined.

Definition example_helm_text (h : Helm) : string := bits_text (encode h).
Definition example_bits_codec : MessageCodec := {|
  decode_Helm s := decode (bits_of s);
  decode_HelmRelease _ := None; decode_Health _ := None; decode_StatusLog _ := None;
|}.
Definition example_bits_env : AgentEnv :=
  let env := example_agent_env example_decode (Ok "") in
  {| yaml_Encode := @yaml_Encode env; helm_output := @helm_output env; helm_releases := @helm_releases env;
     encode_Helm h := Ok (example_helm_text h); encode_HelmRelease := @encode_HelmRelease env;
     encode_Health := @encode_Health env; encode_StatusLog := @encode_StatusLog env;
     encode_DeployInstruction := @encode_DeployInstruction env;
     decode_DeployInstruction := @decode_DeployInstruction env;
     decode_tag := @decode_tag env; chart_values := @chart_values env;
     hostname_pod := @hostname_pod env; Error_text := @Error_text env |}.

Lemma example_bits_roundtrip h s :
  encode_Helm (AgentEnv := example_bits_env) h = Ok s → decode_Helm (MessageCodec := example_bits_codec) s = Some h.
Proof. intros [= <-]. simpl. unfold example_helm_text. by rewrite bits_of_text, decode_encode. Qed.

Lemma example_bits_encodes : Encodes (agent_env := example_bits_env).
Proof. split; intros; by eexists. Qed.

Definition example_key : N * string := (7%N, "app").
Definition example_row : DeployRow :=
  match deploy_current (w_rec example_recorded_world) !! example_key with
  | Some r => r
  | None => {| dl_id := 0; dl_Diid := 0; dl_EnvironmentID := 0; dl_FeatureAssignmentID := 0;
               dl_FeatureName := ""; dl_FeatureVersion := ""; dl_Status := ""; dl_Hash := "";
               dl_Values := ""; dl_Created := 0 |}
  end.
Definition example_sent : DeployInstruction :=
  match published example_recorded_world with (_, m) :: _ => m | [] => example_instruction "" false end.

Lemma example_tracked : tracked example_recorded_world example_key example_row.
Proof.
  split.
  - exact (proj1 (reachable_inv (ext := echo) (pg := example_pg) (codec := example_codec)
      (raw := example_raw) (enc := example_encoder) (tpl := example_parse) (msgs := example_failure_codec)
      (json := example_form) (web := example_web) (api := example_api)
      example_download (λ _, "") (λ _, true) false "" "#deploys" _ example_recorded)).
  - vm_compute. reflexivity.
  - vm_compute. reflexivity.
  - eexists _, _. vm_compute. split; [left|]. split; [reflexivity|]. split; [left|reflexivity].
Qed.

Lemma statuses_reach_server_witness :
  ∃ o a' new w' r', agent_handler (agent_env := example_bits_env) "nav" "dev" "p" "host" "ca" "token"
      false false true [] example_sent example_agent = (o, a') ∧
    helm_statuses a' = new ∧ length new = 2%nat ∧
    deliver (msgs := example_bits_codec) "#deploys" new example_recorded_world = (Ok tt, w') ∧
    deploy_current (w_rec w') !! example_key = Some r' ∧ dl_Hash r' = dl_Hash example_row.
Proof.
  destruct (agent_handler (agent_env := example_bits_env) "nav" "dev" "p" "host" "ca" "token"
    false false true [] example_sent example_agent) as [o a'] eqn:E.
  destruct (statuses_reach_server (ext := echo) (pg := example_pg) (codec := example_codec)
    (msgs := example_bits_codec) (agent_env := example_bits_env) "nav" "dev" "p" "host" "ca" "token"
    false false true "#deploys" "" example_bits_roundtrip [] example_sent example_agent o a'
    example_recorded_world example_key example_row)
    as (new & w' & r' & H1 & H2 & H3 & _ & H4 & _);
    [reflexivity|apply Z.le_refl|exact E|exact example_tracked|vm_compute; reflexivity|].
  exists o, a', new, w', r'. split; [reflexivity|]. split; [exact H1|].
  split; [|split; [exact H2|split; [exact (tk_current _ _ _ H3)|exact H4]]].
  assert (Hlen : length (helm_statuses a') = 2%nat)
    by (apply (f_equal snd) in E; cbn [snd] in E; rewrite <-E; vm_compute; reflexivity).
  rewrite H1 in Hlen. exact Hlen.
Defined.

Lemma healthy_deploy_completes_witness :
  ∃ a' new w' r', agent_handler (agent_env := example_bits_env) "nav" "dev" "p" "host" "ca" "token"
      false false true [] example_sent example_agent = (Ok tt, a') ∧
    deliver (msgs := example_bits_codec) "#deploys" new example_recorded_world = (Ok tt, w') ∧
    deploy_current (w_rec w') !! example_key = Some r' ∧ dl_Status r' = DeployStatusDeployed.
Proof.
  destruct (healthy_deploy_completes (ext := echo) (pg := example_pg) (codec := example_codec)
    (msgs := example_bits_codec) (agent_env := example_bits_env) "nav" "dev" "p" "host" "ca" "token"
    false false true "#deploys" "" example_bits_roundtrip [] example_sent example_agent
    example_recorded_world example_key example_row)
    as (a' & new & w' & r' & H1 & _ & _ & H2 & H3 & _ & _ & H4 & _);
    [exact example_bits_encodes|eexists; reflexivity|reflexivity|vm_compute; discriminate|reflexivity
    |exact example_tracked|vm_compute; reflexivity|].
  exists a', new, w', r'. split; [exact H1|]. split; [exact H2|]. split; [exact (tk_current _ _ _ H3)|exact H4].
Defined.

Definition example_helm (status : DeployStatus) : Helm := helm_status example_sent status "".
Definition example_bits_status (status : DeployStatus) : Status :=
  status_of (agent_env := example_bits_env) "nav" "dev" (example_helm status).

Lemma example_carries status :
  carries (msgs := example_bits_codec) example_sent (example_bits_status status) (example_helm status).
Proof. split; [done|]. split; [by apply example_bits_roundtrip|done]. Qed.

Lemma reordered_statuses_fail_witness :
  ∃ w1 w2 r2, deliver (msgs := example_bits_codec) "#deploys"
      [example_bits_status DeployStatusDeployed; example_bits_status DeployStatusInstalling]
      example_recorded_world = (Ok tt, w1) ∧
    TimeoutPendingDeploys (set_w_now (λ t, (t + (Hour + 1))%Z) w1) = (Ok tt, w2) ∧
    deploy_current (w_rec w2) !! example_key = Some r2 ∧ dl_Status r2 = DeployStatusFailed.
Proof.
  destruct (reordered_statuses_fail (msgs := example_bits_codec) "#deploys" example_sent
    example_recorded_world example_key example_row (example_bits_status DeployStatusInstalling)
    (example_bits_status DeployStatusDeployed) (example_helm DeployStatusInstalling)
    (example_helm DeployStatusDeployed) (Hour + 1))
    as (w1 & r1 & w2 & r2 & H1 & _ & _ & H2 & H3 & H4 & _);
    [exact example_tracked|vm_compute; reflexivity|reflexivity|apply example_carries|reflexivity
    |apply example_carries|reflexivity|].
  exists w1, w2, r2. split; [exact H1|]. split; [exact H2|]. split; [exact H3|exact H4].
Defined.
