(* ===== verification/Fasitd.v ===== *)
(** * internal/fasitd: the shadow lane

    registry.go, deployer.go, server.go, auth.go and daemon/agent.go: every deploy decision
    is also sent as a command over a session that the environment's fasitd agent keeps
    open, and what the agent reports is stored.  The tables are those of
    database/migrations/0095_fasitd.sql.  This file has the operations one by one;
    [FasitdSystem] runs them concurrently.  JSON, the text of an identifier and token
    verification are parameters. *)

From S2P Require Export Receiver Deployer GoStd.

(** ** The protocol (schema/protobuf/fasitd.proto) *)

Record Command := {
  cmd_Diid : string; cmd_Name : string; cmd_Version : string; cmd_Chart : string;
  cmd_ConfigHash : string; cmd_TimeoutMs : Z; cmd_Values : string; cmd_Uninstall : bool;
}.
Record FasitdLogLine := { fll_TimeUnixNano : Z; fll_Msg : string; fll_Kind : string }.
Record FasitdRelease := {
  frl_Name : string; frl_Version : string; frl_Status : string; frl_Revision : Z;
  frl_LastDeployedUnix : Z;
}.
Record Register := {
  reg_Tenant : string; reg_Environment : string; reg_FasitdVersion : string;
  reg_ProtocolVersion : Z;
}.

Inductive AgentMessage :=
  | AgentMessage_Register (reg : Register)
  | AgentMessage_Ack (diid : string)
  | AgentMessage_Status (diid status configHash err : string)
  | AgentMessage_Logs (diid : string) (lines : list FasitdLogLine)
  | AgentMessage_Releases (createdUnix : Z) (releases : list FasitdRelease)
  | AgentMessage_Heartbeat
  | AgentMessage_Unset.

(** ** The tables *)

Record CommandRow := {
  fc_Diid : uuid; fc_EnvironmentID : uuid; fc_FeatureAssignmentID : uuid;
  fc_FeatureName : string; fc_FeatureVersion : string; fc_Chart : string;
  fc_ConfigHash : string; fc_Uninstall : bool; fc_Values : string; fc_Created : time;
}.
Record CommandStatusRow := {
  fs_id : N; fs_Diid : uuid; fs_Status : string; fs_Message : string; fs_Created : time;
}.
Record FasitdLogRow := { fl_Diid : uuid; fl_Time : time; fl_Message : string; fl_Kind : string }.

(** The view shows the latest row of each command. *)
#[export] Instance CommandStatusRow_Logged : Logged CommandStatusRow :=
  {| log_key r := (fs_Diid r, ""); log_created := fs_Created; log_id := fs_id |}.

(** ** Sessions (registry.go) *)

Abbreviation sessionKey := (string * string)%type (only parsing).   (* tenant, environment *)
Definition keyFor (tenant environment : string) : sessionKey := (tenant, environment).

Record session := {
  ss_key : sessionKey;
  ss_environmentID : uuid;
  ss_fasitdVersion : string;
  ss_send : list Command;          (* the channel's buffer, oldest first *)
  ss_done : bool;                  (* the channel [done] is closed *)
}.
Definition set_ss_send (f : list Command → list Command) (s : session) : session :=
  {| ss_key := ss_key s; ss_environmentID := ss_environmentID s; ss_fasitdVersion := ss_fasitdVersion s;
     ss_send := f (ss_send s); ss_done := ss_done s |}.
Definition set_ss_done (b : bool) (s : session) : session :=
  {| ss_key := ss_key s; ss_environmentID := ss_environmentID s; ss_fasitdVersion := ss_fasitdVersion s;
     ss_send := ss_send s; ss_done := b |}.

(** The server's memory and the lane's tables; sessions are referred to by their address. *)
Record lane := {
  ln_world : world;
  ln_commands : list CommandRow;
  ln_statuses : list CommandStatusRow;
  ln_next_status : N;
  ln_helm_logs : list FasitdLogRow;
  ln_releases : gmap (N * string) ReleaseStatusRow;
  ln_registry : gmap sessionKey N;
  ln_sessions : gmap N session;
  ln_next_session : N;
}.
Definition set_ln_world (f : world → world) (l : lane) : lane :=
  {| ln_world := f (ln_world l); ln_commands := ln_commands l; ln_statuses := ln_statuses l;
     ln_next_status := ln_next_status l; ln_helm_logs := ln_helm_logs l; ln_releases := ln_releases l;
     ln_registry := ln_registry l; ln_sessions := ln_sessions l; ln_next_session := ln_next_session l |}.
Definition set_ln_commands (f : list CommandRow → list CommandRow) (l : lane) : lane :=
  {| ln_world := ln_world l; ln_commands := f (ln_commands l); ln_statuses := ln_statuses l;
     ln_next_status := ln_next_status l; ln_helm_logs := ln_helm_logs l; ln_releases := ln_releases l;
     ln_registry := ln_registry l; ln_sessions := ln_sessions l; ln_next_session := ln_next_session l |}.
Definition add_status (diid : uuid) (status msg : string) (l : lane) : lane :=
  {| ln_world := ln_world l; ln_commands := ln_commands l;
     ln_statuses := ln_statuses l ++ [{| fs_id := ln_next_status l; fs_Diid := diid;
       fs_Status := status; fs_Message := msg; fs_Created := w_now (ln_world l) |}];
     ln_next_status := N.succ (ln_next_status l); ln_helm_logs := ln_helm_logs l;
     ln_releases := ln_releases l; ln_registry := ln_registry l; ln_sessions := ln_sessions l;
     ln_next_session := ln_next_session l |}.
Definition set_ln_helm_logs (f : list FasitdLogRow → list FasitdLogRow) (l : lane) : lane :=
  {| ln_world := ln_world l; ln_commands := ln_commands l; ln_statuses := ln_statuses l;
     ln_next_status := ln_next_status l; ln_helm_logs := f (ln_helm_logs l); ln_releases := ln_releases l;
     ln_registry := ln_registry l; ln_sessions := ln_sessions l; ln_next_session := ln_next_session l |}.
Definition set_ln_releases (f : gmap (N * string) ReleaseStatusRow → gmap (N * string) ReleaseStatusRow)
    (l : lane) : lane :=
  {| ln_world := ln_world l; ln_commands := ln_commands l; ln_statuses := ln_statuses l;
     ln_next_status := ln_next_status l; ln_helm_logs := ln_helm_logs l; ln_releases := f (ln_releases l);
     ln_registry := ln_registry l; ln_sessions := ln_sessions l; ln_next_session := ln_next_session l |}.
Definition set_ln_registry (f : gmap sessionKey N → gmap sessionKey N) (l : lane) : lane :=
  {| ln_world := ln_world l; ln_commands := ln_commands l; ln_statuses := ln_statuses l;
     ln_next_status := ln_next_status l; ln_helm_logs := ln_helm_logs l; ln_releases := ln_releases l;
     ln_registry := f (ln_registry l); ln_sessions := ln_sessions l; ln_next_session := ln_next_session l |}.
Definition set_ln_sessions (f : gmap N session → gmap N session) (l : lane) : lane :=
  {| ln_world := ln_world l; ln_commands := ln_commands l; ln_statuses := ln_statuses l;
     ln_next_status := ln_next_status l; ln_helm_logs := ln_helm_logs l; ln_releases := ln_releases l;
     ln_registry := ln_registry l; ln_sessions := f (ln_sessions l); ln_next_session := ln_next_session l |}.
Definition set_ln_next_session (f : N → N) (l : lane) : lane :=
  {| ln_world := ln_world l; ln_commands := ln_commands l; ln_statuses := ln_statuses l;
     ln_next_status := ln_next_status l; ln_helm_logs := ln_helm_logs l; ln_releases := ln_releases l;
     ln_registry := ln_registry l; ln_sessions := ln_sessions l; ln_next_session := f (ln_next_session l) |}.

(** What the server does elsewhere: its clock, identifiers, and the tables of the others. *)
Definition on_world {A} (m : IO A) : M lane A := λ l,
  match m (ln_world l) with (o, w) => (o, set_ln_world (λ _, w) l) end.

(** A statement on the lane's tables: it may fail, or be refused by a constraint. *)
Definition statement (ok : lane → bool) (f : lane → lane) : M lane unit :=
  on_world (external (mret tt)) ;;
  good ← gets ok;
  if (good : bool) then modify f else fail (ErrString "violates constraint").

Definition has_command (diid : uuid) (l : lane) : bool :=
  bool_decide (Exists (λ c, fc_Diid c = diid) (ln_commands l)).

(** ** The registry *)

Definition registry_add (key : sessionKey) (sid : N) : M lane bool := λ l,
  match ln_registry l !! key with
  | Some _ => (Ok false, l)
  | None => (Ok true, set_ln_registry (insert key sid) l)
  end.
Definition registry_remove (key : sessionKey) (sid : N) : M lane unit :=
  modify (λ l, if bool_decide (ln_registry l !! key = Some sid) then set_ln_registry (delete key) l else l).
Definition registry_get (key : sessionKey) : M lane (option N) := gets (λ l, ln_registry l !! key).
Definition registry_count : M lane nat := gets (λ l, size (ln_registry l)).

(** ** The queries (fasitdsql) *)

Definition AppendCommandStatus (diid : uuid) (status msg : string) : M lane unit :=
  statement (has_command diid) (add_status diid status msg).
Definition CreateCommand (row : CommandRow) : M lane unit :=
  statement (λ l, negb (has_command (fc_Diid row) l) &&
               bool_decide (Exists (λ e, er_ID e = fc_EnvironmentID row) (environments (w_env (ln_world l)))) &&
               bool_decide (Exists (λ a, ar_ID a = fc_FeatureAssignmentID row)
                              (feature_assignments (w_feature (ln_world l)))))
            (set_ln_commands (λ cs, cs ++ [row])).
(** A batch is one implicit transaction. *)
Definition AppendHelmLogs (rows : list FasitdLogRow) : M lane unit :=
  statement (λ l, forallb (λ r, has_command (fl_Diid r) l) rows) (set_ln_helm_logs (λ ls, ls ++ rows)).
Definition Fasitd_DeleteReleaseStatusesInEnvironment (env : uuid) : M lane unit :=
  statement (λ _, true) (set_ln_releases (filter (λ kv, kv.1.1 ≠ env))).
Definition Fasitd_SetReleaseStatus (env : uuid) (feature : string) (r : ReleaseStatusRow) : M lane unit :=
  statement (λ _, true) (set_ln_releases (insert (env, feature) r)).

(** The view [fasitd_command_status], of one command. *)
Definition command_status (l : lane) (diid : uuid) : option string :=
  fs_Status <$> distinct_on (ln_statuses l) (diid, "").

(** What is read of a validated IAP assertion. *)
Record Payload := { pl_Issuer : string; pl_IssuedAt : Z }.


Section fasitd.
Context `{ext : External} `{pg : Postgres}.
Context (uuid_String : uuid → string) (uuid_Parse : string → outcome uuid).

(** ** The server (server.go) *)

Definition sendBuffer : nat := 64.

Definition resolveEnvironment (tenant environment : string) : M lane uuid :=
  on_world (
    t ← wrapping "get tenant" (GetTenantByName tenant);
    env ← wrapping "get environment" (GetByName (t_ID t) environment);
    mret (er_ID env)).

(** The first part of Connect: the session it opens, or why the stream ends. *)
Definition open_session (first : AgentMessage) : M lane N :=
  match first with
  | AgentMessage_Register reg =>
      if bool_decide (reg_Tenant reg = "") || bool_decide (reg_Environment reg = "")
      then fail (grpc_error "InvalidArgument" "register requires tenant and environment")
      else
        r ← attempt (resolveEnvironment (reg_Tenant reg) (reg_Environment reg));
        match r with
        | inr _ => fail (grpc_error "NotFound" "unknown tenant/environment")
        | inl envID =>
            sid ← gets ln_next_session;
            let key := keyFor (reg_Tenant reg) (reg_Environment reg) in
            ok ← registry_add key sid;
            if (ok : bool) then
              modify (set_ln_sessions (insert sid {| ss_key := key; ss_environmentID := envID;
                ss_fasitdVersion := reg_FasitdVersion reg; ss_send := []; ss_done := false |})
                ∘ set_ln_next_session N.succ) ;;
              mret sid
            else fail (grpc_error "AlreadyExists" "a fasitd session is already active for this environment")
        end
  | _ => fail (grpc_error "InvalidArgument" "first message must be Register")
  end.

(** The deferred calls, last to first. *)
Definition close_done (sid : N) : M lane unit := modify (set_ln_sessions (alter (set_ss_done true) sid)).
Definition remove_session (sid : N) : M lane unit :=
  s ← gets (λ l, ln_sessions l !! sid);
  match s with
  | Some s => registry_remove (ss_key s) sid
  | None => mret tt
  end.

Definition server_appendStatus (diidStr statusStr msg : string) : M lane unit :=
  diid ← wrapping "parse diid" (lift (uuid_Parse diidStr));
  wrapping "append command status" (AppendCommandStatus diid statusStr msg).

Definition appendLogs (diidStr : string) (lines : list FasitdLogLine) : M lane unit :=
  diid ← wrapping "parse diid" (lift (uuid_Parse diidStr));
  if bool_decide (lines = []) then mret tt
  else AppendHelmLogs ((λ l, {| fl_Diid := diid; fl_Time := fll_TimeUnixNano l;
                                fl_Message := fll_Msg l; fl_Kind := fll_Kind l |}) <$> lines).

Definition fasitd_release_row (r : FasitdRelease) : ReleaseStatusRow :=
  {| rs_Version := frl_Version r; rs_Status := frl_Status r; rs_Revision := frl_Revision r;
     rs_LastDeployed := (frl_LastDeployedUnix r * Second)%Z |}.

Definition setReleases (envID : uuid) (releases : list FasitdRelease) : M lane unit :=
  wrapping "delete release statuses" (Fasitd_DeleteReleaseStatusesInEnvironment envID) ;;
  for_each (λ r, wrapping "set release status"
    (Fasitd_SetReleaseStatus envID (frl_Name r) (fasitd_release_row r))) releases.

Definition handleAgentMessage (environmentID : uuid) (msg : AgentMessage) : M lane unit :=
  match msg with
  | AgentMessage_Ack diid => server_appendStatus diid "installing" ""
  | AgentMessage_Status diid status _ err => server_appendStatus diid status err
  | AgentMessage_Logs diid lines => appendLogs diid lines
  | AgentMessage_Releases _ releases => setReleases environmentID releases
  | AgentMessage_Register _ => fail (grpc_error "InvalidArgument" "duplicate register message")
  | AgentMessage_Heartbeat | AgentMessage_Unset => mret tt
  end.

(** ** The deployer (deployer.go) *)

Definition command_row (diid : uuid) (vals : string) (now : time) (dec : DeployDecision) : CommandRow :=
  {| fc_Diid := diid; fc_EnvironmentID := dd_EnvironmentID dec;
     fc_FeatureAssignmentID := dd_FeatureAssignmentID dec; fc_FeatureName := f_Name (dd_Feature dec);
     fc_FeatureVersion := f_Version (dd_Feature dec); fc_Chart := f_Chart (dd_Feature dec);
     fc_ConfigHash := dd_Hash dec; fc_Uninstall := false; fc_Values := vals; fc_Created := now |}.

Definition command_for (diid : uuid) (vals : string) (dec : DeployDecision) : Command :=
  {| cmd_Diid := uuid_String diid; cmd_Name := f_Name (dd_Feature dec);
     cmd_Version := f_Version (dd_Feature dec); cmd_Chart := f_Chart (dd_Feature dec);
     cmd_ConfigHash := dd_Hash dec;
     cmd_TimeoutMs := Z.quot (Timeout (f_YAML (dd_Feature dec))) Millisecond;
     cmd_Values := vals; cmd_Uninstall := false |}.

(** The command's identifier and values, once it is recorded. *)
Definition create_command (dec : DeployDecision) : M lane (uuid * string) :=
  diid ← on_world uuid_New;
  vals ← wrapping "marshal values" (lift (marshal_values (dd_Values dec)));
  now ← gets (λ l, w_now (ln_world l));
  wrapping "create command" (CreateCommand (command_row diid vals now dec)) ;;
  mret (diid, vals).

Definition deployer_appendStatus (diid : uuid) (status msg : string) : M lane unit :=
  wrapping "append command status" (AppendCommandStatus diid status msg).

(** What a select between the session's channel, its end and the timer may choose. *)
Inductive choice := ChoseSend | ChoseDone | ChoseTimeout.
Definition ready (l : lane) (sid : N) (c : choice) : bool :=
  match ln_sessions l !! sid with
  | None => false
  | Some s =>
      match c with
      | ChoseSend => bool_decide (length (ss_send s) < sendBuffer)
      | ChoseDone => ss_done s
      | ChoseTimeout => true
      end
  end.
Definition verdict (c : choice) : string * string :=
  match c with
  | ChoseSend => ("sent", "")
  | ChoseDone => ("undeliverable", "fasitd session closed before delivery")
  | ChoseTimeout => ("undeliverable", "timeout writing to fasitd session")
  end.
Definition no_session : string * string :=
  ("undeliverable", "no active fasitd session for environment").

Definition chosen (c : choice) (sid : N) (cmd : Command) : M lane unit :=
  match c with
  | ChoseSend => modify (set_ln_sessions (alter (set_ss_send (λ q, q ++ [cmd])) sid))
  | _ => mret tt
  end.

(** One dispatch with nothing in between; [choose] is the scheduler's, and a choice that is
    not ready waits until the timer fires. *)
Definition dispatch (choose : choice) (dec : DeployDecision) : M lane unit :=
  dv ← create_command dec;
  sess ← registry_get (keyFor (dd_TenantName dec) (dd_EnvironmentName dec));
  match sess with
  | None => deployer_appendStatus dv.1 no_session.1 no_session.2
  | Some sid =>
      can ← gets (λ l, ready l sid choose);
      let c := if (can : bool) then choose else ChoseTimeout in
      chosen c sid (command_for dv.1 dv.2 dec) ;;
      deployer_appendStatus dv.1 (verdict c).1 (verdict c).2
  end.

Definition Fasitd_Deploy (choose : choice) (decisions : list DeployDecision) : M lane unit :=
  for_each (λ dec, attempt (dispatch choose dec) ;; mret tt)
    (filter (λ d, dd_Action d = ActionDeploy) decisions).

(** ** The agent (daemon/agent.go) *)

Definition protocolVersion : Z := 1.
Definition register_message (tenant environment version : string) : AgentMessage :=
  AgentMessage_Register {| reg_Tenant := tenant; reg_Environment := environment;
                           reg_FasitdVersion := version; reg_ProtocolVersion := protocolVersion |}.

Definition dry_run_text (cmd : Command) : string :=
  "dry-run: would " +:+ ((if cmd_Uninstall cmd then "uninstall" else "deploy") +:+ (" " +:+
    (cmd_Name cmd +:+ (" version " +:+ (cmd_Version cmd +:+ " (no helm executed)"))))).

Definition handleCommand {S} (send : AgentMessage → M S unit) (now : time) (cmd : Command) : M S unit :=
  send (AgentMessage_Ack (cmd_Diid cmd)) ;;
  send (AgentMessage_Logs (cmd_Diid cmd)
          [{| fll_TimeUnixNano := now; fll_Msg := dry_run_text cmd; fll_Kind := "" |}]) ;;
  send (AgentMessage_Status (cmd_Diid cmd) "deployed" (cmd_ConfigHash cmd) "").

(** A release that Helm lists; its version is the chart's. *)
Definition release_report (r : Release) : FasitdRelease :=
  {| frl_Name := rl_Name r; frl_Version := rl_Version r; frl_Status := rl_Status r;
     frl_Revision := to_int32 (rl_Revision r); frl_LastDeployedUnix := (rl_LastDeployed r / Second)%Z |}.
Definition releases_message (now : time) (releases : list Release) : AgentMessage :=
  AgentMessage_Releases (now / Second) (release_report <$> releases).

(** ** Authentication (auth.go) *)

Context (oidc_Verify : string → string → string → string → outcome unit)   (* issuer, discovery URL, audience, token *)
  (idtoken_Validate : string → string → outcome Payload).                    (* token, audience *)

Definition iapAssertionHeader : string := "x-goog-iap-jwt-assertion".

(** The metadata of a stream: for each header its values. *)
Abbreviation MD := (gmap string (list string)) (only parsing).
Definition md_Get (md : MD) (k : string) : list string := default [] (md !! k).

Definition validateIAP (audience : string) (md : MD) : M lane unit :=
  match md_Get md iapAssertionHeader with
  | [] => fail (grpc_error "Unauthenticated" "missing IAP assertion")
  | v :: _ =>
      if bool_decide (v = "") then fail (grpc_error "Unauthenticated" "missing IAP assertion")
      else
        match idtoken_Validate v audience with
        | Panic p => lift (Panic p)
        | Err _ => fail (grpc_error "Unauthenticated" "invalid IAP assertion")
        | Ok payload =>
            if bool_decide (pl_Issuer payload ≠ "https://cloud.google.com/iap")
            then fail (grpc_error "Unauthenticated" "invalid IAP assertion issuer")
            else
              now ← gets (λ l, w_now (ln_world l));
              if (now + 30 * Second <? pl_IssuedAt payload * Second)%Z
              then fail (grpc_error "Unauthenticated" "IAP assertion issued in the future")
              else mret tt
        end
  end.

Definition validateKSAToken (md : MD) (rawToken audience : string) : M lane unit :=
  match md_Get md "x-fasit-tenant", md_Get md "x-fasit-environment" with
  | tenantName :: _, envName :: _ =>
      t ← attempt (on_world (GetTenantByName tenantName));
      match t with
      | inr _ => fail (grpc_error "NotFound" "unknown tenant")
      | inl tenant =>
          e ← attempt (on_world (GetByName (t_ID tenant) envName));
          match e with
          | inr _ => fail (grpc_error "NotFound" "unknown environment")
          | inl env =>
              match er_OidcIssuer env with
              | None => fail (grpc_error "FailedPrecondition" "environment has no OIDC issuer configured")
              | Some issuer =>
                  if bool_decide (issuer = "")
                  then fail (grpc_error "FailedPrecondition" "environment has no OIDC issuer configured")
                  else
                    match oidc_Verify issuer (default "" (er_OidcDiscoveryUrl env)) audience rawToken with
                    | Ok _ => mret tt
                    | Err _ => fail (grpc_error "Unauthenticated" "invalid KSA token")
                    | Panic p => lift (Panic p)
                    end
              end
          end
      end
  | _, _ => fail (grpc_error "InvalidArgument" "missing tenant/environment headers for KSA auth")
  end.

(** The interceptor in front of a handler; a stream may have no metadata. *)
Definition StreamInterceptor (audience : string) (insecureSkipProxy : bool) (md : option MD)
    {A} (handler : M lane A) : M lane A :=
  if insecureSkipProxy then handler
  else if bool_decide (audience = "") then fail (grpc_error "Internal" "IAP audience is not configured")
  else match md with
  | None => fail (grpc_error "Unauthenticated" "missing metadata")
  | Some md =>
      match md_Get md "authorization" with
      | h :: _ =>
          if HasPrefix (ToLower h) "bearer "
          then validateKSAToken md (String.substring 7 (String.length h - 7) h) audience ;; handler
          else validateIAP audience md ;; handler
      | [] => validateIAP audience md ;; handler
      end
  end.

(** ** Running a statement *)

(** Nothing changed but the script of faults. *)
Definition same_lane (l l' : lane) : Prop :=
  ∃ w, same_world (ln_world l) w ∧ l' = set_ln_world (λ _, w) l.

Lemma same_lane_refl l : same_lane l l.
Proof. exists (ln_world l). split; [apply same_world_refl|by destruct l]. Qed.

Lemma same_lane_trans l1 l2 l3 : same_lane l1 l2 → same_lane l2 l3 → same_lane l1 l3.
Proof.
  intros (w1 & S1 & ->) (w2 & S2 & ->). exists w2. split; [|done]. by eapply same_world_trans.
Qed.

Lemma on_world_reads {A} (m : IO A) l o l' : reads m → on_world m l = (o, l') → same_lane l l'.
Proof.
  intros Hm H. unfold on_world in H. destruct (m (ln_world l)) as [o1 w] eqn:E. injection H as _ <-.
  exists w. split; [by eapply Hm|done].
Qed.

Lemma statement_run ok f l o l' :
  statement ok f l = (o, l') →
  ∃ l1, same_lane l l1 ∧ (o = Ok tt ∧ ok l1 = true ∧ l' = f l1 ∨ is_Ok o = false ∧ l' = l1).
Proof.
  unfold statement. unfold mbind at 1, M_bind at 1.
  destruct (on_world (external (mret tt)) l) as [o1 l1] eqn:E. intros H.
  apply on_world_reads in E; [|apply reads_external_ret]. exists l1. split; [done|].
  destruct o1 as [[]|e|p]; [|injection H as <- <-; by right..].
  unfold mbind, M_bind in H. cbn [gets] in H. destruct (ok l1) eqn:Eo; injection H as <- <-; auto.
Qed.

(** With nothing failing. *)
Lemma statement_now ok f l : w_faults (ln_world l) = [] → ok l = true → statement ok f l = (Ok tt, f l).
Proof.
  intros Hf Ho. unfold statement, on_world, external, next_fault, mbind, M_bind. rewrite Hf.
  assert (set_ln_world (λ _, ln_world l) l = l) as Hl by by destruct l.
  cbn [mret M_ret]. rewrite Hl. cbn [gets]. by rewrite Ho.
Qed.

(** ** Dispatching *)

(** The session that gets the command. *)
Definition sent_to (l : lane) (choose : choice) (dec : DeployDecision) : option N :=
  match ln_registry l !! keyFor (dd_TenantName dec) (dd_EnvironmentName dec), choose with
  | Some sid, ChoseSend => if ready l sid ChoseSend then Some sid else None
  | _, _ => None
  end.

Definition with_command (sent : option N) (cmd : Command) (m : gmap N session) : gmap N session :=
  match sent with
  | Some sid => alter (set_ss_send (λ q, q ++ [cmd])) sid m
  | None => m
  end.

Lemma create_command_run dec l o l' :
  create_command dec l = (o, l') →
  ln_statuses l' = ln_statuses l ∧ ln_registry l' = ln_registry l ∧ ln_sessions l' = ln_sessions l ∧
  match o with
  | Ok dv => ∃ now, ln_commands l' = ln_commands l ++ [command_row dv.1 dv.2 now dec]
  | _ => ln_commands l' = ln_commands l
  end.
Proof.
  unfold create_command. intros H. unfold mbind at 1, M_bind at 1, on_world, uuid_New in H.
  unfold mbind at 1, M_bind at 1, wrapping at 1, lift in H.
  destruct (marshal_values (dd_Values dec)) as [vals|e|p]; [|by injection H as <- <-..].
  cbn [wrap] in H. unfold mbind at 1, M_bind at 1 in H. cbn [gets] in H.
  unfold mbind, M_bind, wrapping in H.
  match type of H with context [CreateCommand ?row ?l0] => destruct (CreateCommand row l0) as [o1 l1] eqn:E end.
  apply statement_run in E as (l2 & (w & _ & ->) & [(-> & _ & ->)|[Ho ->]]).
  - injection H as <- <-. split_and!; [done..|]. by eexists.
  - by destruct o1 as [[]|e|p]; [|injection H as <- <-..].
Qed.

(** What dispatching a command does, on every outcome: either nothing is recorded or
    sent, and it fails; or the command is recorded, it is put into the buffer of the session
    registered for the decision's environment or of none, and its one status, [sent] exactly
    when it was put there and [undeliverable] otherwise, is recorded unless that fails.  Other
    sessions, the registry and older rows are untouched. *)
Theorem dispatch_spec choose dec l o l' :
  dispatch choose dec l = (o, l') →
  ln_registry l' = ln_registry l ∧
  (ln_commands l' = ln_commands l ∧ ln_statuses l' = ln_statuses l ∧
   ln_sessions l' = ln_sessions l ∧ is_Ok o = false ∨
   ∃ diid vals now,
     let sent := sent_to l choose dec in
     ln_commands l' = ln_commands l ++ [command_row diid vals now dec] ∧
     ln_sessions l' = with_command sent (command_for diid vals dec) (ln_sessions l) ∧
     (is_Ok o = true ∧ (∃ st, ln_statuses l' = ln_statuses l ++ [st] ∧ fs_Diid st = diid ∧
        fs_Status st = match sent with Some _ => "sent" | None => "undeliverable" end) ∨
      is_Ok o = false ∧ ln_statuses l' = ln_statuses l)).
Proof.
  unfold dispatch. intros H. unfold mbind at 1, M_bind at 1 in H.
  destruct (create_command dec l) as [o1 l1] eqn:E.
  apply create_command_run in E as (Hst & Hreg & Hses & Hcmd).
  destruct o1 as [[diid vals]|e|p]; [|injection H as <- <-; split; [done|left; by split_and!]..].
  destruct Hcmd as [now Hcmd]. cbn [fst snd] in *.
  assert (Hfin : ∀ verdict l2 (o : outcome unit) l',
    ln_commands l2 = ln_commands l1 → ln_statuses l2 = ln_statuses l1 → ln_registry l2 = ln_registry l1 →
    deployer_appendStatus diid verdict.1 verdict.2 l2 = (o, l') →
    ln_registry l' = ln_registry l ∧ ln_commands l' = ln_commands l ++ [command_row diid vals now dec] ∧
    ln_sessions l' = ln_sessions l2 ∧
    (is_Ok o = true ∧ (∃ st, ln_statuses l' = ln_statuses l ++ [st] ∧ fs_Diid st = diid ∧
        fs_Status st = verdict.1) ∨ is_Ok o = false ∧ ln_statuses l' = ln_statuses l)).
  { intros v l2 o0 l0 H1 H2 H3 Ha. unfold deployer_appendStatus, wrapping in Ha.
    destruct (AppendCommandStatus diid v.1 v.2 l2) as [o2 l3] eqn:E.
    apply statement_run in E as (l4 & (w & _ & ->) & [(-> & _ & ->)|[Ho ->]]).
    - injection Ha as <- <-. simpl. rewrite H1, H2, H3. split_and!; [done..|left].
      split; [done|]. eexists. split; [by rewrite Hst|done].
    - injection Ha as <- <-. simpl. rewrite H1, H2, H3. split_and!; [done..|right].
      split; [by destruct o2|done]. }
  unfold mbind at 1, M_bind at 1 in H. unfold registry_get in H. cbn [gets] in H. rewrite Hreg in H.
  unfold sent_to. destruct (ln_registry l !! _) as [sid|].
  2: { apply (Hfin no_session) in H as (? & ? & Hs & ?); [|done..]. split; [done|right].
       exists diid, vals, now. split_and!; [done|by rewrite Hs|done]. }
  unfold mbind at 1, M_bind at 1 in H. cbn [gets] in H.
  assert (Hready : ready l1 sid choose = ready l sid choose) by (unfold ready; by rewrite Hses).
  rewrite Hready in H. unfold mbind, M_bind in H.
  destruct (ready l sid choose) eqn:Er, choose; cbn [chosen modify mret M_ret] in H;
    apply (Hfin (verdict _)) in H as (? & ? & Hs & ?); try done;
    (split; [done|right]; exists diid, vals, now; split_and!; [done|simpl; rewrite ?Er; simpl; by rewrite Hs, <-?Hses|]);
    by rewrite ?Er.
Qed.

(** ** The statuses of a command *)

Record statuses_wf (l : lane) : Prop := {
  sw_ids : NoDup (fs_id <$> ln_statuses l);
  sw_bound : ∀ r, r ∈ ln_statuses l → (fs_id r < ln_next_status l)%N ∧ (fs_Created r <= w_now (ln_world l))%Z;
}.

Lemma add_status_wf diid status msg l : statuses_wf l → statuses_wf (add_status diid status msg l).
Proof.
  intros [Hn Hb]. split; simpl.
  - rewrite fmap_app. apply NoDup_app. split_and!; [done| |apply NoDup_singleton].
    intros i (r & -> & Hr)%list_elem_of_fmap Hi%list_elem_of_singleton. apply Hb in Hr. simpl in Hi. lia.
  - intros r [Hr|Hr]%elem_of_app.
    + apply Hb in Hr. lia.
    + apply list_elem_of_singleton in Hr as ->. simpl. lia.
Qed.

(** A status just reported is the command's status. *)
Lemma add_status_current diid status msg l :
  statuses_wf l → command_status (add_status diid status msg l) diid = Some status.
Proof.
  intros Hwf. pose proof (add_status_wf diid status msg l Hwf) as [Hn _].
  set (r := {| fs_id := ln_next_status l; fs_Diid := diid; fs_Status := status; fs_Message := msg;
               fs_Created := w_now (ln_world l) |}).
  change (ln_statuses (add_status diid status msg l)) with (ln_statuses l ++ [r]) in Hn.
  unfold command_status. change (ln_statuses (add_status diid status msg l)) with (ln_statuses l ++ [r]).
  assert (Hr : is_latest (ln_statuses l ++ [r]) (diid, "") r).
  { split_and!; [apply elem_of_app; right; left|done|].
    intros r' [Hr'|Hr'%list_elem_of_singleton]%elem_of_app _; [|subst; apply newer_irrefl].
    apply (sw_bound _ Hwf) in Hr'. unfold newer. simpl.
    apply orb_false_iff. rewrite andb_false_iff, Z.ltb_ge, N.ltb_ge. lia. }
  pose proof (distinct_on_latest (ln_statuses l ++ [r]) (diid, "")) as Hd.
  destruct (distinct_on _ _) as [c|].
  - assert (Hn' : NoDup (log_id <$> (ln_statuses l ++ [r]))) by exact Hn.
    by rewrite (is_latest_unique _ _ _ _ Hn' Hd Hr).
  - destruct Hr as (Hin & Hk & _). by apply Hd in Hin.
Qed.

Lemma server_appendStatus_now diid text status msg l :
  uuid_Parse text = Ok diid → w_faults (ln_world l) = [] → has_command diid l = true →
  server_appendStatus text status msg l = (Ok tt, add_status diid status msg l).
Proof.
  intros Hp Hf Hc. unfold server_appendStatus, wrapping, lift, mbind, M_bind. rewrite Hp. cbn [wrap].
  unfold AppendCommandStatus. by rewrite statement_now.
Qed.

(** The dry run, from the agent's handling of a command to the server's tables: when no
    call fails, the three messages the agent sends are stored as the statuses [installing]
    and [deployed] and one log line of that command, after which the command's status is
    [deployed]; whatever environment the session is of. *)
Theorem handleCommand_dry_run (parse_String : ∀ d, uuid_Parse (uuid_String d) = Ok d)
    environmentID now diid vals dec l :
  w_faults (ln_world l) = [] → has_command diid l = true → statuses_wf l →
  ∃ l', handleCommand (handleAgentMessage environmentID) now (command_for diid vals dec) l = (Ok tt, l') ∧
    (fs_Status <$> filter (λ r, fs_Diid r = diid) (ln_statuses l')) =
      (fs_Status <$> filter (λ r, fs_Diid r = diid) (ln_statuses l)) ++ ["installing"; "deployed"] ∧
    (∃ line, ln_helm_logs l' = ln_helm_logs l ++ [line] ∧ fl_Diid line = diid ∧ fl_Time line = now) ∧
    command_status l' diid = Some "deployed" ∧ statuses_wf l'.
Proof.
  intros Hf Hc Hwf. unfold handleCommand, handleAgentMessage. cbn [cmd_Diid command_for].
  set (l1 := add_status diid "installing" "" l).
  unfold mbind, M_bind. rewrite (server_appendStatus_now diid) by auto. fold l1.
  unfold appendLogs, wrapping, lift, mbind, M_bind. rewrite parse_String. cbn [wrap].
  rewrite bool_decide_false by done. unfold AppendHelmLogs.
  assert (has_command diid l1 = true) as Hc1 by done.
  rewrite statement_now; [|done|cbn [fmap list_fmap forallb fl_Diid]; by rewrite Hc1].
  match goal with |- context [set_ln_helm_logs ?f l1] => set (l2 := set_ln_helm_logs f l1) end.
  rewrite (server_appendStatus_now diid) by auto.
  assert (Hwf2 : statuses_wf l2) by (destruct (add_status_wf diid "installing" "" l Hwf); by split).
  eexists. split; [reflexivity|]. split_and!.
  - unfold l2, l1. cbn [ln_statuses add_status set_ln_helm_logs]. rewrite !filter_app, !filter_cons, !filter_nil.
    rewrite !decide_True by done. by rewrite !fmap_app, <-app_assoc.
  - eexists. split; [reflexivity|]. by split.
  - by apply add_status_current.
  - by apply add_status_wf.
Qed.

(** ** Who is let in *)

(** The environment a stream's headers name, with its issuer. *)
Definition headers_name (md : gmap string (list string)) (l : lane) (env : EnvironmentRow) (issuer : string) : Prop :=
  ∃ tenant tn en rest rest', md_Get md "x-fasit-tenant" = tn :: rest ∧
    md_Get md "x-fasit-environment" = en :: rest' ∧
    tenant ∈ tenants (w_env (ln_world l)) ∧ t_Name tenant = tn ∧
    env ∈ environments (w_env (ln_world l)) ∧ er_TenantID env = t_ID tenant ∧ er_Name env = en ∧
    er_OidcIssuer env = Some issuer ∧ issuer ≠ "".

Lemma validateKSAToken_Ok md token audience l l' :
  validateKSAToken md token audience l = (Ok tt, l') →
  same_lane l l' ∧ ∃ env issuer, headers_name md l env issuer ∧
    oidc_Verify issuer (default "" (er_OidcDiscoveryUrl env)) audience token = Ok tt.
Proof.
  unfold validateKSAToken, headers_name. intros H.
  destruct (md_Get md "x-fasit-tenant") as [|tn rest]; [done|].
  destruct (md_Get md "x-fasit-environment") as [|en rest']; [done|].
  apply bind_Ok in H as (t & l1 & Ht & H). apply attempt_Ok in Ht.
  destruct t as [t|e]; [|done].
  apply bind_Ok in H as (env & l2 & He & H). apply attempt_Ok in He. destruct env as [env|e]; [|done].
  destruct (er_OidcIssuer env) as [issuer|] eqn:Ei; [|done].
  case_bool_decide as Hi; [done|].
  destruct (oidc_Verify issuer _ audience token) as [[]|e|p] eqn:Ev; [|done..]. injection H as <-.
  pose proof (on_world_reads _ _ _ _ (reads_query _) Ht) as S1.
  pose proof (on_world_reads _ _ _ _ (reads_query _) He) as S2.
  split; [by eapply same_lane_trans|]. exists env, issuer. split; [|done].
  destruct S1 as (w1 & S1 & ->). unfold on_world in Ht, He.
  destruct (GetTenantByName tn (ln_world l)) as [ot wt] eqn:Et. injection Ht as -> Hw1.
  subst wt.
  destruct (GetByName (t_ID t) en (ln_world (set_ln_world (λ _, w1) l))) as [oe we] eqn:Ee.
  injection He as -> _.
  pose proof (query_value _ _ _ _ Et (λ _, eq_refl)) as Vt. cbv beta in Vt.
  pose proof (query_value _ _ _ _ Ee (λ _, eq_refl)) as Ve. cbv beta in Ve.
  apply single_Ok, list_elem_of_filter in Vt as [Hn Ht].
  apply single_Ok, list_elem_of_filter in Ve as [[Hid Hen] He].
  cbn [ln_world set_ln_world] in He. rewrite (same_world_env _ _ S1) in He.
  exists t, tn, en, rest, rest'. by split_and!.
Qed.

(** Nobody gets past the interceptor unauthenticated: unless the proxy check is switched
    off, a stream reaches its handler only with metadata and a configured audience, and then
    either with a bearer token that verifies, for this audience, against the issuer of the
    environment its headers name, or with an IAP assertion for this audience that Google
    issued, and not in the future. *)
Theorem StreamInterceptor_sound {A} audience skip md (handler : M lane A) l x l' :
  StreamInterceptor audience skip md handler l = (Ok x, l') →
  skip = true ∨
  ∃ m l1, md = Some m ∧ audience ≠ "" ∧ same_lane l l1 ∧ handler l1 = (Ok x, l') ∧
    ((∃ h rest env issuer, md_Get m "authorization" = h :: rest ∧
        HasPrefix (ToLower h) "bearer " = true ∧ headers_name m l env issuer ∧
        oidc_Verify issuer (default "" (er_OidcDiscoveryUrl env)) audience
          (String.substring 7 (String.length h - 7) h) = Ok tt) ∨
     (∃ v rest payload, md_Get m iapAssertionHeader = v :: rest ∧
        idtoken_Validate v audience = Ok payload ∧ pl_Issuer payload = "https://cloud.google.com/iap" ∧
        (pl_IssuedAt payload * Second <= w_now (ln_world l) + 30 * Second)%Z)).
Proof.
  unfold StreamInterceptor. destruct skip; [by left|]. case_bool_decide as Ha; [done|].
  destruct md as [m|]; [|done]. intros H. right.
  assert (Hiap : (validateIAP audience m ;; handler) l = (Ok x, l') →
    handler l = (Ok x, l') ∧ ∃ v rest payload, md_Get m iapAssertionHeader = v :: rest ∧
      idtoken_Validate v audience = Ok payload ∧ pl_Issuer payload = "https://cloud.google.com/iap" ∧
      (pl_IssuedAt payload * Second <= w_now (ln_world l) + 30 * Second)%Z).
  { clear H. intros ([] & l1 & Hv & H)%bind_Ok. unfold validateIAP in Hv.
    destruct (md_Get m iapAssertionHeader) as [|v rest]; [done|]. case_bool_decide; [done|].
    destruct (idtoken_Validate v audience) as [payload|e|p] eqn:Ev; [|done..]. case_bool_decide as Hi; [done|].
    unfold mbind, M_bind in Hv. cbn [gets] in Hv.
    destruct (_ <? _)%Z eqn:Et in Hv; [done|]. injection Hv as <-. apply Z.ltb_ge in Et.
    split; [done|]. exists v, rest, payload. by split_and!. }
  destruct (md_Get m "authorization") as [|h rest] eqn:Eh.
  { apply Hiap in H as [H Hi]. exists m, l. split_and!; [done..|apply same_lane_refl|done|by right]. }
  destruct (HasPrefix (ToLower h) "bearer ") eqn:Eb.
  2: { apply Hiap in H as [H Hi]. exists m, l. split_and!; [done..|apply same_lane_refl|done|by right]. }
  apply bind_Ok in H as ([] & l1 & Hv & H). apply validateKSAToken_Ok in Hv as (S & env & issuer & Hn & Ho).
  exists m, l1. split_and!; [done..|]. left. by exists h, rest, env, issuer.
Qed.

(** A session for any known environment without one can be opened. *)
Lemma open_session_now reg l envID :
  resolveEnvironment (reg_Tenant reg) (reg_Environment reg) l = (Ok envID, l) →
  reg_Tenant reg ≠ "" → reg_Environment reg ≠ "" →
  ln_registry l !! keyFor (reg_Tenant reg) (reg_Environment reg) = None →
  ∃ l', open_session (AgentMessage_Register reg) l = (Ok (ln_next_session l), l') ∧
    ln_registry l' = <[keyFor (reg_Tenant reg) (reg_Environment reg) := ln_next_session l]> (ln_registry l) ∧
    ss_environmentID <$> ln_sessions l' !! ln_next_session l = Some envID.
Proof.
  intros Hr Ht He Hreg. unfold open_session. rewrite !bool_decide_false by done. cbn [orb].
  unfold attempt, mbind, M_bind. rewrite Hr. cbn [gets]. unfold registry_add. rewrite Hreg.
  cbn [modify mret M_ret]. eexists. split; [reflexivity|]. split; [done|].
  cbn [ln_sessions set_ln_sessions set_ln_next_session set_ln_registry]. simpl.
  by rewrite lookup_insert_eq.
Qed.

(** A session is opened for the environment its first message names, not for the one it
    was authenticated for: whatever environment the token's headers name, once a stream is
    let in its first message opens the session of any other known environment that has none,
    and receives the commands for it. *)
Theorem session_identity_unchecked audience md reg l l1 envID :
  StreamInterceptor audience false md (mret tt) l = (Ok tt, l1) →
  resolveEnvironment (reg_Tenant reg) (reg_Environment reg) l1 = (Ok envID, l1) →
  reg_Tenant reg ≠ "" → reg_Environment reg ≠ "" →
  ln_registry l1 !! keyFor (reg_Tenant reg) (reg_Environment reg) = None →
  ∃ l', StreamInterceptor audience false md (open_session (AgentMessage_Register reg)) l =
      (Ok (ln_next_session l1), l') ∧
    ln_registry l' !! keyFor (reg_Tenant reg) (reg_Environment reg) = Some (ln_next_session l1) ∧
    ss_environmentID <$> ln_sessions l' !! ln_next_session l1 = Some envID.
Proof.
  intros Hi Hr Ht He Hreg. destruct (open_session_now reg l1 envID Hr Ht He Hreg) as (l' & Ho & Hl & Hs).
  exists l'. split; [|split; [rewrite Hl; apply lookup_insert_eq|done]].
  unfold StreamInterceptor in Hi |- *. case_bool_decide; [done|]. destruct md as [m|]; [|done].
  assert (Hthen : ∀ v : M lane unit, (v ;; mret tt) l = (Ok tt, l1) →
    (v ;; open_session (AgentMessage_Register reg)) l = (Ok (ln_next_session l1), l')).
  { intros v ([] & l2 & Hv & Hret)%bind_Ok. injection Hret as ->. unfold mbind, M_bind. by rewrite Hv. }
  destruct (md_Get m "authorization") as [|h rest]; [by apply Hthen|].
  destruct (HasPrefix (ToLower h) "bearer "); by apply Hthen.
Qed.
End fasitd.

(** ** Instances *)

(** Environments dev and prod of tenant nav; dev has an issuer. *)
Definition example_envs : list EnvironmentRow :=
  let env id name issuer :=
    {| er_ID := id; er_TenantID := 3; er_Name := name; er_Kind := EnvironmentKindTenant;
       er_Description := None; er_Reconcile := true; er_Labels := {[ "kind" := "tenant" ]};
       er_OidcIssuer := issuer; er_OidcDiscoveryUrl := None |} in
  [env 7%N "dev" (Some "https://dev"); env 8%N "prod" None].
Definition example_lane_world : world := set_w_env (set_environments (λ _, example_envs)) example_world.
Definition empty_lane (w : world) : lane :=
  {| ln_world := w; ln_commands := []; ln_statuses := []; ln_next_status := 1; ln_helm_logs := [];
     ln_releases := ∅; ln_registry := ∅; ln_sessions := ∅; ln_next_session := 1 |}.
Definition example_lane : lane := empty_lane example_lane_world.

Fixpoint example_parse_diid (s : string) : outcome uuid :=
  match s with
  | "" => Ok 0%N
  | String _ s => let! n := example_parse_diid s in Ok (N.succ n)
  end.
Definition example_diid_text (d : uuid) : string :=
  N.iter d (λ s, String "i" s) "".
Lemma example_parse_text d : example_parse_diid (example_diid_text d) = Ok d.
Proof.
  unfold example_diid_text. induction d as [|d IH] using N.peano_ind; [done|].
  rewrite N.iter_succ. cbn [example_parse_diid]. by rewrite IH.
Qed.

Definition example_deploy_decision : DeployDecision :=
  {| dd_EnvironmentID := 7; dd_EnvironmentName := "dev"; dd_TenantName := "nav";
     dd_FeatureAssignmentID := 1; dd_Feature := ra_Feature (example_assignment ∅ 1);
     dd_Values := None; dd_Hash := "h"; dd_Action := ActionDeploy; dd_Details := ""; dd_Message := "" |}.

(** A session of dev, by an agent that says so. *)
Definition example_session_lane : lane :=
  (open_session (register_message "nav" "dev" "1.0") example_lane).2.
Definition example_sent_lane : lane :=
  (dispatch (ext := echo) example_diid_text ChoseSend example_deploy_decision example_session_lane).2.

Lemma dispatch_spec_witness :
  ∃ row, ln_commands example_sent_lane = [row] ∧ ln_registry example_sent_lane = ln_registry example_session_lane ∧
    (length ∘ ss_send) <$> ln_sessions example_sent_lane !! 1%N = Some 1%nat.
Proof.
  destruct (dispatch_spec (ext := echo) example_diid_text ChoseSend example_deploy_decision example_session_lane
    (Ok tt) example_sent_lane) as [Hr [(_ & _ & _ & H)|(diid & vals & now & H & _)]].
  - vm_compute. reflexivity.
  - discriminate H.
  - eexists. split; [exact H|]. split; [exact Hr|]. vm_compute. reflexivity.
Defined.

Lemma handleCommand_dry_run_witness :
  ∃ l', handleCommand (handleAgentMessage example_parse_diid 7) 5
      (command_for example_diid_text 1000 "null" example_deploy_decision) example_sent_lane = (Ok tt, l') ∧
    command_status l' 1000 = Some "deployed".
Proof.
  destruct (handleCommand_dry_run example_diid_text example_parse_diid example_parse_text 7 5 1000 "null"
    example_deploy_decision example_sent_lane) as (l' & H & _ & _ & Hs & _).
  - reflexivity.
  - vm_compute. reflexivity.
  - apply add_status_wf. split; [apply NoDup_nil_2|]. intros r Hr. by apply elem_of_nil in Hr.
  - exists l'. split; [exact H|exact Hs].
Defined.

Definition example_oidc (issuer discovery audience token : string) : outcome unit :=
  if bool_decide (issuer = "https://dev") && bool_decide (audience = "fasit") && bool_decide (token = "t")
  then Ok tt else Err (ErrString "bad token").
Definition example_iap (token audience : string) : outcome Payload := Err (ErrString "bad assertion").
Definition example_md : gmap string (list string) :=
  {[ "authorization" := ["Bearer t"]; "x-fasit-tenant" := ["nav"]; "x-fasit-environment" := ["dev"] ]}.

Lemma StreamInterceptor_sound_witness :
  ∃ m l1, Some example_md = Some m ∧ same_lane example_lane l1.
Proof.
  destruct (StreamInterceptor_sound example_oidc example_iap "fasit" false (Some example_md)
    (mret tt : M lane unit) example_lane tt example_lane) as [H|(m & l1 & Hm & _ & Hs & _)].
  - vm_compute. reflexivity.
  - discriminate H.
  - exists m, l1. split; [exact Hm|exact Hs].
Defined.

Lemma session_identity_unchecked_witness :
  ∃ l' : lane, ln_registry l' !! keyFor "nav" "prod" = Some 1%N ∧
    ss_environmentID <$> ln_sessions l' !! 1%N = Some 8%N.
Proof.
  destruct (session_identity_unchecked example_oidc example_iap "fasit" (Some example_md)
    {| reg_Tenant := "nav"; reg_Environment := "prod"; reg_FasitdVersion := ""; reg_ProtocolVersion := 1 |}
    example_lane example_lane 8%N) as (l' & _ & H1 & H2).
  - vm_compute. reflexivity.
  - vm_compute. reflexivity.
  - discriminate.
  - discriminate.
  - reflexivity.
  - exists l'. split; [exact H1|exact H2].
Defined.

(** Storing a report that fails half way loses the environment's inventory. *)
Theorem setReleases_loses_inventory :
  ∃ l l' releases, setReleases 7 releases l =
      (Err (ErrWrap "set release status" (ErrString "timeout")), l') ∧
    size (ln_releases l) = 1%nat ∧ size (ln_releases l') = 0%nat.
Proof.
  exists (set_ln_world (set_w_faults (λ _, [None; Some (ErrString "timeout")]))
    (set_ln_releases (insert (7%N, "app") (fasitd_release_row {| frl_Name := "app"; frl_Version := "1";
       frl_Status := "deployed"; frl_Revision := 1; frl_LastDeployedUnix := 0 |})) example_lane)).
  eexists _, [{| frl_Name := "app"; frl_Version := "2"; frl_Status := "deployed"; frl_Revision := 2;
                 frl_LastDeployedUnix := 1 |}].
  split_and!; vm_compute; reflexivity.
Qed.
