(* ===== verification/FasitdSystem.v ===== *)
(** * The shadow lane at work: sessions, senders and dispatches side by side

    Every stream has a handler, which receives, and a goroutine that sends; dispatches run
    in the reconciler and in requests.  They meet in the registry, in the sessions' channels
    and in the tables; each step below is one such meeting.  The ghost [fd_delivered] is
    what went out on the streams. *)

From S2P Require Import Invariant.
From S2P Require Export Fasitd.

(** Where a dispatch is: its command recorded, then in the select, then with a verdict. *)
Inductive dispatching :=
  | DLookup (dec : DeployDecision) (diid : uuid) (vals : string)
  | DSelect (dec : DeployDecision) (diid : uuid) (vals : string) (sid : N)
  | DRecord (diid : uuid) (v : string * string).

Record fasitd := {
  fd_lane : lane;
  fd_dispatches : list dispatching;
  fd_failed : gset N;                    (* sessions whose goroutine met an error *)
  fd_delivered : list (N * Command);
}.

(** The tenant and environment with these names have this identifier. *)
Definition names_env (d : env_db) (key : sessionKey) (id : uuid) : Prop :=
  ∃ t e, t ∈ tenants d ∧ t_Name t = key.1 ∧ e ∈ environments d ∧ er_TenantID e = t_ID t ∧
    er_Name e = key.2 ∧ er_ID e = id.

(** What others do to the world: nothing renames or removes a tenant or an environment. *)
Record evolves (w w' : world) : Prop := {
  ev_env : env_wf (w_env w') (w_next_uuid w');
  ev_names : ∀ key id, names_env (w_env w) key id → names_env (w_env w') key id;
  ev_uuid : (w_next_uuid w <= w_next_uuid w')%N;
}.

Section system.
Context `{ext : External}.
Context (uuid_String : uuid → string) (uuid_Parse : string → outcome uuid).

Definition dec_key (dec : DeployDecision) : sessionKey :=
  keyFor (dd_TenantName dec) (dd_EnvironmentName dec).
(** Decisions are about environments of the snapshot, by their names. *)
Definition decided (w : world) (dec : DeployDecision) : Prop :=
  dd_Action dec = ActionDeploy ∧ names_env (w_env w) (dec_key dec) (dd_EnvironmentID dec).

Inductive fasitd_step : fasitd → fasitd → Prop :=
  (* Connect *)
  | fs_connect l ds f out first o l' :
      open_session first l = (o, l') →
      fasitd_step (Build_fasitd l ds f out) (Build_fasitd l' ds f out)
  | fs_receive l ds f out sid s msg o l' :
      ln_sessions l !! sid = Some s → ss_done s = false → sid ∉ f →
      handleAgentMessage uuid_Parse (ss_environmentID s) msg l = (o, l') →
      fasitd_step (Build_fasitd l ds f out) (Build_fasitd l' ds f out)
  | fs_disconnect l ds f out sid o l' :
      close_done sid l = (o, l') →
      fasitd_step (Build_fasitd l ds f out) (Build_fasitd l' ds f out)
  | fs_remove l ds f out sid s o l' :
      ln_sessions l !! sid = Some s → ss_done s = true → remove_session sid l = (o, l') →
      fasitd_step (Build_fasitd l ds f out) (Build_fasitd l' ds f out)
  (* its goroutine *)
  | fs_send (ok : bool) l ds f out sid s c q :
      ln_sessions l !! sid = Some s → sid ∉ f → ss_send s = c :: q →
      fasitd_step (Build_fasitd l ds f out)
        (Build_fasitd (set_ln_sessions (alter (set_ss_send (λ _, q)) sid) l) ds
           (if ok then f else f ∪ {[sid]}) (if ok then out ++ [(sid, c)] else out))
  (* dispatch *)
  | fs_create l ds f out dec o l' :
      decided (ln_world l) dec → create_command dec l = (o, l') →
      fasitd_step (Build_fasitd l ds f out)
        (Build_fasitd l' (match o with Ok dv => ds ++ [DLookup dec dv.1 dv.2] | _ => ds end) f out)
  | fs_lookup l ds1 ds2 f out dec diid vals :
      fasitd_step (Build_fasitd l (ds1 ++ DLookup dec diid vals :: ds2) f out)
        (Build_fasitd l (ds1 ++ match ln_registry l !! dec_key dec with
                                | Some sid => DSelect dec diid vals sid
                                | None => DRecord diid no_session
                                end :: ds2) f out)
  | fs_select (c : choice) l ds1 ds2 f out dec diid vals sid o l' :
      ready l sid c = true → chosen c sid (command_for uuid_String diid vals dec) l = (o, l') →
      fasitd_step (Build_fasitd l (ds1 ++ DSelect dec diid vals sid :: ds2) f out)
        (Build_fasitd l' (ds1 ++ DRecord diid (verdict c) :: ds2) f out)
  | fs_record l ds1 ds2 f out diid v o l' :
      deployer_appendStatus diid v.1 v.2 l = (o, l') →
      fasitd_step (Build_fasitd l (ds1 ++ DRecord diid v :: ds2) f out)
        (Build_fasitd l' (ds1 ++ ds2) f out)
  (* everything else *)
  | fs_world l ds f out w' :
      evolves (ln_world l) w' →
      fasitd_step (Build_fasitd l ds f out) (Build_fasitd (set_ln_world (λ _, w') l) ds f out).

(** A server that just started, with tables from before. *)
Definition fresh_start (s : fasitd) : Prop :=
  env_wf (w_env (ln_world (fd_lane s))) (w_next_uuid (ln_world (fd_lane s))) ∧
  NoDup (fc_Diid <$> ln_commands (fd_lane s)) ∧
  (∀ c, c ∈ ln_commands (fd_lane s) → (fc_Diid c < w_next_uuid (ln_world (fd_lane s)))%N) ∧
  ln_registry (fd_lane s) = ∅ ∧ ln_sessions (fd_lane s) = ∅ ∧ fd_dispatches s = [] ∧ fd_delivered s = [].

Definition fasitd_reachable (s : fasitd) : Prop := ∃ s0, fresh_start s0 ∧ steps fasitd_step s0 s.

(** ** The invariant *)

(** The command is recorded, for this environment. *)
Definition recorded_for (l : lane) (env : uuid) (c : Command) : Prop :=
  ∃ row, row ∈ ln_commands l ∧ fc_EnvironmentID row = env ∧ cmd_Diid c = uuid_String (fc_Diid row) ∧
    cmd_Name c = fc_FeatureName row ∧ cmd_Version c = fc_FeatureVersion row ∧
    cmd_ConfigHash c = fc_ConfigHash row ∧ cmd_Values c = fc_Values row.

Definition waiting_diid (d : dispatching) : list string :=
  match d with DLookup _ diid _ | DSelect _ diid _ _ => [uuid_String diid] | DRecord _ _ => [] end.
Definition queued (l : lane) : list Command := map_to_list (ln_sessions l) ≫= (λ kv, ss_send kv.2).
(** Every command on its way, by its identifier. *)
Definition underway (s : fasitd) : list string :=
  (fd_dispatches s ≫= waiting_diid) ++ (cmd_Diid <$> queued (fd_lane s)) ++
  ((λ sc, cmd_Diid sc.2) <$> fd_delivered s).

Definition dispatch_ok (l : lane) (d : dispatching) : Prop :=
  match d with
  | DRecord _ _ => True
  | DLookup dec diid vals | DSelect dec diid vals _ =>
      names_env (w_env (ln_world l)) (dec_key dec) (dd_EnvironmentID dec) ∧
      (∃ now, command_row diid vals now dec ∈ ln_commands l)
  end ∧
  match d with
  | DSelect dec _ _ sid => ∃ s, ln_sessions l !! sid = Some s ∧ ss_key s = dec_key dec
  | _ => True
  end.

Record fasitd_inv (s : fasitd) : Prop := {
  fi_env : env_wf (w_env (ln_world (fd_lane s))) (w_next_uuid (ln_world (fd_lane s)));
  fi_below : ∀ c, c ∈ ln_commands (fd_lane s) → (fc_Diid c < w_next_uuid (ln_world (fd_lane s)))%N;
  fi_registered : ∀ key sid, ln_registry (fd_lane s) !! key = Some sid →
    ∃ ss, ln_sessions (fd_lane s) !! sid = Some ss ∧ ss_key ss = key;
  fi_live : ∀ sid ss, ln_sessions (fd_lane s) !! sid = Some ss → ss_done ss = false →
    ln_registry (fd_lane s) !! ss_key ss = Some sid;
  fi_fresh : ∀ sid ss, ln_sessions (fd_lane s) !! sid = Some ss → (sid < ln_next_session (fd_lane s))%N;
  fi_names : ∀ sid ss, ln_sessions (fd_lane s) !! sid = Some ss →
    names_env (w_env (ln_world (fd_lane s))) (ss_key ss) (ss_environmentID ss);
  fi_dispatches : Forall (dispatch_ok (fd_lane s)) (fd_dispatches s);
  fi_queued : ∀ sid ss c, ln_sessions (fd_lane s) !! sid = Some ss → c ∈ ss_send ss →
    recorded_for (fd_lane s) (ss_environmentID ss) c;
  fi_delivered : ∀ sid c, (sid, c) ∈ fd_delivered s →
    ∃ ss, ln_sessions (fd_lane s) !! sid = Some ss ∧ recorded_for (fd_lane s) (ss_environmentID ss) c;
  fi_once : NoDup (underway s);
  fi_underway : ∀ t, t ∈ underway s → ∃ row, row ∈ ln_commands (fd_lane s) ∧ t = uuid_String (fc_Diid row);
}.

Lemma fresh_start_inv s : fresh_start s → fasitd_inv s.
Proof.
  destruct s as [l ds f out]. intros (He & Hn & Hb & Hr & Hs & Hd & Ho). simpl in *. subst ds out.
  assert (Hu : underway (Build_fasitd l [] f []) = []).
  { unfold underway, queued. simpl. by rewrite Hs, map_to_list_empty. }
  assert (He' : ∀ sid : N, (∅ : gmap N session) !! sid = None) by (intros; apply lookup_empty).
  split; simpl; rewrite ?Hr, ?Hs, ?Hu; try done.
  - intros sid c Hc. by apply elem_of_nil in Hc.
  - constructor.
  - intros t Ht. by apply elem_of_nil in Ht.
Qed.

(** ** Operations that leave sessions and commands alone *)

Record aside (l l' : lane) : Prop := {
  as_registry : ln_registry l' = ln_registry l;
  as_sessions : ln_sessions l' = ln_sessions l;
  as_next : ln_next_session l' = ln_next_session l;
  as_commands : ln_commands l' = ln_commands l;
  as_env : env_wf (w_env (ln_world l)) (w_next_uuid (ln_world l)) →
    env_wf (w_env (ln_world l')) (w_next_uuid (ln_world l'));
  as_names : ∀ key id, names_env (w_env (ln_world l)) key id → names_env (w_env (ln_world l')) key id;
  as_uuid : (w_next_uuid (ln_world l) <= w_next_uuid (ln_world l'))%N;
}.

Lemma aside_refl l : aside l l.
Proof. by split. Qed.
Lemma aside_trans l1 l2 l3 : aside l1 l2 → aside l2 l3 → aside l1 l3.
Proof. intros [] []. split; [congruence..|auto|auto|lia]. Qed.

Lemma same_lane_aside l l' : same_lane l l' → aside l l'.
Proof.
  intros (w & S & ->). unfold same_world in S. rewrite S. by split.
Qed.

Definition puts_aside {A} (m : M lane A) : Prop := ∀ l, aside l (m l).2.

Lemma aside_ret {A} (x : A) : puts_aside (mret x).
Proof. intros l. apply aside_refl. Qed.
Lemma aside_fail {A} e : puts_aside (fail (A := A) e).
Proof. intros l. apply aside_refl. Qed.
Lemma aside_lift {A} (o : outcome A) : puts_aside (lift o).
Proof. intros l. apply aside_refl. Qed.
Lemma aside_bind {A B} (m : M lane A) (f : A → M lane B) :
  puts_aside m → (∀ x, puts_aside (f x)) → puts_aside (m ≫= f).
Proof.
  intros Hm Hf l. specialize (Hm l). unfold mbind, M_bind. destruct (m l) as [[x|e|p] l1]; [|done..].
  eapply aside_trans; [exact Hm|apply Hf].
Qed.
Lemma aside_wrapping {A} prefix (m : M lane A) : puts_aside m → puts_aside (wrapping prefix m).
Proof. intros Hm l. specialize (Hm l). unfold wrapping. by destruct (m l). Qed.
Lemma aside_for_each {A} (f : A → M lane unit) xs : (∀ x, puts_aside (f x)) → puts_aside (for_each f xs).
Proof. intros Hf. induction xs as [|x xs IH]; [apply aside_ret|]. by apply aside_bind. Qed.
Lemma aside_statement ok f : (∀ l, aside l (f l)) → puts_aside (statement ok f).
Proof.
  intros Hf l. destruct (statement ok f l) as [o l'] eqn:E.
  apply statement_run in E as (l1 & S & [(_ & _ & ->)|[_ ->]]); apply same_lane_aside in S; [|done].
  eapply aside_trans; [exact S|apply Hf].
Qed.

Lemma aside_appendStatus diid st msg : puts_aside (AppendCommandStatus diid st msg).
Proof. apply aside_statement. intros l. by split. Qed.

Lemma aside_handleAgentMessage env msg : puts_aside (handleAgentMessage uuid_Parse env msg).
Proof.
  destruct msg as [reg|diid|diid st h err|diid lines|created rels| |]; cbn [handleAgentMessage];
    try apply aside_fail; try apply aside_ret.
  1,2: apply aside_bind; [apply aside_wrapping, aside_lift|]; intros; apply aside_wrapping, aside_appendStatus.
  - apply aside_bind; [apply aside_wrapping, aside_lift|]. intros d. case_bool_decide; [apply aside_ret|].
    apply aside_statement. intros l. by split.
  - apply aside_bind; [apply aside_wrapping, aside_statement; intros l; by split|]. intros _.
    apply aside_for_each. intros r. apply aside_wrapping, aside_statement. intros l. by split.
Qed.

(** The invariant survives what happens aside. *)
Lemma inv_aside l l' ds f f' out :
  aside l l' → fasitd_inv (Build_fasitd l ds f out) → fasitd_inv (Build_fasitd l' ds f' out).
Proof.
  intros [A1 A2 A3 A4 A5 A6 A7] [H1 H2 H3 H4 H5 H6 H7 H8 H9 H10 H11]. simpl in *.
  assert (Hrec : ∀ env c, recorded_for l env c → recorded_for l' env c) by (unfold recorded_for; by rewrite A4).
  assert (Hu : underway (Build_fasitd l' ds f' out) = underway (Build_fasitd l ds f out)).
  { unfold underway, queued. simpl. by rewrite A2. }
  split; simpl; rewrite ?A1, ?A2, ?A3, ?A4, ?Hu; auto.
  - intros c Hc. apply H2 in Hc. lia.
  - eauto.
  - eapply Forall_impl; [exact H7|]. intros [dec diid vals|dec diid vals sid|diid v]; unfold dispatch_ok;
      simpl; rewrite ?A2, ?A4; naive_solver.
  - eauto.
  - intros sid c Hc. destruct (H9 sid c Hc) as (ss & ? & ?). eauto.
Qed.

(** A name stands for one environment. *)
Lemma names_env_unique d n key id id' : env_wf d n → names_env d key id → names_env d key id' → id = id'.
Proof.
  intros Hwf (t & e & Ht & Htn & He & Het & Hen & <-) (t' & e' & Ht' & Htn' & He' & Het' & Hen' & <-).
  assert (t = t') as <- by (apply (NoDup_fmap_inj_on t_Name (tenants d)); [apply Hwf|done..|congruence]).
  f_equal. apply (NoDup_fmap_inj_on (λ e, (er_TenantID e, er_Name e)) (environments d)); [apply Hwf|done..|congruence].
Qed.

(** ** What is under way *)

Lemma NoDup_submseteq (l1 l2 : list string) : l1 ⊆+ l2 → NoDup l2 → NoDup l1.
Proof. intros [k ->]%submseteq_Permutation Hn. by apply NoDup_app in Hn as [Hn _]. Qed.

Definition queued_in (m : gmap N session) : list Command := map_to_list m ≫= (λ kv, ss_send kv.2).

Lemma queued_in_insert m sid ss :
  m !! sid = None → queued_in (<[sid := ss]> m) ≡ₚ ss_send ss ++ queued_in m.
Proof. intros Hm. unfold queued_in. by rewrite map_to_list_insert. Qed.

Lemma queued_in_delete m sid ss :
  m !! sid = Some ss → queued_in m ≡ₚ ss_send ss ++ queued_in (delete sid m).
Proof.
  intros Hm. unfold queued_in. rewrite <-(map_to_list_delete m sid ss Hm). done.
Qed.

Lemma queued_in_alter f m sid ss :
  m !! sid = Some ss → queued_in (alter f sid m) ≡ₚ ss_send (f ss) ++ queued_in (delete sid m).
Proof.
  intros Hm. rewrite (queued_in_delete (alter f sid m) sid (f ss)) by by rewrite lookup_alter_eq, Hm.
  by rewrite delete_alter_eq.
Qed.

(** A change to one session, whose buffer may only change as told. *)
Lemma inv_alter l ds ds' f f' out out' sid ss g :
  ln_sessions l !! sid = Some ss →
  ss_key (g ss) = ss_key ss → ss_environmentID (g ss) = ss_environmentID ss →
  (ss_done (g ss) = false → ss_done ss = false) →
  (∀ c, c ∈ ss_send (g ss) → recorded_for l (ss_environmentID ss) c) →
  (∀ sid' c, (sid', c) ∈ out' → (sid', c) ∈ out ∨ sid' = sid ∧ recorded_for l (ss_environmentID ss) c) →
  Forall (dispatch_ok l) ds' →
  underway (Build_fasitd (set_ln_sessions (alter g sid) l) ds' f' out') ⊆+
    underway (Build_fasitd l ds f out) →
  fasitd_inv (Build_fasitd l ds f out) →
  fasitd_inv (Build_fasitd (set_ln_sessions (alter g sid) l) ds' f' out').
Proof.
  intros Hs Hk He Hdone Hq Hout Hds Hu [H1 H2 H3 H4 H5 H6 H7 H8 H9 H10 H11]. simpl in *.
  assert (Hlook : ∀ sid' ss', alter g sid (ln_sessions l) !! sid' = Some ss' →
    ∃ ss0, ln_sessions l !! sid' = Some ss0 ∧ ss_key ss' = ss_key ss0 ∧
      ss_environmentID ss' = ss_environmentID ss0 ∧ (ss_done ss' = false → ss_done ss0 = false) ∧
      (sid' = sid ∧ ss' = g ss ∨ ss' = ss0)).
  { intros sid' ss'. destruct (decide (sid' = sid)) as [->|Hne].
    - rewrite lookup_alter_eq, Hs. intros [= <-]. exists ss. split_and!; auto.
    - rewrite lookup_alter_ne by done. intros Hl. exists ss'. split_and!; auto. }
  assert (Hback : ∀ sid' ss0, ln_sessions l !! sid' = Some ss0 →
    ∃ ss', alter g sid (ln_sessions l) !! sid' = Some ss' ∧ ss_key ss' = ss_key ss0 ∧
      ss_environmentID ss' = ss_environmentID ss0).
  { intros sid' ss0 Hl. destruct (decide (sid' = sid)) as [->|Hne].
    - exists (g ss). rewrite lookup_alter_eq, Hl. simpl. by simplify_eq.
    - exists ss0. by rewrite lookup_alter_ne. }
  split; simpl; auto.
  - intros key sid' (ss0 & Hl & <-)%H3. apply Hback in Hl as (ss' & ? & ? & _). eauto.
  - intros sid' ss' (ss0 & Hl & -> & _ & Hd & _)%Hlook Hf. apply (H4 _ _ Hl). auto.
  - intros sid' ss' (ss0 & Hl & _)%Hlook. eauto.
  - intros sid' ss' (ss0 & Hl & -> & -> & _)%Hlook. eauto.
  - eapply Forall_impl; [exact Hds|]. intros [dec diid vals|dec diid vals sid'|diid v]; unfold dispatch_ok;
      simpl; [done| |done]. intros [Hn (ss0 & Hl & Hkey)]. split; [done|].
    apply Hback in Hl as (ss' & ? & ? & _). exists ss'. by split; [|congruence].
  - intros sid' ss' c (ss0 & Hl & _ & He' & _ & Hcase)%Hlook Hc. rewrite He'.
    destruct Hcase as [[-> ->]| ->]; [simplify_eq; by apply Hq|by eapply H8].
  - intros sid' c [Hc|[-> Hc]]%Hout.
    + destruct (H9 _ _ Hc) as (ss0 & Hl & Hr). apply Hback in Hl as (ss' & ? & _ & Hen).
      exists ss'. split; [done|]. by rewrite Hen.
    + destruct (Hback _ _ Hs) as (ss' & ? & _ & Hen). exists ss'. split; [done|]. by rewrite Hen.
  - by eapply NoDup_submseteq.
  - intros t Ht. apply H11. by eapply elem_of_submseteq.
Qed.

(** ** Each kind of step *)

Lemma resolveEnvironment_Ok tenant environment l id l' :
  resolveEnvironment tenant environment l = (Ok id, l') →
  same_lane l l' ∧ names_env (w_env (ln_world l)) (keyFor tenant environment) id.
Proof.
  unfold resolveEnvironment, on_world. intros H.
  match type of H with context [match ?m (ln_world l) with _ => _ end] =>
    destruct (m (ln_world l)) as [o w] eqn:E end.
  injection H as -> <-.
  apply bind_Ok in E as (t & w1 & Ht & E). apply wrapping_Ok in Ht.
  apply bind_Ok in E as (e & w2 & He & E). apply wrapping_Ok in He. injection E as <- <-.
  pose proof (reads_query _ _ _ _ Ht) as S1. pose proof (reads_query _ _ _ _ He) as S2.
  pose proof (query_value _ _ _ _ Ht (λ _, eq_refl)) as Vt. cbv beta in Vt.
  pose proof (query_value _ _ _ _ He (λ _, eq_refl)) as Ve. cbv beta in Ve.
  apply single_Ok, list_elem_of_filter in Vt as [Hn Hin].
  apply single_Ok, list_elem_of_filter in Ve as [[Hid Hen] Hin'].
  rewrite (same_world_env _ _ S1) in Hin'.
  split; [exists w2; split; [by eapply same_world_trans|done]|]. by exists t, e.
Qed.

Lemma open_session_run first l o l' :
  open_session first l = (o, l') →
  aside l l' ∨
  ∃ l1 key id v, aside l l1 ∧ names_env (w_env (ln_world l1)) key id ∧ ln_registry l1 !! key = None ∧
    l' = set_ln_sessions (insert (ln_next_session l1) (Build_session key id v [] false))
           (set_ln_next_session N.succ (set_ln_registry (insert key (ln_next_session l1)) l1)).
Proof.
  unfold open_session. intros H.
  destruct first as [reg|diid|diid st h err|diid lines|created rels| |];
    try (injection H as _ <-; left; apply aside_refl).
  destruct (_ || _); [injection H as _ <-; left; apply aside_refl|].
  unfold mbind at 1, M_bind at 1, attempt in H.
  destruct (resolveEnvironment _ _ l) as [[id|e|p] l1] eqn:E.
  - apply resolveEnvironment_Ok in E as (S & Hn). pose proof (same_lane_aside _ _ S) as A.
    unfold mbind, M_bind in H. cbn [gets] in H. unfold registry_add in H.
    destruct (ln_registry l1 !! _) eqn:Er; [injection H as _ <-; by left|].
    cbn [modify mret M_ret] in H. injection H as _ <-. right.
    exists l1, (keyFor (reg_Tenant reg) (reg_Environment reg)), id, (reg_FasitdVersion reg).
    split_and!; [done| |done|done]. by apply (as_names _ _ A).
  - injection H as _ <-. left. apply same_lane_aside.
    eapply on_world_reads; [|exact E]. apply reads_bind; [apply reads_wrapping, reads_query|]. intros t.
    apply reads_bind; [apply reads_wrapping, reads_query|]. intros. apply reads_ret.
  - injection H as _ <-. left. apply same_lane_aside.
    eapply on_world_reads; [|exact E]. apply reads_bind; [apply reads_wrapping, reads_query|]. intros t.
    apply reads_bind; [apply reads_wrapping, reads_query|]. intros. apply reads_ret.
Qed.

Lemma create_command_fresh dec l o l' :
  create_command dec l = (o, l') →
  match o with
  | Ok (diid, vals) => ∃ l1 now, aside l l1 ∧ (w_next_uuid (ln_world l) <= diid)%N ∧
      (diid < w_next_uuid (ln_world l1))%N ∧
      l' = set_ln_commands (λ cs, cs ++ [command_row diid vals now dec]) l1
  | _ => aside l l'
  end.
Proof.
  unfold create_command. intros H. unfold mbind at 1, M_bind at 1, on_world, uuid_New in H.
  set (l0 := set_ln_world _ l) in H.
  assert (A : aside l l0 ∧ (w_next_uuid (ln_world l) < w_next_uuid (ln_world l0))%N).
  { split; [|unfold l0; simpl; lia]. split; try done; simpl; [|lia].
    intros He. eapply env_wf_mono; [|exact He]. lia. }
  destruct A as [A Hlt]. unfold mbind at 1, M_bind at 1, wrapping at 1, lift in H.
  destruct (marshal_values (dd_Values dec)) as [vals|e|p]; [|by injection H as <- <-..].
  cbn [wrap] in H. unfold mbind at 1, M_bind at 1 in H. cbn [gets] in H.
  unfold mbind, M_bind, wrapping in H.
  destruct (CreateCommand _ l0) as [o1 l1] eqn:E.
  apply statement_run in E as (l2 & S & [(-> & _ & ->)|[Ho ->]]); apply same_lane_aside in S.
  - injection H as <- <-. exists l2, (w_now (ln_world l0)). split_and!; [by eapply aside_trans|done| |done].
    pose proof (as_uuid _ _ S). lia.
  - assert (aside l l2) by by eapply aside_trans.
    by destruct o1 as [[]|e|p]; [|injection H as <- <-..].
Qed.

Lemma inv_connect l ds f out first o l' :
  open_session first l = (o, l') →
  fasitd_inv (Build_fasitd l ds f out) → fasitd_inv (Build_fasitd l' ds f out).
Proof.
  intros [A|(l1 & key & id & v & A & Hn & Hreg & ->)]%open_session_run Hinv; [by eapply inv_aside|].
  apply (inv_aside _ _ _ f f _ A) in Hinv. clear l A.
  destruct Hinv as [H1 H2 H3 H4 H5 H6 H7 H8 H9 H10 H11]. simpl in *.
  set (sid := ln_next_session l1) in *.
  assert (Hnone : ln_sessions l1 !! sid = None).
  { destruct (ln_sessions l1 !! sid) as [ss|] eqn:E; [|done]. apply H5 in E. unfold sid in E. lia. }
  assert (Hold : ∀ sid' ss, ln_sessions l1 !! sid' = Some ss → sid' ≠ sid) by congruence.
  assert (Hu : underway (Build_fasitd (set_ln_sessions (insert sid (Build_session key id v [] false))
    (set_ln_next_session N.succ (set_ln_registry (insert key sid) l1))) ds f out) ≡ₚ
    underway (Build_fasitd l1 ds f out)).
  { unfold underway. simpl. change (queued ?l) with (queued_in (ln_sessions l)). simpl.
    by rewrite (queued_in_insert _ _ _ Hnone). }
  split; simpl; auto.
  - intros key' sid'. rewrite lookup_insert_Some. intros [[<- <-]|[Hne Hk]].
    + eexists. rewrite lookup_insert_eq. split; [done|]. done.
    + destruct (H3 _ _ Hk) as (ss & Hs & Hkey). exists ss.
      rewrite lookup_insert_ne; [done|]. symmetry. by eapply Hold.
  - intros sid' ss. rewrite lookup_insert_Some. intros [[<- <-]|[Hne Hs]] Hd; simpl.
    + apply lookup_insert_eq.
    + rewrite lookup_insert_ne; [by apply H4|]. intros ->. rewrite (H4 _ _ Hs Hd) in Hreg. done.
  - intros sid' ss. rewrite lookup_insert_Some. intros [[<- <-]|[Hne Hs%H5]]; unfold sid in *; lia.
  - intros sid' ss. rewrite lookup_insert_Some. intros [[<- <-]|[Hne Hs]]; [done|]. by eapply H6.
  - eapply Forall_impl; [exact H7|]. intros [dec diid vals|dec diid vals sid'|diid w]; unfold dispatch_ok;
      simpl; [done| |done]. intros [Hd (ss & Hs & Hk)]. split; [done|]. exists ss.
    rewrite lookup_insert_ne; [done|]. symmetry. by eapply Hold.
  - intros sid' ss c. rewrite lookup_insert_Some. intros [[<- <-]|[Hne Hs]] Hc; [by apply elem_of_nil in Hc|].
    by eapply H8.
  - intros sid' c Hc. destruct (H9 _ _ Hc) as (ss & Hs & Hr). exists ss.
    rewrite lookup_insert_ne; [done|]. symmetry. by eapply Hold.
  - by rewrite Hu.
  - intros t. rewrite Hu. apply H11.
Qed.

Lemma inv_remove l ds f out sid ss o l' :
  ln_sessions l !! sid = Some ss → ss_done ss = true → remove_session sid l = (o, l') →
  fasitd_inv (Build_fasitd l ds f out) → fasitd_inv (Build_fasitd l' ds f out).
Proof.
  unfold remove_session, registry_remove, mbind, M_bind. cbn [gets]. intros Hs Hd H Hinv. rewrite Hs in H.
  injection H as _ <-. case_bool_decide as Hreg; [|done].
  destruct Hinv as [H1 H2 H3 H4 H5 H6 H7 H8 H9 H10 H11]. simpl in *.
  split; simpl; auto.
  - intros key sid'. rewrite lookup_delete_Some. intros [_ Hk]. by apply H3.
  - intros sid' ss' Hs' Hd'. rewrite lookup_delete_ne; [by apply H4|]. intros Hk.
    pose proof (H4 _ _ Hs' Hd') as Hr. rewrite <-Hk, Hreg in Hr. injection Hr as <-. congruence.
Qed.

Section once.
Hypothesis parse_String : ∀ d, uuid_Parse (uuid_String d) = Ok d.

Lemma uuid_String_inj d d' : uuid_String d = uuid_String d' → d = d'.
Proof. intros Hd. pose proof (parse_String d) as H. rewrite Hd, parse_String in H. by injection H. Qed.

Lemma inv_create l ds f out dec o l' :
  decided (ln_world l) dec → create_command dec l = (o, l') →
  fasitd_inv (Build_fasitd l ds f out) →
  fasitd_inv (Build_fasitd l' (match o with Ok dv => ds ++ [DLookup dec dv.1 dv.2] | _ => ds end) f out).
Proof.
  intros [_ Hn] Hc Hinv. pose proof (fi_below _ Hinv) as Hb. simpl in Hb.
  apply create_command_fresh in Hc. destruct o as [[diid vals]|e|p]; [|by eapply inv_aside..].
  destruct Hc as (l1 & now & A & Hle & Hlt & ->). cbn [fst snd].
  apply (as_names _ _ A) in Hn. rewrite <-(as_commands _ _ A) in Hb.
  apply (inv_aside _ _ _ f f _ A) in Hinv. clear A.
  destruct Hinv as [H1 H2 H3 H4 H5 H6 H7 H8 H9 H10 H11]. simpl in *.
  set (row := command_row diid vals now dec).
  assert (Hrec : ∀ env c, recorded_for l1 env c →
    recorded_for (set_ln_commands (λ cs, cs ++ [row]) l1) env c).
  { intros env c (r & Hr & Hrest). exists r. split; [|done]. simpl. apply elem_of_app. by left. }
  assert (Hu : underway (Build_fasitd (set_ln_commands (λ cs, cs ++ [row]) l1)
    (ds ++ [DLookup dec diid vals]) f out) ≡ₚ uuid_String diid :: underway (Build_fasitd l1 ds f out)).
  { unfold underway. simpl. rewrite bind_app. simpl. rewrite <-app_assoc. by rewrite Permutation_middle. }
  split; simpl; auto.
  - intros c [Hc| ->%list_elem_of_singleton]%elem_of_app; [by apply H2|done].
  - apply Forall_app. split.
    + eapply Forall_impl; [exact H7|]. intros [dec' diid' vals'|dec' diid' vals' sid|d v]; unfold dispatch_ok; simpl;
        try done; intros [[Hn' (now' & Hin)] Hss]; (split; [|done]); (split; [done|]);
        exists now'; apply elem_of_app; by left.
    + apply Forall_singleton. split; [|done]. split; [done|]. exists now. apply elem_of_app. right. left.
  - eauto.
  - intros sid c Hc. destruct (H9 _ _ Hc) as (ss & ? & ?). eauto.
  - rewrite Hu. apply NoDup_cons. split; [|done]. intros (r & Hr & Hid)%H11.
    apply uuid_String_inj in Hid. apply Hb in Hr. lia.
  - intros t. rewrite Hu. rewrite elem_of_cons. intros [->|(r & Hr & ->)%H11].
    + exists row. split; [|done]. apply elem_of_app. right. left.
    + exists r. split; [|done]. apply elem_of_app. by left.
Qed.

Lemma inv_dispatches l ds ds' f f' out :
  Forall (dispatch_ok l) ds' →
  underway (Build_fasitd l ds' f' out) ⊆+ underway (Build_fasitd l ds f out) →
  fasitd_inv (Build_fasitd l ds f out) → fasitd_inv (Build_fasitd l ds' f' out).
Proof.
  intros Hds Hu [H1 H2 H3 H4 H5 H6 H7 H8 H9 H10 H11]. split; simpl in *; auto.
  - by eapply NoDup_submseteq.
  - intros t Ht. apply H11. by eapply elem_of_submseteq.
Qed.

(** Replacing one dispatch by a later phase of it. *)
Lemma underway_replace l ds1 d d' ds2 f f' out :
  waiting_diid d' ⊆+ waiting_diid d →
  underway (Build_fasitd l (ds1 ++ d' :: ds2) f' out) ⊆+ underway (Build_fasitd l (ds1 ++ d :: ds2) f out).
Proof.
  intros Hd. unfold underway. simpl. rewrite !bind_app, !bind_cons.
  apply submseteq_app; [|done]. apply submseteq_app; [done|]. by apply submseteq_app.
Qed.

Lemma underway_remove l ds1 d ds2 f f' out :
  underway (Build_fasitd l (ds1 ++ ds2) f' out) ⊆+ underway (Build_fasitd l (ds1 ++ d :: ds2) f out).
Proof.
  unfold underway. simpl. rewrite !bind_app, !bind_cons.
  apply submseteq_app; [|done]. apply submseteq_app; [done|]. by apply submseteq_inserts_l.
Qed.

Lemma inv_lookup l ds1 ds2 f out dec diid vals :
  fasitd_inv (Build_fasitd l (ds1 ++ DLookup dec diid vals :: ds2) f out) →
  fasitd_inv (Build_fasitd l (ds1 ++ match ln_registry l !! dec_key dec with
                                | Some sid => DSelect dec diid vals sid
                                | None => DRecord diid no_session
                                end :: ds2) f out).
Proof.
  intros Hinv. pose proof (fi_dispatches _ Hinv) as Hd. simpl in Hd.
  apply Forall_app in Hd as [Hd1 [[Hok _] Hd2]%Forall_cons].
  refine (inv_dispatches _ _ _ f f _ _ _ Hinv).
  - apply Forall_app. split; [done|]. apply Forall_cons. split; [|done].
    destruct (ln_registry l !! dec_key dec) as [sid|] eqn:Er; [|by split]. split; [done|].
    exact (fi_registered _ Hinv _ _ Er).
  - apply underway_replace. destruct (ln_registry l !! _); simpl; [done|apply submseteq_nil_l].
Qed.

Lemma inv_select c l ds1 ds2 f out dec diid vals sid o l' :
  ready l sid c = true → chosen c sid (command_for uuid_String diid vals dec) l = (o, l') →
  fasitd_inv (Build_fasitd l (ds1 ++ DSelect dec diid vals sid :: ds2) f out) →
  fasitd_inv (Build_fasitd l' (ds1 ++ DRecord diid (verdict c) :: ds2) f out).
Proof.
  intros _ Hc Hinv. pose proof (fi_dispatches _ Hinv) as Hd. simpl in Hd.
  apply Forall_app in Hd as [Hd1 [[[Hn (now & Hrow)] (ss & Hs & Hkey)] Hd2]%Forall_cons].
  assert (Hds : Forall (dispatch_ok l) (ds1 ++ DRecord diid (verdict c) :: ds2)).
  { apply Forall_app. split; [done|]. apply Forall_cons. by split. }
  destruct c; cbn [chosen modify mret M_ret] in Hc; injection Hc as _ <-;
    [|refine (inv_dispatches _ _ _ f f _ Hds _ Hinv); apply underway_replace, submseteq_nil_l..].
  refine (inv_alter _ _ _ f f out out sid ss (set_ss_send (λ q, q ++ [command_for uuid_String diid vals dec]))
    Hs eq_refl eq_refl _ _ _ Hds _ Hinv); [done| |auto|].
  - intros c [Hc| ->%list_elem_of_singleton]%elem_of_app; [by apply (fi_queued _ Hinv sid ss)|].
    exists (command_row diid vals now dec). split_and!; try done. simpl.
    apply (names_env_unique _ _ (dec_key dec) _ _ (fi_env _ Hinv)); [done|].
    rewrite <-Hkey. exact (fi_names _ Hinv _ _ Hs).
  - unfold underway. simpl. change (queued ?l) with (queued_in (ln_sessions l)). simpl.
    rewrite (queued_in_alter _ _ _ _ Hs), (queued_in_delete _ _ _ Hs), !bind_app, !bind_cons. simpl.
    rewrite !fmap_app. simpl. apply Permutation_submseteq. solve_Permutation.
Qed.

Lemma inv_send (ok : bool) l ds f out sid s c q :
  ln_sessions l !! sid = Some s → ss_send s = c :: q →
  fasitd_inv (Build_fasitd l ds f out) →
  fasitd_inv (Build_fasitd (set_ln_sessions (alter (set_ss_send (λ _, q)) sid) l) ds
     (if ok then f else f ∪ {[sid]}) (if ok then out ++ [(sid, c)] else out)).
Proof.
  intros Hs Hq Hinv.
  refine (inv_alter l ds ds f _ out _ sid s (set_ss_send (λ _, q)) Hs eq_refl eq_refl _ _ _ (fi_dispatches _ Hinv) _ Hinv); [done|..].
  - intros c' Hc'. apply (fi_queued _ Hinv sid s); [done|]. rewrite Hq. by right.
  - intros sid' c'. destruct ok; [|auto]. intros [Hc|Hc]%elem_of_app; [by left|].
    apply list_elem_of_singleton in Hc. simplify_eq. right. split; [done|].
    apply (fi_queued _ Hinv sid s); [done|]. rewrite Hq. left.
  - unfold underway. simpl. change (queued ?l) with (queued_in (ln_sessions l)). simpl.
    rewrite (queued_in_alter _ _ _ _ Hs), (queued_in_delete _ _ _ Hs), Hq. simpl.
    rewrite !fmap_app. destruct ok; simpl.
    + rewrite fmap_app. simpl. apply Permutation_submseteq. solve_Permutation.
    + apply submseteq_app; [done|]. by apply submseteq_cons.
Qed.

Lemma fasitd_step_inv s s' : fasitd_inv s → fasitd_step s s' → fasitd_inv s'.
Proof.
  intros Hinv Hstep. destruct Hstep.
  - by eapply inv_connect.
  - eapply inv_aside; [|exact Hinv]. pose proof (aside_handleAgentMessage (ss_environmentID s) msg l) as A.
    by rewrite H2 in A.
  - unfold close_done, modify in H. injection H as _ <-.
    destruct (ln_sessions l !! sid) as [ss|] eqn:Es.
    + refine (inv_alter _ _ _ _ _ _ _ sid ss (set_ss_done true) Es eq_refl eq_refl _ _ _ (fi_dispatches _ Hinv) _ Hinv);
        [done|intros c; exact (fi_queued _ Hinv sid ss c Es)|auto|].
      unfold underway. simpl. change (queued ?l) with (queued_in (ln_sessions l)). simpl.
      by rewrite (queued_in_alter _ _ _ _ Es), (queued_in_delete _ _ _ Es).
    + assert (set_ln_sessions (alter (set_ss_done true) sid) l = l) as ->; [|done].
      destruct l. unfold set_ln_sessions. simpl in *. f_equal. apply map_eq. intros i.
      destruct (decide (i = sid)) as [->|Hi]; [by rewrite lookup_alter_eq, Es|by rewrite lookup_alter_ne].
  - by eapply inv_remove.
  - by apply inv_send with (s := s).
  - by eapply inv_create.
  - by apply inv_lookup.
  - by eapply inv_select.
  - assert (A : aside l l').
    { pose proof (aside_wrapping "append command status" _ (aside_appendStatus diid v.1 v.2) l) as A.
      unfold deployer_appendStatus in H. by rewrite H in A. }
    apply (inv_aside _ _ _ f f _ A) in Hinv.
    refine (inv_dispatches _ _ _ f f _ _ (underway_remove _ _ _ _ f f _) Hinv).
    pose proof (fi_dispatches _ Hinv) as Hd. simpl in Hd.
    apply Forall_app in Hd as [Hd1 [_ Hd2]%Forall_cons]. by apply Forall_app.
  - eapply inv_aside; [|exact Hinv]. destruct H. by split.
Qed.

Lemma fasitd_reachable_inv s : fasitd_reachable s → fasitd_inv s.
Proof.
  intros (s0 & H0 & Hs). apply fresh_start_inv in H0.
  by eapply (steps_invariant fasitd_step fasitd_inv fasitd_step_inv).
Qed.

(** C34.  At most one session per environment: whatever agents connect, fail and reconnect and
    whatever is dispatched meanwhile, two sessions that are not closed belong to different
    environments, each is the one registered for its environment, and the registry never
    names a session of another environment. *)
Theorem sessions_exclusive s :
  fasitd_reachable s →
  (∀ i j si sj, ln_sessions (fd_lane s) !! i = Some si → ln_sessions (fd_lane s) !! j = Some sj →
    ss_done si = false → ss_done sj = false → ss_key si = ss_key sj → i = j) ∧
  (∀ i si, ln_sessions (fd_lane s) !! i = Some si → ss_done si = false →
    ln_registry (fd_lane s) !! ss_key si = Some i) ∧
  (∀ key i, ln_registry (fd_lane s) !! key = Some i →
    ∃ si, ln_sessions (fd_lane s) !! i = Some si ∧ ss_key si = key).
Proof.
  intros Hr%fasitd_reachable_inv. split_and!; [|apply Hr|apply Hr].
  intros i j si sj Hi Hj Hdi Hdj Hk.
  apply (fi_live _ Hr _ _ Hi) in Hdi. apply (fi_live _ Hr _ _ Hj) in Hdj. congruence.
Qed.

(** C33.  Commands go where they belong, once: every command that was sent on a session is a
    recorded one, with its name, version, hash and values, for the environment this session
    is of; and no command is sent twice, nor is one still waiting that was already sent. *)
Theorem commands_delivered_once s :
  fasitd_reachable s →
  NoDup ((λ sc, cmd_Diid sc.2) <$> fd_delivered s) ∧
  ∀ sid c, (sid, c) ∈ fd_delivered s →
    (∃ ss, ln_sessions (fd_lane s) !! sid = Some ss ∧ recorded_for (fd_lane s) (ss_environmentID ss) c) ∧
    ∀ sid' ss' c', ln_sessions (fd_lane s) !! sid' = Some ss' → c' ∈ ss_send ss' →
      cmd_Diid c' ≠ cmd_Diid c.
Proof.
  intros Hr%fasitd_reachable_inv. pose proof (fi_once _ Hr) as Hn. unfold underway in Hn.
  apply NoDup_app in Hn as (_ & _ & Hn). apply NoDup_app in Hn as (_ & Hdis & Hn).
  split; [done|]. intros sid c Hc. split; [by apply (fi_delivered _ Hr)|].
  intros sid' ss' c' Hs' Hc' Heq. apply (Hdis (cmd_Diid c')).
  - apply list_elem_of_fmap_2, list_elem_of_bind. exists (sid', ss'). split; [done|].
    by apply elem_of_map_to_list.
  - rewrite Heq. apply list_elem_of_fmap. by exists (sid, c).
Qed.
End once.

(** ** The buffers *)

Definition within_buffer (m : gmap N session) : Prop :=
  map_Forall (λ _ s, (length (ss_send s) ≤ sendBuffer)%nat) m.

Lemma within_buffer_alter m sid ss f :
  m !! sid = Some ss → (length (ss_send (f ss)) ≤ sendBuffer)%nat →
  within_buffer m → within_buffer (alter f sid m).
Proof.
  intros Hs Hf Hm sid' ss'. rewrite lookup_alter_Some. intros [(<- & s0 & H0 & ->)|[_ H']].
  - congruence.
  - by eapply Hm.
Qed.

Lemma fasitd_step_buffer s s' :
  fasitd_step s s' → within_buffer (ln_sessions (fd_lane s)) → within_buffer (ln_sessions (fd_lane s')).
Proof.
  assert (Haside : ∀ l l', aside l l' → within_buffer (ln_sessions l) → within_buffer (ln_sessions l'))
    by (intros l l' A; by rewrite (as_sessions _ _ A)).
  destruct 1; cbn [fd_lane]; intros Hm.
  - apply open_session_run in H as [A|(l1 & key & id & v & A & _ & _ & ->)]; [by eapply Haside|].
    apply (Haside _ _ A) in Hm. apply map_Forall_insert_2; [cbn; lia|exact Hm].
  - eapply Haside; [|exact Hm]. pose proof (aside_handleAgentMessage (ss_environmentID s) msg l) as A.
    match goal with E : handleAgentMessage _ _ _ _ = _ |- _ => by rewrite E in A end.
  - unfold close_done, modify in H. injection H as _ <-. cbn.
    destruct (ln_sessions l !! sid) as [ss|] eqn:Es.
    + eapply within_buffer_alter; [exact Es|exact (Hm _ _ Es)|done].
    + intros sid' ss'. rewrite lookup_alter_Some. intros [(<- & s0 & H0 & _)|[_ H']]; [congruence|].
      by eapply Hm.
  - match goal with E : remove_session _ _ = _ |- _ => rename E into Er end.
    unfold remove_session, registry_remove, mbind, M_bind in Er. cbn [gets] in Er. rewrite H in Er.
    injection Er as _ <-. by case_bool_decide.
  - cbn. eapply within_buffer_alter; [exact H| |exact Hm]. pose proof (Hm _ _ H) as Hl. cbv beta in Hl.
    match goal with E : ss_send _ = _ |- _ => rewrite E in Hl end. cbn in Hl |- *. lia.
  - apply create_command_fresh in H0. destruct o as [[diid vals]|e|p]; [|by eapply Haside..].
    destruct H0 as (l1 & now & A & _ & _ & ->). exact (Haside _ _ A Hm).
  - done.
  - unfold ready in H. destruct (ln_sessions l !! sid) as [ss|] eqn:Es; [|done].
    destruct c; cbn [chosen modify mret M_ret] in H0; injection H0 as _ <-; [|done..].
    apply bool_decide_eq_true in H. cbn. eapply within_buffer_alter; [exact Es| |exact Hm].
    cbn. rewrite length_app. cbn. lia.
  - eapply Haside; [|exact Hm].
    pose proof (aside_wrapping "append command status" _ (aside_appendStatus diid v.1 v.2) l) as A.
    unfold deployer_appendStatus in H. by rewrite H in A.
  - done.
Qed.

(** A session never holds more than [sendBuffer] commands that were not sent yet, in
    whatever reachable state; and one that holds as many takes no more: a dispatch to it
    waits, and is recorded as undeliverable when the timer fires or the session ends. *)
Theorem buffers_bounded s :
  fasitd_reachable s →
  ∀ sid ss, ln_sessions (fd_lane s) !! sid = Some ss →
    (length (ss_send ss) ≤ sendBuffer)%nat ∧
    (length (ss_send ss) = sendBuffer →
     ∀ c, ready (fd_lane s) sid c = true → (verdict c).1 = "undeliverable").
Proof.
  intros (s0 & (_ & _ & _ & _ & H0 & _) & Hs) sid ss Hss. split.
  - enough (within_buffer (ln_sessions (fd_lane s))) as Hm by exact (Hm _ _ Hss).
    eapply (steps_invariant fasitd_step (λ s, within_buffer (ln_sessions (fd_lane s)))); [|exact Hs|].
    + intros s1 s2 Hi Hstep. by eapply fasitd_step_buffer.
    + cbv beta. rewrite H0. apply map_Forall_empty.
  - intros Hfull c. unfold ready. rewrite Hss, Hfull. destruct c; [|done..].
    rewrite bool_decide_eq_false_2; [done|lia].
Qed.
End system.

(** ** A concrete history *)

Section example.
#[local] Abbreviation example_fasitd_step :=
  (fasitd_step (ext := echo) example_diid_text example_parse_diid) (only parsing).
#[local] Abbreviation example_fasitd_reachable :=
  (fasitd_reachable (ext := echo) example_diid_text example_parse_diid) (only parsing).

Definition example_fasitd_start : fasitd := Build_fasitd example_lane [] ∅ [].
Definition example_fasitd_connected : fasitd := Build_fasitd example_session_lane [] ∅ [].
Definition example_created_lane : lane := (create_command (ext := echo) example_deploy_decision example_session_lane).2.
Definition example_queued_lane : lane :=
  (chosen ChoseSend 1 (command_for example_diid_text 1000 "null" example_deploy_decision) example_created_lane).2.
Definition example_closed_lane : lane := (close_done 1 example_queued_lane).2.
Definition example_removed_lane : lane := (remove_session 1 example_closed_lane).2.
Definition example_lost_lane : lane := (deployer_appendStatus 1000 "sent" "" example_removed_lane).2.

Lemma example_fasitd_start_fresh : fresh_start example_fasitd_start.
Proof.
  split_and!; try done; [|apply NoDup_nil_2|intros c Hc; by apply elem_of_nil in Hc].
  split; simpl; try (apply (bool_decide_unpack _); vm_compute; exact I); by repeat constructor.
Qed.

Lemma example_fasitd_queued :
  steps example_fasitd_step example_fasitd_start
    (Build_fasitd example_queued_lane [DRecord 1000 ("sent", "")] ∅ []).
Proof.
  eapply steps_cons; [eapply (fs_connect _ _ _ _ _ _ (register_message "nav" "dev" "1.0")); vm_compute; reflexivity|].
  eapply steps_cons; [eapply (fs_create _ _ _ _ _ _ example_deploy_decision); [|vm_compute; reflexivity]|].
  { split; [reflexivity|]. eexists _, _. vm_compute. split; [left|]. split; [reflexivity|].
    split; [left|]. split_and!; reflexivity. }
  eapply steps_cons; [apply (fs_lookup _ _ _ [] [])|].
  eapply steps_cons; [eapply (fs_select _ _ ChoseSend _ [] []); vm_compute; reflexivity|].
  match goal with |- steps _ ?a ?b => assert (a = b) as ->; [vm_compute; reflexivity|] end. apply steps_refl.
Qed.

(** The status [sent] promises nothing: it says that a command was put into a session's
    buffer, and a session that ends takes its buffer with it.  There is a reachable state in
    which a command's status is [sent], no dispatch is under way, its session is closed and
    gone from the registry, and nothing was ever sent. *)
Theorem sent_may_be_lost :
  ∃ s, example_fasitd_reachable s ∧ command_status (fd_lane s) 1000 = Some "sent" ∧
    length (ln_commands (fd_lane s)) = 1%nat ∧ fd_dispatches s = [] ∧ fd_delivered s = [] ∧
    ln_registry (fd_lane s) = ∅ ∧
    ∀ sid ss, ln_sessions (fd_lane s) !! sid = Some ss → ss_done ss = true.
Proof.
  exists (Build_fasitd example_lost_lane [] ∅ []). split_and!; try (vm_compute; reflexivity).
  - exists example_fasitd_start. split; [apply example_fasitd_start_fresh|].
    eapply steps_trans; [apply example_fasitd_queued|].
    eapply steps_cons; [eapply (fs_disconnect _ _ _ _ _ _ 1 _ example_closed_lane); reflexivity|].
    eapply steps_cons; [eapply (fs_remove _ _ _ _ _ _ 1 _ _ example_removed_lane); vm_compute; reflexivity|].
    apply steps_one. apply (fs_record _ _ _ [] [] _ _ _ _ (Ok tt) example_lost_lane). vm_compute. reflexivity.
  - intros sid ss Hs.
    assert (ln_sessions example_lost_lane = {[ 1%N := Build_session ("nav", "dev") 7 "1.0"
      [command_for example_diid_text 1000 "null" example_deploy_decision] true ]}) as E
      by (vm_compute; reflexivity).
    cbn [fd_lane] in Hs. rewrite E in Hs. apply lookup_singleton_Some in Hs as [_ <-]. reflexivity.
Qed.

Lemma example_fasitd_connected_reachable : example_fasitd_reachable example_fasitd_connected.
Proof.
  exists example_fasitd_start. split; [apply example_fasitd_start_fresh|]. apply steps_one.
  eapply (fs_connect _ _ _ _ _ _ (register_message "nav" "dev" "1.0")). vm_compute. reflexivity.
Qed.

Lemma buffers_bounded_witness :
  ∃ ss, ln_sessions (fd_lane example_fasitd_connected) !! 1%N = Some ss ∧
    (length (ss_send ss) ≤ sendBuffer)%nat.
Proof.
  destruct (ln_sessions (fd_lane example_fasitd_connected) !! 1%N) as [ss|] eqn:E;
    [|vm_compute in E; discriminate E].
  exists ss. split; [reflexivity|].
  apply (buffers_bounded (ext := echo) example_diid_text example_parse_diid
    example_fasitd_connected example_fasitd_connected_reachable 1%N ss E).
Defined.

Lemma sessions_exclusive_witness :
  ∃ ss, ln_sessions (fd_lane example_fasitd_connected) !! 1%N = Some ss ∧ ss_key ss = ("nav", "dev").
Proof.
  apply (proj2 (proj2 (sessions_exclusive (ext := echo) example_diid_text example_parse_diid
    example_parse_text _ example_fasitd_connected_reachable))).
  vm_compute. reflexivity.
Defined.

Definition example_delivered : fasitd :=
  Build_fasitd (set_ln_sessions (alter (set_ss_send (λ _, [])) 1%N) example_queued_lane)
    [DRecord 1000 ("sent", "")] ∅ [(1%N, command_for example_diid_text 1000 "null" example_deploy_decision)].

Lemma commands_delivered_once_witness :
  example_fasitd_reachable example_delivered ∧
  ∃ ss, ln_sessions (fd_lane example_delivered) !! 1%N = Some ss ∧
    recorded_for example_diid_text (fd_lane example_delivered) (ss_environmentID ss)
      (command_for example_diid_text 1000 "null" example_deploy_decision).
Proof.
  assert (Hr : example_fasitd_reachable example_delivered).
  { exists example_fasitd_start. split; [apply example_fasitd_start_fresh|].
    eapply steps_trans; [apply example_fasitd_queued|]. apply steps_one.
    eapply (fs_send _ _ true _ _ ∅ [] 1%N); [vm_compute; reflexivity|set_solver|reflexivity]. }
  split; [exact Hr|].
  apply (proj1 (proj2 (commands_delivered_once (ext := echo) example_diid_text example_parse_diid
    example_parse_text _ Hr) 1%N (command_for example_diid_text 1000 "null" example_deploy_decision)
    ltac:(left))).
Defined.
End example.
